(* ===== verification/_CoqProject ===== *)
-Q . S2P
Prelude.v
Mem.v
Pmm.v
PmmSpec.v
Iface.v
Vma.v
VmaInv.v
VmaOps.v
Policy.v
PolicySpec.v
Random.v
RandomSpec.v
Vmm.v
VmmInv.v
VmmOps.v
VmmCow.v
VmmCopy.v
VmmTree.v
VmmClone.v
VmmSpec.v
Ramfs.v
RamfsInv.v
RamfsPool.v
RamfsFile.v
RamfsTrunc.v
RamfsTree.v
RamfsOps.v
RamfsApi.v
RamfsData.v
RamfsLink.v
RamfsRename.v
RamfsInit.v
RamfsRun.v
RamfsSpec.v
Elf.v
ElfSpec.v
Memory.v
MemoryInv.v
MemoryOps.v
MemorySpec.v
Thread.v
Domain.v
Reap.v
Sched.v
Futex.v
Process.v
SchedInv.v
ReapInv.v
SchedSample.v
SchedOps.v
ProcessOps.v
ProcessRun.v
SchedSpec.v
ProcessSpec.v
Files.v
Pipe.v
Fd.v
PipeInv.v
PipeFifo.v
FdInv.v
FdOps.v
FdCalls.v
FdSample.v
PipeSpec.v
FdSpec.v
