(* ===== verification/Prelude.v ===== *)
(** Verification of the Spore kernel.

    Spore is a small operating system for AArch64 written in C. The kernel
    ([kernel/src]) manages physical pages, user page tables and memory areas,
    loads ELF programs, keeps a file system in RAM, confines processes with
    capability policies, and runs threads that talk through pipes and futexes.
    This library translates parts of it into executable definitions and proves
    what they promise. Names follow the C code; each file opens with the name of
    the source file it models.

    * How C is modelled

    A [uintN_t] is a [Z] kept in range by [u8], [u16], [u32] and [u64], written
    where the C arithmetic can wrap. Bit operations are those of [Z]. Memory of
    the kernel is a function from addresses to bytes ([Mem]); a structure is a
    record, an array a list or a function from indices, a pointer into a static
    table an index, a null pointer [None]. Code with effects takes the state and
    returns the new one. An operation returns [None] only when the model has no
    more fuel or the C code has no defined behaviour there; the theorems about an
    operation state that it returns, those about sequences of steps
    ([running_thread_exclusive], [descriptors_accounted]) speak of the steps that do.

    * Files and the code they model

    - [Prelude]: integers, bits, lists, the [let*] notation, loops ([iter]),
      tactics and the hint database [spore]. [Mem]: [lib/mem.c], [kstr.h].
    - [Pmm], [PmmSpec]: the page allocator, [mm/pmm.c]. Bitmap, counters and the
      search hint are the state; [PmmSpec] refines it to a map from pages to
      reference counts.
    - [Iface]: the classes through which components use each other:
      [PageSource] and [PageLaws] (pages), [VfsRefs] and [VfsLaws] (references
      to files).
    - [Vma], [VmaInv], [VmaOps]: memory areas, [mm/vma.c], proved against the
      classes of [Iface]; the abstract view is a partial map from addresses to
      attributes.
    - [Vmm] and [VmmInv], [VmmOps], [VmmCow], [VmmCopy], [VmmTree], [VmmClone],
      [VmmSpec]: page tables, [mm/vmm.c]. The state is a machine: allocator,
      memory, TLB operations. The invariant [Inv w T L U] ties memory to the
      tables [T], the leaf entries [L] of every address space and the references
      [U] held elsewhere.
    - [Ramfs] and [RamfsInv], [RamfsPool], [RamfsFile], [RamfsTrunc],
      [RamfsTree], [RamfsOps], [RamfsApi], [RamfsData], [RamfsLink],
      [RamfsRename], [RamfsInit], [RamfsRun], [RamfsSpec]: the file system in
      RAM, [ramfs.c].
    - [Policy], [PolicySpec]: capability policies, [proc/policy.c].
    - [Random], [RandomSpec]: the random number generator, [random.c].
    - [Elf], [ElfSpec]: the ELF loader, [elf/loader.c].
    - [Memory], [MemoryInv], [MemoryOps], [MemorySpec]: address spaces of
      processes and page faults, [proc/memory.c], over [Vmm], [Vma] and a file
      store given by the class [FileStore] with the laws [StoreLaws].
    - [Thread], [Sched]: threads, their slots on the processors and the scheduler,
      [proc/thread.c] and the slots of [arch/aarch64/smp.c]. [Domain]:
      [proc/domain.c]. [Reap]: [cell_destroy_domain] and [cell_wake_parent_of],
      which call each other. [Futex]: [proc/futex.c]. [Process]:
      [proc/process.c], exit, fork, vfork, clone, wait4 and exec. The state [sys]
      extends that of [Memory]; the process code uses descriptors through the
      classes [Descriptors] and [Host] with the laws [HostLaws], which [FdOps]
      proves of the descriptor code. A processor that finds
      no thread waits with the lock released: the outcome [Waiting] carries its
      local variables, and [schedule_resume] goes on.
    - [SchedInv], [ReapInv], [SchedOps], [ProcessOps], [ProcessRun]: every
      operation is [mild], it starts no thread and stops none of another
      processor. [SchedSample]: a small system on which theorems are applied.
      [SchedSpec], [ProcessSpec]: the theorems; [ProcessSpec] lets the processors
      take turns in the kernel in any order ([step]).
    - [Files]: open files, pipes and descriptor tables, the data of [cell.h] and
      [proc/pipe.c]. [Pipe]: [proc/pipe.c]. [Fd]: [proc/fd.c] and the loop of
      [cell_exec_replace] over descriptors. They call polling, sockets and
      terminals through the classes [FileHost] and [NodeHost], with the laws
      [FileLaws].
    - [PipeInv]: a transfer through a pipe leaves descriptors, open files and the
      ends of pipes alone. [PipeFifo], [PipeSpec]: the ring of pages of a pipe as a
      queue of bytes, what the loops of [cell_pipe_write_id_from_domain] and
      [cell_pipe_read_id_to_domain] do to it, and that a new pipe is empty. [FdInv]: the accounts, references and ends counted with
      what an operation holds at the moment ([flight]). [FdOps], [FdCalls]: every
      call keeps the accounts. [FdSample], [FdSpec]: an example and the theorems.

    * What the theorems show

    - The page allocator refines an abstract counter of references; no page is
      handed out twice or lost.
    - Page table operations change exactly the translations they name, keep
      every other address space, account for every reference, and return.
      Copy-on-write is invisible to the contents each side sees.
    - Area lists stay sorted, disjoint and without leaks; unmapping and
      protecting act on exactly the addresses of the range.
    - Faults and checks of user ranges map what the area promises.
    - The file system keeps its tree and page pool well formed on every sequence
      of calls; reads return what was written; sealed files do not change;
      unlinked files live until their last reference.
    - Policies only ever restrict, up to the exceptions stated as theorems.
    - The loader adds exactly the segments of the headers, within the file.
    - No thread runs on two processors, whatever the order in which they enter the
      kernel; a thread that waits for a processor is overlooked less often than
      the table has slots; a switch restores the registers and the address space
      that were saved.
    - A futex wake-up finds every thread that blocked on the address; the exit of
      a child reaches its parent; destroying a family of domains terminates.
    - Reference counts of open files and the numbers of readers and writers of
      pipes are exact after every sequence of calls on descriptors, failing ones
      included; the end of the last writer of a pipe reaches its readers.
    - A pipe is a queue: a write appends the bytes of the user range, a read takes
      the oldest bytes, and a failing call leaves the queue as it was.
    - Some theorems show that the code does not do what it means to
      ([fs_rules_lost], [random_bytes_overruns], [ramfs_rename_onto_self],
      [ensure_range_wrong_domain], [permission_fault_breaks_cow],
      [exec_frees_running_thread], [wait_for_group_lost], [pipe2_loses_pipe]).

    * Bounds and fuel

    Loops over a table are structural in its length. Other loops are [iter step
    fuel]; the fuel is a bound on the number of turns computed from the
    arguments: pages of a range ([pages_fuel]), chunks of a copy ([copy_fuel],
    one more than two partial pages), nodes and pages of the file system
    ([chain_fuel]), four levels of page tables. [iter_spec] reduces the claim that
    the fuel is enough to a measure, and the theorems about these loops state
    that they return. Hypotheses on sizes say where the C arithmetic does not wrap.

    * Not modelled

    Device drivers, interrupt and exception entry, the boot loader and the
    start-up of secondary processors consist of register and port accesses whose
    meaning is in the hardware. The disk file system ([ext2.c]), the virtual file
    system ([vfs.c]), sockets and the network, terminals, signals, polling and
    the decoding of system calls call many other parts; they are not translated,
    and where the modelled code calls them they appear as classes with stated
    laws. Of [proc/fd.c], the calls that only pass on to the virtual file system
    ([cell_fd_stat], [cell_fd_next_dirent], seals) are left out. The accounts of
    descriptors are for files other than sockets and terminals. User programs and
    build tools are outside the kernel. The memory model
    is sequential: the kernel holds one lock while it runs.

    [cell_schedule] runs for ever when no thread ever becomes runnable; one turn of
    its loop is a total function, and the theorems speak of turns. *)

From stdpp Require Import base numbers list list_numbers strings option.
From Stdlib Require Import ZArith Lia.

#[global] Open Scope Z_scope.

Declare Scope c_scope.
Delimit Scope c_scope with C.
#[global] Open Scope c_scope.

(** ** Machine integers

    A [uintN_t] is a [Z]; arithmetic that the C code performs at width [N] is
    followed by the matching reduction. *)

Definition u8 (x : Z) : Z := x mod 2 ^ 8.
Definition u16 (x : Z) : Z := x mod 2 ^ 16.
Definition u32 (x : Z) : Z := x mod 2 ^ 32.
Definition u64 (x : Z) : Z := x mod 2 ^ 64.

Definition UINT16_MAX : Z := 65535.
Definition UINT32_MAX : Z := 4294967295.
Definition UINT64_MAX : Z := 18446744073709551615.

Definition is_u8 (x : Z) : Prop := 0 <= x < 2 ^ 8.
Definition is_u16 (x : Z) : Prop := 0 <= x < 2 ^ 16.
Definition is_u32 (x : Z) : Prop := 0 <= x < 2 ^ 32.
Definition is_u64 (x : Z) : Prop := 0 <= x < 2 ^ 64.

(** The C operators on bit masks. *)
Notation "x .& y" := (Z.land x y) (at level 40, left associativity) : c_scope.
Notation "x .| y" := (Z.lor x y) (at level 50, left associativity) : c_scope.
Notation "x .^ y" := (Z.lxor x y) (at level 45, left associativity) : c_scope.

(** [~x] at the widths the kernel uses it. *)
Definition not64 (x : Z) : Z := u64 (Z.lnot x).
Definition not32 (x : Z) : Z := u32 (Z.lnot x).

(** [(x & m) != 0]. *)
Definition has (x m : Z) : bool := negb (Z.land x m =? 0).

(** ** The option bind used by fallible and fuelled code *)

Definition obind {A B} (m : option A) (k : A -> option B) : option B :=
  match m with Some a => k a | None => None end.

Notation "'let*' p ':=' m 'in' k" := (obind m (fun p => k))
  (at level 10, p pattern, m at level 100, k at level 200) : c_scope.

(** ** Loops

    A C loop whose termination is not structural is a step function that either
    continues with a new state or leaves with a result. [iter] runs it with
    fuel; [None] means the fuel ran out. *)

Fixpoint iter {St R : Type} (step : St -> St + R) (fuel : nat) (s : St) : option R :=
  match fuel with
  | O => None
  | S f => match step s with inl s' => iter step f s' | inr r => Some r end
  end.

(** [for (i = start; i < start + n; ++i) if (p(i)) return i;] *)
Fixpoint first_from (p : nat -> bool) (start n : nat) : option nat :=
  match n with
  | O => None
  | S n' => if p start then Some start else first_from p (S start) n'
  end.

(** Number of [i < n] with [f i]. *)
Fixpoint countb (f : Z -> bool) (n : nat) : Z :=
  match n with
  | O => 0
  | S n' => countb f n' + (if f (Z.of_nat n') then 1 else 0)
  end.

(** [__builtin_ctzll]: the index of the lowest set bit of a positive number. *)
Fixpoint ctz_pos (p : positive) : Z :=
  match p with
  | xO q => 1 + ctz_pos q
  | _ => 0
  end.

Definition ctz (x : Z) : Z :=
  match x with Zpos p => ctz_pos p | _ => 0 end.

(** ** Tactics *)

(** Linear arithmetic modulo Euclidean division. *)
Ltac dmlia := Z.div_mod_to_equations; lia.
Ltac dmnia := Z.div_mod_to_equations; nia.

(** Case analysis on every boolean comparison of [Z] in the goal or context. *)
Ltac zcases :=
  repeat match goal with
  | |- context [Z.ltb ?a ?b] => destruct (Z.ltb_spec a b)
  | |- context [Z.leb ?a ?b] => destruct (Z.leb_spec a b)
  | |- context [Z.eqb ?a ?b] => destruct (Z.eqb_spec a b)
  end.

(** Invert a chain of option binds in [H : _ = Some _]. *)
Ltac obinds H :=
  unfold obind in H;
  repeat match type of H with
  | match ?x with _ => _ end = Some _ => destruct x as [[? ?]|] eqn:?; [|done]
  | match ?x with _ => _ end = Some _ => destruct x as [?|] eqn:?; [|done]
  end.

(** Boolean hypotheses into propositions. *)
Ltac zbool :=
  repeat match goal with
  | H : (_ && _)%bool = true |- _ => apply andb_true_iff in H as [? ?]
  | H : (_ || _)%bool = false |- _ => apply orb_false_iff in H as [? ?]
  | H : negb _ = true |- _ => apply negb_true_iff in H
  | H : negb _ = false |- _ => apply negb_false_iff in H
  | H : Z.ltb _ _ = true |- _ => apply Z.ltb_lt in H
  | H : Z.ltb _ _ = false |- _ => apply Z.ltb_ge in H
  | H : Z.leb _ _ = true |- _ => apply Z.leb_le in H
  | H : Z.leb _ _ = false |- _ => apply Z.leb_gt in H
  | H : Z.eqb _ _ = true |- _ => apply Z.eqb_eq in H
  | H : Z.eqb _ _ = false |- _ => apply Z.eqb_neq in H
  | H : Nat.eqb _ _ = true |- _ => apply Nat.eqb_eq in H
  | H : Nat.eqb _ _ = false |- _ => apply Nat.eqb_neq in H
  | H : Nat.leb _ _ = true |- _ => apply Nat.leb_le in H
  | H : Nat.leb _ _ = false |- _ => apply Nat.leb_gt in H
  | H : Nat.ltb _ _ = true |- _ => apply Nat.ltb_lt in H
  | H : Nat.ltb _ _ = false |- _ => apply Nat.ltb_ge in H
  end.

Create HintDb spore.

(** ** Machine-integer lemmas *)

Lemma u64_small x : is_u64 x -> u64 x = x.
Proof. intros H. by apply Z.mod_small. Qed.

Lemma u32_small x : is_u32 x -> u32 x = x.
Proof. intros H. by apply Z.mod_small. Qed.

Lemma u16_small x : is_u16 x -> u16 x = x.
Proof. intros H. by apply Z.mod_small. Qed.

Lemma u64_range x : is_u64 (u64 x).
Proof. apply Z.mod_pos_bound. lia. Qed.

Lemma u32_range x : is_u32 (u32 x).
Proof. apply Z.mod_pos_bound. lia. Qed.

Lemma u16_range x : is_u16 (u16 x).
Proof. apply Z.mod_pos_bound. lia. Qed.

Lemma u8_range x : is_u8 (u8 x).
Proof. apply Z.mod_pos_bound. lia. Qed.

#[export] Hint Resolve u64_range u32_range u16_range u8_range : spore.

Lemma testbit_u64 x i : 0 <= i -> Z.testbit (u64 x) i = (i <? 64) && Z.testbit x i.
Proof. intros Hi. unfold u64. apply Z.testbit_mod_pow2. lia. Qed.

Lemma testbit_not64 x i : 0 <= i < 64 -> Z.testbit (not64 x) i = negb (Z.testbit x i).
Proof.
  intros Hi. unfold not64. rewrite testbit_u64 by lia.
  replace (i <? 64) with true by lia. by rewrite Z.lnot_spec by lia.
Qed.

Lemma testbit_not64_high x i : 64 <= i -> Z.testbit (not64 x) i = false.
Proof.
  intros Hi. unfold not64. rewrite testbit_u64 by lia.
  by replace (i <? 64) with false by lia.
Qed.

Lemma testbit_pow2 n i : 0 <= n -> Z.testbit (2 ^ n) i = (i =? n).
Proof.
  intros Hn. destruct (Z.eqb_spec i n) as [->|Hne].
  - by apply Z.pow2_bits_true.
  - apply Z.pow2_bits_false; lia.
Qed.

Lemma testbit_bound x n i : 0 <= x < 2 ^ n -> 0 <= n <= i -> Z.testbit x i = false.
Proof.
  intros Hx Hi. rewrite <- (Z.mod_small x (2 ^ n)) by lia.
  rewrite Z.testbit_mod_pow2 by lia. by replace (i <? n) with false by lia.
Qed.

(** A non-negative number all of whose bits above [n] are clear is below [2^n]. *)
Lemma bits_bound x n :
  0 <= x -> 0 <= n -> (forall i, n <= i -> Z.testbit x i = false) -> x < 2 ^ n.
Proof.
  intros Hx Hn Hb. assert (x = x mod 2 ^ n) as ->.
  { apply Z.bits_inj'. intros i Hi. rewrite Z.testbit_mod_pow2 by lia.
    destruct (Z.ltb_spec i n); [done|]. simpl. by apply Hb. }
  apply Z.mod_pos_bound. lia.
Qed.

Lemma land_u64 x y : is_u64 x -> 0 <= y -> is_u64 (x .& y).
Proof.
  intros Hx Hy. assert (0 <= x .& y) by (apply Z.land_nonneg; unfold is_u64 in Hx; lia).
  split; [done|]. apply bits_bound; [done|lia|]. intros i Hi.
  rewrite Z.land_spec, (testbit_bound x 64) by (unfold is_u64 in Hx; lia). done.
Qed.

Lemma lor_u64 x y : is_u64 x -> is_u64 y -> is_u64 (x .| y).
Proof.
  unfold is_u64. intros Hx Hy. assert (0 <= x .| y) by (apply Z.lor_nonneg; lia).
  split; [done|]. apply bits_bound; [done|lia|]. intros i Hi.
  by rewrite Z.lor_spec, (testbit_bound x 64), (testbit_bound y 64) by lia.
Qed.

Lemma lxor_u64 x y : is_u64 x -> is_u64 y -> is_u64 (x .^ y).
Proof.
  unfold is_u64. intros Hx Hy. assert (0 <= x .^ y) by (apply Z.lxor_nonneg; lia).
  split; [done|]. apply bits_bound; [done|lia|]. intros i Hi.
  by rewrite Z.lxor_spec, (testbit_bound x 64), (testbit_bound y 64) by lia.
Qed.

(** Testing a single bit with a mask. *)
(** Disjoint bit fields are added by or. *)
Lemma lor_add x y n : 0 <= n -> 0 <= x < 2 ^ n -> y mod 2 ^ n = 0 -> x .| y = x + y.
Proof.
  intros Hn Hx Hy. assert (x .& y = 0) as H0.
  { apply Z.bits_inj'. intros i Hi. rewrite Z.land_spec, Z.testbit_0_l.
    destruct (Z.ltb_spec i n).
    - assert (Z.testbit y i = false) as ->; [|apply andb_false_r].
      rewrite <- (Z.mod_pow2_bits_low y n i) by lia. rewrite Hy. apply Z.testbit_0_l.
    - rewrite (testbit_bound x n) by lia. done. }
  rewrite Z.add_nocarry_lxor by done. by rewrite <- Z.lxor_lor.
Qed.

(** The four bytes of a little-endian word. *)
Lemma or4_sum a b c d :
  0 <= a < 2 ^ 8 -> 0 <= b < 2 ^ 8 -> 0 <= c < 2 ^ 8 -> 0 <= d < 2 ^ 8 ->
  a .| u32 (Z.shiftl b 8) .| u32 (Z.shiftl c 16) .| u32 (Z.shiftl d 24) =
  a + b * 2 ^ 8 + c * 2 ^ 16 + d * 2 ^ 24.
Proof.
  intros Ha Hb Hc Hd. rewrite !Z.shiftl_mul_pow2 by lia.
  rewrite !u32_small by (unfold is_u32; lia).
  rewrite (lor_add a (b * 2 ^ 8) 8) by (lia || (apply Z.mod_mul; lia)).
  rewrite (lor_add (a + b * 2 ^ 8) (c * 2 ^ 16) 16) by (lia || (apply Z.mod_mul; lia)).
  by rewrite (lor_add _ (d * 2 ^ 24) 24) by (lia || (apply Z.mod_mul; lia)).
Qed.

Lemma has_pow2 x n : 0 <= n -> has x (2 ^ n) = Z.testbit x n.
Proof.
  intros Hn. unfold has. destruct (Z.eqb_spec (x .& 2 ^ n) 0) as [He|He].
  - symmetry. assert (Z.testbit (x .& 2 ^ n) n = false) as Hb by (rewrite He; apply Z.bits_0).
    by rewrite Z.land_spec, testbit_pow2, Z.eqb_refl, andb_true_r in Hb by lia.
  - destruct (Z.testbit x n) eqn:Hb; [done|]. exfalso. apply He. apply Z.bits_inj'.
    intros i Hi. rewrite Z.land_spec, testbit_pow2, Z.bits_0 by lia.
    destruct (Z.eqb_spec i n) as [->|]; [by rewrite Hb|by rewrite andb_false_r].
Qed.

(** Clearing the low [n] bits rounds down to a multiple of [2^n]. *)
Lemma land_not64_low x n :
  is_u64 x -> 0 <= n <= 64 -> x .& not64 (2 ^ n - 1) = 2 ^ n * (x / 2 ^ n).
Proof.
  intros Hx Hn. apply Z.bits_inj'. intros i Hi.
  rewrite Z.land_spec, (Z.mul_comm (2 ^ n)), <- Z.shiftl_mul_pow2, <- Z.shiftr_div_pow2 by lia.
  rewrite Z.shiftl_spec by lia.
  replace (2 ^ n - 1) with (Z.ones n) by (rewrite Z.ones_equiv; lia).
  destruct (Z.ltb_spec i 64).
  - rewrite testbit_not64 by lia. rewrite Z.testbit_ones_nonneg by lia.
    destruct (Z.ltb_spec i n); simpl.
    + rewrite andb_false_r. rewrite Z.testbit_neg_r by lia. done.
    + rewrite andb_true_r, Z.shiftr_spec by lia. f_equal. lia.
  - rewrite (testbit_bound x 64) by (unfold is_u64 in Hx; lia). simpl.
    rewrite Z.shiftr_spec by lia. symmetry. apply (testbit_bound x 64); [done|lia].
Qed.

(** ** [ctz] *)

Lemma ctz_pos_nonneg p : 0 <= ctz_pos p.
Proof. induction p; simpl; lia. Qed.

Lemma ctz_pos_testbit p : Z.testbit (Zpos p) (ctz_pos p) = true.
Proof.
  induction p as [p _|p IH|]; [done| |done]. cbn [ctz_pos].
  pose proof (ctz_pos_nonneg p). rewrite Pos2Z.inj_xO, Z.double_bits.
  by replace (Z.pred (1 + ctz_pos p)) with (ctz_pos p) by lia.
Qed.

Lemma ctz_pos_low p i : 0 <= i < ctz_pos p -> Z.testbit (Zpos p) i = false.
Proof.
  revert i. induction p as [p _|p IH|]; cbn [ctz_pos]; intros i Hi; [lia| |lia].
  rewrite Pos2Z.inj_xO, Z.double_bits. destruct (Z.eqb_spec i 0) as [->|]; [done|].
  apply IH. lia.
Qed.

Lemma ctz_spec x :
  0 < x -> Z.testbit x (ctz x) = true /\ (forall i, 0 <= i < ctz x -> Z.testbit x i = false).
Proof.
  intros Hx. destruct x as [|p|p]; [lia| |lia]. split.
  - apply ctz_pos_testbit.
  - apply ctz_pos_low.
Qed.

Lemma ctz_range x n : 0 < x < 2 ^ n -> 0 <= n -> 0 <= ctz x < n.
Proof.
  intros Hx Hn. split.
  - destruct x; simpl; [done|apply ctz_pos_nonneg|done].
  - destruct (ctz_spec x) as [Ht _]; [lia|]. apply Z.nle_gt. intros Hle.
    by rewrite (testbit_bound x n) in Ht by lia.
Qed.

(** ** [first_from], [countb] and [iter] *)

Lemma first_from_Some p start n k :
  first_from p start n = Some k ->
  (start <= k < start + n)%nat /\ p k = true /\ (forall j, (start <= j < k)%nat -> p j = false).
Proof.
  revert start. induction n as [|n IH]; intros start; simpl; [done|].
  destruct (p start) eqn:E.
  - intros [= <-]. split; [lia|]. split; [done|]. intros j Hj. lia.
  - intros H. apply IH in H as (H1 & H2 & H3). split; [lia|]. split; [done|].
    intros j Hj. destruct (decide (j = start)) as [->|]; [done|]. apply H3. lia.
Qed.

Lemma first_from_None p start n :
  first_from p start n = None <-> (forall j, (start <= j < start + n)%nat -> p j = false).
Proof.
  revert start. induction n as [|n IH]; intros start; simpl.
  - split; [intros _ j Hj; lia|done].
  - destruct (p start) eqn:E.
    + split; [done|]. intros H. by rewrite H in E by lia.
    + rewrite IH. split; intros H j Hj.
      * destruct (decide (j = start)) as [->|]; [done|]. apply H. lia.
      * apply H. lia.
Qed.

Lemma first_from_ext p q start n :
  (forall j, (start <= j < start + n)%nat -> p j = q j) ->
  first_from p start n = first_from q start n.
Proof.
  revert start. induction n as [|n IH]; intros start H; simpl; [done|].
  rewrite H by lia. destruct (q start); [done|]. apply IH. intros j Hj. apply H. lia.
Qed.

Lemma countb_ext f g n :
  (forall i, 0 <= i < Z.of_nat n -> f i = g i) -> countb f n = countb g n.
Proof.
  induction n as [|n IH]; intros H; simpl; [done|].
  rewrite IH by (intros; apply H; lia). rewrite H by lia. done.
Qed.

Lemma countb_bounds f n : 0 <= countb f n <= Z.of_nat n.
Proof. induction n as [|n IH]; simpl; [lia|]. destruct (f _); lia. Qed.

(** Switching the predicate on at a single point adds one. *)
Lemma countb_switch f g n p :
  0 <= p < Z.of_nat n -> f p = false -> g p = true ->
  (forall i, 0 <= i < Z.of_nat n -> i <> p -> f i = g i) ->
  countb g n = countb f n + 1.
Proof.
  intros Hp Hf Hg. induction n as [|n IH]; [lia|]. intros H. cbn [countb].
  destruct (Z.eq_dec p (Z.of_nat n)) as [->|Hne].
  - rewrite Hf, Hg. rewrite (countb_ext f g) by (intros; apply H; lia). lia.
  - rewrite IH by (try lia; intros; apply H; lia). rewrite (H (Z.of_nat n)) by lia. lia.
Qed.

Lemma countb_zero f n : countb f n = 0 <-> (forall i, 0 <= i < Z.of_nat n -> f i = false).
Proof.
  induction n as [|n IH]; cbn [countb].
  - split; [intros _ i Hi; lia|done].
  - pose proof (countb_bounds f n). split.
    + intros H0 i Hi. destruct (f (Z.of_nat n)) eqn:E; [lia|].
      destruct (Z.eq_dec i (Z.of_nat n)) as [->|]; [done|]. apply IH; lia.
    + intros H0. rewrite (H0 (Z.of_nat n)) by lia. rewrite (proj2 IH); [done|].
      intros i Hi. apply H0. lia.
Qed.

Lemma countb_extend f n m :
  (n <= m)%nat -> (forall i, Z.of_nat n <= i < Z.of_nat m -> f i = false) -> countb f m = countb f n.
Proof.
  intros Hle. induction Hle as [|m Hle IH]; intros Hf; [done|]. cbn [countb].
  rewrite (Hf (Z.of_nat m)) by lia. rewrite IH; [lia|]. intros i Hi. apply Hf. lia.
Qed.

Section Iter.
Context {St R : Type} (step : St -> St + R) (Inv : St -> Prop).

(** Partial correctness of a loop by an invariant. *)
Lemma iter_inv (Q : R -> Prop) fuel s r :
  (forall s s', Inv s -> step s = inl s' -> Inv s') ->
  (forall s r, Inv s -> step s = inr r -> Q r) ->
  Inv s -> iter step fuel s = Some r -> Q r.
Proof.
  intros Hstep Hexit. revert s. induction fuel as [|f IH]; intros s HI; simpl; [done|].
  destruct (step s) as [s'|r'] eqn:E; intros H.
  - eapply IH; [|done]. by eapply Hstep.
  - simplify_eq. by eapply Hexit.
Qed.

(** Termination of a loop by a measure, under an invariant. *)
Lemma iter_total (m : St -> nat) fuel s :
  (forall s s', Inv s -> step s = inl s' -> Inv s' /\ (m s' < m s)%nat) ->
  Inv s -> (m s < fuel)%nat -> exists r, iter step fuel s = Some r.
Proof.
  intros Hstep. revert s. induction fuel as [|f IH]; intros s HI Hm; simpl; [lia|].
  destruct (step s) as [s'|r'] eqn:E; [|by eexists].
  destruct (Hstep _ _ HI E). apply IH; [done|lia].
Qed.

(** Total correctness: a measure and an invariant. *)
Lemma iter_spec (m : St -> nat) (Q : R -> Prop) fuel s :
  (forall s s', Inv s -> step s = inl s' -> Inv s' /\ (m s' < m s)%nat) ->
  (forall s r, Inv s -> step s = inr r -> Q r) ->
  Inv s -> (m s < fuel)%nat -> exists r, iter step fuel s = Some r /\ Q r.
Proof.
  intros Hstep Hexit HI Hm. destruct (iter_total m fuel s Hstep HI Hm) as [r Hr].
  exists r. split; [done|]. eapply iter_inv; [|done|done|done]. intros s1 s2 H1 H2. by eapply Hstep.
Qed.
End Iter.

(** A loop over [len] bytes from [base] that stops at every multiple of [sz]. *)
Lemma iter_chunked {St R} (step : Z * St -> (Z * St) + R) (P : Z -> St -> Prop) (Q : R -> Prop) sz base len fuel s :
  0 < sz -> 0 <= len -> (Z.to_nat (len / sz) + 2 < fuel)%nat ->
  (forall done s, 0 <= done < len -> P done s ->
     match step (done, s) with
     | inl (d, s') => d = done + Z.min (len - done) (sz - (base + done) mod sz) /\ P d s'
     | inr r => Q r
     end) ->
  (forall s, P len s -> exists r, step (len, s) = inr r /\ Q r) ->
  P 0 s -> exists r, iter step fuel (0, s) = Some r /\ Q r.
Proof.
  intros Hsz Hl Hfuel Hstep Hexit HP.
  assert (forall x, 0 <= x mod sz < sz) as Hm by (intros x; apply Z.mod_pos_bound; done).
  assert (forall x, x = sz * (x / sz) + x mod sz) as Hdm by (intros x; apply Z.div_mod; lia).
  apply (iter_spec step (fun '(done, s) => 0 <= done <= len /\ P done s)
    (fun '(done, s) => if done <? len then S (Z.to_nat ((base + len - 1) / sz - (base + done) / sz)) else O)).
  - intros [d s1] [d' s2] [Hd HP1] E. destruct (Z.eq_dec d len) as [->|Hne].
    { destruct (Hexit s1 HP1) as (r & Hr & _). congruence. }
    specialize (Hstep d s1 ltac:(lia) HP1). rewrite E in Hstep. destruct Hstep as [-> HP2].
    pose proof (Hm (base + d)). split; [split; [lia|done]|]. replace (d <? len) with true by lia.
    destruct (Z.ltb_spec (d + Z.min (len - d) (sz - (base + d) mod sz)) len) as [Hlt|]; [|lia].
    rewrite Z.min_r in * by lia.
    replace (base + (d + (sz - (base + d) mod sz))) with (((base + d) / sz + 1) * sz) by (pose proof (Hdm (base + d)); lia).
    rewrite Z.div_mul by lia. assert ((base + d) / sz + 1 <= (base + len - 1) / sz); [|lia].
    apply Z.div_le_lower_bound; [done|]. pose proof (Hdm (base + d)). lia.
  - intros [d s1] r [Hd HP1] E. destruct (Z.eq_dec d len) as [->|Hne].
    { destruct (Hexit s1 HP1) as (r' & Hr & HQ). congruence. }
    specialize (Hstep d s1 ltac:(lia) HP1). by rewrite E in Hstep.
  - split; [lia|done].
  - destruct (Z.ltb_spec 0 len) as [Hpos|]; [|lia]. rewrite Z.add_0_r.
    assert ((base + len - 1) / sz <= base / sz + len / sz + 1); [|lia].
    apply Z.lt_succ_r, Z.div_lt_upper_bound; [done|]. pose proof (Hdm base). pose proof (Hdm len).
    pose proof (Hm base). pose proof (Hm len). nia.
Qed.

(** ** Lists *)

Lemma lookup_total_insert_list {A} `{Inhabited A} (l : list A) i j x :
  (i < length l)%nat -> <[i:=x]> l !!! j = if decide (i = j) then x else l !!! j.
Proof.
  intros Hi. destruct (decide (i = j)) as [<-|Hne].
  - by rewrite list_lookup_total_insert_eq.
  - by rewrite list_lookup_total_insert_ne.
Qed.

Lemma Forall_lookup_total {A} `{Inhabited A} (P : A -> Prop) (l : list A) i :
  Forall P l -> (i < length l)%nat -> P (l !!! i).
Proof.
  intros HF Hi. destruct (lookup_lt_is_Some_2 l i Hi) as [x Hx].
  rewrite (list_lookup_total_correct _ _ _ Hx). by eapply Forall_lookup_1.
Qed.

(** Indexing into chunks of equal length. *)
Lemma concat_lookup {A} (k : nat) (cs : list (list A)) i :
  (0 < k)%nat -> Forall (fun c => length c = k) cs ->
  concat cs !! i = cs !! (i / k)%nat ≫= (.!! (i mod k)%nat).
Proof.
  intros Hk. revert i. induction cs as [|c cs IH]; intros i HF; simpl; [by rewrite lookup_nil|].
  apply Forall_cons_1 in HF as [Hc HF]. destruct (decide (i < k)%nat) as [Hi|Hi].
  - rewrite Nat.div_small, Nat.mod_small by done. simpl. by rewrite lookup_app_l by lia.
  - rewrite lookup_app_r by lia. rewrite Hc, IH by done.
    assert (i = (i - k) + 1 * k)%nat as Hik by lia. rewrite Hik at 3 4.
    rewrite Nat.div_add, Nat.Div0.mod_add by lia. by rewrite Nat.add_1_r.
Qed.

Lemma concat_alter {A} (k : nat) (cs : list (list A)) i x :
  (0 < k)%nat -> Forall (fun c => length c = k) cs ->
  concat (alter (<[(i mod k)%nat := x]>) (i / k)%nat cs) = <[i := x]> (concat cs).
Proof.
  intros Hk. revert i. induction cs as [|c cs IH]; intros i HF; [by destruct (i / k)%nat|].
  apply Forall_cons_1 in HF as [Hc HF]. destruct (decide (i < k)%nat) as [Hi|Hi].
  - rewrite Nat.div_small, Nat.mod_small by done. simpl. by rewrite insert_app_l by lia.
  - assert (i = (i - k) + 1 * k)%nat as Hik by lia. rewrite Hik at 1 2.
    rewrite Nat.div_add, Nat.Div0.mod_add by lia. rewrite Nat.add_1_r.
    change (concat (c :: cs)) with (c ++ concat cs).
    assert (i = length c + (i - k))%nat as Hic by lia. rewrite Hic at 3. rewrite insert_app_r.
    rewrite <- IH by done. done.
Qed.

Lemma concat_length_const {A} (k : nat) (cs : list (list A)) :
  Forall (fun c => length c = k) cs -> length (concat cs) = (length cs * k)%nat.
Proof. induction 1 as [|c cs Hc _ IH]; simpl; [done|]. rewrite length_app. lia. Qed.

(** ** Sums *)

Fixpoint zsum {A} (f : A -> Z) (l : list A) : Z :=
  match l with [] => 0 | x :: l' => f x + zsum f l' end.

Lemma zsum_app {A} (f : A -> Z) l1 l2 : zsum f (l1 ++ l2) = zsum f l1 + zsum f l2.
Proof. induction l1 as [|x l1 IH]; simpl; lia. Qed.

Lemma zsum_replicate {A} (f : A -> Z) n x : zsum f (replicate n x) = Z.of_nat n * f x.
Proof. induction n as [|n IH]; cbn [replicate zsum]; lia. Qed.

Lemma zsum_insert {A} (f : A -> Z) l i x y :
  l !! i = Some x -> zsum f (<[i := y]> l) = zsum f l - f x + f y.
Proof.
  revert i. induction l as [|z l IH]; intros [|i]; simpl; intros H; simplify_eq; [lia|].
  rewrite IH by done. lia.
Qed.

Lemma zsum_zero {A} (f : A -> Z) l : (forall x, x ∈ l -> f x = 0) -> zsum f l = 0.
Proof.
  induction l as [|x l IH]; simpl; intros H; [done|].
  rewrite (H x) by left. rewrite IH; [done|]. intros y Hy. apply H. by right.
Qed.
