(* ===== verification/Mem.v ===== *)
(** Kernel byte memory ([kernel/src/lib/mem.c]) and the C-string helpers
    ([kernel/src/include/kstr.h]).

    [Module Mem] models memory as a total map from kernel virtual addresses to
    bytes and [kmemset], [kmemcpy], [kmemcmp] as the byte loops of the source.
    [Module Kstr] models a NUL-terminated [const char *] as the [string] of the
    characters before the NUL, so that stopping at ['\0'] is reaching the end of
    the string; a [NULL] pointer, where the source accepts one, is [None]. *)

From stdpp Require Import base numbers list strings option.
From Stdlib Require Import ZArith Lia Ascii String.
From S2P Require Import Prelude.

Module Mem.

Definition kmem : Type := Z -> Z.

Definition store8 (m : kmem) (a v : Z) : kmem := fun x => if x =? a then v else m x.

Fixpoint kmemset_from (m : kmem) (p value : Z) (i : Z) (n : nat) : kmem :=
  match n with
  | O => m
  | S n' => kmemset_from (store8 m (u64 (p + i)) (u8 value)) p value (i + 1) n'
  end.

Definition kmemset (m : kmem) (dst value len : Z) : kmem :=
  kmemset_from m dst value 0 (Z.to_nat len).

Fixpoint kmemcpy_from (m : kmem) (d s : Z) (i : Z) (n : nat) : kmem :=
  match n with
  | O => m
  | S n' => kmemcpy_from (store8 m (u64 (d + i)) (m (u64 (s + i)))) d s (i + 1) n'
  end.

Definition kmemcpy (m : kmem) (dst src len : Z) : kmem :=
  kmemcpy_from m dst src 0 (Z.to_nat len).

Fixpoint kmemcmp_from (m : kmem) (a b : Z) (i : Z) (n : nat) : Z :=
  match n with
  | O => 0
  | S n' =>
      if negb (m (u64 (a + i)) =? m (u64 (b + i)))
      then m (u64 (a + i)) - m (u64 (b + i))
      else kmemcmp_from m a b (i + 1) n'
  end.

Definition kmemcmp (m : kmem) (a b len : Z) : Z :=
  kmemcmp_from m a b 0 (Z.to_nat len).

(** Little-endian access to [n] bytes through a [uint64_t *] and the like. *)
Fixpoint load_le (m : kmem) (a : Z) (n : nat) : Z :=
  match n with
  | O => 0
  | S n' => m (u64 a) + 256 * load_le m (a + 1) n'
  end.

Fixpoint store_le (m : kmem) (a v : Z) (n : nat) : kmem :=
  match n with
  | O => m
  | S n' => store_le (store8 m (u64 a) (u8 v)) (a + 1) (v / 256) n'
  end.

Definition load64 (m : kmem) (a : Z) : Z := load_le m a 8.
Definition store64 (m : kmem) (a v : Z) : kmem := store_le m a v 8.

#[global] Arguments load64 : simpl never.
#[global] Arguments store64 : simpl never.

(** An address range that does not wrap around the address space. *)
Definition range_ok (a len : Z) : Prop := 0 <= a /\ 0 <= len /\ a + len <= 2 ^ 64.

(** *** Lemmas *)

Lemma store8_eq m a v : store8 m a v a = v.
Proof. unfold store8. by rewrite Z.eqb_refl. Qed.

Lemma store8_ne m a v x : x <> a -> store8 m a v x = m x.
Proof. intros H. unfold store8. by rewrite (proj2 (Z.eqb_neq _ _) H). Qed.

Lemma kmemset_from_spec m p v i n x :
  0 <= p -> 0 <= i -> p + i + Z.of_nat n <= 2 ^ 64 ->
  kmemset_from m p v i n x =
    if (p + i <=? x) && (x <? p + i + Z.of_nat n) then u8 v else m x.
Proof.
  revert m i. induction n as [|n IH]; intros m i Hp Hi Hn; cbn [kmemset_from].
  - destruct (Z.leb_spec (p + i) x), (Z.ltb_spec x (p + i + Z.of_nat 0)); simpl; [lia|done..].
  - rewrite IH by lia. rewrite u64_small by (unfold is_u64; lia). unfold store8.
    zcases; simpl; try lia; try done.
Qed.

Lemma kmemset_spec m dst v len x :
  range_ok dst len ->
  kmemset m dst v len x = if (dst <=? x) && (x <? dst + len) then u8 v else m x.
Proof.
  intros (Hd & Hl & Hw). unfold kmemset. rewrite kmemset_from_spec by lia.
  by replace (dst + 0) with dst by lia; rewrite Z2Nat.id by lia.
Qed.

Lemma kmemcpy_from_spec m d s i n x :
  0 <= d -> 0 <= s -> 0 <= i -> d + i + Z.of_nat n <= 2 ^ 64 -> s + i + Z.of_nat n <= 2 ^ 64 ->
  (d + i + Z.of_nat n <= s + i \/ s + i + Z.of_nat n <= d + i) ->
  kmemcpy_from m d s i n x =
    if (d + i <=? x) && (x <? d + i + Z.of_nat n) then m (s + (x - d)) else m x.
Proof.
  revert m i. induction n as [|n IH]; intros m i Hd Hs Hi Hdn Hsn Hdis; cbn [kmemcpy_from].
  - destruct (Z.leb_spec (d + i) x), (Z.ltb_spec x (d + i + Z.of_nat 0)); simpl; [lia|done..].
  - rewrite IH by lia. rewrite !u64_small by (unfold is_u64; lia). unfold store8.
    zcases; simpl; try lia; try done. subst x. f_equal. lia.
Qed.

Lemma kmemcpy_spec m dst src len x :
  range_ok dst len -> range_ok src len -> dst + len <= src \/ src + len <= dst ->
  kmemcpy m dst src len x =
    if (dst <=? x) && (x <? dst + len) then m (src + (x - dst)) else m x.
Proof.
  intros (Hd & Hl & Hw) (Hs & _ & Hw') Hdis. unfold kmemcpy.
  rewrite kmemcpy_from_spec by lia. rewrite Z2Nat.id by lia.
  by replace (dst + 0) with dst by lia.
Qed.

Lemma kmemcmp_from_zero m a b i n :
  0 <= a -> 0 <= b -> 0 <= i -> a + i + Z.of_nat n <= 2 ^ 64 -> b + i + Z.of_nat n <= 2 ^ 64 ->
  kmemcmp_from m a b i n = 0 <->
  (forall k, i <= k < i + Z.of_nat n -> m (a + k) = m (b + k)).
Proof.
  revert i. induction n as [|n IH]; intros i Ha Hb Hi Han Hbn; cbn [kmemcmp_from].
  - split; [intros _ k Hk; lia|done].
  - rewrite !u64_small by (unfold is_u64; lia).
    destruct (Z.eqb_spec (m (a + i)) (m (b + i))) as [He|He]; simpl.
    + rewrite IH by lia. split; intros H k Hk.
      * destruct (Z.eq_dec k i) as [->|]; [done|]. apply H. lia.
      * apply H. lia.
    + split; [lia|]. intros H. exfalso. apply He. apply H. lia.
Qed.

Lemma store_le_other m a v n x :
  0 <= a -> a + Z.of_nat n <= 2 ^ 64 -> x < a \/ a + Z.of_nat n <= x -> store_le m a v n x = m x.
Proof.
  revert m a v. induction n as [|n IH]; intros m a v Ha Hn Hx; cbn [store_le]; [done|].
  rewrite IH by lia. rewrite u64_small by (unfold is_u64; lia). apply store8_ne. lia.
Qed.

Lemma store_le_in m a v n x :
  0 <= a -> a + Z.of_nat n <= 2 ^ 64 -> a <= x < a + Z.of_nat n -> store_le m a v n x = u8 (v / 256 ^ (x - a)).
Proof.
  revert m a v. induction n as [|n IH]; intros m a v Ha Hn Hx; cbn [store_le]; [lia|].
  rewrite u64_small by (unfold is_u64; lia). destruct (Z.eq_dec x a) as [->|Hne].
  - rewrite store_le_other, store8_eq, Z.sub_diag, Z.pow_0_r, Z.div_1_r by lia. done.
  - rewrite IH by lia. replace (x - a) with (1 + (x - (a + 1))) by lia.
    rewrite Z.pow_add_r, Z.pow_1_r, Z.div_div by lia. done.
Qed.

(** Stores to words that do not overlap commute. *)
Lemma store64_comm m a b v v' x :
  0 <= a -> a + 8 <= 2 ^ 64 -> 0 <= b -> b + 8 <= 2 ^ 64 -> a + 8 <= b \/ b + 8 <= a ->
  store64 (store64 m a v) b v' x = store64 (store64 m b v') a v x.
Proof.
  intros Ha Ha' Hb Hb' Hd. unfold store64.
  destruct (decide (a <= x < a + 8)) as [Hx|Hx]; [|destruct (decide (b <= x < b + 8)) as [Hy|Hy]].
  - rewrite store_le_other, !store_le_in by lia. done.
  - rewrite (store_le_other _ a), !store_le_in by lia. done.
  - by rewrite !store_le_other by lia.
Qed.

Lemma load_le_ext m m' a n :
  0 <= a -> a + Z.of_nat n <= 2 ^ 64 -> (forall x, a <= x < a + Z.of_nat n -> m' x = m x) ->
  load_le m' a n = load_le m a n.
Proof.
  revert a. induction n as [|n IH]; intros a Ha Hn H; cbn [load_le]; [done|].
  rewrite u64_small by (unfold is_u64; lia). rewrite H by lia. rewrite IH; [done|lia..|].
  intros x Hx. apply H. lia.
Qed.

Lemma load_store_le m a v n :
  0 <= a -> a + Z.of_nat n <= 2 ^ 64 -> load_le (store_le m a v n) a n = v mod 256 ^ Z.of_nat n.
Proof.
  revert m a v. induction n as [|n IH]; intros m a v Ha Hn; cbn [load_le store_le].
  - by rewrite Z.mod_1_r.
  - rewrite IH by lia. rewrite u64_small by (unfold is_u64; lia).
    rewrite store_le_other, store8_eq by lia. unfold u8. change (2 ^ 8) with 256.
    rewrite Nat2Z.inj_succ, Z.pow_succ_r, Z.rem_mul_r by lia. lia.
Qed.

Lemma load_le_range m a n :
  (forall x, is_u8 (m x)) -> 0 <= load_le m a n < 256 ^ Z.of_nat n.
Proof.
  intros Hm. revert a. induction n as [|n IH]; intros a; cbn [load_le]; [done|].
  rewrite Nat2Z.inj_succ, Z.pow_succ_r by lia. specialize (IH (a + 1)).
  pose proof (Hm (u64 a)) as H8. unfold is_u8 in H8. lia.
Qed.

Lemma store_le_u8 m a v n x : (forall y, is_u8 (m y)) -> is_u8 (store_le m a v n x).
Proof.
  revert m a v. induction n as [|n IH]; intros m a v Hm; cbn [store_le]; [done|].
  apply IH. intros y. unfold store8. case_match; [apply u8_range|done].
Qed.

Lemma load_le_zero m a n :
  0 <= a -> a + Z.of_nat n <= 2 ^ 64 -> (forall x, a <= x < a + Z.of_nat n -> m x = 0) ->
  load_le m a n = 0.
Proof.
  revert a. induction n as [|n IH]; intros a Ha Hn H; cbn [load_le]; [done|].
  rewrite u64_small by (unfold is_u64; lia). rewrite H by lia. rewrite IH; [done|lia..|].
  intros x Hx. apply H. lia.
Qed.

Lemma load64_u64 m a : (forall x, is_u8 (m x)) -> is_u64 (load64 m a).
Proof. intros Hm. apply (load_le_range m a 8 Hm). Qed.

Lemma load_store64 m a v : 0 <= a -> a + 8 <= 2 ^ 64 -> is_u64 v -> load64 (store64 m a v) a = v.
Proof.
  intros Ha Hn Hv. unfold load64, store64. rewrite load_store_le by lia.
  apply Z.mod_small. exact Hv.
Qed.

Lemma load_store64_ne m a b v :
  0 <= a -> a + 8 <= 2 ^ 64 -> 0 <= b -> b + 8 <= 2 ^ 64 -> a + 8 <= b \/ b + 8 <= a ->
  load64 (store64 m a v) b = load64 m b.
Proof.
  intros Ha Ha' Hb Hb' Hd. apply load_le_ext; [lia..|]. intros x Hx.
  apply store_le_other; lia.
Qed.

Lemma kmemset_u8 m dst v len x : (forall y, is_u8 (m y)) -> is_u8 (kmemset m dst v len x).
Proof.
  unfold kmemset. generalize 0. revert m. induction (Z.to_nat len) as [|n IH]; intros m i Hm; [done|].
  cbn [kmemset_from]. apply IH. intros y. unfold store8. case_match; [apply u8_range|done].
Qed.

Lemma kmemcpy_u8 m dst src len x : (forall y, is_u8 (m y)) -> is_u8 (kmemcpy m dst src len x).
Proof.
  unfold kmemcpy. generalize 0. revert m. induction (Z.to_nat len) as [|n IH]; intros m i Hm; [done|].
  cbn [kmemcpy_from]. apply IH. intros y. unfold store8. by case_match.
Qed.

End Mem.

Module Kstr.

Open Scope string_scope.

Definition nonempty (s : string) : bool := match s with EmptyString => false | _ => true end.

Fixpoint str_eq (a b : string) : bool :=
  match a, b with
  | String x a', String y b' => if Ascii.eqb x y then str_eq a' b' else false
  | EmptyString, EmptyString => true
  | _, _ => false
  end.

Fixpoint starts_with (s prefix : string) {struct prefix} : bool :=
  match prefix with
  | EmptyString => true
  | String p prefix' =>
      match s with
      | EmptyString => false
      | String c s' => if Ascii.eqb c p then starts_with s' prefix' else false
      end
  end.

Fixpoint copy_loop (room : nat) (src : string) : string :=
  match room, src with
  | S room', String c src' => String c (copy_loop room' src')
  | _, _ => EmptyString
  end.

(** The contents of [dst] after the call; [dst] is left alone when [cap] is 0. *)
Definition copy_cstr (dst : string) (cap : nat) (src : option string) : string :=
  match cap with
  | O => dst
  | S room => match src with None => EmptyString | Some s => copy_loop room s end
  end.

Fixpoint base_name_loop (p base : string) : string :=
  match p with
  | EmptyString => base
  | String c p' =>
      base_name_loop p' (if Ascii.eqb c "/"%char && nonempty p' then p' else base)
  end.

Definition base_name (path : option string) : string :=
  let base := match path with None => EmptyString | Some s => s end in
  base_name_loop base base.

Fixpoint kstrlen (s : string) : nat :=
  match s with EmptyString => O | String _ s' => S (kstrlen s') end.

(** [s[i]], the terminating NUL included. *)
Definition char_at (s : string) (i : nat) : ascii :=
  match String.get i s with Some c => c | None => "000"%char end.

(** [s + i] for [i] at most the length of [s]. *)
Fixpoint drop_str (i : nat) (s : string) : string :=
  match i, s with
  | S i', String _ s' => drop_str i' s'
  | _, _ => s
  end.

(** No path separator before the last character. *)
Fixpoint last_sep_free (s : string) : bool :=
  match s with
  | EmptyString => true
  | String c s' => negb (Ascii.eqb c "/"%char && nonempty s') && last_sep_free s'
  end.

(** *** Lemmas *)

Lemma string_app_nil s : (s ++ EmptyString)%string = s.
Proof. induction s as [|c s IH]; [done|]. change (String c (s ++ EmptyString)%string = String c s). by rewrite IH. Qed.

Lemma string_app_assoc a b c : ((a ++ b) ++ c)%string = (a ++ (b ++ c))%string.
Proof.
  induction a as [|x a IH]; [done|].
  change (String x ((a ++ b) ++ c)%string = String x (a ++ (b ++ c))%string). by rewrite IH.
Qed.

Lemma str_eq_spec a b : str_eq a b = true <-> a = b.
Proof.
  revert b. induction a as [|x a IH]; intros [|y b]; simpl; try done.
  destruct (Ascii.eqb_spec x y) as [->|Hne].
  - rewrite IH. split; [by intros ->|by intros [= ->]].
  - split; [done|]. by intros [= -> _].
Qed.

Lemma str_eq_refl a : str_eq a a = true.
Proof. by apply str_eq_spec. Qed.

Lemma str_eq_false a b : str_eq a b = false <-> a <> b.
Proof. rewrite <- not_true_iff_false, str_eq_spec. done. Qed.

Lemma starts_with_spec s p : starts_with s p = true <-> exists t, s = p ++ t.
Proof.
  revert s. induction p as [|c p IH]; intros s; simpl.
  - split; [intros _; by exists s|done].
  - destruct s as [|d s]; [split; [done|intros [t Ht]; discriminate]|].
    destruct (Ascii.eqb_spec d c) as [->|Hne].
    + rewrite IH. split; intros [t Ht]; exists t; [by rewrite Ht|by injection Ht].
    + split; [done|]. intros [t Ht]. injection Ht as -> _. done.
Qed.

Lemma kstrlen_length s : kstrlen s = String.length s.
Proof. induction s as [|c s IH]; [done|]. cbn. by rewrite IH. Qed.

Lemma kstrlen_app a b : kstrlen (a ++ b) = (kstrlen a + kstrlen b)%nat.
Proof.
  induction a as [|c a IH]; [done|].
  change (S (kstrlen (a ++ b)) = S (kstrlen a + kstrlen b)). by rewrite IH.
Qed.

Lemma char_at_app p t : char_at (p ++ t) (kstrlen p) = char_at t 0.
Proof. induction p as [|c p IH]; [done|]. exact IH. Qed.

Lemma copy_loop_length room s : (kstrlen (copy_loop room s) <= room)%nat.
Proof. revert s. induction room as [|r IH]; intros [|c s]; simpl; try lia. specialize (IH s). lia. Qed.

Lemma copy_loop_prefix room s : starts_with s (copy_loop room s) = true.
Proof.
  revert s. induction room as [|r IH]; intros [|c s]; simpl; try done.
  by rewrite Ascii.eqb_refl.
Qed.

Lemma copy_loop_full room s : (kstrlen s <= room)%nat -> copy_loop room s = s.
Proof.
  revert s. induction room as [|r IH]; intros [|c s]; simpl; intros H; try done; [lia|].
  by rewrite IH by lia.
Qed.

Lemma base_name_loop_cases p base :
  (last_sep_free p = true /\ base_name_loop p base = base) \/
  (last_sep_free p = false /\ exists d b, p = d ++ b /\ base_name_loop p base = b /\
     d <> EmptyString /\ last_sep_free b = true).
Proof.
  revert base. induction p as [|c p IH]; intros base; [by left|]. cbn.
  destruct (Ascii.eqb c "/" && nonempty p) eqn:E; cbn.
  - right. split; [done|]. destruct (IH p) as [[Hf ->]|[_ (d & b & Hp & -> & Hd & Hb)]].
    + exists (String c EmptyString), p. done.
    + exists (String c d), b. by rewrite Hp.
  - destruct (IH base) as [[Hf ->]|[Hf (d & b & Hp & -> & Hd & Hb)]].
    + by left.
    + right. split; [done|]. exists (String c d), b. by rewrite Hp.
Qed.

End Kstr.
