(* ===== verification/Pmm.v ===== *)
(** The physical page allocator ([kernel/src/mm/pmm.c]).

    The static variables of the file are the fields of [pmm]; [bitmap] and
    [refcounts] are [None] while the C pointers are [NULL]. The model is of the
    freestanding kernel build ([__STDC_HOSTED__ == 0]): the metadata arrays live
    in a usable region found by [find_metadata_region], never in [malloc]ed
    memory, and their contents are the two lists. *)

From stdpp Require Import base numbers list list_numbers option.
From Stdlib Require Import ZArith Lia.
From S2P Require Import Prelude Mem.

Module Pmm.

Definition PAGE_SIZE : Z := 4096.
Definition BITS_PER_WORD : Z := 64.
Definition SPORE_MEMMAP_USABLE : Z := 1.

Record spore_memmap_entry := mk_entry {
  entry_base : Z;
  entry_length : Z;
  entry_type : Z;
}.

Record pmm_stats := mk_stats {
  alloc_attempts : Z;
  alloc_successes : Z;
  alloc_failures : Z;
  bitmap_words_scanned : Z;
}.

Record pmm := mk_pmm {
  hhdm_base : Z;
  bitmap : option (list Z);
  refcounts : option (list Z);
  tracked_page_count : Z;
  bitmap_word_count : Z;
  total_page_count : Z;
  free_page_count : Z;
  next_free_page : Z;
  metadata_start_page : Z;
  metadata_page_count : Z;
  stats : pmm_stats;
}.

(** Reads and writes of the two arrays. *)
Definition bitmap_at (s : pmm) (i : Z) : Z := default [] (bitmap s) !!! Z.to_nat i.
Definition refcount_at (s : pmm) (i : Z) : Z := default [] (refcounts s) !!! Z.to_nat i.

Definition put_bitmap (s : pmm) (i w : Z) : pmm :=
  mk_pmm (hhdm_base s) (insert (Z.to_nat i) w <$> bitmap s) (refcounts s)
    (tracked_page_count s) (bitmap_word_count s) (total_page_count s) (free_page_count s)
    (next_free_page s) (metadata_start_page s) (metadata_page_count s) (stats s).

Definition put_refcount (s : pmm) (i c : Z) : pmm :=
  mk_pmm (hhdm_base s) (bitmap s) (insert (Z.to_nat i) c <$> refcounts s)
    (tracked_page_count s) (bitmap_word_count s) (total_page_count s) (free_page_count s)
    (next_free_page s) (metadata_start_page s) (metadata_page_count s) (stats s).

Definition put_free (s : pmm) (n : Z) : pmm :=
  mk_pmm (hhdm_base s) (bitmap s) (refcounts s)
    (tracked_page_count s) (bitmap_word_count s) (total_page_count s) n
    (next_free_page s) (metadata_start_page s) (metadata_page_count s) (stats s).

Definition put_total (s : pmm) (n : Z) : pmm :=
  mk_pmm (hhdm_base s) (bitmap s) (refcounts s)
    (tracked_page_count s) (bitmap_word_count s) n (free_page_count s)
    (next_free_page s) (metadata_start_page s) (metadata_page_count s) (stats s).

Definition put_next (s : pmm) (n : Z) : pmm :=
  mk_pmm (hhdm_base s) (bitmap s) (refcounts s)
    (tracked_page_count s) (bitmap_word_count s) (total_page_count s) (free_page_count s)
    n (metadata_start_page s) (metadata_page_count s) (stats s).

Definition put_stats (s : pmm) (st : pmm_stats) : pmm :=
  mk_pmm (hhdm_base s) (bitmap s) (refcounts s)
    (tracked_page_count s) (bitmap_word_count s) (total_page_count s) (free_page_count s)
    (next_free_page s) (metadata_start_page s) (metadata_page_count s) st.

Definition note_attempt (s : pmm) : pmm :=
  let st := stats s in
  put_stats s (mk_stats (u64 (alloc_attempts st + 1)) (alloc_successes st)
                 (alloc_failures st) (bitmap_words_scanned st)).

Definition note_success (s : pmm) : pmm :=
  let st := stats s in
  put_stats s (mk_stats (alloc_attempts st) (u64 (alloc_successes st + 1))
                 (alloc_failures st) (bitmap_words_scanned st)).

Definition note_failure (s : pmm) : pmm :=
  let st := stats s in
  put_stats s (mk_stats (alloc_attempts st) (alloc_successes st)
                 (u64 (alloc_failures st + 1)) (bitmap_words_scanned st)).

Definition note_scanned (s : pmm) : pmm :=
  let st := stats s in
  put_stats s (mk_stats (alloc_attempts st) (alloc_successes st)
                 (alloc_failures st) (u64 (bitmap_words_scanned st + 1))).

(** *** The functions of the file *)

Definition align_down (value align : Z) : Z := value .& not64 (u64 (align - 1)).

Definition align_up (value align : Z) : Z := u64 (value + align - 1) .& not64 (u64 (align - 1)).

Definition div_round_up (value divisor : Z) : Z := u64 (value + divisor - 1) / divisor.

Definition valid_page (s : pmm) (page : Z) : bool :=
  match bitmap s, refcounts s with
  | Some _, Some _ => page <? tracked_page_count s
  | _, _ => false
  end.

Definition set_used (s : pmm) (page : Z) : pmm :=
  if negb (valid_page s page) then s else
  let mask := u64 (Z.shiftl 1 (page mod BITS_PER_WORD)) in
  let word := bitmap_at s (page / BITS_PER_WORD) in
  let s1 :=
    if (word .& mask) =? 0 then
      let s' := put_bitmap s (page / BITS_PER_WORD) (word .| mask) in
      if 0 <? free_page_count s' then put_free s' (free_page_count s' - 1) else s'
    else s in
  if refcount_at s1 page =? 0 then put_refcount s1 page 1 else s1.

Definition set_free (s : pmm) (page : Z) : pmm :=
  if negb (valid_page s page) then s else
  let mask := u64 (Z.shiftl 1 (page mod BITS_PER_WORD)) in
  let word := bitmap_at s (page / BITS_PER_WORD) in
  let s1 :=
    if negb ((word .& mask) =? 0) then
      let s' := put_bitmap s (page / BITS_PER_WORD) (word .& not64 mask) in
      put_free s' (u64 (free_page_count s' + 1))
    else s in
  put_refcount s1 page 0.

(** The free bits of one bitmap word, restricted to [start_page, end_page). *)
Definition free_bits_of (s : pmm) (word_index first_word last_word start_page end_page : Z) : Z :=
  let free_bits := not64 (bitmap_at s word_index) in
  let free_bits :=
    if word_index =? first_word then
      let below := start_page mod BITS_PER_WORD in
      if negb (below =? 0) then free_bits .& u64 (Z.shiftl UINT64_MAX below) else free_bits
    else free_bits in
  if word_index =? last_word then
    let above := end_page mod BITS_PER_WORD in
    if negb (above =? 0) then free_bits .& u64 (Z.shiftl 1 above - 1) else free_bits
  else free_bits.

(** The loop over [word_index] with [n] words left. *)
Fixpoint scan_words (n : nat) (word_index first_word last_word start_page end_page : Z)
    (s : pmm) : Z * pmm :=
  match n with
  | O => (0, s)
  | S n' =>
      let s1 := note_scanned s in
      let free_bits := free_bits_of s1 word_index first_word last_word start_page end_page in
      if free_bits =? 0
      then scan_words n' (word_index + 1) first_word last_word start_page end_page s1
      else
        let page := u64 (word_index * BITS_PER_WORD + ctz free_bits) in
        let s2 := put_next (set_used s1 page) (u64 (page + 1)) in
        (u64 (page * PAGE_SIZE), s2)
  end.

Definition alloc_page_in_range (s : pmm) (start_page end_page : Z) : Z * pmm :=
  let end_page := if tracked_page_count s <? end_page then tracked_page_count s else end_page in
  if end_page <=? start_page then (0, s) else
  let first_word := start_page / BITS_PER_WORD in
  let last_word := (end_page - 1) / BITS_PER_WORD in
  scan_words (Z.to_nat (last_word - first_word + 1)) first_word first_word last_word
    start_page end_page s.

Definition entry_start (e : spore_memmap_entry) : Z := align_up (entry_base e) PAGE_SIZE.

Definition entry_end (e : spore_memmap_entry) : Z :=
  align_down (u64 (entry_base e + entry_length e)) PAGE_SIZE.

Fixpoint highest_usable_end_from (highest : Z) (memmap : list spore_memmap_entry) : Z :=
  match memmap with
  | [] => highest
  | entry :: rest =>
      if negb (entry_type entry =? SPORE_MEMMAP_USABLE) then highest_usable_end_from highest rest
      else
        let start := entry_start entry in
        let end_ := entry_end entry in
        highest_usable_end_from
          (if (start <? end_) && (highest <? end_) then end_ else highest) rest
  end.

Definition highest_usable_end (memmap : list spore_memmap_entry) : Z :=
  highest_usable_end_from 0 memmap.

Fixpoint find_metadata_region (memmap : list spore_memmap_entry) (bytes : Z) : option Z :=
  match memmap with
  | [] => None
  | entry :: rest =>
      if negb (entry_type entry =? SPORE_MEMMAP_USABLE) then find_metadata_region rest bytes
      else
        let start := entry_start entry in
        let end_ := entry_end entry in
        let start := if start <? 0x100000 then 0x100000 else start in
        if (start <? end_) && (bytes <=? end_ - start) then Some start
        else find_metadata_region rest bytes
  end.

(** [for (pa = start; pa < end; pa += PAGE_SIZE)] of [pmm_init], [n] bounding
    the number of iterations. *)
Fixpoint free_range (n : nat) (pa end_ : Z) (s : pmm) : pmm :=
  match n with
  | O => s
  | S n' =>
      if pa <? end_ then
        free_range n' (u64 (pa + PAGE_SIZE)) end_
          (set_free (put_total s (u64 (total_page_count s + 1))) (pa / PAGE_SIZE))
      else s
  end.

Fixpoint free_entries (memmap : list spore_memmap_entry) (s : pmm) : pmm :=
  match memmap with
  | [] => s
  | entry :: rest =>
      if negb (entry_type entry =? SPORE_MEMMAP_USABLE) then free_entries rest s
      else
        let start := entry_start entry in
        let end_ := entry_end entry in
        free_entries rest (free_range (Z.to_nat ((end_ - start) / PAGE_SIZE)) start end_ s)
  end.

(** [set_used] on [n] consecutive pages. *)
Fixpoint use_pages (n : nat) (page : Z) (s : pmm) : pmm :=
  match n with
  | O => s
  | S n' => use_pages n' (u64 (page + 1)) (set_used s page)
  end.

Definition pmm_init (hhdm_offset : Z) (memmap : list spore_memmap_entry) : pmm :=
  let tracked := highest_usable_end memmap / PAGE_SIZE in
  let words := div_round_up tracked BITS_PER_WORD in
  let zero := mk_stats 0 0 0 0 in
  let first := 0x100000 / PAGE_SIZE in
  if (tracked =? 0) || (words =? 0)
  then mk_pmm hhdm_offset None None tracked words 0 0 first 0 0 zero
  else
    let bitmap_bytes := u64 (words * 8) in
    let refcount_bytes := u64 (tracked * 2) in
    let metadata_bytes := align_up (u64 (bitmap_bytes + refcount_bytes)) PAGE_SIZE in
    match find_metadata_region memmap metadata_bytes with
    | None => mk_pmm hhdm_offset None None 0 0 0 0 first 0 0 zero
    | Some metadata_pa =>
        let s := mk_pmm hhdm_offset
                   (Some (replicate (Z.to_nat words) UINT64_MAX))
                   (Some (replicate (Z.to_nat tracked) 0))
                   tracked words 0 0 first
                   (metadata_pa / PAGE_SIZE) (metadata_bytes / PAGE_SIZE) zero in
        let s := free_entries memmap s in
        let s := use_pages (Z.to_nat (0x100000 / PAGE_SIZE)) 0 s in
        use_pages (Z.to_nat (metadata_page_count s)) (metadata_start_page s) s
    end.

Definition pmm_alloc_page (s : pmm) : Z * pmm :=
  let first := 0x100000 / PAGE_SIZE in
  let s := note_attempt s in
  let s := if (next_free_page s <? first) || (tracked_page_count s <=? next_free_page s)
           then put_next s first else s in
  let '(pa, s) := alloc_page_in_range s (next_free_page s) (tracked_page_count s) in
  let '(pa, s) := if pa =? 0 then alloc_page_in_range s first (next_free_page s) else (pa, s) in
  if pa =? 0 then (0, note_failure s) else (pa, note_success s).

Definition pmm_alloc_zero_page (s : pmm) (m : Mem.kmem) : Z * pmm * Mem.kmem :=
  let '(pa, s) := pmm_alloc_page s in
  if negb (pa =? 0)
  then (pa, s, Mem.kmemset m (u64 (hhdm_base s + pa)) 0 PAGE_SIZE)
  else (pa, s, m).

(** The loop over [page] of the contiguous allocator with [n] pages left. *)
Fixpoint scan_run (n : nat) (page run_start run_len count : Z) (s : pmm) : Z * pmm :=
  match n with
  | O => (0, note_failure s)
  | S n' =>
      let s := note_scanned s in
      if negb (valid_page s page) ||
         negb (bitmap_at s (page / BITS_PER_WORD) .& u64 (Z.shiftl 1 (page mod BITS_PER_WORD)) =? 0)
      then scan_run n' (u64 (page + 1)) run_start 0 count s
      else
        let run_start := if run_len =? 0 then page else run_start in
        let run_len := u64 (run_len + 1) in
        if run_len <? count then scan_run n' (u64 (page + 1)) run_start run_len count s
        else
          let s := use_pages (Z.to_nat count) run_start s in
          (u64 (run_start * PAGE_SIZE), note_success (put_next s (u64 (run_start + count))))
  end.

Definition pmm_alloc_contiguous_pages (s : pmm) (count : Z) : Z * pmm :=
  let first := 0x100000 / PAGE_SIZE in
  if (count =? 0) || (tracked_page_count s <? count) then (0, s) else
  scan_run (Z.to_nat (tracked_page_count s - first)) first 0 0 count (note_attempt s).

Definition pmm_phys_to_virt (s : pmm) (pa : Z) : option Z :=
  if hhdm_base s =? 0 then None else Some (u64 (hhdm_base s + pa)).

Definition pmm_free_page (s : pmm) (pa : Z) : pmm :=
  if negb (pa mod PAGE_SIZE =? 0) then s else
  let page := pa / PAGE_SIZE in
  if negb (valid_page s page) then s else
  if refcount_at s page =? 0 then s else
  let s := put_refcount s page (u16 (refcount_at s page - 1)) in
  if refcount_at s page =? 0 then
    let s := set_free s page in
    if page <? next_free_page s then put_next s page else s
  else s.

Definition pmm_share_page (s : pmm) (pa : Z) : bool * pmm :=
  if negb (pa mod PAGE_SIZE =? 0) then (false, s) else
  let page := pa / PAGE_SIZE in
  if negb (valid_page s page) then (false, s) else
  if (refcount_at s page =? 0) || (refcount_at s page =? UINT16_MAX) then (false, s) else
  (true, put_refcount s page (u16 (refcount_at s page + 1))).

Definition pmm_refcount (s : pmm) (pa : Z) : Z :=
  if negb (pa mod PAGE_SIZE =? 0) then 0 else
  if negb (valid_page s (pa / PAGE_SIZE)) then 0 else
  refcount_at s (pa / PAGE_SIZE).

Definition pmm_is_last_ref (s : pmm) (pa : Z) : bool := pmm_refcount s pa =? 1.

Definition pmm_total_pages (s : pmm) : Z := total_page_count s.
Definition pmm_free_pages (s : pmm) : Z := free_page_count s.
Definition pmm_tracked_pages (s : pmm) : Z := tracked_page_count s.
Definition pmm_metadata_pages (s : pmm) : Z := metadata_page_count s.
Definition pmm_get_stats (s : pmm) : pmm_stats := stats s.

(** *** The allocator invariant *)

(** The bitmap bit of a page: set when the page is not available. *)
Definition bit (s : pmm) (p : Z) : bool :=
  Z.testbit (bitmap_at s (p / BITS_PER_WORD)) (p mod BITS_PER_WORD).

(** The two arrays have the lengths the page count implies and hold values of
    their C types. *)
Record shape (s : pmm) : Prop := {
  sh_tracked : 0 <= tracked_page_count s <= 2 ^ 52;
  sh_words : bitmap_word_count s = (tracked_page_count s + 63) / 64;
  sh_present : 0 < tracked_page_count s -> is_Some (bitmap s) /\ is_Some (refcounts s);
  sh_bitmap_len : length (default [] (bitmap s)) = Z.to_nat (bitmap_word_count s);
  sh_bitmap : Forall is_u64 (default [] (bitmap s));
  sh_refcounts_len : length (default [] (refcounts s)) = Z.to_nat (tracked_page_count s);
  sh_refcounts : Forall is_u16 (default [] (refcounts s));
}.

(** The invariant: well-shaped arrays, an exact count of the available pages,
    and no referenced page available. *)
Record pmm_ok (s : pmm) : Prop := {
  ok_shape : shape s;
  ok_free : free_page_count s =
              countb (fun p => negb (bit s p)) (Z.to_nat (tracked_page_count s));
  ok_ref : forall p, 0 <= p < tracked_page_count s -> refcount_at s p <> 0 -> bit s p = true;
  ok_next : 0 <= next_free_page s <= 2 ^ 53;
}.

(** All fields except the two arrays and the free count agree. *)
Definition frame (s s' : pmm) : Prop :=
  s' = mk_pmm (hhdm_base s) (bitmap s') (refcounts s') (tracked_page_count s)
         (bitmap_word_count s) (total_page_count s) (free_page_count s') (next_free_page s)
         (metadata_start_page s) (metadata_page_count s) (stats s).

(** [s'] is [s] with page [p] given bit [b] and reference count [c]. *)
Record touched (s s' : pmm) (p : Z) (b : bool) (c : Z) : Prop := {
  tc_frame : frame s s';
  tc_bit : forall q, 0 <= q < tracked_page_count s ->
             bit s' q = if q =? p then b else bit s q;
  tc_ref : forall q, 0 <= q < tracked_page_count s ->
             refcount_at s' q = if q =? p then c else refcount_at s q;
}.

(** *** Array lemmas *)

Lemma shape_put_bitmap s i w : shape s -> is_u64 w -> shape (put_bitmap s i w).
Proof.
  intros [H1 H2 H3 H4 H5 H6 H7] Hw. unfold put_bitmap.
  split; simpl in *; try done; destruct (bitmap s) as [bm|]; simpl in *; try done.
  - intros Ht. split; [done|]. by apply H3.
  - by rewrite length_insert.
  - by apply Forall_insert.
Qed.

Lemma shape_put_refcount s i c : shape s -> is_u16 c -> shape (put_refcount s i c).
Proof.
  intros [H1 H2 H3 H4 H5 H6 H7] Hw. unfold put_refcount.
  split; simpl in *; try done; destruct (refcounts s) as [rc|]; simpl in *; try done.
  - intros Ht. split; [|done]. by apply H3.
  - by rewrite length_insert.
  - by apply Forall_insert.
Qed.

Lemma shape_put_free s n : shape s -> shape (put_free s n).
Proof. by intros []; split. Qed.

Lemma shape_put_total s n : shape s -> shape (put_total s n).
Proof. by intros []; split. Qed.

Lemma shape_put_next s n : shape s -> shape (put_next s n).
Proof. by intros []; split. Qed.

Lemma shape_put_stats s st : shape s -> shape (put_stats s st).
Proof. by intros []; split. Qed.

#[local] Hint Resolve shape_put_bitmap shape_put_refcount shape_put_free shape_put_total
  shape_put_next shape_put_stats : spore.

Lemma bitmap_at_put s i j w :
  0 <= i < Z.of_nat (length (default [] (bitmap s))) -> 0 <= j ->
  bitmap_at (put_bitmap s i w) j = if j =? i then w else bitmap_at s j.
Proof.
  intros Hi Hj. unfold bitmap_at, put_bitmap. simpl.
  destruct (bitmap s) as [bm|]; simpl in *; [|lia].
  rewrite lookup_total_insert_list by lia.
  destruct (decide (Z.to_nat i = Z.to_nat j)), (Z.eqb_spec j i); try done; lia.
Qed.

Lemma refcount_at_put s i j c :
  0 <= i < Z.of_nat (length (default [] (refcounts s))) -> 0 <= j ->
  refcount_at (put_refcount s i c) j = if j =? i then c else refcount_at s j.
Proof.
  intros Hi Hj. unfold refcount_at, put_refcount. simpl.
  destruct (refcounts s) as [rc|]; simpl in *; [|lia].
  rewrite lookup_total_insert_list by lia.
  destruct (decide (Z.to_nat i = Z.to_nat j)), (Z.eqb_spec j i); try done; lia.
Qed.

Lemma word_in_range s p :
  shape s -> 0 <= p < tracked_page_count s ->
  0 <= p / BITS_PER_WORD < Z.of_nat (length (default [] (bitmap s))).
Proof.
  intros [H1 H2 _ H4 _ _ _] Hp. rewrite H4, H2. unfold BITS_PER_WORD. dmlia.
Qed.

Lemma page_in_range s p :
  shape s -> 0 <= p < tracked_page_count s ->
  0 <= p < Z.of_nat (length (default [] (refcounts s))).
Proof. intros [H1 _ _ _ _ H6 _] Hp. rewrite H6. lia. Qed.

Lemma bitmap_at_u64 s i :
  shape s -> 0 <= i < Z.of_nat (length (default [] (bitmap s))) -> is_u64 (bitmap_at s i).
Proof. intros [] Hi. apply (Forall_lookup_total is_u64); [done|lia]. Qed.

Lemma refcount_at_u16 s p : shape s -> 0 <= p < tracked_page_count s -> is_u16 (refcount_at s p).
Proof.
  intros H Hp. destruct (page_in_range s p H Hp). destruct H.
  apply (Forall_lookup_total is_u16); [done|lia].
Qed.

Lemma valid_page_spec s p : shape s -> 0 <= p -> valid_page s p = (p <? tracked_page_count s).
Proof.
  intros [H1 _ H3 _ _ _ _] Hp. unfold valid_page.
  destruct (Z.ltb_spec 0 (tracked_page_count s)) as [Hlt|Hge].
  - destruct (H3 Hlt) as [[bm ->] [rc ->]]. done.
  - destruct (bitmap s), (refcounts s); try done; symmetry; apply Z.ltb_ge; lia.
Qed.

Lemma mask_pow2 p : u64 (Z.shiftl 1 (p mod BITS_PER_WORD)) = 2 ^ (p mod BITS_PER_WORD).
Proof.
  unfold BITS_PER_WORD. rewrite Z.shiftl_1_l. apply u64_small. unfold is_u64.
  pose proof (Z.mod_pos_bound p 64). pose proof (Z.pow_lt_mono_r 2 (p mod 64) 64). lia.
Qed.

Lemma mask_test s p :
  (bitmap_at s (p / BITS_PER_WORD) .& u64 (Z.shiftl 1 (p mod BITS_PER_WORD)) =? 0) = negb (bit s p).
Proof.
  rewrite mask_pow2. unfold bit. pose proof (Z.mod_pos_bound p BITS_PER_WORD eq_refl).
  rewrite <- has_pow2 by lia. unfold has. by rewrite negb_involutive.
Qed.

(** Two pages share a bit position of the same word only when equal. *)
Lemma page_split p q :
  p / BITS_PER_WORD = q / BITS_PER_WORD -> p mod BITS_PER_WORD = q mod BITS_PER_WORD -> p = q.
Proof. unfold BITS_PER_WORD. intros. dmlia. Qed.

Lemma bit_put_bitmap s p q w :
  shape s -> 0 <= p < tracked_page_count s -> 0 <= q ->
  bit (put_bitmap s (p / BITS_PER_WORD) w) q =
    if q / BITS_PER_WORD =? p / BITS_PER_WORD then Z.testbit w (q mod BITS_PER_WORD) else bit s q.
Proof.
  intros Hs Hp Hq. unfold bit.
  rewrite bitmap_at_put by (try apply word_in_range; try done; apply Z.div_pos; unfold BITS_PER_WORD; lia).
  by destruct (_ =? _).
Qed.

(** *** [set_used] and [set_free] *)

Lemma touched_ok s s' p b c :
  pmm_ok s -> shape s' -> touched s s' p b c -> 0 <= p < tracked_page_count s ->
  (c <> 0 -> b = true) ->
  free_page_count s' = free_page_count s + Z.b2z (bit s p) - Z.b2z b ->
  pmm_ok s'.
Proof.
  intros [Hs Hf Hr Hn] Hs' [Hfr Hb Hc] Hp Hcb Hfree.
  assert (tracked_page_count s' = tracked_page_count s) as Ht by (rewrite Hfr; done).
  assert (next_free_page s' = next_free_page s) as Hnx by (rewrite Hfr; done).
  split; [done| | |lia].
  - rewrite Hfree, Hf, Ht.
    set (f := fun q => negb (bit s q)). set (g := fun q => negb (bit s' q)).
    assert (forall q, 0 <= q < Z.of_nat (Z.to_nat (tracked_page_count s)) -> q <> p -> f q = g q) as Hfg.
    { intros q Hq Hne. unfold f, g. rewrite Hb by lia. by rewrite (proj2 (Z.eqb_neq q p)). }
    assert (f p = negb (bit s p)) as Hfp by done.
    assert (g p = negb b) as Hgp by (unfold g; rewrite Hb, Z.eqb_refl by lia; done).
    destruct (bit s p) eqn:Ep, b; simpl in *.
    + rewrite (countb_ext f g); [lia|]. intros q Hq.
      destruct (Z.eq_dec q p) as [->|]; [congruence|by apply Hfg].
    + rewrite (countb_switch f g _ p); [lia|lia|done|done|done].
    + rewrite (countb_switch g f _ p); [lia|lia|done|done|]. intros. symmetry. by apply Hfg.
    + rewrite (countb_ext f g); [lia|]. intros q Hq.
      destruct (Z.eq_dec q p) as [->|]; [congruence|by apply Hfg].
  - intros q Hq Hrq. rewrite Ht in Hq. rewrite Hb by lia. rewrite Hc in Hrq by lia.
    destruct (Z.eqb_spec q p); [by apply Hcb|by apply Hr].
Qed.

Lemma free_pos s p :
  pmm_ok s -> 0 <= p < tracked_page_count s -> bit s p = false -> 0 < free_page_count s.
Proof.
  intros [_ Hf _ _] Hp Hb. rewrite Hf.
  set (f := fun p => negb (bit s p)). set (n := Z.to_nat (tracked_page_count s)).
  pose proof (countb_bounds f n). destruct (Z.eq_dec (countb f n) 0) as [E|]; [|lia].
  rewrite countb_zero in E. specialize (E p ltac:(lia)). unfold f in E. by rewrite Hb in E.
Qed.

Lemma set_bit_or s p q w :
  w = bitmap_at s (p / BITS_PER_WORD) .| 2 ^ (p mod BITS_PER_WORD) ->
  q / BITS_PER_WORD = p / BITS_PER_WORD ->
  Z.testbit w (q mod BITS_PER_WORD) = if q =? p then true else bit s q.
Proof.
  intros -> Hq. pose proof (Z.mod_pos_bound p BITS_PER_WORD eq_refl).
  rewrite Z.lor_spec, testbit_pow2 by lia. unfold bit. rewrite Hq.
  destruct (Z.eqb_spec q p) as [->|Hne]; [by rewrite Z.eqb_refl, orb_true_r|].
  destruct (Z.eqb_spec (q mod BITS_PER_WORD) (p mod BITS_PER_WORD)) as [He|];
    [by destruct (Hne (page_split _ _ Hq He))|by rewrite orb_false_r].
Qed.

Lemma clear_bit_and s p q w :
  w = bitmap_at s (p / BITS_PER_WORD) .& not64 (2 ^ (p mod BITS_PER_WORD)) ->
  q / BITS_PER_WORD = p / BITS_PER_WORD ->
  Z.testbit w (q mod BITS_PER_WORD) = if q =? p then false else bit s q.
Proof.
  intros -> Hq. pose proof (Z.mod_pos_bound p BITS_PER_WORD eq_refl).
  pose proof (Z.mod_pos_bound q BITS_PER_WORD eq_refl). unfold BITS_PER_WORD in *.
  rewrite Z.land_spec, testbit_not64, testbit_pow2 by lia. unfold bit, BITS_PER_WORD. rewrite Hq.
  destruct (Z.eqb_spec q p) as [->|Hne]; [by rewrite Z.eqb_refl, andb_false_r|].
  destruct (Z.eqb_spec (q mod 64) (p mod 64)) as [He|];
    [by destruct (Hne (page_split _ _ Hq He))|by rewrite andb_true_r].
Qed.

Lemma pow2_u64 p : is_u64 (2 ^ (p mod BITS_PER_WORD)).
Proof. rewrite <- mask_pow2. apply u64_range. Qed.

Lemma set_used_spec s p :
  pmm_ok s -> 0 <= p < tracked_page_count s ->
  pmm_ok (set_used s p) /\
  touched s (set_used s p) p true (if refcount_at s p =? 0 then 1 else refcount_at s p).
Proof.
  intros Hok Hp. pose proof Hok as [Hs Hf Hr Hn].
  assert (0 <= p / BITS_PER_WORD) as Hdp by (apply Z.div_pos; unfold BITS_PER_WORD; lia).
  unfold set_used. rewrite valid_page_spec by (done || lia).
  replace (p <? tracked_page_count s) with true by lia. simpl negb. cbv iota zeta.
  rewrite mask_test. pose proof (page_in_range s p Hs Hp) as Hpr.
  destruct (bit s p) eqn:Eb; simpl negb; cbv iota.
  - (* already marked: only the count may change *)
    destruct (Z.eqb_spec (refcount_at s p) 0) as [E0|E0].
    + assert (touched s (put_refcount s p 1) p true 1) as Ht.
      { split; [done| |].
        - intros q Hq. change (bit (put_refcount s p 1) q) with (bit s q).
          by destruct (Z.eqb_spec q p) as [->|].
        - intros q Hq. by apply refcount_at_put; [|lia]. }
      split; [|done]. eapply touched_ok; eauto with spore.
      * apply shape_put_refcount; [done|]. unfold is_u16; lia.
      * rewrite Eb. simpl. lia.
    + split; [done|]. split; [by destruct s| |]; intros q Hq; by destruct (Z.eqb_spec q p) as [->|].
  - (* available: mark it and take it off the free count *)
    rewrite mask_pow2. set (w := bitmap_at s _ .| _). set (s1 := put_bitmap s _ w).
    assert (0 < free_page_count s1) as Hfp by (apply (free_pos s p); done).
    replace (0 <? free_page_count s1) with true by lia.
    assert (is_u64 w) as Hw by (apply lor_u64; [by apply bitmap_at_u64, word_in_range|apply pow2_u64]).
    assert (refcount_at s p = 0) as Hr0.
    { destruct (Z.eq_dec (refcount_at s p) 0) as [|Hne]; [done|]. by rewrite Hr in Eb by done. }
    change (refcount_at (put_free s1 _) p) with (refcount_at s p). rewrite Hr0, Z.eqb_refl.
    set (s2 := put_refcount _ p 1).
    assert (touched s s2 p true 1) as Ht.
    { split; [done| |].
      - intros q Hq. change (bit s2 q) with (bit s1 q).
        unfold s1. rewrite bit_put_bitmap by (done || lia).
        destruct (Z.eqb_spec (q / BITS_PER_WORD) (p / BITS_PER_WORD)) as [Heq|Hne].
        + by apply set_bit_or.
        + destruct (Z.eqb_spec q p) as [->|]; done.
      - intros q Hq. unfold s2. by rewrite refcount_at_put by (done || lia). }
    split; [|done]. eapply touched_ok; eauto.
    + apply shape_put_refcount; [|unfold is_u16; lia]. apply shape_put_free.
      by apply shape_put_bitmap.
    + rewrite Eb. change (free_page_count s2) with (free_page_count s1 - 1). simpl. lia.
Qed.

Lemma set_free_spec s p :
  pmm_ok s -> 0 <= p < tracked_page_count s ->
  pmm_ok (set_free s p) /\ touched s (set_free s p) p false 0.
Proof.
  intros Hok Hp. pose proof Hok as [Hs Hf Hr Hn].
  assert (0 <= p / BITS_PER_WORD) as Hdp by (apply Z.div_pos; unfold BITS_PER_WORD; lia).
  unfold set_free. rewrite valid_page_spec by (done || lia).
  replace (p <? tracked_page_count s) with true by lia. simpl negb. cbv iota zeta.
  rewrite mask_test, negb_involutive. pose proof (page_in_range s p Hs Hp) as Hpr.
  destruct (bit s p) eqn:Eb; cbv iota.
  - rewrite mask_pow2. set (w := bitmap_at s _ .& _). set (s1 := put_bitmap s _ w).
    assert (is_u64 w) as Hw.
    { apply land_u64; [by apply bitmap_at_u64, word_in_range|].
      pose proof (u64_range (Z.lnot (2 ^ (p mod BITS_PER_WORD)))) as Hu. apply Hu. }
    assert (0 <= free_page_count s < 2 ^ 53) as Hfb.
    { rewrite Hf. match goal with |- context [countb ?f ?n] => pose proof (countb_bounds f n) end.
      destruct Hs. lia. }
    set (s2 := put_refcount _ p 0).
    assert (touched s s2 p false 0) as Ht.
    { split; [done| |].
      - intros q Hq. change (bit s2 q) with (bit s1 q).
        unfold s1. rewrite bit_put_bitmap by (done || lia).
        destruct (Z.eqb_spec (q / BITS_PER_WORD) (p / BITS_PER_WORD)) as [Heq|Hne].
        + by apply clear_bit_and.
        + destruct (Z.eqb_spec q p) as [->|]; done.
      - intros q Hq. unfold s2. by rewrite refcount_at_put by (done || lia). }
    split; [|done]. eapply touched_ok; [done| |done|done|by intros []|].
    + apply shape_put_refcount; [|unfold is_u16; lia]. apply shape_put_free.
      by apply shape_put_bitmap.
    + rewrite Eb. change (free_page_count s2) with (u64 (free_page_count s + 1)).
      rewrite u64_small by (unfold is_u64; lia). simpl. lia.
  - assert (touched s (put_refcount s p 0) p false 0) as Ht.
    { split; [done| |].
      - intros q Hq. change (bit (put_refcount s p 0) q) with (bit s q).
        by destruct (Z.eqb_spec q p) as [->|].
      - intros q Hq. by apply refcount_at_put; [|lia]. }
    split; [|done]. eapply touched_ok; [done| |done|done|by intros []|].
    + apply shape_put_refcount; [done|]. unfold is_u16; lia.
    + rewrite Eb. simpl. lia.
Qed.

Lemma set_used_invalid s p : shape s -> tracked_page_count s <= p -> set_used s p = s.
Proof.
  intros Hs Hp. unfold set_used. destruct Hs as [H1 H2 H3 H4 H5 H6 H7].
  rewrite valid_page_spec by (done || lia).
  by replace (p <? tracked_page_count s) with false by lia.
Qed.

Lemma set_free_invalid s p : shape s -> tracked_page_count s <= p -> set_free s p = s.
Proof.
  intros Hs Hp. unfold set_free. destruct Hs as [H1 H2 H3 H4 H5 H6 H7].
  rewrite valid_page_spec by (done || lia).
  by replace (p <? tracked_page_count s) with false by lia.
Qed.

(** The bookkeeping fields do not enter the invariant. *)
Lemma ok_put_stats s st : pmm_ok s -> pmm_ok (put_stats s st).
Proof. intros []; split; auto with spore. Qed.

Lemma ok_put_total s n : pmm_ok s -> pmm_ok (put_total s n).
Proof. intros []; split; auto with spore. Qed.

Lemma ok_put_next s n : pmm_ok s -> 0 <= n <= 2 ^ 53 -> pmm_ok (put_next s n).
Proof. intros []; split; auto with spore. Qed.

#[local] Hint Resolve ok_put_stats ok_put_total ok_put_next : spore.

(** *** The bitmap scan *)

Lemma testbit_above_mask k i :
  0 <= k < 64 -> 0 <= i < 64 -> Z.testbit (u64 (Z.shiftl UINT64_MAX k)) i = (k <=? i).
Proof.
  intros Hk Hi. rewrite testbit_u64 by lia. replace (i <? 64) with true by lia. simpl.
  rewrite Z.shiftl_spec by lia. change UINT64_MAX with (Z.ones 64).
  destruct (Z.leb_spec k i).
  - apply Z.ones_spec_low. lia.
  - by apply Z.testbit_neg_r; lia.
Qed.

Lemma testbit_below_mask k i :
  0 <= k < 64 -> 0 <= i < 64 -> Z.testbit (u64 (Z.shiftl 1 k - 1)) i = (i <? k).
Proof.
  intros Hk Hi. rewrite testbit_u64 by lia. replace (i <? 64) with true by lia. simpl.
  replace (Z.shiftl 1 k - 1) with (Z.ones k) by (rewrite Z.ones_equiv, Z.shiftl_1_l; lia).
  by rewrite Z.testbit_ones_nonneg by lia.
Qed.

Lemma free_bits_u64 s wi fw lw start end_ : is_u64 (free_bits_of s wi fw lw start end_).
Proof.
  unfold free_bits_of. assert (forall x, is_u64 (not64 x)) by (intros; apply u64_range).
  assert (forall x, 0 <= u64 x) by (intros x; apply (u64_range x)).
  repeat case_match; auto using land_u64.
Qed.

Lemma free_bits_testbit s wi start end_ i :
  shape s -> 0 <= start < end_ ->
  start / 64 <= wi <= (end_ - 1) / 64 -> 0 <= i < 64 ->
  Z.testbit (free_bits_of s wi (start / 64) ((end_ - 1) / 64) start end_) i =
    negb (bit s (wi * 64 + i)) && (start <=? wi * 64 + i) && (wi * 64 + i <? end_).
Proof.
  intros Hs Hse Hwi Hi. unfold free_bits_of, bit, BITS_PER_WORD.
  replace ((wi * 64 + i) / 64) with wi by dmlia.
  replace ((wi * 64 + i) mod 64) with i by dmlia.
  assert (Z.testbit (not64 (bitmap_at s wi)) i = negb (Z.testbit (bitmap_at s wi) i)) as Hnot
    by (apply testbit_not64; lia).
  set (f1 := if wi =? start / 64 then _ else _).
  assert (Z.testbit f1 i = negb (Z.testbit (bitmap_at s wi) i) && (start <=? wi * 64 + i)) as Hf1.
  { unfold f1. destruct (Z.eqb_spec wi (start / 64)) as [Hw|Hw].
    - destruct (Z.eqb_spec (start mod 64) 0) as [Hz|Hz]; simpl negb; cbv iota.
      + replace (start <=? wi * 64 + i) with true by dmlia. by rewrite Hnot, andb_true_r.
      + rewrite Z.land_spec, Hnot, testbit_above_mask by dmlia. f_equal. zcases; dmlia.
    - replace (start <=? wi * 64 + i) with true by dmlia. by rewrite Hnot, andb_true_r. }
  destruct (Z.eqb_spec wi ((end_ - 1) / 64)) as [Hw|Hw].
  - destruct (Z.eqb_spec (end_ mod 64) 0) as [Hz|Hz]; simpl negb; cbv iota.
    + replace (wi * 64 + i <? end_) with true by dmlia. by rewrite Hf1, andb_true_r.
    + rewrite Z.land_spec, Hf1, testbit_below_mask by dmlia. f_equal. zcases; dmlia.
  - replace (wi * 64 + i <? end_) with true by dmlia. by rewrite Hf1, andb_true_r.
Qed.

(** What a search of [start, end_) does: it fails with only the scan counter
    changed when every page is in use, and otherwise takes the lowest free one. *)
Definition search_post (s : pmm) (start end_ : Z) (pa : Z) (s' : pmm) : Prop :=
  (pa = 0 /\ (exists st, s' = put_stats s st) /\
   (forall p, start <= p < end_ -> bit s p = true)) \/
  (exists p st, start <= p < end_ /\ bit s p = false /\ pa = p * PAGE_SIZE /\
     (forall q, start <= q < p -> bit s q = true) /\
     s' = put_next (set_used (put_stats s st) p) (p + 1)).

Lemma scan_words_spec n wi start end_ s0 st :
  shape s0 -> 0 <= start < end_ -> end_ <= tracked_page_count s0 ->
  start / 64 <= wi -> wi + Z.of_nat n = (end_ - 1) / 64 + 1 ->
  (forall p, start <= p < end_ -> p < wi * 64 -> bit s0 p = true) ->
  forall pa s',
  scan_words n wi (start / 64) ((end_ - 1) / 64) start end_ (put_stats s0 st) = (pa, s') ->
  search_post s0 start end_ pa s'.
Proof.
  intros Hs Hse Hend. revert wi st. induction n as [|n IH]; intros wi st Hwi Hn Hlow pa s'; cbn [scan_words].
  - intros [= <- <-]. left. split; [done|]. split; [by eexists|].
    intros p Hp. apply Hlow; [done|]. assert (p / 64 <= (end_ - 1) / 64) by (apply Z.div_le_mono; lia).
    dmlia.
  - set (s1 := note_scanned _). set (fb := free_bits_of _ _ _ _ _ _).
    assert (forall i, 0 <= i < 64 -> Z.testbit fb i =
      negb (bit s0 (wi * 64 + i)) && (start <=? wi * 64 + i) && (wi * 64 + i <? end_)) as Hfb.
    { intros i Hi. apply (free_bits_testbit s1); [|lia..]. by apply shape_put_stats, shape_put_stats. }
    assert (is_u64 fb) as Hu by apply free_bits_u64.
    destruct (Z.eqb_spec fb 0) as [Hz|Hz].
    + intros Hrun. eapply (IH (wi + 1)); [lia|lia| |exact Hrun].
      intros p Hp Hpw. destruct (Z.ltb_spec p (wi * 64)); [by apply Hlow|].
      specialize (Hfb (p - wi * 64) ltac:(lia)). rewrite Hz, Z.bits_0 in Hfb.
      replace (wi * 64 + (p - wi * 64)) with p in Hfb by lia.
      replace (start <=? p) with true in Hfb by lia. replace (p <? end_) with true in Hfb by lia.
      by destruct (bit s0 p).
    + destruct (ctz_spec fb) as [Hc1 Hc2]; [unfold is_u64 in Hu; lia|].
      assert (0 <= ctz fb < 64) as Hc by (apply ctz_range; unfold is_u64 in Hu; lia).
      rewrite Hfb in Hc1 by lia. apply andb_true_iff in Hc1 as [Hc1 He].
      apply andb_true_iff in Hc1 as [Hc1 Hs'].
      assert (tracked_page_count s0 <= 2 ^ 52) as Ht by (destruct Hs; lia).
      zbool. unfold BITS_PER_WORD. set (p := wi * 64 + ctz fb) in *.
      rewrite (u64_small p) by (unfold is_u64; lia).
      rewrite (u64_small (p + 1)), (u64_small (p * PAGE_SIZE)) by (unfold is_u64, PAGE_SIZE; lia).
      intros [= <- <-]. right. eexists p, _. split; [lia|]. split; [done|]. split; [done|].
      split; [|reflexivity]. intros q Hq.
      destruct (Z.ltb_spec q (wi * 64)); [by apply Hlow; lia|].
      specialize (Hfb (q - wi * 64) ltac:(lia)). rewrite Hc2 in Hfb by lia.
      replace (wi * 64 + (q - wi * 64)) with q in Hfb by lia.
      replace (start <=? q) with true in Hfb by lia. replace (q <? end_) with true in Hfb by lia.
      by destruct (bit s0 q).
Qed.

Lemma put_stats_same s : put_stats s (stats s) = s.
Proof. by destruct s. Qed.

Lemma alloc_page_in_range_spec s start end_ pa s' :
  shape s -> 0 <= start -> alloc_page_in_range s start end_ = (pa, s') ->
  search_post s start (Z.min end_ (tracked_page_count s)) pa s'.
Proof.
  intros Hs Hst. unfold alloc_page_in_range.
  replace (if tracked_page_count s <? end_ then _ else _)
    with (Z.min end_ (tracked_page_count s)) by (zcases; lia).
  set (e := Z.min _ _). destruct (Z.leb_spec e start) as [Hle|Hlt].
  - intros [= <- <-]. left. split; [done|]. split; [|lia].
    exists (stats s). by rewrite put_stats_same.
  - unfold BITS_PER_WORD. rewrite <- (put_stats_same s) at 1. apply scan_words_spec; try (done || lia).
    + assert (start / 64 <= (e - 1) / 64) by (apply Z.div_le_mono; lia). lia.
    + intros p Hp Hpw. exfalso. dmlia.
Qed.

(** *** Effects of the public operations on the pages *)

(** Everything but the pages themselves, the search cursor and the statistics. *)
Definition same_config (s s' : pmm) : Prop :=
  hhdm_base s' = hhdm_base s /\ tracked_page_count s' = tracked_page_count s /\
  bitmap_word_count s' = bitmap_word_count s /\ total_page_count s' = total_page_count s /\
  metadata_start_page s' = metadata_start_page s /\
  metadata_page_count s' = metadata_page_count s.

(** The pages in [p, p + n) get bit [b] and count [c]; the others are untouched. *)
Record pages_set (s s' : pmm) (p n : Z) (b : bool) (c : Z) : Prop := {
  ps_config : same_config s s';
  ps_bit : forall q, 0 <= q < tracked_page_count s ->
             bit s' q = if (p <=? q) && (q <? p + n) then b else bit s q;
  ps_ref : forall q, 0 <= q < tracked_page_count s ->
             refcount_at s' q = if (p <=? q) && (q <? p + n) then c else refcount_at s q;
}.

Lemma same_config_refl s : same_config s s.
Proof. by repeat split. Qed.

(** States that agree on the pages and the configuration, whatever their search
    cursor, statistics and free count. *)
Definition same_pages (s s' : pmm) : Prop :=
  bitmap s' = bitmap s /\ refcounts s' = refcounts s /\ same_config s s'.

#[export] Instance same_pages_equiv : Equivalence same_pages.
Proof.
  split; unfold same_pages, same_config.
  - intros s. by repeat split.
  - intros s s' H. destruct_and!. split_and!; congruence.
  - intros s s' s'' H H'. destruct_and!. split_and!; congruence.
Qed.

#[export] Instance bit_proper : Proper (same_pages ==> eq ==> eq) bit.
Proof. intros s s' (Hb & _ & _) p q ->. unfold bit, bitmap_at. by rewrite Hb. Qed.

#[export] Instance refcount_at_proper : Proper (same_pages ==> eq ==> eq) refcount_at.
Proof. intros s s' (_ & Hr & _) p q ->. unfold refcount_at. by rewrite Hr. Qed.

Lemma pages_set_proper s1 s1' s s' p n b c :
  same_pages s1 s -> same_pages s1' s' -> pages_set s1 s1' p n b c -> pages_set s s' p n b c.
Proof.
  intros H H' [Hc Hb Hr]. pose proof H as (_ & _ & Hc1). pose proof H' as (_ & _ & Hc2).
  unfold same_config in *. destruct_and!. split.
  - unfold same_config. split_and!; congruence.
  - intros q Hq. rewrite <- H, <- H'. apply Hb. lia.
  - intros q Hq. rewrite <- H, <- H'. apply Hr. lia.
Qed.

(** Closes [same_pages] goals between states that differ in bookkeeping fields. *)
Ltac solve_pages := solve [repeat split; reflexivity].

Lemma frame_config s s' : frame s s' -> same_config s s'.
Proof. intros H. unfold same_config. by rewrite H. Qed.

Lemma one_page p q : (p <=? q) && (q <? p + 1) = (q =? p).
Proof. destruct (Z.eqb_spec q p); zcases; simpl; lia. Qed.

Lemma touched_pages s s' p b c : touched s s' p b c -> pages_set s s' p 1 b c.
Proof.
  intros [Hf Hb Hr]. split; [by apply frame_config| |]; intros q Hq; rewrite one_page; auto.
Qed.

Lemma pages_unchanged s s' :
  same_config s s' -> bitmap s' = bitmap s -> refcounts s' = refcounts s ->
  pages_set s s' 0 0 false 0.
Proof.
  intros Hc Hb Hr. split; [done| |]; intros q Hq;
    replace ((0 <=? q) && (q <? 0 + 0)) with false by (zcases; simpl; lia).
  - unfold bit, bitmap_at. by rewrite Hb.
  - unfold refcount_at. by rewrite Hr.
Qed.

(** A successful search takes one page. *)
Lemma search_taken s st p :
  pmm_ok s -> 0 <= p < tracked_page_count s -> bit s p = false ->
  pmm_ok (put_next (set_used (put_stats s st) p) (p + 1)) /\
  pages_set s (put_next (set_used (put_stats s st) p) (p + 1)) p 1 true 1 /\
  refcount_at s p = 0.
Proof.
  intros Hok Hp Hb. assert (refcount_at s p = 0) as Hr0.
  { destruct (Z.eq_dec (refcount_at s p) 0) as [|Hne]; [done|].
    by rewrite (ok_ref s Hok) in Hb by done. }
  destruct (set_used_spec (put_stats s st) p) as [Hok' Ht]; [by apply ok_put_stats|done|].
  change (refcount_at (put_stats s st) p) with (refcount_at s p) in Ht. rewrite Hr0, Z.eqb_refl in Ht.
  assert (tracked_page_count s <= 2 ^ 52) by (destruct Hok as [[] _ _ _]; lia).
  split; [apply ok_put_next; [done|lia]|]. split; [|done].
  apply touched_pages in Ht. eapply pages_set_proper; [| |exact Ht].
  - solve_pages.
  - solve_pages.
Qed.

Lemma alloc_page_cases s pa s' :
  pmm_ok s -> pmm_alloc_page s = (pa, s') ->
  pmm_ok s' /\
  ((pa = 0 /\ pages_set s s' 0 0 false 0 /\
    forall p, 256 <= p < tracked_page_count s -> bit s p = true) \/
   (exists p, pa = p * PAGE_SIZE /\ 256 <= p < tracked_page_count s /\
      bit s p = false /\ refcount_at s p = 0 /\ pages_set s s' p 1 true 1)).
Proof.
  intros Hok. unfold pmm_alloc_page. change (0x100000 / PAGE_SIZE) with 256.
  cbv zeta. match goal with |- context [if ?b then put_next ?x 256 else ?x] =>
    set (s1 := if b then put_next x 256 else x) end.
  assert (exists st nx, s1 = put_next (put_stats s st) nx /\ 256 <= nx <= 2 ^ 53 /\
            (tracked_page_count s <= nx -> nx = 256)) as (st & nx & Hs1 & Hnx & Hnx').
  { unfold s1. destruct Hok as [_ _ _ Hn].
    destruct (_ || _) eqn:E.
    - eexists _, 256. split; [reflexivity|]. lia.
    - exists (stats (note_attempt s)), (next_free_page s). zbool. simpl in *.
      split; [by destruct s|]. lia. }
  clearbody s1. subst s1. simpl.
  assert (pmm_ok (put_next (put_stats s st) nx)) as Hok1 by (apply ok_put_next; [by apply ok_put_stats|lia]).
  destruct (alloc_page_in_range _ _ _) as [pa1 s2] eqn:E1.
  apply alloc_page_in_range_spec in E1; [|apply Hok1|lia]. simpl in E1. rewrite Z.min_id in E1.
  destruct E1 as [(-> & [st2 ->] & Hfull)|(p & st2 & Hp & Hb & -> & _ & ->)].
  - simpl. destruct (alloc_page_in_range _ _ _) as [pa2 s3] eqn:E2.
    apply alloc_page_in_range_spec in E2; [|by apply ok_put_stats|lia]. simpl in E2.
    destruct E2 as [(-> & [st3 ->] & Hfull2)|(p & st3 & Hp & Hb & -> & _ & ->)].
    + intros [= <- <-]. split; [by repeat apply ok_put_stats|]. left. split; [done|].
      split; [by apply pages_unchanged|]. intros p Hp.
      destruct (Z.ltb_spec p nx); [apply Hfull2; lia|]. apply Hfull; lia.
    + destruct (search_taken _ st3 p (ok_put_stats _ st2 Hok1)) as (Hok2 & Hps & Hr0); [simpl; lia|done|].
      match type of Hps with pages_set _ ?x _ _ _ _ => generalize dependent x; intros t Hok2 Hps end.
      assert ((p * PAGE_SIZE =? 0) = false) as -> by (unfold PAGE_SIZE; lia).
      intros [= <- <-]. split; [by apply ok_put_stats|]. right. exists p.
      split_and!; [done|lia|lia|done|done|]. eapply pages_set_proper; [| |exact Hps].
      * solve_pages.
      * solve_pages.
  - destruct (search_taken _ st2 p Hok1) as (Hok2 & Hps & Hr0); [simpl; lia|done|].
    match type of Hps with pages_set _ ?x _ _ _ _ => generalize dependent x; intros t Hok2 Hps end.
    assert ((p * PAGE_SIZE =? 0) = false) as E0 by (unfold PAGE_SIZE; lia).
    rewrite E0. cbv iota beta. rewrite E0.
    intros [= <- <-]. split; [by apply ok_put_stats|]. right. exists p.
    split_and!; [done|lia|lia|done|done|]. eapply pages_set_proper; [| |exact Hps].
    + solve_pages.
    + solve_pages.
Qed.

(** *** Marking and freeing runs of pages *)

Lemma touched_config s s' p b c : touched s s' p b c -> same_config s s'.
Proof. intros [H _ _]. by apply frame_config. Qed.

(** [s'] is [s] with the tracked pages of [p, p + n) marked and referenced. *)
Record pages_used (s s' : pmm) (p n : Z) : Prop := {
  pu_config : same_config s s';
  pu_next : next_free_page s' = next_free_page s;
  pu_bit : forall q, 0 <= q < tracked_page_count s ->
             bit s' q = if (p <=? q) && (q <? p + n) then true else bit s q;
  pu_ref : forall q, 0 <= q < tracked_page_count s ->
             refcount_at s' q =
               if (p <=? q) && (q <? p + n) && (refcount_at s q =? 0) then 1 else refcount_at s q;
}.

Lemma use_pages_spec n p s :
  pmm_ok s -> 0 <= p -> p + Z.of_nat n <= 2 ^ 53 ->
  pmm_ok (use_pages n p s) /\ pages_used s (use_pages n p s) p (Z.of_nat n).
Proof.
  revert p s. induction n as [|n IH]; intros p s Hok Hp Hn; cbn [use_pages].
  - split; [done|]. split; [apply same_config_refl|done| |]; intros q Hq;
      replace ((p <=? q) && (q <? p + Z.of_nat 0)) with false by (zcases; simpl; lia); done.
  - rewrite u64_small by (unfold is_u64; lia).
    assert (pmm_ok (set_used s p) /\ same_config s (set_used s p) /\
      next_free_page (set_used s p) = next_free_page s /\
      (forall q, 0 <= q < tracked_page_count s ->
         bit (set_used s p) q = (q =? p) || bit s q) /\
      (forall q, 0 <= q < tracked_page_count s -> refcount_at (set_used s p) q =
         if (q =? p) && (refcount_at s q =? 0) then 1 else refcount_at s q))
      as (Hok1 & Hc1 & Hn1 & Hb1 & Hr1).
    { destruct (Z.ltb_spec p (tracked_page_count s)) as [Hlt|Hge].
      - destruct (set_used_spec s p Hok) as [Hok' Ht]; [lia|]. pose proof Ht as [Hf Hb Hr].
        split; [done|]. split; [by eapply touched_config|]. split; [by rewrite Hf|].
        split; intros q Hq.
        + rewrite Hb by done. by destruct (q =? p).
        + rewrite Hr by done. destruct (Z.eqb_spec q p) as [->|]; [|done]. simpl.
          by destruct (refcount_at s p =? 0).
      - rewrite set_used_invalid by (try apply ok_shape; done || lia).
        split; [done|]. split; [apply same_config_refl|]. split; [done|].
        split; intros q Hq; by replace (q =? p) with false by lia. }
    assert (tracked_page_count (set_used s p) = tracked_page_count s) as Ht by apply Hc1.
    destruct (IH (p + 1) (set_used s p)) as [Hok2 [Hc2 Hn2 Hb2 Hr2]]; [done|lia|lia|].
    generalize dependent (use_pages n (p + 1) (set_used s p)). intros s2 Hok2 Hc2 Hn2 Hb2 Hr2.
    generalize dependent (set_used s p). intros s1 Hok1 Hc1 Hn1 Hb1 Hr1 Ht Hc2 Hn2 Hb2 Hr2.
    split; [done|]. split.
    + unfold same_config in *. destruct_and!. split_and!; congruence.
    + congruence.
    + intros q Hq. rewrite Hb2, Hb1 by lia. zcases; simpl; try done; lia.
    + intros q Hq. rewrite Hr2, Hr1 by lia.
      destruct (Z.eqb_spec (refcount_at s q) 0) as [E|E]; zcases; simpl; try done; lia.
Qed.

(** [s'] is [s] with the tracked pages of [p, p + n) made available. *)
Record pages_freed (s s' : pmm) (p n : Z) : Prop := {
  pf_tracked : tracked_page_count s' = tracked_page_count s;
  pf_meta : metadata_start_page s' = metadata_start_page s /\
            metadata_page_count s' = metadata_page_count s;
  pf_next : next_free_page s' = next_free_page s;
  pf_bit : forall q, 0 <= q < tracked_page_count s ->
             bit s' q = if (p <=? q) && (q <? p + n) then false else bit s q;
}.

Lemma free_range_spec n p s :
  pmm_ok s -> 0 <= p -> p + Z.of_nat n <= 2 ^ 52 - 1 ->
  let s' := free_range n (p * PAGE_SIZE) ((p + Z.of_nat n) * PAGE_SIZE) s in
  pmm_ok s' /\ pages_freed s s' p (Z.of_nat n).
Proof.
  revert p s. induction n as [|n IH]; intros p s Hok Hp Hn; cbn [free_range]; cbv zeta.
  - split; [done|]. split; [done|done|done|]. intros q Hq.
    by replace ((p <=? q) && (q <? p + Z.of_nat 0)) with false by (zcases; simpl; lia).
  - rewrite (proj2 (Z.ltb_lt (p * PAGE_SIZE) _)) by (unfold PAGE_SIZE; lia).
    rewrite Z.div_mul by (unfold PAGE_SIZE; lia).
    rewrite u64_small by (unfold is_u64, PAGE_SIZE; lia).
    replace (p * PAGE_SIZE + PAGE_SIZE) with ((p + 1) * PAGE_SIZE) by lia.
    replace (p + Z.of_nat (S n)) with (p + 1 + Z.of_nat n) by lia.
    set (s0 := put_total s _).
    assert (pmm_ok (set_free s0 p) /\
      tracked_page_count (set_free s0 p) = tracked_page_count s /\
      (metadata_start_page (set_free s0 p) = metadata_start_page s /\
       metadata_page_count (set_free s0 p) = metadata_page_count s) /\
      next_free_page (set_free s0 p) = next_free_page s /\
      (forall q, 0 <= q < tracked_page_count s ->
         bit (set_free s0 p) q = negb (q =? p) && bit s q)) as (Hok1 & Ht1 & Hm1 & Hn1 & Hb1).
    { assert (pmm_ok s0) as Hok0 by by apply ok_put_total.
      destruct (Z.ltb_spec p (tracked_page_count s)) as [Hlt|Hge].
      - destruct (set_free_spec s0 p Hok0) as [Hok' [Hf Hb Hr]]; [simpl; lia|].
        split; [done|]. split; [by rewrite Hf|]. split; [by rewrite Hf|]. split; [by rewrite Hf|].
        intros q Hq. rewrite Hb by done. by destruct (q =? p).
      - rewrite set_free_invalid by (try apply ok_shape; done || (simpl; lia)).
        split_and!; try done. intros q Hq. by replace (q =? p) with false by lia. }
    destruct (IH (p + 1) (set_free s0 p)) as [Hok2 [Ht2 Hm2 Hn2 Hb2]]; [done|lia|lia|].
    generalize dependent (set_free s0 p). intros s1 Hok1 Ht1 Hm1 Hn1 Hb1.
    generalize (free_range n ((p + 1) * PAGE_SIZE) ((p + 1 + Z.of_nat n) * PAGE_SIZE) s1).
    intros s2 Hok2 Ht2 Hm2 Hn2 Hb2. split; [done|]. split.
    + congruence.
    + destruct Hm1, Hm2. split; congruence.
    + congruence.
    + intros q Hq. rewrite Hb2, Hb1 by lia. zcases; simpl; try done; lia.
Qed.

(** *** Initialisation *)

(** Page [q] lies inside the page-aligned part of a usable region. *)
Definition usable_page (memmap : list spore_memmap_entry) (q : Z) : bool :=
  existsb (fun e => (entry_type e =? SPORE_MEMMAP_USABLE) &&
                    (entry_start e <=? q * PAGE_SIZE) && (q * PAGE_SIZE <? entry_end e)) memmap.

Lemma usable_page_cons e rest q :
  usable_page (e :: rest) q =
    (entry_type e =? SPORE_MEMMAP_USABLE) && (entry_start e <=? q * PAGE_SIZE) &&
    (q * PAGE_SIZE <? entry_end e) || usable_page rest q.
Proof. reflexivity. Qed.

Lemma entry_start_eq e : entry_start e = u64 (entry_base e + 4095) / 4096 * PAGE_SIZE.
Proof.
  unfold entry_start, align_up, PAGE_SIZE. change (u64 (4096 - 1)) with (2 ^ 12 - 1).
  rewrite land_not64_low by (auto with spore; lia).
  replace (entry_base e + 4096 - 1) with (entry_base e + 4095) by lia.
  change (2 ^ 12) with 4096. lia.
Qed.

Lemma entry_end_eq e : entry_end e = u64 (entry_base e + entry_length e) / 4096 * PAGE_SIZE.
Proof.
  unfold entry_end, align_down, PAGE_SIZE. change (u64 (4096 - 1)) with (2 ^ 12 - 1).
  rewrite land_not64_low by (auto with spore; lia).
  change (2 ^ 12) with 4096. lia.
Qed.

Lemma u64_page x : 0 <= u64 x / 4096 <= 2 ^ 52 - 1.
Proof. pose proof (u64_range x) as H. unfold is_u64 in H. dmlia. Qed.

Lemma highest_from_spec memmap h :
  0 <= h -> (exists k, h = k * PAGE_SIZE /\ 0 <= k <= 2 ^ 52) ->
  h <= highest_usable_end_from h memmap /\
  (exists k, highest_usable_end_from h memmap = k * PAGE_SIZE /\ 0 <= k <= 2 ^ 52) /\
  (forall q, usable_page memmap q = true ->
     q * PAGE_SIZE < highest_usable_end_from h memmap).
Proof.
  revert h. induction memmap as [|e rest IH]; intros h Hh Hk; cbn -[entry_start entry_end usable_page].
  - split; [lia|]. split; [done|]. done.
  - destruct (Z.eqb_spec (entry_type e) SPORE_MEMMAP_USABLE) as [Eu|Eu]; cbn -[entry_start entry_end usable_page].
    + set (h' := if (entry_start e <? entry_end e) && _ then _ else _).
      assert (h <= h' /\ (entry_start e < entry_end e -> entry_end e <= h')) as [Hh1 Hh2].
      { unfold h'. zcases; simpl; lia. }
      destruct (IH h') as (H1 & H2 & H3); [lia| |].
      { unfold h'. destruct (_ && _); [|done]. rewrite entry_end_eq.
        eexists. split; [done|]. pose proof (u64_page (entry_base e + entry_length e)). lia. }
      split; [lia|]. split; [done|]. intros q Hq. rewrite usable_page_cons in Hq.
      apply orb_true_iff in Hq as [Hq|Hq]; [|by apply H3]. zbool. lia.
    + destruct (IH h Hh Hk) as (H1 & H2 & H3). split_and!; [done|done|].
      intros q Hq. apply H3. rewrite usable_page_cons in Hq. by replace (_ =? _) with false in Hq by lia.
Qed.

Lemma find_metadata_region_spec memmap bytes pa :
  0 < bytes -> find_metadata_region memmap bytes = Some pa ->
  0x100000 <= pa /\ pa + bytes <= 2 ^ 64 /\ (exists k, pa = k * PAGE_SIZE) /\
  (forall q, pa <= q * PAGE_SIZE < pa + bytes -> usable_page memmap q = true).
Proof.
  intros Hb. induction memmap as [|e rest IH]; cbn -[entry_start entry_end usable_page]; [done|].
  destruct (Z.eqb_spec (entry_type e) SPORE_MEMMAP_USABLE) as [Eu|Eu]; cbn -[entry_start entry_end usable_page];
    [|intros H; destruct (IH H) as (H1 & H2 & H3 & H4); split_and!; try done;
      intros q Hq; rewrite usable_page_cons, H4 by done; apply orb_true_r].
  set (st := if _ <? _ then _ else _). assert (0x100000 <= st /\ entry_start e <= st) as [Hs1 Hs2].
  { unfold st. zcases; lia. }
  destruct ((st <? entry_end e) && _) eqn:E.
  - intros [= <-]. zbool. split; [lia|].
    assert (entry_end e <= 2 ^ 64) as He.
    { rewrite entry_end_eq. unfold PAGE_SIZE.
      pose proof (u64_page (entry_base e + entry_length e)). lia. }
    split; [lia|]. split.
    + unfold st. zcases; [by exists 256|]. rewrite entry_start_eq. by eexists.
    + intros q Hq. rewrite usable_page_cons. apply orb_true_iff. left.
      zcases; simpl; try done; lia.
  - intros H. destruct (IH H) as (H1 & H2 & H3 & H4). split_and!; try done.
    intros q Hq. rewrite usable_page_cons, H4 by done. apply orb_true_r.
Qed.

Lemma free_entries_spec memmap s :
  pmm_ok s ->
  pmm_ok (free_entries memmap s) /\
  tracked_page_count (free_entries memmap s) = tracked_page_count s /\
  (metadata_start_page (free_entries memmap s) = metadata_start_page s /\
   metadata_page_count (free_entries memmap s) = metadata_page_count s) /\
  (forall q, 0 <= q < tracked_page_count s ->
     bit (free_entries memmap s) q = negb (usable_page memmap q) && bit s q).
Proof.
  revert s. induction memmap as [|e rest IH]; intros s Hok; cbn -[entry_start entry_end usable_page].
  - by split_and!.
  - destruct (Z.eqb_spec (entry_type e) SPORE_MEMMAP_USABLE) as [Eu|Eu]; cbn -[entry_start entry_end usable_page];
      [|destruct (IH s Hok) as (H1 & H2 & H3 & H4); split_and!; try apply H3; try done;
        intros q Hq; rewrite H4, usable_page_cons by done; by replace (_ =? _) with false by lia].
    setoid_rewrite usable_page_cons. rewrite Eu, Z.eqb_refl, entry_start_eq, entry_end_eq. simpl andb.
    pose proof (u64_page (entry_base e + 4095)) as Ha.
    pose proof (u64_page (entry_base e + entry_length e)) as Hb.
    set (a := u64 (entry_base e + 4095) / 4096) in *.
    set (b := u64 (entry_base e + entry_length e) / 4096) in *.
    replace ((b * PAGE_SIZE - a * PAGE_SIZE) / PAGE_SIZE) with (b - a)
      by (rewrite <- Z.mul_sub_distr_r, Z.div_mul; unfold PAGE_SIZE; lia).
    destruct (Z.leb_spec b a) as [Hle|Hlt].
    + replace (Z.to_nat (b - a)) with 0%nat by lia. cbn [free_range].
      destruct (IH s Hok) as (H1 & H2 & H3 & H4). split_and!; try apply H3; try done.
      intros q Hq. rewrite H4 by done. f_equal. f_equal.
      replace ((a * PAGE_SIZE <=? q * PAGE_SIZE) && (q * PAGE_SIZE <? b * PAGE_SIZE)) with false; [done|].
      unfold PAGE_SIZE. zcases; simpl; lia.
    + pose proof (free_range_spec (Z.to_nat (b - a)) a s Hok) as Hfr.
      rewrite Z2Nat.id in Hfr by lia. replace (a + (b - a)) with b in Hfr by lia.
      destruct Hfr as [Hok1 [Ht Hm Hn Hbit]]; [lia|lia|].
      generalize dependent (free_range (Z.to_nat (b - a)) (a * PAGE_SIZE) (b * PAGE_SIZE) s).
      intros s1 Hok1 Ht Hm Hn Hbit. destruct (IH s1 Hok1) as (H1 & H2 & H3 & H4).
      destruct Hm, H3. split_and!; [done|congruence|congruence|congruence|].
      intros q Hq. rewrite H4, Hbit by lia.
      replace (a + (b - a)) with b by lia. unfold PAGE_SIZE.
      destruct (usable_page rest q); [by rewrite orb_true_r|]. rewrite orb_false_r.
      zcases; simpl; try done; lia.
Qed.

(** A page the allocator may hand out (subject to the 1 MiB floor). *)
Definition available (s : pmm) (p : Z) : bool :=
  (0 <=? p) && (p <? tracked_page_count s) && negb (bit s p).

Definition is_metadata (s : pmm) (p : Z) : bool :=
  (metadata_start_page s <=? p) && (p <? metadata_start_page s + metadata_page_count s).

Lemma ok_empty hhdm words total next st :
  words = 0 -> 0 <= next <= 2 ^ 53 -> pmm_ok (mk_pmm hhdm None None 0 words total 0 next 0 0 st).
Proof. intros -> Hn. split; [split|..]; simpl; try (done || lia || constructor). Qed.

(** The state before any region is freed: every page is marked. *)
Lemma ok_fresh hhdm tracked ms mc st :
  let s := mk_pmm hhdm (Some (replicate (Z.to_nat ((tracked + 63) / 64)) UINT64_MAX))
             (Some (replicate (Z.to_nat tracked) 0)) tracked ((tracked + 63) / 64) 0 0 256 ms mc st in
  0 <= tracked <= 2 ^ 52 ->
  pmm_ok s /\ (forall q, 0 <= q < tracked -> bit s q = true).
Proof.
  intros s Ht. assert (forall q, 0 <= q < tracked -> bit s q = true) as Hb.
  { intros q Hq. unfold bit, bitmap_at, BITS_PER_WORD. simpl.
    rewrite lookup_total_replicate_2 by dmlia. change UINT64_MAX with (Z.ones 64).
    apply Z.ones_spec_low. apply Z.mod_pos_bound. lia. }
  split; [|done]. split; [split|..]; simpl.
  - lia.
  - done.
  - done.
  - by rewrite length_replicate.
  - apply Forall_replicate. unfold is_u64, UINT64_MAX. lia.
  - by rewrite length_replicate.
  - apply Forall_replicate. unfold is_u16. lia.
  - symmetry. apply countb_zero. intros q Hq. rewrite Hb by lia. done.
  - intros q Hq. by rewrite Hb.
  - lia.
Qed.

(** The metadata is a positive whole number of pages. *)
Lemma metadata_bytes_spec k :
  0 < k <= 2 ^ 52 ->
  exists j, align_up (u64 (u64 ((k + 63) / 64 * 8) + u64 (k * 2))) PAGE_SIZE = j * PAGE_SIZE /\
    0 < j <= 2 ^ 51.
Proof.
  intros Hk. unfold align_up, PAGE_SIZE. change (u64 (4096 - 1)) with (2 ^ 12 - 1).
  rewrite land_not64_low by (auto with spore; lia). change (2 ^ 12) with 4096.
  rewrite (u64_small ((k + 63) / 64 * 8)), (u64_small (k * 2)) by (unfold is_u64; dmlia).
  rewrite (u64_small (_ * 8 + _)) by (unfold is_u64; dmlia).
  rewrite (u64_small (_ + _ - 1)) by (unfold is_u64; dmlia).
  eexists. split; [apply Z.mul_comm|]. dmlia.
Qed.

Lemma pmm_init_spec hhdm memmap :
  let s := pmm_init hhdm memmap in
  pmm_ok s /\
  (tracked_page_count s <> 0 ->
     (forall p, available s p = usable_page memmap p && (256 <=? p) && negb (is_metadata s p)) /\
     (forall p, is_metadata s p = true -> 256 <= p /\ usable_page memmap p = true)).
Proof.
  destruct (highest_from_spec memmap 0) as (_ & (k & Hk & Hkb) & Hhi); [lia|by exists 0|].
  unfold pmm_init. unfold highest_usable_end. rewrite Hk in *.
  rewrite Z.div_mul by (unfold PAGE_SIZE; lia). change (0x100000 / PAGE_SIZE) with 256. cbv zeta.
  assert (div_round_up k BITS_PER_WORD = (k + 63) / 64) as Hw.
  { unfold div_round_up, BITS_PER_WORD. rewrite u64_small by (unfold is_u64; lia). f_equal. lia. }
  rewrite Hw. destruct (Z.eqb_spec k 0) as [->|Hk0]; simpl orb; cbv iota.
  { split; [apply ok_empty; [done|lia]|by intros []]. }
  assert (((k + 63) / 64 =? 0) = false) as -> by dmlia. cbv iota.
  destruct (metadata_bytes_spec k) as (j & Hj & Hjb); [lia|].
  rewrite Hj. destruct (find_metadata_region memmap (j * PAGE_SIZE)) as [pa|] eqn:Emd;
    [|split; [apply ok_empty; [done|lia]|by intros []]].
  apply find_metadata_region_spec in Emd as (Hpa & Hpab & [m Hm] & Hmu); [|unfold PAGE_SIZE; lia].
  subst pa. rewrite !Z.div_mul by (unfold PAGE_SIZE; lia).
  destruct (ok_fresh hhdm k m j (mk_stats 0 0 0 0)) as [Hok0 Hb0]; [lia|].
  set (s0 := mk_pmm _ _ _ _ _ _ _ _ _ _ _) in *.
  destruct (free_entries_spec memmap s0 Hok0) as (Hok1 & Ht1 & [Hms1 Hmc1] & Hb1).
  change (tracked_page_count s0) with k in *.
  change (metadata_start_page s0) with m in *. change (metadata_page_count s0) with j in *.
  clearbody s0.
  generalize dependent (free_entries memmap s0). intros s1 Hok1 Ht1 Hms1 Hmc1 Hb1.
  destruct (use_pages_spec (Z.to_nat 256) 0 s1) as [Hok2 [Hc2 _ Hb2 _]]; [done|lia|lia|].
  generalize dependent (use_pages (Z.to_nat 256) 0 s1). intros s2 Hok2 Hc2 Hb2.
  destruct Hc2 as (_ & Ht2 & _ & _ & Hms2 & Hmc2).
  assert (0 <= m < 2 ^ 52) as Hmb by (unfold PAGE_SIZE in *; lia).
  destruct (use_pages_spec (Z.to_nat (metadata_page_count s2)) (metadata_start_page s2) s2)
    as [Hok3 [Hc3 _ Hb3 _]]; [done|lia|lia|].
  generalize dependent (use_pages (Z.to_nat (metadata_page_count s2)) (metadata_start_page s2) s2).
  intros s3 Hok3 Hc3 Hb3. destruct Hc3 as (_ & Ht3 & _ & _ & Hms3 & Hmc3).
  split; [done|]. intros _. unfold available, is_metadata.
  replace (tracked_page_count s3) with k by congruence.
  replace (metadata_start_page s3) with m by congruence.
  replace (metadata_page_count s3) with j by congruence. split.
  - intros p. destruct (usable_page memmap p) eqn:Eu.
    + specialize (Hhi p Eu). destruct (Z.leb_spec 0 p) as [Hp|Hp]; simpl; [|zcases; simpl; lia].
      assert (p < k) as Hpk by (unfold PAGE_SIZE in Hhi; lia).
      rewrite Hb3, Hb2, Hb1, Hb0, Eu, Hms2, Hmc2, Hms1, Hmc1, Z2Nat.id by lia.
      zcases; simpl; try done; lia.
    + destruct (Z.leb_spec 0 p), (Z.ltb_spec p k); try done. simpl.
      rewrite Hb3, Hb2, Hb1, Hb0, Eu by lia. by repeat case_match.
  - intros p Hp. zbool. unfold PAGE_SIZE in *. split; [lia|]. apply Hmu. lia.
Qed.

(** *** Contiguous allocation *)

(** Every page of [r, r + count) is available. *)
Definition free_run (s : pmm) (r count : Z) : Prop :=
  256 <= r /\ r + count <= tracked_page_count s /\
  forall p, r <= p < r + count -> bit s p = false.

Lemma scan_run_spec n page run_start run_len count s0 st :
  pmm_ok s0 -> 256 <= page -> page + Z.of_nat n = tracked_page_count s0 ->
  0 <= run_len < count -> count <= tracked_page_count s0 ->
  (0 < run_len -> run_start = page - run_len /\ 256 <= run_start) ->
  (forall p, page - run_len <= p < page -> bit s0 p = false) ->
  (forall r, r + count <= page -> ~ free_run s0 r count) ->
  (forall r, r < page - run_len -> page <= r + count -> ~ free_run s0 r count) ->
  forall pa s', scan_run n page run_start run_len count (put_stats s0 st) = (pa, s') ->
  pmm_ok s' /\
  ((pa = 0 /\ pages_set s0 s' 0 0 false 0 /\ forall r, ~ free_run s0 r count) \/
   (exists r, pa = r * PAGE_SIZE /\ free_run s0 r count /\
      (forall r', r' < r -> ~ free_run s0 r' count) /\ pages_set s0 s' r count true 1)).
Proof.
  intros Hok. assert (tracked_page_count s0 <= 2 ^ 52) as Htb by (destruct Hok as [[] _ _ _]; lia).
  revert page run_start run_len st.
  induction n as [|n IH]; intros page rs rl st Hpg Hn Hrl Hc Hrs Hrun Hno Hmid pa s'; cbn [scan_run].
  - intros [= <- <-]. split; [by repeat apply ok_put_stats|]. left. split; [done|].
    split; [by apply pages_unchanged|]. intros r Hr. pose proof Hr as (H1 & H2 & H3).
    apply (Hno r); [lia|done].
  - set (s1 := note_scanned _). rewrite (mask_test s1), negb_involutive.
    rewrite valid_page_spec by (try lia; apply shape_put_stats, shape_put_stats, Hok).
    replace (page <? tracked_page_count s1) with true by (symmetry; apply Z.ltb_lt; simpl; lia).
    change (bit s1 page) with (bit s0 page). rewrite (u64_small (page + 1)) by (unfold is_u64; lia).
    destruct (bit s0 page) eqn:Eb; simpl orb; cbv iota.
    + intros Hrun'. eapply IH; [..|exact Hrun']; try lia.
      * intros r Hr Hf. destruct (Z.ltb_spec (r + count) (page + 1)); [by apply (Hno r); [lia|]|].
        destruct Hf as (_ & _ & Hf). specialize (Hf page ltac:(lia)). congruence.
      * intros r Hr1 Hr2 Hf. destruct Hf as (_ & _ & Hf). specialize (Hf page ltac:(lia)). congruence.
    + rewrite (u64_small (rl + 1)) by (unfold is_u64; lia).
      set (rs' := if rl =? 0 then page else rs).
      assert (rs' = page - rl /\ 256 <= rs') as [Hrs1 Hrs2].
      { unfold rs'. destruct (Z.eqb_spec rl 0); [lia|]. apply Hrs. lia. }
      assert (forall p, page - rl <= p < page + 1 -> bit s0 p = false) as Hrun2.
      { intros p Hp. destruct (Z.eq_dec p page) as [->|]; [done|]. apply Hrun. lia. }
      destruct (Z.ltb_spec (rl + 1) count) as [Hlt|Hge].
      * intros Hrun'. eapply IH; [..|exact Hrun']; try lia.
        -- intros p Hp. apply Hrun2. lia.
        -- intros r Hr. destruct (Z.leb_spec (r + count) page); [by apply Hno|]. apply Hmid; lia.
        -- intros r Hr1 Hr2. apply Hmid; lia.
      * assert (count = rl + 1) as -> by lia.
        assert (pmm_ok s1) as Hok1 by by apply ok_put_stats, ok_put_stats.
        destruct (use_pages_spec (Z.to_nat (rl + 1)) rs' s1) as [Hok2 [Hc2 _ Hb2 Hr2]]; [done|lia|lia|].
        rewrite Z2Nat.id in Hb2, Hr2 by lia.
        generalize dependent (use_pages (Z.to_nat (rl + 1)) rs' s1). intros s2 Hok2 Hc2 Hb2 Hr2.
        rewrite (u64_small (rs' * PAGE_SIZE)), (u64_small (rs' + _)) by (unfold is_u64, PAGE_SIZE; lia).
        intros [= <- <-]. split; [apply ok_put_stats, ok_put_next; [done|lia]|].
        right. exists rs'. split; [done|]. split; [|split].
        -- split_and!; [lia|lia|]. intros p Hp. apply Hrun2. lia.
        -- intros r Hr. destruct (Z.leb_spec (r + (rl + 1)) page); [by apply Hno|]. apply Hmid; lia.
        -- split; [done|exact Hb2|]. intros q Hq.
           change (refcount_at (note_success (put_next s2 (rs' + (rl + 1)))) q) with (refcount_at s2 q).
           rewrite Hr2 by done. change (refcount_at s1 q) with (refcount_at s0 q).
           destruct ((rs' <=? q) && (q <? rs' + (rl + 1))) eqn:Ein; [|done]. zbool. simpl.
           destruct (Z.eqb_spec (refcount_at s0 q) 0) as [|Hne]; [done|].
           apply (ok_ref s0 Hok) in Hne; [|lia]. rewrite Hrun2 in Hne by lia. done.
Qed.

Lemma alloc_contiguous_cases s count pa s' :
  pmm_ok s -> 0 <= count -> pmm_alloc_contiguous_pages s count = (pa, s') ->
  pmm_ok s' /\
  ((pa = 0 /\ pages_set s s' 0 0 false 0 /\
    (0 < count -> forall r, ~ free_run s r count)) \/
   (exists r, pa = r * PAGE_SIZE /\ free_run s r count /\ 0 < count /\
      (forall r', r' < r -> ~ free_run s r' count) /\ pages_set s s' r count true 1)).
Proof.
  intros Hok Hc. unfold pmm_alloc_contiguous_pages. change (0x100000 / PAGE_SIZE) with 256.
  destruct (Z.eqb_spec count 0) as [->|Hc0]; simpl orb; cbv iota.
  { intros [= <- <-]. split; [done|]. left. split; [done|]. split; [by apply pages_unchanged|lia]. }
  destruct (Z.ltb_spec (tracked_page_count s) count) as [Hgt|Hle].
  { intros [= <- <-]. split; [done|]. left. split; [done|]. split; [by apply pages_unchanged|].
    intros _ r (H1 & H2 & _). lia. }
  destruct (Z.ltb_spec (tracked_page_count s) 256) as [Hlow|Hhigh].
  { replace (Z.to_nat _) with 0%nat by lia. cbn [scan_run]. intros [= <- <-].
    split; [by repeat apply ok_put_stats|]. left. split; [done|]. split; [by apply pages_unchanged|].
    intros _ r (H1 & H2 & _). lia. }
  intros H. eapply scan_run_spec in H; try (done || lia).
  - destruct H as [Hok' [(-> & Hps & Hno)|(r & -> & Hfr & Hmin & Hps)]]; (split; [done|]).
    + left. by split_and!.
    + right. exists r. split_and!; try done; apply Hfr || lia.
  - intros r Hr (H1 & _ & _). lia.
  - intros r Hr1 Hr2 (H1 & _ & _). lia.
Qed.

(** *** Sharing and releasing *)

Lemma free_page_cases s pa :
  pmm_ok s -> 0 <= pa ->
  let p := pa / PAGE_SIZE in
  let s' := pmm_free_page s pa in
  pmm_ok s' /\
  ((pa mod PAGE_SIZE <> 0 \/ tracked_page_count s <= p \/ refcount_at s p = 0) /\ s' = s \/
   pa mod PAGE_SIZE = 0 /\ p < tracked_page_count s /\
   (1 < refcount_at s p /\ pages_set s s' p 1 true (refcount_at s p - 1) \/
    refcount_at s p = 1 /\ pages_set s s' p 1 false 0)).
Proof.
  intros Hok Hpa p. cbv zeta. assert (0 <= p) as Hp by (apply Z.div_pos; unfold PAGE_SIZE; lia).
  unfold pmm_free_page. fold p.
  destruct (Z.eqb_spec (pa mod PAGE_SIZE) 0) as [Em|Em]; simpl negb; cbv iota; [|by auto 6].
  rewrite valid_page_spec by (try apply Hok; done).
  destruct (Z.ltb_spec p (tracked_page_count s)) as [Hlt|Hge]; simpl negb; cbv iota; [|by auto 6].
  destruct (Z.eqb_spec (refcount_at s p) 0) as [E0|E0]; [by auto 6|].
  assert (is_u16 (refcount_at s p)) as Hu by (apply refcount_at_u16; [apply Hok|lia]).
  unfold is_u16 in Hu. rewrite u16_small by (unfold is_u16; lia).
  set (c := refcount_at s p - 1). set (s1 := put_refcount s p c).
  assert (0 <= p < Z.of_nat (length (default [] (refcounts s)))) as Hpr
    by (apply page_in_range; [apply Hok|lia]).
  assert (refcount_at s1 p = c) as Hc1 by (unfold s1; rewrite refcount_at_put, Z.eqb_refl by lia; done).
  assert (bit s p = true) as Hb by (apply (ok_ref s Hok); [lia|done]).
  assert (touched s s1 p true c) as Ht.
  { split; [done| |].
    - intros q Hq. change (bit s1 q) with (bit s q). by destruct (Z.eqb_spec q p) as [->|].
    - intros q Hq. unfold s1. by rewrite refcount_at_put by lia. }
  assert (pmm_ok s1) as Hok1.
  { eapply touched_ok; [done| |exact Ht|lia|done|].
    - apply shape_put_refcount; [apply Hok|]. unfold is_u16, c. lia.
    - rewrite Hb. simpl. lia. }
  rewrite Hc1. destruct (Z.eqb_spec c 0) as [Ec|Ec].
  - destruct (set_free_spec s1 p Hok1) as [Hok2 Ht2]; [simpl; lia|].
    apply touched_pages in Ht, Ht2.
    assert (pages_set s (set_free s1 p) p 1 false 0) as Hps.
    { destruct Ht as [Hc Hb1 Hr1], Ht2 as [Hc' Hb2 Hr2]. split.
      - unfold same_config in *. destruct_and!. split_and!; congruence.
      - intros q Hq. rewrite Hb2, Hb1 by (simpl; lia). by destruct (_ && _).
      - intros q Hq. rewrite Hr2, Hr1 by (simpl; lia). by destruct (_ && _). }
    generalize dependent (set_free s1 p). intros s2 Hok2 _ Hps.
    assert (0 <= p <= 2 ^ 53) as Hpb by (destruct Hok as [[] _ _ _]; lia).
    destruct (p <? next_free_page s2).
    + split; [by apply ok_put_next|]. right. split_and!; try done. right.
      split; [unfold c in Ec; lia|]. eapply pages_set_proper; [reflexivity| |exact Hps]. solve_pages.
    + split; [done|]. right. split_and!; try done. right. split; [unfold c in Ec; lia|done].
  - split; [done|]. right. split_and!; try done. left. split; [unfold c in *; lia|].
    by apply touched_pages.
Qed.

Lemma share_page_cases s pa b s' :
  pmm_ok s -> 0 <= pa -> pmm_share_page s pa = (b, s') ->
  let p := pa / PAGE_SIZE in
  pmm_ok s' /\
  (b = false /\ s' = s /\ (pa mod PAGE_SIZE <> 0 \/ tracked_page_count s <= p \/
     refcount_at s p = 0 \/ refcount_at s p = UINT16_MAX) \/
   b = true /\ pa mod PAGE_SIZE = 0 /\ p < tracked_page_count s /\
   0 < refcount_at s p < UINT16_MAX /\ pages_set s s' p 1 true (refcount_at s p + 1)).
Proof.
  intros Hok Hpa. cbv zeta. set (p := pa / PAGE_SIZE).
  assert (0 <= p) as Hp by (apply Z.div_pos; unfold PAGE_SIZE; lia).
  unfold pmm_share_page. fold p.
  destruct (Z.eqb_spec (pa mod PAGE_SIZE) 0) as [Em|Em]; simpl negb; cbv iota;
    [|intros [= <- <-]; by auto 8].
  rewrite valid_page_spec by (try apply Hok; done).
  destruct (Z.ltb_spec p (tracked_page_count s)) as [Hlt|Hge]; simpl negb; cbv iota;
    [|intros [= <- <-]; by auto 8].
  destruct (Z.eqb_spec (refcount_at s p) 0) as [E0|E0]; [intros [= <- <-]; by auto 9|].
  destruct (Z.eqb_spec (refcount_at s p) UINT16_MAX) as [E1|E1]; [intros [= <- <-]; by auto 9|].
  assert (is_u16 (refcount_at s p)) as Hu by (apply refcount_at_u16; [apply Hok|lia]).
  unfold is_u16, UINT16_MAX in *. rewrite u16_small by (unfold is_u16; lia).
  assert (0 <= p < Z.of_nat (length (default [] (refcounts s)))) as Hpr
    by (apply page_in_range; [apply Hok|lia]).
  assert (bit s p = true) as Hb by (apply (ok_ref s Hok); [lia|done]).
  simpl. intros [= <- <-]. set (s1 := put_refcount s p _).
  assert (touched s s1 p true (refcount_at s p + 1)) as Ht.
  { split; [done| |].
    - intros q Hq. change (bit s1 q) with (bit s q). by destruct (Z.eqb_spec q p) as [->|].
    - intros q Hq. unfold s1. by rewrite refcount_at_put by lia. }
  split.
  - eapply touched_ok; [done| |exact Ht|lia|done|].
    + apply shape_put_refcount; [apply Hok|]. unfold is_u16. lia.
    + rewrite Hb. simpl. lia.
  - right. split_and!; try (done || lia). by apply touched_pages.
Qed.

End Pmm.
