(* ===== verification/PmmSpec.v ===== *)
(** The contract of the physical page allocator and the proof that
    [kernel/src/mm/pmm.c] meets it.

    The abstract allocator is a finite set of available pages and a finite map
    from owned pages to their reference counts; [astep] says what each call may
    do to it. [abs] reads an abstract state off a concrete one, and every run of
    the concrete operations from [pmm_init] is a run of the abstract one. *)

From stdpp Require Import base numbers list list_numbers option gmap fin_maps.
From Stdlib Require Import ZArith Lia.
From S2P Require Import Prelude Mem Pmm.
Import Pmm.

Record astate := mk_astate { avail : gset Z; refs : gmap Z Z }.

Inductive call :=
| CallAlloc
| CallAllocRun (count : Z)
| CallShare (pa : Z)
| CallFree (pa : Z).

(** The pages of [r, r + n) become available iff [av] and get count [c]. *)
Definition reassign (a a' : astate) (r n : Z) (av : bool) (c : option Z) : Prop :=
  forall q,
    if decide (r <= q < r + n)
    then (q ∈ avail a' <-> av = true) /\ refs a' !! q = c
    else (q ∈ avail a' <-> q ∈ avail a) /\ refs a' !! q = refs a !! q.

Inductive astep : astate -> call -> Z -> astate -> Prop :=
| astep_alloc a a' p :
    256 <= p -> p ∈ avail a -> reassign a a' p 1 false (Some 1) ->
    astep a CallAlloc (p * PAGE_SIZE) a'
| astep_alloc_none a :
    (forall p, p ∈ avail a -> p < 256) -> astep a CallAlloc 0 a
| astep_run a a' r count :
    256 <= r -> 0 < count -> (forall p, r <= p < r + count -> p ∈ avail a) ->
    reassign a a' r count false (Some 1) ->
    astep a (CallAllocRun count) (r * PAGE_SIZE) a'
| astep_run_none a count :
    (0 < count -> forall r, 256 <= r -> exists p, r <= p < r + count /\ p ∉ avail a) ->
    astep a (CallAllocRun count) 0 a
| astep_share a a' p c :
    refs a !! p = Some c -> c < UINT16_MAX -> reassign a a' p 1 false (Some (c + 1)) ->
    astep a (CallShare (p * PAGE_SIZE)) 1 a'
| astep_share_no a pa :
    (forall p c, pa = p * PAGE_SIZE -> refs a !! p = Some c -> c = UINT16_MAX) ->
    astep a (CallShare pa) 0 a
| astep_free a a' p c :
    refs a !! p = Some c -> 1 < c -> reassign a a' p 1 false (Some (c - 1)) ->
    astep a (CallFree (p * PAGE_SIZE)) 0 a'
| astep_free_last a a' p :
    refs a !! p = Some 1 -> reassign a a' p 1 true None ->
    astep a (CallFree (p * PAGE_SIZE)) 0 a'
| astep_free_no a pa :
    (forall p, pa = p * PAGE_SIZE -> refs a !! p = None) -> astep a (CallFree pa) 0 a.

(** A run of the abstract allocator, with the calls and their results. *)
Inductive asteps : astate -> list (call * Z) -> astate -> Prop :=
| asteps_nil a : asteps a [] a
| asteps_cons a a' a'' c r tr : astep a c r a' -> asteps a' tr a'' -> asteps a ((c, r) :: tr) a''.

(** The concrete calls; the Boolean of [pmm_share_page] is 0 or 1. *)
Definition pmm_call (s : pmm) (c : call) : Z * pmm :=
  match c with
  | CallAlloc => pmm_alloc_page s
  | CallAllocRun count => pmm_alloc_contiguous_pages s count
  | CallShare pa => let '(b, s') := pmm_share_page s pa in (Z.b2z b, s')
  | CallFree pa => (0, pmm_free_page s pa)
  end.

Fixpoint pmm_run (s : pmm) (cs : list call) : list (call * Z) * pmm :=
  match cs with
  | [] => ([], s)
  | c :: cs' =>
      let '(r, s1) := pmm_call s c in
      let '(tr, s2) := pmm_run s1 cs' in
      ((c, r) :: tr, s2)
  end.

(** Arguments are [uint64_t]. *)
Definition call_ok (c : call) : Prop :=
  match c with
  | CallAlloc => True
  | CallAllocRun count => 0 <= count
  | CallShare pa | CallFree pa => 0 <= pa
  end.

Definition pages (s : pmm) : list Z := seqZ 0 (tracked_page_count s).

Definition abs (s : pmm) : astate :=
  mk_astate (list_to_set (filter (fun p => bit s p = false) (pages s)))
            (list_to_map ((fun p => (p, refcount_at s p)) <$>
                            filter (fun p => refcount_at s p <> 0) (pages s))).

(** Available pages carry no references and counts fit their type. *)
Definition astate_ok (a : astate) : Prop :=
  (forall p, p ∈ avail a -> refs a !! p = None) /\
  (forall p c, refs a !! p = Some c -> 0 < c <= UINT16_MAX).

(** *** Lemmas *)

Lemma abs_avail s p : p ∈ avail (abs s) <-> 0 <= p < tracked_page_count s /\ bit s p = false.
Proof.
  unfold abs, pages. simpl. rewrite elem_of_list_to_set, list_elem_of_filter, elem_of_seqZ.
  rewrite Z.add_0_l. tauto.
Qed.

Lemma abs_refs s p c :
  refs (abs s) !! p = Some c <->
  0 <= p < tracked_page_count s /\ refcount_at s p = c /\ c <> 0.
Proof.
  unfold abs, pages. simpl. rewrite <- elem_of_list_to_map.
  - rewrite list_elem_of_fmap. setoid_rewrite list_elem_of_filter. setoid_rewrite elem_of_seqZ.
    setoid_rewrite Z.add_0_l. split.
    + intros (q & [= <- ->] & Hq & Hr). done.
    + intros (Hp & <- & Hc). by exists p.
  - rewrite <- list_fmap_compose. apply NoDup_fmap; [by intros ? ?|].
    apply NoDup_filter, NoDup_seqZ.
Qed.

Lemma abs_refs_None s p :
  refs (abs s) !! p = None <-> (0 <= p < tracked_page_count s -> refcount_at s p = 0).
Proof.
  split.
  - intros H Hp. destruct (Z.eq_dec (refcount_at s p) 0) as [|Hne]; [done|].
    by rewrite (proj2 (abs_refs s p (refcount_at s p))) in H.
  - intros H. destruct (refs (abs s) !! p) as [c|] eqn:E; [|done].
    apply abs_refs in E as (Hp & <- & Hc). by destruct (Hc (H Hp)).
Qed.

Lemma abs_refs_eq s s' q :
  tracked_page_count s' = tracked_page_count s ->
  (0 <= q < tracked_page_count s -> refcount_at s' q = refcount_at s q) ->
  refs (abs s') !! q = refs (abs s) !! q.
Proof.
  intros Ht Hq. destruct (refs (abs s) !! q) as [c|] eqn:E.
  - apply abs_refs in E as (Hp & <- & Hc). apply abs_refs. rewrite Ht, Hq by done. done.
  - apply abs_refs_None. rewrite Ht. intros Hp. rewrite Hq by done. by eapply abs_refs_None.
Qed.

(** A concrete update of a run of pages is an abstract one. *)
Lemma abs_reassign s s' r n b c :
  0 <= r -> r + n <= tracked_page_count s -> pages_set s s' r n b c ->
  reassign (abs s) (abs s') r n (negb b) (if c =? 0 then None else Some c).
Proof.
  intros Hr Hn [(_ & Ht & _) Hb Hc] q. destruct (decide (r <= q < r + n)) as [Hq|Hq].
  - specialize (Hb q ltac:(lia)). specialize (Hc q ltac:(lia)).
    replace ((r <=? q) && (q <? r + n)) with true in Hb, Hc by (zcases; simpl; lia). split.
    + rewrite abs_avail, Ht, Hb. destruct b; simpl; (split; [by intros [_ ?]|intros _; split; [lia|done]]) || (split; [by intros [_ ?]|done]).
    + destruct (Z.eqb_spec c 0) as [->|Hne].
      * apply abs_refs_None. done.
      * apply abs_refs. rewrite Ht, Hc. split; [lia|done].
  - assert ((r <=? q) && (q <? r + n) = false) as E by (zcases; simpl; lia).
    split.
    + rewrite !abs_avail, Ht. split; intros [Hp Hq']; (split; [done|]); specialize (Hb q Hp);
        rewrite E in Hb; congruence.
    + apply abs_refs_eq; [done|]. intros Hp. specialize (Hc q Hp). by rewrite E in Hc.
Qed.

Lemma abs_unchanged s s' :
  pages_set s s' 0 0 false 0 -> abs s' = abs s.
Proof.
  intros [(_ & Ht & _) Hb Hc]. assert (forall q, (0 <=? q) && (q <? 0 + 0) = false) as E
    by (intros q; zcases; simpl; lia).
  destruct (abs s') as [av' rf'] eqn:E1, (abs s) as [av rf] eqn:E2.
  assert (av' = avail (abs s')) as -> by by rewrite E1.
  assert (av = avail (abs s)) as -> by by rewrite E2.
  assert (rf' = refs (abs s')) as -> by by rewrite E1.
  assert (rf = refs (abs s)) as -> by by rewrite E2. f_equal.
  - apply set_eq. intros q. rewrite !abs_avail, Ht.
    split; intros [Hp Hq]; (split; [done|]); specialize (Hb q Hp); rewrite E in Hb; congruence.
  - apply map_eq. intros q. apply abs_refs_eq; [done|]. intros Hp. specialize (Hc q Hp). by rewrite E in Hc.
Qed.

Lemma abs_ok s : pmm_ok s -> astate_ok (abs s).
Proof.
  intros Hok. split.
  - intros p Hp. apply abs_avail in Hp as [Hp Hb]. apply abs_refs_None. intros _.
    destruct (Z.eq_dec (refcount_at s p) 0) as [|Hne]; [done|].
    by rewrite (ok_ref s Hok) in Hb.
  - intros p c Hc. apply abs_refs in Hc as (Hp & <- & Hc).
    pose proof (refcount_at_u16 s p (ok_shape s Hok) Hp) as Hu. unfold is_u16, UINT16_MAX in *. lia.
Qed.

Lemma page_addr pa : pa mod PAGE_SIZE = 0 -> pa = pa / PAGE_SIZE * PAGE_SIZE.
Proof. unfold PAGE_SIZE. intros. dmlia. Qed.

Lemma page_addr_inv p : p * PAGE_SIZE / PAGE_SIZE = p /\ (p * PAGE_SIZE) mod PAGE_SIZE = 0.
Proof. unfold PAGE_SIZE. split; [apply Z.div_mul; lia|apply Z.mod_mul; lia]. Qed.

Lemma free_step s pa :
  pmm_ok s -> 0 <= pa -> astep (abs s) (CallFree pa) 0 (abs (pmm_free_page s pa)).
Proof.
  intros Hok Hpa. assert (0 <= pa / PAGE_SIZE) as Hp by (apply Z.div_pos; unfold PAGE_SIZE; lia).
  destruct (free_page_cases s pa Hok Hpa) as [_ [[Hno ->]|(Hm & Hlt & [[Hc Hps]|[Hc Hps]])]].
  - apply astep_free_no. intros p ->. destruct (page_addr_inv p) as [Hd Hm].
    rewrite Hd in *. apply abs_refs_None. intros Hp'. destruct Hno as [?|[?|?]]; [done|lia|done].
  - rewrite (page_addr pa Hm) at 1. eapply astep_free; [apply abs_refs|..].
    + split; [lia|]. split; [done|lia].
    + lia.
    + apply abs_reassign in Hps; [|lia|lia]. by replace (_ =? 0) with false in Hps by lia.
  - rewrite (page_addr pa Hm) at 1. eapply astep_free_last; [apply abs_refs|..].
    + split; [lia|]. split; [done|lia].
    + by apply abs_reassign in Hps; [|lia|lia].
Qed.

Lemma share_step s pa b s' :
  pmm_ok s -> 0 <= pa -> pmm_share_page s pa = (b, s') ->
  astep (abs s) (CallShare pa) (Z.b2z b) (abs s').
Proof.
  intros Hok Hpa E. assert (0 <= pa / PAGE_SIZE) as Hp by (apply Z.div_pos; unfold PAGE_SIZE; lia).
  destruct (share_page_cases s pa b s' Hok Hpa E) as [_ [(-> & -> & Hno)|(-> & Hm & Hlt & Hc & Hps)]].
  - apply astep_share_no. intros p c -> Hr. destruct (page_addr_inv p) as [Hd Hm].
    rewrite Hd in *. apply abs_refs in Hr as (Hp' & <- & Hne). destruct Hno as [?|[?|[?|?]]]; done || lia.
  - rewrite (page_addr pa Hm) at 1. eapply astep_share; [apply abs_refs|..].
    + split; [lia|]. split; [done|lia].
    + lia.
    + apply abs_reassign in Hps; [|lia|lia]. by replace (_ =? 0) with false in Hps by lia.
Qed.

Lemma full_avail s :
  (forall p, 256 <= p < tracked_page_count s -> bit s p = true) ->
  forall p, p ∈ avail (abs s) -> p < 256.
Proof.
  intros Hfull p Hp. apply abs_avail in Hp as [Hp Hb].
  apply Z.nle_gt. intros Hle. rewrite Hfull in Hb by lia. done.
Qed.

Lemma call_step s c r s' :
  pmm_ok s -> call_ok c -> pmm_call s c = (r, s') ->
  pmm_ok s' /\ astep (abs s) c r (abs s').
Proof.
  intros Hok Hc E. destruct c as [|count|pa|pa]; simpl in E, Hc.
  - destruct (alloc_page_cases s r s' Hok E) as [Hok' [(-> & Hps & Hfull)|(p & -> & Hp & Hb & _ & Hps)]];
      (split; [done|]).
    + rewrite (abs_unchanged s s' Hps). apply astep_alloc_none. by apply full_avail.
    + apply astep_alloc; [lia|by apply abs_avail; split; [lia|]|].
      by apply abs_reassign in Hps; [|lia|lia].
  - destruct (alloc_contiguous_cases s count r s' Hok Hc E)
      as [Hok' [(-> & Hps & Hno)|(p & -> & (Hp & Hl & Hf) & Hc0 & _ & Hps)]]; (split; [done|]).
    + rewrite (abs_unchanged s s' Hps). apply astep_run_none. intros Hc0 r Hr.
      destruct (decide (Exists (fun p => p ∉ avail (abs s)) (seqZ r count))) as [He|Hne].
      * apply Exists_exists in He as (p & Hp & Hna). exists p. by apply elem_of_seqZ in Hp.
      * exfalso. rewrite <- Forall_Exists_neg in Hne. rewrite Forall_forall in Hne.
        assert (forall p, r <= p < r + count -> p ∈ avail (abs s)) as Hall.
        { intros p Hp. destruct (decide (p ∈ avail (abs s))) as [|Hn]; [done|].
          exfalso. apply (Hne p); [by apply elem_of_seqZ|done]. }
        apply (Hno Hc0 r). split_and!; [done| |].
        -- specialize (Hall (r + count - 1) ltac:(lia)). apply abs_avail in Hall as [? _]. lia.
        -- intros p Hp. by apply Hall, abs_avail in Hp as [_ ?].
    + apply astep_run; [done|done| |by apply abs_reassign in Hps; [|lia|lia]].
      intros p' Hp'. apply abs_avail. split; [lia|by apply Hf].
  - destruct (pmm_share_page s pa) as [b s1] eqn:E1. simplify_eq.
    split; [by apply (share_page_cases s pa b s')|by apply share_step].
  - simplify_eq. split; [by apply free_page_cases|by apply free_step].
Qed.

Lemma run_steps s cs tr s' :
  pmm_ok s -> Forall call_ok cs -> pmm_run s cs = (tr, s') ->
  pmm_ok s' /\ asteps (abs s) tr (abs s').
Proof.
  revert s tr. induction cs as [|c cs IH]; intros s tr Hok Hcs; simpl.
  - intros [= <- <-]. split; [done|constructor].
  - apply Forall_cons in Hcs as [Hc Hcs].
    destruct (pmm_call s c) as [r s1] eqn:E1, (pmm_run s1 cs) as [tr2 s2] eqn:E2.
    intros [= <- <-]. destruct (call_step s c r s1 Hok Hc E1) as [Hok1 Hs1].
    destruct (IH s1 tr2 Hok1 Hcs E2) as [Hok2 Hs2]. split; [done|]. by econstructor.
Qed.

Lemma free_count_drop s s' p :
  pmm_ok s -> pmm_ok s' -> 0 <= p < tracked_page_count s -> bit s p = false ->
  pages_set s s' p 1 true 1 -> pmm_free_pages s' = pmm_free_pages s - 1.
Proof.
  intros [_ Hf _ _] [_ Hf' _ _] Hp Hb [(_ & Ht & _) Hbit _]. unfold pmm_free_pages.
  rewrite Hf, Hf', Ht.
  rewrite (countb_switch (fun q => negb (bit s' q)) (fun q => negb (bit s q)) _ p); [lia|lia| | |].
  - rewrite Hbit by done. by rewrite one_page, Z.eqb_refl.
  - by rewrite Hb.
  - intros q Hq Hne. rewrite Hbit by lia. rewrite one_page. by replace (q =? p) with false by lia.
Qed.

(** A machine with 639 KiB below 1 MiB and 40 pages above it: one page holds the
    metadata, 39 are available. *)
Definition sample_memmap : list spore_memmap_entry :=
  [mk_entry 0 0x9fc00 1; mk_entry 0x100000 (40 * 4096) 1].

Definition sample : pmm := pmm_init 0xffff000000000000 sample_memmap.

Definition sample_calls : list call :=
  [CallAlloc; CallShare 0x101000; CallFree 0x101000; CallAllocRun 38; CallAllocRun 1;
   CallFree 0x101000; CallFree 0x101000; CallAlloc].

Lemma sample_ok : pmm_ok sample.
Proof. apply pmm_init_spec. Qed.

(** *** Properties *)

(** [pmm_init] establishes the allocator invariant for every memory map, and
    when it finds room for its metadata the pages it leaves available are
    exactly the whole pages of usable regions at or above 1 MiB that do not hold
    the metadata; the metadata itself lies in usable memory above 1 MiB. *)
Theorem pmm_init_correct (hhdm_offset : Z) (memmap : list spore_memmap_entry) :
  let s := pmm_init hhdm_offset memmap in
  pmm_ok s /\
  (tracked_page_count s = 0 \/
   (forall p, available s p = usable_page memmap p && (256 <=? p) && negb (is_metadata s p)) /\
   (forall p, is_metadata s p = true -> 256 <= p /\ usable_page memmap p = true)).
Proof.
  destruct (pmm_init_spec hhdm_offset memmap) as [Hok H]. split; [done|].
  destruct (Z.eq_dec (tracked_page_count (pmm_init hhdm_offset memmap)) 0); [by left|right; auto].
Qed.

(** a page returned by [pmm_alloc_page] was available and unreferenced, lies
    at or above 1 MiB, now has reference count one, and exactly one fewer page is
    free; no other page changes. The call returns 0 only when every page at or
    above 1 MiB is in use, and then changes no page. *)
Theorem pmm_alloc_page_correct (s s' : pmm) (pa : Z) :
  pmm_ok s -> pmm_alloc_page s = (pa, s') ->
  pmm_ok s' /\
  ((pa = 0 /\ abs s' = abs s /\ (forall p, p ∈ avail (abs s) -> p < 256)) \/
   (exists p, pa = p * PAGE_SIZE /\ 256 <= p /\ p ∈ avail (abs s) /\ refs (abs s) !! p = None /\
      reassign (abs s) (abs s') p 1 false (Some 1) /\
      pmm_free_pages s' = pmm_free_pages s - 1)).
Proof.
  intros Hok E. destruct (alloc_page_cases s pa s' Hok E)
    as [Hok' [(-> & Hps & Hfull)|(p & -> & Hp & Hb & Hr & Hps)]]; (split; [done|]).
  - left. split_and!; [done|by apply abs_unchanged|by apply full_avail].
  - right. exists p. assert (p ∈ avail (abs s)) by (apply abs_avail; split; [lia|done]).
    split_and!; [done|lia|done|by apply abs_ok| |by eapply free_count_drop; [..|exact Hps]; try lia].
    by apply abs_reassign in Hps; [|lia|lia].
Qed.

Lemma pmm_alloc_page_correct_witness :
  pmm_ok (pmm_alloc_page sample).2 /\ (pmm_alloc_page sample).1 = 0x101000.
Proof.
  split; [|by vm_compute].
  by apply (pmm_alloc_page_correct sample (pmm_alloc_page sample).2 (pmm_alloc_page sample).1
              sample_ok (surjective_pairing _)).
Defined.

(** [pmm_alloc_contiguous_pages] returns the lowest run of [count] available
    pages at or above 1 MiB and takes exactly that run, each page with reference
    count one; it fails only for a zero count or when no such run exists. *)
Theorem pmm_alloc_contiguous_correct (s s' : pmm) (count pa : Z) :
  pmm_ok s -> 0 <= count -> pmm_alloc_contiguous_pages s count = (pa, s') ->
  pmm_ok s' /\
  ((pa = 0 /\ abs s' = abs s /\ (0 < count -> forall r, ~ free_run s r count)) \/
   (exists r, pa = r * PAGE_SIZE /\ free_run s r count /\
      (forall r', free_run s r' count -> r <= r') /\ 0 < count /\
      reassign (abs s) (abs s') r count false (Some 1))).
Proof.
  intros Hok Hc E. destruct (alloc_contiguous_cases s count pa s' Hok Hc E)
    as [Hok' [(-> & Hps & Hno)|(r & -> & Hrun & Hc0 & Hfirst & Hps)]]; (split; [done|]).
  - left. split; [done|]. split; [by apply abs_unchanged|done].
  - right. exists r. split_and!; [done|done| |done|destruct Hrun as (? & ? & _)].
    { intros r' Hr'. apply Z.nlt_ge. intros Hlt. by apply (Hfirst r'). }
   
    by apply abs_reassign in Hps; [|lia|lia].
Qed.

Lemma pmm_alloc_contiguous_correct_witness :
  let r := pmm_alloc_contiguous_pages sample 3 in pmm_ok r.2 /\ r.1 = 0x101000.
Proof.
  intros r. split; [|by vm_compute].
  by apply (pmm_alloc_contiguous_correct sample r.2 3 r.1 sample_ok ltac:(lia)
              (surjective_pairing _)).
Defined.

(** C1: refinement. Every sequence of allocations, shares and frees started from
    [pmm_init] is a run of the abstract allocator: the results are those the
    contract allows, so no page is handed out while it is referenced, and the
    invariant holds throughout. *)
Theorem pmm_refines (hhdm_offset : Z) (memmap : list spore_memmap_entry) (cs : list call)
    (tr : list (call * Z)) (s' : pmm) :
  Forall call_ok cs -> pmm_run (pmm_init hhdm_offset memmap) cs = (tr, s') ->
  asteps (abs (pmm_init hhdm_offset memmap)) tr (abs s') /\ pmm_ok s' /\ astate_ok (abs s').
Proof.
  intros Hcs E. destruct (pmm_init_spec hhdm_offset memmap) as [Hok _].
  destruct (run_steps _ cs tr s' Hok Hcs E). auto using abs_ok.
Qed.

Lemma pmm_refines_witness :
  let r := pmm_run (pmm_init 0xffff000000000000 sample_memmap) sample_calls in
  asteps (abs (pmm_init 0xffff000000000000 sample_memmap)) r.1 (abs r.2) /\
  r.1.*2 = [0x101000; 1; 0; 0x102000; 0; 0; 0; 0x101000].
Proof.
  intros r. split; [|by vm_compute].
  assert (Forall call_ok sample_calls) as Hcs.
  { repeat (apply Forall_cons; split; [simpl; lia || done|]). done. }
  exact (proj1 (pmm_refines 0xffff000000000000 sample_memmap sample_calls r.1 r.2 Hcs
                  (surjective_pairing r))).
Defined.
