(* ===== verification/Iface.v ===== *)
(** Interfaces between kernel components.

    A component that allocates pages or takes references on VFS nodes is written
    and verified against the classes of this file: [PageSource] is the page
    allocator seen by its clients ([kernel/src/include/mm/pmm.h]), [VfsRefs] the
    node references of [kernel/src/include/vfs.h]; [PageLaws] and [VfsLaws] say
    what a client may rely on. The allocator of [Pmm] discharges [PageLaws]. *)

From stdpp Require Import base numbers list list_numbers option gmap fin_maps.
From Stdlib Require Import ZArith Lia.
From S2P Require Import Prelude Mem Pmm PmmSpec.
Import Pmm.

(** ** VFS nodes *)

Inductive vfs_backend := VFS_NONE | VFS_RAMFS | VFS_EXT2 | VFS_PROC.

#[export] Instance vfs_backend_eq_dec : EqDecision vfs_backend.
Proof. solve_decision. Defined.

Definition RAMFS_DEV_NONE : Z := 0.

(** [struct vfs_node], without the timestamps, the ownership and the fields of
    the backends other than the index into the ram file system. *)
Record vfs_node := mk_vfs_node {
  backend : vfs_backend;
  ino : Z;
  is_dir : bool;
  writable : bool;
  device : Z;
  mode : Z;
  dev_id : Z;
  node_size : Z;
  ramfs_index : Z;
}.

#[export] Instance vfs_node_eq_dec : EqDecision vfs_node.
Proof. solve_decision. Defined.

Definition zero_node : vfs_node := mk_vfs_node VFS_NONE 0 false false RAMFS_DEV_NONE 0 0 0 0.

(** What identifies the file behind a node. *)
Definition node_key (n : vfs_node) : vfs_backend * Z * Z := (backend n, ino n, dev_id n).

(** ** Pages *)

Class PageSource (W : Type) := {
  alloc_zero_page : W -> Z * W;
  free_page : Z -> W -> W;
}.

(** [page_owned w pa]: the page at [pa] is allocated and has one reference. *)
Class PageLaws (W : Type) `{PageSource W} := {
  page_ok : W -> Prop;
  page_owned : W -> Z -> Prop;
  alloc_law : forall w pa w',
    page_ok w -> alloc_zero_page w = (pa, w') ->
    page_ok w' /\
    ((pa = 0 /\ forall q, page_owned w' q <-> page_owned w q) \/
     (pa <> 0 /\ ~ page_owned w pa /\ forall q, page_owned w' q <-> q = pa \/ page_owned w q));
  free_law : forall w pa,
    page_ok w -> page_owned w pa ->
    page_ok (free_page pa w) /\
    forall q, page_owned (free_page pa w) q <-> q <> pa /\ page_owned w q;
}.

(** ** Node references *)

Class VfsRefs (W : Type) := {
  retain_node : vfs_node -> W -> W;
  release_node : vfs_node -> W -> W;
  note_shared_writable_mapping : vfs_node -> bool -> W -> W;
}.

(** The counters a reference moves, and that the two interfaces are independent. *)
Class VfsLaws (W : Type) `{PageLaws W} `{VfsRefs W} := {
  node_refs : W -> vfs_backend * Z * Z -> Z;
  node_writers : W -> vfs_backend * Z * Z -> Z;
  refs_law : forall w n k,
    node_refs (retain_node n w) k = node_refs w k + (if decide (node_key n = k) then 1 else 0) /\
    node_refs (release_node n w) k = node_refs w k - (if decide (node_key n = k) then 1 else 0) /\
    forall b, node_refs (note_shared_writable_mapping n b w) k = node_refs w k;
  writers_law : forall w n k,
    node_writers (retain_node n w) k = node_writers w k /\
    node_writers (release_node n w) k = node_writers w k /\
    node_writers (note_shared_writable_mapping n true w) k =
      node_writers w k + (if decide (node_key n = k) then 1 else 0) /\
    node_writers (note_shared_writable_mapping n false w) k =
      node_writers w k - (if decide (node_key n = k) then 1 else 0);
  pages_keep_refs : forall w pa k,
    node_refs (alloc_zero_page w).2 k = node_refs w k /\
    node_refs (free_page pa w) k = node_refs w k /\
    node_writers (alloc_zero_page w).2 k = node_writers w k /\
    node_writers (free_page pa w) k = node_writers w k;
  refs_keep_pages : forall w n,
    page_ok w ->
    (page_ok (retain_node n w) /\ forall q, page_owned (retain_node n w) q <-> page_owned w q) /\
    (page_ok (release_node n w) /\ forall q, page_owned (release_node n w) q <-> page_owned w q) /\
    forall b, page_ok (note_shared_writable_mapping n b w) /\
              forall q, page_owned (note_shared_writable_mapping n b w) q <-> page_owned w q;
}.

(** ** The kernel's page allocator as a [PageSource] *)

(** The kernel as seen by a client of the two interfaces: the allocator, the
    direct-mapped memory, and the calls made to the VFS so far. *)
Inductive vfs_call :=
| CallRetain (n : vfs_node)
| CallRelease (n : vfs_node)
| CallNote (n : vfs_node) (add : bool).

Record kernel := mk_kernel {
  k_pmm : pmm;
  k_mem : Mem.kmem;
  k_vfs : list vfs_call;
}.

#[export] Instance kernel_pages : PageSource kernel := {|
  alloc_zero_page w :=
    let '(pa, s, m) := pmm_alloc_zero_page (k_pmm w) (k_mem w) in (pa, mk_kernel s m (k_vfs w));
  free_page pa w := mk_kernel (pmm_free_page (k_pmm w) pa) (k_mem w) (k_vfs w);
|}.

#[export] Instance kernel_vfs : VfsRefs kernel := {|
  retain_node n w := mk_kernel (k_pmm w) (k_mem w) (CallRetain n :: k_vfs w);
  release_node n w := mk_kernel (k_pmm w) (k_mem w) (CallRelease n :: k_vfs w);
  note_shared_writable_mapping n b w := mk_kernel (k_pmm w) (k_mem w) (CallNote n b :: k_vfs w);
|}.

Definition owned (s : pmm) (pa : Z) : Prop :=
  0 <= pa /\ pa mod PAGE_SIZE = 0 /\ refs (abs s) !! (pa / PAGE_SIZE) = Some 1.

(** References taken minus references dropped on the file [k]. *)
Fixpoint net_refs (l : list vfs_call) (k : vfs_backend * Z * Z) : Z :=
  match l with
  | [] => 0
  | CallRetain n :: l' => net_refs l' k + (if decide (node_key n = k) then 1 else 0)
  | CallRelease n :: l' => net_refs l' k - (if decide (node_key n = k) then 1 else 0)
  | CallNote _ _ :: l' => net_refs l' k
  end.

Fixpoint net_writers (l : list vfs_call) (k : vfs_backend * Z * Z) : Z :=
  match l with
  | [] => 0
  | CallNote n true :: l' => net_writers l' k + (if decide (node_key n = k) then 1 else 0)
  | CallNote n false :: l' => net_writers l' k - (if decide (node_key n = k) then 1 else 0)
  | _ :: l' => net_writers l' k
  end.

(** *** Lemmas *)

Lemma owned_reassign s s' p c q :
  reassign (abs s) (abs s') p 1 false (Some c) \/ reassign (abs s) (abs s') p 1 true None ->
  q <> p * PAGE_SIZE -> owned s' q <-> owned s q.
Proof.
  intros Hr Hq. unfold owned.
  assert (q mod PAGE_SIZE = 0 -> q / PAGE_SIZE <> p) as Hne.
  { intros Hm ->%eq_sym. apply Hq. by apply page_addr. }
  split; intros (H1 & H2 & H3); (split_and!; [done|done|]);
    destruct Hr as [Hr|Hr]; specialize (Hr (q / PAGE_SIZE));
    rewrite decide_False in Hr by (specialize (Hne H2); lia); destruct Hr as [_ Hr]; congruence.
Qed.

Lemma zero_page_cases s m pa s' m' :
  pmm_ok s -> pmm_alloc_zero_page s m = (pa, s', m') -> pmm_alloc_page s = (pa, s').
Proof.
  unfold pmm_alloc_zero_page. destruct (pmm_alloc_page s) as [pa1 s1]. intros _.
  generalize (Mem.kmemset m (u64 (hhdm_base s1 + pa1)) 0 PAGE_SIZE). intros m1.
  by destruct (negb (pa1 =? 0)); intros [= <- <- <-].
Qed.

Lemma kernel_alloc_law s m pa s' m' :
  pmm_ok s -> pmm_alloc_zero_page s m = (pa, s', m') ->
  pmm_ok s' /\
  ((pa = 0 /\ forall q, owned s' q <-> owned s q) \/
   (pa <> 0 /\ ~ owned s pa /\ forall q, owned s' q <-> q = pa \/ owned s q)).
Proof.
  intros Hok E. apply zero_page_cases in E; [|done].
  destruct (alloc_page_cases s pa s' Hok E) as [Hok' [(-> & Hps & _)|(p & -> & Hp & Hb & Hr & Hps)]];
    (split; [done|]).
  - left. split; [done|]. intros q. unfold owned. by rewrite (abs_unchanged s s' Hps).
  - right. pose proof Hps as Hre. apply abs_reassign in Hre; [|lia|lia].
    destruct (page_addr_inv p) as [Hd Hm].
    split; [unfold PAGE_SIZE in *; lia|]. split.
    + intros (_ & _ & H). rewrite Hd in H. apply abs_refs in H as (_ & H & _). lia.
    + intros q. destruct (Z.eq_dec q (p * PAGE_SIZE)) as [->|Hne].
      * split; [by left|]. intros _. unfold owned. rewrite Hd. split; [unfold PAGE_SIZE; lia|].
        split; [done|]. specialize (Hre p). rewrite decide_True in Hre by lia. by destruct Hre.
      * rewrite (owned_reassign s s' p 1 q); [tauto|by left|done].
Qed.

Lemma kernel_free_law s pa :
  pmm_ok s -> owned s pa ->
  pmm_ok (pmm_free_page s pa) /\
  forall q, owned (pmm_free_page s pa) q <-> q <> pa /\ owned s q.
Proof.
  intros Hok (Hpa & Hm & Hr). apply abs_refs in Hr as (Hp & Hr & _).
  destruct (free_page_cases s pa Hok Hpa) as [Hok' [[Hno _]|(_ & Hlt & [[Hc _]|[Hc Hps]])]];
    [destruct Hno as [?|[?|?]]; done || lia|lia|].
  split; [done|]. apply abs_reassign in Hps; [|lia|lia].
  intros q. destruct (Z.eq_dec q pa) as [->|Hne].
  - split; [|tauto]. intros (_ & _ & H). specialize (Hps (pa / PAGE_SIZE)).
    rewrite decide_True in Hps by lia. destruct Hps as [_ Hps]. rewrite Hps in H. done.
  - rewrite (owned_reassign s _ (pa / PAGE_SIZE) 1 q); [tauto|by right|].
    by rewrite <- page_addr.
Qed.

#[export, refine] Instance kernel_page_laws : PageLaws kernel := {|
  page_ok w := pmm_ok (k_pmm w);
  page_owned w := owned (k_pmm w);
|}.
Proof.
  - intros [s m l] pa w' Hok. cbn -[pmm_alloc_zero_page] in *.
    destruct (pmm_alloc_zero_page s m) as [[pa1 s1] m1] eqn:E. intros [= <- <-].
    by eapply kernel_alloc_law.
  - intros [s m l] pa Hok Ho. by apply kernel_free_law.
Defined.

#[export, refine] Instance kernel_vfs_laws : VfsLaws kernel := {|
  node_refs w := net_refs (k_vfs w);
  node_writers w := net_writers (k_vfs w);
|}.
Proof.
  - done.
  - done.
  - intros [s m l] pa k. cbn -[pmm_alloc_zero_page]. by destruct (pmm_alloc_zero_page s m) as [[? ?] ?].
  - done.
Defined.
