(* ===== verification/Vma.v ===== *)
(** Virtual memory areas ([kernel/src/mm/vma.c]): the per-process list of mapped
    ranges behind [mmap], [munmap], [mprotect], [brk], [fork] and stack growth.

    A [vma_list] is an array of page-sized chunks of [struct vma]; a [struct vma]
    pointer into it is the index that [vma_at] resolves. A fresh chunk is a zeroed
    page, hence an array of zeroed entries. The operations take the kernel [W] they
    call into (the page allocator and the VFS) through [PageSource] and [VfsRefs].
    A loop of the source that is not bounded by its counter ([alloc_slot],
    [merge_adjacent]) runs on fuel; every operation is shown to return. *)

From stdpp Require Import base numbers list list_numbers option gmap fin_maps.
From Stdlib Require Import ZArith Lia.
From S2P Require Import Prelude Mem Pmm PmmSpec Iface.

Module Vma.

Definition VMA_MAX_CHUNKS : nat := 64.
Definition VMA_CHUNK_BYTES : N := 4096.

(** [sizeof(struct vma)] under the AArch64 ABI: 40 bytes of header, 312 bytes of
    [struct vfs_node] and three 64-bit file fields. *)
Definition sizeof_vma : N := 376.
Definition VMAS_PER_CHUNK : nat := N.to_nat (VMA_CHUNK_BYTES / sizeof_vma).
#[global] Arguments VMAS_PER_CHUNK : simpl never.
#[global] Arguments VMA_MAX_CHUNKS : simpl never.

Definition MAP_SHARED : Z := 0x01.
Definition VMM_USER_WRITE : Z := 2.
Definition PAGE_SIZE : Z := 4096.
Definition MAX_GROWDOWN_PAGES : Z := 2048.

Inductive vma_type := VMA_ANON | VMA_STACK | VMA_FILE.

#[export] Instance vma_type_eq_dec : EqDecision vma_type.
Proof. solve_decision. Defined.

Record vma := mk_vma {
  used : bool;
  start : Z;
  end_ : Z;
  prot : Z;
  flags : Z;
  type : vma_type;
  file_node : vfs_node;
  file_start : Z;
  file_offset : Z;
  file_size : Z;
}.

Definition zero_vma : vma := mk_vma false 0 0 0 0 VMA_ANON zero_node 0 0 0.

Definition set_vma_used (v : vma) (b : bool) : vma :=
  mk_vma b (start v) (end_ v) (prot v) (flags v) (type v) (file_node v) (file_start v)
    (file_offset v) (file_size v).

Definition set_vma_start (v : vma) (a : Z) : vma :=
  mk_vma (used v) a (end_ v) (prot v) (flags v) (type v) (file_node v) (file_start v)
    (file_offset v) (file_size v).

Definition set_vma_end (v : vma) (a : Z) : vma :=
  mk_vma (used v) (start v) a (prot v) (flags v) (type v) (file_node v) (file_start v)
    (file_offset v) (file_size v).

Definition set_vma_prot (v : vma) (p : Z) : vma :=
  mk_vma (used v) (start v) (end_ v) p (flags v) (type v) (file_node v) (file_start v)
    (file_offset v) (file_size v).

(** [chunk_count] is the length of the two arrays. *)
Record vma_list := mk_vma_list {
  chunks : list (list vma);
  chunk_pa : list Z;
}.

Definition chunk_count (l : vma_list) : nat := length (chunks l).

Definition overlaps (a_start a_end b_start b_end : Z) : bool :=
  (a_start <? b_end) && (b_start <? a_end).

Definition compatible (a b : vma) : bool :=
  if negb (prot a =? prot b) || negb (flags a =? flags b) || negb (bool_decide (type a = type b))
  then false
  else if negb (bool_decide (type a = VMA_FILE)) then true
  else bool_decide (backend (file_node a) = backend (file_node b)) &&
       (ino (file_node a) =? ino (file_node b)) && (dev_id (file_node a) =? dev_id (file_node b)) &&
       (file_start a =? file_start b) && (file_offset a =? file_offset b) &&
       (file_size a =? file_size b).

Definition vma_capacity (l : vma_list) : nat := chunk_count l * VMAS_PER_CHUNK.

Definition vma_at (l : vma_list) (index : nat) : option vma :=
  if (vma_capacity l <=? index)%nat then None
  else chunks l !! (index / VMAS_PER_CHUNK)%nat ≫= (.!! (index mod VMAS_PER_CHUNK)%nat).

(** A store through the pointer [vma_at_mut] returns. *)
Definition put_at (l : vma_list) (index : nat) (v : vma) : vma_list :=
  mk_vma_list (alter (<[(index mod VMAS_PER_CHUNK)%nat := v]>) (index / VMAS_PER_CHUNK)%nat (chunks l))
    (chunk_pa l).

(** [p] of the entry at [index]. *)
Definition at_is (l : vma_list) (p : vma -> bool) (index : nat) : bool :=
  match vma_at l index with Some v => p v | None => false end.

(** The first entry with [p], as the scanning loops find it. *)
Definition find_vma (l : vma_list) (p : vma -> bool) : option vma :=
  first_from (at_is l p) 0 (vma_capacity l) ≫= vma_at l.

Definition vma_list_init : vma_list := mk_vma_list [] [].

Definition vma_lookup (l : vma_list) (va : Z) : option vma :=
  find_vma l (fun v => used v && (start v <=? va) && (va <? end_ v)).

Definition vma_lookup_range (l : vma_list) (s e : Z) : option vma :=
  if e <=? s then None
  else find_vma l (fun v => used v && (start v <=? s) && (e <=? end_ v)).

Definition vma_overlaps (l : vma_list) (s e : Z) : bool :=
  if e <=? s then true
  else match find_vma l (fun v => used v && overlaps s e (start v) (end_ v)) with
       | Some _ => true
       | None => false
       end.

Fixpoint vma_count_from (l : vma_list) (i n count : nat) : nat :=
  match n with
  | O => count
  | S n' => vma_count_from l (S i) n' (if at_is l used i then S count else count)
  end.

Definition vma_count (l : vma_list) : nat := vma_count_from l 0 (vma_capacity l) 0.

Fixpoint virtual_pages_from (l : vma_list) (i n : nat) (pages : Z) : Z :=
  match n with
  | O => pages
  | S n' =>
      let pages := match vma_at l i with
                   | Some v => if negb (used v) then pages
                               else u64 (pages + u64 (end_ v - start v + PAGE_SIZE - 1) / PAGE_SIZE)
                   | None => pages
                   end in
      virtual_pages_from l (S i) n' pages
  end.

Definition vma_virtual_pages (l : vma_list) : Z := virtual_pages_from l 0 (vma_capacity l) 0.

Definition vma_grow_down (l : vma_list) (page required_flags : Z) : bool * vma_list * option vma :=
  if negb (page .& (PAGE_SIZE - 1) =? 0) then (false, l, None) else
  match first_from (at_is l (fun v => negb (negb (used v) || (start v <=? page) ||
                                      negb (flags v .& required_flags =? required_flags))))
          0 (vma_capacity l) with
  | None => (false, l, None)
  | Some i =>
      match vma_at l i with
      | None => (false, l, None)
      | Some v =>
          let grow_pages := (start v - page) / PAGE_SIZE in
          if (grow_pages =? 0) || (MAX_GROWDOWN_PAGES <? grow_pages) then (false, l, None)
          else if vma_overlaps l page (start v) then (false, l, None)
          else (true, put_at l i (set_vma_start v page), Some (set_vma_start v page))
      end
  end.

Section Ops.
Context {W : Type} `{PageSource W} `{VfsRefs W} (vma_hhdm_offset : Z).

Definition chunk_alloc (w : W) : option (list vma * Z) * W :=
  if vma_hhdm_offset =? 0 then (None, w) else
  let '(pa, w) := alloc_zero_page w in
  if pa =? 0 then (None, w) else (Some (replicate VMAS_PER_CHUNK zero_vma, pa), w).

Definition chunk_free (pa : Z) (w : W) : W :=
  if negb (pa =? 0) then free_page pa w else w.

Definition ensure_chunk (l : vma_list) (w : W) : bool * vma_list * W :=
  if (VMA_MAX_CHUNKS <=? chunk_count l)%nat then (false, l, w) else
  match chunk_alloc w with
  | (None, w) => (false, l, w)
  | (Some (chunk, pa), w) => (true, mk_vma_list (chunks l ++ [chunk]) (chunk_pa l ++ [pa]), w)
  end.

(** One round of the [for (;;)] loop: scan for a free slot, else add a chunk. *)
Definition alloc_slot_step (st : vma_list * W) : (vma_list * W) + (option nat * vma_list * W) :=
  let '(l, w) := st in
  match first_from (at_is l (fun v => negb (used v))) 0 (vma_capacity l) with
  | Some i => inr (Some i, l, w)
  | None =>
      match ensure_chunk l w with
      | (true, l, w) => inl (l, w)
      | (false, l, w) => inr (None, l, w)
      end
  end.

Definition alloc_slot (l : vma_list) (w : W) : option (option nat * vma_list * W) :=
  iter alloc_slot_step (VMA_MAX_CHUNKS + 2) (l, w).

Definition shared_writable (fl pr : Z) : bool := has fl MAP_SHARED && has pr VMM_USER_WRITE.

(** The references an entry holds, taken and dropped. *)
Definition retain_vma (v : vma) (w : W) : W :=
  if bool_decide (type v = VMA_FILE) then
    let w := retain_node (file_node v) w in
    if shared_writable (flags v) (prot v) then note_shared_writable_mapping (file_node v) true w else w
  else w.

Definition release_refs (v : vma) (w : W) : W :=
  if bool_decide (type v = VMA_FILE) then
    let w := if shared_writable (flags v) (prot v)
             then note_shared_writable_mapping (file_node v) false w else w in
    release_node (file_node v) w
  else w.

Definition add_raw_vma (l : vma_list) (src : vma) (w : W) : option (bool * vma_list * W) :=
  if end_ src <=? start src then Some (false, l, w) else
  let* (slot, l, w) := alloc_slot l w in
  match slot with
  | None => Some (false, l, w)
  | Some i =>
      let v := set_vma_used src true in
      Some (true, put_at l i v, retain_vma v w)
  end.

Definition release_vma (l : vma_list) (i : nat) (w : W) : vma_list * W :=
  match vma_at l i with
  | None => (l, w)
  | Some v =>
      if negb (used v) then (l, w)
      else (put_at l i (set_vma_used v false), release_refs v w)
  end.

Definition add_raw (l : vma_list) (s e pr fl : Z) (ty : vma_type) (w : W) :
    option (bool * vma_list * W) :=
  if e <=? s then Some (false, l, w) else
  let* (slot, l, w) := alloc_slot l w in
  match slot with
  | None => Some (false, l, w)
  | Some i => Some (true, put_at l i (mk_vma true s e pr fl ty zero_node 0 0 0), w)
  end.

(** The body of the inner loop of [merge_adjacent]. [a] and [b] are re-read from
    the list, as the pointers do; assigning [j = 0] before [++j] resumes at 1. *)
Definition merge_step (i : nat) (st : nat * vma_list * W) : (nat * vma_list * W) + (vma_list * W) :=
  let '(j, l, w) := st in
  if (vma_capacity l <=? j)%nat then inr (l, w) else
  match vma_at l i, vma_at l j with
  | Some a, Some b =>
      if (i =? j)%nat || negb (used b) then inl (S j, l, w)
      else if (end_ a =? start b) && compatible a b then
        let l := put_at l i (set_vma_end a (end_ b)) in
        let '(l, w) := release_vma l j w in inl (1%nat, l, w)
      else if (end_ b =? start a) && compatible a b then
        let l := put_at l i (set_vma_start a (start b)) in
        let '(l, w) := release_vma l j w in inl (1%nat, l, w)
      else inl (S j, l, w)
  | _, _ => inr (l, w)
  end.

(** Every merge frees an entry and every other round advances [j]. *)
Definition merge_fuel (l : vma_list) : nat := (vma_capacity l + 2) * (vma_capacity l + 2).

Fixpoint merge_from (i n : nat) (l : vma_list) (w : W) : option (vma_list * W) :=
  match n with
  | O => Some (l, w)
  | S n' =>
      if negb (at_is l used i) then merge_from (S i) n' l w else
      let* (l, w) := iter (merge_step i) (merge_fuel l) (0%nat, l, w) in
      merge_from (S i) n' l w
  end.

Definition merge_adjacent (l : vma_list) (w : W) : option (vma_list * W) :=
  merge_from 0 (vma_capacity l) l w.

Fixpoint release_all (i n : nat) (l : vma_list) (w : W) : vma_list * W :=
  match n with
  | O => (l, w)
  | S n' => let '(l, w) := release_vma l i w in release_all (S i) n' l w
  end.

Definition vma_list_destroy (l : vma_list) (w : W) : vma_list * W :=
  let '(l, w) := release_all 0 (vma_capacity l) l w in
  (vma_list_init, fold_left (fun w pa => chunk_free pa w) (chunk_pa l) w).

Definition vma_insert (l : vma_list) (s e pr fl : Z) (ty : vma_type) (w : W) :
    option (bool * vma_list * W) :=
  if e <=? s then Some (false, l, w) else
  if vma_overlaps l s e then Some (false, l, w) else
  let* (ok, l, w) := add_raw l s e pr fl ty w in
  if negb ok then Some (false, l, w) else
  let* (l, w) := merge_adjacent l w in
  Some (true, l, w).

Definition vma_insert_file (l : vma_list) (s e pr fl : Z) (node : option vfs_node)
    (fstart foffset fsize : Z) (w : W) : option (bool * vma_list * W) :=
  match node with
  | None => Some (false, l, w)
  | Some node =>
      if (e <=? s) || is_dir node || negb (device node =? RAMFS_DEV_NONE) then Some (false, l, w) else
      if vma_overlaps l s e then Some (false, l, w) else
      let* (slot, l, w) := alloc_slot l w in
      match slot with
      | None => Some (false, l, w)
      | Some i =>
          let w := retain_node node w in
          let w := if shared_writable fl pr then note_shared_writable_mapping node true w else w in
          let l := put_at l i (mk_vma true s e pr fl VMA_FILE node fstart foffset fsize) in
          let* (l, w) := merge_adjacent l w in
          Some (true, l, w)
      end
  end.

(** The calls of [add_raw_vma] for the parts of one entry, each followed by the
    early return that destroys [next] when it fails. *)
Fixpoint add_parts (next : vma_list) (parts : list vma) (w : W) : option (bool * vma_list * W) :=
  match parts with
  | [] => Some (true, next, w)
  | part :: rest =>
      let* (ok, next, w) := add_raw_vma next part w in
      if negb ok then let '(next, w) := vma_list_destroy next w in Some (false, next, w)
      else add_parts next rest w
  end.

(** The loop over the entries of [l] that fills [next]. *)
Fixpoint rebuild_from (l : vma_list) (parts : vma -> list vma) (i n : nat) (next : vma_list) (w : W) :
    option (bool * vma_list * W) :=
  match n with
  | O => Some (true, next, w)
  | S n' =>
      match vma_at l i with
      | None => Some (true, next, w)
      | Some v =>
          if negb (used v) then rebuild_from l parts (S i) n' next w else
          let* (ok, next, w) := add_parts next (parts v) w in
          if negb ok then Some (false, next, w) else rebuild_from l parts (S i) n' next w
      end
  end.

Definition remove_parts (s e : Z) (v : vma) : list vma :=
  if negb (overlaps s e (start v) (end_ v)) then [v] else
  (if start v <? s then [set_vma_end v s] else []) ++
  (if e <? end_ v then [set_vma_start v e] else []).

Definition vma_remove (l : vma_list) (s e : Z) (w : W) : option (bool * vma_list * W) :=
  if e <=? s then Some (false, l, w) else
  let* (ok, next, w) := rebuild_from l (remove_parts s e) 0 (vma_capacity l) vma_list_init w in
  if negb ok then Some (false, l, w) else
  let* (next, w) := merge_adjacent next w in
  let '(_, w) := vma_list_destroy l w in
  Some (true, next, w).

Definition protect_parts (s e pr : Z) (v : vma) : list vma :=
  if negb (overlaps s e (start v) (end_ v)) then [v] else
  let mid_start := if s <? start v then start v else s in
  let mid_end := if end_ v <? e then end_ v else e in
  (if start v <? s then [set_vma_end v s] else []) ++
  [set_vma_prot (set_vma_end (set_vma_start v mid_start) mid_end) pr] ++
  (if e <? end_ v then [set_vma_start v e] else []).

Definition vma_protect (l : vma_list) (s e pr : Z) (w : W) : option (bool * vma_list * W) :=
  if e <=? s then Some (false, l, w) else
  let* (ok, next, w) := rebuild_from l (protect_parts s e pr) 0 (vma_capacity l) vma_list_init w in
  if negb ok then Some (false, l, w) else
  let* (next, w) := merge_adjacent next w in
  let '(_, w) := vma_list_destroy l w in
  Some (true, next, w).

Definition vma_clone (src : vma_list) (w : W) : option (bool * vma_list * W) :=
  rebuild_from src (fun v => [v]) 0 (vma_capacity src) vma_list_init w.

End Ops.

End Vma.
