(* ===== verification/VmaInv.v ===== *)
(** Correctness of the virtual memory areas of [Vma].

    A list is read through [Maps l va a]: address [va] is mapped with attributes
    [a]. [Inv] is the invariant (well-shaped chunks, non-empty and disjoint
    areas) and [Res fr l w] says that in kernel [w] the list holds exactly one
    page per chunk and one reference per file area on top of the frame [fr].
    Every operation is shown to return, to keep both, and to act on [Maps] as its
    name says. *)

From stdpp Require Import base numbers list list_numbers option gmap fin_maps.
From Stdlib Require Import ZArith Lia.
From S2P Require Import Prelude Mem Pmm PmmSpec Iface Vma.
Import Vma.

(** ** The array of entries *)

Definition slots (l : vma_list) : list vma := concat (chunks l).

Record vshape (l : vma_list) : Prop := {
  vs_chunk : Forall (fun c => length c = VMAS_PER_CHUNK) (chunks l);
  vs_pa : length (chunk_pa l) = length (chunks l);
  vs_max : (length (chunks l) <= VMA_MAX_CHUNKS)%nat;
}.

Definition Used (l : vma_list) (i : nat) (v : vma) : Prop :=
  slots l !! i = Some v /\ used v = true.

(** ** The address space *)

(** What an area promises for each of its addresses: protection, flags, kind, and
    for a file area the file and its window. *)
Definition attrs : Type :=
  Z * Z * vma_type * option (vfs_backend * Z * Z * Z * Z * Z).

Definition attr_of (v : vma) : attrs :=
  (prot v, flags v, type v,
   if bool_decide (type v = VMA_FILE)
   then Some (node_key (file_node v), file_start v, file_offset v, file_size v) else None).

Definition covers (v : vma) (va : Z) : Prop := start v <= va < end_ v.

Definition Maps (l : vma_list) (va : Z) (a : attrs) : Prop :=
  exists i v, Used l i v /\ covers v va /\ attr_of v = a.

Definition separate (a b : vma) : Prop := end_ a <= start b \/ end_ b <= start a.

Record Inv (l : vma_list) : Prop := {
  inv_shape : vshape l;
  inv_range : forall i v, Used l i v -> start v < end_ v;
  inv_disjoint : forall i j a b, i <> j -> Used l i a -> Used l j b -> separate a b;
}.

(** Two areas that a complete coalescing would have joined. *)
Definition joinable (a b : vma) : Prop :=
  (end_ a = start b \/ end_ b = start a) /\ attr_of a = attr_of b.

Definition coalesced (l : vma_list) : Prop :=
  forall i j a b, i <> j -> Used l i a -> Used l j b -> ~ joinable a b.

(** *** Lemmas on the array *)

Lemma vpc_pos : (0 < VMAS_PER_CHUNK)%nat.
Proof. vm_compute. lia. Qed.

#[local] Opaque VMAS_PER_CHUNK VMA_MAX_CHUNKS.

Lemma capacity_slots l : vshape l -> vma_capacity l = length (slots l).
Proof. intros [Hc _ _]. unfold vma_capacity, slots, chunk_count. by rewrite (concat_length_const _ _ Hc). Qed.

Lemma at_slots l i : vshape l -> vma_at l i = slots l !! i.
Proof.
  intros Hs. unfold vma_at. rewrite capacity_slots by done. destruct (Nat.leb_spec (length (slots l)) i).
  - symmetry. by apply lookup_ge_None.
  - unfold slots. symmetry. apply concat_lookup; [apply vpc_pos|apply Hs].
Qed.

Lemma put_slots l i v : vshape l -> slots (put_at l i v) = <[i := v]> (slots l).
Proof. intros Hs. unfold slots, put_at. cbn [chunks]. apply concat_alter; [apply vpc_pos|apply Hs]. Qed.

Lemma put_shape l i v : vshape l -> vshape (put_at l i v).
Proof.
  intros [H1 H2 H3]. unfold put_at. split; cbn [chunks chunk_pa]; rewrite ?length_alter; [|done|done].
  apply Forall_alter; [done|]. intros c _ Hc. by rewrite length_insert.
Qed.

Lemma put_count l i v : chunk_count (put_at l i v) = chunk_count l.
Proof. unfold chunk_count, put_at. cbn [chunks]. by rewrite length_alter. Qed.

#[local] Hint Resolve put_shape : spore.

Lemma at_is_slots l p i :
  vshape l -> at_is l p i = match slots l !! i with Some v => p v | None => false end.
Proof. intros. unfold at_is. by rewrite at_slots. Qed.

(** The scanning loops. *)
Lemma scan_Some l p i :
  vshape l -> first_from (at_is l p) 0 (vma_capacity l) = Some i ->
  exists v, slots l !! i = Some v /\ p v = true.
Proof.
  intros Hs H. apply first_from_Some in H as (_ & H & _). rewrite at_is_slots in H by done.
  destruct (slots l !! i) as [v|] eqn:E; [|done]. by exists v.
Qed.

Lemma scan_None l p :
  vshape l -> first_from (at_is l p) 0 (vma_capacity l) = None ->
  forall i v, slots l !! i = Some v -> p v = false.
Proof.
  intros Hs H i v Hv. rewrite first_from_None in H. specialize (H i).
  rewrite at_is_slots, Hv in H by done. apply H. rewrite capacity_slots by done.
  apply lookup_lt_Some in Hv. lia.
Qed.

Lemma find_vma_Some l p v :
  vshape l -> find_vma l p = Some v -> p v = true /\ exists i, slots l !! i = Some v.
Proof.
  intros Hs. unfold find_vma. destruct (first_from _ _ _) as [i|] eqn:E; [|done]. simpl.
  rewrite at_slots by done. intros Hv. apply scan_Some in E as (v' & Hv' & Hp); [|done].
  simplify_eq. eauto.
Qed.

Lemma find_vma_None l p :
  vshape l -> find_vma l p = None -> forall i v, slots l !! i = Some v -> p v = false.
Proof.
  intros Hs. unfold find_vma. destruct (first_from _ _ _) as [i|] eqn:E; simpl.
  - rewrite at_slots by done. apply scan_Some in E as (v & Hv & _); [|done]. by rewrite Hv.
  - intros _. by apply scan_None.
Qed.

(** *** Storing an entry *)

Lemma Used_put_new l i u v j x :
  vshape l -> slots l !! i = Some u -> used u = false -> used v = true ->
  Used (put_at l i v) j x <-> (j = i /\ x = v) \/ Used l j x.
Proof.
  intros Hs Hu Hf Hv. unfold Used. rewrite put_slots by done. destruct (decide (i = j)) as [<-|Hne].
  - rewrite list_lookup_insert_eq by (by eapply lookup_lt_Some). split.
    + intros [[= <-] _]. by left.
    + intros [[_ ->]|[H1 H2]]; [done|]. simplify_eq. congruence.
  - rewrite list_lookup_insert_ne by done. naive_solver.
Qed.

Lemma Used_put l i u v j x :
  vshape l -> slots l !! i = Some u ->
  Used (put_at l i v) j x <-> (j = i /\ x = v /\ used v = true) \/ (j <> i /\ Used l j x).
Proof.
  intros Hs Hu. unfold Used. rewrite put_slots by done. destruct (decide (i = j)) as [<-|Hne].
  - rewrite list_lookup_insert_eq by (by eapply lookup_lt_Some). naive_solver.
  - rewrite list_lookup_insert_ne by done. naive_solver.
Qed.

Lemma Used_fun l i a b : Used l i a -> Used l i b -> a = b.
Proof. intros [H1 _] [H2 _]. congruence. Qed.

Lemma Maps_fun l va a b : Inv l -> Maps l va a -> Maps l va b -> a = b.
Proof.
  intros HI (i & v & Hv & Hc & <-) (j & u & Hu & Hd & <-). destruct (decide (i = j)) as [<-|Hne].
  - by rewrite (Used_fun l i v u).
  - destruct (inv_disjoint l HI i j v u Hne Hv Hu); unfold covers in *; lia.
Qed.

Lemma add_ok l i u v :
  Inv l -> slots l !! i = Some u -> used u = false -> used v = true -> start v < end_ v ->
  (forall va a, covers v va -> ~ Maps l va a) ->
  Inv (put_at l i v) /\
  forall va a, Maps (put_at l i v) va a <-> (covers v va /\ a = attr_of v) \/ Maps l va a.
Proof.
  intros HI Hu Hf Hv Hr Hno. pose proof (inv_shape l HI) as Hs.
  pose proof (fun j x => Used_put_new l i u v j x Hs Hu Hf Hv) as HU.
  assert (forall j x, Used l j x -> separate v x) as Hsep.
  { intros j x Hx. unfold separate. destruct (Z.le_gt_cases (end_ v) (start x)); [by left|].
    destruct (Z.le_gt_cases (end_ x) (start v)); [by right|]. exfalso.
    pose proof (inv_range l HI j x Hx). apply (Hno (Z.max (start v) (start x)) (attr_of x)).
    - unfold covers. lia.
    - exists j, x. split; [done|]. unfold covers. split; [lia|done]. }
  split; [split|].
  - auto with spore.
  - intros j x [[_ ->]|Hx]%HU; [done|]. by eapply inv_range.
  - intros j k x y Hne Hx Hy. apply HU in Hx, Hy.
    destruct Hx as [[-> ->]|Hx], Hy as [[-> ->]|Hy]; [done|eauto| |by eapply inv_disjoint].
    specialize (Hsep _ _ Hx). unfold separate in *. tauto.
  - intros va a. split.
    + intros (j & x & [[-> ->]|Hx]%HU & Hc & <-); [by left|]. right. by exists j, x.
    + intros [[Hc ->]|(j & x & Hx & Hc & Ha)].
      * exists i, v. split; [|done]. apply HU. by left.
      * exists j, x. split; [|done]. apply HU. by right.
Qed.

(** *** Lookups *)

Lemma compatible_attr a b : compatible a b = true <-> attr_of a = attr_of b.
Proof.
  unfold compatible, attr_of, node_key.
  destruct (Z.eqb_spec (prot a) (prot b)), (Z.eqb_spec (flags a) (flags b)),
    (bool_decide_reflect (type a = type b)); simpl;
    try (split; [done|intros [=]; done]).
  replace (type b) with (type a) by done.
  destruct (bool_decide_reflect (type a = VMA_FILE)); simpl; [|naive_solver congruence].
  rewrite !andb_true_iff, bool_decide_eq_true, !Z.eqb_eq. naive_solver congruence.
Qed.

Lemma overlaps_spec s e v : overlaps s e (start v) (end_ v) = true <-> s < end_ v /\ start v < e.
Proof. unfold overlaps. rewrite andb_true_iff, !Z.ltb_lt. done. Qed.

Lemma lookup_ok l va :
  Inv l ->
  match vma_lookup l va with
  | Some v => covers v va /\ Maps l va (attr_of v)
  | None => forall a, ~ Maps l va a
  end.
Proof.
  intros HI. unfold vma_lookup. destruct (find_vma _ _) as [v|] eqn:E.
  - apply find_vma_Some in E as [Hp [i Hi]]; [|apply HI]. zbool.
    assert (covers v va) by (unfold covers; lia). split; [done|]. by exists i, v.
  - intros a (i & v & [Hi Hu] & [Hc1 Hc2] & _).
    apply (find_vma_None _ _ (inv_shape l HI) E) in Hi. rewrite Hu in Hi. simpl in Hi.
    apply andb_false_iff in Hi as [Hi|Hi]; zbool; lia.
Qed.

Lemma lookup_used l i v va : Inv l -> Used l i v -> covers v va -> vma_lookup l va = Some v.
Proof.
  intros HI Hv Hc. unfold vma_lookup. destruct (find_vma _ _) as [u|] eqn:E.
  - apply find_vma_Some in E as [Hp [j Hj]]; [|apply HI]. zbool.
    destruct (decide (i = j)) as [<-|Hne]; [destruct Hv; congruence|].
    destruct (inv_disjoint l HI i j v u Hne Hv); [done|..]; unfold covers in Hc; lia.
  - destruct Hv as [Hi Hu], Hc. apply (find_vma_None _ _ (inv_shape l HI) E) in Hi. rewrite Hu in Hi. simpl in Hi.
    apply andb_false_iff in Hi as [Hi|Hi]; zbool; lia.
Qed.

Lemma overlaps_false l s e :
  Inv l -> vma_overlaps l s e = false ->
  s < e /\ forall va a, s <= va < e -> ~ Maps l va a.
Proof.
  intros HI. unfold vma_overlaps. destruct (Z.leb_spec e s); [done|].
  destruct (find_vma _ _) as [v|] eqn:E; [done|]. intros _. split; [done|].
  intros va a Hva (i & v & [Hi Hu] & Hc & _).
  apply (find_vma_None _ _ (inv_shape l HI) E) in Hi. rewrite Hu in Hi. simpl in Hi.
  apply not_true_iff_false in Hi. apply Hi, overlaps_spec. unfold covers in Hc. lia.
Qed.

Lemma overlaps_true l s e :
  Inv l -> s < e -> vma_overlaps l s e = true -> exists va a, s <= va < e /\ Maps l va a.
Proof.
  intros HI Hse. unfold vma_overlaps. destruct (Z.leb_spec e s); [lia|].
  destruct (find_vma _ _) as [v|] eqn:E; [|done]. intros _.
  apply find_vma_Some in E as [Hp [i Hi]]; [|apply HI].
  apply andb_true_iff in Hp as [Hu Ho]. apply overlaps_spec in Ho.
  pose proof (inv_range l HI i v (conj Hi Hu)).
  exists (Z.max s (start v)), (attr_of v). split; [lia|]. exists i, v.
  unfold covers. split_and!; done || lia.
Qed.

(** ** Resources *)

Definition key : Type := vfs_backend * Z * Z.

(** What is held outside the list: other owned pages and other references. *)
Record frame := mk_frame {
  f_pages : Z -> Prop;
  f_refs : key -> Z;
  f_writers : key -> Z;
}.

(** References a file area holds on the file [k]. *)
Definition ref_weight (k : key) (v : vma) : Z :=
  if bool_decide (type v = VMA_FILE) && bool_decide (node_key (file_node v) = k) then 1 else 0.

Definition writer_weight (k : key) (v : vma) : Z :=
  if bool_decide (type v = VMA_FILE) && shared_writable (flags v) (prot v) &&
     bool_decide (node_key (file_node v) = k) then 1 else 0.

Definition held (f : vma -> Z) (v : vma) : Z := if used v then f v else 0.

Definition list_refs (l : vma_list) (k : key) : Z := zsum (held (ref_weight k)) (slots l).
Definition list_writers (l : vma_list) (k : key) : Z := zsum (held (writer_weight k)) (slots l).

(** A frame that also holds what a list holds. *)
Definition frame_with (fr : frame) (l : vma_list) : frame :=
  mk_frame (fun q => q ∈ chunk_pa l \/ f_pages fr q)
           (fun k => list_refs l k + f_refs fr k)
           (fun k => list_writers l k + f_writers fr k).

Section World.
Context {W : Type} {HS : PageSource W} {HL : PageLaws W} {HF : VfsRefs W} {HV : VfsLaws W}.

(** The kernel [w] owns the pages and references of the frame. *)
Record Holds (fr : frame) (w : W) : Prop := {
  h_ok : page_ok w;
  h_pages : forall q, page_owned w q <-> f_pages fr q;
  h_refs : forall k, node_refs w k = f_refs fr k;
  h_writers : forall k, node_writers w k = f_writers fr k;
}.

(** [w] owns what [l] holds, separately from [fr]. *)
Record Res (fr : frame) (l : vma_list) (w : W) : Prop := {
  r_holds : Holds (frame_with fr l) w;
  r_nodup : NoDup (chunk_pa l);
  r_nonzero : Forall (fun pa => pa <> 0) (chunk_pa l);
  r_apart : forall q, q ∈ chunk_pa l -> ~ f_pages fr q;
}.

Lemma retain_vma_laws v w k :
  node_refs (retain_vma v w) k = node_refs w k + ref_weight k v /\
  node_writers (retain_vma v w) k = node_writers w k + writer_weight k v.
Proof.
  unfold retain_vma, ref_weight, writer_weight.
  destruct (bool_decide (type v = VMA_FILE)); simpl; [|lia].
  destruct (refs_law w (file_node v) k) as (Hr & _ & _).
  destruct (writers_law w (file_node v) k) as (Hw & _ & _ & _).
  destruct (shared_writable (flags v) (prot v)); simpl.
  - destruct (refs_law (retain_node (file_node v) w) (file_node v) k) as (_ & _ & Hn).
    destruct (writers_law (retain_node (file_node v) w) (file_node v) k) as (_ & _ & Ha & _).
    rewrite Hn, Ha, Hr, Hw. unfold bool_decide. repeat case_decide; naive_solver lia.
  - rewrite Hr, Hw. unfold bool_decide. repeat case_decide; naive_solver lia.
Qed.

Lemma release_refs_laws v w k :
  node_refs (release_refs v w) k = node_refs w k - ref_weight k v /\
  node_writers (release_refs v w) k = node_writers w k - writer_weight k v.
Proof.
  unfold release_refs, ref_weight, writer_weight.
  destruct (bool_decide (type v = VMA_FILE)); simpl; [|lia].
  set (w1 := if shared_writable _ _ then _ else w).
  destruct (refs_law w1 (file_node v) k) as (_ & Hr & _).
  destruct (writers_law w1 (file_node v) k) as (_ & Hw & _ & _). rewrite Hr, Hw. subst w1.
  destruct (refs_law w (file_node v) k) as (_ & _ & Hn).
  destruct (writers_law w (file_node v) k) as (_ & _ & _ & Hd).
  destruct (shared_writable (flags v) (prot v)); simpl; rewrite ?Hn, ?Hd;
    unfold bool_decide; repeat case_decide; naive_solver lia.
Qed.

Lemma vma_refs_pages v w :
  page_ok w ->
  (page_ok (retain_vma v w) /\ forall q, page_owned (retain_vma v w) q <-> page_owned w q) /\
  (page_ok (release_refs v w) /\ forall q, page_owned (release_refs v w) q <-> page_owned w q).
Proof.
  intros Hok. unfold retain_vma, release_refs. destruct (bool_decide (type v = VMA_FILE)); [|done].
  destruct (refs_keep_pages w (file_node v) Hok) as ([H1 H1'] & [H2 H2'] & H3).
  destruct (refs_keep_pages _ (file_node v) H1) as (_ & _ & H4).
  destruct (H3 false) as [H5 H5'], (H4 true) as [H6 H6'].
  destruct (refs_keep_pages _ (file_node v) H5) as (_ & [H7 H7'] & _).
  destruct (shared_writable (flags v) (prot v)); split; (split; [done|]); intros q;
    rewrite ?H6', ?H7', ?H5', ?H1', ?H2'; done.
Qed.

(** Replacing the entry [u] at [i] by [v] when the kernel moved by the difference. *)
Lemma Res_put fr l w w' i u v :
  vshape l -> Res fr l w -> slots l !! i = Some u ->
  (page_ok w' /\ forall q, page_owned w' q <-> page_owned w q) ->
  (forall k, node_refs w' k = node_refs w k - held (ref_weight k) u + held (ref_weight k) v) ->
  (forall k, node_writers w' k = node_writers w k - held (writer_weight k) u + held (writer_weight k) v) ->
  Res fr (put_at l i v) w'.
Proof.
  intros Hs [[Ho Hp Hr Hw] Hn Hz Ha] Hu [Ho' Hp'] Hr' Hw'. split; try done. split; simpl in *.
  - done.
  - intros q. by rewrite Hp', Hp.
  - intros k. unfold list_refs in *. rewrite Hr', Hr, put_slots, (zsum_insert _ _ _ u) by done. lia.
  - intros k. unfold list_writers in *. rewrite Hw', Hw, put_slots, (zsum_insert _ _ _ u) by done. lia.
Qed.

Lemma Res_release fr l w i u :
  vshape l -> Res fr l w -> Used l i u ->
  Res fr (put_at l i (set_vma_used u false)) (release_refs u w).
Proof.
  intros Hs HR [Hu Hus]. destruct (vma_refs_pages u w (h_ok _ _ (r_holds _ _ _ HR))) as [_ Hp].
  eapply Res_put; [done..|exact Hp| |]; intros k; destruct (release_refs_laws u w k) as [H1 H2];
    unfold held; rewrite Hus; simpl; lia.
Qed.

Lemma Res_retain fr l w i u v :
  vshape l -> Res fr l w -> slots l !! i = Some u -> used u = false -> used v = true ->
  Res fr (put_at l i v) (retain_vma v w).
Proof.
  intros Hs HR Hu Hf Hv. destruct (vma_refs_pages v w (h_ok _ _ (r_holds _ _ _ HR))) as [Hp _].
  eapply Res_put; [done..|exact Hp| |]; intros k; destruct (retain_vma_laws v w k) as [H1 H2];
    unfold held; rewrite Hf, Hv; lia.
Qed.

(** *** Slot allocation *)

(** [l'] is [l] with [n] zeroed entries appended. *)
Definition extends (l l' : vma_list) : Prop :=
  exists n, slots l' = slots l ++ replicate n zero_vma.

Lemma extends_Used l l' i v : extends l l' -> Used l' i v <-> Used l i v.
Proof.
  intros [n Hn]. unfold Used. rewrite Hn. destruct (decide (i < length (slots l))%nat) as [Hi|Hi].
  - by rewrite lookup_app_l.
  - rewrite lookup_app_r by lia. rewrite lookup_ge_None_2 with (l := slots l) by lia.
    split; [|naive_solver]. intros [Hz Hu]. apply lookup_replicate in Hz as [-> _]. done.
Qed.

Lemma extends_Maps l l' va a : extends l l' -> Maps l' va a <-> Maps l va a.
Proof. intros He. unfold Maps. by setoid_rewrite (fun i v => extends_Used l l' i v He). Qed.

Lemma extends_Inv l l' : extends l l' -> vshape l' -> Inv l -> Inv l'.
Proof.
  intros He Hs [_ Hr Hd]. split; [done|..].
  - intros i v Hv. apply (extends_Used _ _ _ _ He) in Hv. eauto.
  - intros i j a b Hne Ha Hb. apply (extends_Used _ _ _ _ He) in Ha, Hb. eauto.
Qed.

Variable hhdm : Z.

Lemma zero_weight f n : zsum (held f) (replicate n zero_vma) = 0.
Proof. rewrite zsum_replicate. change (held f zero_vma) with 0. apply Z.mul_0_r. Qed.

Lemma ensure_chunk_ok fr l w b l' w' :
  vshape l -> Res fr l w -> ensure_chunk hhdm l w = (b, l', w') ->
  Res fr l' w' /\ vshape l' /\
  if b then slots l' = slots l ++ replicate VMAS_PER_CHUNK zero_vma /\
            length (chunks l') = S (length (chunks l))
  else l' = l.
Proof.
  intros Hs HR. unfold ensure_chunk, chunk_alloc, chunk_count.
  remember (replicate VMAS_PER_CHUNK zero_vma) as fresh eqn:Hfr.
  destruct (Nat.leb_spec VMA_MAX_CHUNKS (length (chunks l))) as [Hge|Hlt]; [by intros [= <- <- <-]|].
  destruct (Z.eqb_spec hhdm 0) as [_|_]; [by intros [= <- <- <-]|].
  destruct (alloc_zero_page w) as [pa w1] eqn:E.
  destruct HR as [[Ho Hp Hr Hw] Hn Hz Ha], Hs as [S1 S2 S3].
  destruct (alloc_law w pa w1 Ho E) as [Ho1 Hcase].
  assert (forall k, node_refs w1 k = node_refs w k /\ node_writers w1 k = node_writers w k) as Hk.
  { intros k. destruct (pages_keep_refs w 0 k) as (H1 & _ & H2 & _). by rewrite E in H1, H2. }
  destruct (Z.eqb_spec pa 0) as [->|Hne]; intros [= <- <- <-].
  - destruct Hcase as [[_ Hq]|[? _]]; [|done]. split; [|done]. split; try done. split; [done|..].
    + intros q. by rewrite Hq, Hp.
    + intros k. destruct (Hk k). by rewrite <- Hr.
    + intros k. destruct (Hk k). by rewrite <- Hw.
  - destruct Hcase as [[? _]|(_ & Hfresh & Hq)]; [done|]. rewrite Hp in Hfresh. simpl in Hfresh.
    assert (slots (mk_vma_list (chunks l ++ [fresh]) (chunk_pa l ++ [pa])) =
            slots l ++ fresh) as Hsl.
    { unfold slots. cbn [chunks]. rewrite concat_app. cbn [concat]. by rewrite app_nil_r. }
    split; [split; [split|..]|split; [split|]]; cbn [frame_with f_pages f_refs f_writers chunk_pa chunks].
    + done.
    + intros q. rewrite Hq, Hp, elem_of_app, list_elem_of_singleton. simpl. tauto.
    + intros k. destruct (Hk k) as [-> _]. rewrite Hr. unfold list_refs. cbn [frame_with f_refs].
      rewrite Hsl, zsum_app, Hfr, zero_weight. unfold list_refs. lia.
    + intros k. destruct (Hk k) as [_ ->]. rewrite Hw. unfold list_writers. cbn [frame_with f_writers].
      rewrite Hsl, zsum_app, Hfr, zero_weight. unfold list_writers. lia.
    + apply NoDup_app. split_and!; [done| |apply NoDup_singleton].
      intros q Hq1 ->%list_elem_of_singleton. tauto.
    + apply Forall_app. by split; [|apply Forall_singleton].
    + intros q [Hq1| ->%list_elem_of_singleton]%elem_of_app; [by apply Ha|tauto].
    + apply Forall_app. split; [done|]. apply Forall_singleton. rewrite Hfr. apply length_replicate.
    + rewrite !length_app. simpl. lia.
    + rewrite length_app. simpl. lia.
    + split; [done|]. rewrite length_app. simpl. lia.
Qed.

(** Every entry is in use and no chunk can be added. *)
Definition no_slot (l : vma_list) (w : W) : Prop :=
  (forall i v, slots l !! i = Some v -> used v = true) /\
  (chunk_count l = VMA_MAX_CHUNKS \/ hhdm = 0 \/ (alloc_zero_page w).1 = 0).

Lemma ensure_chunk_false l w l' w' :
  vshape l -> ensure_chunk hhdm l w = (false, l', w') ->
  chunk_count l = VMA_MAX_CHUNKS \/ hhdm = 0 \/ (alloc_zero_page w).1 = 0.
Proof.
  intros [_ _ Hm]. unfold ensure_chunk, chunk_alloc. unfold chunk_count.
  destruct (Nat.leb_spec VMA_MAX_CHUNKS (length (chunks l))); [left; lia|].
  destruct (Z.eqb_spec hhdm 0); [by auto|].
  destruct (alloc_zero_page w) as [pa w1]. destruct (Z.eqb_spec pa 0); [by auto|done].
Qed.

(** [alloc_slot] returns an unused entry, growing the list if needed; it fails
    only when there is no slot, without changing the list. *)
Lemma alloc_slot_ok fr l w :
  Inv l -> Res fr l w ->
  exists o l' w', alloc_slot hhdm l w = Some (o, l', w') /\ Res fr l' w' /\ Inv l' /\ extends l l' /\
    match o with
    | Some i => exists u, slots l' !! i = Some u /\ used u = false
    | None => l' = l /\ no_slot l w
    end.
Proof.
  intros HI HR.
  set (I := fun st : vma_list * W => let '(l1, w1) := st in
    Res fr l1 w1 /\ Inv l1 /\ extends l l1 /\
    ((l1 = l /\ w1 = w) \/ exists i u, slots l1 !! i = Some u /\ used u = false)).
  set (Q := fun r : option nat * vma_list * W => let '(o, l', w') := r in
    Res fr l' w' /\ Inv l' /\ extends l l' /\
    match o with Some i => exists u, slots l' !! i = Some u /\ used u = false | None => l' = l /\ no_slot l w end).
  destruct (iter_spec (alloc_slot_step hhdm) I (fun st => VMA_MAX_CHUNKS - length (chunks st.1))%nat
              Q (VMA_MAX_CHUNKS + 2)%nat (l, w)) as ([[o l'] w'] & Hi & HQ).
  - intros [l1 w1] s' (HR1 & HI1 & He1 & Hc1). unfold alloc_slot_step.
    destruct (first_from _ _ _) as [i|] eqn:E; [done|].
    destruct (ensure_chunk hhdm l1 w1) as [[b l2] w2] eqn:E2. destruct b; [|done]. intros [= <-].
    pose proof (vs_max l1 (inv_shape l1 HI1)).
    destruct (ensure_chunk_ok fr l1 w1 _ _ _ (inv_shape l1 HI1) HR1 E2) as (HR2 & Hs2 & Hsl & Hlen).
    pose proof (vs_max l2 Hs2). simpl. split; [|lia].
    split; [done|]. assert (extends l l2) as He2.
    { destruct He1 as [n Hn]. exists (n + VMAS_PER_CHUNK)%nat. by rewrite Hsl, Hn, <- app_assoc, replicate_add. }
    split; [by eapply extends_Inv|]. split; [done|]. right.
    exists (length (slots l1)), zero_vma. split; [|done]. rewrite Hsl, lookup_app_r by lia.
    rewrite Nat.sub_diag. apply lookup_replicate. split; [done|apply vpc_pos].
  - intros [l1 w1] [[o l2] w2] (HR1 & HI1 & He1 & Hc1). unfold alloc_slot_step.
    destruct (first_from _ _ _) as [i|] eqn:E.
    + intros [= <- <- <-]. split_and!; try done. apply scan_Some in E as (u & Hu & Hf); [|apply HI1].
      exists u. split; [done|]. by apply negb_true_iff.
    + destruct (ensure_chunk hhdm l1 w1) as [[b l3] w3] eqn:E2. destruct b; [done|]. intros [= <- <- <-].
      destruct (ensure_chunk_ok fr l1 w1 _ _ _ (inv_shape l1 HI1) HR1 E2) as (HR2 & Hs2 & ->).
      destruct Hc1 as [[-> ->]|(i & u & Hu & Hf)].
      * split_and!; try done. split; [|by eapply ensure_chunk_false; [apply HI|exact E2]].
        intros i v Hv. apply (scan_None _ _ (inv_shape l HI) E) in Hv. by destruct (used v).
      * apply (scan_None _ _ (inv_shape l1 HI1) E) in Hu. by rewrite Hf in Hu.
  - split_and!; try done; [|by left]. exists 0%nat. by rewrite app_nil_r.
  - cbn [fst]. lia.
  - exists o, l', w'. split; [exact Hi|]. done.
Qed.

(** *** Coalescing *)

Lemma attr_weight a b k :
  attr_of a = attr_of b ->
  ref_weight k a = ref_weight k b /\ writer_weight k a = writer_weight k b.
Proof.
  unfold attr_of, ref_weight, writer_weight. intros [= Hp Hf Ht Hk]. rewrite <- Ht, Hp, Hf in *.
  destruct (bool_decide (type a = VMA_FILE)); [|done].
  assert (node_key (file_node a) = node_key (file_node b)) as -> by (unfold node_key in *; congruence).
  done.
Qed.

(** [a'] is [a] grown over its neighbour [b]. *)
Record joined (a b a' : vma) : Prop := {
  j_used : used a' = true;
  j_attr : attr_of a' = attr_of a;
  j_same : attr_of b = attr_of a;
  j_hull : (end_ a = start b /\ start a' = start a /\ end_ a' = end_ b) \/
           (end_ b = start a /\ start a' = start b /\ end_ a' = end_ a);
}.

Lemma joined_covers a b a' va :
  start a < end_ a -> start b < end_ b -> joined a b a' -> covers a' va <-> covers a va \/ covers b va.
Proof. intros Ha Hb [_ _ _ [(?&?&?)|(?&?&?)]]; unfold covers; lia. Qed.

Lemma joined_joinable a b a' x :
  joined a b a' -> joinable a' x -> joinable a x \/ joinable b x.
Proof.
  unfold joinable. intros [_ Ha Hb Hh] [Hadj Hx]. rewrite Ha in Hx. rewrite Hb.
  destruct Hh as [(?&?&?)|(?&?&?)], Hadj; (left; split; [lia|done]) || (right; split; [lia|done]).
Qed.

Definition nused (l : vma_list) : nat := Z.to_nat (zsum (held (fun _ => 1)) (slots l)).

Lemma held_nonneg l : 0 <= zsum (held (fun _ => 1)) l <= Z.of_nat (length l).
Proof. induction l as [|v l IH]; cbn [zsum length]; [lia|]. unfold held at 1 3. destruct (used v); lia. Qed.

Section MergePair.
Variables (fr : frame) (l : vma_list) (w : W) (i j : nat) (a b a' : vma).
Hypotheses (HI : Inv l) (HR : Res fr l w) (Hij : i <> j).
Hypotheses (Ha : Used l i a) (Hb : Used l j b) (Hj : joined a b a').

Let l1 := put_at l i a'.
Let l2 := put_at l1 j (set_vma_used b false).

Lemma pair_second : slots l1 !! j = Some b.
Proof. unfold l1. rewrite put_slots by apply HI. rewrite list_lookup_insert_ne by done. apply Hb. Qed.

Lemma pair_Used k x : Used l2 k x <-> (k = i /\ x = a') \/ (k <> i /\ k <> j /\ Used l k x).
Proof.
  assert (vshape l1) by (unfold l1; apply put_shape, HI).
  unfold l2. rewrite (Used_put _ _ b) by (done || apply pair_second). unfold l1.
  rewrite (Used_put _ _ a) by (apply HI || apply Ha). pose proof (j_used _ _ _ Hj). simpl.
  destruct (decide (k = i)), (decide (k = j)); naive_solver.
Qed.

Lemma pair_release : release_vma l1 j w = (l2, release_refs b w).
Proof.
  unfold release_vma. rewrite at_slots by (unfold l1; apply put_shape, HI).
  rewrite pair_second. by rewrite (proj2 Hb).
Qed.

Lemma pair_Res : Res fr l2 (release_refs b w).
Proof.
  assert (vshape l1) by (unfold l1; apply put_shape, HI).
  apply Res_release; [done| |split; [apply pair_second|apply Hb]]. unfold l1.
  eapply Res_put; [apply HI|exact HR|apply Ha|split; [by destruct HR as [[]]|done]| |]; intros k;
    unfold held; rewrite (j_used _ _ _ Hj), (proj2 Ha);
    destruct (attr_weight a' a k (j_attr _ _ _ Hj)); lia.
Qed.

Lemma pair_Maps va c : Maps l2 va c <-> Maps l va c.
Proof.
  pose proof (inv_range l HI i a Ha) as Hra. pose proof (inv_range l HI j b Hb) as Hrb.
  pose proof (joined_covers a b a' va Hra Hrb Hj) as Hcov. destruct Hj as [_ Hat Hbt _]. split.
  - intros (k & x & [[-> ->]|(_ & _ & Hx)]%pair_Used & Hc & <-); [|by exists k, x].
    apply Hcov in Hc as [Hc|Hc]; [by exists i, a|exists j, b; rewrite Hbt; by rewrite Hat].
  - intros (k & x & Hx & Hc & <-). destruct (decide (k = i)) as [->|Hki].
    + rewrite (Used_fun l i x a) in * by done. exists i, a'. rewrite pair_Used. tauto.
    + destruct (decide (k = j)) as [->|Hkj].
      * rewrite (Used_fun l j x b) in * by done. exists i, a'. rewrite pair_Used, Hat. intuition congruence.
      * exists k, x. rewrite pair_Used. tauto.
Qed.

Lemma pair_separate k x : k <> i -> k <> j -> Used l k x -> separate a' x.
Proof.
  intros Hki Hkj Hx.
  pose proof (inv_disjoint l HI k i x a Hki Hx Ha) as H1.
  pose proof (inv_disjoint l HI k j x b Hkj Hx Hb) as H2.
  pose proof (inv_range l HI k x Hx). pose proof (inv_range l HI i a Ha).
  pose proof (inv_range l HI j b Hb).
  unfold separate in *. destruct (j_hull _ _ _ Hj) as [(?&?&?)|(?&?&?)]; lia.
Qed.

Lemma pair_Inv : Inv l2.
Proof.
  split.
  - unfold l2, l1. do 2 apply put_shape. apply HI.
  - intros k x [[-> ->]|(_ & _ & Hx)]%pair_Used; [|by eapply inv_range].
    pose proof (inv_range l HI i a Ha). pose proof (inv_range l HI j b Hb).
    destruct (j_hull _ _ _ Hj) as [(?&?&?)|(?&?&?)]; lia.
  - intros k k' x y Hne [[-> ->]|(Hki & Hkj & Hx)]%pair_Used [[-> ->]|(Hki' & Hkj' & Hy)]%pair_Used.
    + done.
    + by apply (pair_separate k' y).
    + pose proof (pair_separate k x Hki Hkj Hx). unfold separate in *. tauto.
    + by apply (inv_disjoint l HI k k').
Qed.

Lemma pair_nused : (nused l2 < nused l)%nat.
Proof.
  assert (vshape l1) by (unfold l1; apply put_shape, HI).
  unfold nused, l2. rewrite put_slots by done. rewrite (zsum_insert _ _ _ b) by apply pair_second.
  unfold l1. rewrite put_slots by apply HI. rewrite (zsum_insert _ _ _ a) by apply Ha.
  pose proof (held_nonneg (<[j := set_vma_used b false]> (<[i := a']> (slots l)))) as Hn.
  rewrite (zsum_insert _ _ _ b) in Hn by (rewrite list_lookup_insert_ne by done; apply Hb).
  rewrite (zsum_insert _ _ _ a) in Hn by apply Ha.
  unfold held in *. rewrite (proj2 Ha), (proj2 Hb), (j_used _ _ _ Hj) in *. simpl in *. lia.
Qed.

Lemma pair_capacity : vma_capacity l2 = vma_capacity l.
Proof. unfold vma_capacity, l2, l1. by rewrite !put_count. Qed.

End MergePair.

Lemma joinable_sym a b : joinable a b -> joinable b a.
Proof. unfold joinable. intros [? ?]. split; [tauto|done]. Qed.

(** The first [n] entries have nothing left to join. *)
Definition settled (l : vma_list) (n : nat) : Prop :=
  forall i k x y, (i < n)%nat -> i <> k -> Used l i x -> Used l k y -> ~ joinable x y.

(** What the loops keep, relative to the list [l0] they started from. *)
Record merging (fr : frame) (l0 l : vma_list) (w : W) : Prop := {
  m_inv : Inv l;
  m_res : Res fr l w;
  m_maps : forall va c, Maps l va c <-> Maps l0 va c;
  m_cap : vma_capacity l = vma_capacity l0;
}.

(** After the entries before [j] have been tried against entry [i]. *)
Definition inner_inv (fr : frame) (l0 : vma_list) (i : nat) (st : nat * vma_list * W) : Prop :=
  let '(j, l, w) := st in
  merging fr l0 l w /\ settled l i /\ (exists a, Used l i a) /\
  forall k a b, (k < j)%nat -> k <> i -> Used l i a -> Used l k b -> ~ joinable a b.

Lemma merge_pair_inv fr l0 l w i j a b a' :
  merging fr l0 l w -> settled l i -> i <> j -> Used l i a -> Used l j b -> joined a b a' ->
  exists l2, release_vma (put_at l i a') j w = (l2, release_refs b w) /\
    (nused l2 < nused l)%nat /\ inner_inv fr l0 i (1%nat, l2, release_refs b w).
Proof.
  intros [HI HR HM HC] Hset Hij Ha Hb Hj.
  exists (put_at (put_at l i a') j (set_vma_used b false)).
  pose proof (fun k x => pair_Used l i j a b a' HI Hij Ha Hb Hj k x) as HU.
  assert (settled (put_at (put_at l i a') j (set_vma_used b false)) i) as Hset'.
  { intros n k x y Hn Hnk Hx Hy Hjn. apply HU in Hx as [[-> _]|(Hni & Hnj & Hx)]; [lia|].
    apply HU in Hy as [[-> ->]|(Hki & Hkj & Hy)]; [|by apply (Hset n k x y)].
    apply joinable_sym in Hjn. apply (joined_joinable a b a' x Hj) in Hjn as [Hjn|Hjn];
      apply joinable_sym in Hjn; [apply (Hset n i x a)|apply (Hset n j x b)]; done. }
  split; [by apply (pair_release l w i j b a')|].
  split; [by apply (pair_nused l i j a b a')|].
  split; [split|split; [done|split]].
  - by apply (pair_Inv l i j a b a').
  - by apply (pair_Res fr l w i j a b a').
  - intros va c. rewrite <- HM. by apply (pair_Maps l i j a b a').
  - rewrite <- HC. by apply (pair_capacity l i j b a').
  - exists a'. apply HU. by left.
  - intros k x y Hk Hki Hx Hy Hjn. apply joinable_sym in Hjn.
    apply (Hset' k i y x); [lia|done|done|done|done].
Qed.

Lemma merge_step_ok fr l0 i j l w :
  inner_inv fr l0 i (j, l, w) ->
  match merge_step i (j, l, w) with
  | inl (j', l', w') =>
      inner_inv fr l0 i (j', l', w') /\
      ((nused l' < nused l)%nat \/
       nused l' = nused l /\ (j < vma_capacity l0)%nat /\ j' = S j)
  | inr (l', w') => merging fr l0 l' w' /\ settled l' (S i)
  end.
Proof.
  intros (HM & Hset & [a Ha] & Htried). pose proof (inv_shape l (m_inv _ _ _ _ HM)) as Hs.
  unfold merge_step. destruct (Nat.leb_spec (vma_capacity l) j) as [Hge|Hlt].
  { split; [done|]. intros n k x y Hn Hnk Hx Hy. destruct (decide (n = i)) as [->|Hne].
    - apply (Htried k); try done. rewrite capacity_slots in Hge by done.
      destruct Hy as [Hy _]. apply lookup_lt_Some in Hy. lia.
    - apply (Hset n k); try done. lia. }
  pose proof (m_cap _ _ _ _ HM) as HC.
  rewrite !at_slots by done. rewrite (proj1 Ha).
  rewrite capacity_slots in Hlt by done. destruct (lookup_lt_is_Some_2 _ _ Hlt) as [b Hb]. rewrite Hb.
  rewrite <- capacity_slots, HC in Hlt by done.
  assert ((forall x, i <> j -> Used l j x -> ~ joinable a x) -> inner_inv fr l0 i (S j, l, w)) as Hnext.
  { intros Hno. split_and!; [done|done|by exists a|]. intros k a1 b1 Hk Hki Ha1 Hb1.
    rewrite (Used_fun l i a1 a) by done. destruct (decide (k = j)) as [->|]; [by apply Hno|].
    rewrite (Used_fun l i a a1) by done. apply (Htried k); [lia|done..]. }
  destruct (Nat.eqb_spec i j) as [<-|Hij]; simpl; [split; [by apply Hnext|right; auto]|].
  destruct (used b) eqn:Hub; simpl; [|split; [apply Hnext; intros x _ [? ?]; congruence|right; auto]].
  destruct ((end_ a =? start b) && compatible a b) eqn:E1.
  { apply andb_true_iff in E1 as [E1 Hc]. apply Z.eqb_eq in E1. apply compatible_attr in Hc.
    destruct (merge_pair_inv fr l0 l w i j a b (set_vma_end a (end_ b))) as (l2 & -> & Hn & Hin);
      try done; [|by auto]. split; [apply Ha|done|done|left; done]. }
  destruct ((end_ b =? start a) && compatible a b) eqn:E2.
  { apply andb_true_iff in E2 as [E2 Hc]. apply Z.eqb_eq in E2. apply compatible_attr in Hc.
    destruct (merge_pair_inv fr l0 l w i j a b (set_vma_start a (start b))) as (l2 & -> & Hn & Hin);
      try done; [|by auto]. split; [apply Ha|done|done|right; done]. }
  split; [|right; auto]. apply Hnext. intros x _ [Hx _]. simplify_eq. intros [Hadj Hat].
  apply compatible_attr in Hat. rewrite Hat, andb_true_r in *. zbool. destruct Hadj; congruence.
Qed.

Lemma merge_inner_ok fr l0 i l w :
  merging fr l0 l w -> settled l i -> (exists a, Used l i a) ->
  exists l' w', iter (merge_step i) (merge_fuel l) (0%nat, l, w) = Some (l', w') /\
    merging fr l0 l' w' /\ settled l' (S i).
Proof.
  intros HM Hset Ha.
  destruct (iter_spec (merge_step i) (inner_inv fr l0 i)
    (fun st => nused st.1.2 * (vma_capacity l0 + 1) + (vma_capacity l0 - st.1.1))%nat
    (fun r => merging fr l0 r.1 r.2 /\ settled r.1 (S i)) (merge_fuel l) (0%nat, l, w))
    as ([l' w'] & Hi & HQ).
  - intros [[j1 l1] w1] [[j2 l2] w2] HI E. pose proof (merge_step_ok fr l0 i j1 l1 w1 HI) as H.
    rewrite E in H. destruct H as [HI2 Hm]. split; [done|]. cbn [fst snd]. nia.
  - intros [[j1 l1] w1] [l2 w2] HI E. pose proof (merge_step_ok fr l0 i j1 l1 w1 HI) as H.
    by rewrite E in H.
  - split_and!; try done. intros k a b Hk. lia.
  - cbn [fst snd]. unfold merge_fuel. rewrite (m_cap _ _ _ _ HM).
    assert (nused l <= vma_capacity l0)%nat; [|nia]. unfold nused.
    pose proof (held_nonneg (slots l)). rewrite <- (m_cap _ _ _ _ HM).
    rewrite capacity_slots by apply (m_inv _ _ _ _ HM). lia.
  - by exists l', w'.
Qed.

Lemma merge_from_ok fr l0 i n l w :
  merging fr l0 l w -> settled l i -> (i + n = vma_capacity l0)%nat ->
  exists l' w', merge_from i n l w = Some (l', w') /\ merging fr l0 l' w' /\
    settled l' (vma_capacity l0).
Proof.
  revert i l w. induction n as [|n IH]; intros i l w HM Hset Hin; simpl.
  - exists l, w. by replace i with (vma_capacity l0) in * by lia.
  - pose proof (inv_shape l (m_inv _ _ _ _ HM)) as Hs. rewrite at_is_slots by done.
    destruct (slots l !! i) as [a|] eqn:Ea; [destruct (used a) eqn:Eu|]; simpl.
    + destruct (merge_inner_ok fr l0 i l w HM Hset (ex_intro _ a (conj Ea Eu)))
        as (l1 & w1 & -> & HM1 & Hset1). simpl. apply IH; [done|done|lia].
    + apply IH; [done| |lia]. intros j k x y Hj Hjk Hx. destruct (decide (j = i)) as [->|].
      * destruct Hx. congruence.
      * apply (Hset j k x y); [lia|done|done].
    + apply IH; [done| |lia]. intros j k x y Hj Hjk Hx. destruct (decide (j = i)) as [->|].
      * destruct Hx. congruence.
      * apply (Hset j k x y); [lia|done|done].
Qed.

Lemma merge_ok fr l w :
  Inv l -> Res fr l w ->
  exists l' w', merge_adjacent l w = Some (l', w') /\ Inv l' /\ Res fr l' w' /\ coalesced l' /\
    forall va c, Maps l' va c <-> Maps l va c.
Proof.
  intros HI HR. destruct (merge_from_ok fr l 0 (vma_capacity l) l w) as (l' & w' & E & HM & Hset).
  - by split.
  - intros i k x y Hi. lia.
  - done.
  - exists l', w'. destruct HM as [HI' HR' HM HC]. split_and!; try done.
    intros i j a b Hij Ha Hb. apply (Hset i j); try done. rewrite <- HC.
    rewrite capacity_slots by apply HI'. destruct Ha as [Ha _]. by apply lookup_lt_Some in Ha.
Qed.

(** *** Destroying a list *)

Lemma init_Inv : Inv vma_list_init.
Proof.
  split; [split; try done; simpl; lia| |]; intros i v.
  - intros [Hv _]. done.
  - intros a b _ [Ha _]. done.
Qed.

Lemma init_Maps va c : ~ Maps vma_list_init va c.
Proof. intros (i & v & [Hv _] & _). done. Qed.

Lemma init_Res fr w : Holds fr w -> Res fr vma_list_init w.
Proof.
  intros [Ho Hp Hr Hw]. split; [split|..]; simpl; try done; try apply NoDup_nil_2; try constructor.
  - intros Hq. right. by apply Hp.
  - intros [[]%not_elem_of_nil|Hq]. by apply Hp.
  - intros q []%not_elem_of_nil.
Qed.

Lemma release_vma_ok fr l w i l' w' :
  vshape l -> Res fr l w -> release_vma l i w = (l', w') ->
  vshape l' /\ Res fr l' w' /\ chunk_pa l' = chunk_pa l /\
  length (slots l') = length (slots l) /\ forall k x, Used l' k x -> k <> i /\ Used l k x.
Proof.
  intros Hs HR. unfold release_vma. rewrite at_slots by done.
  destruct (slots l !! i) as [u|] eqn:Eu; [destruct (used u) eqn:Hu|]; simpl; intros [= <- <-].
  - split_and!; [by apply put_shape|by apply Res_release|done|by rewrite put_slots, length_insert|].
    intros k x [(_ & _ & ?)|Hx]%(Used_put _ _ u); [done|done|done|done].
  - split_and!; try done. intros k x [Hx Hxu]. split; [|done]. intros ->. congruence.
  - split_and!; try done. intros k x [Hx Hxu]. split; [|done]. intros ->. congruence.
Qed.

Lemma release_all_ok fr i n l w l' w' :
  vshape l -> Res fr l w -> release_all i n l w = (l', w') ->
  Res fr l' w' /\ chunk_pa l' = chunk_pa l /\ length (slots l') = length (slots l) /\
  forall k x, Used l' k x -> ~ (i <= k < i + n)%nat /\ Used l k x.
Proof.
  revert i l w. induction n as [|n IH]; intros i l w Hs HR; simpl.
  - intros [= <- <-]. split_and!; try done. intros k x Hx. split; [lia|done].
  - destruct (release_vma l i w) as [l1 w1] eqn:E. intros E2.
    destruct (release_vma_ok fr l w i l1 w1 Hs HR E) as (Hs1 & HR1 & Hp1 & Hl1 & HU1).
    destruct (IH _ _ _ Hs1 HR1 E2) as (HR2 & Hp2 & Hl2 & HU2).
    split_and!; [done|congruence|congruence|]. intros k x Hx. apply HU2 in Hx as [Hk Hx].
    apply HU1 in Hx as [Hki Hx]. split; [lia|done].
Qed.

Lemma unused_weight f l : (forall k x, ~ Used l k x) -> zsum (held f) (slots l) = 0.
Proof.
  intros HU. apply zsum_zero. intros v [k Hk]%list_elem_of_lookup. unfold held.
  destruct (used v) eqn:E; [|done]. by destruct (HU k v).
Qed.

Lemma free_chunks_ok fr pas w :
  NoDup pas -> Forall (fun pa => pa <> 0) pas -> (forall q, q ∈ pas -> ~ f_pages fr q) ->
  Holds (mk_frame (fun q => q ∈ pas \/ f_pages fr q) (f_refs fr) (f_writers fr)) w ->
  Holds fr (fold_left (fun w pa => chunk_free pa w) pas w).
Proof.
  revert w. induction pas as [|pa pas IH]; intros w Hn Hz Ha [Ho Hp Hr Hw]; simpl in *.
  - split; [done| |done|done]. intros q. rewrite Hp. split; [|by right].
    intros [[]%not_elem_of_nil|]; done.
  - apply NoDup_cons in Hn as [Hpa Hn]. apply Forall_cons_1 in Hz as [Hz0 Hz].
    unfold chunk_free at 2. destruct (Z.eqb_spec pa 0) as [|_]; [done|]. simpl.
    destruct (free_law w pa Ho) as [Ho1 Hp1]; [apply Hp; left; left|].
    apply IH; [done|done|by intros q Hq; apply Ha; right|]. split; simpl; [done|..].
    + intros q. rewrite Hp1, Hp, elem_of_cons. specialize (Ha q). rewrite elem_of_cons in Ha.
      split; [tauto|]. intros [Hq|Hq]; (split; [|tauto]); intros ->; [done|]. apply Ha; [by left|done].
    + intros k. destruct (pages_keep_refs w pa k) as (_ & -> & _). done.
    + intros k. destruct (pages_keep_refs w pa k) as (_ & _ & _ & ->). done.
Qed.

Lemma destroy_ok fr l w :
  vshape l -> Res fr l w -> exists w', vma_list_destroy l w = (vma_list_init, w') /\ Holds fr w'.
Proof.
  intros Hs HR. unfold vma_list_destroy.
  destruct (release_all 0 (vma_capacity l) l w) as [l1 w1] eqn:E.
  destruct (release_all_ok fr 0 (vma_capacity l) l w l1 w1 Hs HR E) as ([HH Hn Hz Ha] & Hp & Hl & HU).
  assert (forall k x, ~ Used l1 k x) as Hno.
  { intros k x Hx. pose proof (HU k x Hx) as [Hk [Hx' _]]. apply lookup_lt_Some in Hx'.
    rewrite capacity_slots in Hk by done. lia. }
  eexists. split; [done|]. apply free_chunks_ok; [done|done|done|].
  destruct HH as [Ho Hpg Hr Hw]. split; simpl in *; [done|done|..]; intros k.
  - rewrite Hr. unfold list_refs. by rewrite unused_weight.
  - rewrite Hw. unfold list_writers. by rewrite unused_weight.
Qed.

(** Two lists over the same frame. *)
Lemma Res_swap fr l next w :
  NoDup (chunk_pa l) -> Forall (fun pa => pa <> 0) (chunk_pa l) ->
  (forall q, q ∈ chunk_pa l -> ~ f_pages fr q) ->
  Res (frame_with fr l) next w -> Res (frame_with fr next) l w.
Proof.
  intros Hn Hz Ha [[Ho Hp Hr Hw] Hn' Hz' Ha']. simpl in *. split; [split|..]; simpl; try done.
  - intros q. rewrite Hp. tauto.
  - intros k. rewrite Hr. lia.
  - intros k. rewrite Hw. lia.
  - intros q Hq [Hq'|Hq']; [|by apply (Ha q)]. apply (Ha' q Hq'). by left.
Qed.

(** *** Building a list *)

Lemma add_raw_vma_ok fr l src w :
  Inv l -> Res fr l w -> start src < end_ src -> (forall va a, covers src va -> ~ Maps l va a) ->
  exists b l' w', add_raw_vma hhdm l src w = Some (b, l', w') /\ Inv l' /\ Res fr l' w' /\
    if b then forall va a, Maps l' va a <-> (covers src va /\ a = attr_of src) \/ Maps l va a
    else l' = l /\ no_slot l w.
Proof.
  intros HI HR Hse Hno. unfold add_raw_vma. destruct (Z.leb_spec (end_ src) (start src)); [lia|].
  destruct (alloc_slot_ok fr l w HI HR) as (o & l1 & w1 & -> & HR1 & HI1 & He & Ho). simpl.
  destruct o as [i|]; [|destruct Ho as [-> Hno']; by exists false, l, w1].
  destruct Ho as (u & Hu & Hf). set (v := set_vma_used src true).
  destruct (add_ok l1 i u v HI1 Hu Hf) as [HI2 HM]; try done.
  { intros va a Hc Hm. apply (extends_Maps _ _ _ _ He) in Hm. by apply (Hno va a). }
  exists true, (put_at l1 i v), (retain_vma v w1). split; [done|]. split; [done|]. split.
  - eapply Res_retain; try done. apply HI1.
  - intros va a. rewrite HM. by rewrite (extends_Maps _ _ _ _ He).
Qed.

Definition PMaps (ps : list vma) (va : Z) (c : attrs) : Prop :=
  exists p, p ∈ ps /\ covers p va /\ attr_of p = c.

Lemma add_parts_ok fr next ps w :
  Inv next -> Res fr next w -> Forall (fun p => start p < end_ p) ps -> ForallOrdPairs separate ps ->
  (forall p va c, p ∈ ps -> covers p va -> ~ Maps next va c) ->
  exists b next' w', add_parts hhdm next ps w = Some (b, next', w') /\
    if b then Inv next' /\ Res fr next' w' /\
              forall va c, Maps next' va c <-> PMaps ps va c \/ Maps next va c
    else next' = vma_list_init /\ Holds fr w' /\ exists l1 w1, Res fr l1 w1 /\ no_slot l1 w1.
Proof.
  intros HI HR Hr Hsep. revert next w HI HR Hr.
  induction Hsep as [|p ps Hp Hsep IH]; intros next w HI HR Hr Hno; simpl.
  - exists true, next, w. split_and!; try done. intros va c. unfold PMaps. split; [by right|].
    intros [(p & []%not_elem_of_nil & _)|]; done.
  - apply Forall_cons_1 in Hr as [Hr0 Hr].
    destruct (add_raw_vma_ok fr next p w HI HR Hr0) as (b & l1 & w1 & -> & HI1 & HR1 & HM1).
    { intros va a. apply Hno. by left. }
    simpl. destruct b; simpl.
    + destruct (IH l1 w1 HI1 HR1 Hr) as (b & l2 & w2 & E & Hb).
      { intros q va c Hq Hc [[Hc' _]|Hm]%HM1; [|by apply (Hno q va c); [right| |]].
        rewrite List.Forall_forall in Hp. specialize (Hp q). apply list_elem_of_In in Hq.
        destruct (Hp Hq); unfold covers in *; lia. }
      exists b, l2, w2. split; [done|]. destruct b; [|done]. destruct Hb as (HI2 & HR2 & HM2).
      split_and!; try done. intros va c. rewrite HM2, HM1. unfold PMaps.
      setoid_rewrite elem_of_cons. naive_solver.
    + destruct HM1 as [-> Hfull].
      destruct (destroy_ok fr next w1 (inv_shape _ HI) HR1) as (w2 & -> & Hh).
      exists false, vma_list_init, w2. split_and!; [done|done|done|by exists next, w].
Qed.

(** What the parts of an area must satisfy for the rebuilt list to be well formed. *)
Record good_parts (v : vma) (ps : list vma) : Prop := {
  gp_range : Forall (fun p => start p < end_ p) ps;
  gp_sep : ForallOrdPairs separate ps;
  gp_inside : forall p va, p ∈ ps -> covers p va -> covers v va;
}.

Lemma rebuild_ok fr l parts i n next w :
  Inv l -> (forall k v, Used l k v -> good_parts v (parts v)) ->
  Inv next -> Res fr next w -> (i + n = vma_capacity l)%nat ->
  (forall va c, Maps next va c <-> exists k v, (k < i)%nat /\ Used l k v /\ PMaps (parts v) va c) ->
  exists b next' w', rebuild_from hhdm l parts i n next w = Some (b, next', w') /\
    if b then Inv next' /\ Res fr next' w' /\
              forall va c, Maps next' va c <-> exists k v, Used l k v /\ PMaps (parts v) va c
    else next' = vma_list_init /\ Holds fr w' /\ exists l1 w1, Res fr l1 w1 /\ no_slot l1 w1.
Proof.
  intros HI Hgood. pose proof (inv_shape l HI) as Hs.
  revert i next w. induction n as [|n IH]; intros i next w HIn HR Hin HM; simpl.
  - exists true, next, w. split_and!; try done. intros va c. rewrite HM.
    split; [naive_solver|]. intros (k & v & [Hv Hu] & Hp). exists k, v. split; [|done].
    apply lookup_lt_Some in Hv. rewrite capacity_slots in Hin by done. lia.
  - rewrite at_slots by done. destruct (lookup_lt_is_Some_2 (slots l) i) as [v Hv].
    { rewrite <- capacity_slots by done. lia. }
    rewrite Hv. destruct (used v) eqn:Hu; simpl.
    + assert (Used l i v) as HU by done. destruct (Hgood i v HU) as [Hr Hsep Hins].
      destruct (add_parts_ok fr next (parts v) w HIn HR Hr Hsep) as (b & l1 & w1 & -> & Hb).
      { intros p va c Hp Hc (k & u & Hk & HUu & (q & Hq & Hcq & _))%HM.
        apply Hins in Hc; [|done]. apply (gp_inside _ _ (Hgood k u HUu)) in Hcq; [|done].
        destruct (inv_disjoint l HI k i u v); [lia|done|done|..]; unfold covers in *; lia. }
      simpl. destruct b; simpl; [|by exists false, l1, w1].
      destruct Hb as (HI1 & HR1 & HM1). apply IH; [done|done|lia|].
      intros va c. rewrite HM1, HM. split.
      * intros [Hp|(k & u & Hk & ?)]; [exists i, v|exists k, u]; (split; [lia|done]).
      * intros (k & u & Hk & HUu & Hp). destruct (decide (k = i)) as [->|].
        -- left. by rewrite (Used_fun l i v u).
        -- right. exists k, u. split; [lia|done].
    + apply IH; [done|done|lia|]. intros va c. rewrite HM. split.
      * intros (k & u & Hk & ?). exists k, u. split; [lia|done].
      * intros (k & u & Hk & [HUu Huu] & Hp). exists k, u. split; [|done].
        destruct (decide (k = i)) as [->|]; [congruence|lia].
Qed.

End World.
