(* ===== verification/VmaOps.v ===== *)
(** The operations on virtual memory areas, proved against [VmaInv].

    For each of [vma_insert], [vma_insert_file], [vma_remove], [vma_protect],
    [vma_grow_down] and [vma_clone]: the call returns, keeps the invariant and the
    accounting of pages and references, and changes exactly the addresses it is
    asked to change, or nothing when it reports failure. *)

From stdpp Require Import base numbers list list_numbers option gmap fin_maps.
From Stdlib Require Import ZArith Lia.
From S2P Require Import Prelude Mem Pmm PmmSpec Iface Vma VmaInv.
Import Vma.

(** ** Effects on the address space *)

Definition within (s e va : Z) : bool := (s <=? va) && (va <? e).

Definition with_prot (pr : Z) (a : attrs) : attrs :=
  let '(_, fl, ty, f) := a in (pr, fl, ty, f).

(** Attributes of a new anonymous or stack area and of a new file area. *)
Definition plain_attrs (pr fl : Z) (ty : vma_type) : attrs :=
  attr_of (mk_vma true 0 0 pr fl ty zero_node 0 0 0).

Definition file_attrs (pr fl : Z) (node : vfs_node) (fs fo fz : Z) : attrs :=
  attr_of (mk_vma true 0 0 pr fl VMA_FILE node fs fo fz).

(** A call on one list, as the kernel's memory syscalls make them. [OpFork] goes
    on with a clone, the original being destroyed. *)
Inductive vma_op :=
| OpInsert (s e pr fl : Z) (ty : vma_type)
| OpInsertFile (s e pr fl : Z) (node : option vfs_node) (fs fo fz : Z)
| OpRemove (s e : Z)
| OpProtect (s e pr : Z)
| OpGrowDown (page fl : Z)
| OpFork.

Section Run.
Context {W : Type} {HS : PageSource W} {HF : VfsRefs W} (hhdm : Z).

Definition run_op (op : vma_op) (l : vma_list) (w : W) : option (bool * vma_list * W) :=
  match op with
  | OpInsert s e pr fl ty => vma_insert hhdm l s e pr fl ty w
  | OpInsertFile s e pr fl node fs fo fz => vma_insert_file hhdm l s e pr fl node fs fo fz w
  | OpRemove s e => vma_remove hhdm l s e w
  | OpProtect s e pr => vma_protect hhdm l s e pr w
  | OpGrowDown page fl => let '(b, l', _) := vma_grow_down l page fl in Some (b, l', w)
  | OpFork =>
      let* (b, dst, w) := vma_clone hhdm l w in
      if negb b then Some (false, l, w) else
      let '(_, w) := vma_list_destroy l w in Some (true, dst, w)
  end.

Fixpoint run_ops (ops : list vma_op) (l : vma_list) (w : W) : option (vma_list * W) :=
  match ops with
  | [] => Some (l, w)
  | op :: ops' => let* (_, l, w) := run_op op l w in run_ops ops' l w
  end.

End Run.

(** Everything [w] owns, as a frame. *)
Definition snapshot {W : Type} {HS : PageSource W} {HL : PageLaws W} {HF : VfsRefs W} {HV : VfsLaws W}
    (w : W) : frame :=
  mk_frame (page_owned w) (node_refs w) (node_writers w).

(** *** Parts *)

Lemma PMaps_nil va c : PMaps [] va c <-> False.
Proof. split; [|done]. by intros (p & []%not_elem_of_nil & _). Qed.

Lemma PMaps_cons p ps va c : PMaps (p :: ps) va c <-> (covers p va /\ attr_of p = c) \/ PMaps ps va c.
Proof. unfold PMaps. setoid_rewrite elem_of_cons. naive_solver. Qed.

(** The parts are given by which addresses they cover. *)
Lemma parts_inside ps v : (forall va c, PMaps ps va c -> covers v va) ->
  forall p va, p ∈ ps -> covers p va -> covers v va.
Proof. intros H p va Hp Hc. apply (H va (attr_of p)). by exists p. Qed.

Lemma remove_parts_maps s e v va c :
  s < e -> start v < end_ v ->
  PMaps (remove_parts s e v) va c <-> covers v va /\ within s e va = false /\ attr_of v = c.
Proof.
  intros Hse Hv. unfold remove_parts, within, covers.
  destruct (overlaps s e (start v) (end_ v)) eqn:E; simpl.
  - apply overlaps_spec in E.
    destruct (Z.ltb_spec (start v) s), (Z.ltb_spec e (end_ v)); simpl;
      rewrite ?PMaps_cons, PMaps_nil; unfold covers, attr_of; simpl;
      destruct (Z.leb_spec s va), (Z.ltb_spec va e); simpl; intuition (try congruence; lia).
  - apply not_true_iff_false in E. rewrite overlaps_spec in E.
    rewrite PMaps_cons, PMaps_nil. unfold covers.
    destruct (Z.leb_spec s va), (Z.ltb_spec va e); simpl; intuition (try congruence; lia).
Qed.

Lemma remove_parts_good s e v : s < e -> start v < end_ v -> good_parts v (remove_parts s e v).
Proof.
  intros Hse Hv. split; [| |apply parts_inside; intros va c Hp; by apply remove_parts_maps in Hp as [? _]];
    unfold remove_parts; destruct (overlaps s e (start v) (end_ v)) eqn:E; simpl;
    try (repeat constructor; done);
    destruct (Z.ltb_spec (start v) s), (Z.ltb_spec e (end_ v)); simpl;
    repeat constructor; simpl; unfold separate; simpl; lia.
Qed.

Lemma protect_parts_maps s e pr v va c :
  s < e -> start v < end_ v ->
  PMaps (protect_parts s e pr v) va c <->
  covers v va /\ c = if within s e va then with_prot pr (attr_of v) else attr_of v.
Proof.
  intros Hse Hv. unfold protect_parts, within, covers.
  destruct (overlaps s e (start v) (end_ v)) eqn:E; simpl.
  - apply overlaps_spec in E.
    destruct (Z.ltb_spec (start v) s), (Z.ltb_spec e (end_ v)), (Z.ltb_spec s (start v)),
      (Z.ltb_spec (end_ v) e); simpl; try lia;
      rewrite ?PMaps_cons, PMaps_nil; unfold covers, attr_of; simpl;
      destruct (Z.leb_spec s va), (Z.ltb_spec va e); simpl; intuition (try congruence; lia).
  - apply not_true_iff_false in E. rewrite overlaps_spec in E.
    rewrite PMaps_cons, PMaps_nil. unfold covers.
    destruct (Z.leb_spec s va), (Z.ltb_spec va e); simpl; intuition (try congruence; lia).
Qed.

Lemma protect_parts_good s e pr v :
  s < e -> start v < end_ v -> good_parts v (protect_parts s e pr v).
Proof.
  intros Hse Hv. split; [| |apply parts_inside; intros va c Hp; by apply protect_parts_maps in Hp as [? _]];
    unfold protect_parts; destruct (overlaps s e (start v) (end_ v)) eqn:E; simpl;
    try (repeat constructor; done); apply overlaps_spec in E;
    destruct (Z.ltb_spec (start v) s), (Z.ltb_spec e (end_ v)), (Z.ltb_spec s (start v)),
      (Z.ltb_spec (end_ v) e); simpl;
    repeat constructor; simpl; unfold separate; simpl; lia.
Qed.

Lemma whole_good v : start v < end_ v -> good_parts v [v].
Proof. 
  intros Hv. split; [by apply Forall_singleton|by repeat constructor|].
  by intros p va ->%list_elem_of_singleton.
Qed.

(** *** Operations *)

Section Ops.
Context {W : Type} {HS : PageSource W} {HL : PageLaws W} {HF : VfsRefs W} {HV : VfsLaws W}.
Variables (hhdm : Z) (fr : frame).

(** What a call keeps whether it succeeds or not, its effect when it succeeds and
    the reason when it does not. *)
Definition call_post (l l' : vma_list) (w' : W) (b : bool) (effect reason : Prop) : Prop :=
  Inv l' /\ Res fr l' w' /\ if b then effect else l' = l /\ reason.

(** While building a replacement for [l], no entry could be found. *)
Definition rebuild_failed (l : vma_list) : Prop :=
  exists (next : vma_list) (w : W), Res (frame_with fr l) next w /\ no_slot hhdm next w.

Lemma rebuild_start l parts w :
  Inv l -> (forall v, start v < end_ v -> good_parts v (parts v)) -> Res fr l w ->
  exists b next w', rebuild_from hhdm l parts 0 (vma_capacity l) vma_list_init w = Some (b, next, w') /\
    if b then Inv next /\ Res (frame_with fr l) next w' /\
              forall va c, Maps next va c <-> exists k v, Used l k v /\ PMaps (parts v) va c
    else next = vma_list_init /\ Holds (frame_with fr l) w' /\ rebuild_failed l.
Proof.
  intros HI Hgood HR. apply rebuild_ok; try done.
  - intros k v Hv. by apply Hgood, (inv_range l HI k).
  - apply init_Inv.
  - apply init_Res, HR.
  - intros va c. split; [by intros ?%init_Maps|]. intros (k & v & Hk & _). lia.
Qed.

(** The new list takes the place of the old one. *)
Lemma replace_Res l next w :
  Inv l -> NoDup (chunk_pa l) -> Forall (fun pa => pa <> 0) (chunk_pa l) ->
  (forall q, q ∈ chunk_pa l -> ~ f_pages fr q) -> Res (frame_with fr l) next w ->
  exists w', vma_list_destroy l w = (vma_list_init, w') /\ Res fr next w'.
Proof.
  intros HI Hn Hz Ha HR.
  destruct (destroy_ok (frame_with fr next) l w (inv_shape l HI) (Res_swap fr l next w Hn Hz Ha HR))
    as (w' & E & HH).
  exists w'. split; [done|]. destruct HR as [_ Hn' Hz' Ha']. split; try done.
  intros q Hq Hf. apply (Ha' q Hq). by right.
Qed.

Lemma replace_ok l parts w :
  Inv l -> (forall v, start v < end_ v -> good_parts v (parts v)) -> Res fr l w ->
  exists b l' w',
    (let* (ok, next, w) := rebuild_from hhdm l parts 0 (vma_capacity l) vma_list_init w in
     if negb ok then Some (false, l, w) else
     let* (next, w) := merge_adjacent next w in
     let '(_, w) := vma_list_destroy l w in
     Some (true, next, w)) = Some (b, l', w') /\
    call_post l l' w' b (coalesced l' /\
      forall va c, Maps l' va c <-> exists k v, Used l k v /\ PMaps (parts v) va c) (rebuild_failed l).
Proof.
  intros HI Hgood HR. pose proof HR as [_ Hn Hz Ha].
  destruct (rebuild_start l parts w HI Hgood HR) as (b & next & w1 & -> & Hb). simpl.
  destruct b; simpl.
  - destruct Hb as (HI1 & HR1 & HM1).
    destruct (merge_ok _ next w1 HI1 HR1) as (l2 & w2 & -> & HI2 & HR2 & Hco & HM2). simpl.
    destruct (replace_Res l l2 w2 HI Hn Hz Ha HR2) as (w3 & -> & HR3).
    exists true, l2, w3. split; [done|]. split; [done|]. split; [done|]. split; [done|].
    intros va c. by rewrite HM2, HM1.
  - destruct Hb as (_ & HH & Hf). exists false, l, w1. split; [done|]. split; [done|]. by split.
Qed.

Lemma insert_post l s e v w :
  Inv l -> Res fr l w -> s < e -> (forall va a, s <= va < e -> ~ Maps l va a) ->
  start v = s -> end_ v = e -> used v = true ->
  exists o l' w', alloc_slot hhdm l w = Some (o, l', w') /\
    match o with
    | None => call_post l l' w' false True (no_slot hhdm l w)
    | Some i =>
        exists l2 w2, merge_adjacent (put_at l' i v) (retain_vma v w') = Some (l2, w2) /\
          call_post l l2 w2 true (coalesced l2 /\
            forall va a, Maps l2 va a <-> if within s e va then a = attr_of v else Maps l va a) True
    end.
Proof.
  intros HI HR Hse Hno Hs He Hu.
  destruct (alloc_slot_ok hhdm fr l w HI HR) as (o & l1 & w1 & E & HR1 & HI1 & Hex & Ho).
  exists o, l1, w1. split; [done|]. destruct o as [i|]; [|by destruct Ho as [-> Hno']].
  destruct Ho as (u & Hu1 & Hf).
  destruct (add_ok l1 i u v HI1 Hu1 Hf Hu) as [HI2 HM2]; [lia| |].
  { intros va a Hc Hm. apply (extends_Maps _ _ _ _ Hex) in Hm. apply (Hno va a); [|done].
    unfold covers in Hc. lia. }
  destruct (merge_ok fr (put_at l1 i v) (retain_vma v w1) HI2) as (l2 & w2 & E2 & HI3 & HR3 & Hco & HM3).
  { by eapply Res_retain; [apply HI1|..]. }
  exists l2, w2. split; [done|]. split; [done|]. split; [done|]. split; [done|].
  intros va a. rewrite HM3, HM2, (extends_Maps _ _ _ _ Hex). unfold covers, within. rewrite Hs, He.
  specialize (Hno va a). destruct (Z.leb_spec s va), (Z.ltb_spec va e); simpl; intuition lia.
Qed.

Lemma fail_post l w' (P : vma_list -> Prop) (R : Prop) :
  Inv l -> Res fr l w' -> R ->
  exists b l' w1, Some (false, l, w') = Some (b, l', w1) /\ call_post l l' w1 b (P l') R.
Proof. intros HI HR HRs. exists false, l, w'. split; [done|]. by split_and!. Qed.

Lemma insert_ok l s e pr fl ty w :
  Inv l -> Res fr l w -> ty <> VMA_FILE ->
  exists b l' w', vma_insert hhdm l s e pr fl ty w = Some (b, l', w') /\
    call_post l l' w' b (s < e /\ (forall va a, s <= va < e -> ~ Maps l va a) /\ coalesced l' /\
      forall va a, Maps l' va a <-> if within s e va then a = plain_attrs pr fl ty else Maps l va a)
      (e <= s \/ (exists va a, s <= va < e /\ Maps l va a) \/ no_slot hhdm l w).
Proof.
  intros HI HR Hty. unfold vma_insert, add_raw.
  destruct (Z.leb_spec e s) as [|Hse]; [apply fail_post; by auto|].
  destruct (vma_overlaps l s e) eqn:E; [apply overlaps_true in E; [|done..]; apply fail_post; by auto|].
  destruct (overlaps_false l s e HI E) as [_ Hno].
  set (v := mk_vma true s e pr fl ty zero_node 0 0 0).
  assert (forall w1, retain_vma v w1 = w1) as Hkeep.
  { intros w1. unfold retain_vma. by rewrite bool_decide_eq_false_2. }
  destruct (insert_post l s e v w HI HR Hse Hno eq_refl eq_refl eq_refl) as (o & l1 & w1 & -> & Ho).
  simpl. destruct o as [i|]; simpl; [|destruct Ho as (? & ? & -> & ?); apply fail_post; by auto].
  destruct Ho as (l2 & w2 & E2 & Hpost). rewrite Hkeep in E2. rewrite E2. simpl.
  exists true, l2, w2. split; [done|]. destruct Hpost as (? & ? & Hco & HM). by split_and!.
Qed.

Lemma insert_file_ok l s e pr fl node fs fo fz w :
  Inv l -> Res fr l w ->
  exists b l' w', vma_insert_file hhdm l s e pr fl node fs fo fz w = Some (b, l', w') /\
    call_post l l' w' b (exists nd, node = Some nd /\ is_dir nd = false /\ device nd = RAMFS_DEV_NONE /\
      s < e /\ (forall va a, s <= va < e -> ~ Maps l va a) /\ coalesced l' /\
      forall va a, Maps l' va a <->
        if within s e va then a = file_attrs pr fl nd fs fo fz else Maps l va a)
      (node = None \/ (exists nd, node = Some nd /\ (is_dir nd = true \/ device nd <> RAMFS_DEV_NONE)) \/
       e <= s \/ (exists va a, s <= va < e /\ Maps l va a) \/ no_slot hhdm l w).
Proof.
  intros HI HR. unfold vma_insert_file. destruct node as [nd|]; [|apply fail_post; by auto].
  destruct (Z.leb_spec e s) as [|Hse]; [apply fail_post; by auto|].
  destruct (is_dir nd) eqn:Hd; [apply fail_post; by eauto 6|].
  destruct (Z.eqb_spec (device nd) RAMFS_DEV_NONE) as [Hdev|]; [|apply fail_post; by eauto 6]. simpl.
  destruct (vma_overlaps l s e) eqn:E; [apply overlaps_true in E; [|done..]; apply fail_post; by auto|].
  destruct (overlaps_false l s e HI E) as [_ Hno].
  set (v := mk_vma true s e pr fl VMA_FILE nd fs fo fz).
  destruct (insert_post l s e v w HI HR Hse Hno eq_refl eq_refl eq_refl) as (o & l1 & w1 & -> & Ho).
  simpl. destruct o as [i|]; simpl; [|destruct Ho as (? & ? & -> & ?); apply fail_post; by auto 7].
  destruct Ho as (l2 & w2 & E2 & Hpost). fold v. unfold retain_vma in E2. simpl in E2. rewrite E2. simpl.
  exists true, l2, w2. split; [done|]. destruct Hpost as (? & ? & Hco & HM). split_and!; try done.
  exists nd. by split_and!.
Qed.

Lemma remove_ok l s e w :
  Inv l -> Res fr l w ->
  exists b l' w', vma_remove hhdm l s e w = Some (b, l', w') /\
    call_post l l' w' b (s < e /\ coalesced l' /\
      forall va a, Maps l' va a <-> within s e va = false /\ Maps l va a)
      (e <= s \/ rebuild_failed l).
Proof.
  intros HI HR. unfold vma_remove. destruct (Z.leb_spec e s) as [|Hse]; [apply fail_post; by auto|].
  destruct (replace_ok l (remove_parts s e) w HI) as (b & l' & w' & E & HI' & HR' & Hb);
    [by intros v; apply remove_parts_good|done|].
  exists b, l', w'. split; [done|]. split; [done|]. split; [done|]. destruct b; [|naive_solver].
  destruct Hb as [Hco HM]. split; [done|]. split; [done|]. intros va a. rewrite HM. unfold Maps. split.
  - intros (k & v & Hv & Hp). apply remove_parts_maps in Hp; [naive_solver|done|by apply (inv_range l HI k)].
  - intros (Hw & k & v & Hv & Hc & Ha). exists k, v. split; [done|].
    apply remove_parts_maps; [done|by apply (inv_range l HI k)|done].
Qed.

Lemma protect_ok l s e pr w :
  Inv l -> Res fr l w ->
  exists b l' w', vma_protect hhdm l s e pr w = Some (b, l', w') /\
    call_post l l' w' b (s < e /\ coalesced l' /\
      forall va a, Maps l' va a <->
        if within s e va then exists a0, Maps l va a0 /\ a = with_prot pr a0 else Maps l va a)
      (e <= s \/ rebuild_failed l).
Proof.
  intros HI HR. unfold vma_protect. destruct (Z.leb_spec e s) as [|Hse]; [apply fail_post; by auto|].
  destruct (replace_ok l (protect_parts s e pr) w HI) as (b & l' & w' & E & HI' & HR' & Hb);
    [by intros v; apply protect_parts_good|done|].
  exists b, l', w'. split; [done|]. split; [done|]. split; [done|]. destruct b; [|naive_solver].
  destruct Hb as [Hco HM]. split; [done|]. split; [done|]. intros va a. rewrite HM.
  assert (forall k v, Used l k v -> PMaps (protect_parts s e pr v) va a <->
    covers v va /\ a = if within s e va then with_prot pr (attr_of v) else attr_of v) as Hp.
  { intros k v Hv. apply protect_parts_maps; [done|by apply (inv_range l HI k)]. }
  unfold Maps. destruct (within s e va).
  - split.
    + intros (k & v & Hv & Hpm). apply (Hp k v Hv) in Hpm as [Hc ->]. eauto 7.
    + intros (a0 & (k & v & Hv & Hc & <-) & ->). exists k, v. by rewrite (Hp k v Hv).
  - split.
    + intros (k & v & Hv & Hpm). apply (Hp k v Hv) in Hpm as [Hc ->]. eauto 6.
    + intros (k & v & Hv & Hc & <-). exists k, v. by rewrite (Hp k v Hv).
Qed.

(** A clone holds its own pages and references, next to those of the original. *)
Lemma clone_ok l w :
  Inv l -> Res fr l w ->
  exists b dst w', vma_clone hhdm l w = Some (b, dst, w') /\
    if b then Inv dst /\ Res (frame_with fr l) dst w' /\ forall va a, Maps dst va a <-> Maps l va a
    else dst = vma_list_init /\ Res fr l w' /\ rebuild_failed l.
Proof.
  intros HI HR. unfold vma_clone.
  destruct (rebuild_start l (fun v => [v]) w HI whole_good HR) as (b & dst & w' & E & Hb).
  exists b, dst, w'. split; [done|]. destruct b.
  - destruct Hb as (HI' & HR' & HM). split_and!; try done. intros va a. rewrite HM. unfold Maps.
    split; intros (k & v & Hv & Hp); exists k, v; (split; [done|]);
      rewrite PMaps_cons, PMaps_nil in *; tauto.
  - destruct Hb as (-> & HH & Hf). split; [done|]. split; [by destruct HR|done].
Qed.

(** Extending the area at [i] downwards over unmapped addresses. *)
Lemma grow_put l i v page :
  Inv l -> Used l i v -> page < start v -> (forall va a, page <= va < start v -> ~ Maps l va a) ->
  let l' := put_at l i (set_vma_start v page) in
  Inv l' /\
  forall va a, Maps l' va a <-> if within page (start v) va then a = attr_of v else Maps l va a.
Proof.
  intros HI HU Hlt Hno l'. pose proof (inv_range l HI i v HU) as Hr. set (v' := set_vma_start v page).
  assert (forall j x, Used l' j x <-> (j = i /\ x = v' /\ used v' = true) \/ (j <> i /\ Used l j x)) as HU'
    by (intros j x; exact (Used_put l i v v' j x (inv_shape l HI) (proj1 HU))).
  assert (used v' = true) as Hu' by apply HU.
  assert (forall va, covers v' va <-> within page (start v) va = true \/ covers v va) as Hcov.
  { intros va. unfold covers, within. simpl.
    destruct (Z.leb_spec page va), (Z.ltb_spec va (start v)); simpl; intuition lia. }
  assert (forall j x, j <> i -> Used l j x -> separate v' x) as Hsep.
  { intros j x Hji Hx. pose proof (inv_disjoint l HI j i x v Hji Hx HU) as Hd.
    pose proof (inv_range l HI j x Hx). unfold separate in *. simpl. destruct Hd as [Hd|Hd]; [|by left].
    destruct (Z.le_gt_cases (end_ x) page); [by right|]. exfalso.
    apply (Hno (Z.max page (start x)) (attr_of x)); [lia|]. exists j, x. unfold covers.
    split; [done|]. split; [lia|done]. }
  split; [split|].
  - apply put_shape, HI.
  - intros j x [(-> & -> & _)|[_ Hx]]%HU'; [simpl; lia|by apply (inv_range l HI j)].
  - intros j k x y Hne [(-> & -> & _)|[Hj Hx]]%HU' [(-> & -> & _)|[Hk Hy]]%HU'.
    + done.
    + by apply (Hsep k).
    + specialize (Hsep j x Hj Hx). unfold separate in *. tauto.
    + by apply (inv_disjoint l HI j k).
  - intros va a. unfold Maps. setoid_rewrite HU'. specialize (Hcov va).
    destruct (within page (start v) va) eqn:Ew; split.
    + intros (j & x & [(-> & -> & _)|[Hj Hx]] & Hc & <-); [done|]. exfalso.
      apply (Hno va (attr_of x)); [unfold within in Ew; zbool; lia|by exists j, x].
    + intros ->. exists i, v'. split; [by left|]. split; [tauto|done].
    + intros (j & x & [(-> & -> & _)|[Hj Hx]] & Hc & <-); [|by exists j, x].
      exists i, v. split; [done|]. split; [|done]. destruct Hcov as [Hcov _]. naive_solver.
    + intros (j & x & Hx & Hc & <-). destruct (decide (j = i)) as [->|Hji].
      * rewrite (Used_fun l i x v) in * by done. exists i, v'. split; [by left|]. split; [tauto|done].
      * exists j, x. split; [by right|done].
Qed.

(** Growing on the list alone: it uses neither pages nor nodes. *)
Definition grown (l l' : vma_list) (page fl : Z) (out : option vma) : Prop :=
  exists i v, Used l i v /\ l' = put_at l i (set_vma_start v page) /\ out = Some (set_vma_start v page) /\
    page < start v <= page + (MAX_GROWDOWN_PAGES + 1) * PAGE_SIZE /\ flags v .& fl = fl /\
    (forall va a, page <= va < start v -> ~ Maps l va a) /\
    forall va a, Maps l' va a <-> if within page (start v) va then a = attr_of v else Maps l va a.

Definition cannot_grow (l : vma_list) (page fl : Z) : Prop :=
  page .& (PAGE_SIZE - 1) <> 0 \/
  (forall i v, Used l i v -> page < start v -> flags v .& fl <> fl) \/
  exists i v, Used l i v /\ page < start v /\ flags v .& fl = fl /\
    (start v < page + PAGE_SIZE \/ page + MAX_GROWDOWN_PAGES * PAGE_SIZE < start v \/
     exists va a, page <= va < start v /\ Maps l va a).

Lemma grow_down_list l page fl b l' out :
  Inv l -> vma_grow_down l page fl = (b, l', out) ->
  Inv l' /\ if b then grown l l' page fl out else l' = l /\ cannot_grow l page fl.
Proof.
  intros HI. unfold vma_grow_down.
  destruct (Z.eqb_spec (page .& (PAGE_SIZE - 1)) 0); simpl; [|intros [= <- <- _]; split_and!; [done..|by left]].
  destruct (first_from _ _ _) as [i|] eqn:E.
  2: { intros [= <- <- _]. split_and!; [done..|]. right. left. intros i v [Hv Hu] Hlt Hfl.
       apply (scan_None _ _ (inv_shape l HI) E) in Hv. rewrite Hu, Hfl, Z.eqb_refl in Hv. simpl in Hv.
       destruct (Z.leb_spec (start v) page); [lia|done]. }
  rewrite at_slots by apply HI. apply scan_Some in E as (v & Hv & Hp); [|apply HI]. rewrite Hv.
  apply negb_true_iff in Hp. zbool.
  destruct ((_ =? 0) || _) eqn:Eg.
  { intros [= <- <- _]. split_and!; [done..|]. right. right. exists i, v. split_and!; try done.
    apply orb_true_iff in Eg as [Eg|Eg]; zbool; unfold MAX_GROWDOWN_PAGES, PAGE_SIZE in *; [left; dmlia|].
    right. left. dmlia. }
  zbool. destruct (vma_overlaps l page (start v)) eqn:Eo.
  { intros [= <- <- _]. split_and!; [done..|]. right. right. exists i, v. split_and!; try done.
    right. right. by apply overlaps_true. }
  intros [= <- <- <-].
  destruct (overlaps_false l page (start v) HI Eo) as [_ Hno].
  assert (Used l i v) as HU by done. destruct (grow_put l i v page HI HU ltac:(lia) Hno) as [HI' HM].
  split; [done|]. exists i, v. split_and!; try done; unfold MAX_GROWDOWN_PAGES, PAGE_SIZE in *; dmlia.
Qed.

Lemma grown_lookup l l' page fl out : Inv l -> Inv l' -> grown l l' page fl out -> vma_lookup l' page = out.
Proof.
  intros HI HI' (i & v & HU & -> & -> & Hlt & _). pose proof (inv_range l HI i v HU).
  apply (lookup_used _ i); [done| |unfold covers; simpl; lia].
  apply (Used_put l i v); [apply HI|apply HU|]. left. split_and!; [done..|apply HU].
Qed.

Lemma grow_down_ok l page fl w b l' out :
  Inv l -> Res fr l w -> vma_grow_down l page fl = (b, l', out) ->
  call_post l l' w b (exists v, out = Some (set_vma_start v page) /\
    Maps l (start v) (attr_of v) /\ page < start v <= page + (MAX_GROWDOWN_PAGES + 1) * PAGE_SIZE /\
    flags v .& fl = fl /\ (forall va a, page <= va < start v -> ~ Maps l va a) /\
    forall va a, Maps l' va a <-> if within page (start v) va then a = attr_of v else Maps l va a)
    (cannot_grow l page fl).
Proof.
  intros HI HR E. destruct (grow_down_list l page fl b l' out HI E) as [HI' Hb]. split; [done|].
  destruct b; [|destruct Hb as [-> ?]; done].
  destruct Hb as (i & v & HU & -> & -> & Hlt & Hfl & Hno & HM). split.
  - eapply Res_put; [apply HI|exact HR|apply HU|split; [by destruct HR as [[]]|done]| |];
      intros k; unfold held; simpl; unfold ref_weight, writer_weight; simpl; lia.
  - exists v. split_and!; try done; try lia. pose proof (inv_range l HI i v HU).
    exists i, v. split; [done|]. unfold covers. split; [lia|done].
Qed.

Lemma run_op_ok op l w :
  (forall s e pr fl, op <> OpInsert s e pr fl VMA_FILE) -> Inv l -> Res fr l w ->
  exists b l' w', run_op hhdm op l w = Some (b, l', w') /\ Inv l' /\ Res fr l' w'.
Proof.
  intros Hop HI HR. destruct op as [s e pr fl ty|s e pr fl nd fs fo fz|s e|s e pr|page fl|]; simpl.
  - destruct (insert_ok l s e pr fl ty w HI HR) as (b & l' & w' & E & HI' & HR' & _); [|eauto 7].
    intros ->. by apply (Hop s e pr fl).
  - destruct (insert_file_ok l s e pr fl nd fs fo fz w HI HR) as (b & l' & w' & E & HI' & HR' & _). eauto 7.
  - destruct (remove_ok l s e w HI HR) as (b & l' & w' & E & HI' & HR' & _). eauto 7.
  - destruct (protect_ok l s e pr w HI HR) as (b & l' & w' & E & HI' & HR' & _). eauto 7.
  - destruct (vma_grow_down l page fl) as [[b l'] out] eqn:E.
    destruct (grow_down_ok l page fl w b l' out HI HR E) as (HI' & HR' & _). eauto 7.
  - pose proof HR as [_ Hn Hz Ha].
    destruct (clone_ok l w HI HR) as (b & dst & w' & -> & Hb). simpl. destruct b; simpl.
    + destruct Hb as (HI' & HR' & _).
      destruct (replace_Res l dst w' HI Hn Hz Ha HR') as (w2 & -> & HR2). eauto 7.
    + destruct Hb as (_ & HR' & _). eauto 7.
Qed.

Lemma run_ops_ok ops l w :
  (forall s e pr fl, OpInsert s e pr fl VMA_FILE ∉ ops) -> Inv l -> Res fr l w ->
  exists l' w', run_ops hhdm ops l w = Some (l', w') /\ Inv l' /\ Res fr l' w'.
Proof.
  revert l w. induction ops as [|op ops IH]; intros l w Hops HI HR; simpl; [by exists l, w|].
  destruct (run_op_ok op l w) as (b & l1 & w1 & -> & HI1 & HR1); try done.
  { intros s e pr fl ->. apply (Hops s e pr fl). by left. }
  simpl. apply IH; try done. intros s e pr fl Hin. apply (Hops s e pr fl). by right.
Qed.

End Ops.

(** ** Properties *)

(** A kernel with 39 available pages and a list with an anonymous area, a shared
    writable file area and a stack. *)
Definition sample_hhdm : Z := 0xffff000000000000.
Definition sample_kernel : kernel := mk_kernel PmmSpec.sample (fun _ => 0) [].
Definition sample_file : vfs_node := mk_vfs_node VFS_RAMFS 42 false true 0 0x8180 1 0x8000 3.
Definition sample_ops : list vma_op :=
  [OpInsert 0x1000 0x5000 3 0x22 VMA_ANON;
   OpInsertFile 0x900000 0x902000 3 1 (Some sample_file) 0x900000 0 0x2000;
   OpInsert 0x7fff0000 0x7fff4000 3 0x122 VMA_STACK].

(** The list and kernel after [sample_ops], handed to [f]. *)
Definition on_sample {A} (d : A) (f : vma_list -> kernel -> A) : A :=
  match run_ops sample_hhdm sample_ops vma_list_init sample_kernel with
  | Some (l, w) => f l w
  | None => d
  end.

Lemma snapshot_Holds {W : Type} {HS : PageSource W} {HL : PageLaws W} {HF : VfsRefs W} {HV : VfsLaws W}
    (w : W) : page_ok w -> Holds (snapshot w) w.
Proof. by split. Qed.

Lemma on_sample_ok (P : vma_list -> kernel -> Prop) :
  (forall l w, Inv l -> Res (snapshot sample_kernel) l w -> P l w) -> on_sample False P.
Proof.
  intros HP. unfold on_sample.
  destruct (run_ops_ok sample_hhdm (snapshot sample_kernel) sample_ops vma_list_init sample_kernel)
    as (l & w & -> & HI & HR); [|apply init_Inv| |by apply HP].
  - intros s e pr fl Hin. unfold sample_ops in Hin. repeat apply elem_of_cons in Hin as [?|Hin]; try done.
    by apply not_elem_of_nil in Hin.
  - apply init_Res, snapshot_Holds. apply PmmSpec.sample_ok.
Qed.

Lemma on_sample_if (f : vma_list -> kernel -> bool) (P : vma_list -> kernel -> Prop) :
  on_sample false f = true ->
  (forall l w, Inv l -> Res (snapshot sample_kernel) l w -> f l w = true -> P l w) -> on_sample False P.
Proof.
  intros Hf HP. assert (H : on_sample False (fun l w => f l w = true -> P l w))
    by (apply on_sample_ok; exact HP).
  revert Hf H. unfold on_sample. generalize (run_ops sample_hhdm sample_ops vma_list_init sample_kernel).
  intros [[l w]|] Hf H; [exact (H Hf)|discriminate Hf].
Qed.

(** The Boolean a call on the sample returned. *)
Definition succeeded {W} (r : option (bool * vma_list * W)) : bool :=
  match r with Some (b, _, _) => b | None => false end.

Section Claims.
Context {W : Type} {HS : PageSource W} {HL : PageLaws W} {HF : VfsRefs W} {HV : VfsLaws W}.

(** C19: any sequence of the list's operations, successful or not, started on an
    empty list returns with the invariant intact, and destroying the list
    afterwards gives back every page and every file and shared-writer reference:
    the kernel owns exactly what it owned before. *)
Theorem vma_ops_no_leak (hhdm : Z) (ops : list vma_op) (w : W) :
  page_ok w -> (forall s e pr fl, OpInsert s e pr fl VMA_FILE ∉ ops) ->
  exists l1 w1 w2, run_ops hhdm ops vma_list_init w = Some (l1, w1) /\ Inv l1 /\
    vma_list_destroy l1 w1 = (vma_list_init, w2) /\ page_ok w2 /\
    (forall pa, page_owned w2 pa <-> page_owned w pa) /\
    (forall k, node_refs w2 k = node_refs w k) /\ (forall k, node_writers w2 k = node_writers w k).
Proof.
  intros Hok Hops.
  destruct (run_ops_ok hhdm (snapshot w) ops vma_list_init w) as (l1 & w1 & E & HI & HR);
    [done|apply init_Inv|by apply init_Res, snapshot_Holds|].
  destruct (destroy_ok (snapshot w) l1 w1 (inv_shape l1 HI) HR) as (w2 & E2 & [Ho Hp Hr Hw]).
  exists l1, w1, w2. by split_and!.
Qed.

(** [vma_insert] returns; it succeeds exactly by mapping the requested range,
    which must have been unmapped, with the requested attributes and coalescing
    fully; it fails only for an empty range, an overlap or lack of memory, and
    then leaves the list as it was. *)
Theorem vma_insert_correct (hhdm : Z) (fr : frame) (l : vma_list) (s e pr fl : Z) (ty : vma_type) (w : W) :
  Inv l -> Res fr l w -> ty <> VMA_FILE ->
  exists b l' w', vma_insert hhdm l s e pr fl ty w = Some (b, l', w') /\
    call_post fr l l' w' b
      (s < e /\ (forall va a, s <= va < e -> ~ Maps l va a) /\ coalesced l' /\
       forall va a, Maps l' va a <-> if within s e va then a = plain_attrs pr fl ty else Maps l va a)
      (e <= s \/ (exists va a, s <= va < e /\ Maps l va a) \/ no_slot hhdm l w).
Proof. apply insert_ok. Qed.

(** [vma_insert_file] maps a regular file over an unmapped range in the same
    way, taking the references the new area holds; it refuses directories,
    devices and a missing node. *)
Theorem vma_insert_file_correct (hhdm : Z) (fr : frame) (l : vma_list) (s e pr fl : Z)
    (node : option vfs_node) (fs fo fz : Z) (w : W) :
  Inv l -> Res fr l w ->
  exists b l' w', vma_insert_file hhdm l s e pr fl node fs fo fz w = Some (b, l', w') /\
    call_post fr l l' w' b
      (exists nd, node = Some nd /\ is_dir nd = false /\ device nd = RAMFS_DEV_NONE /\
       s < e /\ (forall va a, s <= va < e -> ~ Maps l va a) /\ coalesced l' /\
       forall va a, Maps l' va a <->
         if within s e va then a = file_attrs pr fl nd fs fo fz else Maps l va a)
      (node = None \/ (exists nd, node = Some nd /\ (is_dir nd = true \/ device nd <> RAMFS_DEV_NONE)) \/
       e <= s \/ (exists va a, s <= va < e /\ Maps l va a) \/ no_slot hhdm l w).
Proof. apply insert_file_ok. Qed.

(** C22: [vma_remove] unmaps exactly the addresses of the range and leaves the
    attributes of all others alone, splitting areas as needed; it fails only for
    an empty range or when no entry could be allocated for the new list, and
    then nothing changes. *)
Theorem vma_remove_correct (hhdm : Z) (fr : frame) (l : vma_list) (s e : Z) (w : W) :
  Inv l -> Res fr l w ->
  exists b l' w', vma_remove hhdm l s e w = Some (b, l', w') /\
    call_post fr l l' w' b
      (s < e /\ coalesced l' /\ forall va a, Maps l' va a <-> within s e va = false /\ Maps l va a)
      (e <= s \/ rebuild_failed (W := W) hhdm fr l).
Proof. apply remove_ok. Qed.

(** [vma_protect] changes the protection of exactly the mapped addresses of
    the range and nothing else. *)
Theorem vma_protect_correct (hhdm : Z) (fr : frame) (l : vma_list) (s e pr : Z) (w : W) :
  Inv l -> Res fr l w ->
  exists b l' w', vma_protect hhdm l s e pr w = Some (b, l', w') /\
    call_post fr l l' w' b
      (s < e /\ coalesced l' /\
       forall va a, Maps l' va a <->
         if within s e va then exists a0, Maps l va a0 /\ a = with_prot pr a0 else Maps l va a)
      (e <= s \/ rebuild_failed (W := W) hhdm fr l).
Proof. apply protect_ok. Qed.

(** [vma_clone] builds a list that maps exactly what the original maps and
    holds its own pages and references; on failure everything taken is given
    back. *)
Theorem vma_clone_correct (hhdm : Z) (fr : frame) (l : vma_list) (w : W) :
  Inv l -> Res fr l w ->
  exists b dst w', vma_clone hhdm l w = Some (b, dst, w') /\
    if b then Inv dst /\ Res (frame_with fr l) dst w' /\ forall va a, Maps dst va a <-> Maps l va a
    else dst = vma_list_init /\ Res fr l w' /\ rebuild_failed (W := W) hhdm fr l.
Proof. apply clone_ok. Qed.

(** [vma_grow_down] extends an area with the required flags down to the page
    over unmapped addresses only, within the growth limit; otherwise the list
    is unchanged for one of the reasons listed. *)
Theorem vma_grow_down_correct (fr : frame) (l : vma_list) (page fl : Z) (w : W) :
  Inv l -> Res fr l w ->
  let '(b, l', out) := vma_grow_down l page fl in
  call_post fr l l' w b
    (exists v, out = Some (set_vma_start v page) /\ Maps l (start v) (attr_of v) /\
       page < start v <= page + (MAX_GROWDOWN_PAGES + 1) * PAGE_SIZE /\ flags v .& fl = fl /\
       (forall va a, page <= va < start v -> ~ Maps l va a) /\
       forall va a, Maps l' va a <-> if within page (start v) va then a = attr_of v else Maps l va a)
    (page .& (PAGE_SIZE - 1) <> 0 \/
     (forall i v, Used l i v -> page < start v -> flags v .& fl <> fl) \/
     exists i v, Used l i v /\ page < start v /\ flags v .& fl = fl /\
       (start v < page + PAGE_SIZE \/ page + MAX_GROWDOWN_PAGES * PAGE_SIZE < start v \/
        exists va a, page <= va < start v /\ Maps l va a)).
Proof.
  intros HI HR. destruct (vma_grow_down l page fl) as [[b l'] out] eqn:E.
  by apply (grow_down_ok fr l page fl w b l' out).
Qed.

(** [merge_adjacent] terminates, maps the same addresses with the same
    attributes, and leaves no two adjacent areas that could be one, although its
    inner loop resumes at entry 1 after each merge. *)
Theorem merge_adjacent_correct (fr : frame) (l : vma_list) (w : W) :
  Inv l -> Res fr l w ->
  exists l' w', merge_adjacent l w = Some (l', w') /\ Inv l' /\ Res fr l' w' /\ coalesced l' /\
    forall va c, Maps l' va c <-> Maps l va c.
Proof. apply merge_ok. Qed.

End Claims.

(** [vma_lookup] finds the area of a mapped address and only then; the
    attributes of an address are unique. *)
Theorem vma_lookup_correct (l : vma_list) (va : Z) :
  Inv l ->
  (forall a b, Maps l va a -> Maps l va b -> a = b) /\
  match vma_lookup l va with
  | Some v => covers v va /\ Maps l va (attr_of v)
  | None => forall a, ~ Maps l va a
  end.
Proof. intros HI. split; [by intros a b; apply Maps_fun|by apply lookup_ok]. Qed.

(** *** Witnesses *)

Lemma vma_ops_no_leak_witness :
  exists l1 w1 w2, run_ops sample_hhdm sample_ops vma_list_init sample_kernel = Some (l1, w1) /\
    vma_list_destroy l1 w1 = (vma_list_init, w2) /\
    forall pa, page_owned w2 pa <-> page_owned sample_kernel pa.
Proof.
  destruct (vma_ops_no_leak sample_hhdm sample_ops sample_kernel) as (l1 & w1 & w2 & E & _ & E2 & _ & Hp & _).
  - apply PmmSpec.sample_ok.
  - intros s e pr fl Hin. unfold sample_ops in Hin. repeat apply elem_of_cons in Hin as [?|Hin]; try done.
    by apply not_elem_of_nil in Hin.
  - exists l1, w1, w2. exact (conj E (conj E2 Hp)).
Defined.

Lemma vma_insert_correct_witness :
  on_sample False (fun l w => exists b l' w',
    vma_insert sample_hhdm l 0x5000 0x7000 3 0x22 VMA_ANON w = Some (b, l', w') /\ Inv l') /\
  on_sample false (fun l w => succeeded (vma_insert sample_hhdm l 0x5000 0x7000 3 0x22 VMA_ANON w)) = true.
Proof.
  split; [|by vm_compute]. apply on_sample_ok. intros l w HI HR.
  destruct (vma_insert_correct sample_hhdm _ l 0x5000 0x7000 3 0x22 VMA_ANON w HI HR ltac:(done))
    as (b & l' & w' & E & HI' & _). exists b, l', w'. exact (conj E HI').
Defined.

Lemma vma_insert_file_correct_witness :
  on_sample False (fun l w => exists b l' w',
    vma_insert_file sample_hhdm l 0x902000 0x903000 3 1 (Some sample_file) 0x900000 0 0x2000 w
      = Some (b, l', w') /\ Inv l') /\
  on_sample false (fun l w => succeeded
    (vma_insert_file sample_hhdm l 0x902000 0x903000 3 1 (Some sample_file) 0x900000 0 0x2000 w)) = true.
Proof.
  split; [|by vm_compute]. apply on_sample_ok. intros l w HI HR.
  destruct (vma_insert_file_correct sample_hhdm _ l 0x902000 0x903000 3 1 (Some sample_file)
    0x900000 0 0x2000 w HI HR) as (b & l' & w' & E & HI' & _). exists b, l', w'. exact (conj E HI').
Defined.

Lemma vma_remove_correct_witness :
  on_sample False (fun l w => exists b l' w',
    vma_remove sample_hhdm l 0x2000 0x901000 w = Some (b, l', w') /\ Inv l') /\
  on_sample false (fun l w => succeeded (vma_remove sample_hhdm l 0x2000 0x901000 w)) = true.
Proof.
  split; [|by vm_compute]. apply on_sample_ok. intros l w HI HR.
  destruct (vma_remove_correct sample_hhdm _ l 0x2000 0x901000 w HI HR) as (b & l' & w' & E & HI' & _).
  exists b, l', w'. exact (conj E HI').
Defined.

Lemma vma_protect_correct_witness :
  on_sample False (fun l w => exists b l' w',
    vma_protect sample_hhdm l 0x2000 0x901000 1 w = Some (b, l', w') /\ Inv l') /\
  on_sample false (fun l w => succeeded (vma_protect sample_hhdm l 0x2000 0x901000 1 w)) = true.
Proof.
  split; [|by vm_compute]. apply on_sample_ok. intros l w HI HR.
  destruct (vma_protect_correct sample_hhdm _ l 0x2000 0x901000 1 w HI HR) as (b & l' & w' & E & HI' & _).
  exists b, l', w'. exact (conj E HI').
Defined.

Lemma vma_clone_correct_witness :
  on_sample False (fun l w => exists b dst w', vma_clone sample_hhdm l w = Some (b, dst, w')) /\
  on_sample false (fun l w => succeeded (vma_clone sample_hhdm l w)) = true.
Proof.
  split; [|by vm_compute]. apply on_sample_ok. intros l w HI HR.
  destruct (vma_clone_correct sample_hhdm _ l w HI HR) as (b & dst & w' & E & _). exists b, dst, w'. exact E.
Defined.

Lemma vma_grow_down_correct_witness :
  on_sample False (fun l w => Inv (vma_grow_down l 0x7ffee000 0x100).1.2) /\
  on_sample false (fun l w => (vma_grow_down l 0x7ffee000 0x100).1.1) = true.
Proof.
  split; [|by vm_compute]. apply on_sample_ok. intros l w HI HR.
  pose proof (vma_grow_down_correct _ l 0x7ffee000 0x100 w HI HR) as H.
  destruct (vma_grow_down l 0x7ffee000 0x100) as [[b l'] out]. apply H.
Defined.

Lemma merge_adjacent_correct_witness :
  on_sample False (fun l w => exists l' w', merge_adjacent l w = Some (l', w') /\ coalesced l').
Proof.
  apply on_sample_ok. intros l w HI HR.
  destruct (merge_adjacent_correct _ l w HI HR) as (l' & w' & E & _ & _ & Hco & _). exists l', w'. exact (conj E Hco).
Defined.

Lemma vma_lookup_correct_witness :
  on_sample False (fun l w => match vma_lookup l 0x901fff with
    | Some v => covers v 0x901fff | None => forall a, ~ Maps l 0x901fff a end) /\
  on_sample None (fun l _ => start <$> vma_lookup l 0x901fff) = Some 0x900000.
Proof.
  split; [|by vm_compute]. apply on_sample_ok. intros l w HI HR.
  pose proof (vma_lookup_correct l 0x901fff HI) as [_ H]. destruct (vma_lookup l 0x901fff); [apply H|exact H].
Defined.

(** With two areas that may grow, a fault below the lower one is answered from
    the first entry in the array: it is refused because the other area is too
    far, although the area just above the faulting page could grow. *)
Lemma grow_down_first_entry :
  let ops := [OpInsert 0x7fff0000 0x7fff4000 3 0x122 VMA_STACK;
              OpInsert 0x10000 0x14000 3 0x122 VMA_ANON] in
  match run_ops sample_hhdm ops vma_list_init sample_kernel with
  | Some (l, _) => (vma_grow_down l 0xf000 0x100).1.1 = false /\ vma_overlaps l 0xf000 0x10000 = false
  | None => False
  end.
Proof. by vm_compute. Qed.
