(* ===== verification/Policy.v ===== *)
(** Capability policies ([kernel/src/proc/policy.c]): the manifests a domain can
    confine itself with and the checks the kernel makes against them on system
    calls, paths, outgoing packets and memory. *)

From stdpp Require Import base numbers list list_numbers strings option.
From Stdlib Require Import ZArith Lia Ascii String.
From S2P Require Import Prelude Mem Pmm PmmSpec Iface Vma.
Import Vma Kstr.

Module Policy.

Open Scope string_scope.
Open Scope char_scope.
Open Scope list_scope.
Open Scope Z_scope.
Open Scope c_scope.

Definition IPPROTO_TCP : Z := 6.
Definition IPPROTO_UDP : Z := 17.
Definition CELL_PATH_MAX : nat := 256.
Definition CELL_FS_RULE_CAP : nat := 8.
Definition CELL_FS_READ : Z := 1.
Definition CELL_FS_WRITE : Z := 2.
Definition CELL_FS_EXEC : Z := 4.
Definition CAP_ENFORCE : Z := 1.
Definition CAP_EGRESS_ENFORCE : Z := 2.

Record fs_rule := mk_rule { rule_path : string; rule_rights : Z }.

(** [fs_rules] holds the first [fs_rule_count] entries of the array. *)
Record capability_set := mk_caps {
  syscall_allow : list Z;
  fs_rights : Z;
  cap_flags : Z;
  memory_page_cap : Z;
  max_domains : Z;
  fs_rules : list fs_rule;
  egress_ip : Z;
  egress_port : Z;
  egress_proto : Z;
  egress_prefix : Z;
}.

Definition fs_rule_count (c : capability_set) : nat := List.length (fs_rules c).

Definition zero_caps : capability_set := mk_caps (replicate 8 0) 0 0 0 0 [] 0 0 0 0.

Record cpu_budget := mk_budget { remaining_ticks : Z; max_ticks : Z }.

(** The fields of [struct domain] a policy reads or writes; [vmas] is [None] when
    the domain has no address space. *)
Record domain := mk_domain {
  domain_id : Z;
  fs_root : string;
  caps : capability_set;
  budget : cpu_budget;
  vmas : option vma_list;
}.

Definition set_fs_root (d : domain) (s : string) : domain :=
  mk_domain (domain_id d) s (caps d) (budget d) (vmas d).
Definition set_caps (d : domain) (c : capability_set) : domain :=
  mk_domain (domain_id d) (fs_root d) c (budget d) (vmas d).
Definition set_budget (d : domain) (b : cpu_budget) : domain :=
  mk_domain (domain_id d) (fs_root d) (caps d) b (vmas d).

(** *** Parsing *)

Definition code (c : ascii) : Z := Z.of_nat (nat_of_ascii c).
Definition is_digit (c : ascii) : bool := (48 <=? code c) && (code c <=? 57).

Fixpoint parse_digits (p : string) (value max : Z) : option (Z * string) :=
  match p with
  | String c p' =>
      if is_digit c then
        let value := u32 (value * 10 + (code c - 48)) in
        if max <? value then None else parse_digits p' value max
      else Some (value, p)
  | EmptyString => Some (value, p)
  end.

(** The value and the advanced cursor. *)
Definition parse_dec (s : string) (max : Z) : option (Z * string) :=
  if is_digit (char_at s 0) then parse_digits s 0 max else None.

(** [*s++ != c] as a guard. *)
Definition expect (c : ascii) (s : string) : option string :=
  match s with
  | String d s' => if Ascii.eqb d c then Some s' else None
  | EmptyString => None
  end.

(** Address, prefix length and port. *)
Definition parse_ipv4_port (s : string) : option (Z * Z * Z) :=
  let* (a, s) := parse_dec s 255 in
  let* s := expect "." s in
  let* (b, s) := parse_dec s 255 in
  let* s := expect "." s in
  let* (c, s) := parse_dec s 255 in
  let* s := expect "." s in
  let* (d, s) := parse_dec s 255 in
  let* (prefix_value, s) :=
    if Ascii.eqb (char_at s 0) "/" then parse_dec (drop_str 1 s) 32 else Some (32, s) in
  let* s := expect ":" s in
  let* (p, s) := parse_dec s 65535 in
  if nonempty s then None else
  Some (a .| u32 (Z.shiftl b 8) .| u32 (Z.shiftl c 16) .| u32 (Z.shiftl d 24), prefix_value, p).

(** *** Egress *)

Definition egress_mask (prefix : Z) : Z :=
  if prefix =? 0 then 0 else Z.shiftr 0xffffffff (32 - prefix).

Definition egress_match (c : capability_set) (proto ip port : Z) : bool :=
  if negb (has (cap_flags c) CAP_EGRESS_ENFORCE) then true else
  (egress_proto c =? proto) && (egress_port c =? port) &&
  ((egress_ip c .^ ip) .& egress_mask (egress_prefix c) =? 0).

(** *** Subset of capabilities *)

(** [path] is [rule] or below it. *)
Definition path_below (path rule : string) : bool :=
  str_eq rule "/" ||
  (starts_with path rule &&
   (Ascii.eqb (char_at path (kstrlen rule)) "000" || Ascii.eqb (char_at path (kstrlen rule)) "/")).

Definition rule_covered (parent : list fs_rule) (r : fs_rule) : bool :=
  existsb (fun p => path_below (rule_path r) (rule_path p) &&
                    (rule_rights r .& not32 (rule_rights p) =? 0)) parent.

Definition syscalls_subset (requested parent : capability_set) : bool :=
  forallb (fun i => syscall_allow requested !!! i .& not64 (syscall_allow parent !!! i) =? 0) (seq 0 8).

Definition cidr_subset (requested parent : capability_set) : bool :=
  (egress_proto parent =? egress_proto requested) && (egress_port parent =? egress_port requested) &&
  (egress_prefix parent <=? egress_prefix requested) &&
  ((egress_ip parent .^ egress_ip requested) .& egress_mask (egress_prefix parent) =? 0) &&
  ((egress_ip requested .& egress_mask (egress_prefix requested) =? egress_ip requested) ||
   (egress_prefix requested =? 32)).

Definition caps_subset (requested parent : capability_set) : bool :=
  if negb (syscalls_subset requested parent) then false else
  let req_egress := has (cap_flags requested) CAP_EGRESS_ENFORCE in
  let par_egress := has (cap_flags parent) CAP_EGRESS_ENFORCE in
  if req_egress && negb par_egress then true else
  if req_egress && negb (cidr_subset requested parent) then false else
  if negb req_egress && par_egress then false else
  if negb (memory_page_cap parent =? 0) &&
     ((memory_page_cap requested =? 0) || (memory_page_cap parent <? memory_page_cap requested))
  then false else
  if negb (fs_rule_count parent =? 0)%nat then forallb (rule_covered (fs_rules parent)) (fs_rules requested)
  else true.

(** *** Building a capability set *)

Definition cap_allow (c : capability_set) (nr : Z) : capability_set :=
  if nr <? 512 then
    let i := Z.to_nat (nr / 64) in
    mk_caps (<[i := syscall_allow c !!! i .| u64 (Z.shiftl 1 (nr mod 64))]> (syscall_allow c))
      (fs_rights c) (cap_flags c) (memory_page_cap c) (max_domains c) (fs_rules c)
      (egress_ip c) (egress_port c) (egress_proto c) (egress_prefix c)
  else c.

Definition common : list Z :=
  [17; 19; 23; 24; 25; 29; 57; 59; 63; 64; 65; 66; 72; 73; 80; 93; 94; 96; 98; 99; 101;
   103; 48; 113; 115; 123; 124; 134; 135; 144; 146; 160; 161; 172; 173; 174; 175; 176; 177; 178; 179; 198;
   200; 203; 204; 206; 207; 208; 209; 211; 212; 214; 215; 216; 220; 221; 222; 226; 233; 260; 261; 278; 439].

Definition files : list Z := [34; 35; 38; 46; 49; 50; 52; 53; 54; 55; 56; 61; 62; 78; 79; 82; 276].

Definition cap_allow_common (c : capability_set) : capability_set := fold_left cap_allow common c.
Definition cap_allow_files (c : capability_set) : capability_set := fold_left cap_allow files c.

Definition cap_add_fs_rule (c : capability_set) (path : string) (rights : Z) : option capability_set :=
  if negb (Ascii.eqb (char_at path 0) "/") || (CELL_FS_RULE_CAP <=? fs_rule_count c)%nat then None else
  Some (mk_caps (syscall_allow c) (fs_rights c) (cap_flags c) (memory_page_cap c) (max_domains c)
          (fs_rules c ++ [mk_rule (copy_cstr "" CELL_PATH_MAX (Some path)) rights])
          (egress_ip c) (egress_port c) (egress_proto c) (egress_prefix c)).

Definition with_flags (c : capability_set) (f : Z) : capability_set :=
  mk_caps (syscall_allow c) (fs_rights c) f (memory_page_cap c) (max_domains c) (fs_rules c)
    (egress_ip c) (egress_port c) (egress_proto c) (egress_prefix c).

Definition with_memory (c : capability_set) (n : Z) : capability_set :=
  mk_caps (syscall_allow c) (fs_rights c) (cap_flags c) n (max_domains c) (fs_rules c)
    (egress_ip c) (egress_port c) (egress_proto c) (egress_prefix c).

(** Sets the egress fields and the flag that enforces them. *)
Definition with_egress (c : capability_set) (ip port proto prefix : Z) : capability_set :=
  mk_caps (syscall_allow c) (fs_rights c) (cap_flags c .| CAP_EGRESS_ENFORCE) (memory_page_cap c)
    (max_domains c) (fs_rules c) ip port proto prefix.

(** *** Checks; [None] is a kernel without a current domain. *)

Definition cell_fs_path_allowed (cur : option domain) (path : string) (rights : Z) : bool :=
  match cur with
  | None => true
  | Some d =>
      if negb (has (cap_flags (caps d)) CAP_ENFORCE) || (fs_rule_count (caps d) =? 0)%nat then true else
      existsb (fun r => path_below path (rule_path r) &&
                        ((rights =? 0) || (rule_rights r .& rights =? rights))) (fs_rules (caps d))
  end.

Definition cell_syscall_allowed (cur : option domain) (nr : Z) : bool :=
  match cur with
  | None => true
  | Some d =>
      if negb (has (cap_flags (caps d)) CAP_ENFORCE) then true else
      if 512 <=? nr then false else
      has (syscall_allow (caps d) !!! Z.to_nat (nr / 64)) (u64 (Z.shiftl 1 (nr mod 64)))
  end.

Definition cell_egress_allowed (cur : option domain) (proto ip port : Z) : bool :=
  match cur with
  | None => true
  | Some d =>
      if negb (has (cap_flags (caps d)) CAP_EGRESS_ENFORCE) then true
      else egress_match (caps d) proto ip port
  end.

Definition page_count (s e : Z) : Z := if s <? e then (e - s) / 4096 else 0.

Definition ranges_overlap (a_start a_end b_start b_end : Z) : bool :=
  (a_start <? b_end) && (b_start <? a_end).

Fixpoint overlap_pages_from (l : vma_list) (s e : Z) (i n : nat) (total : Z) : Z :=
  match n with
  | O => total
  | S n' =>
      let total :=
        match vma_at l i with
        | None => total
        | Some v =>
            if negb (used v) || negb (ranges_overlap s e (start v) (end_ v)) then total else
            let overlap_start := if start v <? s then s else start v in
            let overlap_end := if e <? end_ v then e else end_ v in
            u64 (total + page_count overlap_start overlap_end)
        end in
      overlap_pages_from l s e (S i) n' total
  end.

Definition overlap_pages (vs : option vma_list) (s e : Z) : Z :=
  match vs with
  | None => 0
  | Some l => if e <=? s then 0 else overlap_pages_from l s e 0 (vma_capacity l) 0
  end.

Definition memory_pages_allowed (cur : option domain) (removed_pages added_pages : Z) : bool :=
  match cur with
  | None => true
  | Some d =>
      let cap := memory_page_cap (caps d) in
      if cap =? 0 then true else
      match vmas d with
      | None => false
      | Some l =>
          let current_pages := vma_virtual_pages l in
          let base_pages := if current_pages <? removed_pages then 0 else current_pages - removed_pages in
          (added_pages <=? cap) && (base_pages <=? cap - added_pages)
      end
  end.

Definition cell_map_add_allowed (cur : option domain) (s e : Z) (replace_existing : bool) : bool :=
  match cur with
  | None => true
  | Some d =>
      if memory_page_cap (caps d) =? 0 then true else
      let removed_pages := if replace_existing then overlap_pages (vmas d) s e else 0 in
      memory_pages_allowed cur removed_pages (page_count s e)
  end.

Definition cell_map_resize_allowed (cur : option domain) (old_start old_end new_start new_end : Z)
    (replace_new : bool) : bool :=
  match cur with
  | None => true
  | Some d =>
      if memory_page_cap (caps d) =? 0 then true else
      let removed_pages := overlap_pages (vmas d) old_start old_end in
      let removed_pages := if replace_new
                           then u64 (removed_pages + overlap_pages (vmas d) new_start new_end)
                           else removed_pages in
      memory_pages_allowed cur removed_pages (page_count new_start new_end)
  end.

(** *** Applying a manifest *)

(** The [net:udp:] and [net:tcp:] branches. *)
Definition net_caps (c : capability_set) (proto : Z) (spec : string) : option capability_set :=
  let* (ip, prefix, port) := parse_ipv4_port spec in
  Some (with_egress (cap_allow_files c) (ip .& egress_mask prefix) port proto prefix).

(** The [fs:/tmp] branch. *)
Definition fs_caps (c : capability_set) (manifest : string) : option capability_set :=
  let c := cap_allow_files c in
  let* c := cap_add_fs_rule c "/tmp" (CELL_FS_READ .| CELL_FS_WRITE .| CELL_FS_EXEC) in
  let* c := cap_add_fs_rule c "/lib" (CELL_FS_READ .| CELL_FS_EXEC) in
  let* c := cap_add_fs_rule c "/usr/local/lib" (CELL_FS_READ .| CELL_FS_EXEC) in
  if starts_with manifest "fs:/tmp;exec:" then
    cap_add_fs_rule c (drop_str 13 manifest) (CELL_FS_READ .| CELL_FS_EXEC)
  else if negb (str_eq manifest "fs:/tmp") then None
  else Some c.

(** The capabilities a manifest asks for and the domain after the branch, whose
    [fs_root] and [budget] are written before the request is accepted. *)
Definition manifest_caps (d : domain) (manifest : string) : option capability_set * domain :=
  let c := with_flags (cap_allow_common zero_caps) CAP_ENFORCE in
  let d := set_fs_root d "/" in
  if str_eq manifest "compute-only" then (Some c, set_budget d (mk_budget 20 20))
  else if starts_with manifest "fs:/tmp" then
    match fs_caps c manifest with
    | None => (None, d)
    | Some c => (Some c, set_fs_root d "/tmp")
    end
  else if str_eq manifest "mem:1" then (Some (with_memory c 1), d)
  else if str_eq manifest "net:none" then (Some (with_egress (cap_allow_files c) 0 0 0 32), d)
  else if str_eq manifest "net:dns" then (Some (with_egress (cap_allow_files c) 0 53 IPPROTO_UDP 0), d)
  else if starts_with manifest "net:udp:" then (net_caps c IPPROTO_UDP (drop_str 8 manifest), d)
  else if starts_with manifest "net:tcp:" then (net_caps c IPPROTO_TCP (drop_str 8 manifest), d)
  else (None, d).

Definition cell_apply_policy (cur : option domain) (manifest : string) : Z * option domain :=
  match cur with
  | None => (-3, None)
  | Some d =>
      if str_eq manifest "bad-manifest" then (-1, Some d) else
      match manifest_caps d manifest with
      | (None, d) => (-2, Some d)
      | (Some c, d) =>
          if has (cap_flags (caps d)) CAP_ENFORCE && negb (caps_subset c (caps d)) then (-1, Some d)
          else (0, Some (set_caps d c))
      end
  end.

End Policy.
