(* ===== verification/PolicySpec.v ===== *)
(** What the policies of [Policy] guarantee: the exact system calls, paths and
    destinations each manifest leaves, that no sequence of manifests regains a
    system call or a destination, and where the file-system rules do not compose. *)

From stdpp Require Import base numbers list list_numbers strings option.
From Stdlib Require Import ZArith Lia Ascii String.
From S2P Require Import Prelude Mem Pmm PmmSpec Iface Vma Policy.
Import Vma Kstr Policy.

Open Scope Z_scope.
Open Scope c_scope.

(** ** Specifications *)

(** Capabilities with fields of their C types. *)
Record caps_ok (c : capability_set) : Prop := {
  co_len : List.length (syscall_allow c) = 8%nat;
  co_words : Forall is_u64 (syscall_allow c);
  co_prefix : 0 <= egress_prefix c <= 32;
  co_ip : 0 <= egress_ip c < 2 ^ 32;
}.

Definition enforced (d : domain) : Prop := has (cap_flags (caps d)) CAP_ENFORCE = true.

Definition syscall_bit (c : capability_set) (nr : Z) : bool :=
  Z.testbit (syscall_allow c !!! Z.to_nat (nr / 64)) (nr mod 64).

(** Manifests that also allow the file system calls. *)
Definition uses_files (m : string) : bool :=
  negb (str_eq m "compute-only") && negb (str_eq m "mem:1").

(** [path] is [rule] or lies below it. *)
Definition below (path rule : string) : Prop :=
  rule = "/"%string \/
  exists t, path = (rule ++ t)%string /\ (t = EmptyString \/ exists t', t = String "/" t').

(** The manifests applied one after the other, each whatever the result. *)
Fixpoint apply_all (cur : option domain) (ms : list string) : option domain :=
  match ms with
  | [] => cur
  | m :: ms' => apply_all (cell_apply_policy cur m).2 ms'
  end.

(** Decimal notation, in front of [acc]. *)
Fixpoint show_dec (fuel : nat) (n : Z) (acc : string) : string :=
  match fuel with
  | O => acc
  | S f =>
      let acc := String (ascii_of_nat (Z.to_nat (48 + n mod 10))) acc in
      if n <? 10 then acc else show_dec f (n / 10) acc
  end.

Definition show_ipv4_port (a b c d prefix port : Z) : string :=
  show_dec 5 a (String "." (show_dec 5 b (String "." (show_dec 5 c (String "." (show_dec 5 d
    (String "/" (show_dec 5 prefix (String ":" (show_dec 5 port EmptyString)))))))))).

(** *** Masks and flags *)

Lemma code_digit k : 0 <= k < 10 -> code (ascii_of_nat (Z.to_nat (48 + k))) = 48 + k.
Proof. intros Hk. unfold code. rewrite nat_ascii_embedding by lia. lia. Qed.

Lemma egress_mask_bit p i : 0 <= p <= 32 -> 0 <= i -> Z.testbit (egress_mask p) i = (i <? p).
Proof.
  intros Hp Hi. unfold egress_mask. destruct (Z.eqb_spec p 0) as [->|Hne].
  - rewrite Z.testbit_0_l. destruct (Z.ltb_spec i 0); [lia|done].
  - change 0xffffffff with (Z.ones 32). rewrite Z.shiftr_spec by done.
    destruct (Z.ltb_spec i p).
    + rewrite Z.ones_spec_low by lia. done.
    + rewrite Z.ones_spec_high by lia. done.
Qed.

(** Agreement on the bits of a mask. *)
Lemma mask_eq x y p :
  0 <= p <= 32 ->
  ((x .^ y) .& egress_mask p =? 0) = true <-> forall i, 0 <= i < p -> Z.testbit x i = Z.testbit y i.
Proof.
  intros Hp. rewrite Z.eqb_eq. split.
  - intros H i Hi. assert (Z.testbit ((x .^ y) .& egress_mask p) i = false) as Hb
      by (rewrite H; apply Z.testbit_0_l).
    rewrite Z.land_spec, Z.lxor_spec, egress_mask_bit in Hb by lia.
    rewrite (proj2 (Z.ltb_lt i p)), andb_true_r in Hb by lia. by apply xorb_eq in Hb.
  - intros H. apply Z.bits_inj'. intros i Hi. rewrite Z.land_spec, Z.lxor_spec, egress_mask_bit, Z.testbit_0_l by lia.
    destruct (Z.ltb_spec i p); [|by rewrite andb_false_r]. rewrite H by lia. by rewrite xorb_nilpotent.
Qed.

Lemma syscall_pow2 nr : 0 <= nr -> u64 (Z.shiftl 1 (nr mod 64)) = 2 ^ (nr mod 64).
Proof.
  intros Hn. rewrite Z.shiftl_1_l. apply u64_small. unfold is_u64.
  assert (0 <= nr mod 64 < 64) by (apply Z.mod_pos_bound; lia).
  split; [by apply Z.pow_nonneg|apply Z.pow_lt_mono_r; lia].
Qed.

Lemma syscall_index nr : 0 <= nr < 512 -> (Z.to_nat (nr / 64) < 8)%nat /\ 0 <= nr mod 64 < 64.
Proof. intros Hn. split; [|apply Z.mod_pos_bound; lia]. assert (nr / 64 < 8) by (apply Z.div_lt_upper_bound; lia).
  assert (0 <= nr / 64) by (apply Z.div_pos; lia). lia. Qed.

Lemma syscall_allowed_bit d nr :
  0 <= nr -> enforced d ->
  cell_syscall_allowed (Some d) nr = (nr <? 512) && syscall_bit (caps d) nr.
Proof.
  intros Hn He. unfold cell_syscall_allowed, syscall_bit. rewrite He. simpl.
  destruct (Z.leb_spec 512 nr), (Z.ltb_spec nr 512); try lia; simpl.
  rewrite syscall_pow2 by done. apply has_pow2. apply Z.mod_pos_bound. lia.
Qed.

(** *** The tables *)

Lemma cap_allow_bit c n nr :
  List.length (syscall_allow c) = 8%nat -> 0 <= n < 512 -> 0 <= nr < 512 ->
  syscall_bit (cap_allow c n) nr = (nr =? n) || syscall_bit c nr.
Proof.
  intros Hl Hn Hnr. unfold cap_allow, syscall_bit. destruct (Z.ltb_spec n 512); [|lia]. simpl.
  destruct (syscall_index n Hn) as [Hi1 Hm1], (syscall_index nr Hnr) as [Hi2 Hm2].
  rewrite lookup_total_insert_list by lia. rewrite syscall_pow2 by lia.
  assert (0 <= nr / 64 /\ 0 <= n / 64) as [Hq1 Hq2] by (split; apply Z.div_pos; lia).
  destruct (decide (Z.to_nat (n / 64) = Z.to_nat (nr / 64))) as [He|He].
  - rewrite Z.lor_spec, testbit_pow2 by lia. rewrite <- He.
    destruct (Z.eqb_spec nr n) as [->|Hne]; [rewrite Z.eqb_refl; by rewrite orb_true_r|].
    destruct (Z.eqb_spec (nr mod 64) (n mod 64)); [|by rewrite orb_false_r].
    exfalso. apply Hne. rewrite (Z.div_mod nr 64), (Z.div_mod n 64) by lia. lia.
  - destruct (Z.eqb_spec nr n) as [->|Hne]; [done|done].
Qed.

Lemma cap_allow_len c n : List.length (syscall_allow (cap_allow c n)) = List.length (syscall_allow c).
Proof. unfold cap_allow. destruct (n <? 512); [|done]. simpl. apply length_insert. Qed.

Lemma allow_all_bit ns c nr :
  List.length (syscall_allow c) = 8%nat -> Forall (fun n => 0 <= n < 512) ns -> 0 <= nr < 512 ->
  syscall_bit (fold_left cap_allow ns c) nr = bool_decide (nr ∈ ns) || syscall_bit c nr.
Proof.
  intros Hl Hns Hnr. revert c Hl. induction Hns as [|n ns Hn _ IH]; intros c Hl; simpl; [done|].
  rewrite IH by (by rewrite cap_allow_len). rewrite cap_allow_bit by done.
  destruct (Z.eqb_spec nr n) as [->|Hne]; simpl.
  - rewrite (bool_decide_eq_true_2 (n ∈ n :: ns)) by left. by rewrite orb_true_r.
  - f_equal. apply bool_decide_ext. rewrite elem_of_cons. naive_solver.
Qed.

Definition in_tables : bool :=
  forallb (fun n => (0 <=? n) && (n <? 512)) (common ++ files).

Lemma tables_range : Forall (fun n => 0 <= n < 512) common /\ Forall (fun n => 0 <= n < 512) files.
Proof.
  assert (in_tables = true) as H by by vm_compute. unfold in_tables in H.
  apply Forall_app. rewrite forallb_forall in H. apply List.Forall_forall.
  intros n Hn. specialize (H n Hn). zbool. lia.
Qed.

(** *** Parsing *)

Lemma is_digit_char k : 0 <= k < 10 -> is_digit (ascii_of_nat (Z.to_nat (48 + k))) = true.
Proof. intros Hk. unfold is_digit. rewrite code_digit by done. apply andb_true_iff. lia. Qed.

Lemma show_dec_head f n acc :
  0 <= n < 10 ^ Z.of_nat f -> (0 < f)%nat -> is_digit (char_at (show_dec f n acc) 0) = true.
Proof.
  revert n acc. induction f as [|f IH]; intros n acc Hn Hf; [lia|]. cbn [show_dec].
  assert (0 <= n mod 10 < 10) by (apply Z.mod_pos_bound; lia).
  destruct (Z.ltb_spec n 10); [by apply is_digit_char|].
  destruct f as [|f]; [change (10 ^ Z.of_nat 1) with 10 in Hn; lia|]. apply IH; [|lia].
  rewrite (Nat2Z.inj_succ (S f)), Z.pow_succ_r in Hn by lia.
  split; [apply Z.div_pos; lia|apply Z.div_lt_upper_bound; lia].
Qed.

Lemma parse_show f n acc max :
  0 <= n < 10 ^ Z.of_nat f -> (0 < f)%nat -> n <= max <= 65535 ->
  parse_digits (show_dec f n acc) 0 max = parse_digits acc n max.
Proof.
  revert n acc. induction f as [|f IH]; intros n acc Hn Hf Hm; [lia|]. cbn [show_dec].
  assert (0 <= n mod 10 < 10) as Hd by (apply Z.mod_pos_bound; lia).
  assert (forall v, 0 <= v -> v * 10 + n mod 10 = n ->
    parse_digits (String (ascii_of_nat (Z.to_nat (48 + n mod 10))) acc) v max = parse_digits acc n max) as Hone.
  { intros v Hv E. cbn [parse_digits]. rewrite is_digit_char by done. rewrite code_digit by done.
    replace (v * 10 + (48 + n mod 10 - 48)) with n by lia.
    rewrite u32_small by (unfold is_u32; lia). by rewrite (proj2 (Z.ltb_ge max n)) by lia. }
  destruct (Z.ltb_spec n 10) as [Hlt|Hge].
  - apply Hone; [done|]. rewrite Z.mod_small by lia. lia.
  - assert (0 <= n / 10 <= n) by (split; [apply Z.div_pos; lia|apply Z.div_le_upper_bound; lia]).
    destruct f as [|f]; [change (10 ^ Z.of_nat 1) with 10 in Hn; lia|].
    rewrite (Nat2Z.inj_succ (S f)), Z.pow_succ_r in Hn by lia.
    rewrite IH; [|split; [lia|apply Z.div_lt_upper_bound; lia]|lia|lia].
    apply Hone; [lia|]. pose proof (Z.div_mod n 10 ltac:(lia)). lia.
Qed.

Lemma parse_dec_show n max acc :
  0 <= n <= max -> max <= 65535 -> is_digit (char_at acc 0) = false ->
  parse_dec (show_dec 5 n acc) max = Some (n, acc).
Proof.
  intros Hn Hm Hacc. unfold parse_dec. change (10 ^ 5) with 100000 in *.
  rewrite show_dec_head by (change (10 ^ Z.of_nat 5) with 100000; lia).
  rewrite parse_show by (change (10 ^ Z.of_nat 5) with 100000; lia).
  destruct acc as [|c acc]; [done|]. cbn [parse_digits].
  change (char_at (String c acc) 0) with c in Hacc. by rewrite Hacc.
Qed.

(** *** Paths *)

(** A path holds no NUL. *)
Fixpoint no_nul (s : string) : bool :=
  match s with
  | EmptyString => true
  | String c s' => negb (Ascii.eqb c "000") && no_nul s'
  end.

Lemma no_nul_app a b : no_nul (a ++ b)%string = no_nul a && no_nul b.
Proof.
  induction a as [|c a IH]; [done|].
  change (negb (Ascii.eqb c "000") && no_nul (a ++ b)%string = negb (Ascii.eqb c "000") && no_nul a && no_nul b).
  rewrite IH. by rewrite andb_assoc.
Qed.

Lemma path_below_spec path rule : no_nul path = true -> path_below path rule = true <-> below path rule.
Proof.
  intros Hn. unfold path_below, below. rewrite orb_true_iff, str_eq_spec, andb_true_iff, starts_with_spec.
  apply or_iff_compat_l. split.
  - intros [[t ->] Hc]. exists t. split; [done|]. rewrite char_at_app in Hc.
    rewrite no_nul_app in Hn. apply andb_true_iff in Hn as [_ Hn].
    destruct t as [|c t]; [by left|]. right. exists t.
    change (char_at (String c t) 0) with c in Hc. cbn [no_nul] in Hn. apply andb_true_iff in Hn as [Hn _].
    apply orb_true_iff in Hc as [Hc|Hc]; [by rewrite Hc in Hn|].
    by apply Ascii.eqb_eq in Hc as ->.
  - intros (t & -> & Ht). split; [by exists t|]. rewrite char_at_app.
    by destruct Ht as [->|[t' ->]].
Qed.

Lemma below_trans a b c :
  starts_with c "/" = true -> below a b -> below b c -> below a c.
Proof.
  intros Hc [->|(t1 & -> & Ht1)] [->|(t2 & Hb & Ht2)]; try (by left).
  - left. destruct c as [|x c]; [done|]. change (starts_with (String x c) "/") with (if Ascii.eqb x "/" then true else false) in Hc.
    destruct (Ascii.eqb_spec x "/") as [->|]; [|done].
    change (String "/" EmptyString = String "/" (c ++ t2)%string) in Hb. injection Hb as Hb.
    destruct c; [done|discriminate].
  - right. exists (t2 ++ t1)%string. rewrite Hb, string_app_assoc. split; [done|].
    destruct Ht2 as [->|[t2' ->]]; [done|]. right. by exists (t2' ++ t1)%string.
Qed.

(** *** Capabilities asked for by manifests *)

Definition base_caps : capability_set := with_flags (cap_allow_common zero_caps) CAP_ENFORCE.

Lemma parse_digits_range s v max n s' :
  parse_digits s v max = Some (n, s') -> 0 <= v <= max -> 0 <= n <= max.
Proof.
  revert v. induction s as [|c s IH]; intros v; cbn [parse_digits]; [by intros [= <- _]|].
  destruct (is_digit c) eqn:Ed; [|by intros [= <- _]].
  destruct (Z.ltb_spec max (u32 (v * 10 + (code c - 48)))); [done|]. intros H' Hv.
  apply IH in H'; [done|]. split; [apply u32_range|done].
Qed.

Lemma parse_dec_range s max n s' : 0 <= max -> parse_dec s max = Some (n, s') -> 0 <= n <= max.
Proof.
  intros Hm. unfold parse_dec. destruct (is_digit _); [|done]. intros H.
  by apply parse_digits_range in H; [|lia].
Qed.

Lemma parse_ipv4_port_prefix s ip prefix port :
  parse_ipv4_port s = Some (ip, prefix, port) -> 0 <= prefix <= 32.
Proof.
  unfold parse_ipv4_port. intros H. obinds H.
  destruct (nonempty _); [done|]. simplify_eq.
  match goal with Hp : (if _ then _ else _) = Some (prefix, _) |- _ => rename Hp into Hp1 end.
  destruct (Ascii.eqb _ _); [|by simplify_eq]. by apply parse_dec_range in Hp1.
Qed.

Lemma land_mask_u32 x p : 0 <= p <= 32 -> 0 <= x .& egress_mask p < 2 ^ 32.
Proof.
  intros Hp. assert (0 <= egress_mask p) as Hm.
  { unfold egress_mask. destruct (p =? 0); [done|]. by apply Z.shiftr_nonneg. }
  assert (0 <= x .& egress_mask p) by (apply Z.land_nonneg; by right).
  split; [done|]. apply bits_bound; [done|lia|]. intros i Hi.
  rewrite Z.land_spec, egress_mask_bit by lia. by rewrite (proj2 (Z.ltb_ge i p)), andb_false_r by lia.
Qed.

Lemma base_caps_bit nr : 0 <= nr < 512 -> syscall_bit base_caps nr = bool_decide (nr ∈ common).
Proof.
  intros Hn. unfold base_caps. change (syscall_bit (with_flags ?c _)) with (syscall_bit c).
  unfold cap_allow_common. rewrite allow_all_bit; [|done|apply tables_range|done].
  replace (syscall_bit zero_caps nr) with false; [by rewrite orb_false_r|].
  unfold syscall_bit. destruct (syscall_index nr Hn) as [Hi _].
  rewrite (list_lookup_total_correct _ _ 0); [by rewrite Z.testbit_0_l|]. by apply lookup_replicate.
Qed.

Lemma files_caps_bit nr :
  0 <= nr < 512 ->
  syscall_bit (cap_allow_files base_caps) nr = bool_decide (nr ∈ files) || bool_decide (nr ∈ common).
Proof.
  intros Hn. unfold cap_allow_files. rewrite allow_all_bit; [|done|apply tables_range|done].
  by rewrite base_caps_bit.
Qed.

(** What every accepted manifest has in common, by whether it allows file calls. *)
Record granted (fs : bool) (c : capability_set) : Prop := {
  g_calls : syscall_allow c = syscall_allow (if fs then cap_allow_files base_caps else base_caps);
  g_enforce : has (cap_flags c) CAP_ENFORCE = true;
  g_prefix : 0 <= egress_prefix c <= 32;
  g_ip : 0 <= egress_ip c < 2 ^ 32;
}.

Lemma granted_ok fs c : granted fs c -> caps_ok c.
Proof.
  intros [Hc _ Hp Hi]. split; rewrite ?Hc; try done; [by destruct fs|].
  apply List.Forall_forall. intros x Hx.
  assert (forallb (fun x => (0 <=? x) && (x <? 2 ^ 64))
            (syscall_allow (if fs then cap_allow_files base_caps else base_caps)) = true) as H
    by (by destruct fs; vm_compute).
  rewrite forallb_forall in H. specialize (H x Hx). zbool. done.
Qed.

Lemma granted_bit fs c nr :
  granted fs c -> 0 <= nr < 512 ->
  syscall_bit c nr = bool_decide (nr ∈ common) || (fs && bool_decide (nr ∈ files)).
Proof.
  intros [Hc _ _ _] Hn. unfold syscall_bit. rewrite Hc. destruct fs; cbn [andb].
  - rewrite orb_comm. by apply files_caps_bit.
  - rewrite orb_false_r. by apply base_caps_bit.
Qed.

Lemma add_rule_granted fs c path rights c' :
  granted fs c -> cap_add_fs_rule c path rights = Some c' -> granted fs c'.
Proof. intros [] H. unfold cap_add_fs_rule in H. destruct (_ || _); [done|]. by simplify_eq. Qed.

Lemma files_granted : granted true (cap_allow_files base_caps).
Proof. by split. Qed.

Lemma fs_caps_granted m c : fs_caps base_caps m = Some c -> granted true c.
Proof.
  unfold fs_caps, obind. intros H. pose proof files_granted as H0.
  destruct (cap_add_fs_rule _ "/tmp" _) as [c1|] eqn:E1; [|done].
  destruct (cap_add_fs_rule c1 "/lib" _) as [c2|] eqn:E2; [|done].
  destruct (cap_add_fs_rule c2 "/usr/local/lib" _) as [c3|] eqn:E3; [|done].
  do 3 (eapply add_rule_granted in H0; [|eassumption]).
  destruct (starts_with m _); [by eapply add_rule_granted|].
  destruct (negb _); [done|]. by simplify_eq.
Qed.

Lemma egress_granted fs c ip port proto prefix :
  granted fs c -> 0 <= prefix <= 32 -> 0 <= ip < 2 ^ 32 ->
  granted fs (with_egress c ip port proto prefix).
Proof.
  intros [Hc He _ _] Hp Hi. split; simpl; [done| |done|done].
  change CAP_ENFORCE with (2 ^ 0) in *. rewrite has_pow2 in * by done.
  rewrite Z.lor_spec, He. done.
Qed.

Lemma net_caps_granted proto spec c : net_caps base_caps proto spec = Some c -> granted true c.
Proof.
  unfold net_caps, obind. destruct (parse_ipv4_port spec) as [[[ip prefix] port]|] eqn:E; [|done].
  intros Hc. apply (inj Some) in Hc as <-. apply parse_ipv4_port_prefix in E.
  apply egress_granted; [apply files_granted|done|by apply land_mask_u32].
Qed.

Lemma manifest_caps_granted d m c d' :
  manifest_caps d m = (Some c, d') -> granted (uses_files m) c /\ caps d' = caps d /\ vmas d' = vmas d.
Proof.
  unfold manifest_caps, uses_files. fold base_caps.
  destruct (str_eq m "compute-only") eqn:E1; [intros [= <- <-]; by split|].
  destruct (starts_with m "fs:/tmp") eqn:E2.
  { assert (str_eq m "mem:1" = false) as ->.
    { apply starts_with_spec in E2 as [t ->]. apply str_eq_false. discriminate. }
    destruct (fs_caps base_caps m) as [c'|] eqn:E3; [|done]. intros [= <- <-].
    split; [by eapply fs_caps_granted|done]. }
  destruct (str_eq m "mem:1") eqn:E3; [intros [= <- <-]; by split|].
  pose proof files_granted as Hfiles. unfold manifest_caps. generalize dependent (cap_allow_files base_caps).
  intros fc Hfiles.
  destruct (str_eq m "net:none") eqn:E4; [intros [= <- <-]; split; [by apply egress_granted|done]|].
  destruct (str_eq m "net:dns") eqn:E5; [intros [= <- <-]; split; [by apply egress_granted|done]|].
  destruct (starts_with m "net:udp:") eqn:E6;
    [|destruct (starts_with m "net:tcp:") eqn:E7; [|by intros [= ]]];
    (destruct (net_caps _ _ _) as [c'|] eqn:E8; [|by intros [= ]]); intros [= <- <-];
    (split; [by eapply net_caps_granted|done]).
Qed.

(** *** Restriction *)

Lemma words_subset r p i :
  is_u64 r -> is_u64 p -> (r .& not64 p =? 0) = true -> 0 <= i < 64 ->
  Z.testbit r i = true -> Z.testbit p i = true.
Proof.
  intros Hr Hp H Hi Hb. apply Z.eqb_eq in H.
  assert (Z.testbit (r .& not64 p) i = false) as H0 by (rewrite H; apply Z.testbit_0_l).
  rewrite Z.land_spec, testbit_not64, Hb in H0 by done. by destruct (Z.testbit p i).
Qed.

Lemma subset_syscalls r p nr :
  caps_ok r -> caps_ok p -> caps_subset r p = true -> 0 <= nr < 512 ->
  syscall_bit r nr = true -> syscall_bit p nr = true.
Proof.
  intros [Lr Wr _ _] [Lp Wp _ _] H Hn. unfold caps_subset in H.
  destruct (syscalls_subset r p) eqn:Es; [|done]. unfold syscalls_subset in Es.
  destruct (syscall_index nr Hn) as [Hi Hm]. rewrite forallb_forall in Es.
  specialize (Es (Z.to_nat (nr / 64))). apply words_subset; [| | |done].
  - apply (Forall_lookup_total is_u64); [done|lia].
  - apply (Forall_lookup_total is_u64); [done|lia].
  - apply Es. apply in_seq. lia.
Qed.

Lemma subset_egress r p proto ip port :
  caps_ok r -> caps_ok p -> caps_subset r p = true ->
  egress_match r proto ip port = true -> egress_match p proto ip port = true.
Proof.
  intros [_ _ Pr _] [_ _ Pp _] H. unfold caps_subset in H. unfold egress_match.
  destruct (syscalls_subset r p); [|done]. simpl in H.
  destruct (has (cap_flags p) CAP_EGRESS_ENFORCE); [|done].
  destruct (has (cap_flags r) CAP_EGRESS_ENFORCE); [|done]. simpl in *.
  destruct (cidr_subset r p) eqn:E; [|done]. unfold cidr_subset in E.
  rewrite !andb_true_iff in *. destruct E as [[[[E1 E2] E3] E4] _]. intros [[M1 M2] M3].
  rewrite mask_eq in * by done. apply Z.leb_le in E3. split_and!; [lia|lia|].
  intros i Hi. rewrite E4 by done. apply M3. lia.
Qed.

Lemma egress_allowed_match d proto ip port :
  cell_egress_allowed (Some d) proto ip port = egress_match (caps d) proto ip port.
Proof. unfold cell_egress_allowed, egress_match. by destruct (negb _). Qed.

(** The capabilities after a call: those of the manifest or the old ones. *)
Lemma apply_cases d m r d' :
  cell_apply_policy (Some d) m = (r, d') ->
  exists d1, d' = Some d1 /\ vmas d1 = vmas d /\
    ((r = 0 /\ granted (uses_files m) (caps d1) /\
      (enforced d -> caps_subset (caps d1) (caps d) = true)) \/
     (r <> 0 /\ caps d1 = caps d)).
Proof.
  unfold cell_apply_policy, enforced. destruct (str_eq m "bad-manifest").
  { intros [= <- <-]. exists d. by auto. }
  destruct (manifest_caps d m) as [[c|] d2] eqn:E.
  - apply manifest_caps_granted in E as (Hg & Hc & Hv). rewrite <- Hc, <- Hv.
    destruct (has (cap_flags (caps d2)) CAP_ENFORCE) eqn:Ef; simpl;
      [destruct (caps_subset c (caps d2)) eqn:Es; simpl|]; intros [= <- <-]; eexists; (split; [done|]);
      (split; [done|]); [left|right|left]; done.
  - intros [= <- <-]. exists d2. revert E. unfold manifest_caps.
    generalize (with_flags (cap_allow_common zero_caps) CAP_ENFORCE). intros c0.
    repeat case_match; intros; simplify_eq; split_and!; try done; by right.
Qed.

Lemma apply_restricts d m r d1 :
  caps_ok (caps d) -> enforced d -> cell_apply_policy (Some d) m = (r, Some d1) ->
  caps_ok (caps d1) /\ enforced d1 /\
  (forall nr, 0 <= nr -> cell_syscall_allowed (Some d1) nr = true -> cell_syscall_allowed (Some d) nr = true) /\
  (forall proto ip port, cell_egress_allowed (Some d1) proto ip port = true ->
                         cell_egress_allowed (Some d) proto ip port = true).
Proof.
  intros Hok He E. apply apply_cases in E as (d1' & [= <-] & _ & [(-> & Hg & Hsub)|(Hr & Hc)]).
  - specialize (Hsub He). pose proof (granted_ok _ _ Hg) as Hok1.
    assert (enforced d1) as He1 by apply Hg. split_and!; [done|done|..].
    + intros nr Hn. rewrite !syscall_allowed_bit by done. rewrite !andb_true_iff. intros [H1 H2].
      split; [done|]. apply Z.ltb_lt in H1. eapply subset_syscalls; [exact Hok1|done|done|lia|done].
    + intros proto ip port. rewrite !egress_allowed_match. by apply subset_egress.
  - unfold enforced in *. rewrite Hc. split_and!; [done|done|..].
    + intros nr Hn. rewrite !syscall_allowed_bit by (unfold enforced; by rewrite ?Hc). by rewrite Hc.
    + intros proto ip port. rewrite !egress_allowed_match. by rewrite Hc.
Qed.

(** *** Paths under a rule set *)

Definition rules_allow (rules : list fs_rule) (path : string) (rights : Z) : Prop :=
  exists r, r ∈ rules /\ below path (rule_path r) /\ (rights = 0 \/ rule_rights r .& rights = rights).

Lemma path_allowed_spec d path rights :
  enforced d -> fs_rules (caps d) <> [] -> no_nul path = true ->
  cell_fs_path_allowed (Some d) path rights = true <-> rules_allow (fs_rules (caps d)) path rights.
Proof.
  intros He Hne Hn. unfold cell_fs_path_allowed, fs_rule_count. rewrite He. simpl.
  destruct (fs_rules (caps d)) as [|r0 rs] eqn:Er; [done|]. cbn [List.length Nat.eqb].
  rewrite existsb_exists. unfold rules_allow. split.
  - intros (r & Hr & H). apply andb_true_iff in H as [Hp Hg]. exists r. rewrite list_elem_of_In.
    split; [done|]. split; [by apply path_below_spec|]. apply orb_true_iff in Hg. rewrite !Z.eqb_eq in Hg. done.
  - intros (r & Hr & Hp & Hg). exists r. rewrite <- list_elem_of_In. split; [done|].
    apply andb_true_iff. split; [by apply path_below_spec|]. rewrite orb_true_iff, !Z.eqb_eq. done.
Qed.

Lemma rights_trans a b c :
  0 <= b -> a .& not32 b = 0 -> 0 <= a < 2 ^ 32 -> a .& c = c -> b .& c = c.
Proof.
  intros Hb Hab Ha Hc. apply Z.bits_inj'. intros i Hi. rewrite Z.land_spec.
  destruct (Z.testbit c i) eqn:Ec; [|by rewrite andb_false_r]. rewrite andb_true_r.
  rewrite <- Hc, Z.land_spec, andb_true_iff in Ec. destruct Ec as [Ea _].
  assert (i < 32) as Hi32.
  { apply Z.nle_gt. intros Hle. rewrite (testbit_bound a 32) in Ea by lia. done. }
  assert (Z.testbit (a .& not32 b) i = false) as H0 by (rewrite Hab; apply Z.testbit_0_l).
  unfold not32, u32 in H0. rewrite Z.land_spec, Ea, Z.mod_pow2_bits_low, Z.lnot_spec in H0 by lia.
  by destruct (Z.testbit b i).
Qed.

(** Rules with absolute NUL-free paths and rights of type [uint8_t]. *)
Definition rules_ok (rules : list fs_rule) : Prop :=
  forall r, r ∈ rules -> starts_with (rule_path r) "/" = true /\ no_nul (rule_path r) = true /\ is_u8 (rule_rights r).

Lemma covered_allow parent rules path rights :
  rules_ok parent -> rules_ok rules -> forallb (rule_covered parent) rules = true ->
  rules_allow rules path rights -> rules_allow parent path rights.
Proof.
  intros Hp Hr Hc (r & Hin & Hb & Hg). rewrite forallb_forall in Hc.
  destruct (Hr r Hin) as (_ & Hrn & Hru). apply list_elem_of_In in Hin.
  specialize (Hc r Hin). unfold rule_covered in Hc. apply existsb_exists in Hc as (p & Hpin & Hcov).
  apply list_elem_of_In in Hpin. destruct (Hp p Hpin) as (Hps & _ & Hpu).
  apply andb_true_iff in Hcov as [Hpb Hcr]. apply path_below_spec in Hpb; [|done]. apply Z.eqb_eq in Hcr.
  exists p. split; [done|]. split; [by eapply below_trans|]. destruct Hg as [->|Hg]; [by left|]. right.
  unfold is_u8 in *. by apply (rights_trans (rule_rights r)); try lia.
Qed.

(** ** Properties *)

Definition fresh_domain : domain := mk_domain 7 "/" zero_caps (mk_budget 0 0) None.

(** C23: no sequence of manifests, accepted or refused, gives a confined domain
    back a system call or a network destination it did not have. *)
Theorem policies_only_restrict (ms : list string) (d : domain) :
  caps_ok (caps d) -> enforced d ->
  exists d', apply_all (Some d) ms = Some d' /\ enforced d' /\
    (forall nr, 0 <= nr -> cell_syscall_allowed (Some d') nr = true -> cell_syscall_allowed (Some d) nr = true) /\
    (forall proto ip port, cell_egress_allowed (Some d') proto ip port = true ->
                           cell_egress_allowed (Some d) proto ip port = true).
Proof.
  revert d. induction ms as [|m ms IH]; intros d Hok He; cbn [apply_all]; [by exists d|].
  destruct (cell_apply_policy (Some d) m) as [r o] eqn:E. pose proof (apply_cases d m r o E) as (d1 & -> & _ & _).
  destruct (apply_restricts d m r d1 Hok He E) as (Hok1 & He1 & Hs1 & Hg1).
  destruct (IH d1 Hok1 He1) as (d' & Ha & He' & Hs & Hg). exists d'. split_and!; [done|done|auto|auto].
Qed.

Lemma policies_only_restrict_witness :
  let d := set_caps fresh_domain (cap_allow_files base_caps) in
  exists d', apply_all (Some d) ["net:dns"; "nonsense"; "net:udp:10.0.0.1:53"]%string = Some d' /\
    cell_egress_allowed (Some d') 6 1 80 = false /\ enforced d'.
Proof.
  intros d. destruct (policies_only_restrict ["net:dns"; "nonsense"; "net:udp:10.0.0.1:53"]%string d)
    as (d' & E & He & _); [apply (granted_ok true), files_granted|by vm_compute|].
  exists d'. split; [exact E|]. split; [|exact He].
  assert (match apply_all (Some d) ["net:dns"; "nonsense"; "net:udp:10.0.0.1:53"]%string with
          | Some x => cell_egress_allowed (Some x) 6 1 80 | None => true end = false) as H by (vm_compute; reflexivity).
  rewrite E in H. exact H.
Defined.

(** an accepted manifest leaves exactly the common system calls, plus the
    file calls for the manifests that mention files or the network. *)
Theorem policy_syscalls_exact (d d' : domain) (m : string) (nr : Z) :
  cell_apply_policy (Some d) m = (0, Some d') -> 0 <= nr ->
  cell_syscall_allowed (Some d') nr =
    bool_decide (nr ∈ common) || (uses_files m && bool_decide (nr ∈ files)).
Proof.
  intros E Hn. apply apply_cases in E as (d1 & [= <-] & _ & [(_ & Hg & _)|(? & _)]); [|done].
  rewrite syscall_allowed_bit by (done || apply Hg).
  destruct (Z.ltb_spec nr 512) as [Hlt|Hge]; simpl; [by apply granted_bit|].
  destruct tables_range as [Hc Hf]. rewrite List.Forall_forall in Hc, Hf.
  rewrite !bool_decide_eq_false_2, andb_false_r; [done|intros H%list_elem_of_In%Hf; lia|intros H%list_elem_of_In%Hc; lia].
Qed.

Lemma policy_syscalls_exact_witness :
  let d' := set_caps fresh_domain base_caps in
  cell_apply_policy (Some (set_caps fresh_domain zero_caps)) "compute-only" =
    (0, Some (set_budget d' (mk_budget 20 20))) /\
  cell_syscall_allowed (Some (set_budget d' (mk_budget 20 20))) 56 = false.
Proof.
  intros d'. assert (cell_apply_policy (Some (set_caps fresh_domain zero_caps)) "compute-only" =
    (0, Some (set_budget d' (mk_budget 20 20)))) as E by (vm_compute; reflexivity).
  split; [exact E|].
  rewrite (policy_syscalls_exact _ _ "compute-only" 56 E ltac:(lia)). vm_compute. reflexivity.
Defined.

Lemma net_spec_parse (a b c d prefix port : Z) :
  is_u8 a -> is_u8 b -> is_u8 c -> is_u8 d -> 0 <= prefix <= 32 -> is_u16 port ->
  parse_ipv4_port (show_ipv4_port a b c d prefix port) =
    Some (a + b * 2 ^ 8 + c * 2 ^ 16 + d * 2 ^ 24, prefix, port).
Proof.
  unfold is_u8, is_u16. intros Ha Hb Hc Hd Hp Hport. unfold parse_ipv4_port, show_ipv4_port.
  rewrite parse_dec_show by (done || lia). cbn [obind expect Ascii.eqb Bool.eqb].
  rewrite parse_dec_show by (done || lia). cbn [obind expect Ascii.eqb Bool.eqb].
  rewrite parse_dec_show by (done || lia). cbn [obind expect Ascii.eqb Bool.eqb].
  rewrite parse_dec_show by (done || lia). cbn [obind].
  match goal with |- context [char_at (String "/" ?s) 0] => change (char_at (String "/" s) 0) with "/"%char end.
  cbn [Ascii.eqb Bool.eqb drop_str].
  rewrite parse_dec_show by (done || lia). cbn [obind expect Ascii.eqb Bool.eqb].
  rewrite parse_dec_show by (done || lia). cbn [obind nonempty].
  do 3 f_equal. by rewrite or4_sum.
Qed.

Lemma net_udp_caps s ip prefix port dom dom' :
  parse_ipv4_port s = Some (ip, prefix, port) ->
  cell_apply_policy (Some dom) ("net:udp:" ++ s) = (0, Some dom') ->
  caps dom' = with_egress (cap_allow_files base_caps) (ip .& egress_mask prefix) port IPPROTO_UDP prefix.
Proof.
  intros Hs. unfold cell_apply_policy, manifest_caps. set (m := ("net:udp:" ++ s)%string).
  change (str_eq m "bad-manifest") with false. change (str_eq m "compute-only") with false.
  change (starts_with m "fs:/tmp") with false. change (str_eq m "mem:1") with false.
  change (str_eq m "net:none") with false. change (str_eq m "net:dns") with false.
  change (starts_with m "net:udp:") with true. change (drop_str 8 m) with s.
  cbv iota. fold base_caps. unfold net_caps. rewrite Hs. cbn [obind].
  generalize (with_egress (cap_allow_files base_caps) (ip .& egress_mask prefix) port IPPROTO_UDP prefix).
  intros c. cbv zeta. destruct (_ && _); [done|]. by intros [= <-].
Qed.

(** the address parser reads back every printed address, prefix and port. *)
Theorem ipv4_port_roundtrip (a b c d prefix port : Z) :
  is_u8 a -> is_u8 b -> is_u8 c -> is_u8 d -> 0 <= prefix <= 32 -> is_u16 port ->
  parse_ipv4_port (show_ipv4_port a b c d prefix port) =
    Some (a + b * 2 ^ 8 + c * 2 ^ 16 + d * 2 ^ 24, prefix, port).
Proof. apply net_spec_parse. Qed.

Lemma ipv4_port_roundtrip_witness :
  parse_ipv4_port (show_ipv4_port 10 0 2 255 24 5555) =
    Some (10 + 0 * 2 ^ 8 + 2 * 2 ^ 16 + 255 * 2 ^ 24, 24, 5555) /\
  show_ipv4_port 10 0 2 255 24 5555 = "10.0.2.255/24:5555"%string.
Proof. split; [apply ipv4_port_roundtrip; unfold is_u8, is_u16; lia|vm_compute; reflexivity]. Defined.

(** an accepted network manifest leaves exactly the destinations with the
    given protocol and port whose address agrees with the given one on the
    [prefix] low-order bits of its memory representation. *)
Theorem net_policy_exact (dom dom' : domain) (a b c d prefix port proto ip dport : Z) :
  is_u8 a -> is_u8 b -> is_u8 c -> is_u8 d -> 0 <= prefix <= 32 -> is_u16 port ->
  cell_apply_policy (Some dom) ("net:udp:" ++ show_ipv4_port a b c d prefix port) = (0, Some dom') ->
  cell_egress_allowed (Some dom') proto ip dport = true <->
  proto = IPPROTO_UDP /\ dport = port /\
  forall i, 0 <= i < prefix -> Z.testbit ip i = Z.testbit (a + b * 2 ^ 8 + c * 2 ^ 16 + d * 2 ^ 24) i.
Proof.
  intros Ha Hb Hc Hd Hp Hport E.
  assert (caps dom' = with_egress (cap_allow_files base_caps)
    ((a + b * 2 ^ 8 + c * 2 ^ 16 + d * 2 ^ 24) .& egress_mask prefix) port IPPROTO_UDP prefix) as Hcaps.
  { eapply net_udp_caps; [|exact E]. by apply net_spec_parse. }
  rewrite egress_allowed_match. unfold egress_match. rewrite Hcaps.
  generalize (cap_allow_files base_caps). intros c0. cbn [with_egress cap_flags egress_proto egress_port egress_ip egress_prefix].
  assert (has (cap_flags c0 .| CAP_EGRESS_ENFORCE) CAP_EGRESS_ENFORCE = true) as ->.
  { change CAP_EGRESS_ENFORCE with (2 ^ 1). rewrite has_pow2 by done. rewrite Z.lor_spec.
    change (Z.testbit (2 ^ 1) 1) with true. apply orb_true_r. }
  cbn [negb]. rewrite !andb_true_iff, mask_eq, !Z.eqb_eq by done.
  assert (forall i, 0 <= i < prefix -> Z.testbit (egress_mask prefix) i = true) as Hm.
  { intros i Hi. rewrite egress_mask_bit by lia. lia. }
  split.
  - intros [[<- <-] Hi]. split_and!; try done. intros i Hr. rewrite <- Hi by done.
    rewrite Z.land_spec, Hm by done. apply andb_true_r.
  - intros (-> & -> & Hi). split_and!; try done. intros i Hr. rewrite Hi by done.
    rewrite Z.land_spec, Hm by done. apply andb_true_r.
Qed.

Lemma net_policy_exact_witness :
  let m := ("net:udp:" ++ show_ipv4_port 10 0 2 0 24 5555)%string in
  match cell_apply_policy (Some fresh_domain) m with
  | (0, Some d') => cell_egress_allowed (Some d') 17 (10 + 2 * 2 ^ 16 + 99 * 2 ^ 24) 5555 = true
  | _ => False
  end.
Proof.
  intros m. destruct (cell_apply_policy (Some fresh_domain) m) as [r o] eqn:E.
  assert (r = 0 /\ is_Some o) as [-> [d' ->]].
  { apply (f_equal (fun x => (x.1 =? 0) && bool_decide (is_Some x.2))) in E.
    replace ((cell_apply_policy (Some fresh_domain) m).1 =? 0) with true in E by (vm_compute; reflexivity).
    replace (bool_decide (is_Some (cell_apply_policy (Some fresh_domain) m).2)) with true in E
      by (vm_compute; reflexivity).
    symmetry in E. apply andb_true_iff in E as [E1 E2]. apply Z.eqb_eq in E1.
    by apply bool_decide_eq_true in E2. }
  apply (proj2 (net_policy_exact fresh_domain d' 10 0 2 0 24 5555 17 (10 + 2 * 2 ^ 16 + 99 * 2 ^ 24) 5555
           ltac:(unfold is_u8; lia) ltac:(unfold is_u8; lia) ltac:(unfold is_u8; lia) ltac:(unfold is_u8; lia)
           ltac:(lia) ltac:(unfold is_u16; lia) E)).
  split; [reflexivity|]. split; [reflexivity|]. intros i Hi.
  assert (i ∈ seqZ 0 24) as Hin by (apply elem_of_seqZ; lia). revert i Hi Hin.
  assert (Forall (fun i => Z.testbit (10 + 2 * 2 ^ 16 + 99 * 2 ^ 24) i =
                           Z.testbit (10 + 0 * 2 ^ 8 + 2 * 2 ^ 16 + 0 * 2 ^ 24) i) (seqZ 0 24)) as HF
    by (apply (bool_decide_unpack _); vm_compute; exact I).
  intros i _ Hin. apply list_elem_of_In in Hin. rewrite List.Forall_forall in HF. by apply HF.
Defined.

(** The rules of the [fs:/tmp] manifest. *)
Definition tmp_rules : list fs_rule :=
  [mk_rule "/tmp" 7; mk_rule "/lib" 5; mk_rule "/usr/local/lib" 5].

Lemma fs_tmp_caps dom dom' :
  cell_apply_policy (Some dom) "fs:/tmp" = (0, Some dom') -> enforced dom' /\ fs_rules (caps dom') = tmp_rules.
Proof.
  intros E. pose proof (apply_cases _ _ _ _ E) as (d1 & [= <-] & _ & [(_ & Hg & _)|(? & _)]); [|done].
  split; [apply Hg|]. revert E. unfold cell_apply_policy.
  assert (exists c, fs_caps base_caps "fs:/tmp" = Some c /\ fs_rules c = tmp_rules) as (c & Hc & Hr).
  { eexists. split; vm_compute; reflexivity. }
  unfold manifest_caps. change (str_eq "fs:/tmp" "bad-manifest") with false.
  change (str_eq "fs:/tmp" "compute-only") with false. change (starts_with "fs:/tmp" "fs:/tmp") with true.
  cbv iota. fold base_caps. cbv zeta. rewrite Hc. destruct (_ && _); [done|]. by intros [= <-].
Qed.

(** under [fs:/tmp] exactly the paths at or below [/tmp] (read, write and
    execute) and at or below [/lib] and [/usr/local/lib] (read and execute) are
    allowed; [/tmpfile] is not below [/tmp]. *)
Theorem fs_policy_exact (dom dom' : domain) (path : string) (rights : Z) :
  cell_apply_policy (Some dom) "fs:/tmp" = (0, Some dom') -> no_nul path = true -> rights <> 0 ->
  cell_fs_path_allowed (Some dom') path rights = true <->
  (below path "/tmp" /\ 7 .& rights = rights) \/
  ((below path "/lib" \/ below path "/usr/local/lib") /\ 5 .& rights = rights).
Proof.
  intros E Hn Hr. destruct (fs_tmp_caps dom dom' E) as [He Hrules].
  rewrite path_allowed_spec by (done || by rewrite Hrules). rewrite Hrules. unfold rules_allow, tmp_rules.
  split.
  - intros (r & Hin & Hb & Hg). destruct Hg as [?|Hg]; [done|].
    repeat (apply elem_of_cons in Hin as [->|Hin]; [cbn in Hb, Hg; tauto|]). by apply not_elem_of_nil in Hin.
  - intros [[Hb Hg]|[[Hb|Hb] Hg]];
      [exists (mk_rule "/tmp" 7)|exists (mk_rule "/lib" 5)|exists (mk_rule "/usr/local/lib" 5)];
      (split; [apply list_elem_of_In; simpl; tauto|split; [exact Hb|right; exact Hg]]).
Qed.

Lemma fs_policy_exact_witness :
  match cell_apply_policy (Some fresh_domain) "fs:/tmp" with
  | (0, Some d') => cell_fs_path_allowed (Some d') "/tmp/a" 2 = true
  | _ => False
  end.
Proof.
  destruct (cell_apply_policy (Some fresh_domain) "fs:/tmp") as [r o] eqn:E.
  assert (r = 0 /\ is_Some o) as [-> [d' ->]].
  { vm_compute in E. injection E as <- <-. split; [reflexivity|by eexists]. }
  apply (proj2 (fs_policy_exact fresh_domain d' "/tmp/a" 2 E eq_refl ltac:(lia))).
  left. split; [|reflexivity]. right. exists "/a"%string. split; [reflexivity|]. right. by exists "a"%string.
Defined.

(** The part of [caps_subset] that the early return skips. *)
Lemma subset_tail r p :
  has (cap_flags r) CAP_EGRESS_ENFORCE = has (cap_flags p) CAP_EGRESS_ENFORCE -> caps_subset r p = true ->
  negb (memory_page_cap p =? 0) && ((memory_page_cap r =? 0) || (memory_page_cap p <? memory_page_cap r)) = false /\
  (fs_rules p <> [] -> forallb (rule_covered (fs_rules p)) (fs_rules r) = true).
Proof.
  intros Heg H. unfold caps_subset, fs_rule_count in H. rewrite Heg in H.
  destruct (syscalls_subset r p); [|done]. simpl in H.
  destruct (has (cap_flags p) CAP_EGRESS_ENFORCE); simpl in H; [destruct (cidr_subset r p); [|done]; simpl in H|];
    (destruct (_ && _); [done|]); (split; [done|]); intros Hne; by destruct (fs_rules p).
Qed.

(** when the requested set does not newly enforce egress and has rules of its
    own, passing [caps_subset] means that no path right and no memory is
    regained. *)
Theorem caps_subset_sound (d p : domain) (path : string) (rights : Z) :
  enforced d -> enforced p -> rules_ok (fs_rules (caps d)) -> rules_ok (fs_rules (caps p)) ->
  fs_rules (caps d) <> [] -> no_nul path = true ->
  has (cap_flags (caps d)) CAP_EGRESS_ENFORCE = has (cap_flags (caps p)) CAP_EGRESS_ENFORCE ->
  caps_subset (caps d) (caps p) = true ->
  (cell_fs_path_allowed (Some d) path rights = true -> cell_fs_path_allowed (Some p) path rights = true) /\
  (memory_page_cap (caps p) <> 0 ->
   memory_page_cap (caps d) <> 0 /\ memory_page_cap (caps d) <= memory_page_cap (caps p)).
Proof.
  intros Hd Hp Rd Rp Hne Hn Heg H. apply subset_tail in H as [Em H]; [|done]. split.
  - rewrite (path_allowed_spec d) by done. intros Ha.
    destruct (fs_rules (caps p)) as [|r rs] eqn:Er.
    + unfold cell_fs_path_allowed, fs_rule_count. by rewrite Er, orb_true_r.
    + rewrite path_allowed_spec by (done || by rewrite Er). rewrite Er.
      apply (covered_allow _ (fs_rules (caps d))); try done. by apply H.
  - intros Hm. apply Z.eqb_neq in Hm. rewrite Hm in Em. simpl in Em. zbool. done.
Qed.

Lemma caps_subset_sound_witness :
  let p := set_caps fresh_domain (with_flags
             (mk_caps (replicate 8 0) 0 1 4 0 [mk_rule "/tmp" 7; mk_rule "/lib" 5] 0 0 0 0) CAP_ENFORCE) in
  let d := set_caps fresh_domain (mk_caps (replicate 8 0) 0 1 2 0 [mk_rule "/tmp/sub" 3] 0 0 0 0) in
  caps_subset (caps d) (caps p) = true /\
  (cell_fs_path_allowed (Some d) "/tmp/sub/x" 1 = true -> cell_fs_path_allowed (Some p) "/tmp/sub/x" 1 = true).
Proof.
  intros p d. assert (caps_subset (caps d) (caps p) = true) as H by (vm_compute; reflexivity).
  split; [exact H|]. apply (caps_subset_sound d p "/tmp/sub/x" 1); try (vm_compute; reflexivity); try done;
    intros r Hr; vm_compute in Hr; repeat (apply elem_of_cons in Hr as [->|Hr];
      [split_and!; vm_compute; done|]); by apply not_elem_of_nil in Hr.
Defined.

(** *** Where the checks do not compose *)


(** [caps_subset] returns before looking at the memory cap when the request
    enforces egress and the parent does not. *)
Lemma memory_cap_skipped :
  let parent := with_memory (cap_allow_files base_caps) 1 in
  let requested := with_egress (cap_allow_files base_caps) 0 53 IPPROTO_UDP 0 in
  caps_subset requested parent = true /\ memory_page_cap parent = 1 /\ memory_page_cap requested = 0.
Proof. by vm_compute. Qed.

(** With a prefix that is not a multiple of eight the mask keeps the low bits of
    an octet where CIDR notation keeps the high ones: 172.16.0.0/12 admits
    172.32.0.1 and refuses 172.17.0.1. *)
Lemma cidr_prefix_low_bits :
  let d := (cell_apply_policy (Some fresh_domain) "net:udp:172.16.0.0/12:53").2 in
  cell_egress_allowed d 17 (172 + 32 * 2 ^ 8 + 2 ^ 24) 53 = true /\
  cell_egress_allowed d 17 (172 + 17 * 2 ^ 8 + 2 ^ 24) 53 = false.
Proof. by vm_compute. Qed.

(** A refused manifest still resets the recorded file-system root. *)
Lemma refused_manifest_resets_root :
  let d1 := (cell_apply_policy (Some fresh_domain) "fs:/tmp").2 in
  let r2 := cell_apply_policy d1 "fs:/tmp;nonsense" in
  fs_root <$> d1 = Some "/tmp"%string /\ r2.1 = -2 /\ fs_root <$> r2.2 = Some "/"%string.
Proof. by vm_compute. Qed.
