(* ===== verification/Random.v ===== *)
(** The kernel random number generator ([kernel/src/random.c]): ChaCha20 as a
    keystream generator, its seeding and [random_bytes].

    Arrays are lists; a store outside an array is undefined behaviour and makes
    the operation return [None]. The counter register, the RNDR register and the
    addresses of kernel symbols are parameters. *)

From stdpp Require Import base numbers list list_numbers option.
From Stdlib Require Import ZArith Lia.
From S2P Require Import Prelude.

Module Random.

Record chacha_rng := mk_rng {
  key : list Z;
  counter : Z;
  nonce : list Z;
  buf : list Z;
  pos : nat;
  seeded : bool;
  have_rndr : bool;
}.

Definition rotl32 (v n : Z) : Z := u32 (Z.shiftl v n) .| Z.shiftr v (32 - n).

(** [x[i] += x[j]] *)
Definition add_to (i j : nat) (x : list Z) : list Z := <[i := u32 (x !!! i + x !!! j)]> x.

(** [x[i] = rotl32(x[i] ^ x[j], n)] *)
Definition xor_rot (i j : nat) (n : Z) (x : list Z) : list Z := <[i := rotl32 (x !!! i .^ x !!! j) n]> x.

Definition quarter_round (a b c d : nat) (x : list Z) : list Z :=
  let x := add_to a b x in
  let x := xor_rot d a 16 x in
  let x := add_to c d x in
  let x := xor_rot b c 12 x in
  let x := add_to a b x in
  let x := xor_rot d a 8 x in
  let x := add_to c d x in
  xor_rot b c 7 x.

Definition load32 (p : list Z) (off : nat) : Z :=
  p !!! off .| u32 (Z.shiftl (p !!! S off) 8) .| u32 (Z.shiftl (p !!! S (S off)) 16)
    .| u32 (Z.shiftl (p !!! S (S (S off))) 24).

Definition store32 (p : list Z) (off : nat) (v : Z) : option (list Z) :=
  if (off + 4 <=? length p)%nat then
    Some (<[(off + 3)%nat := u8 (Z.shiftr v 24)]> (<[(off + 2)%nat := u8 (Z.shiftr v 16)]>
         (<[(off + 1)%nat := u8 (Z.shiftr v 8)]> (<[off := u8 v]> p))))
  else None.

Definition double_round (work : list Z) : list Z :=
  let work := quarter_round 0 4 8 12 work in
  let work := quarter_round 1 5 9 13 work in
  let work := quarter_round 2 6 10 14 work in
  let work := quarter_round 3 7 11 15 work in
  let work := quarter_round 0 5 10 15 work in
  let work := quarter_round 1 6 11 12 work in
  let work := quarter_round 2 7 8 13 work in
  quarter_round 3 4 9 14 work.

Definition constants : list Z := [0x61707865; 0x3320646e; 0x79622d32; 0x6b206574].

Definition chacha_state (r : chacha_rng) : list Z :=
  constants ++ take 8 (key r) ++
  [u32 (counter r); u32 (Z.shiftr (counter r) 32); nonce r !!! 0%nat; nonce r !!! 1%nat .^ nonce r !!! 2%nat].

Definition bump_counter (r : chacha_rng) : chacha_rng :=
  mk_rng (key r) (u64 (counter r + 1)) (nonce r) (buf r) (pos r) (seeded r) (have_rndr r).

(** The loop that writes [work[i] + state[i]] for [n] words from [i]. *)
Fixpoint store_words (out work state : list Z) (i n : nat) : option (list Z) :=
  match n with
  | O => Some out
  | S n' =>
      let* out := store32 out (i * 4) (u32 (work !!! i + state !!! i)) in
      store_words out work state (S i) n'
  end.

Definition chacha_block (r : chacha_rng) (out : list Z) : option (chacha_rng * list Z) :=
  let state := chacha_state r in
  let r := bump_counter r in
  let work := Nat.iter 10 double_round state in
  let* out := store_words out work state 0 16 in
  Some (r, out).

(** [block[i % sizeof(block)] ^= seed[i]] *)
Fixpoint xor_seed (block seed : list Z) (i : nat) : list Z :=
  match seed with
  | [] => block
  | b :: seed' =>
      let j := (i mod 64)%nat in
      xor_seed (<[j := block !!! j .^ b]> block) seed' (S i)
  end.

Definition load_key (block : list Z) : list Z := (fun i => load32 block (i * 4)) <$> seq 0 8.

(** An uninitialised local array. *)
Definition local_array (n : nat) : list Z := replicate n 0.

Definition absorb_seed (r : chacha_rng) (seed : list Z) : option chacha_rng :=
  let* (r, block) := chacha_block r (local_array 64) in
  let block := xor_seed block seed 0 in
  Some (mk_rng (load_key block)
          (counter r .^ (u64 (Z.shiftl (load32 block 44) 32) .| load32 block 48))
          [nonce r !!! 0%nat .^ load32 block 32; nonce r !!! 1%nat .^ load32 block 36;
           nonce r !!! 2%nat .^ load32 block 40]
          (buf r) (length (buf r)) (seeded r) (have_rndr r)).

(** The bytes of a 64-bit word in memory. *)
Definition le_bytes (w : Z) : list Z := (fun i => u8 (Z.shiftr w (8 * Z.of_nat i))) <$> seq 0 8.

Section Hardware.
(** The machine: the virtual counter and the RNDR register, whose read fails when
    the flag it sets says so. *)
Context {H : Type} (counter_value : H -> Z * H) (rndr_read : H -> option Z * H).
Context (rndr_supported : bool) (rng_addr random_init_addr random_bytes_addr : Z).

Definition rndr64 (r : chacha_rng) (h : H) : option Z * H :=
  if negb (have_rndr r) then (None, h) else rndr_read h.

Fixpoint seed_words (r : chacha_rng) (seed_hint : Z) (i n : nat) (h : H) : list Z * H :=
  match n with
  | O => ([], h)
  | S n' =>
      let '(c, h) := counter_value h in
      let word := c .^ seed_hint .^ u64 (Z.shiftl (Z.of_nat i) 56) in
      let '(rndr, h) := rndr64 r h in
      let word := match rndr with Some x => word .^ x | None => word end in
      let '(ws, h) := seed_words r seed_hint (S i) n' h in
      (word :: ws, h)
  end.

Definition random_init (r : chacha_rng) (seed_hint : Z) (h : H) : option (chacha_rng * H) :=
  let '(c1, h) := counter_value h in
  let '(c2, h) := counter_value h in
  let '(c3, h) := counter_value h in
  let r := mk_rng
    [0x73706f72; 0x652d6373; 0x70726e67; 0x2d626f6f; u32 seed_hint; u32 (Z.shiftr seed_hint 32);
     u32 rng_addr; u32 c1]
    (c2 .^ seed_hint) [u32 (Z.shiftr c3 8); u32 random_init_addr; u32 random_bytes_addr]
    (buf r) (length (buf r)) true rndr_supported in
  let '(ws, h) := seed_words r seed_hint 0 8 h in
  let* r := absorb_seed r (concat (le_bytes <$> ws)) in
  Some (r, h).

Definition set_buf (r : chacha_rng) (b : list Z) (p : nat) : chacha_rng :=
  mk_rng (key r) (counter r) (nonce r) b p (seeded r) (have_rndr r).

(** Refilling the buffer when it is used up. *)
Definition refill (r : chacha_rng) (h : H) : option (chacha_rng * H) :=
  if (length (buf r) <=? pos r)%nat then
    let '(rndr, h) := rndr64 r h in
    let* r := match rndr with
              | Some x => if counter r .& 0x3f =? 0 then absorb_seed r (le_bytes x) else Some r
              | None => Some r
              end in
    let* (r, b) := chacha_block r (buf r) in
    Some (set_buf r b 0, h)
  else Some (r, h).

(** The output loop. *)
Fixpoint fill (r : chacha_rng) (n : nat) (h : H) : option (list Z * chacha_rng * H) :=
  match n with
  | O => Some ([], r, h)
  | S n' =>
      let* (r, h) := refill r h in
      let b := buf r !!! pos r in
      let r := set_buf r (<[pos r := 0]> (buf r)) (S (pos r)) in
      let* (out, r, h) := fill r n' h in
      Some (b :: out, r, h)
  end.

Definition random_bytes (r : chacha_rng) (len : nat) (h : H) : option (list Z * chacha_rng * H) :=
  let* (r, h) := if negb (seeded r)
                 then let '(c, h) := counter_value h in random_init r c h
                 else Some (r, h) in
  let* (out, r, h) := fill r len h in
  let* (r, rekey) := chacha_block r (local_array 32) in
  Some (out, mk_rng (load_key rekey) (counter r) (nonce r) (buf r) (length (buf r)) (seeded r) (have_rndr r), h).

End Hardware.
End Random.
