(* ===== verification/RandomSpec.v ===== *)
(** What the generator of [Random] guarantees: the ChaCha rounds permute the
    states, a block is the keystream of the specification, seeds are absorbed
    without loss up to 52 bytes, and the output loop returns the requested bytes
    and wipes what it returned. *)

From stdpp Require Import base numbers list list_numbers option.
From Stdlib Require Import ZArith Lia.
From S2P Require Import Prelude Random.
Import Random.

(** ** Specifications *)

(** A ChaCha state: sixteen 32-bit words. *)
Definition words_ok (x : list Z) : Prop := length x = 16%nat /\ Forall is_u32 x.

Record rng_ok (r : chacha_rng) : Prop := {
  ro_key : length (key r) = 8%nat /\ Forall is_u32 (key r);
  ro_nonce : length (nonce r) = 3%nat /\ Forall is_u32 (nonce r);
  ro_counter : is_u64 (counter r);
  ro_buf : length (buf r) = 64%nat /\ Forall is_u8 (buf r);
  ro_pos : (pos r <= 64)%nat;
}.

(** The inverse steps. *)
Definition sub_from (i j : nat) (x : list Z) : list Z := <[i := u32 (x !!! i - x !!! j)]> x.
Definition rot_xor (i j : nat) (n : Z) (x : list Z) : list Z := <[i := rotl32 (x !!! i) (32 - n) .^ x !!! j]> x.

Definition quarter_round_inv (a b c d : nat) (x : list Z) : list Z :=
  let x := rot_xor b c 7 x in
  let x := sub_from c d x in
  let x := rot_xor d a 8 x in
  let x := sub_from a b x in
  let x := rot_xor b c 12 x in
  let x := sub_from c d x in
  let x := rot_xor d a 16 x in
  sub_from a b x.

Definition double_round_inv (x : list Z) : list Z :=
  let x := quarter_round_inv 3 4 9 14 x in
  let x := quarter_round_inv 2 7 8 13 x in
  let x := quarter_round_inv 1 6 11 12 x in
  let x := quarter_round_inv 0 5 10 15 x in
  let x := quarter_round_inv 3 7 11 15 x in
  let x := quarter_round_inv 2 6 10 14 x in
  let x := quarter_round_inv 1 5 9 13 x in
  quarter_round_inv 0 4 8 12 x.

(** The keystream words of a state. *)
Definition keystream (state : list Z) (i : nat) : Z :=
  u32 (Nat.iter 10 double_round state !!! i + state !!! i).

(** *** 32-bit words *)

Lemma forallb_u32 l : forallb (fun x => (0 <=? x) && (x <? 2 ^ 32)) l = true -> Forall is_u32 l.
Proof.
  rewrite forallb_forall. intros Hl. apply List.Forall_forall. intros x Hx.
  specialize (Hl x Hx). zbool. done.
Qed.

Lemma lxor_u32 x y : is_u32 x -> is_u32 y -> is_u32 (x .^ y).
Proof.
  unfold is_u32. intros Hx Hy. assert (0 <= x .^ y) by (apply Z.lxor_nonneg; lia).
  split; [done|]. apply bits_bound; [done|lia|]. intros i Hi.
  rewrite Z.lxor_spec, (testbit_bound x 32), (testbit_bound y 32) by lia. done.
Qed.

Lemma testbit_u32 x i : 0 <= i -> Z.testbit (u32 x) i = (i <? 32) && Z.testbit x i.
Proof.
  intros Hi. unfold u32. rewrite Z.testbit_mod_pow2 by lia. done.
Qed.

Lemma rotl32_bit v n i :
  is_u32 v -> 0 < n < 32 -> 0 <= i < 32 ->
  Z.testbit (rotl32 v n) i = if i <? n then Z.testbit v (32 - n + i) else Z.testbit v (i - n).
Proof.
  intros Hv Hn Hi. unfold rotl32.
  rewrite Z.lor_spec, testbit_u32, Z.shiftl_spec, Z.shiftr_spec by lia.
  rewrite (proj2 (Z.ltb_lt i 32)) by lia. simpl. destruct (Z.ltb_spec i n).
  - rewrite Z.testbit_neg_r by lia. simpl. f_equal. lia.
  - rewrite (testbit_bound v 32 (i + (32 - n))) by (unfold is_u32 in Hv; lia). apply orb_false_r.
Qed.

Lemma rotl32_u32 v n : is_u32 v -> 0 < n < 32 -> is_u32 (rotl32 v n).
Proof.
  intros Hv Hn. unfold rotl32. assert (0 <= Z.shiftr v (32 - n)) by (apply Z.shiftr_nonneg, Hv).
  pose proof (u32_range (Z.shiftl v n)) as Hr. unfold is_u32 in *.
  assert (0 <= u32 (Z.shiftl v n) .| Z.shiftr v (32 - n)) by (apply Z.lor_nonneg; lia).
  split; [done|]. apply bits_bound; [done|lia|]. intros i Hi.
  rewrite Z.lor_spec, (testbit_bound _ 32), Z.shiftr_spec by lia.
  rewrite (testbit_bound v 32) by lia. done.
Qed.

Lemma rotl32_back v n : is_u32 v -> 0 < n < 32 -> rotl32 (rotl32 v n) (32 - n) = v.
Proof.
  intros Hv Hn. pose proof (rotl32_u32 v n Hv Hn) as Hr.
  pose proof (rotl32_u32 _ (32 - n) Hr ltac:(lia)) as Hrr.
  apply Z.bits_inj'. intros i Hi. destruct (Z.ltb_spec i 32) as [Hlt|Hge].
  - rewrite rotl32_bit by (done || lia). destruct (Z.ltb_spec i (32 - n)).
    + rewrite rotl32_bit by (done || lia). destruct (Z.ltb_spec (32 - (32 - n) + i) n); [lia|]. f_equal. lia.
    + rewrite rotl32_bit by (done || lia). destruct (Z.ltb_spec (i - (32 - n)) n); [|lia]. f_equal. lia.
  - unfold is_u32 in *. by rewrite !(testbit_bound _ 32) by lia.
Qed.

(** *** Steps and their inverses *)

Lemma word_at x i : words_ok x -> (i < 16)%nat -> is_u32 (x !!! i).
Proof. intros [Hl Hx] Hi. apply (Forall_lookup_total is_u32); [done|lia]. Qed.

Lemma words_insert x i v : words_ok x -> is_u32 v -> words_ok (<[i := v]> x).
Proof. intros [Hl Hx] Hv. split; [by rewrite length_insert|by apply Forall_insert]. Qed.

Lemma put_back x i v : words_ok x -> (i < 16)%nat -> v = x !!! i -> forall u, <[i := v]> (<[i := u]> x) = x.
Proof.
  intros [Hl _] Hi -> u. rewrite list_insert_insert_eq. apply list_insert_id.
  apply list_lookup_lookup_total_lt. lia.
Qed.

Lemma add_step x i j :
  words_ok x -> (i < 16)%nat -> (j < 16)%nat -> i <> j ->
  words_ok (add_to i j x) /\ sub_from i j (add_to i j x) = x.
Proof.
  intros Hx Hi Hj Hne. pose proof (word_at x i Hx Hi) as Hu. pose proof Hx as [Hl _]. unfold add_to, sub_from.
  split; [apply words_insert; [done|apply u32_range]|]. apply put_back; [done|done|].
  rewrite !lookup_total_insert_list by lia. rewrite decide_True, decide_False by done.
  unfold u32, is_u32 in *. rewrite Zminus_mod_idemp_l. rewrite Z.add_simpl_r. by apply Z.mod_small.
Qed.

Lemma xor_step x i j n :
  words_ok x -> (i < 16)%nat -> (j < 16)%nat -> i <> j -> 0 < n < 32 ->
  words_ok (xor_rot i j n x) /\ rot_xor i j n (xor_rot i j n x) = x.
Proof.
  intros Hx Hi Hj Hne Hn. pose proof Hx as [Hl _].
  pose proof (lxor_u32 _ _ (word_at x i Hx Hi) (word_at x j Hx Hj)) as Hu. unfold xor_rot, rot_xor.
  split; [apply words_insert; [done|by apply rotl32_u32]|]. apply put_back; [done|done|].
  rewrite !lookup_total_insert_list by lia. rewrite decide_True, decide_False by done.
  rewrite rotl32_back by done. rewrite Z.lxor_assoc, Z.lxor_nilpotent. apply Z.lxor_0_r.
Qed.

Lemma quarter_step x a b c d :
  words_ok x -> (a < 16)%nat -> (b < 16)%nat -> (c < 16)%nat -> (d < 16)%nat ->
  a <> b -> d <> a -> c <> d -> b <> c ->
  words_ok (quarter_round a b c d x) /\ quarter_round_inv a b c d (quarter_round a b c d x) = x.
Proof.
  intros Hx Ha Hb Hc Hd Hab Hda Hcd Hbc. unfold quarter_round, quarter_round_inv.
  destruct (add_step x a b) as [H1 E1]; [done..|].
  destruct (xor_step _ d a 16 H1) as [H2 E2]; [done..|].
  destruct (add_step _ c d H2) as [H3 E3]; [done..|].
  destruct (xor_step _ b c 12 H3) as [H4 E4]; [done..|].
  destruct (add_step _ a b H4) as [H5 E5]; [done..|].
  destruct (xor_step _ d a 8 H5) as [H6 E6]; [done..|].
  destruct (add_step _ c d H6) as [H7 E7]; [done..|].
  destruct (xor_step _ b c 7 H7) as [H8 E8]; [done..|].
  split; [done|]. by rewrite E8, E7, E6, E5, E4, E3, E2, E1.
Qed.

Lemma double_step x :
  words_ok x -> words_ok (double_round x) /\ double_round_inv (double_round x) = x.
Proof.
  intros Hx. unfold double_round, double_round_inv.
  destruct (quarter_step x 0 4 8 12) as [H1 E1]; [done|lia..|].
  destruct (quarter_step _ 1 5 9 13 H1) as [H2 E2]; [lia..|].
  destruct (quarter_step _ 2 6 10 14 H2) as [H3 E3]; [lia..|].
  destruct (quarter_step _ 3 7 11 15 H3) as [H4 E4]; [lia..|].
  destruct (quarter_step _ 0 5 10 15 H4) as [H5 E5]; [lia..|].
  destruct (quarter_step _ 1 6 11 12 H5) as [H6 E6]; [lia..|].
  destruct (quarter_step _ 2 7 8 13 H6) as [H7 E7]; [lia..|].
  destruct (quarter_step _ 3 4 9 14 H7) as [H8 E8]; [lia..|].
  split; [done|]. by rewrite E8, E7, E6, E5, E4, E3, E2, E1.
Qed.

Lemma rounds_step n x :
  words_ok x ->
  words_ok (Nat.iter n double_round x) /\
  Nat.iter n double_round_inv (Nat.iter n double_round x) = x.
Proof.
  intros Hx. induction n as [|n [IHw IHe]]; [done|].
  change (Nat.iter (S n) double_round x) with (double_round (Nat.iter n double_round x)).
  rewrite Nat.iter_succ_r. destruct (double_step _ IHw) as [Hw E]. split; [done|]. by rewrite E.
Qed.

(** *** Bytes *)

Definition byte_of (v : Z) (k : nat) : Z := u8 (Z.shiftr v (8 * Z.of_nat k)).

Lemma byte_of_u8 v k : is_u8 (byte_of v k).
Proof. apply u8_range. Qed.

Lemma bytes_sum v :
  is_u32 v -> byte_of v 0 + byte_of v 1 * 2 ^ 8 + byte_of v 2 * 2 ^ 16 + byte_of v 3 * 2 ^ 24 = v.
Proof.
  unfold byte_of, u8, is_u32. intros Hv. rewrite !Z.shiftr_div_pow2 by lia.
  change (2 ^ (8 * Z.of_nat 0)) with 1. change (2 ^ (8 * Z.of_nat 1)) with 256.
  change (2 ^ (8 * Z.of_nat 2)) with 65536. change (2 ^ (8 * Z.of_nat 3)) with 16777216. dmlia.
Qed.

Lemma store32_spec p off v :
  (off + 4 <= length p)%nat ->
  exists p', store32 p off v = Some p' /\ length p' = length p /\
    forall j, p' !!! j = if decide (off <= j < off + 4)%nat then byte_of v (j - off) else p !!! j.
Proof.
  intros Hl. unfold store32. rewrite (proj2 (Nat.leb_le _ _) Hl). eexists. split; [done|].
  split; [by rewrite !length_insert|]. intros j. rewrite !lookup_total_insert_list by (rewrite ?length_insert; lia).
  unfold byte_of. repeat case_decide; try lia; try done.
  - by replace (j - off)%nat with 3%nat by lia.
  - by replace (j - off)%nat with 2%nat by lia.
  - by replace (j - off)%nat with 1%nat by lia.
  - replace (j - off)%nat with 0%nat by lia. by rewrite Z.shiftr_0_r.
Qed.

Lemma store32_short p off v : (length p < off + 4)%nat -> store32 p off v = None.
Proof. intros Hl. unfold store32. by rewrite (proj2 (Nat.leb_gt _ _) Hl). Qed.

Lemma store_words_spec out work state i n :
  ((i + n) * 4 <= length out)%nat ->
  exists out', store_words out work state i n = Some out' /\ length out' = length out /\
    forall j, out' !!! j =
      if decide (i * 4 <= j < (i + n) * 4)%nat
      then byte_of (u32 (work !!! (j / 4)%nat + state !!! (j / 4)%nat)) (j mod 4) else out !!! j.
Proof.
  revert out i. induction n as [|n IH]; intros out i Hl; cbn [store_words].
  { exists out. split_and!; [done|done|]. intros j. by rewrite decide_False by lia. }
  destruct (store32_spec out (i * 4) (u32 (work !!! i + state !!! i))) as (p1 & -> & Hl1 & Hb1); [lia|]. cbn [obind].
  destruct (IH p1 (S i)) as (out' & -> & Hl2 & Hb2); [lia|].
  exists out'. split_and!; [done|lia|]. intros j. rewrite Hb2, Hb1.
  destruct (decide (S i * 4 <= j < (S i + n) * 4)%nat); [by rewrite decide_True by lia|].
  destruct (decide (i * 4 <= j < i * 4 + 4)%nat) as [Hj|Hj]; [|by rewrite decide_False by lia].
  rewrite decide_True by lia. assert (j / 4 = i /\ j mod 4 = j - i * 4)%nat as [-> ->]; [|done].
  pose proof (Nat.div_mod_eq j 4). pose proof (Nat.mod_upper_bound j 4 ltac:(lia)). lia.
Qed.

Lemma store_words_short out work state i n :
  (length out < (i + n) * 4)%nat -> (0 < n)%nat -> store_words out work state i n = None.
Proof.
  revert out i. induction n as [|n IH]; intros out i Hl Hn; simpl; [lia|].
  destruct (decide (i * 4 + 4 <= length out)%nat) as [H4|H4].
  - destruct (store32_spec out (i * 4) (u32 (work !!! i + state !!! i)) H4) as (p1 & -> & Hl1 & _). simpl.
    apply IH; [lia|]. destruct n; lia.
  - by rewrite store32_short by lia.
Qed.

(** The 64 bytes of a block. *)
Definition sum_bytes (work state : list Z) : list Z :=
  (fun j => byte_of (u32 (work !!! (j / 4)%nat + state !!! (j / 4)%nat)) (j mod 4)) <$> seq 0 64.

Definition block_bytes (state : list Z) : list Z := sum_bytes (Nat.iter 10 double_round state) state.

Lemma sum_length work state : length (sum_bytes work state) = 64%nat.
Proof. unfold sum_bytes. by rewrite length_fmap, length_seq. Qed.

Lemma sum_at work state j :
  (j < 64)%nat ->
  sum_bytes work state !!! j = byte_of (u32 (work !!! (j / 4)%nat + state !!! (j / 4)%nat)) (j mod 4).
Proof.
  intros Hj. apply list_lookup_total_correct. unfold sum_bytes. rewrite list_lookup_fmap.
  by rewrite lookup_seq_lt.
Qed.

Lemma sum_u8 work state : Forall is_u8 (sum_bytes work state).
Proof. unfold sum_bytes. apply Forall_fmap, Forall_true. intros j. apply byte_of_u8. Qed.

Lemma list_eq_total (l k : list Z) n :
  length l = n -> length k = n -> (forall j, (j < n)%nat -> l !!! j = k !!! j) -> l = k.
Proof.
  intros Hl Hk H. apply (list_eq_same_length _ _ n); [done|done|]. intros j x y Hj Hx Hy.
  specialize (H j Hj). by rewrite (list_lookup_total_correct _ _ _ Hx), (list_lookup_total_correct _ _ _ Hy) in H.
Qed.

Lemma store_all out work state :
  length out = 64%nat -> store_words out work state 0 16 = Some (sum_bytes work state).
Proof.
  intros Hl. destruct (store_words_spec out work state 0 16) as (o & -> & Ho & Hb); [lia|]. f_equal.
  apply (list_eq_total _ _ 64); [lia|apply sum_length|].
  intros j Hj. rewrite Hb, sum_at by done. by rewrite decide_True by lia.
Qed.

Lemma chacha_block_ok r out :
  length out = 64%nat -> chacha_block r out = Some (bump_counter r, block_bytes (chacha_state r)).
Proof. intros Hl. unfold chacha_block, block_bytes. cbv zeta. by rewrite store_all. Qed.

Lemma chacha_block_short r out : (length out < 64)%nat -> chacha_block r out = None.
Proof. intros Hl. unfold chacha_block. by rewrite store_words_short by lia. Qed.

Lemma load32_sum p off :
  Forall is_u8 p -> (off + 4 <= length p)%nat ->
  load32 p off = p !!! off + p !!! S off * 2 ^ 8 + p !!! S (S off) * 2 ^ 16 + p !!! S (S (S off)) * 2 ^ 24.
Proof.
  intros Hp Hl. unfold load32.
  assert (forall k, (k < length p)%nat -> 0 <= p !!! k < 2 ^ 8) as Hb
    by (intros k Hk; by apply (Forall_lookup_total is_u8)).
  apply or4_sum; apply Hb; lia.
Qed.

Lemma load32_u32 p off : Forall is_u8 p -> (off + 4 <= length p)%nat -> is_u32 (load32 p off).
Proof.
  intros Hp Hl. rewrite load32_sum by done. unfold is_u32.
  assert (forall k, (k < length p)%nat -> 0 <= p !!! k < 2 ^ 8) as Hb
    by (intros k Hk; by apply (Forall_lookup_total is_u8)).
  pose proof (Hb off ltac:(lia)). pose proof (Hb (S off) ltac:(lia)).
  pose proof (Hb (S (S off)) ltac:(lia)). pose proof (Hb (S (S (S off))) ltac:(lia)). lia.
Qed.

(** A word determines its four bytes. *)
Lemma load32_inj p q off :
  Forall is_u8 p -> Forall is_u8 q -> (off + 4 <= length p)%nat -> (off + 4 <= length q)%nat ->
  load32 p off = load32 q off -> forall j, (off <= j < off + 4)%nat -> p !!! j = q !!! j.
Proof.
  intros Hp Hq Hlp Hlq E j Hj. rewrite !load32_sum in E by done.
  assert (forall k, (k < length p)%nat -> 0 <= p !!! k < 2 ^ 8) as Hb
    by (intros k Hk; by apply (Forall_lookup_total is_u8)).
  assert (forall k, (k < length q)%nat -> 0 <= q !!! k < 2 ^ 8) as Hc
    by (intros k Hk; by apply (Forall_lookup_total is_u8)).
  pose proof (Hb off ltac:(lia)). pose proof (Hb (S off) ltac:(lia)).
  pose proof (Hb (S (S off)) ltac:(lia)). pose proof (Hb (S (S (S off))) ltac:(lia)).
  pose proof (Hc off ltac:(lia)). pose proof (Hc (S off) ltac:(lia)).
  pose proof (Hc (S (S off)) ltac:(lia)). pose proof (Hc (S (S (S off))) ltac:(lia)).
  assert (j = off \/ j = S off \/ j = S (S off) \/ j = S (S (S off))) as [->|[->|[->| ->]]] by lia; lia.
Qed.

Lemma block_words s i : (i < 16)%nat -> load32 (block_bytes s) (i * 4) = keystream s i.
Proof.
  intros Hi. unfold block_bytes, keystream. generalize (Nat.iter 10 double_round s). intros work.
  rewrite load32_sum by (apply sum_u8 || (rewrite sum_length; lia)).
  assert (forall k, (k < 4)%nat -> sum_bytes work s !!! (i * 4 + k)%nat = byte_of (u32 (work !!! i + s !!! i)) k) as Hb.
  { intros k Hk. rewrite sum_at by lia.
    replace ((i * 4 + k) / 4)%nat with i by (rewrite Nat.div_add_l, Nat.div_small by lia; lia).
    by rewrite Nat.add_comm, Nat.Div0.mod_add, Nat.mod_small by lia. }
  rewrite <- (bytes_sum (u32 (work !!! i + s !!! i))) by apply u32_range.
  rewrite <- !Hb by lia. do 3 f_equal; f_equal; f_equal; lia.
Qed.

Lemma block_bytes_ok s : length (block_bytes s) = 64%nat /\ Forall is_u8 (block_bytes s).
Proof.
  unfold block_bytes. generalize (Nat.iter 10 double_round s). intros w.
  split; [apply sum_length|apply sum_u8].
Qed.

(** *** Absorbing a seed *)

Lemma lxor_u8 x y : is_u8 x -> is_u8 y -> is_u8 (x .^ y).
Proof.
  unfold is_u8. intros Hx Hy. assert (0 <= x .^ y) by (apply Z.lxor_nonneg; lia).
  split; [done|]. apply bits_bound; [done|lia|]. intros i Hi.
  rewrite Z.lxor_spec, (testbit_bound x 8), (testbit_bound y 8) by lia. done.
Qed.

Lemma xor_seed_spec block seed i :
  length block = 64%nat -> (i + length seed <= 64)%nat ->
  length (xor_seed block seed i) = 64%nat /\
  forall j, xor_seed block seed i !!! j =
    if decide (i <= j < i + length seed)%nat then block !!! j .^ seed !!! (j - i)%nat else block !!! j.
Proof.
  revert block i. induction seed as [|b seed IH]; intros block i Hl Hi; cbn [xor_seed length] in *.
  { split; [done|]. intros j. by rewrite decide_False by lia. }
  rewrite Nat.mod_small by lia.
  destruct (IH (<[i := block !!! i .^ b]> block) (S i)) as [Hl' Hb]; [by rewrite length_insert|lia|].
  split; [done|]. intros j. rewrite Hb. rewrite !lookup_total_insert_list by lia.
  destruct (decide (i = j)) as [<-|Hne].
  - rewrite decide_False, decide_True by lia. by rewrite Nat.sub_diag.
  - destruct (decide (S i <= j < S i + length seed)%nat).
    + rewrite decide_True by lia. by replace (j - i)%nat with (S (j - S i)) by lia.
    + by rewrite decide_False by lia.
Qed.

Lemma Forall_total (P : Z -> Prop) (l : list Z) n :
  length l = n -> (forall j, (j < n)%nat -> P (l !!! j)) -> Forall P l.
Proof.
  intros Hl H. apply Forall_lookup. intros j x Hx. rewrite <- (list_lookup_total_correct _ _ _ Hx).
  apply H. apply lookup_lt_Some in Hx. lia.
Qed.

(** The block a seed leaves behind. *)
Definition seeded_block (r : chacha_rng) (seed : list Z) : list Z :=
  xor_seed (block_bytes (chacha_state r)) seed 0.

Lemma seeded_block_ok r seed :
  (length seed <= 64)%nat -> Forall is_u8 seed ->
  length (seeded_block r seed) = 64%nat /\ Forall is_u8 (seeded_block r seed) /\
  forall j, (j < length seed)%nat ->
    seeded_block r seed !!! j = block_bytes (chacha_state r) !!! j .^ seed !!! j.
Proof.
  intros Hl Hs. unfold seeded_block, block_bytes. generalize (Nat.iter 10 double_round (chacha_state r)). intros w.
  destruct (xor_seed_spec (sum_bytes w (chacha_state r)) seed 0) as [Hlen Hb]; [apply sum_length|lia|].
  split_and!; [done| |].
  - apply (Forall_total _ _ 64); [done|]. intros j Hj. rewrite Hb.
    assert (is_u8 (sum_bytes w (chacha_state r) !!! j)).
    { apply (Forall_lookup_total is_u8); [apply sum_u8|by rewrite sum_length]. }
    case_decide; [|done]. apply lxor_u8; [done|]. apply (Forall_lookup_total is_u8); [done|lia].
  - intros j Hj. rewrite Hb, decide_True by lia. by rewrite Nat.sub_0_r.
Qed.

Definition absorbed (r : chacha_rng) (b : list Z) : chacha_rng :=
  mk_rng (load_key b)
    (u64 (counter r + 1) .^ (u64 (Z.shiftl (load32 b 44) 32) .| load32 b 48))
    [nonce r !!! 0%nat .^ load32 b 32; nonce r !!! 1%nat .^ load32 b 36; nonce r !!! 2%nat .^ load32 b 40]
    (buf r) (length (buf r)) (seeded r) (have_rndr r).

Lemma absorb_eq r seed : absorb_seed r seed = Some (absorbed r (seeded_block r seed)).
Proof. unfold absorb_seed. rewrite chacha_block_ok by apply length_replicate. reflexivity. Qed.

Lemma counter_word b :
  length b = 64%nat -> Forall is_u8 b ->
  u64 (Z.shiftl (load32 b 44) 32) .| load32 b 48 = load32 b 44 * 2 ^ 32 + load32 b 48.
Proof.
  intros Hl Hb. pose proof (load32_u32 b 44 Hb ltac:(lia)). pose proof (load32_u32 b 48 Hb ltac:(lia)).
  unfold is_u32 in *. rewrite Z.shiftl_mul_pow2 by lia. rewrite u64_small by (unfold is_u64; lia).
  rewrite Z.lor_comm, (lor_add _ _ 32) by (lia || (apply Z.mod_mul; lia)). lia.
Qed.

Lemma absorbed_ok r b : rng_ok r -> length b = 64%nat -> Forall is_u8 b -> rng_ok (absorbed r b).
Proof.
  intros [Hk [Hnl Hn] Hc Hb Hp] Hl Hu. assert (forall i, (i < 3)%nat -> is_u32 (nonce r !!! i)) as Hni.
  { intros i Hi. apply (Forall_lookup_total is_u32); [done|lia]. }
  split; cbn [absorbed key nonce counter buf pos].
  - unfold load_key. split; [by rewrite length_fmap, length_seq|]. apply Forall_fmap, List.Forall_forall.
    intros i Hi%in_seq. apply load32_u32; [done|lia].
  - split; [done|]. repeat apply Forall_cons_2; [..|by apply Forall_nil_2];
      (apply lxor_u32; [apply Hni; lia|apply load32_u32; [done|lia]]).
  - rewrite counter_word by done. apply lxor_u64; [apply u64_range|].
    pose proof (load32_u32 b 44 Hu ltac:(lia)). pose proof (load32_u32 b 48 Hu ltac:(lia)).
    unfold is_u32, is_u64 in *. lia.
  - done.
  - destruct Hb. lia.
Qed.

Lemma lxor_inj x y z : x .^ y = x .^ z -> y = z.
Proof.
  intros E. apply (f_equal (Z.lxor x)) in E. rewrite <- !Z.lxor_assoc, Z.lxor_nilpotent, !Z.lxor_0_l in E. done.
Qed.

Lemma absorbed_inj r b1 b2 :
  length b1 = 64%nat -> Forall is_u8 b1 -> length b2 = 64%nat -> Forall is_u8 b2 ->
  absorbed r b1 = absorbed r b2 -> forall j, (j < 52)%nat -> b1 !!! j = b2 !!! j.
Proof.
  intros L1 U1 L2 U2 E j Hj. 
  pose proof (f_equal key E) as Ek. pose proof (f_equal counter E) as Ec.
  pose proof (f_equal nonce E) as En. cbn [absorbed key counter nonce] in Ek, Ec, En.
  injection En as E0 E1 E2.
  apply lxor_inj in E0, E1, E2, Ec. rewrite !counter_word in Ec by done.
  pose proof (load32_u32 b1 48 U1 ltac:(lia)). pose proof (load32_u32 b2 48 U2 ltac:(lia)).
  assert (load32 b1 44 = load32 b2 44 /\ load32 b1 48 = load32 b2 48) as [E3 E4] by (unfold is_u32 in *; lia).
  assert (forall i, (i < 8)%nat -> load32 b1 (i * 4) = load32 b2 (i * 4)) as Hk.
  { intros i Hi. unfold load_key in Ek. apply (f_equal (fun l => l !! i)) in Ek.
    rewrite !list_lookup_fmap, lookup_seq_lt in Ek by done. by injection Ek. }
  assert (exists off, load32 b1 off = load32 b2 off /\ (off <= j < off + 4)%nat /\ (off + 4 <= 64)%nat) as (off & Eo & Hr & Hb).
  { destruct (decide (j < 32)%nat).
    - exists (j / 4 * 4)%nat. pose proof (Nat.div_mod_eq j 4). pose proof (Nat.mod_upper_bound j 4 ltac:(lia)).
      split; [apply Hk; lia|lia].
    - destruct (decide (j < 36)%nat); [exists 32%nat; split; [done|lia]|].
      destruct (decide (j < 40)%nat); [exists 36%nat; split; [done|lia]|].
      destruct (decide (j < 44)%nat); [exists 40%nat; split; [done|lia]|].
      destruct (decide (j < 48)%nat); [exists 44%nat|exists 48%nat]; (split; [done|lia]). }
  apply (load32_inj b1 b2 off); done || lia.
Qed.

(** *** The output loop *)

(** Bytes already handed out are wiped. *)
Definition wiped (r : chacha_rng) : Prop := forall i, (i < pos r)%nat -> buf r !!! i = 0.

Section Output.
Context {H : Type} (rndr_read : H -> option Z * H).

Lemma le_bytes_ok w : length (le_bytes w) = 8%nat /\ Forall is_u8 (le_bytes w).
Proof.
  unfold le_bytes. split; [by rewrite length_fmap, length_seq|].
  apply Forall_fmap, Forall_true. intros i. apply u8_range.
Qed.

Lemma refilled_ok r :
  rng_ok r -> rng_ok (set_buf (bump_counter r) (block_bytes (chacha_state r)) 0).
Proof.
  intros [Hk Hn Hc Hb Hp]. unfold block_bytes. generalize (Nat.iter 10 double_round (chacha_state r)). intros w.
  split; cbn [set_buf bump_counter key nonce counter buf pos]; try done;
    [apply u64_range|split; [apply sum_length|apply sum_u8]|lia].
Qed.

Lemma refill_ok r h :
  rng_ok r -> (wiped r \/ pos r = 64%nat) ->
  exists r' h', refill rndr_read r h = Some (r', h') /\ rng_ok r' /\ (pos r' < 64)%nat /\ wiped r'.
Proof.
  intros Hok Hw. pose proof Hok as [_ _ _ [Hl _] Hp]. unfold refill. rewrite Hl.
  destruct (Nat.leb_spec 64 (pos r)) as [Hge|Hlt].
  - destruct (rndr64 rndr_read r h) as [o h'].
    assert (exists r1, match o with
              | Some x => if counter r .& 0x3f =? 0 then absorb_seed r (le_bytes x) else Some r
              | None => Some r end = Some r1 /\ rng_ok r1) as (r1 & -> & Hok1).
    { destruct o as [x|]; [|by exists r]. destruct (_ =? 0); [|by exists r].
      rewrite absorb_eq. eexists. split; [done|]. destruct (le_bytes_ok x) as [Hxl Hxu].
      destruct (seeded_block_ok r (le_bytes x)) as (? & ? & _); [lia|done|]. by apply absorbed_ok. }
    cbn [obind]. rewrite chacha_block_ok by apply Hok1. cbn [obind].
    eexists _, h'. split; [done|]. split; [by apply refilled_ok|]. split; [simpl; lia|].
    intros i Hi. simpl in Hi. lia.
  - exists r, h. split_and!; try done. destruct Hw; [done|lia].
Qed.

Lemma take_byte_ok r :
  rng_ok r -> (pos r < 64)%nat -> wiped r ->
  is_u8 (buf r !!! pos r) /\
  rng_ok (set_buf r (<[pos r := 0]> (buf r)) (S (pos r))) /\
  wiped (set_buf r (<[pos r := 0]> (buf r)) (S (pos r))).
Proof.
  intros [Hk Hn Hc [Hl Hu] Hp] Hlt Hw. split_and!.
  - apply (Forall_lookup_total is_u8); [done|lia].
  - split; cbn; try done. rewrite length_insert. split; [done|]. by apply Forall_insert.
  - intros i Hi. cbn in *. rewrite lookup_total_insert_list by lia. case_decide; [done|]. apply Hw. lia.
Qed.

Lemma fill_ok r n h :
  rng_ok r -> (wiped r \/ pos r = 64%nat) ->
  exists out r' h', fill rndr_read r n h = Some (out, r', h') /\ length out = n /\ Forall is_u8 out /\
    rng_ok r' /\ (wiped r' \/ n = 0%nat /\ r' = r).
Proof.
  revert r h. induction n as [|n IH]; intros r h Hok Hw; cbn [fill].
  { exists [], r, h. split_and!; try done; by right. }
  destruct (refill_ok r h Hok Hw) as (r1 & h1 & -> & Hok1 & Hp1 & Hw1). cbn [obind].
  destruct (take_byte_ok r1 Hok1 Hp1 Hw1) as (Hb & Hok2 & Hw2).
  destruct (IH _ h1 Hok2 (or_introl Hw2)) as (out & r' & h' & -> & Hl & Hu & Hok' & Hw'). cbn [obind].
  eexists _, r', h'. split; [done|]. split; [simpl; lia|]. split; [by apply Forall_cons_2|]. split; [done|].
  left. by destruct Hw' as [|[_ ->]].
Qed.

(** The keystream from [r] on: the blocks of successive counters. *)
Fixpoint blocks (r : chacha_rng) (m : nat) : list Z :=
  match m with
  | O => []
  | S m' => block_bytes (chacha_state r) ++ blocks (bump_counter r) m'
  end.

Lemma blocks_same r r' m : key r = key r' -> counter r = counter r' -> nonce r = nonce r' -> blocks r m = blocks r' m.
Proof.
  intros Hk Hc Hn. revert r r' Hk Hc Hn. induction m as [|m IH]; intros r r' Hk Hc Hn; [done|]. cbn [blocks]. f_equal.
  - unfold chacha_state. by rewrite Hk, Hc, Hn.
  - apply IH; cbn; congruence.
Qed.

Lemma drop_zeroed (l : list Z) p : drop (S p) (<[p := 0]> l) = drop (S p) l.
Proof. apply drop_insert_lt. lia. Qed.

Lemma fill_stream r n h m :
  rng_ok r -> have_rndr r = false -> (n <= m)%nat ->
  exists r', fill rndr_read r n h = Some (take n (drop (pos r) (buf r) ++ blocks r m), r', h) /\
    key r' = key r /\ nonce r' = nonce r.
Proof.
  revert r m. induction n as [|n IH]; intros r m Hok Hr Hm; cbn [fill]; [by exists r|].
  pose proof Hok as [_ _ _ [Hl _] Hp]. unfold refill, rndr64. rewrite Hl, Hr. cbn [negb].
  destruct m as [|m]; [lia|]. destruct (Nat.leb_spec 64 (pos r)) as [Hge|Hlt]; cbn [obind].
  - rewrite chacha_block_ok by done. cbn [obind]. set (r1 := set_buf (bump_counter r) (block_bytes (chacha_state r)) 0).
    pose proof (refilled_ok r Hok) as Hok1. fold r1 in Hok1.
    destruct (take_byte_ok r1 Hok1 ltac:(simpl; lia) ltac:(intros i Hi; simpl in Hi; lia)) as (_ & Hok2 & _).
    destruct (IH (set_buf r1 (<[pos r1 := 0]> (buf r1)) (S (pos r1))) m Hok2 Hr ltac:(lia)) as (r' & -> & Hk & Hn).
    exists r'. cbn [obind]. split; [|done]. rewrite (drop_ge (buf r)) by lia. cbn [blocks app].
    rewrite (blocks_same _ (bump_counter r)) by done.
    change (pos r1) with 0%nat. change (buf r1) with (block_bytes (chacha_state r)).
    cbn [set_buf buf pos]. rewrite drop_zeroed.
    unfold block_bytes. generalize (Nat.iter 10 double_round (chacha_state r)). intros w.
    pose proof (sum_length w (chacha_state r)) as Hsl. by destruct (sum_bytes w (chacha_state r)).
  - destruct (lookup_lt_is_Some_2 (buf r) (pos r) ltac:(lia)) as [b Hb].
    assert (rng_ok (set_buf r (<[pos r := 0]> (buf r)) (S (pos r)))) as Hok2.
    { destruct Hok as [? ? ? [? ?] ?]. split; cbn; try done. rewrite length_insert. split; [done|]. by apply Forall_insert. }
    destruct (IH (set_buf r (<[pos r := 0]> (buf r)) (S (pos r))) (S m) Hok2 Hr ltac:(lia)) as (r' & -> & Hk & Hn).
    exists r'. cbn [obind]. split; [|done]. rewrite (blocks_same _ r) by done.
    cbn [set_buf buf pos]. rewrite drop_zeroed, (drop_S _ b (pos r) Hb).
    by rewrite (list_lookup_total_correct _ _ _ Hb).
Qed.

End Output.

(** ** Properties *)

(** A generator with the key, counter and nonce of the block-function test vector
    of RFC 8439, section 2.3.2. *)
Definition sample_rng : chacha_rng :=
  mk_rng [0x03020100; 0x07060504; 0x0b0a0908; 0x0f0e0d0c; 0x13121110; 0x17161514; 0x1b1a1918; 0x1f1e1d1c]
    (1 + 0x09000000 * 2 ^ 32) [0x4a000000; 0; 0] (replicate 64 0) 64 true false.

Lemma sample_rng_ok : rng_ok sample_rng.
Proof.
  split; cbn [sample_rng key nonce counter buf pos].
  - split; [done|by apply forallb_u32].
  - split; [done|by apply forallb_u32].
  - unfold is_u64. lia.
  - split; [done|]. apply Forall_replicate. unfold is_u8. lia.
  - lia.
Qed.

(** C40: the ten double rounds permute the ChaCha states: they map states to states
    and running the inverse steps backwards recovers the input. *)
Theorem chacha_rounds_permute (x : list Z) :
  words_ok x ->
  words_ok (Nat.iter 10 double_round x) /\
  Nat.iter 10 double_round_inv (Nat.iter 10 double_round x) = x.
Proof. apply rounds_step. Qed.

Lemma chacha_rounds_permute_witness :
  Nat.iter 10 double_round_inv (Nat.iter 10 double_round (chacha_state sample_rng)) = chacha_state sample_rng.
Proof.
  assert (words_ok (chacha_state sample_rng)) as Hw.
  { split; [vm_compute; reflexivity|]. apply forallb_u32. vm_compute. reflexivity. }
  exact (proj2 (chacha_rounds_permute (chacha_state sample_rng) Hw)).
Defined.

(** [chacha_block] fills a 64-byte array, whatever it held, with the sixteen
    little-endian sums of the permuted and the input state and advances the
    counter; an array of fewer bytes is overrun. *)
Theorem chacha_block_correct (r : chacha_rng) (out : list Z) :
  (length out = 64%nat ->
   exists b, chacha_block r out = Some (bump_counter r, b) /\ length b = 64%nat /\ Forall is_u8 b /\
     forall i, (i < 16)%nat -> load32 b (i * 4) = keystream (chacha_state r) i) /\
  ((length out < 64)%nat -> chacha_block r out = None).
Proof.
  split; [|apply chacha_block_short]. intros Hl. exists (block_bytes (chacha_state r)).
  split; [by apply chacha_block_ok|]. destruct (block_bytes_ok (chacha_state r)) as [Hbl Hbu].
  split; [exact Hbl|]. split; [exact Hbu|].
  intros i Hi. by apply block_words.
Qed.

(** The test vector of RFC 8439. *)
Lemma chacha_block_rfc8439 :
  snd <$> chacha_block sample_rng (local_array 64) = Some
    [0x10; 0xf1; 0xe7; 0xe4; 0xd1; 0x3b; 0x59; 0x15; 0x50; 0x0f; 0xdd; 0x1f; 0xa3; 0x20; 0x71; 0xc4;
     0xc7; 0xd1; 0xf4; 0xc7; 0x33; 0xc0; 0x68; 0x03; 0x04; 0x22; 0xaa; 0x9a; 0xc3; 0xd4; 0x6c; 0x4e;
     0xd2; 0x82; 0x64; 0x46; 0x07; 0x9f; 0xaa; 0x09; 0x14; 0xc2; 0xd7; 0x05; 0xd9; 0x8b; 0x02; 0xa2;
     0xb5; 0x12; 0x9c; 0xd1; 0xde; 0x16; 0x4e; 0xb9; 0xcb; 0xd0; 0x83; 0xe8; 0xa2; 0x50; 0x3c; 0x4e].
Proof. by vm_compute. Qed.

(** absorbing a seed of at most 52 bytes loses nothing: from the same state,
    different seeds lead to different states; the generator stays well formed. *)
Theorem absorb_seed_injective (r : chacha_rng) (s1 s2 : list Z) :
  rng_ok r -> length s1 = length s2 -> (length s1 <= 52)%nat -> Forall is_u8 s1 -> Forall is_u8 s2 ->
  exists r1 r2, absorb_seed r s1 = Some r1 /\ absorb_seed r s2 = Some r2 /\ rng_ok r1 /\ rng_ok r2 /\
    (r1 = r2 -> s1 = s2).
Proof.
  intros Hok Hl Hn H1 H2. rewrite !absorb_eq.
  destruct (seeded_block_ok r s1) as (L1 & U1 & B1); [lia|done|].
  destruct (seeded_block_ok r s2) as (L2 & U2 & B2); [lia|done|].
  eexists _, _. split; [done|]. split; [done|]. split; [by apply absorbed_ok|]. split; [by apply absorbed_ok|].
  intros E. apply (list_eq_total _ _ (length s1)); [done|done|]. intros j Hj.
  apply (lxor_inj (block_bytes (chacha_state r) !!! j)). rewrite <- B1, <- B2 by lia.
  apply (absorbed_inj r); done || lia.
Qed.

Lemma absorb_seed_injective_witness :
  exists r1 r2, absorb_seed sample_rng [1; 2; 3] = Some r1 /\ absorb_seed sample_rng [1; 2; 4] = Some r2 /\ r1 <> r2.
Proof.
  destruct (absorb_seed_injective sample_rng [1; 2; 3] [1; 2; 4] sample_rng_ok eq_refl ltac:(simpl; lia)
    ltac:(repeat (apply Forall_cons_2; [unfold is_u8; lia|]); apply Forall_nil_2)
    ltac:(repeat (apply Forall_cons_2; [unfold is_u8; lia|]); apply Forall_nil_2))
    as (r1 & r2 & E1 & E2 & _ & _ & Hi).
  exists r1, r2. split; [exact E1|]. split; [exact E2|]. intros E. discriminate (Hi E).
Defined.

(** the output loop of [random_bytes] returns [n] bytes from any well-formed
    generator and leaves every byte it took from the buffer zeroed; without
    hardware reseeding the bytes are the rest of the buffer followed by the
    keystream blocks of successive counters. *)
Theorem random_fill_correct {H : Type} (rndr_read : H -> option Z * H) (r : chacha_rng) (n : nat) (h : H) :
  rng_ok r -> pos r = 64%nat ->
  (exists out r' h', fill rndr_read r n h = Some (out, r', h') /\ length out = n /\ Forall is_u8 out /\
     rng_ok r' /\ (wiped r' \/ n = 0%nat /\ r' = r)) /\
  (have_rndr r = false -> exists r', fill rndr_read r n h = Some (take n (blocks r n), r', h)).
Proof.
  intros Hok Hp. split; [apply fill_ok; by auto|]. intros Hr.
  destruct (fill_stream rndr_read r n h n Hok Hr (le_n n)) as (r' & E & _). exists r'.
  rewrite E. destruct Hok as [_ _ _ [Hl _] _]. by rewrite drop_ge by lia.
Qed.

Lemma random_fill_correct_witness :
  exists r', fill (fun h : unit => (None, h)) sample_rng 70 tt = Some (take 70 (blocks sample_rng 70), r', tt).
Proof. exact (proj2 (random_fill_correct (fun h : unit => (None, h)) sample_rng 70 tt sample_rng_ok eq_refl) eq_refl). Defined.

(** *** What the last step does *)

(** C24: [random_bytes] hands [chacha_block] an array of 32 bytes: whatever the
    hardware returns and however many bytes are asked for, the call writes past
    the end of that array and has no defined result. *)
Theorem random_bytes_overruns {H : Type} (counter_value : H -> Z * H) (rndr_read : H -> option Z * H)
    (sup : bool) (a b c : Z) (r : chacha_rng) (len : nat) (h : H) :
  random_bytes counter_value rndr_read sup a b c r len h = None.
Proof.
  unfold random_bytes, obind. destruct (if negb (seeded r) then _ else _) as [[r1 h1]|]; [|done].
  destruct (fill rndr_read r1 len h1) as [[[out r2] h2]|]; [|done].
  by rewrite chacha_block_short by (simpl; lia).
Qed.

(** Of a 64-byte seed, as [random_init] uses, the last twelve bytes have no effect. *)
Lemma absorb_seed_ignores_tail r seed :
  (length seed <= 64)%nat -> Forall is_u8 seed -> absorb_seed r (take 52 seed) = absorb_seed r seed.
Proof.
  intros Hl Hu. rewrite !absorb_eq. f_equal. unfold seeded_block, block_bytes.
  generalize (Nat.iter 10 double_round (chacha_state r)). intros w.
  destruct (xor_seed_spec (sum_bytes w (chacha_state r)) seed 0) as [L1 B1]; [apply sum_length|lia|].
  destruct (xor_seed_spec (sum_bytes w (chacha_state r)) (take 52 seed) 0) as [L2 B2];
    [apply sum_length|rewrite length_take; lia|].
  assert (forall j, (j < 52)%nat ->
    xor_seed (sum_bytes w (chacha_state r)) (take 52 seed) 0 !!! j =
    xor_seed (sum_bytes w (chacha_state r)) seed 0 !!! j) as Hsame.
  { intros j Hj. rewrite B1, B2, length_take. repeat case_decide; try lia; try done.
    f_equal. rewrite !list_lookup_total_alt. by rewrite lookup_take_lt by lia. }
  assert (forall off, (off + 4 <= 52)%nat ->
    load32 (xor_seed (sum_bytes w (chacha_state r)) (take 52 seed) 0) off =
    load32 (xor_seed (sum_bytes w (chacha_state r)) seed 0) off) as Hload.
  { intros off Ho. unfold load32. by rewrite !Hsame by lia. }
  unfold absorbed. rewrite !Hload by lia. f_equal. unfold load_key. apply list_fmap_ext.
  intros i x Hx. apply Hload. apply lookup_seq in Hx. lia.
Qed.
