(* ===== verification/Vmm.v ===== *)
(** User page tables ([kernel/src/mm/vmm.c]).

    The tables are 512-entry arrays of 64-bit descriptors in physical pages,
    read and written through the direct map: a [uint64_t *] into a table is the
    kernel virtual address of its first word and [table[i]] is a little-endian
    load or store at that address plus [8 * i]. The machine is the page
    allocator, kernel memory, and the TLB maintenance operations issued so far,
    newest first; the [asm] blocks of the freestanding build are those
    operations. A function whose C result goes through a pointer returns it as
    an option, [None] being [false] or [NULL]. *)

From stdpp Require Import base numbers list option.
From Stdlib Require Import ZArith Lia.
From S2P Require Import Prelude Mem Pmm.
Import Pmm.

Module Vmm.

Definition PTE_VALID : Z := Z.shiftl 1 0.
Definition PTE_TABLE : Z := Z.shiftl 1 1.
Definition PTE_AF : Z := Z.shiftl 1 10.
Definition PTE_SH_INNER : Z := Z.shiftl 3 8.
Definition PTE_AP_MASK : Z := Z.shiftl 3 6.
Definition PTE_AP_USER_RW : Z := Z.shiftl 1 6.
Definition PTE_AP_USER_RO : Z := Z.shiftl 3 6.
Definition PTE_PXN : Z := Z.shiftl 1 53.
Definition PTE_UXN : Z := Z.shiftl 1 54.
Definition PTE_COW : Z := Z.shiftl 1 55.
Definition PTE_ADDR_MASK : Z := 0x0000fffffffff000.

Definition VMM_USER_READ : Z := Z.shiftl 1 0.
Definition VMM_USER_WRITE : Z := Z.shiftl 1 1.
Definition VMM_USER_EXEC : Z := Z.shiftl 1 2.

Inductive vmm_access := VMM_ACCESS_READ | VMM_ACCESS_WRITE | VMM_ACCESS_EXEC.

#[export] Instance vmm_access_eq_dec : EqDecision vmm_access.
Proof. solve_decision. Defined.

Record user_address_space := mk_as {
  root_pa : Z;
  hhdm_offset : Z;
  brk_base : Z;
  brk_current : Z;
  mmap_base : Z;
  asid : Z;
}.

(** Writes to TTBR0 and TLB invalidations. *)
Inductive mmu_op :=
| TlbiVa (op : Z)
| TlbiAll
| SetTtbr0 (ttbr : Z).

Record machine := mk_machine {
  m_pmm : pmm;
  m_mem : Mem.kmem;
  m_mmu : list mmu_op;
}.

Definition put_pmm (w : machine) (s : pmm) : machine := mk_machine s (m_mem w) (m_mmu w).
Definition put_mem (w : machine) (m : Mem.kmem) : machine := mk_machine (m_pmm w) m (m_mmu w).
Definition mmu (w : machine) (op : mmu_op) : machine := mk_machine (m_pmm w) (m_mem w) (op :: m_mmu w).

Definition alloc_zero_page (w : machine) : Z * machine :=
  let '(pa, s, m) := pmm_alloc_zero_page (m_pmm w) (m_mem w) in (pa, mk_machine s m (m_mmu w)).
Definition free_page (pa : Z) (w : machine) : machine := put_pmm w (pmm_free_page (m_pmm w) pa).
Definition share_page (pa : Z) (w : machine) : bool * machine :=
  let '(b, s) := pmm_share_page (m_pmm w) pa in (b, put_pmm w s).

(** [table[i]] and [*pte]. *)
Definition pte_addr (table index : Z) : Z := u64 (table + 8 * index).
Definition get (w : machine) (pte : Z) : Z := Mem.load64 (m_mem w) pte.
Definition put (w : machine) (pte entry : Z) : machine := put_mem w (Mem.store64 (m_mem w) pte entry).

Definition pt_virt (as_ : user_address_space) (pa : Z) : Z := u64 (hhdm_offset as_ + pa).

Definition pt_index (va shift : Z) : Z := Z.shiftr va shift .& 0x1ff.

Definition checked_add (a b : Z) : option Z :=
  let out := u64 (a + b) in if a <=? out then Some out else None.

Definition flush_all_user_tlb (w : machine) : machine := mmu w TlbiAll.

Definition vmm_flush_user_va (va : Z) (w : machine) : machine := mmu w (TlbiVa (Z.shiftr va 12)).

Definition vmm_user_init (hhdm : Z) (w : machine) : option user_address_space * machine :=
  let '(root, w) := alloc_zero_page w in
  if root =? 0 then (None, w) else (Some (mk_as root hhdm 0 0 0x0000007000000000 0), w).

Definition ensure_table (as_ : user_address_space) (table index : Z) (w : machine) : option Z * machine :=
  let entry := get w (pte_addr table index) in
  if negb (has entry PTE_VALID) then
    let '(pa, w) := alloc_zero_page w in
    if pa =? 0 then (None, w) else
    let w := put w (pte_addr table index) (pa .| PTE_VALID .| PTE_TABLE) in
    let entry := get w (pte_addr table index) in
    if negb (has entry PTE_TABLE) then (None, w) else (Some (pt_virt as_ (entry .& PTE_ADDR_MASK)), w)
  else
    if negb (has entry PTE_TABLE) then (None, w) else (Some (pt_virt as_ (entry .& PTE_ADDR_MASK)), w).

(** The three calls that find or make the last-level table of [va]. *)
Definition ensure_tables (as_ : user_address_space) (va : Z) (w : machine) : option Z * machine :=
  let l0 := pt_virt as_ (root_pa as_) in
  let '(r1, w) := ensure_table as_ l0 (pt_index va 39) w in
  match r1 with
  | None => (None, w)
  | Some l1 =>
      let '(r2, w) := ensure_table as_ l1 (pt_index va 30) w in
      match r2 with
      | None => (None, w)
      | Some l2 => ensure_table as_ l2 (pt_index va 21) w
      end
  end.

Definition vmm_map_page (as_ : user_address_space) (va pa flags : Z) (w : machine) : bool * machine :=
  let '(r, w) := ensure_tables as_ va w in
  match r with
  | None => (false, w)
  | Some l3 =>
      let ap := if has flags VMM_USER_WRITE then PTE_AP_USER_RW else PTE_AP_USER_RO in
      let xn := if has flags VMM_USER_EXEC then 0 else PTE_UXN in
      let w := put w (pte_addr l3 (pt_index va 12))
        (pa .& PTE_ADDR_MASK .| PTE_VALID .| PTE_TABLE .| PTE_AF .| PTE_SH_INNER .| ap .| PTE_PXN .| xn) in
      (true, vmm_flush_user_va va w)
  end.

Definition vmm_map_page_cow (as_ : user_address_space) (va pa flags : Z) (w : machine) : bool * machine :=
  let '(r, w) := ensure_tables as_ va w in
  match r with
  | None => (false, w)
  | Some l3 =>
      let xn := if has flags VMM_USER_EXEC then 0 else PTE_UXN in
      let w := put w (pte_addr l3 (pt_index va 12))
        (pa .& PTE_ADDR_MASK .| PTE_VALID .| PTE_TABLE .| PTE_AF .| PTE_SH_INNER .| PTE_AP_USER_RO .|
         PTE_PXN .| xn .| PTE_COW) in
      (true, vmm_flush_user_va va w)
  end.

Definition vmm_alloc_page (as_ : user_address_space) (va flags : Z) (w : machine) : bool * machine :=
  let '(pa, w) := alloc_zero_page w in
  if pa =? 0 then (false, w) else vmm_map_page as_ va pa flags w.

Definition is_leaf_at_level (entry level : Z) : bool :=
  if negb (has entry PTE_VALID) then false else (level =? 3) || negb (has entry PTE_TABLE).

Definition is_writable_leaf (entry : Z) : bool := entry .& PTE_AP_MASK =? PTE_AP_USER_RW.

Definition leaf_with_ap (entry ap : Z) : Z := entry .& not64 PTE_AP_MASK .| ap.

(** The loop of [clone_table_cow] with [n] indices left; [rec] is the call for
    the next level. The result is [None] when that call ran out of fuel. *)
Fixpoint clone_entries (rec : Z -> Z -> machine -> option (bool * machine)) (dst_table src_table level : Z)
    (n : nat) (i : Z) (w : machine) : option (bool * machine) :=
  match n with
  | O => Some (true, w)
  | S n' =>
      let entry := get w (pte_addr src_table i) in
      if negb (has entry PTE_VALID) then clone_entries rec dst_table src_table level n' (i + 1) w else
      if is_leaf_at_level entry level then
        let '(ok, w) := share_page (entry .& PTE_ADDR_MASK) w in
        if negb ok then Some (false, w) else
        let '(entry, w) :=
          if is_writable_leaf entry || has entry PTE_COW then
            let entry := leaf_with_ap (entry .| PTE_COW) PTE_AP_USER_RO in
            (entry, put w (pte_addr src_table i) entry)
          else (entry, w) in
        clone_entries rec dst_table src_table level n' (i + 1) (put w (pte_addr dst_table i) entry)
      else
        let '(child_pa, w) := alloc_zero_page w in
        if child_pa =? 0 then Some (false, w) else
        let w := put w (pte_addr dst_table i) (child_pa .| PTE_VALID .| PTE_TABLE) in
        let* (ok, w) := rec child_pa (entry .& PTE_ADDR_MASK) w in
        if negb ok then Some (false, w) else clone_entries rec dst_table src_table level n' (i + 1) w
  end.

Fixpoint clone_table_cow (fuel : nat) (dst src : user_address_space) (level dst_table_pa src_table_pa : Z)
    (w : machine) : option (bool * machine) :=
  match fuel with
  | O => None
  | S f =>
      clone_entries (clone_table_cow f dst src (level + 1)) (pt_virt dst dst_table_pa) (pt_virt src src_table_pa)
        level 512 0 w
  end.

(** The recursion of the table walks is four levels deep. *)
Definition LEVELS : nat := 4.

Definition vmm_clone_cow (src : user_address_space) (asid_ : Z) (w : machine) :
    option (bool * option user_address_space * machine) :=
  let '(root, w) := alloc_zero_page w in
  if root =? 0 then Some (false, None, w) else
  let dst := mk_as root (hhdm_offset src) (brk_base src) (brk_current src) (mmap_base src) asid_ in
  let* (ok, w) := clone_table_cow LEVELS dst src 0 root (root_pa src) w in
  Some (ok, Some dst, flush_all_user_tlb w).

(** The checks of a table descriptor on the way down. *)
Definition next_table (as_ : user_address_space) (entry : Z) : option Z :=
  if negb (entry .& (PTE_VALID .| PTE_TABLE) =? PTE_VALID .| PTE_TABLE) then None
  else Some (pt_virt as_ (entry .& PTE_ADDR_MASK)).

Definition leaf_for_va (as_ : user_address_space) (va : Z) (w : machine) : option Z :=
  let l0 := pt_virt as_ (root_pa as_) in
  let* l1 := next_table as_ (get w (pte_addr l0 (pt_index va 39))) in
  let* l2 := next_table as_ (get w (pte_addr l1 (pt_index va 30))) in
  let* l3 := next_table as_ (get w (pte_addr l2 (pt_index va 21))) in
  Some (pte_addr l3 (pt_index va 12)).

(** [for (va = start; va < end; va += PAGE_SIZE)]: the body continues with
    [inl] and returns from the function with [inr]. *)
Definition pages_step {R} (body : Z -> machine -> machine + R) (exit : machine -> R) (end_ : Z)
    (st : Z * machine) : (Z * machine) + R :=
  let '(va, w) := st in
  if va <? end_ then
    match body va w with
    | inl w => inl (u64 (va + PAGE_SIZE), w)
    | inr r => inr r
    end
  else inr (exit w).

(** One turn per page of the range and one to leave. *)
Definition pages_fuel (start end_ : Z) : nat := S (S (Z.to_nat ((end_ - start) / PAGE_SIZE))).

Definition for_pages {R} (body : Z -> machine -> machine + R) (exit : machine -> R) (start end_ : Z)
    (w : machine) : option R :=
  iter (pages_step body exit end_) (pages_fuel start end_) (start, w).

Definition valid_at (pte : option Z) (w : machine) : bool :=
  match pte with None => false | Some p => has (get w p) PTE_VALID end.

Definition restored (entry ap xn : Z) : Z :=
  leaf_with_ap (entry .& not64 PTE_COW) ap .& not64 PTE_UXN .| xn.

Definition vmm_restore_shared_range (a b : user_address_space) (start end_ flags : Z) (w : machine) :
    option (bool * machine) :=
  if end_ <=? start then Some (false, w) else
  let ap := if has flags VMM_USER_WRITE then PTE_AP_USER_RW else PTE_AP_USER_RO in
  let xn := if has flags VMM_USER_EXEC then 0 else PTE_UXN in
  for_pages
    (fun va w =>
       match leaf_for_va a va w, leaf_for_va b va w with
       | Some a_pte, Some b_pte =>
           if negb (has (get w a_pte) PTE_VALID) || negb (has (get w b_pte) PTE_VALID) then inl w else
           if negb (get w a_pte .& PTE_ADDR_MASK =? get w b_pte .& PTE_ADDR_MASK) then inr (false, w) else
           let a_entry := restored (get w a_pte) ap xn in
           let b_entry := restored (get w b_pte) ap xn in
           inl (vmm_flush_user_va va (put (put w a_pte a_entry) b_pte b_entry))
       | _, _ => inl w
       end)
    (fun w => (true, flush_all_user_tlb w)) start end_ w.

(** The loop of [destroy_table] with [n] indices left. *)
Fixpoint destroy_entries (rec : Z -> machine -> option machine) (table level : Z) (n : nat) (i : Z)
    (w : machine) : option machine :=
  match n with
  | O => Some w
  | S n' =>
      let entry := get w (pte_addr table i) in
      if negb (has entry PTE_VALID) then destroy_entries rec table level n' (i + 1) w else
      let pa := entry .& PTE_ADDR_MASK in
      if is_leaf_at_level entry level then destroy_entries rec table level n' (i + 1) (free_page pa w)
      else let* w := rec pa w in destroy_entries rec table level n' (i + 1) w
  end.

Fixpoint destroy_table (fuel : nat) (as_ : user_address_space) (level table_pa : Z) (w : machine) :
    option machine :=
  match fuel with
  | O => None
  | S f =>
      let* w := destroy_entries (destroy_table f as_ (level + 1)) (pt_virt as_ table_pa) level 512 0 w in
      Some (free_page table_pa w)
  end.

Definition vmm_destroy (as_ : user_address_space) (w : machine) : option (user_address_space * machine) :=
  if negb (root_pa as_ =? 0) then
    let* w := destroy_table LEVELS as_ 0 (root_pa as_) w in
    Some (mk_as 0 (hhdm_offset as_) (brk_base as_) (brk_current as_) (mmap_base as_) (asid as_), w)
  else Some (as_, w).

Definition user_entry_allows (entry : Z) (access : vmm_access) : bool :=
  match access with
  | VMM_ACCESS_READ => true
  | VMM_ACCESS_WRITE => entry .& PTE_AP_MASK =? PTE_AP_USER_RW
  | VMM_ACCESS_EXEC => entry .& PTE_UXN =? 0
  end.

Definition user_to_phys_checked (as_ : user_address_space) (va : Z) (access : vmm_access) (w : machine) : Z :=
  let l0 := pt_virt as_ (root_pa as_) in
  match next_table as_ (get w (pte_addr l0 (pt_index va 39))) with
  | None => 0
  | Some l1 =>
      match next_table as_ (get w (pte_addr l1 (pt_index va 30))) with
      | None => 0
      | Some l2 =>
          match next_table as_ (get w (pte_addr l2 (pt_index va 21))) with
          | None => 0
          | Some l3 =>
              let entry := get w (pte_addr l3 (pt_index va 12)) in
              if negb (has entry PTE_VALID) then 0 else
              if negb (user_entry_allows entry access) then 0 else
              entry .& PTE_ADDR_MASK .| va .& 0xfff
          end
      end
  end.

Definition vmm_handle_cow_fault (as_ : user_address_space) (va : Z) (w : machine) : bool * machine :=
  match leaf_for_va as_ va w with
  | None => (false, w)
  | Some pte =>
      if negb (get w pte .& (PTE_VALID .| PTE_COW) =? PTE_VALID .| PTE_COW) then (false, w) else
      let old_entry := get w pte in
      let old_pa := old_entry .& PTE_ADDR_MASK in
      if pmm_is_last_ref (m_pmm w) old_pa then
        let w := put w pte (leaf_with_ap (old_entry .& not64 PTE_COW) PTE_AP_USER_RW) in
        (true, vmm_flush_user_va va w)
      else
        let '(new_pa, w) := alloc_zero_page w in
        if new_pa =? 0 then (false, w) else
        let w := put_mem w (Mem.kmemcpy (m_mem w) (u64 (hhdm_offset as_ + new_pa))
                              (u64 (hhdm_offset as_ + old_pa)) PAGE_SIZE) in
        let w := vmm_flush_user_va va (put w pte 0) in
        let new_entry := leaf_with_ap (old_entry .& not64 PTE_ADDR_MASK .& not64 PTE_COW .| new_pa .& PTE_ADDR_MASK)
                           PTE_AP_USER_RW in
        let w := put w pte new_entry in
        let w := free_page old_pa w in
        (true, vmm_flush_user_va va w)
  end.

Definition vmm_user_to_phys (as_ : user_address_space) (va : Z) (w : machine) : Z :=
  user_to_phys_checked as_ va VMM_ACCESS_READ w.

Definition vmm_is_mapped (as_ : user_address_space) (va : Z) (w : machine) : bool :=
  valid_at (leaf_for_va as_ va w) w.

Definition vmm_move_page (as_ : user_address_space) (old_va new_va : Z) (w : machine) : bool * machine :=
  match leaf_for_va as_ old_va w with
  | None => (true, w)
  | Some old_pte =>
      if negb (has (get w old_pte) PTE_VALID) then (true, w) else
      let '(r, w) := ensure_tables as_ new_va w in
      match r with
      | None => (false, w)
      | Some l3 =>
          let new_pte := pte_addr l3 (pt_index new_va 12) in
          if has (get w new_pte) PTE_VALID then (false, w) else
          let w := put w new_pte (get w old_pte) in
          let w := put w old_pte 0 in
          (true, vmm_flush_user_va new_va (vmm_flush_user_va old_va w))
      end
  end.

Definition vmm_unmap_range (as_ : user_address_space) (start end_ : Z) (w : machine) : option machine :=
  for_pages
    (fun va w =>
       match leaf_for_va as_ va w with
       | None => inl w
       | Some pte =>
           if negb (has (get w pte) PTE_VALID) then inl w else
           let pa := get w pte .& PTE_ADDR_MASK in
           inl (vmm_flush_user_va va (free_page pa (put w pte 0)))
       end)
    (fun w => w) start end_ w.

Definition protected (entry flags : Z) : Z :=
  let ap := if has flags VMM_USER_WRITE then PTE_AP_USER_RW else PTE_AP_USER_RO in
  let entry := leaf_with_ap entry ap in
  if has flags VMM_USER_EXEC then entry .& not64 PTE_UXN else entry .| PTE_UXN.

Definition vmm_protect_range (as_ : user_address_space) (start end_ flags : Z) (w : machine) : option machine :=
  for_pages
    (fun va w =>
       match leaf_for_va as_ va w with
       | None => inl w
       | Some pte =>
           if negb (has (get w pte) PTE_VALID) then inl w else
           inl (vmm_flush_user_va va (put w pte (protected (get w pte) flags)))
       end)
    (fun w => w) start end_ w.

(** The loop counts in [size_t]; the machine does not change. *)
Definition count_step (as_ : user_address_space) (end_ : Z) (w : machine) (st : Z * Z) : (Z * Z) + Z :=
  let '(va, pages) := st in
  if va <? end_ then
    inl (u64 (va + PAGE_SIZE), if vmm_is_mapped as_ va w then u64 (pages + 1) else pages)
  else inr pages.

Definition vmm_mapped_pages_in_range (as_ : user_address_space) (start end_ : Z) (w : machine) : option Z :=
  iter (count_step as_ end_ w) (pages_fuel start end_) (start, 0).

Definition page_of (va : Z) : Z := va .& not64 (PAGE_SIZE - 1).

Definition access_step (as_ : user_address_space) (access : vmm_access) (last : Z) (w : machine) (page : Z) :
    Z + bool :=
  if user_to_phys_checked as_ page access w =? 0 then inr false else
  if page =? last then inr true else
  inl (u64 (page + PAGE_SIZE)).

Definition vmm_user_range_accessible (as_ : user_address_space) (va len : Z) (access : vmm_access) (w : machine) :
    option bool :=
  if len =? 0 then Some true else
  match checked_add va (len - 1) with
  | None => Some false
  | Some end_ =>
      iter (access_step as_ access (page_of end_) w) (pages_fuel (page_of va) (page_of end_)) (page_of va)
  end.

(** The first loop of [vmm_copy_to_user] makes every page writable. *)
Definition prepare_step (as_ : user_address_space) (last : Z) (st : Z * machine) : (Z * machine) + (bool * machine) :=
  let '(page, w) := st in
  let '(ok, w) :=
    if user_to_phys_checked as_ page VMM_ACCESS_WRITE w =? 0 then vmm_handle_cow_fault as_ page w else (true, w) in
  if negb ok then inr (false, w) else
  if page =? last then inr (true, w) else
  inl (u64 (page + PAGE_SIZE), w).

Definition chunk_at (va len done : Z) : Z :=
  let page_off := va .& (PAGE_SIZE - 1) in
  let chunk := PAGE_SIZE - page_off in
  if len - done <? chunk then len - done else chunk.

Definition copy_out_step (as_ : user_address_space) (dst src len : Z) (st : Z * machine) :
    (Z * machine) + (bool * machine) :=
  let '(done, w) := st in
  if done <? len then
    let va := u64 (dst + done) in
    let chunk := chunk_at va len done in
    let pa := user_to_phys_checked as_ va VMM_ACCESS_WRITE w in
    let '(ok, pa, w) :=
      if pa =? 0 then
        let '(ok, w) := vmm_handle_cow_fault as_ va w in
        if negb ok then (false, 0, w) else
        let pa := user_to_phys_checked as_ va VMM_ACCESS_WRITE w in
        (negb (pa =? 0), pa, w)
      else (true, pa, w) in
    if negb ok then inr (false, w) else
    inl (done + chunk, put_mem w (Mem.kmemcpy (m_mem w) (u64 (hhdm_offset as_ + pa)) (u64 (src + done)) chunk))
  else inr (true, w).

(** At most one chunk per page touched, and one turn to leave. *)
Definition copy_fuel (len : Z) : nat := S (S (S (Z.to_nat (len / PAGE_SIZE)))).

Definition vmm_copy_to_user (as_ : user_address_space) (dst src len : Z) (w : machine) : option (bool * machine) :=
  if len =? 0 then Some (true, w) else
  match checked_add dst (len - 1) with
  | None => Some (false, w)
  | Some end_ =>
      let* (ok, w) :=
        iter (prepare_step as_ (page_of end_)) (pages_fuel (page_of dst) (page_of end_)) (page_of dst, w) in
      if negb ok then Some (false, w) else
      iter (copy_out_step as_ dst src len) (copy_fuel len) (0, w)
  end.

Definition copy_in_step (as_ : user_address_space) (dst src len : Z) (st : Z * machine) :
    (Z * machine) + (bool * machine) :=
  let '(done, w) := st in
  if done <? len then
    let va := u64 (src + done) in
    let chunk := chunk_at va len done in
    let pa := user_to_phys_checked as_ va VMM_ACCESS_READ w in
    if pa =? 0 then inr (false, w) else
    inl (done + chunk, put_mem w (Mem.kmemcpy (m_mem w) (u64 (dst + done)) (u64 (hhdm_offset as_ + pa)) chunk))
  else inr (true, w).

Definition vmm_copy_from_user (as_ : user_address_space) (dst src len : Z) (w : machine) : option (bool * machine) :=
  if len =? 0 then Some (true, w) else
  match checked_add src (len - 1) with
  | None => Some (false, w)
  | Some _ =>
      let* ok := vmm_user_range_accessible as_ src len VMM_ACCESS_READ w in
      if negb ok then Some (false, w) else
      iter (copy_in_step as_ dst src len) (copy_fuel len) (0, w)
  end.

Definition vmm_tcr_with_ttbr0 (tcr : Z) : Z :=
  let clear := 0x3f .| Z.shiftl 1 7 .| Z.shiftl 3 8 .| Z.shiftl 3 10 .| Z.shiftl 3 12 .| Z.shiftl 3 14 .|
               Z.shiftl 7 32 in
  tcr .& not64 clear .| 16 .| Z.shiftl 1 8 .| Z.shiftl 1 10 .| Z.shiftl 3 12 .| Z.shiftl 1 32.

Definition vmm_install_user (as_ : user_address_space) (w : machine) : machine :=
  mmu (mmu w (SetTtbr0 (root_pa as_ .| u64 (Z.shiftl (asid as_) 48)))) TlbiAll.

End Vmm.
