(* ===== verification/VmmInv.v ===== *)
(** The invariant of user page tables and the lemmas that keep it.

    All the address spaces of the system are described at once. A key is the
    number of an address space followed by table indices: [T] maps the key of
    each table (one to four elements) to its page, [L] the key of each mapped
    page (five elements) to its leaf descriptor, and [U] counts the references
    to a page held outside the page tables. [Inv] ties the three to the words in
    memory and to the reference counts of the allocator: a table page is
    referenced once, by its parent; any other page exactly as often as leaves map
    it and outside users hold it. *)

From stdpp Require Import base numbers list option gmap fin_maps.
From Stdlib Require Import ZArith Lia.
From S2P Require Import Prelude Mem Pmm PmmSpec Vmm.
Import Pmm Vmm.

(** ** Descriptors *)

(** The page a descriptor points to. *)
Definition fr (e : Z) : Z := e .& PTE_ADDR_MASK.

Definition table_entry (pa : Z) : Z := pa .| PTE_VALID .| PTE_TABLE.

Definition cow_bit (e : Z) : bool := Z.testbit e 55.
Definition exec_bit (e : Z) : bool := negb (Z.testbit e 54).
Definition write_bit (e : Z) : bool := Z.testbit e 6 && negb (Z.testbit e 7).

Lemma testbit_addr_mask n : 0 <= n -> Z.testbit PTE_ADDR_MASK n = (12 <=? n) && (n <? 48).
Proof.
  intros Hn. change PTE_ADDR_MASK with (Z.shiftl (Z.ones 36) 12). rewrite Z.shiftl_spec by done.
  destruct (Z.leb_spec 12 n); simpl.
  - rewrite Z.testbit_ones_nonneg by lia. zcases; lia.
  - by rewrite Z.testbit_neg_r by lia.
Qed.

Lemma fr_eq e : fr e = (e / 2 ^ 12) mod 2 ^ 36 * 2 ^ 12.
Proof.
  apply Z.bits_inj'. intros n Hn. unfold fr.
  rewrite Z.land_spec, testbit_addr_mask, <- Z.shiftl_mul_pow2, Z.shiftl_spec by lia.
  destruct (Z.leb_spec 12 n).
  - rewrite Z.testbit_mod_pow2, <- Z.shiftr_div_pow2, Z.shiftr_spec by lia.
    replace (n - 12 + 12) with n by lia. zcases; try lia; by rewrite ?andb_true_r, ?andb_false_r.
  - rewrite (Z.testbit_neg_r _ (n - 12)) by lia. by rewrite andb_false_r.
Qed.

Lemma fr_range e : 0 <= fr e < 2 ^ 48 /\ fr e mod PAGE_SIZE = 0.
Proof.
  rewrite fr_eq. unfold PAGE_SIZE. change (2 ^ 12) with 4096. rewrite Z.mod_mul by lia.
  split; [|done]. dmlia.
Qed.

Lemma fr_page pa : 0 <= pa < 2 ^ 48 -> pa mod PAGE_SIZE = 0 -> fr pa = pa.
Proof. intros Hpa Hm. rewrite fr_eq. unfold PAGE_SIZE in *. change (2 ^ 12) with 4096. dmlia. Qed.

(** [fr] of a descriptor built with [.|] and [.&] of constants. *)
Lemma fr_lor a b : fr (a .| b) = fr a .| fr b.
Proof. apply Z.land_lor_distr_l. Qed.

Lemma fr_land_const a k : k .& PTE_ADDR_MASK = PTE_ADDR_MASK -> fr (a .& k) = fr a.
Proof. intros Hk. unfold fr. by rewrite <- Z.land_assoc, Hk. Qed.

Lemma fr_lor_const a k : k .& PTE_ADDR_MASK = 0 -> fr (a .| k) = fr a.
Proof. intros Hk. rewrite fr_lor. unfold fr at 2. by rewrite Hk, Z.lor_0_r. Qed.

Lemma fr_fr e : fr (fr e) = fr e.
Proof. by apply fr_land_const. Qed.

Lemma has_valid e : has e PTE_VALID = Z.testbit e 0.
Proof. by apply (has_pow2 e 0). Qed.
Lemma has_table e : has e PTE_TABLE = Z.testbit e 1.
Proof. by apply (has_pow2 e 1). Qed.
Lemma has_cow e : has e PTE_COW = Z.testbit e 55.
Proof. by apply (has_pow2 e 55). Qed.

Lemma two_bits x i j :
  0 <= i -> 0 <= j -> (x .& (2 ^ i .| 2 ^ j) =? 2 ^ i .| 2 ^ j) = Z.testbit x i && Z.testbit x j.
Proof.
  intros Hi Hj. destruct (Z.eqb_spec (x .& (2 ^ i .| 2 ^ j)) (2 ^ i .| 2 ^ j)) as [E|E].
  - assert (forall n, 0 <= n -> Z.testbit (2 ^ i .| 2 ^ j) n = true -> Z.testbit x n = true) as H.
    { intros n Hn. rewrite <- E, Z.land_spec. by destruct (Z.testbit x n). }
    rewrite !H; [done|done| |done|]; rewrite Z.lor_spec, !testbit_pow2, ?Z.eqb_refl by lia;
      by rewrite ?orb_true_r.
  - symmetry. apply not_true_iff_false. intros [H1 H2]%andb_true_iff. apply E.
    apply Z.bits_inj'. intros n Hn. rewrite Z.land_spec, Z.lor_spec, !testbit_pow2 by lia.
    destruct (Z.eqb_spec n i) as [->|]; [by rewrite H1|].
    destruct (Z.eqb_spec n j) as [->|]; [by rewrite H2|by rewrite andb_false_r].
Qed.

Lemma ap_rw e : (e .& PTE_AP_MASK =? PTE_AP_USER_RW) = write_bit e.
Proof.
  assert (e .& PTE_AP_MASK = (if Z.testbit e 6 then 64 else 0) .| (if Z.testbit e 7 then 128 else 0)) as ->.
  { apply Z.bits_inj'. intros n Hn. change PTE_AP_MASK with (2 ^ 6 .| 2 ^ 7).
    change 64 with (2 ^ 6). change 128 with (2 ^ 7).
    rewrite Z.land_spec, !Z.lor_spec, !testbit_pow2 by lia.
    destruct (Z.eqb_spec n 6) as [->|]; [|destruct (Z.eqb_spec n 7) as [->|]].
    - by destruct (Z.testbit e 6), (Z.testbit e 7).
    - by destruct (Z.testbit e 6), (Z.testbit e 7).
    - cbn [orb]. rewrite andb_false_r. destruct (Z.testbit e 6), (Z.testbit e 7); cbv iota;
        rewrite ?testbit_pow2, ?Z.testbit_0_l by lia; symmetry; zcases; done || lia. }
  unfold write_bit. by destruct (Z.testbit e 6), (Z.testbit e 7).
Qed.

Lemma table_bits e : (e .& (PTE_VALID .| PTE_TABLE) =? PTE_VALID .| PTE_TABLE) = Z.testbit e 0 && Z.testbit e 1.
Proof. by apply (two_bits e 0 1). Qed.

Lemma cow_bits e : (e .& (PTE_VALID .| PTE_COW) =? PTE_VALID .| PTE_COW) = Z.testbit e 0 && Z.testbit e 55.
Proof. by apply (two_bits e 0 55). Qed.

(** Evaluate the bits of a descriptor at concrete positions. *)
Ltac pte_bits :=
  repeat first [rewrite Z.lor_spec | rewrite Z.land_spec | rewrite testbit_not64 by lia];
  repeat match goal with
  | |- context [Z.testbit ?c ?n] =>
      first [is_const c | match c with 0 => idtac end];
      let v := eval vm_compute in (Z.testbit c n) in change (Z.testbit c n) with v
  end;
  rewrite ?andb_true_r, ?andb_false_r, ?orb_true_r, ?orb_false_r, ?andb_true_l, ?andb_false_l,
    ?orb_true_l, ?orb_false_l; cbn [negb].

Lemma fr_bit e n : 0 <= n -> n < 12 \/ 48 <= n -> Z.testbit (fr e) n = false.
Proof.
  intros Hn H. unfold fr. rewrite Z.land_spec, testbit_addr_mask by lia.
  assert ((12 <=? n) && (n <? 48) = false) as -> by (zcases; simpl; lia). apply andb_false_r.
Qed.

Lemma page_bit pa n : 0 <= pa < 2 ^ 48 -> pa mod PAGE_SIZE = 0 -> 0 <= n -> n < 12 \/ 48 <= n -> Z.testbit pa n = false.
Proof. intros Hpa Hm Hn H. rewrite <- (fr_page pa) by done. by apply fr_bit. Qed.

Lemma fr_table_entry pa : 0 <= pa < 2 ^ 48 -> pa mod PAGE_SIZE = 0 -> fr (table_entry pa) = pa.
Proof. intros H1 H2. unfold table_entry. by rewrite !fr_lor_const, fr_page by done. Qed.

Lemma table_entry_bits pa : Z.testbit (table_entry pa) 0 = true /\ Z.testbit (table_entry pa) 1 = true.
Proof. unfold table_entry. by split; pte_bits. Qed.

Lemma table_entry_u64 pa : 0 <= pa < 2 ^ 48 -> is_u64 (table_entry pa).
Proof. intros H. unfold table_entry. change PTE_VALID with 1; change PTE_TABLE with 2. repeat apply lor_u64; unfold is_u64; lia. Qed.

(** ** Pages *)

Definition hhdm (w : machine) : Z := hhdm_base (m_pmm w).
Definition tracked (w : machine) : Z := tracked_page_count (m_pmm w).

(** References to a page according to the allocator. *)
Definition rc (w : machine) (pa : Z) : Z := if pa <? 0 then 0 else pmm_refcount (m_pmm w) pa.

Record machine_ok (w : machine) : Prop := {
  m_pmm_ok : pmm_ok (m_pmm w);
  m_direct : 0 <= hhdm w /\ hhdm w + PAGE_SIZE * tracked w <= 2 ^ 64;
  m_tracked : tracked w <= 2 ^ 36;
  m_bytes : forall a, is_u8 (m_mem w a);
}.

(** The bytes of the page at [pa]. *)
Definition page_byte (w : machine) (pa j : Z) : Z := m_mem w (hhdm w + pa + j).

Definition same_page (w w' : machine) (pa : Z) : Prop :=
  forall j, 0 <= j < PAGE_SIZE -> page_byte w' pa j = page_byte w pa j.

Definition same_cfg (w w' : machine) : Prop := hhdm w' = hhdm w /\ tracked w' = tracked w.

(** [table[i]] for the table in the page [pa]. *)
Definition word (w : machine) (pa i : Z) : Z := get w (hhdm w + pa + 8 * i).

(** One reference to [q]. *)
Definition one (q pa : Z) : Z := if decide (pa = q) then 1 else 0.

Lemma rc_pos w pa :
  machine_ok w -> 0 < rc w pa -> 0 <= pa /\ pa mod PAGE_SIZE = 0 /\ pa + PAGE_SIZE <= PAGE_SIZE * tracked w.
Proof.
  intros Hok. unfold rc, pmm_refcount, tracked. destruct (Z.ltb_spec pa 0); [lia|].
  destruct (Z.eqb_spec (pa mod PAGE_SIZE) 0) as [Hm|]; [|simpl; lia]. cbn [negb].
  rewrite valid_page_spec by (apply Hok || apply Z.div_pos; unfold PAGE_SIZE; lia).
  destruct (Z.ltb_spec (pa / PAGE_SIZE) (tracked_page_count (m_pmm w))); [|simpl; lia].
  intros _. split; [done|]. split; [done|]. unfold PAGE_SIZE in *. dmlia.
Qed.

Lemma rc_page w pa :
  machine_ok w -> 0 < rc w pa -> 0 <= pa < 2 ^ 48 /\ pa mod PAGE_SIZE = 0 /\ hhdm w + pa + PAGE_SIZE <= 2 ^ 64.
Proof.
  intros Hok H. destruct (rc_pos w pa Hok H) as (H1 & H2 & H3). destruct Hok as [_ [H4 H5] H6 _].
  unfold PAGE_SIZE in *. lia.
Qed.

Lemma rc_at w pa :
  machine_ok w -> 0 <= pa -> pa mod PAGE_SIZE = 0 -> pa / PAGE_SIZE < tracked w ->
  rc w pa = refcount_at (m_pmm w) (pa / PAGE_SIZE).
Proof.
  intros Hok H0 Hm Ht. unfold rc, pmm_refcount. replace (pa <? 0) with false by lia. rewrite Hm. cbn [negb Z.eqb].
  rewrite valid_page_spec by (apply Hok || apply Z.div_pos; unfold PAGE_SIZE; lia).
  unfold tracked in Ht. by replace (pa / PAGE_SIZE <? tracked_page_count (m_pmm w)) with true by lia.
Qed.

Lemma rc_nonneg w pa : machine_ok w -> 0 <= rc w pa.
Proof.
  intros Hok. destruct (Z.ltb_spec pa 0); [unfold rc; by replace (pa <? 0) with true by lia|].
  unfold rc, pmm_refcount. replace (pa <? 0) with false by lia.
  destruct (Z.eqb_spec (pa mod PAGE_SIZE) 0); [|done]. cbn [negb].
  assert (0 <= pa / PAGE_SIZE) by (apply Z.div_pos; unfold PAGE_SIZE; lia).
  rewrite valid_page_spec by (apply Hok || lia).
  destruct (Z.ltb_spec (pa / PAGE_SIZE) (tracked_page_count (m_pmm w))); [|done]. cbn [negb].
  apply (refcount_at_u16 _ _ (ok_shape _ (m_pmm_ok w Hok))). lia.
Qed.

(** A page whose count the allocator changed at one page only. *)
Lemma rc_pages_set w s p c b pa :
  machine_ok w -> pmm_ok s -> pages_set (m_pmm w) s p 1 b c -> 0 <= p < tracked w ->
  rc (mk_machine s (m_mem w) (m_mmu w)) pa = if decide (pa = p * PAGE_SIZE) then c else rc w pa.
Proof.
  intros Hok Hs [(Hh & Ht & _) _ Hc] Hp. unfold tracked in *.
  unfold rc, pmm_refcount. cbn [m_pmm].
  destruct (decide (pa = p * PAGE_SIZE)) as [->|Hne].
  - destruct (page_addr_inv p) as [-> ->]. replace (p * PAGE_SIZE <? 0) with false by (unfold PAGE_SIZE; lia).
    cbn [negb Z.eqb]. rewrite valid_page_spec by (apply Hs || lia). rewrite Ht.
    replace (p <? _) with true by lia. cbn [negb]. rewrite Hc by lia. by rewrite one_page, Z.eqb_refl.
  - destruct (Z.ltb_spec pa 0); [done|]. destruct (Z.eqb_spec (pa mod PAGE_SIZE) 0) as [Hm|]; [|done].
    assert (0 <= pa / PAGE_SIZE) by (apply Z.div_pos; unfold PAGE_SIZE; lia).
    cbn [negb]. rewrite !valid_page_spec by (apply Hok || apply Hs || lia). rewrite Ht.
    destruct (Z.ltb_spec (pa / PAGE_SIZE) (tracked_page_count (m_pmm w))); [|done]. cbn [negb].
    rewrite Hc by lia. rewrite one_page. replace (_ =? p) with false; [done|].
    symmetry. apply Z.eqb_neq. intros He. apply Hne. rewrite <- He. by apply page_addr.
Qed.

Lemma rc_unchanged w s m ops pa :
  machine_ok w -> pmm_ok s -> pages_set (m_pmm w) s 0 0 false 0 -> rc (mk_machine s m ops) pa = rc w pa.
Proof.
  intros Hok Hs [(Hh & Ht & _) _ Hc]. unfold rc, pmm_refcount. cbn [m_pmm].
  destruct (Z.ltb_spec pa 0); [done|]. destruct (Z.eqb_spec (pa mod PAGE_SIZE) 0) as [Hm|]; [|done].
  assert (0 <= pa / PAGE_SIZE) by (apply Z.div_pos; unfold PAGE_SIZE; lia).
  cbn [negb]. rewrite !valid_page_spec by (apply Hok || apply Hs || lia). rewrite Ht.
  destruct (Z.ltb_spec (pa / PAGE_SIZE) (tracked_page_count (m_pmm w))); [|done]. cbn [negb].
  rewrite Hc by lia. by replace ((0 <=? pa / PAGE_SIZE) && (pa / PAGE_SIZE <? 0 + 0)) with false by (zcases; simpl; lia).
Qed.

Lemma machine_ok_pmm w s m ops :
  machine_ok w -> pmm_ok s -> same_config (m_pmm w) s -> (forall a, is_u8 (m a)) ->
  machine_ok (mk_machine s m ops) /\ same_cfg w (mk_machine s m ops).
Proof.
  intros [H1 H2 H3 H4] Hs (Hh & Ht & _) Hm. unfold same_cfg, hhdm, tracked in *. split; [|done].
  split; unfold hhdm, tracked; cbn [m_pmm m_mem]; rewrite ?Hh, ?Ht; done.
Qed.

(** What an allocation does to the machine. *)
Record fresh_page (w w' : machine) (pa : Z) : Prop := {
  fresh_pos : 0 < pa;
  fresh_rc : rc w pa = 0;
  fresh_rc' : forall q, rc w' q = rc w q + one pa q;
  fresh_zero : forall j, 0 <= j < PAGE_SIZE -> page_byte w' pa j = 0;
  fresh_mem : forall a, a < hhdm w + pa \/ hhdm w + pa + PAGE_SIZE <= a -> m_mem w' a = m_mem w a;
}.

Lemma alloc_cases w pa w' :
  machine_ok w -> alloc_zero_page w = (pa, w') ->
  machine_ok w' /\ same_cfg w w' /\ m_mmu w' = m_mmu w /\
  (pa = 0 /\ m_mem w' = m_mem w /\ (forall q, rc w' q = rc w q) \/ fresh_page w w' pa).
Proof.
  intros Hok. unfold alloc_zero_page, pmm_alloc_zero_page.
  destruct (pmm_alloc_page (m_pmm w)) as [pa1 s1] eqn:E.
  destruct (alloc_page_cases _ _ _ (m_pmm_ok w Hok) E) as [Hs [(-> & Hps & _)|(p & -> & Hp & _ & Hr & Hps)]].
  - cbn [Z.eqb negb]. intros [= <- <-].
    destruct (machine_ok_pmm w s1 (m_mem w) (m_mmu w) Hok Hs (ps_config _ _ _ _ _ _ Hps) (m_bytes w Hok)) as [Ho Hc].
    split_and!; [done..|]. left. split_and!; [done..|]. intros q. by apply rc_unchanged.
  - replace (p * PAGE_SIZE =? 0) with false by (unfold PAGE_SIZE; lia). cbn [negb].
    assert (hhdm_base s1 = hhdm w) as Hh by apply (ps_config _ _ _ _ _ _ Hps).
    pose proof (m_direct w Hok) as [Hh0 Hh1]. pose proof (m_bytes w Hok) as Hb.
    assert (Mem.range_ok (hhdm w + p * PAGE_SIZE) PAGE_SIZE) as Hrange.
    { unfold Mem.range_ok, tracked, PAGE_SIZE in *. lia. }
    rewrite Hh, u64_small by (unfold Mem.range_ok, is_u64, PAGE_SIZE in *; lia).
    pose proof (fun x => Mem.kmemset_spec (m_mem w) _ 0 _ x Hrange) as Hset.
    pose proof (fun x => Mem.kmemset_u8 (m_mem w) (hhdm w + p * PAGE_SIZE) 0 PAGE_SIZE x Hb) as Hset8.
    revert Hset Hset8. generalize (Mem.kmemset (m_mem w) (hhdm w + p * PAGE_SIZE) 0 PAGE_SIZE).
    intros m Hset Hset8 [= <- <-].
    destruct (machine_ok_pmm w s1 m (m_mmu w) Hok Hs (ps_config _ _ _ _ _ _ Hps) Hset8) as [Ho Hc].
    split_and!; [done..|]. right. split.
    + unfold PAGE_SIZE. lia.
    + rewrite rc_at; [|done|unfold PAGE_SIZE; lia|apply page_addr_inv|].
      * by destruct (page_addr_inv p) as [-> _].
      * destruct (page_addr_inv p) as [-> _]. unfold tracked. lia.
    + intros q. change (rc (mk_machine s1 m (m_mmu w)) q) with (rc (mk_machine s1 (m_mem w) (m_mmu w)) q).
      rewrite (rc_pages_set w s1 p 1 true q); [|done..|unfold tracked; lia]. unfold one.
      case_decide as Hd; [|lia]. subst q. rewrite rc_at; [|done|unfold PAGE_SIZE; lia|apply page_addr_inv|].
      * destruct (page_addr_inv p) as [-> _]. lia.
      * destruct (page_addr_inv p) as [-> _]. unfold tracked. lia.
    + intros j Hj. unfold page_byte. change (hhdm _) with (hhdm_base s1). rewrite Hh. cbn [m_mem].
      rewrite Hset. by replace ((_ <=? _) && (_ <? _)) with true by (zcases; simpl; lia).
    + intros a Ha. cbn [m_mem]. rewrite Hset. by replace ((_ <=? _) && (_ <? _)) with false by (zcases; simpl; lia).
Qed.

Lemma free_cases w pa :
  machine_ok w -> 0 < rc w pa ->
  machine_ok (free_page pa w) /\ same_cfg w (free_page pa w) /\
  (forall q, rc (free_page pa w) q = rc w q - one pa q).
Proof.
  intros Hok Hrc. destruct (rc_pos w pa Hok Hrc) as (Hpa & Hm & Ht).
  assert (0 <= pa / PAGE_SIZE < tracked w) as Hp by (unfold PAGE_SIZE in *; dmlia).
  rewrite rc_at in Hrc by (done || lia).
  destruct (free_page_cases (m_pmm w) pa (m_pmm_ok w Hok) Hpa) as [Hs Hc].
  destruct Hc as [[Hno _]|(_ & _ & Hc)]; [unfold tracked in Hp; exfalso; destruct Hno as [?|[?|?]]; lia|].
  assert (exists b, pages_set (m_pmm w) (pmm_free_page (m_pmm w) pa) (pa / PAGE_SIZE) 1 b
            (refcount_at (m_pmm w) (pa / PAGE_SIZE) - 1)) as [b Hps].
  { destruct Hc as [[_ Hc]|[E Hc]]; [by exists true|]. exists false. by rewrite E. }
  destruct (machine_ok_pmm w _ (m_mem w) (m_mmu w) Hok Hs (ps_config _ _ _ _ _ _ Hps) (m_bytes w Hok)) as [Ho Hcfg].
  split_and!; [done..|]. intros q. unfold free_page, put_pmm. rewrite (rc_pages_set w _ _ _ _ _ Hok Hs Hps Hp).
  unfold one. rewrite <- page_addr by done. case_decide; [subst q; rewrite rc_at by (done || lia)|]; lia.
Qed.

Lemma share_cases w pa b w' :
  machine_ok w -> 0 < rc w pa -> share_page pa w = (b, w') ->
  (b = false /\ w' = w /\ rc w pa = UINT16_MAX) \/
  (b = true /\ machine_ok w' /\ same_cfg w w' /\ m_mem w' = m_mem w /\ m_mmu w' = m_mmu w /\
   forall q, rc w' q = rc w q + one pa q).
Proof.
  intros Hok Hrc. destruct (rc_pos w pa Hok Hrc) as (Hpa & Hm & Ht).
  assert (0 <= pa / PAGE_SIZE < tracked w) as Hp by (unfold PAGE_SIZE in *; dmlia).
  rewrite rc_at in Hrc |- * by (done || lia). unfold share_page.
  destruct (pmm_share_page (m_pmm w) pa) as [b1 s] eqn:E. intros [= <- <-].
  destruct (share_page_cases (m_pmm w) pa b1 s (m_pmm_ok w Hok) Hpa E)
    as [Hs [(-> & -> & Hno)|(-> & _ & _ & Hc & Hps)]].
  - left. split; [done|]. split; [by destruct w|]. unfold tracked in Hp. destruct Hno as [?|[?|[?|?]]]; lia.
  - right. destruct (machine_ok_pmm w s (m_mem w) (m_mmu w) Hok Hs (ps_config _ _ _ _ _ _ Hps) (m_bytes w Hok)) as [Ho Hcfg].
    split_and!; [done..|]. intros q. unfold put_pmm. rewrite (rc_pages_set w _ _ _ _ _ Hok Hs Hps Hp).
    unfold one. rewrite <- page_addr by done. case_decide; [subst q; rewrite rc_at by (done || lia)|]; lia.
Qed.

(** The direct-map address of entry [i] of the table in page [pa]. *)
Definition entry_at (w : machine) (pa i : Z) : Z := hhdm w + pa + 8 * i.

#[global] Arguments entry_at : simpl never.
#[global] Arguments word : simpl never.
#[global] Arguments table_entry : simpl never.

Lemma pte_addr_eq w as_ pa i :
  machine_ok w -> 0 < rc w pa -> hhdm_offset as_ = hhdm w -> 0 <= i < 512 ->
  pte_addr (pt_virt as_ pa) i = entry_at w pa i.
Proof.
  intros Hok Hrc Hh Hi. destruct (rc_page w pa Hok Hrc) as (H1 & H2 & H3).
  pose proof (m_direct w Hok). unfold pte_addr, pt_virt, entry_at. rewrite Hh. unfold PAGE_SIZE in *.
  rewrite (u64_small (hhdm w + pa)) by (unfold is_u64; lia). apply u64_small. unfold is_u64. lia.
Qed.

Lemma put_ok w a x : machine_ok w -> machine_ok (put w a x).
Proof. intros [H1 H2 H3 H4]. split; try done. intros b. by apply Mem.store_le_u8. Qed.

Lemma put_mem_other w pa i x a :
  machine_ok w -> 0 < rc w pa -> 0 <= i < 512 -> a < hhdm w + pa \/ hhdm w + pa + PAGE_SIZE <= a ->
  m_mem (put w (entry_at w pa i) x) a = m_mem w a.
Proof.
  intros Hok Hrc Hi Ha. destruct (rc_page w pa Hok Hrc) as (H1 & H2 & H3).
  pose proof (m_direct w Hok). unfold entry_at, PAGE_SIZE in *. apply Mem.store_le_other; lia.
Qed.

Lemma pages_apart pa pa' :
  pa mod PAGE_SIZE = 0 -> pa' mod PAGE_SIZE = 0 -> pa <> pa' -> pa + PAGE_SIZE <= pa' \/ pa' + PAGE_SIZE <= pa.
Proof. unfold PAGE_SIZE. intros. dmlia. Qed.

Lemma word_put w pa i x pa' i' :
  machine_ok w -> 0 < rc w pa -> 0 < rc w pa' -> 0 <= i < 512 -> 0 <= i' < 512 -> is_u64 x ->
  word (put w (entry_at w pa i) x) pa' i' = if decide (pa = pa' /\ i = i') then x else word w pa' i'.
Proof.
  intros Hok Hrc Hrc' Hi Hi' Hx. destruct (rc_page w pa Hok Hrc) as (H1 & H2 & H3).
  destruct (rc_page w pa' Hok Hrc') as (H1' & H2' & H3'). pose proof (m_direct w Hok).
  unfold word, get, put, put_mem, entry_at. cbn [m_mem m_pmm].
  change (hhdm (mk_machine _ _ _)) with (hhdm w).
  case_decide as Hd.
  - destruct Hd as [<- <-]. apply Mem.load_store64; [unfold PAGE_SIZE in *; lia..|done].
  - apply Mem.load_store64_ne; try (unfold PAGE_SIZE in *; lia).
    destruct (Z.eq_dec pa pa') as [<-|Hne]; [lia|].
    destruct (pages_apart pa pa' H2 H2' Hne); unfold PAGE_SIZE in *; lia.
Qed.

Lemma word_u64 w pa i : machine_ok w -> is_u64 (word w pa i).
Proof. intros Hok. apply Mem.load64_u64, Hok. Qed.

Lemma word_same_page w w' pa i :
  machine_ok w -> 0 < rc w pa -> hhdm w' = hhdm w -> same_page w w' pa -> 0 <= i < 512 ->
  word w' pa i = word w pa i.
Proof.
  intros Hok Hrc Hh Hs Hi. destruct (rc_page w pa Hok Hrc) as (H1 & H2 & H3). pose proof (m_direct w Hok).
  unfold word, get. rewrite Hh. apply Mem.load_le_ext; [unfold PAGE_SIZE in *; lia..|].
  intros x Hx. specialize (Hs (x - (hhdm w + pa))). unfold page_byte in Hs. rewrite Hh in Hs.
  replace (hhdm w + pa + (x - (hhdm w + pa))) with x in Hs by lia. apply Hs. unfold PAGE_SIZE. lia.
Qed.

(** Memory that is the same outside one page leaves the other pages alone. *)
Lemma same_page_other w w' pa q :
  machine_ok w -> hhdm w' = hhdm w ->
  (forall a, a < hhdm w + pa \/ hhdm w + pa + PAGE_SIZE <= a -> m_mem w' a = m_mem w a) ->
  pa mod PAGE_SIZE = 0 -> 0 < rc w q -> pa <> q -> same_page w w' q.
Proof.
  intros Hok Hh Hm Hpa Hrc Hne j Hj. destruct (rc_page w q Hok Hrc) as (_ & Hq & _).
  unfold page_byte. rewrite Hh. apply Hm. destruct (pages_apart pa q Hpa Hq Hne); lia.
Qed.

(** ** Counting leaves *)

Definition maps_to (pa : Z) (kv : list Z * Z) : Prop := fr kv.2 = pa.

#[export] Instance maps_to_dec pa kv : Decision (maps_to pa kv).
Proof. unfold maps_to. apply _. Defined.

Definition lcount (L : gmap (list Z) Z) (pa : Z) : Z := Z.of_nat (size (filter (maps_to pa) L)).

Definition cnt (me : option Z) (pa : Z) : Z :=
  match me with Some e => if decide (fr e = pa) then 1 else 0 | None => 0 end.

Lemma lcount_insert_new L k e pa :
  L !! k = None -> lcount (<[k := e]> L) pa = lcount L pa + cnt (Some e) pa.
Proof.
  intros Hk. unfold lcount. cbn [cnt]. rewrite map_filter_insert.
  case_decide as Hd; unfold maps_to in Hd; cbn [snd] in Hd.
  - rewrite decide_True by done. rewrite map_size_insert.
    rewrite map_lookup_filter_None_2; [lia|]. by left.
  - rewrite decide_False by done. rewrite delete_id by done. lia.
Qed.

Lemma lcount_delete L k pa : lcount (delete k L) pa = lcount L pa - cnt (L !! k) pa.
Proof.
  destruct (L !! k) as [e|] eqn:E.
  - rewrite <- (insert_delete_id L k e E) at 2. rewrite lcount_insert_new; [lia|apply lookup_delete_eq].
  - rewrite delete_id by done. simpl. lia.
Qed.

Lemma lcount_alter L k me pa :
  lcount (partial_alter (fun _ => me) k L) pa = lcount L pa - cnt (L !! k) pa + cnt me pa.
Proof.
  destruct me as [e|].
  - change (partial_alter _ k L) with (<[k := e]> L). rewrite <- insert_delete_eq.
    rewrite lcount_insert_new, lcount_delete; [done|apply lookup_delete_eq].
  - change (partial_alter _ k L) with (delete k L). rewrite lcount_delete. simpl. lia.
Qed.

Lemma lcount_insert L k e pa : lcount (<[k := e]> L) pa = lcount L pa - cnt (L !! k) pa + cnt (Some e) pa.
Proof. apply (lcount_alter L k (Some e)). Qed.

Lemma lcount_nonneg L pa : 0 <= lcount L pa.
Proof. unfold lcount. lia. Qed.

Lemma lcount_pos L k e : L !! k = Some e -> 0 < lcount L (fr e).
Proof.
  intros H. pose proof (lcount_delete L k (fr e)) as Hd. pose proof (lcount_nonneg (delete k L) (fr e)).
  rewrite H in Hd. simpl in Hd. rewrite decide_True in Hd by done. lia.
Qed.

Lemma cnt_range me pa : 0 <= cnt me pa <= 1.
Proof. destruct me; simpl; [case_decide|]; lia. Qed.

(** ** The invariant *)

(** The word of an entry: an invalid descriptor, or the given one. *)
Definition holds (x : Z) (me : option Z) : Prop :=
  match me with Some e => x = e | None => has x PTE_VALID = false end.

(** What entry [i] of the table with key [k] stands for. *)
Definition entry_of (T L : gmap (list Z) Z) (k : list Z) (i : Z) : option Z :=
  if decide (length k = 4%nat) then L !! (k ++ [i]) else table_entry <$> T !! (k ++ [i]).

Record Inv (w : machine) (T L : gmap (list Z) Z) (U : Z -> Z) : Prop := {
  inv_machine : machine_ok w;
  inv_T : forall k pa, T !! k = Some pa -> (1 <= length k <= 4)%nat;
  inv_T_parent : forall k i pa, T !! (k ++ [i]) = Some pa -> k <> [] -> is_Some (T !! k) /\ 0 <= i < 512;
  inv_L : forall k e, L !! k = Some e -> has e PTE_VALID = true /\ is_u64 e;
  inv_L_parent : forall k e, L !! k = Some e ->
    exists k' i, k = k' ++ [i] /\ length k' = 4%nat /\ is_Some (T !! k') /\ 0 <= i < 512;
  inv_inj : forall k k' pa, T !! k = Some pa -> T !! k' = Some pa -> k = k';
  inv_word : forall k pa i, T !! k = Some pa -> 0 <= i < 512 -> holds (word w pa i) (entry_of T L k i);
  inv_T_rc : forall k pa, T !! k = Some pa -> pa <> 0 /\ rc w pa = 1 /\ lcount L pa = 0 /\ U pa = 0;
  inv_rc : forall pa, (forall k, T !! k <> Some pa) -> rc w pa = lcount L pa + U pa;
  inv_U : forall pa, 0 <= U pa;
  inv_zero : lcount L 0 = 0;
}.

Lemma inv_T_pos w T L U k pa : Inv w T L U -> T !! k = Some pa -> 0 < rc w pa.
Proof. intros HI Hk. destruct (inv_T_rc _ _ _ _ HI _ _ Hk) as (_ & -> & _). lia. Qed.

Lemma not_table w T L U pa : Inv w T L U -> 0 < lcount L pa + U pa -> forall k, T !! k <> Some pa.
Proof. intros HI Hpos k Hk. destruct (inv_T_rc _ _ _ _ HI _ _ Hk) as (_ & _ & ? & ?). lia. Qed.

Lemma used_rc w T L U pa : Inv w T L U -> 0 < lcount L pa + U pa -> rc w pa = lcount L pa + U pa.
Proof. intros HI Hpos. apply (inv_rc _ _ _ _ HI). by eapply not_table. Qed.

Lemma leaf_page w T L U k e : Inv w T L U -> L !! k = Some e -> 0 < lcount L (fr e) + U (fr e).
Proof.
  intros HI Hk. pose proof (lcount_pos L k e Hk). pose proof (inv_U _ _ _ _ HI (fr e)). lia.
Qed.

Lemma leaf_nonzero w T L U k e : Inv w T L U -> L !! k = Some e -> 0 < fr e.
Proof.
  intros HI Hk. pose proof (lcount_pos L k e Hk) as Hp. destruct (fr_range e).
  destruct (Z.eq_dec (fr e) 0) as [E|]; [|lia]. rewrite E, (inv_zero _ _ _ _ HI) in Hp. lia.
Qed.

(** Tables and memory: pages that hold no table may change. *)
Lemma inv_mem_change w w' T L U :
  Inv w T L U -> machine_ok w' -> same_cfg w w' -> (forall q, rc w' q = rc w q) ->
  (forall k pa, T !! k = Some pa -> same_page w w' pa) -> Inv w' T L U.
Proof.
  intros HI Hok [Hh Ht] Hrc Hs. pose proof HI as [H1 H2 H3 H4 H5 H6 H7 H8 H9 H10 H11]. split; try done.
  - intros k pa i Hk Hi. rewrite (word_same_page w w'); [by apply H7|done|by eapply inv_T_pos|done|by eapply Hs|done].
  - intros k pa Hk. rewrite Hrc. by apply (H8 k).
  - intros pa Hk. rewrite Hrc. by apply H9.
Qed.

Lemma inv_mmu w T L U op : Inv w T L U -> Inv (mmu w op) T L U.
Proof. intros HI. apply (inv_mem_change w); [done|..|done|done]; [|done]. destruct (inv_machine _ _ _ _ HI). done. Qed.

(** Extensional change of the outside references. *)
Lemma inv_U_ext w T L U U' : Inv w T L U -> (forall q, U' q = U q) -> Inv w T L U'.
Proof.
  intros [H1 H2 H3 H4 H5 H6 H7 H8 H9 H10 H11] HU. split; try done; intros; rewrite ?HU; auto. by apply (H8 k).
Qed.

(** A reference held outside is dropped or taken. *)
Lemma inv_free w T L U pa :
  Inv w T L U -> 1 <= U pa -> Inv (free_page pa w) T L (fun q => U q - one pa q).
Proof.
  intros HI HU. pose proof HI as [H1 H2 H3 H4 H5 H6 H7 H8 H9 H10 H11].
  pose proof (lcount_nonneg L pa). assert (0 < lcount L pa + U pa) as Hpos by lia.
  destruct (free_cases w pa H1) as (Hok & [Hh Ht] & Hrc); [rewrite (used_rc w T L U); done|].
  split; try done.
  - intros k q i Hk Hi. unfold word, get. rewrite Hh. by apply H7.
  - intros k q Hk. assert (q <> pa) as Hne by (intros ->; exact (not_table w T L U pa HI Hpos k Hk)).
    rewrite Hrc. unfold one. rewrite !decide_False by done. destruct (H8 k q Hk). lia.
  - intros q Hq. rewrite Hrc, H9 by done. lia.
  - intros q. unfold one. case_decide; [subst q; lia|]. rewrite Z.sub_0_r. apply H10.
Qed.

Lemma inv_share w w' T L U pa :
  Inv w T L U -> 0 < lcount L pa + U pa -> share_page pa w = (true, w') ->
  Inv w' T L (fun q => U q + one pa q) /\ m_mem w' = m_mem w /\ same_cfg w w' /\ m_mmu w' = m_mmu w.
Proof.
  intros HI Hpos E. pose proof HI as [H1 H2 H3 H4 H5 H6 H7 H8 H9 H10 H11].
  destruct (share_cases w pa true w' H1) as [(? & _)|(_ & Hok & [Hh Ht] & Hm & Hu & Hrc)];
    [rewrite (used_rc w T L U); done|done|done|]. split; [|done]. split; try done.
  - intros k q i Hk Hi. unfold word, get. rewrite Hm, Hh. by apply H7.
  - intros k q Hk. assert (q <> pa) as Hne by (intros ->; exact (not_table w T L U pa HI Hpos k Hk)).
    rewrite Hrc. unfold one. rewrite !decide_False by done. destruct (H8 k q Hk). lia.
  - intros q Hq. rewrite Hrc, H9 by done. lia.
  - intros q. unfold one. specialize (H10 q). case_decide; lia.
Qed.

(** A fresh page is not in use anywhere. *)
Lemma fresh_unused w w' T L U pa :
  Inv w T L U -> fresh_page w w' pa -> (forall k, T !! k <> Some pa) /\ lcount L pa = 0 /\ U pa = 0.
Proof.
  intros HI Hf. assert (forall k, T !! k <> Some pa) as Hn.
  { intros k Hk. pose proof (inv_T_pos _ _ _ _ _ _ HI Hk). rewrite (fresh_rc _ _ _ Hf) in *. lia. }
  split; [done|]. pose proof (inv_rc _ _ _ _ HI pa Hn) as H. rewrite (fresh_rc _ _ _ Hf) in H.
  pose proof (lcount_nonneg L pa). pose proof (inv_U _ _ _ _ HI pa). lia.
Qed.

Lemma fresh_aligned w w' pa : machine_ok w' -> fresh_page w w' pa -> pa mod PAGE_SIZE = 0.
Proof.
  intros Hok Hf. apply (rc_pos w'); [done|]. rewrite (fresh_rc' _ _ _ Hf), (fresh_rc _ _ _ Hf).
  unfold one. rewrite decide_True by done. lia.
Qed.

Lemma inv_alloc w w' T L U pa :
  Inv w T L U -> machine_ok w' -> same_cfg w w' -> fresh_page w w' pa ->
  Inv w' T L (fun q => U q + one pa q).
Proof.
  intros HI Hok [Hh Ht] Hf. pose proof HI as [H1 H2 H3 H4 H5 H6 H7 H8 H9 H10 H11].
  destruct (fresh_unused w w' T L U pa HI Hf) as (Hn & Hl & Hu0). split; try done.
  - intros k q i Hk Hi. rewrite (word_same_page w w'); [by apply H7|done|by eapply inv_T_pos|done| |done].
    apply (same_page_other w w' pa); [done|done|apply Hf|exact (fresh_aligned w w' pa Hok Hf)|by eapply inv_T_pos|].
    intros <-. exact (Hn k Hk).
  - intros k q Hk. assert (q <> pa) as Hne by (intros ->; exact (Hn k Hk)).
    rewrite (fresh_rc' _ _ _ Hf). unfold one. rewrite !decide_False by done. destruct (H8 k q Hk). lia.
  - intros q Hq. rewrite (fresh_rc' _ _ _ Hf), H9 by done. lia.
  - intros q. unfold one. specialize (H10 q). case_decide; lia.
Qed.

(** Writing a leaf entry, with the references moved to balance. *)
Lemma inv_set_leaf w T L U U' k pa i x me :
  Inv w T L U -> T !! k = Some pa -> length k = 4%nat -> 0 <= i < 512 -> is_u64 x -> holds x me ->
  (forall e, me = Some e -> has e PTE_VALID = true /\ fr e <> 0) -> (forall q, 0 <= U' q) ->
  (forall q, cnt me q + U' q = cnt (L !! (k ++ [i])) q + U q) ->
  Inv (put w (entry_at w pa i) x) T (partial_alter (fun _ => me) (k ++ [i]) L) U'.
Proof.
  intros HI Hk Hlen Hi Hx Hme Hv HU' HU. pose proof HI as [H1 H2 H3 H4 H5 H6 H7 H8 H9 H10 H11].
  assert (forall q, lcount (partial_alter (fun _ => me) (k ++ [i]) L) q + U' q = lcount L q + U q) as Hsum.
  { intros q. rewrite lcount_alter. specialize (HU q). lia. }
  pose proof (inv_T_pos _ _ _ _ _ _ HI Hk) as Hpos. split; try done.
  - by apply put_ok.
  - intros k' e He. destruct (decide (k ++ [i] = k')) as [<-|Hne].
    + rewrite lookup_partial_alter_eq in He. subst me. split; [by apply (Hv e)|]. simpl in Hme. by subst e.
    + rewrite lookup_partial_alter_ne in He by done. by apply (H4 k').
  - intros k' e He. destruct (decide (k ++ [i] = k')) as [<-|Hne]; [by exists k, i|].
    rewrite lookup_partial_alter_ne in He by done. by apply (H5 k' e).
  - intros k' pa' i' Hk' Hi'. rewrite word_put; [|done|done|by eapply inv_T_pos|done|done|done].
    unfold entry_of. case_decide as Hd.
    + destruct Hd as [<- <-]. rewrite (H6 k' k pa Hk' Hk). rewrite decide_True by done.
      by rewrite lookup_partial_alter_eq.
    + specialize (H7 k' pa' i' Hk' Hi'). unfold entry_of in H7. case_decide as Hl; [|done].
      rewrite lookup_partial_alter_ne; [done|]. intros [-> [= ->]]%app_inj_2; [|done].
      apply Hd. by simplify_eq.
  - intros k' q Hk'. destruct (H8 k' q Hk') as (Hq0 & Hq1 & Hq2 & Hq3). specialize (Hsum q).
    pose proof (lcount_nonneg (partial_alter (fun _ => me) (k ++ [i]) L) q). specialize (HU' q).
    split_and!; [done|done|lia..].
  - intros q Hq. rewrite Hsum. by apply H9.
  - pose proof (lcount_nonneg (partial_alter (fun _ => me) (k ++ [i]) L) 0) as Hnn. rewrite lcount_alter, H11 in *.
    pose proof (cnt_range (L !! (k ++ [i])) 0). assert (cnt me 0 = 0) as Hc; [|lia].
    destruct me as [e|]; [|done]. simpl. rewrite decide_False; [done|]. by apply (Hv e).
Qed.

(** A page held outside becomes the table with key [k2]. *)
Lemma inv_add_table w w' T L U k2 c :
  Inv w T L U -> machine_ok w' -> (forall q, rc w' q = rc w q) ->
  T !! k2 = None -> (1 <= length k2 <= 4)%nat ->
  (forall k i, k2 = k ++ [i] -> k <> [] -> is_Some (T !! k) /\ 0 <= i < 512) ->
  c <> 0 -> U c = 1 -> lcount L c = 0 ->
  (forall k pa i, <[k2 := c]> T !! k = Some pa -> 0 <= i < 512 ->
     holds (word w' pa i) (entry_of (<[k2 := c]> T) L k i)) ->
  Inv w' (<[k2 := c]> T) L (fun q => U q - one c q).
Proof.
  intros HI Hok Hrc Hnone Hlen Hpar Hc HU Hl Hw. pose proof HI as [H1 H2 H3 H4 H5 H6 H7 H8 H9 H10 H11].
  pose proof (not_table w T L U c HI ltac:(lia)) as Hn. split; try done.
  - intros k pa [[<- _]|[_ Hk]]%lookup_insert_Some; [done|by apply (H2 k pa)].
  - intros k i pa Hk Hne. assert (is_Some (T !! k) /\ 0 <= i < 512) as [HS Hi].
    { apply lookup_insert_Some in Hk as [[-> _]|[_ Hk]]; [by apply Hpar|by apply (H3 k i pa)]. }
    split; [|done]. rewrite lookup_insert_is_Some'. by right.
  - intros k e He. destruct (H5 k e He) as (k' & i & -> & Hl' & HS & Hi). exists k', i.
    split_and!; [done|done| |lia|lia]. rewrite lookup_insert_is_Some'. by right.
  - intros k k' pa [[<- <-]|[Hne Hk]]%lookup_insert_Some [[<- E]|[Hne' Hk']]%lookup_insert_Some; try done.
    + exfalso. by apply (Hn k').
    + subst pa. exfalso. by apply (Hn k).
    + by apply (H6 k k' pa).
  - intros k pa [[<- <-]|[Hne Hk]]%lookup_insert_Some; rewrite Hrc; unfold one.
    + rewrite (used_rc w T L U) by (done || lia). rewrite decide_True by done. lia.
    + rewrite decide_False; [|intros ->; exact (Hn k Hk)]. destruct (H8 k pa Hk) as (? & ? & ? & ?). lia.
  - intros pa Hpa. rewrite Hrc. unfold one. rewrite decide_False.
    + rewrite Z.sub_0_r. apply H9. intros k Hk. apply (Hpa k). rewrite lookup_insert_ne; [done|].
      intros ->. congruence.
    + intros ->. by apply (Hpa k2), lookup_insert_eq.
  - intros q. unfold one. case_decide; [subst q; lia|]. rewrite Z.sub_0_r. apply H10.
Qed.

(** Nothing lies below a key that is not a table. *)
Lemma no_child w T L U k i :
  Inv w T L U -> T !! k = None -> k <> [] -> entry_of T L k i = None.
Proof.
  intros HI Hk Hne. unfold entry_of. case_decide as Hl.
  - destruct (L !! (k ++ [i])) as [e|] eqn:E; [|done].
    destruct (inv_L_parent _ _ _ _ HI _ _ E) as (k' & i' & [-> _]%app_inj_2 & _ & [x Hx] & _); [congruence|done].
  - destruct (T !! (k ++ [i])) as [pa|] eqn:E; [|done].
    destruct (inv_T_parent _ _ _ _ HI _ _ _ E Hne) as [[x Hx] _]. congruence.
Qed.

Lemma entry_of_add T L k2 c k i :
  k ++ [i] <> k2 -> entry_of (<[k2 := c]> T) L k i = entry_of T L k i.
Proof. intros H. unfold entry_of. case_decide; [done|]. by rewrite lookup_insert_ne. Qed.

Lemma inv_new_root w T L U a c :
  Inv w T L U -> T !! [a] = None -> c <> 0 -> U c = 1 -> lcount L c = 0 ->
  (forall j, 0 <= j < 512 -> has (word w c j) PTE_VALID = false) ->
  Inv w (<[[a] := c]> T) L (fun q => U q - one c q).
Proof.
  intros HI Hn Hc HU Hl Hz. apply (inv_add_table w); try done; [apply HI|simpl; lia| |].
  - intros [|x [|y k]] i E Hne; [done|discriminate..].
  - intros k pa i Hk Hi. assert (k <> []) as Hne.
    { intros ->. rewrite lookup_insert_ne in Hk by done. apply (inv_T _ _ _ _ HI) in Hk. simpl in Hk. lia. }
    rewrite entry_of_add; [|destruct k as [|x [|y k]]; [done|intros E; discriminate..]].
    apply lookup_insert_Some in Hk as [[<- <-]|[_ Hk]]; [|by apply (inv_word _ _ _ _ HI)].
    rewrite (no_child w T L U) by done. by apply Hz.
Qed.

Lemma inv_new_table w T L U k i pa c :
  Inv w T L U -> T !! k = Some pa -> (length k < 4)%nat -> 0 <= i < 512 -> T !! (k ++ [i]) = None ->
  c <> 0 -> U c = 1 -> lcount L c = 0 -> (forall j, 0 <= j < 512 -> has (word w c j) PTE_VALID = false) ->
  Inv (put w (entry_at w pa i) (table_entry c)) (<[k ++ [i] := c]> T) L (fun q => U q - one c q).
Proof.
  intros HI Hk Hlen Hi Hn Hc HU Hl Hz. pose proof (inv_T _ _ _ _ HI _ _ Hk) as Hlk.
  assert (0 < rc w c) as Hrc by (rewrite (used_rc w T L U); (done || lia)).
  destruct (rc_page w c (inv_machine _ _ _ _ HI) Hrc) as (Hc1 & Hc2 & _).
  apply (inv_add_table w); try done; [apply put_ok, HI|rewrite length_app; simpl; lia| |].
  - intros k' i' [<- [= <-]]%app_inj_2 _; [|done]. split; [by exists pa|done].
  - intros k' q i' Hk' Hi'. assert (0 < rc w q) as Hrq.
    { apply lookup_insert_Some in Hk' as [[_ <-]|[_ Hk']]; [done|by eapply inv_T_pos]. }
    rewrite word_put; [|apply HI|by eapply inv_T_pos|done|done|done|by apply table_entry_u64].
    case_decide as Hd.
    + destruct Hd as [<- <-]. assert (k' = k) as ->.
      { apply lookup_insert_Some in Hk' as [[_ <-]|[_ Hk']]; [|by eapply (inv_inj _ _ _ _ HI)].
        exfalso. by apply (not_table w T L U c HI ltac:(lia) k). }
      unfold entry_of. rewrite decide_False by lia. by rewrite lookup_insert_eq.
    + assert (k' ++ [i'] <> k ++ [i]) as Hne.
      { intros [-> [= ->]]%app_inj_2; [|done]. apply Hd. split; [|done].
        rewrite lookup_insert_ne in Hk'; [congruence|]. intros E. apply (f_equal length) in E.
        rewrite length_app in E. simpl in E. lia. }
      rewrite entry_of_add by done.
      apply lookup_insert_Some in Hk' as [[<- <-]|[_ Hk']]; [|by apply (inv_word _ _ _ _ HI)].
      rewrite (no_child w T L U) by (done || by destruct k). by apply Hz.
Qed.
