(* ===== verification/VmmOps.v ===== *)
(** Mapping, unmapping and protecting user pages: what the operations of
    [kernel/src/mm/vmm.c] do to the mapped pages of every address space, to the
    contents of pages and to the references held on them. *)

From stdpp Require Import base numbers list option gmap fin_maps.
From Stdlib Require Import ZArith Lia.
From S2P Require Import Prelude Mem Pmm PmmSpec Vmm VmmInv.
Import Pmm Vmm.

(** ** Keys of virtual addresses *)

Definition tkey (a va : Z) : list Z := [a; pt_index va 39; pt_index va 30; pt_index va 21].
Definition key (a va : Z) : list Z := tkey a va ++ [pt_index va 12].

#[global] Arguments tkey : simpl never.
#[global] Arguments key : simpl never.

(** The number of the page of [va] in its address space. *)
Definition vpn (va : Z) : Z := va / PAGE_SIZE mod 2 ^ 36.

(** [as_] is the address space number [a]. *)
Definition as_ok (w : machine) (T : gmap (list Z) Z) (a : Z) (as_ : user_address_space) : Prop :=
  hhdm_offset as_ = hhdm w /\ T !! [a] = Some (root_pa as_).

(** Tables are only added, in the address space [a]. *)
Definition grows (a : Z) (T T' : gmap (list Z) Z) : Prop :=
  T ⊆ T' /\ forall k, is_Some (T' !! k) -> is_Some (T !! k) \/ head k = Some a.

(** Pages that were mapped or held keep their contents. *)
Definition keep (L : gmap (list Z) Z) (U : Z -> Z) (w w' : machine) : Prop :=
  same_cfg w w' /\ forall pa, 0 < lcount L pa + U pa -> same_page w w' pa.

Lemma pt_index_eq va s : 0 <= s -> pt_index va s = (va / 2 ^ s) mod 512.
Proof.
  intros Hs. unfold pt_index. rewrite Z.shiftr_div_pow2 by done. change 0x1ff with (Z.ones 9).
  by rewrite Z.land_ones by lia.
Qed.

Lemma pt_index_range va s : 0 <= s -> 0 <= pt_index va s < 512.
Proof. intros Hs. rewrite pt_index_eq by done. apply Z.mod_pos_bound. lia. Qed.

Lemma vpn_split va : vpn va =
  pt_index va 39 * 2 ^ 27 + pt_index va 30 * 2 ^ 18 + pt_index va 21 * 2 ^ 9 + pt_index va 12.
Proof.
  rewrite !pt_index_eq by lia. unfold vpn, PAGE_SIZE.
  change (2 ^ 12) with 4096. set (x := va / 4096).
  replace (va / 2 ^ 39) with (x / 2 ^ 27) by (unfold x; rewrite Z.div_div by lia; done).
  replace (va / 2 ^ 30) with (x / 2 ^ 18) by (unfold x; rewrite Z.div_div by lia; done).
  replace (va / 2 ^ 21) with (x / 2 ^ 9) by (unfold x; rewrite Z.div_div by lia; done).
  clearbody x. dmlia.
Qed.

Lemma key_eq a b va vb : key a va = key b vb <-> a = b /\ vpn va = vpn vb.
Proof.
  rewrite !vpn_split. pose proof (pt_index_range va 39 ltac:(lia)). pose proof (pt_index_range va 30 ltac:(lia)).
  pose proof (pt_index_range va 21 ltac:(lia)). pose proof (pt_index_range va 12 ltac:(lia)). pose proof (pt_index_range vb 39 ltac:(lia)).
  pose proof (pt_index_range vb 30 ltac:(lia)). pose proof (pt_index_range vb 21 ltac:(lia)). pose proof (pt_index_range vb 12 ltac:(lia)).
  unfold key, tkey. split.
  - intros [= -> -> -> -> ->]. done.
  - intros [-> E]. assert (pt_index va 39 = pt_index vb 39) as -> by lia.
    assert (pt_index va 30 = pt_index vb 30) as -> by lia. assert (pt_index va 21 = pt_index vb 21) as -> by lia.
    by assert (pt_index va 12 = pt_index vb 12) as -> by lia.
Qed.

Lemma grows_refl a T : grows a T T.
Proof. split; [done|by left]. Qed.

Lemma grows_trans a T1 T2 T3 : grows a T1 T2 -> grows a T2 T3 -> grows a T1 T3.
Proof.
  intros [H1 H2] [H3 H4]. split; [by etrans|]. intros k Hk. destruct (H4 k Hk) as [Hk'|]; [|by right]. auto.
Qed.

Lemma keep_refl L U w : keep L U w w.
Proof. split; [done|]. by intros pa _ j. Qed.

Lemma keep_trans L U w1 w2 w3 : keep L U w1 w2 -> keep L U w2 w3 -> keep L U w1 w3.
Proof.
  intros [[H1 H2] H3] [[H4 H5] H6]. split; [split; congruence|]. intros pa Hpa j Hj.
  rewrite (H6 pa Hpa j Hj). by apply H3.
Qed.

Lemma keep_mono L U L' U' w w' :
  (forall pa, 0 < lcount L' pa + U' pa -> 0 < lcount L pa + U pa) -> keep L U w w' -> keep L' U' w w'.
Proof. intros H [Hc Hk]. split; [done|]. auto. Qed.

#[export] Hint Resolve grows_refl keep_refl : spore.

Lemma as_ok_grows w w' T T' a b as_ :
  as_ok w T b as_ -> grows a T T' -> same_cfg w w' -> as_ok w' T' b as_.
Proof.
  intros [H1 H2] [Hs _] [Hh _]. split; [congruence|]. by eapply lookup_weaken.
Qed.

Section Walk.
Context (w : machine) (T L : gmap (list Z) Z) (U : Z -> Z) (HI : Inv w T L U).
Context (as_ : user_address_space) (Hh : hhdm_offset as_ = hhdm w).

Lemma table_word k pa i :
  T !! k = Some pa -> 0 <= i < 512 -> get w (pte_addr (pt_virt as_ pa) i) = word w pa i.
Proof.
  intros Hk Hi. rewrite (pte_addr_eq w) by (apply HI || done || by eapply inv_T_pos). done.
Qed.

Lemma table_page k pa : T !! k = Some pa -> 0 <= pa < 2 ^ 48 /\ pa mod PAGE_SIZE = 0.
Proof.
  intros Hk. destruct (rc_page w pa (inv_machine _ _ _ _ HI)) as (H1 & H2 & _); [by eapply inv_T_pos|done].
Qed.

Lemma next_table_spec k pa i :
  T !! k = Some pa -> (length k < 4)%nat -> 0 <= i < 512 ->
  next_table as_ (get w (pte_addr (pt_virt as_ pa) i)) = pt_virt as_ <$> T !! (k ++ [i]).
Proof.
  intros Hk Hlen Hi. rewrite (table_word k) by done. unfold next_table. rewrite table_bits.
  pose proof (inv_word _ _ _ _ HI k pa i Hk Hi) as Hw. unfold entry_of in Hw. rewrite decide_False in Hw by lia.
  destruct (T !! (k ++ [i])) as [c|] eqn:Hc; cbn [fmap option_fmap option_map holds] in Hw.
  - rewrite Hw. destruct (table_entry_bits c) as [-> ->]. cbn.
    destruct (table_page _ _ Hc). fold (fr (table_entry c)). by rewrite fr_table_entry.
  - rewrite has_valid in Hw. by rewrite Hw.
Qed.

Context (a : Z) (Ha : T !! [a] = Some (root_pa as_)).

Lemma leaf_for_va_spec va :
  leaf_for_va as_ va w = (fun pa => entry_at w pa (pt_index va 12)) <$> T !! tkey a va.
Proof.
  unfold leaf_for_va, obind. pose proof (pt_index_range va) as Hr.
  rewrite (next_table_spec [a]) by (done || (simpl; lia) || (apply Hr; lia)). cbn [app].
  destruct (T !! [a; pt_index va 39]) as [l1|] eqn:E1; cbn [fmap option_fmap option_map].
  2: { destruct (T !! tkey a va) as [x|] eqn:E; [|done].
       destruct (inv_T_parent _ _ _ _ HI [a; pt_index va 39; pt_index va 30] _ _ E) as [[y Hy] _]; [done|].
       destruct (inv_T_parent _ _ _ _ HI [a; pt_index va 39] _ _ Hy) as [[z Hz] _]; [done|]. congruence. }
  rewrite (next_table_spec [a; pt_index va 39]) by (done || (simpl; lia) || (apply Hr; lia)). cbn [app].
  destruct (T !! [a; pt_index va 39; pt_index va 30]) as [l2|] eqn:E2; cbn [fmap option_fmap option_map].
  2: { destruct (T !! tkey a va) as [x|] eqn:E; [|done].
       destruct (inv_T_parent _ _ _ _ HI [a; pt_index va 39; pt_index va 30] _ _ E) as [[y Hy] _]; [done|].
       congruence. }
  rewrite (next_table_spec [a; pt_index va 39; pt_index va 30]) by (done || (simpl; lia) || (apply Hr; lia)).
  cbn [app]. fold (tkey a va). destruct (T !! tkey a va) as [l3|] eqn:E3; cbn; [|done].
  by rewrite (pte_addr_eq w) by (apply HI || done || (by eapply inv_T_pos) || (apply Hr; lia)).
Qed.

Lemma leaf_word va pa :
  T !! tkey a va = Some pa -> holds (get w (entry_at w pa (pt_index va 12))) (L !! key a va).
Proof.
  intros Hk. pose proof (inv_word _ _ _ _ HI _ _ (pt_index va 12) Hk (pt_index_range va 12 ltac:(lia))) as Hw.
  unfold entry_of in Hw. by rewrite decide_True in Hw by done.
Qed.

Lemma no_table_no_leaf va : T !! tkey a va = None -> L !! key a va = None.
Proof. intros H. pose proof (no_child _ _ _ _ _ (pt_index va 12) HI H ltac:(done)) as Hn. exact Hn. Qed.

Lemma leaf_valid k e : L !! k = Some e -> has e PTE_VALID = true.
Proof. intros H. by apply (inv_L _ _ _ _ HI k). Qed.

(** The walk of [user_to_phys_checked] is that of [leaf_for_va]. *)
Lemma to_phys_leaf va access :
  user_to_phys_checked as_ va access w =
    match leaf_for_va as_ va w with
    | None => 0
    | Some p =>
        if negb (has (get w p) PTE_VALID) then 0 else
        if negb (user_entry_allows (get w p) access) then 0 else
        get w p .& PTE_ADDR_MASK .| va .& 0xfff
    end.
Proof. unfold user_to_phys_checked, leaf_for_va, obind. by repeat case_match; simplify_eq. Qed.

Lemma to_phys_spec va access :
  user_to_phys_checked as_ va access w =
    match L !! key a va with
    | Some e => if user_entry_allows e access then fr e .| va .& 0xfff else 0
    | None => 0
    end.
Proof.
  rewrite to_phys_leaf, leaf_for_va_spec. destruct (T !! tkey a va) as [l3|] eqn:E; cbn [fmap option_fmap option_map].
  - pose proof (leaf_word va l3 E) as Hw. destruct (L !! key a va) as [e|] eqn:El; cbn [fmap option_fmap option_map holds] in Hw.
    + rewrite Hw, (leaf_valid _ _ El). cbn [negb]. by destruct (user_entry_allows e access).
    + by rewrite Hw.
  - by rewrite no_table_no_leaf.
Qed.

Lemma is_mapped_spec va : vmm_is_mapped as_ va w = bool_decide (is_Some (L !! key a va)).
Proof.
  unfold vmm_is_mapped. rewrite leaf_for_va_spec. destruct (T !! tkey a va) as [l3|] eqn:E; cbn.
  - pose proof (leaf_word va l3 E) as Hw. destruct (L !! key a va) as [e|] eqn:El; cbn [fmap option_fmap option_map holds] in Hw.
    + by rewrite Hw, (leaf_valid _ _ El), bool_decide_eq_true_2.
    + rewrite Hw, bool_decide_eq_false_2; [done|by intros [??]].
  - rewrite no_table_no_leaf, bool_decide_eq_false_2; [done|by intros [??]|done].
Qed.
End Walk.

(** ** Allocation under the invariant *)

Lemma inv_alloc_cases w w' T L U pa :
  Inv w T L U -> alloc_zero_page w = (pa, w') ->
  same_cfg w w' /\ m_mmu w' = m_mmu w /\ keep L U w w' /\
  (pa = 0 /\ Inv w' T L U \/
   pa <> 0 /\ Inv w' T L (fun q => U q + one pa q) /\ lcount L pa = 0 /\ U pa = 0 /\
   (forall k, T !! k <> Some pa) /\ (forall j, 0 <= j < PAGE_SIZE -> page_byte w' pa j = 0)).
Proof.
  intros HI E. destruct (alloc_cases w pa w' (inv_machine _ _ _ _ HI) E) as (Hok & Hcfg & Hmmu & Hc).
  split; [done|]. split; [done|]. destruct Hc as [(-> & Hm & Hrc)|Hf].
  - split; [split; [done|]; intros q _ j _; unfold page_byte; destruct Hcfg as [-> _]; by rewrite Hm|].
    left. split; [done|]. apply (inv_mem_change w); try done.
    intros k pa _ j _. unfold page_byte. destruct Hcfg as [-> _]. by rewrite Hm.
  - destruct (fresh_unused w w' T L U pa HI Hf) as (Hn & Hl & Hu). split.
    + split; [done|]. intros q Hq. apply (same_page_other w w' pa); [apply HI|apply Hcfg|apply Hf| | |].
      * by apply (fresh_aligned w w' pa Hok).
      * by rewrite (used_rc w T L U).
      * intros <-. lia.
    + right. split; [destruct Hf; lia|]. split; [by apply (inv_alloc w)|]. split_and!; try done. apply Hf.
Qed.

Lemma zero_page_words w pa :
  machine_ok w -> 0 < rc w pa -> (forall j, 0 <= j < PAGE_SIZE -> page_byte w pa j = 0) ->
  forall i, 0 <= i < 512 -> word w pa i = 0.
Proof.
  intros Hok Hrc Hz i Hi. destruct (rc_page w pa Hok Hrc) as (H1 & H2 & H3). pose proof (m_direct w Hok).
  unfold word, get. apply Mem.load_le_zero; [unfold PAGE_SIZE in *; lia..|]. intros x Hx.
  specialize (Hz (x - (hhdm w + pa))). unfold page_byte in Hz.
  replace (hhdm w + pa + (x - (hhdm w + pa))) with x in Hz by lia. apply Hz. unfold PAGE_SIZE. lia.
Qed.

Lemma keep_put L U w T pa i x k :
  Inv w T L U -> T !! k = Some pa -> 0 <= i < 512 -> keep L U w (put w (entry_at w pa i) x).
Proof.
  intros HI Hk Hi. split; [done|]. intros q Hq. pose proof (inv_T_pos _ _ _ _ _ _ HI Hk) as Hpos.
  apply (same_page_other w _ pa); [apply HI|done| | | |].
  - intros b Hb. by apply put_mem_other; [apply HI|..].
  - by apply (rc_page w pa (inv_machine _ _ _ _ HI)).
  - by rewrite (used_rc w T L U).
  - intros <-. exact (not_table w T L U pa HI Hq k Hk).
Qed.

(** Only pages that hold tables changed. *)
Definition only_tables (T : gmap (list Z) Z) (w w' : machine) : Prop :=
  same_cfg w w' /\ forall q, q mod PAGE_SIZE = 0 -> (forall k, T !! k <> Some q) -> same_page w w' q.

Lemma only_tables_put_rc w T pa i x k :
  machine_ok w -> 0 < rc w pa -> T !! k = Some pa -> 0 <= i < 512 -> only_tables T w (put w (entry_at w pa i) x).
Proof.
  intros Hok Hpos Hk Hi. split; [done|]. intros q Hq Hn j Hj.
  destruct (rc_page w pa Hok Hpos) as (_ & Hm & _).
  assert (pa <> q) as Hne by (intros <-; by apply (Hn k)).
  apply put_mem_other; [done..|]. change (hhdm (put _ _ _)) with (hhdm w).
  destruct (pages_apart pa q Hm Hq Hne); lia.
Qed.

Lemma only_tables_put w T L U pa i x k :
  Inv w T L U -> T !! k = Some pa -> 0 <= i < 512 -> only_tables T w (put w (entry_at w pa i) x).
Proof. intros HI Hk Hi. eapply only_tables_put_rc; [apply HI|by eapply inv_T_pos|done|done]. Qed.

Lemma only_tables_trans T w1 w2 w3 : only_tables T w1 w2 -> only_tables T w2 w3 -> only_tables T w1 w3.
Proof.
  intros [[H1 H2] H3] [[H4 H5] H6]. split; [split; congruence|]. intros q Hq Hn j Hj.
  rewrite (H6 q Hq Hn j Hj). by apply H3.
Qed.

Lemma only_tables_keep w0 w T L U w' :
  Inv w0 T L U -> only_tables T w w' -> forall q, 0 < lcount L q + U q -> same_page w w' q.
Proof.
  intros HI [_ H] q Hq. apply H; [|by eapply not_table].
  apply (rc_pos w0); [apply HI|]. by rewrite (used_rc w0 T L U).
Qed.

(** ** Finding and making tables *)

Lemma ensure_table_spec w w' T L U as_ k pa i r :
  Inv w T L U -> hhdm_offset as_ = hhdm w -> T !! k = Some pa -> (length k < 4)%nat -> 0 <= i < 512 ->
  ensure_table as_ (pt_virt as_ pa) i w = (r, w') ->
  exists T', Inv w' T' L U /\ keep L U w w' /\ m_mmu w' = m_mmu w /\ grows (default 0 (head k)) T T' /\
    match r with Some t => exists c, T' !! (k ++ [i]) = Some c /\ t = pt_virt as_ c | None => True end.
Proof.
  intros HI Hh Hk Hlen Hi. pose proof (inv_T _ _ _ _ HI _ _ Hk) as Hlk. unfold ensure_table.
  rewrite (pte_addr_eq w as_ pa i) by (apply HI || done || by eapply inv_T_pos).
  change (get w (entry_at w pa i)) with (word w pa i).
  pose proof (inv_word _ _ _ _ HI k pa i Hk Hi) as Hw. unfold entry_of in Hw. rewrite decide_False in Hw by lia.
  destruct (T !! (k ++ [i])) as [c|] eqn:Hc; cbn in Hw.
  - rewrite Hw, has_valid, has_table. destruct (table_entry_bits c) as [-> ->]. cbn [negb]. intros [= <- <-].
    exists T. split; [done|]. split; [apply keep_refl|]. split; [done|]. split; [apply grows_refl|]. exists c. split; [done|].
    destruct (table_page w T L U HI _ _ Hc). fold (fr (table_entry c)). by rewrite fr_table_entry.
  - rewrite Hw. cbn [negb]. destruct (alloc_zero_page w) as [c w1] eqn:E.
    destruct (inv_alloc_cases w w1 T L U c HI E) as ([Hh1 Ht1] & Hm1 & Hk1 & [[-> HI1]|(Hc0 & HI1 & Hl & Hu & Hn & Hz)]).
    + intros [= <- <-]. exists T. split; [done|]. split; [done|]. split; [done|]. split; [apply grows_refl|done].
    + rewrite (proj2 (Z.eqb_neq c 0) Hc0).
      assert (entry_at w pa i = entry_at w1 pa i) as Ee by (unfold entry_at; by rewrite Hh1).
      assert (0 < rc w1 c) as Hrc.
      { rewrite (used_rc _ _ _ _ c HI1); unfold one; rewrite decide_True by done; lia. }
      assert (Inv (put w1 (entry_at w1 pa i) (table_entry c)) (<[k ++ [i] := c]> T) L U) as HI2.
      { eapply inv_U_ext; [apply (inv_new_table w1 T L _ k i pa c HI1 Hk Hlen Hi Hc Hc0)|].
        - unfold one. rewrite decide_True by done. lia.
        - done.
        - intros j Hj. by rewrite (zero_page_words w1 c (inv_machine _ _ _ _ HI1) Hrc Hz).
        - intros q. simpl. lia. }
      rewrite Ee. fold (table_entry c). set (w2 := put w1 _ _) in *.
      assert (get w2 (entry_at w1 pa i) = table_entry c) as ->.
      { change (word w2 pa i = table_entry c). apply (inv_word _ _ _ _ HI2 k pa i) in Hi as Hwd.
        - unfold entry_of in Hwd. rewrite decide_False, lookup_insert_eq in Hwd by lia. done.
        - rewrite lookup_insert_ne; [done|]. intros Eq. by rewrite Eq in Hc; congruence. }
      rewrite has_table. destruct (table_entry_bits c) as [_ ->]. cbn [negb]. intros [= <- <-].
      exists (<[k ++ [i] := c]> T). split; [done|]. split.
      { eapply keep_trans; [done|]. eapply keep_mono; [|by eapply (keep_put L _ w1 T pa i _ k HI1)].
        intros q Hq. unfold one. simpl. case_decide; lia. }
      split; [done|]. split.
      { split; [by apply insert_subseteq|]. intros k' [x [[<- _]|[_ Hx]]%lookup_insert_Some]; [right|left; by exists x].
        destruct k as [|y k]; [simpl in *; lia|done]. }
      exists c. split; [apply lookup_insert_eq|].
      destruct (rc_page w1 c (inv_machine _ _ _ _ HI1) Hrc) as (? & ? & _).
      fold (fr (table_entry c)). by rewrite fr_table_entry.
Qed.

Lemma ensure_tables_spec w w' T L U a as_ va r :
  Inv w T L U -> as_ok w T a as_ -> ensure_tables as_ va w = (r, w') ->
  exists T', Inv w' T' L U /\ keep L U w w' /\ m_mmu w' = m_mmu w /\ grows a T T' /\
    match r with Some t => exists c, T' !! tkey a va = Some c /\ t = pt_virt as_ c | None => True end.
Proof.
  intros HI [Hh Ha] E. unfold ensure_tables in E. pose proof (pt_index_range va) as Hr.
  destruct (ensure_table as_ _ (pt_index va 39) w) as [r1 w1] eqn:E1.
  destruct (ensure_table_spec w w1 T L U as_ [a] _ (pt_index va 39) r1 HI Hh Ha) as (T1 & HI1 & Hk1 & Hm1 & Hg1 & Hr1);
    [simpl; lia|apply Hr; lia|done|]. destruct r1 as [l1|]; [|simplify_eq; by exists T1].
  destruct Hr1 as (c1 & Hc1 & ->). assert (hhdm w1 = hhdm w) as Hh1 by apply Hk1.
  destruct (ensure_table as_ _ (pt_index va 30) w1) as [r2 w2] eqn:E2.
  destruct (ensure_table_spec w1 w2 T1 L U as_ _ _ (pt_index va 30) r2 HI1 ltac:(congruence) Hc1) as (T2 & HI2 & Hk2 & Hm2 & Hg2 & Hr2);
    [simpl; lia|apply Hr; lia|done|].
  assert (keep L U w w2) as Hk02 by by eapply keep_trans. assert (grows a T T2) as Hg02 by by eapply grows_trans.
  destruct r2 as [l2|]; [|simplify_eq; exists T2; split; [done|]; split; [done|]; split; [congruence|done]].
  destruct Hr2 as (c2 & Hc2 & ->). assert (hhdm w2 = hhdm w) as Hh2 by apply Hk02.
  destruct (ensure_table_spec w2 w' T2 L U as_ _ _ (pt_index va 21) r HI2 ltac:(congruence) Hc2) as (T3 & HI3 & Hk3 & Hm3 & Hg3 & Hr3);
    [simpl; lia|apply Hr; lia|done|].
  exists T3. split; [done|]. split; [by eapply keep_trans|]. split; [congruence|]. split; [by eapply grows_trans|].
  destruct r as [l3|]; [|done]. exact Hr3.
Qed.

(** ** Mapping a page *)

(** The outside references after the entry [me] of [L] was replaced by a leaf
    that takes over one reference to [pa]. *)
Definition moved (U : Z -> Z) (pa : Z) (me : option Z) (q : Z) : Z := U q - one pa q + cnt me q.

Lemma cnt_one e q : cnt (Some e) q = one (fr e) q.
Proof. unfold one. simpl. repeat case_decide; congruence. Qed.

Lemma inv_put_leaf w T L U a va pa e l3 :
  Inv w T L U -> T !! tkey a va = Some l3 -> 1 <= U pa -> is_u64 e -> has e PTE_VALID = true -> fr e = pa ->
  pa <> 0 -> Inv (put w (entry_at w l3 (pt_index va 12)) e) T (<[key a va := e]> L) (moved U pa (L !! key a va)).
Proof.
  intros HI Hk HU He Hv Hf Hnz. apply (inv_set_leaf w T L U (moved U pa (L !! key a va)) (tkey a va) l3 _ e (Some e));
    try done; [apply pt_index_range; lia|intros ? [= <-]; split; congruence|..].
  - intros q. unfold moved, one. pose proof (inv_U _ _ _ _ HI q). pose proof (cnt_range (L !! key a va) q).
    case_decide; [subst q|]; lia.
  - intros q. fold (key a va). rewrite cnt_one, Hf. unfold moved. lia.
Qed.

(** The descriptors the two mapping functions build. *)
Definition map_desc (cow : bool) (pa flags : Z) : Z :=
  let ap := if has flags VMM_USER_WRITE then PTE_AP_USER_RW else PTE_AP_USER_RO in
  let xn := if has flags VMM_USER_EXEC then 0 else PTE_UXN in
  if cow
  then pa .& PTE_ADDR_MASK .| PTE_VALID .| PTE_TABLE .| PTE_AF .| PTE_SH_INNER .| PTE_AP_USER_RO .| PTE_PXN .| xn .| PTE_COW
  else pa .& PTE_ADDR_MASK .| PTE_VALID .| PTE_TABLE .| PTE_AF .| PTE_SH_INNER .| ap .| PTE_PXN .| xn.

Definition map_page (cow : bool) (as_ : user_address_space) (va pa flags : Z) (w : machine) : bool * machine :=
  if cow then vmm_map_page_cow as_ va pa flags w else vmm_map_page as_ va pa flags w.

Lemma const_u64 c : (0 <=? c) && (c <? 2 ^ 64) = true -> is_u64 c.
Proof. unfold is_u64. intros. zbool. lia. Qed.

Ltac pte_u64 :=
  repeat first
    [ assumption | apply lor_u64
    | match goal with |- is_u64 ?c => is_const c end; apply const_u64; vm_compute; reflexivity
    | match goal with |- is_u64 (_ .& _) => apply land_u64 end
    | unfold is_u64; lia ].

Lemma map_desc_spec cow pa flags :
  let e := map_desc cow pa flags in
  is_u64 e /\ has e PTE_VALID = true /\ fr e = fr pa /\ cow_bit e = cow /\
  write_bit e = negb cow && has flags VMM_USER_WRITE /\ exec_bit e = has flags VMM_USER_EXEC.
Proof.
  cbv zeta. unfold map_desc. fold (fr pa). destruct (fr_range pa) as [Hr _].
  assert (is_u64 (fr pa)) as Hu by (unfold is_u64; lia).
  pose proof (fr_bit pa) as Hb. unfold cow_bit, write_bit, exec_bit. rewrite has_valid.
  destruct cow, (has flags VMM_USER_WRITE), (has flags VMM_USER_EXEC);
    (split; [pte_u64|]); (split; [by pte_bits|]);
    (split; [by rewrite !fr_lor_const, fr_fr by done|]);
    pte_bits; rewrite ?Hb by lia; done.
Qed.

Lemma vpn_sym va vb : vpn va = vpn vb -> vpn vb = vpn va.
Proof. done. Qed.

Lemma inv_map_page w w' T L U a as_ cow va pa flags b :
  Inv w T L U -> as_ok w T a as_ -> pa <> 0 -> 1 <= U pa -> map_page cow as_ va pa flags w = (b, w') ->
  exists T', grows a T T' /\ keep L U w w' /\
    if b
    then Inv w' T' (<[key a va := map_desc cow pa flags]> L) (moved U pa (L !! key a va)) /\
         m_mmu w' = TlbiVa (Z.shiftr va 12) :: m_mmu w
    else Inv w' T' L U /\ m_mmu w' = m_mmu w.
Proof.
  intros HI Has Hnz HU E. assert (fr pa = pa) as Hfr.
  { destruct (rc_page w pa (inv_machine _ _ _ _ HI)) as (? & ? & _); [|by apply fr_page].
    rewrite (used_rc w T L U); pose proof (lcount_nonneg L pa); (done || lia). }
  assert (exists r w1, ensure_tables as_ va w = (r, w1) /\
    match r with None => (b, w') = (false, w1) | Some l3 =>
      (b, w') = (true, vmm_flush_user_va va (put w1 (pte_addr l3 (pt_index va 12)) (map_desc cow pa flags))) end)
    as (r & w1 & E1 & E2).
  { unfold map_page, vmm_map_page, vmm_map_page_cow in E.
    destruct (ensure_tables as_ va w) as [r w1]. exists r, w1. split; [done|]. by destruct cow, r. }
  destruct (ensure_tables_spec w w1 T L U a as_ va r HI Has E1) as (T1 & HI1 & Hk1 & Hm1 & Hg1 & Hr1).
  exists T1. split; [done|]. destruct r as [l3|].
  - destruct Hr1 as (c & Hc & ->). injection E2 as -> ->. destruct (map_desc_spec cow pa flags) as (Hd1 & Hd2 & Hd3 & _).
    pose proof (pt_index_range va 12 ltac:(lia)) as Hi.
    rewrite (pte_addr_eq w1) by (apply HI1 || (by eapply inv_T_pos) || done || (destruct Has, Hk1 as [[] _]; congruence)).
    split; [eapply keep_trans; [done|]; by eapply (keep_put L U w1 T1 c _ _ _ HI1)|].
    split; [|simpl; by rewrite Hm1]. apply inv_mmu, inv_put_leaf; done || congruence.
  - injection E2 as -> ->. done.
Qed.

(** ** Loops over the pages of a range *)

(** The addresses [start, start + PAGE_SIZE, ...] below [end_]. *)
Definition pages (start end_ : Z) : list Z :=
  (fun j => start + j * PAGE_SIZE) <$> seqZ 0 ((end_ - start + (PAGE_SIZE - 1)) / PAGE_SIZE).

Definition page_keys (a start end_ : Z) : list (list Z) := key a <$> pages start end_.

Lemma elem_of_pages start end_ va :
  va ∈ pages start end_ <-> start <= va < end_ /\ (va - start) mod PAGE_SIZE = 0.
Proof.
  unfold pages. rewrite list_elem_of_fmap. setoid_rewrite elem_of_seqZ. unfold PAGE_SIZE. split.
  - intros (j & -> & Hj). replace (start + j * 4096 - start) with (j * 4096) by lia.
    rewrite Z.mod_mul by lia. split; [dmlia|done].
  - intros [H Hm]. exists ((va - start) / 4096). split; dmlia.
Qed.

Lemma elem_of_page_keys a start end_ k :
  k ∈ page_keys a start end_ <-> exists va, k = key a va /\ start <= va < end_ /\ (va - start) mod PAGE_SIZE = 0.
Proof. unfold page_keys. rewrite list_elem_of_fmap. by setoid_rewrite elem_of_pages. Qed.

Section ForPages.
Context {R : Type} (body : Z -> machine -> machine + R) (exit : machine -> R) (start end_ : Z).
Context (P : Z -> machine -> Prop) (Q : R -> Prop).
Context (Hstart : 0 <= start) (Hend : end_ + PAGE_SIZE <= 2 ^ 64).

(** A loop over pages ends, and an invariant of its turns holds at the end. *)
Lemma for_pages_ind w :
  (forall va w, va ∈ pages start end_ -> P va w ->
     match body va w with inl w' => P (va + PAGE_SIZE) w' | inr r => Q r end) ->
  (forall va w, (forall vb, vb ∈ pages start va <-> vb ∈ pages start end_) -> P va w -> Q (exit w)) ->
  P start w -> exists r, for_pages body exit start end_ w = Some r /\ Q r.
Proof.
  intros Hbody Hexit HP. unfold for_pages.
  apply (iter_spec (pages_step body exit end_)
    (fun '(va, w) => (va - start) mod PAGE_SIZE = 0 /\ start <= va /\ (va < end_ + PAGE_SIZE \/ va = start) /\ P va w)
    (fun '(va, w) => if va <? end_ then S (Z.to_nat ((end_ - va) / PAGE_SIZE)) else O)).
  - intros [va w1] s' (Hm & Hs & Hlt & HP1) E. unfold pages_step in E.
    destruct (Z.ltb_spec va end_) as [Hva|]; [|done].
    specialize (Hbody va w1 ltac:(by apply elem_of_pages) HP1). destruct (body va w1) as [w2|]; [|done].
    unfold PAGE_SIZE in *. rewrite u64_small in E by (unfold is_u64; lia). injection E as <-. split.
    + split_and!; [dmlia|lia|lia|done].
    + destruct (Z.ltb_spec (va + 4096) end_); [|lia].
      replace (end_ - va) with (end_ - (va + 4096) + 1 * 4096) by lia.
      rewrite Z.div_add by lia. assert (0 <= (end_ - (va + 4096)) / 4096) by (apply Z.div_pos; lia). lia.
  - intros [va w1] r (Hm & Hs & Hlt & HP1) E. unfold pages_step in E.
    destruct (Z.ltb_spec va end_) as [Hva|Hva].
    + specialize (Hbody va w1 ltac:(by apply elem_of_pages) HP1). destruct (body va w1); [done|]. by simplify_eq.
    + simplify_eq. apply (Hexit va); [|done]. intros vb. rewrite !elem_of_pages. unfold PAGE_SIZE in *.
      split; intros [H1 H2]; (split; [|done]); [|lia]. split; [lia|].
      destruct Hlt as [Hlt|Hlt]; [|lia]. clear -H1 H2 Hm Hlt Hva. dmlia.
  - split_and!; [by rewrite Z.sub_diag|lia|by right|done].
  - unfold pages_fuel. case_match; lia.
Qed.
End ForPages.

Lemma page_keys_step a start va k :
  start <= va -> (va - start) mod PAGE_SIZE = 0 ->
  k ∈ page_keys a start (va + PAGE_SIZE) <-> k ∈ page_keys a start va \/ k = key a va.
Proof.
  intros Hs Hm. rewrite !elem_of_page_keys. split.
  - intros (vb & -> & Hb & Hbm). destruct (Z.eq_dec vb va) as [->|Hne]; [by right|].
    left. exists vb. split; [done|]. split; [|done]. unfold PAGE_SIZE in *. dmlia.
  - intros [(vb & -> & Hb & Hbm)|Ek]; [exists vb|exists va]; unfold PAGE_SIZE in *; (split; [done|]); split; (done || lia).
Qed.

Lemma page_keys_nil a start : page_keys a start start = [].
Proof. unfold page_keys, pages. by rewrite Z.sub_diag. Qed.

Lemma page_keys_eq a start va end_ k :
  (forall vb, vb ∈ pages start va <-> vb ∈ pages start end_) -> k ∈ page_keys a start va <-> k ∈ page_keys a start end_.
Proof. intros H. unfold page_keys. rewrite !list_elem_of_fmap. by setoid_rewrite H. Qed.

(** ** Unmapping a range *)

Lemma delete_cnt (L : gmap (list Z) Z) (U : Z -> Z) k e pa :
  L !! k = Some e -> fr e = pa -> forall q, cnt None q + (U q + one pa q) = cnt (L !! k) q + U q.
Proof. intros -> <- q. rewrite cnt_one. simpl. lia. Qed.

(** Clearing a leaf and dropping its reference. *)
Lemma inv_clear_leaf w T L U a va e l3 :
  Inv w T L U -> T !! tkey a va = Some l3 -> L !! key a va = Some e ->
  let w' := free_page (fr e) (put w (entry_at w l3 (pt_index va 12)) 0) in
  Inv w' T (delete (key a va) L) U /\ only_tables T w w'.
Proof.
  intros HI Hk He. cbv zeta. set (w1 := put w _ 0).
  assert (Inv w1 T (delete (key a va) L) (fun q => U q + one (fr e) q)) as HI1.
  { apply (inv_set_leaf w T L U _ (tkey a va) l3 _ 0 None); try done; [apply pt_index_range; lia|..].
    - intros q. unfold one. pose proof (inv_U _ _ _ _ HI q). case_decide; lia.
    - by apply (delete_cnt L U (key a va) e). }
  assert (1 <= U (fr e) + one (fr e) (fr e)) as HU.
  { unfold one. rewrite decide_True by done. pose proof (inv_U _ _ _ _ HI (fr e)). lia. }
  split.
  - eapply inv_U_ext; [by apply (inv_free w1 T _ _ (fr e) HI1)|]. intros q. simpl. lia.
  - destruct (free_cases w1 (fr e) (inv_machine _ _ _ _ HI1)) as (_ & [Hh Ht] & _).
    { rewrite (used_rc _ _ _ _ _ HI1); pose proof (lcount_nonneg (delete (key a va) L) (fr e)); lia. }
    destruct (only_tables_put w T L U l3 (pt_index va 12) 0 _ HI Hk (pt_index_range va 12 ltac:(lia))) as [[Hc1 Hc2] Hs].
    split; [split; [exact Hh|exact Ht]|]. intros q Hq Hn j Hj. unfold page_byte. rewrite Hh. by apply (Hs q Hq Hn j Hj).
Qed.

(** The TLB operations that were issued from [w] to [w'] include one for [va]. *)
Definition flushed (w w' : machine) (va : Z) : Prop :=
  exists new, m_mmu w' = new ++ m_mmu w /\ TlbiVa (Z.shiftr va 12) ∈ new.

Lemma flushed_here w w1 va op : m_mmu w1 = m_mmu w -> op = TlbiVa (Z.shiftr va 12) -> flushed w (mmu w1 op) va.
Proof. intros Hm ->. exists [TlbiVa (Z.shiftr va 12)]. split; [simpl; by rewrite Hm|by left]. Qed.

Lemma flushed_trans w w1 w2 va :
  flushed w w1 va -> (exists new, m_mmu w2 = new ++ m_mmu w1) -> flushed w w2 va.
Proof.
  intros (n1 & H1 & Hin) (n2 & H2). exists (n2 ++ n1). split; [by rewrite H2, H1, app_assoc|].
  apply elem_of_app. by right.
Qed.

Lemma flushed_after w w1 w2 va :
  flushed w1 w2 va -> (exists new, m_mmu w1 = new ++ m_mmu w) -> flushed w w2 va.
Proof.
  intros (n1 & H1 & Hin) (n2 & H2). exists (n1 ++ n2). split; [by rewrite H1, H2, app_assoc|].
  apply elem_of_app. by left.
Qed.

Section Ranges.
Context (w0 : machine) (T L0 : gmap (list Z) Z) (U : Z -> Z) (a : Z) (as_ : user_address_space).
Context (HI0 : Inv w0 T L0 U) (Has : as_ok w0 T a as_) (start end_ : Z).

(** The state of a loop that changes the mapped pages below [va] by [f]. *)
Definition range_inv (f : option Z -> option Z) (va : Z) (w : machine) : Prop :=
  start <= va /\ (va - start) mod PAGE_SIZE = 0 /\
  (exists L, Inv w T L U /\ forall k, L !! k = if decide (k ∈ page_keys a start va) then f (L0 !! k) else L0 !! k) /\
  keep L0 U w0 w /\ (exists new, m_mmu w = new ++ m_mmu w0) /\
  (forall k, k ∈ page_keys a start va -> is_Some (L0 !! k) -> exists vb, key a vb = k /\ flushed w0 w vb).

Lemma range_start f : range_inv f start w0.
Proof.
  split_and!; [lia|by rewrite Z.sub_diag| |apply keep_refl|by exists []|].
  - exists L0. split; [done|]. intros k. by rewrite page_keys_nil, decide_False by apply not_elem_of_nil.
  - intros k Hk. rewrite page_keys_nil in Hk. by apply elem_of_nil in Hk.
Qed.

Lemma range_skip f va w :
  range_inv f va w -> (L0 !! key a va = None \/ key a va ∈ page_keys a start va) -> f None = None ->
  range_inv f (va + PAGE_SIZE) w.
Proof.
  intros (Hs & Hm & (L & HI & HL) & Hk & Hn & Hf) Hnone HfN. split_and!; [unfold PAGE_SIZE; lia| | |apply Hk|done|].
  - unfold PAGE_SIZE in *. dmlia.
  - exists L. split; [done|]. intros k. rewrite HL.
    destruct (decide (k ∈ page_keys a start va)) as [Hin|Hnin].
    + rewrite decide_True; [done|]. apply page_keys_step; auto.
    + case_decide as Hin; [|done]. apply page_keys_step in Hin as [?|Ek]; [done| |done|done]. subst k.
      destruct Hnone as [->|?]; [by rewrite HfN|done].
  - intros k Hin [e He]. apply page_keys_step in Hin as [Hin|Ek]; [by apply Hf; [|exists e]| |done|done]. subst k.
    destruct Hnone as [?|?]; [congruence|by apply Hf; [|exists e]].
Qed.

(** One turn that changed the leaf of [va]. *)
Lemma range_step f va w w' L :
  range_inv f va w -> (forall k, L !! k = if decide (k ∈ page_keys a start va) then f (L0 !! k) else L0 !! k) ->
  Inv w' T (partial_alter (fun _ => f (L0 !! key a va)) (key a va) L) U ->
  only_tables T w w' -> (exists new, m_mmu w' = new ++ m_mmu w) -> flushed w w' va ->
  range_inv f (va + PAGE_SIZE) w'.
Proof.
  intros (Hs & Hm & _ & Hk & Hn & Hf) HL HI' Hot Hn' Hfl.
  assert (exists new, m_mmu w' = new ++ m_mmu w0) as Hn0.
  { destruct Hn as [n1 H1], Hn' as [n2 H2]. exists (n2 ++ n1). by rewrite H2, H1, app_assoc. }
  assert (keep L0 U w0 w') as Hk0.
  { destruct Hk as [[H1 H2] H3]. pose proof Hot as [[H4 H5] _]. split; [split; congruence|]. intros q Hq j Hj.
    rewrite <- (H3 q Hq j Hj). by apply (only_tables_keep w0 w T L0 U w' HI0 Hot q Hq). }
  split_and!; [unfold PAGE_SIZE; lia| | |apply Hk0|done|].
  - unfold PAGE_SIZE in *. dmlia.
  - eexists. split; [done|]. intros k. destruct (decide (k = key a va)) as [->|Hne].
    + rewrite lookup_partial_alter_eq, decide_True; [done|]. apply page_keys_step; auto.
    + rewrite lookup_partial_alter_ne by done. rewrite HL. apply decide_ext. rewrite page_keys_step by done. tauto.
  - intros k Hin HeL. apply page_keys_step in Hin as [Hin|Ek]; [| |done|done].
    + destruct (Hf k Hin HeL) as (vb & Eb & Hb). exists vb. split; [done|]. by eapply flushed_trans.
    + exists va. split; [done|]. by eapply flushed_after.
Qed.
End Ranges.

(** The translation of an address depends on the leaf of its page. *)
Definition translate (L : gmap (list Z) Z) (a va : Z) (access : vmm_access) : Z :=
  match L !! key a va with
  | Some e => if user_entry_allows e access then fr e .| va .& 0xfff else 0
  | None => 0
  end.

(** ** The effect of the range operations on one leaf *)

Lemma unmap_body w T L U a as_ va :
  Inv w T L U -> as_ok w T a as_ ->
  match leaf_for_va as_ va w with
  | None => L !! key a va = None
  | Some pte =>
      if negb (has (get w pte) PTE_VALID) then L !! key a va = None else
      exists e l3, L !! key a va = Some e /\ get w pte = e /\
        T !! tkey a va = Some l3 /\ pte = entry_at w l3 (pt_index va 12)
  end.
Proof.
  intros HI [Hh Ha]. rewrite (leaf_for_va_spec w T L U HI as_ Hh a Ha).
  destruct (T !! tkey a va) as [l3|] eqn:E; cbn [fmap option_fmap option_map].
  - pose proof (leaf_word w T L U HI a va l3 E) as Hw. destruct (L !! key a va) as [e|] eqn:El; cbn [holds] in Hw.
    + rewrite Hw, (leaf_valid w T L U HI _ _ El). cbn [negb]. eauto 10.
    + by rewrite Hw.
  - by eapply no_table_no_leaf.
Qed.

Lemma inv_unmap_range w T L U a as_ start end_ :
  Inv w T L U -> as_ok w T a as_ -> 0 <= start -> end_ + PAGE_SIZE <= 2 ^ 64 ->
  exists w' va, vmm_unmap_range as_ start end_ w = Some w' /\
    range_inv w T L U a start (fun _ => None) va w' /\
    forall k, k ∈ page_keys a start va <-> k ∈ page_keys a start end_.
Proof.
  intros HI Has Hs He. unfold vmm_unmap_range.
  destruct (for_pages_ind (fun va w =>
       match leaf_for_va as_ va w with
       | None => inl w
       | Some pte =>
           if negb (has (get w pte) PTE_VALID) then inl w else
           inl (vmm_flush_user_va va (free_page (get w pte .& PTE_ADDR_MASK) (put w pte 0)))
       end) (fun w => w) start end_ (range_inv w T L U a start (fun _ => None))
    (fun w' => exists va, range_inv w T L U a start (fun _ => None) va w' /\
                 forall k, k ∈ page_keys a start va <-> k ∈ page_keys a start end_) Hs He w)
    as (w' & E & va & HP & Hk).
  - intros va w1 Hva HP. pose proof HP as (Hs1 & Hm1 & (L1 & HI1 & HL1) & [Hc1 _] & _).
    assert (as_ok w1 T a as_) as Has1 by (destruct Has, Hc1; split; congruence).
    pose proof (unmap_body w1 T L1 U a as_ va HI1 Has1) as Hb.
    assert (L1 !! key a va = None -> range_inv w T L U a start (fun _ => None) (va + PAGE_SIZE) w1) as Hskip.
    { intros Hn. apply range_skip; [done| |done]. rewrite HL1 in Hn. case_decide; auto. }
    destruct (leaf_for_va as_ va w1) as [pte|]; [|by apply Hskip].
    destruct (negb (has (get w1 pte) PTE_VALID)); [by apply Hskip|].
    destruct Hb as (e & l3 & Hl & -> & Ht & ->). fold (fr e).
    destruct (inv_clear_leaf w1 T L1 U a va e l3 HI1 Ht Hl) as [HI2 Hot].
    apply (range_step w T L U a HI start (fun _ => None) va w1 _ L1); [done|done| |done|by eexists [_]|by eapply flushed_here].
    by apply inv_mmu.
  - intros va w1 Hp HP. exists va. split; [done|]. intros k. by apply page_keys_eq.
  - by apply range_start.
  - exists w', va. done.
Qed.

(** *** Protection *)

Lemma protected_spec e flags :
  is_u64 e -> has e PTE_VALID = true ->
  let e' := protected e flags in
  is_u64 e' /\ has e' PTE_VALID = true /\ fr e' = fr e /\ cow_bit e' = cow_bit e /\
  write_bit e' = has flags VMM_USER_WRITE /\ exec_bit e' = has flags VMM_USER_EXEC.
Proof.
  intros He Hv. cbv zeta. unfold protected, leaf_with_ap. rewrite has_valid in *.
  unfold cow_bit, write_bit, exec_bit.
  destruct (has flags VMM_USER_WRITE), (has flags VMM_USER_EXEC);
    (split; [pte_u64; apply u64_range|]); (split; [pte_bits; by rewrite ?Hv|]);
    (split; [repeat first [rewrite fr_land_const by done | rewrite fr_lor_const by done]; done|]);
    pte_bits; done.
Qed.

(** Replacing a leaf by one that maps the same page. *)
Lemma inv_change_leaf w T L U a va e e' l3 :
  Inv w T L U -> T !! tkey a va = Some l3 -> L !! key a va = Some e -> is_u64 e' -> has e' PTE_VALID = true ->
  fr e' = fr e ->
  let w' := put w (entry_at w l3 (pt_index va 12)) e' in
  Inv w' T (<[key a va := e']> L) U /\ only_tables T w w'.
Proof.
  intros HI Hk Hl He Hv Hf. cbv zeta. split; [|eapply only_tables_put; eauto; apply pt_index_range; lia].
  apply (inv_set_leaf w T L U U (tkey a va) l3 _ e' (Some e')); try done; [apply pt_index_range; lia| |apply HI|].
  - intros ? [= <-]. split; [done|]. pose proof (leaf_nonzero _ _ _ _ _ _ HI Hl). lia.
  - intros q. fold (key a va). by rewrite Hl, !cnt_one, Hf.
Qed.

Lemma page_keys_fresh a start va end_ :
  start <= va < end_ -> (va - start) mod PAGE_SIZE = 0 -> end_ - start <= 2 ^ 48 -> key a va ∉ page_keys a start va.
Proof.
  intros Hva Hm Hlen Hin. apply elem_of_page_keys in Hin as (vb & [_ E]%key_eq & Hvb & Hm').
  unfold vpn, PAGE_SIZE in *. clear -E Hva Hm Hlen Hvb Hm'. dmlia.
Qed.

Lemma inv_protect_range w T L U a as_ start end_ flags :
  Inv w T L U -> as_ok w T a as_ -> 0 <= start -> end_ + PAGE_SIZE <= 2 ^ 64 -> end_ - start <= 2 ^ 48 ->
  exists w' va, vmm_protect_range as_ start end_ flags w = Some w' /\
    range_inv w T L U a start (fmap (fun e => protected e flags)) va w' /\
    forall k, k ∈ page_keys a start va <-> k ∈ page_keys a start end_.
Proof.
  intros HI Has Hs He Hlen. unfold vmm_protect_range. set (f := fmap (fun e => protected e flags)).
  destruct (for_pages_ind (fun va w =>
       match leaf_for_va as_ va w with
       | None => inl w
       | Some pte =>
           if negb (has (get w pte) PTE_VALID) then inl w else
           inl (vmm_flush_user_va va (put w pte (protected (get w pte) flags)))
       end) (fun w => w) start end_ (range_inv w T L U a start f)
    (fun w' => exists va, range_inv w T L U a start f va w' /\
                 forall k, k ∈ page_keys a start va <-> k ∈ page_keys a start end_) Hs He w)
    as (w' & E & va & HP & Hk).
  - intros va w1 [Hva Hvm]%elem_of_pages HP. pose proof HP as (Hs1 & Hm1 & (L1 & HI1 & HL1) & [Hc1 _] & _).
    assert (as_ok w1 T a as_) as Has1 by (destruct Has, Hc1; split; congruence).
    pose proof (page_keys_fresh a start va end_ Hva Hvm Hlen) as Hfr.
    assert (L !! key a va = L1 !! key a va) as HL by (rewrite HL1; by rewrite decide_False).
    pose proof (unmap_body w1 T L1 U a as_ va HI1 Has1) as Hb.
    assert (L1 !! key a va = None -> range_inv w T L U a start f (va + PAGE_SIZE) w1) as Hskip.
    { intros Hn. apply range_skip; [done| |done]. left. congruence. }
    destruct (leaf_for_va as_ va w1) as [pte|]; [|by apply Hskip].
    destruct (negb (has (get w1 pte) PTE_VALID)); [by apply Hskip|].
    destruct Hb as (e & l3 & Hl & -> & Ht & ->).
    destruct (inv_L _ _ _ _ HI1 _ _ Hl) as [Hv Hu]. destruct (protected_spec e flags Hu Hv) as (Hu' & Hv' & Hf' & _).
    destruct (inv_change_leaf w1 T L1 U a va e _ l3 HI1 Ht Hl Hu' Hv' Hf') as [HI2 Hot].
    apply (range_step w T L U a HI start f va w1 _ L1); [done|done| |done|by eexists [_]|by eapply flushed_here].
    apply inv_mmu. rewrite HL, Hl. exact HI2.
  - intros va w1 Hp HP. exists va. split; [done|]. intros k. by apply page_keys_eq.
  - by apply range_start.
  - exists w', va. done.
Qed.
