(* ===== verification/VmmCow.v ===== *)
(** Copy-on-write faults and copies between kernel and user memory
    ([vmm_handle_cow_fault], [vmm_copy_to_user], [vmm_copy_from_user]). *)

From stdpp Require Import base numbers list option gmap fin_maps.
From Stdlib Require Import ZArith Lia.
From S2P Require Import Prelude Mem Pmm PmmSpec Vmm VmmInv VmmOps.
Import Pmm Vmm.

(** ** The copy-on-write fault *)

Lemma owned_desc_spec e :
  is_u64 e -> has e PTE_VALID = true ->
  let e' := leaf_with_ap (e .& not64 PTE_COW) PTE_AP_USER_RW in
  is_u64 e' /\ has e' PTE_VALID = true /\ fr e' = fr e /\ cow_bit e' = false /\ write_bit e' = true /\
  exec_bit e' = exec_bit e.
Proof.
  intros He Hv. cbv zeta. unfold leaf_with_ap. rewrite has_valid in *. unfold cow_bit, write_bit, exec_bit.
  (split; [pte_u64; apply u64_range|]); (split; [pte_bits; by rewrite ?Hv|]).
  split; [by rewrite fr_lor_const, !fr_land_const|]. by pte_bits.
Qed.

Lemma copied_desc_spec e pa :
  is_u64 e -> has e PTE_VALID = true ->
  let e' := leaf_with_ap (e .& not64 PTE_ADDR_MASK .& not64 PTE_COW .| pa .& PTE_ADDR_MASK) PTE_AP_USER_RW in
  is_u64 e' /\ has e' PTE_VALID = true /\ fr e' = fr pa /\ cow_bit e' = false /\ write_bit e' = true /\
  exec_bit e' = exec_bit e.
Proof.
  intros He Hv. cbv zeta. fold (fr pa). destruct (fr_range pa) as [Hr _].
  assert (is_u64 (fr pa)) as Hu by (unfold is_u64; lia). pose proof (fr_bit pa) as Hb.
  unfold leaf_with_ap. rewrite has_valid in *. unfold cow_bit, write_bit, exec_bit.
  split; [pte_u64; apply u64_range|]. split; [pte_bits; rewrite ?Hv; done|]. split.
  - rewrite fr_lor_const, fr_land_const, fr_lor, fr_fr by done.
    assert (fr (e .& not64 PTE_ADDR_MASK .& not64 PTE_COW) = 0) as ->; [|done].
    unfold fr. rewrite <- !Z.land_assoc. change (not64 PTE_ADDR_MASK .& (not64 PTE_COW .& PTE_ADDR_MASK)) with 0.
    apply Z.land_0_r.
  - pte_bits. rewrite !Hb by lia. by rewrite ?orb_false_r.
Qed.

(** Copying a whole page into one that is not in use elsewhere. *)
Definition copy_page (w : machine) (new_pa old_pa : Z) : machine :=
  put_mem w (Mem.kmemcpy (m_mem w) (u64 (hhdm w + new_pa)) (u64 (hhdm w + old_pa)) PAGE_SIZE).

Lemma copy_page_spec w new old :
  machine_ok w -> 0 < rc w new -> 0 < rc w old -> new <> old ->
  let w' := copy_page w new old in
  machine_ok w' /\ same_cfg w w' /\ (forall q, rc w' q = rc w q) /\
  (forall j, 0 <= j < PAGE_SIZE -> page_byte w' new j = page_byte w old j) /\
  (forall q, q mod PAGE_SIZE = 0 -> q <> new -> same_page w w' q).
Proof.
  intros Hok Hn Ho Hne. destruct (rc_page w new Hok Hn) as (H1 & H2 & H3), (rc_page w old Hok Ho) as (H4 & H5 & H6).
  pose proof (m_direct w Hok) as Hd. unfold copy_page.
  rewrite !u64_small by (unfold is_u64, PAGE_SIZE in *; lia).
  assert (forall x, Mem.kmemcpy (m_mem w) (hhdm w + new) (hhdm w + old) PAGE_SIZE x =
    if (hhdm w + new <=? x) && (x <? hhdm w + new + PAGE_SIZE) then m_mem w (hhdm w + old + (x - (hhdm w + new)))
    else m_mem w x) as Hcpy.
  { intros x. apply Mem.kmemcpy_spec; unfold Mem.range_ok, PAGE_SIZE in *; [lia..|].
    destruct (pages_apart new old H2 H5 Hne); unfold PAGE_SIZE in *; lia. }
  pose proof (fun x => Mem.kmemcpy_u8 (m_mem w) (hhdm w + new) (hhdm w + old) PAGE_SIZE x (m_bytes w Hok)) as Hcpy8.
  revert Hcpy Hcpy8. generalize (Mem.kmemcpy (m_mem w) (hhdm w + new) (hhdm w + old) PAGE_SIZE). intros m Hcpy Hcpy8.
  cbv zeta. split; [by destruct Hok|]. split; [done|]. split; [done|]. unfold page_byte, same_page. cbn [put_mem m_mem].
  change (hhdm (put_mem w m)) with (hhdm w). split.
  - intros j Hj. rewrite Hcpy. replace ((_ <=? _) && (_ <? _)) with true by (zcases; simpl; lia). f_equal. lia.
  - intros q Hq Hqn j Hj. unfold page_byte. change (hhdm (put_mem w m)) with (hhdm w). cbn [put_mem m_mem]. rewrite Hcpy.
    by destruct (pages_apart new q H2 Hq ltac:(done));
      replace ((_ <=? _) && (_ <? _)) with false by (zcases; simpl; lia).
Qed.

(** What a successful fault did: the page of [va] is now writable, held by this
    mapping alone and has the old contents. *)
Record cow_done (w w' : machine) (T L : gmap (list Z) Z) (U : Z -> Z) (a va e e' : Z) : Prop := {
  cd_leaf : L !! key a va = Some e;
  cd_cow : cow_bit e = true;
  cd_inv : Inv w' T (<[key a va := e']> L) U;
  cd_cow' : cow_bit e' = false;
  cd_write : write_bit e' = true;
  cd_exec : exec_bit e' = exec_bit e;
  cd_alone : rc w' (fr e') = 1;
  cd_bytes : forall j, 0 <= j < PAGE_SIZE -> page_byte w' (fr e') j = page_byte w (fr e) j;
  cd_used : forall q, 0 < lcount L q + U q -> 0 < lcount (<[key a va := e']> L) q + U q;
}.

Lemma cow_in_place w T L U a va e l3 :
  Inv w T L U -> T !! tkey a va = Some l3 -> L !! key a va = Some e -> cow_bit e = true -> rc w (fr e) = 1 ->
  let e' := leaf_with_ap (e .& not64 PTE_COW) PTE_AP_USER_RW in
  let w' := vmm_flush_user_va va (put w (entry_at w l3 (pt_index va 12)) e') in
  cow_done w w' T L U a va e e' /\ keep L U w w'.
Proof.
  intros HI Ht Hl Hc Hrc. cbv zeta. destruct (inv_L _ _ _ _ HI _ _ Hl) as [Hv Hu].
  destruct (owned_desc_spec e Hu Hv) as (H1 & H2 & H3 & H4 & H5 & H6).
  destruct (inv_change_leaf w T L U a va e _ l3 HI Ht Hl H1 H2 H3) as [HI' Hot].
  pose proof (only_tables_keep w w T L U _ HI Hot) as Hk. split; [|split; [apply Hot|apply Hk]].
  split; try done.
  - by apply inv_mmu.
  - by rewrite H3.
  - rewrite H3. apply (Hk (fr e)). by eapply leaf_page.
  - intros q. rewrite lcount_insert, Hl, !cnt_one, H3. lia.
Qed.

Lemma entry_at_cfg w w' pa i : hhdm w' = hhdm w -> entry_at w' pa i = entry_at w pa i.
Proof. intros H. unfold entry_at. by rewrite H. Qed.

Lemma one_eq q : one q q = 1.
Proof. unfold one. by rewrite decide_True. Qed.

Lemma one_range q pa : 0 <= one q pa <= 1.
Proof. unfold one. case_decide; lia. Qed.

(** Moving the leaf of [va] from its page to the page [new] held outside. *)
Lemma inv_replace_leaf w T L U a va e e' l3 new :
  Inv w T L U -> T !! tkey a va = Some l3 -> L !! key a va = Some e ->
  is_u64 e' -> has e' PTE_VALID = true -> fr e' = new -> new <> 0 -> 1 <= U new ->
  let p := entry_at w l3 (pt_index va 12) in
  let w' := free_page (fr e) (put (vmm_flush_user_va va (put w p 0)) p e') in
  Inv w' T (<[key a va := e']> L) (fun q => U q - one new q) /\ only_tables T w w'.
Proof.
  intros HI Ht Hl Hu Hv Hf Hnz HU. cbv zeta. pose proof (pt_index_range va 12 ltac:(lia)) as Hi.
  set (w1 := put w _ 0). set (w2 := vmm_flush_user_va va w1). set (w3 := put w2 _ e').
  pose proof (inv_U _ _ _ _ HI) as Hpos.
  assert (Inv w2 T (delete (key a va) L) (fun q => U q + one (fr e) q)) as HI2.
  { apply inv_mmu, (inv_set_leaf w T L U _ (tkey a va) l3 _ 0 None); try done.
    - intros q. pose proof (one_range (fr e) q). specialize (Hpos q). lia.
    - by apply (delete_cnt L U (key a va) e). }
  assert (Inv w3 T (<[key a va := e']> L) (fun q => U q + one (fr e) q - one new q)) as HI3.
  { eapply inv_U_ext.
    - rewrite <- (insert_delete_eq L). apply (inv_put_leaf w2 T _ _ a va new e' l3 HI2 Ht); try done.
      pose proof (one_range (fr e) new). lia.
    - intros q. unfold moved. rewrite lookup_delete_eq. simpl. lia. }
  assert (1 <= U (fr e) + one (fr e) (fr e) - one new (fr e)) as HU3.
  { rewrite one_eq. specialize (Hpos (fr e)). unfold one. case_decide as Hd; [|lia]. rewrite Hd in *. lia. }
  split.
  - eapply inv_U_ext; [by apply (inv_free w3 T _ _ (fr e) HI3)|]. intros q. simpl. lia.
  - destruct (free_cases w3 (fr e) (inv_machine _ _ _ _ HI3)) as (_ & Hc & _).
    { rewrite (used_rc _ _ _ _ _ HI3); pose proof (lcount_nonneg (<[key a va := e']> L) (fr e)); lia. }
    assert (only_tables T w w2) as Ho1 by by eapply (only_tables_put w T L U l3).
    assert (only_tables T w2 w3) as Ho2 by by eapply (only_tables_put w2 T _ _ l3 _ _ _ HI2).
    destruct (only_tables_trans T w w2 w3 Ho1 Ho2) as [[H1 H2] H3]. destruct Hc as [Hh Htr].
    split; [split; congruence|]. intros q Hq Hn j Hj. unfold page_byte. rewrite Hh. by apply (H3 q Hq Hn j Hj).
Qed.

Lemma cow_by_copy w w1 T L U a va e l3 new :
  Inv w T L U -> T !! tkey a va = Some l3 -> L !! key a va = Some e -> cow_bit e = true ->
  alloc_zero_page w = (new, w1) -> new <> 0 -> rc w (fr e) <> 1 ->
  let e' := leaf_with_ap (e .& not64 PTE_ADDR_MASK .& not64 PTE_COW .| new .& PTE_ADDR_MASK) PTE_AP_USER_RW in
  let p := entry_at w l3 (pt_index va 12) in
  let w' := vmm_flush_user_va va
              (free_page (fr e) (put (vmm_flush_user_va va (put (copy_page w1 new (fr e)) p 0)) p e')) in
  cow_done w w' T L U a va e e' /\ keep L U w w'.
Proof.
  intros HI Ht Hl Hc E Hnew Hrc. cbv zeta. destruct (inv_L _ _ _ _ HI _ _ Hl) as [Hv Hu].
  destruct (inv_alloc_cases w w1 T L U new HI E) as ([Hh1 _] & _ & Hk1 & [[? _]|(_ & HI1 & Hlc & HU & Hn & _)]); [done|].
  assert (0 < rc w1 new) as Hrcn.
  { rewrite (used_rc _ _ _ _ _ HI1), one_eq; [lia|]. rewrite one_eq. lia. }
  pose proof (leaf_page _ _ _ _ _ _ HI Hl) as Hpos.
  assert (fr e <> new) as Hne by (intros Ef; rewrite Ef in Hpos; lia).
  assert (0 < rc w1 (fr e)) as Hrce.
  { rewrite (used_rc _ _ _ _ _ HI1); pose proof (one_range new (fr e)); lia. }
  destruct (rc_page w1 new (inv_machine _ _ _ _ HI1) Hrcn) as (Hp1 & Hp2 & _).
  destruct (copied_desc_spec e new Hu Hv) as (D1 & D2 & D3 & D4 & D5 & D6). rewrite (fr_page new) in D3 by done.
  set (e' := leaf_with_ap _ _) in *.
  destruct (copy_page_spec w1 new (fr e) (inv_machine _ _ _ _ HI1) Hrcn Hrce ltac:(done)) as (Hok2 & Hc2 & Hrc2 & Hb2 & Hs2).
  set (w2 := copy_page w1 new (fr e)) in *.
  assert (Inv w2 T L (fun q => U q + one new q)) as HI2.
  { apply (inv_mem_change w1); try done. intros k pa Hk. apply Hs2.
    - by apply (table_page w1 T L _ HI1 k).
    - intros ->. by apply (Hn k). }
  rewrite <- (entry_at_cfg w w2 l3) by (destruct Hc2; congruence).
  destruct (inv_replace_leaf w2 T L _ a va e e' l3 new HI2 Ht Hl D1 D2 D3 Hnew) as [HI3 Hot]; [rewrite one_eq; lia|].
  set (w3 := free_page (fr e) _) in *.
  assert (keep L U w w3) as Hkeep.
  { destruct Hk1 as [[] Hk1], Hc2, Hot as [[] Hot]. split; [split; congruence|]. intros q Hq j Hj.
    assert (q mod PAGE_SIZE = 0) as Hqm by (apply (rc_pos w); [apply HI|by rewrite (used_rc w T L U)]).
    rewrite (Hot q Hqm (not_table w T L U q HI Hq) j Hj), (Hs2 q Hqm ltac:(intros ->; lia) j Hj). by apply Hk1. }
  split; [|exact Hkeep].
  assert (Inv w3 T (<[key a va := e']> L) U) as HI4 by (eapply inv_U_ext; [exact HI3|intros q; simpl; lia]).
  split; try done.
  - by apply inv_mmu.
  - rewrite D3. change (rc w3 new = 1). rewrite (used_rc _ _ _ _ _ HI4).
    + rewrite lcount_insert, cnt_one, Hl, cnt_one, D3, one_eq. unfold one. rewrite decide_False by done. lia.
    + rewrite <- D3 at 1. pose proof (lcount_pos _ _ _ (lookup_insert_eq L (key a va) e')).
      pose proof (inv_U _ _ _ _ HI4 new). lia.
  - intros j Hj. rewrite D3. destruct Hot as [_ Hot].
    change (page_byte w3 new j = page_byte w (fr e) j). rewrite (Hot new Hp2 Hn j Hj), Hb2 by done.
    by apply Hk1.
  - intros q Hq. rewrite lcount_insert, Hl, !cnt_one, D3. pose proof (used_rc w T L U (fr e) HI Hpos).
    pose proof (one_range new q). unfold one at 1. case_decide; [subst q|]; lia.
Qed.

(** The fault handler, on every branch. *)
Lemma cow_fault_cases w w' T L U a as_ va b :
  Inv w T L U -> as_ok w T a as_ -> vmm_handle_cow_fault as_ va w = (b, w') ->
  keep L U w w' /\
  if b then flushed w w' va /\ exists e e', cow_done w w' T L U a va e e'
  else Inv w' T L U /\ m_mmu w' = m_mmu w /\
       ((forall e, L !! key a va = Some e -> cow_bit e = false) \/ (alloc_zero_page w).1 = 0).
Proof.
  intros HI Has. unfold vmm_handle_cow_fault.
  pose proof (unmap_body w T L U a as_ va HI Has) as Hb.
  destruct (leaf_for_va as_ va w) as [pte|].
  2: { intros [= <- <-]. split; [apply keep_refl|]. split_and!; [done..|]. left. congruence. }
  rewrite cow_bits. rewrite <- has_valid. destruct (has (get w pte) PTE_VALID); cbn [negb andb] in Hb |- *.
  2: { intros [= <- <-]. split; [apply keep_refl|]. split_and!; [done..|]. left. congruence. }
  destruct Hb as (e & l3 & Hl & -> & Ht & ->). destruct (Z.testbit e 55) eqn:Hc; cbn [negb].
  2: { intros [= <- <-]. split; [apply keep_refl|]. split_and!; [done..|]. left. intros ? E. by simplify_eq. }
  assert (pmm_is_last_ref (m_pmm w) (fr e) = (rc w (fr e) =? 1)) as Hlast.
  { unfold pmm_is_last_ref, rc. pose proof (fr_range e). by replace (fr e <? 0) with false by lia. }
  fold (fr e). rewrite Hlast. destruct (Z.eqb_spec (rc w (fr e)) 1) as [Hrc|Hrc].
  - intros [= <- <-]. destruct (cow_in_place w T L U a va e l3 HI Ht Hl Hc Hrc) as [Hd Hk].
    split; [done|]. split; [by apply flushed_here|]. by eexists _, _.
  - destruct (alloc_zero_page w) as [new w1] eqn:E.
    destruct (Z.eqb_spec new 0) as [->|Hnew].
    + intros [= <- <-]. destruct (inv_alloc_cases w w1 T L U 0 HI E) as (_ & Hm & Hk & [[_ HI1]|[? _]]); [|done].
      split; [done|]. split; [done|]. split; [done|by right].
    + destruct (inv_alloc_cases w w1 T L U new HI E) as ([Hh1 _] & Hm & _).
      destruct Has as [Hh _]. rewrite Hh, <- Hh1.
      destruct (cow_by_copy w w1 T L U a va e l3 new HI Ht Hl Hc E Hnew Hrc) as [Hd Hk].
      fold (copy_page w1 new (fr e)). intros [= <- <-]. split; [done|]. split; [|by eexists _, _].
      exists [TlbiVa (Z.shiftr va 12); TlbiVa (Z.shiftr va 12)]. split; [simpl; by rewrite Hm|by left].
Qed.

(** ** Memory outside the pages of the allocator *)

Definition outside (w w' : machine) : Prop :=
  forall x, x < hhdm w \/ hhdm w + PAGE_SIZE * tracked w <= x -> m_mem w' x = m_mem w x.

Lemma outside_trans w1 w2 w3 : same_cfg w1 w2 -> outside w1 w2 -> outside w2 w3 -> outside w1 w3.
Proof. intros [H1 H2] H3 H4 x Hx. rewrite H4 by (rewrite H1, H2; done). by apply H3. Qed.

Lemma outside_alloc w w' pa : machine_ok w -> alloc_zero_page w = (pa, w') -> outside w w'.
Proof.
  intros Hok E x Hx. destruct (alloc_cases w pa w' Hok E) as (Hok' & [Hh Ht] & _ & [(_ & -> & _)|Hf]); [done|].
  apply Hf. destruct (rc_pos w' pa Hok') as (H1 & H2 & H3).
  { rewrite (fresh_rc' _ _ _ Hf), (fresh_rc _ _ _ Hf), one_eq. lia. }
  rewrite Ht in H3. lia.
Qed.

Lemma outside_put w pa i v : machine_ok w -> 0 < rc w pa -> 0 <= i < 512 -> outside w (put w (entry_at w pa i) v).
Proof.
  intros Hok Hrc Hi x Hx. destruct (rc_pos w pa Hok Hrc) as (H1 & H2 & H3). apply put_mem_other; [done..|]. lia.
Qed.

Lemma outside_copy w new old : machine_ok w -> 0 < rc w new -> 0 < rc w old -> new <> old -> outside w (copy_page w new old).
Proof.
  intros Hok Hn Ho Hne x Hx. destruct (rc_page w new Hok Hn) as (H1 & H2 & H3), (rc_page w old Hok Ho) as (H4 & H5 & H6).
  pose proof (m_direct w Hok). destruct (rc_pos w new Hok Hn) as (_ & _ & H7). unfold copy_page. cbn [put_mem m_mem].
  rewrite !u64_small by (unfold is_u64, PAGE_SIZE in *; lia). rewrite Mem.kmemcpy_spec.
  - by replace ((_ <=? _) && (_ <? _)) with false by (zcases; simpl; lia).
  - unfold Mem.range_ok, PAGE_SIZE in *. lia.
  - unfold Mem.range_ok, PAGE_SIZE in *. lia.
  - destruct (pages_apart new old H2 H5 Hne); lia.
Qed.

Lemma outside_repoint w l3 i va v pa :
  machine_ok w -> 0 < rc w l3 -> 0 <= i < 512 ->
  outside w (vmm_flush_user_va va (free_page pa (put (vmm_flush_user_va va (put w (entry_at w l3 i) 0)) (entry_at w l3 i) v))).
Proof.
  intros Hok Hrc Hi x Hx. transitivity (m_mem (put w (entry_at w l3 i) 0) x); [|by apply outside_put].
  apply (outside_put (put w (entry_at w l3 i) 0) l3 i v); [by apply put_ok|done|done|done].
Qed.

Lemma cow_fault_outside w w' T L U a as_ va b :
  Inv w T L U -> as_ok w T a as_ -> vmm_handle_cow_fault as_ va w = (b, w') -> outside w w'.
Proof.
  intros HI Has. pose proof (inv_machine _ _ _ _ HI) as Hok. unfold vmm_handle_cow_fault.
  pose proof (unmap_body w T L U a as_ va HI Has) as Hb. pose proof (pt_index_range va 12 ltac:(lia)) as Hi.
  destruct (leaf_for_va as_ va w) as [pte|]; [|by intros [= <- <-]].
  rewrite cow_bits, <- has_valid. destruct (has (get w pte) PTE_VALID); cbn [negb andb] in Hb |- *; [|by intros [= <- <-]].
  destruct Hb as (e & l3 & Hl & -> & Ht & ->). destruct (Z.testbit e 55); cbn [negb]; [|by intros [= <- <-]].
  pose proof (inv_T_pos _ _ _ _ _ _ HI Ht) as Hrc3. destruct (pmm_is_last_ref _ _).
  { intros [= <- <-]. exact (outside_put w l3 (pt_index va 12) _ Hok Hrc3 Hi). }
  destruct (alloc_zero_page w) as [new w1] eqn:E. pose proof (outside_alloc w w1 new Hok E) as Ho1.
  destruct (inv_alloc_cases w w1 T L U new HI E) as ([Hh1 Ht1] & _ & _ & [[-> HI1]|(Hnew & HI1 & Hlc & HU & _)]);
    [by intros [= <- <-]|]. rewrite (proj2 (Z.eqb_neq _ _) Hnew). destruct Has as [Hh _]. rewrite Hh, <- Hh1.
  fold (fr e). fold (copy_page w1 new (fr e)). intros [= <- <-].
  pose proof (leaf_page _ _ _ _ _ _ HI Hl) as Hpos. pose proof (inv_machine _ _ _ _ HI1) as Hok1.
  assert (fr e <> new) as Hne by (intros Ef; rewrite Ef in Hpos; lia).
  assert (0 < rc w1 new) as Hrn by (rewrite (used_rc _ _ _ _ _ HI1), one_eq; [lia|rewrite one_eq; lia]).
  assert (0 < rc w1 (fr e)) as Hre by (rewrite (used_rc _ _ _ _ _ HI1); pose proof (one_range new (fr e)); lia).
  assert (0 < rc w1 l3) as Hr3 by by eapply (inv_T_pos w1 T).
  pose proof (outside_copy w1 new (fr e) Hok1 Hrn Hre ltac:(done)) as Ho2.
  destruct (copy_page_spec w1 new (fr e) Hok1 Hrn Hre ltac:(done)) as (Hok2 & [Hh2 Ht2] & Hrc2 & _).
  assert (hhdm (copy_page w1 new (fr e)) = hhdm w) as Hh3 by congruence.
  rewrite <- (entry_at_cfg w _ _ _ Hh3).
  apply (outside_trans w w1); [exact (conj Hh1 Ht1)|exact Ho1|].
  apply (outside_trans w1 (copy_page w1 new (fr e))); [exact (conj Hh2 Ht2)|exact Ho2|].
  apply outside_repoint; [exact Hok2|by rewrite Hrc2|exact Hi].
Qed.
