(* ===== verification/VmmCopy.v ===== *)
(** Copies between kernel and user memory ([vmm_user_range_accessible],
    [vmm_copy_to_user], [vmm_copy_from_user] of [kernel/src/mm/vmm.c]). *)

From stdpp Require Import base numbers list option gmap fin_maps.
From Stdlib Require Import ZArith Lia.
From S2P Require Import Prelude Mem Pmm PmmSpec Vmm VmmInv VmmOps VmmCow.
Import Pmm Vmm.

(** The physical address behind a virtual one and the byte seen there. *)
Definition upa (L : gmap (list Z) Z) (a va : Z) : option Z :=
  (fun e => fr e + va mod PAGE_SIZE) <$> L !! key a va.

Definition ubyte (w : machine) (L : gmap (list Z) Z) (a va : Z) : option Z :=
  (fun pa => m_mem w (hhdm w + pa)) <$> upa L a va.

(** A buffer of the kernel: in pages held outside the page tables and mapped
    nowhere, or outside the pages of the allocator. *)
Definition kernel_byte (w : machine) (L : gmap (list Z) Z) (U : Z -> Z) (x : Z) : Prop :=
  forall pa j, pa mod PAGE_SIZE = 0 -> 0 <= j < PAGE_SIZE -> x = hhdm w + pa + j ->
    0 <= pa < PAGE_SIZE * tracked w -> 0 < U pa /\ lcount L pa = 0.

Definition kernel_buffer (w : machine) (L : gmap (list Z) Z) (U : Z -> Z) (p len : Z) : Prop :=
  Mem.range_ok p len /\ forall k, 0 <= k < len -> kernel_byte w L U (p + k).

Lemma translate_eq w T L U a va access :
  Inv w T L U -> 0 <= va ->
  translate L a va access =
    match L !! key a va with
    | Some e => if user_entry_allows e access then fr e + va mod PAGE_SIZE else 0
    | None => 0
    end.
Proof.
  intros HI Hva. unfold translate. destruct (L !! key a va) as [e|]; [|done].
  destruct (user_entry_allows e access); [|done]. destruct (fr_range e) as [_ Hm].
  change 0xfff with (Z.ones 12). rewrite Z.land_ones by lia. change (2 ^ 12) with PAGE_SIZE.
  rewrite Z.lor_comm. rewrite (lor_add _ (fr e) 12); [lia|lia|apply Z.mod_pos_bound; done|done].
Qed.

(** The page of [va] is mapped and allows the access. *)
Definition allows (L : gmap (list Z) Z) (access : vmm_access) (k : list Z) : Prop :=
  exists e, L !! k = Some e /\ user_entry_allows e access = true.

Lemma to_phys_zero w T L U a as_ va access :
  Inv w T L U -> as_ok w T a as_ -> 0 <= va ->
  user_to_phys_checked as_ va access w = 0 <-> ~ allows L access (key a va).
Proof.
  intros HI [Hh Ha] Hva. rewrite (to_phys_spec w T L U HI as_ Hh a Ha).
  change (translate L a va access = 0 <-> ~ allows L access (key a va)). rewrite (translate_eq w T L U) by done.
  unfold allows. destruct (L !! key a va) as [e|] eqn:E.
  - pose proof (leaf_nonzero w T L U _ _ HI E). assert (0 <= va mod PAGE_SIZE) by (apply Z.mod_pos_bound; done).
    destruct (user_entry_allows e access) eqn:Ea.
    + split; [lia|]. intros Hn. exfalso. apply Hn. eauto.
    + split; [|done]. intros _ (e' & [= <-] & He'). congruence.
  - split; [|done]. by intros _ (e' & ? & _).
Qed.

(** ** Page arithmetic *)

Lemma page_of_eq va : is_u64 va -> page_of va = PAGE_SIZE * (va / PAGE_SIZE).
Proof. intros Hva. unfold page_of. change (PAGE_SIZE - 1) with (2 ^ 12 - 1). by rewrite land_not64_low. Qed.

Lemma key_page a va vb : va / PAGE_SIZE = vb / PAGE_SIZE -> key a va = key a vb.
Proof. intros H. apply key_eq. unfold vpn. by rewrite H. Qed.

Lemma key_page_of a va : is_u64 va -> key a (page_of va) = key a va.
Proof. intros Hva. apply key_page. rewrite page_of_eq by done. unfold PAGE_SIZE. dmlia. Qed.

Lemma checked_add_spec va len :
  is_u64 va -> 0 < len <= 2 ^ 64 ->
  checked_add va (len - 1) = if va + len <=? 2 ^ 64 then Some (va + len - 1) else None.
Proof.
  intros Hva Hlen. unfold checked_add, is_u64 in *. cbv zeta.
  destruct (Z.leb_spec (va + len) (2 ^ 64)).
  - rewrite u64_small by (unfold is_u64; lia). replace (va <=? _) with true by lia. f_equal. lia.
  - unfold u64. replace ((va + (len - 1)) mod 2 ^ 64) with (va + (len - 1) - 2 ^ 64) by dmlia.
    by replace (va <=? _) with false by lia.
Qed.

(** A loop over the pages from [first] to [last] included. *)
Lemma iter_pages {St R} (step : St -> St + R) (pg : St -> Z) (P : St -> Prop) (Q : R -> Prop) first last s :
  (last - first) mod PAGE_SIZE = 0 ->
  (forall s, P s -> first <= pg s <= last -> (pg s - first) mod PAGE_SIZE = 0 ->
     match step s with inl s' => pg s' = pg s + PAGE_SIZE /\ pg s <> last /\ P s' | inr r => Q r end) ->
  pg s = first -> first <= last -> P s -> exists r, iter step (pages_fuel first last) s = Some r /\ Q r.
Proof.
  intros Hlast Hstep Hs Hle HP.
  apply (iter_spec step (fun s => P s /\ first <= pg s <= last /\ (pg s - first) mod PAGE_SIZE = 0)
    (fun s => Z.to_nat ((last - pg s) / PAGE_SIZE))).
  - intros s1 s2 (HP1 & Hp & Hm) E. specialize (Hstep s1 HP1 Hp Hm). rewrite E in Hstep.
    destruct Hstep as (Hpg & Hne & HP2). assert (pg s1 + PAGE_SIZE <= last) by (unfold PAGE_SIZE in *; dmlia).
    split; [split; [done|]; unfold PAGE_SIZE in *; split; [lia|dmlia]|]. rewrite Hpg.
    replace (last - pg s1) with (last - (pg s1 + PAGE_SIZE) + 1 * PAGE_SIZE) by lia. rewrite Z.div_add by done.
    assert (0 <= (last - (pg s1 + PAGE_SIZE)) / PAGE_SIZE) by (apply Z.div_pos; unfold PAGE_SIZE in *; lia). lia.
  - intros s1 r (HP1 & Hp & Hm) E. specialize (Hstep s1 HP1 Hp Hm). by rewrite E in Hstep.
  - rewrite Hs, Z.sub_diag. split; [done|]. split; [lia|done].
  - unfold pages_fuel. rewrite Hs. lia.
Qed.

(** ** Whether a range may be accessed *)

#[export] Instance allows_dec L access k : Decision (allows L access k).
Proof.
  destruct (L !! k) as [e|] eqn:E.
  - destruct (user_entry_allows e access) eqn:Ea; [left; by exists e|right]. intros (e' & H1 & H2). congruence.
  - right. intros (e' & H1 & H2). congruence.
Defined.

(** The page [p] is part of the range [va, va + len). *)
Lemma first_last va len :
  is_u64 va -> 0 < len -> va + len <= 2 ^ 64 ->
  page_of va <= page_of (va + len - 1) < 2 ^ 64 /\ (page_of (va + len - 1) - page_of va) mod PAGE_SIZE = 0 /\
  0 <= page_of va /\ page_of va = PAGE_SIZE * (va / PAGE_SIZE) /\
  page_of (va + len - 1) = PAGE_SIZE * ((va + len - 1) / PAGE_SIZE).
Proof.
  intros Hva Hl Hle. unfold is_u64 in Hva. rewrite !page_of_eq by (unfold is_u64; lia). unfold PAGE_SIZE.
  split_and!; dmlia.
Qed.

Lemma accessible_spec w T L U a as_ va len access :
  Inv w T L U -> as_ok w T a as_ -> is_u64 va -> 0 <= len < 2 ^ 64 ->
  exists b, vmm_user_range_accessible as_ va len access w = Some b /\
    (b = true <-> len = 0 \/ va + len <= 2 ^ 64 /\ forall k, 0 <= k < len -> allows L access (key a (va + k))).
Proof.
  intros HI Has Hva Hlen. unfold vmm_user_range_accessible.
  destruct (Z.eqb_spec len 0) as [->|Hl]; [exists true; split; [done|]; by split; auto|].
  rewrite checked_add_spec by (done || lia). destruct (Z.leb_spec (va + len) (2 ^ 64)) as [Hle|Hgt].
  2: { exists false. split; [done|]. split; [done|]. intros [?|[? _]]; lia. }
  destruct (first_last va len Hva ltac:(lia) Hle) as (Hfl & Hal & H0 & Hf & Hlst).
  destruct (iter_pages (access_step as_ access (page_of (va + len - 1)) w) (fun p => p)
    (fun p => forall k, 0 <= k < len -> va + k < p -> allows L access (key a (va + k)))
    (fun b => b = true <-> forall k, 0 <= k < len -> allows L access (key a (va + k)))
    (page_of va) (page_of (va + len - 1)) (page_of va)) as (b & Hb & HQ); [done| |done|lia| |].
  - intros p HP Hp Hm. unfold access_step.
    assert (forall k, 0 <= k < len -> p <= va + k < p + PAGE_SIZE -> key a (va + k) = key a p) as Hkey.
    { intros k Hk Hkp. apply key_page. unfold PAGE_SIZE in *. dmlia. }
    destruct (Z.eqb_spec (user_to_phys_checked as_ p access w) 0) as [Hz|Hnz];
      rewrite (to_phys_zero w T L U a as_) in * by (done || lia).
    + split; [done|]. intros Hall. exfalso. apply Hz.
      destruct (Z.lt_ge_cases va p).
      * rewrite <- (Hkey (p - va)); [apply Hall|..]; unfold PAGE_SIZE in *; dmlia.
      * rewrite <- (Hkey 0); [apply Hall|..]; unfold PAGE_SIZE in *; dmlia.
    + apply dec_stable in Hnz.
      assert (forall k, 0 <= k < len -> va + k < p + PAGE_SIZE -> allows L access (key a (va + k))) as Hall.
      { intros k Hk Hkp. destruct (Z.lt_ge_cases (va + k) p); [by apply HP|]. by rewrite Hkey by lia. }
      destruct (Z.eqb_spec p (page_of (va + len - 1))) as [Ep|Hne].
      * split; [|done]. intros _ k Hk. apply Hall; [done|]. unfold PAGE_SIZE in *. dmlia.
      * rewrite u64_small by (unfold is_u64, PAGE_SIZE in *; dmlia). done.
  - intros k Hk Hkp. unfold PAGE_SIZE in *. dmlia.
  - exists b. split; [done|]. rewrite HQ. split; [by right|]. intros [?|[_ ?]]; [lia|done].
Qed.

(** ** Chunked loops *)

Lemma chunk_eq va len done :
  is_u64 va -> chunk_at va len done = Z.min (len - done) (PAGE_SIZE - va mod PAGE_SIZE).
Proof.
  intros Hva. unfold chunk_at. change (PAGE_SIZE - 1) with (Z.ones 12). rewrite Z.land_ones by lia.
  change (2 ^ 12) with PAGE_SIZE. cbv zeta. case_match; zbool; lia.
Qed.

(** A loop over [len] bytes from [base], one page at a time. *)
Lemma iter_chunks {R} (step : Z * machine -> (Z * machine) + R) (P : Z -> machine -> Prop) (Q : R -> Prop)
    base len w :
  0 <= base -> 0 < len -> base + len <= 2 ^ 64 ->
  (forall done w, 0 <= done < len -> P done w ->
     match step (done, w) with
     | inl (d, w') => d = done + chunk_at (u64 (base + done)) len done /\ P d w'
     | inr r => Q r
     end) ->
  (forall w, P len w -> exists r, step (len, w) = inr r /\ Q r) ->
  P 0 w -> exists r, iter step (copy_fuel len) (0, w) = Some r /\ Q r.
Proof.
  intros Hb Hl Hle Hstep. apply (iter_chunked step P Q PAGE_SIZE base len); [done|lia|unfold copy_fuel; lia|].
  intros d s Hd Hp. specialize (Hstep d s Hd Hp). rewrite u64_small, chunk_eq in Hstep by (unfold is_u64; lia). done.
Qed.

(** Within a chunk the page does not change. *)
Lemma chunk_page base len done k :
  0 <= base -> base + len <= 2 ^ 64 -> 0 <= done < len ->
  0 <= k < chunk_at (u64 (base + done)) len done ->
  (base + done + k) / PAGE_SIZE = (base + done) / PAGE_SIZE /\
  (base + done + k) mod PAGE_SIZE = (base + done) mod PAGE_SIZE + k /\ done + k < len.
Proof.
  intros Hb Hle Hd. rewrite u64_small by (unfold is_u64; lia). rewrite chunk_eq by (unfold is_u64; lia).
  unfold PAGE_SIZE. intros Hk. dmlia.
Qed.

(** Intervals without a common element. *)
Lemma intervals_apart x n y m :
  0 <= n -> 0 <= m -> (forall i, 0 <= i < n -> ~ (y <= x + i < y + m)) -> x + n <= y \/ y + m <= x \/ n = 0 \/ m = 0.
Proof.
  intros Hn Hm H. destruct (Z.eq_dec n 0); [auto|]. destruct (Z.eq_dec m 0); [auto|].
  destruct (Z.le_gt_cases (x + n) y); [auto|]. destruct (Z.le_gt_cases (y + m) x); [auto|].
  exfalso. destruct (Z.le_gt_cases y x).
  - apply (H 0); lia.
  - apply (H (y - x)); lia.
Qed.

(** [kmemcpy] of bytes that live in a page to or from a kernel buffer. *)
Lemma kernel_byte_apart w L U x pa j :
  kernel_byte w L U x -> 0 <= pa < PAGE_SIZE * tracked w -> pa mod PAGE_SIZE = 0 -> 0 <= j < PAGE_SIZE ->
  U pa = 0 \/ 0 < lcount L pa -> x <> hhdm w + pa + j.
Proof. intros Hk Hpa Hm Hj Hu ->. destruct (Hk pa j Hm Hj eq_refl Hpa). lia. Qed.

Lemma page_pos w T L U pa :
  Inv w T L U -> 0 < rc w pa -> 0 <= pa < PAGE_SIZE * tracked w /\ pa mod PAGE_SIZE = 0 /\ hhdm w + pa + PAGE_SIZE <= 2 ^ 64.
Proof.
  intros HI Hrc. destruct (rc_pos w pa (inv_machine _ _ _ _ HI) Hrc) as (H1 & H2 & H3).
  destruct (rc_page w pa (inv_machine _ _ _ _ HI) Hrc) as (_ & _ & H4). unfold PAGE_SIZE in *. lia.
Qed.

(** Writing a kernel buffer leaves the tables and the mapped pages alone. *)
Lemma inv_write_kernel w T L U m lo n :
  Inv w T L U -> (forall k, 0 <= k < n -> kernel_byte w L U (lo + k)) ->
  (forall x, is_u8 (m x)) -> (forall x, ~ (lo <= x < lo + n) -> m x = m_mem w x) ->
  Inv (put_mem w m) T L U.
Proof.
  intros HI Hk H8 Hm. apply (inv_mem_change w); [done| |done|done|].
  - destruct (inv_machine _ _ _ _ HI). by split.
  - intros k pa Hpa j Hj. unfold page_byte. apply Hm. intros Hx.
    destruct (page_pos w T L U pa HI (inv_T_pos _ _ _ _ _ _ HI Hpa)) as (H1 & H2 & _).
    destruct (inv_T_rc _ _ _ _ HI _ _ Hpa) as (_ & _ & _ & HU).
    eapply (kernel_byte_apart w L U (lo + (hhdm w + pa + j - lo)) pa j); [apply Hk; unfold hhdm in *; cbn in *; lia|done..|by left|].
    unfold hhdm. cbn. lia.
Qed.

(** A chunk of a kernel buffer and a chunk of a mapped page do not overlap. *)
Lemma chunk_apart w T L U p len d c pa off :
  Inv w T L U -> kernel_buffer w L U p len -> 0 <= d -> 0 <= c -> d + c <= len ->
  0 < lcount L pa -> 0 <= off -> off + c <= PAGE_SIZE ->
  Mem.range_ok (p + d) c /\ Mem.range_ok (hhdm w + pa + off) c /\
  (c = 0 \/ p + d + c <= hhdm w + pa + off \/ hhdm w + pa + off + c <= p + d).
Proof.
  intros HI [(Hp0 & Hp1 & Hp2) Hk] Hd Hc Hdc Hl Ho Hoc. pose proof (inv_U _ _ _ _ HI pa) as HU.
  destruct (page_pos w T L U pa HI) as (H1 & H2 & H3); [rewrite (used_rc w T L U); (done || lia)|].
  pose proof (m_direct w (inv_machine _ _ _ _ HI)). unfold Mem.range_ok, PAGE_SIZE in *.
  split; [lia|]. split; [lia|].
  destruct (intervals_apart (p + d) c (hhdm w + pa + off) c Hc Hc) as [?|[?|[?|?]]]; auto.
  intros i Hi Hin. apply (kernel_byte_apart w L U (p + d + i) pa (p + d + i - (hhdm w + pa))).
  - replace (p + d + i) with (p + (d + i)) by lia. apply Hk. lia.
  - done.
  - done.
  - unfold PAGE_SIZE. lia.
  - by right.
  - lia.
Qed.

Lemma kmemcpy_apart m d s c x :
  Mem.range_ok d c -> Mem.range_ok s c -> c = 0 \/ d + c <= s \/ s + c <= d ->
  Mem.kmemcpy m (u64 d) (u64 s) c x = if (d <=? x) && (x <? d + c) then m (s + (x - d)) else m x.
Proof.
  intros (H1 & H2 & H3) (H4 & _ & H5) H. destruct (Z.eq_dec c 0) as [->|Hc].
  - unfold Mem.kmemcpy. simpl. zcases; simpl; done || lia.
  - rewrite !u64_small by (unfold is_u64; lia). apply Mem.kmemcpy_spec; [done|done|lia].
Qed.

Lemma copy_in_loop w T L U a as_ dst src len :
  Inv w T L U -> as_ok w T a as_ -> is_u64 src -> 0 < len -> src + len <= 2 ^ 64 ->
  kernel_buffer w L U dst len -> (forall k, 0 <= k < len -> allows L VMM_ACCESS_READ (key a (src + k))) ->
  exists r, iter (copy_in_step as_ dst src len) (copy_fuel len) (0, w) = Some r /\
    r.1 = true /\ Inv r.2 T L U /\ (exists m, r.2 = put_mem w m) /\
    (forall x, ~ (dst <= x < dst + len) -> m_mem r.2 x = m_mem w x) /\
    (forall k, 0 <= k < len -> ubyte w L a (src + k) = Some (m_mem r.2 (dst + k))).
Proof.
  intros HI Has Hsrc Hl Hle Hbuf Hall. unfold is_u64 in Hsrc.
  apply (iter_chunks (copy_in_step as_ dst src len)
    (fun done w1 => exists m, w1 = put_mem w m /\ Inv w1 T L U /\
      (forall x, ~ (dst <= x < dst + done) -> m x = m_mem w x) /\
      (forall k, 0 <= k < done -> ubyte w L a (src + k) = Some (m (dst + k))))
    (fun r => r.1 = true /\ Inv r.2 T L U /\ (exists m, r.2 = put_mem w m) /\
      (forall x, ~ (dst <= x < dst + len) -> m_mem r.2 x = m_mem w x) /\
      (forall k, 0 <= k < len -> ubyte w L a (src + k) = Some (m_mem r.2 (dst + k)))) src len w); [lia..| | |].
  - intros done w1 Hd (m & -> & HI1 & Hout & Hin). unfold copy_in_step. replace (done <? len) with true by lia.
    destruct Has as [Hh Ha]. rewrite (to_phys_spec _ T L U HI1 as_ Hh a Ha).
    destruct (Hall done Hd) as (e & He & _). pose proof (chunk_page src len done) as Hcp.
    set (c := chunk_at (u64 (src + done)) len done) in *.
    assert (0 < c <= len - done) as Hc.
    { unfold c. rewrite u64_small, chunk_eq by (unfold is_u64; lia).
      assert (0 <= (src + done) mod PAGE_SIZE < PAGE_SIZE) by (apply Z.mod_pos_bound; done). lia. }
    change (match L !! key a (u64 (src + done)) with Some _ => _ | None => _ end)
      with (translate L a (u64 (src + done)) VMM_ACCESS_READ).
    rewrite u64_small by (unfold is_u64; lia). rewrite (translate_eq _ T L U) by (done || lia). rewrite He. cbn [user_entry_allows].
    assert (0 <= (src + done) mod PAGE_SIZE < PAGE_SIZE) as Hmod by (apply Z.mod_pos_bound; done).
    assert ((src + done) mod PAGE_SIZE + c <= PAGE_SIZE) as Hoff.
    { destruct (Hcp (c - 1)) as (_ & E & _); [lia..|].
      pose proof (Z.mod_pos_bound (src + done + (c - 1)) PAGE_SIZE ltac:(done)). lia. }
    pose proof (leaf_nonzero w T L U _ _ HI He) as Hnz.
    replace (_ =? 0) with false by lia. split; [done|]. rewrite Hh.
    pose proof (lcount_pos _ _ _ He) as Hlc.
    destruct (chunk_apart w T L U dst len done c (fr e) ((src + done) mod PAGE_SIZE) HI Hbuf) as (R1 & R2 & R3); [lia..|].
    pose proof (fun x => kmemcpy_apart m (dst + done) (hhdm w + fr e + (src + done) mod PAGE_SIZE) c x R1 R2 R3) as Hcpy.
    pose proof (fun x => Mem.kmemcpy_u8 m (u64 (dst + done)) (u64 (hhdm w + fr e + (src + done) mod PAGE_SIZE)) c x (m_bytes _ (inv_machine _ _ _ _ HI1))) as H8.
    rewrite Z.add_assoc. cbn [put_mem m_mem] in *.
    set (m' := Mem.kmemcpy _ _ _ _) in *. exists m'. split; [done|].
    assert (forall x, ~ (dst <= x < dst + (done + c)) -> m' x = m_mem w x) as Hout'.
    { intros x Hx. rewrite Hcpy. replace ((_ <=? _) && (_ <? _)) with false by (zcases; simpl; lia). apply Hout. lia. }
    split; [|split; [done|]].
    + apply (inv_write_kernel w T L U m' dst (done + c) HI); [|done|done]. intros k Hk. apply Hbuf. lia.
    + intros k Hk. rewrite Hcpy. destruct (Z.lt_ge_cases k done) as [Hlt|Hge].
      * replace ((_ <=? _) && (_ <? _)) with false by (zcases; simpl; lia). apply Hin. lia.
      * replace ((_ <=? _) && (_ <? _)) with true by (zcases; simpl; lia).
        destruct (Hcp (k - done)) as (E1 & E2 & _); [lia..|].
        replace (src + done + (k - done)) with (src + k) in * by lia.
        unfold ubyte, upa. rewrite (key_page a (src + k) (src + done)), He by done. cbn. f_equal.
        rewrite E2. rewrite <- Hout.
        -- f_equal. lia.
        -- intros Hx. destruct Hbuf as [_ Hbuf]. destruct (page_pos w T L U (fr e) HI) as (P1 & P2 & _).
           { pose proof (inv_U _ _ _ _ HI (fr e)). rewrite (used_rc w T L U); (done || lia). }
           eapply (kernel_byte_apart w L U (dst + (hhdm w + fr e + (src + k) mod PAGE_SIZE - dst)) (fr e) ((src + k) mod PAGE_SIZE));
             [apply Hbuf; lia|done|done|apply Z.mod_pos_bound; done|by right|lia].
  - intros w1 (m & -> & HI1 & Hout & Hin). unfold copy_in_step. rewrite Z.ltb_irrefl.
    eexists. split; [done|]. cbn [fst snd]. split_and!; eauto.
  - exists (m_mem w). split; [by destruct w|]. split; [done|]. split; [done|]. intros k Hk. lia.
Qed.

(** ** Resolving copy-on-write before a write *)

(** From [w] to [w'] some copy-on-write pages became private; nobody sees other
    contents. *)
Record cowed (U : Z -> Z) (w : machine) (L : gmap (list Z) Z) (w' : machine) (L' : gmap (list Z) Z) : Prop := {
  cw_keep : keep L U w w';
  cw_none : forall k, L !! k = None -> L' !! k = None;
  cw_some : forall k e, L !! k = Some e -> exists e', L' !! k = Some e' /\
    (e' = e \/ cow_bit e = true /\ cow_bit e' = false /\ write_bit e' = true /\ exec_bit e' = exec_bit e) /\
    forall j, 0 <= j < PAGE_SIZE -> page_byte w' (fr e') j = page_byte w (fr e) j;
  cw_used : forall q, 0 < lcount L q + U q -> 0 < lcount L' q + U q;
  cw_held : forall q, 0 < U q -> lcount L q = 0 -> lcount L' q = 0;
  cw_outside : outside w w';
}.

Lemma cowed_refl U w L : cowed U w L w L.
Proof. split; auto with spore; [|done]. intros k e He. exists e. auto. Qed.

Lemma cowed_trans U w L w1 L1 w2 L2 : cowed U w L w1 L1 -> cowed U w1 L1 w2 L2 -> cowed U w L w2 L2.
Proof.
  intros [K1 N1 S1 U1 H1 O1] [K2 N2 S2 U2 H2 O2]. split; auto.
  - destruct K1 as [[? ?] K1], K2 as [[? ?] K2]. split; [split; congruence|]. intros q Hq j Hj.
    rewrite (K2 q (U1 q Hq) j Hj). by apply K1.
  - intros k e He. destruct (S1 k e He) as (e1 & He1 & C1 & B1). destruct (S2 k e1 He1) as (e2 & He2 & C2 & B2).
    exists e2. split; [done|]. split; [|intros j Hj; by rewrite B2, B1].
    destruct C1 as [->|(? & Hc & ? & Hx)]; [done|]. destruct C2 as [->|(Hc' & _)]; [auto|congruence].
  - eapply outside_trans; [apply K1|done..].
Qed.

Lemma cow_done_cowed w w' T L U a va e e' :
  Inv w T L U -> keep L U w w' -> outside w w' -> cow_done w w' T L U a va e e' -> cowed U w L w' (<[key a va := e']> L).
Proof.
  intros HI Hk Ho [C1 C2 C3 C4 C5 C6 C7 C8 C9]. split; try done.
  - intros k Hn. rewrite lookup_insert_ne; [done|]. intros <-. congruence.
  - intros k e0 He0. destruct (decide (key a va = k)) as [<-|Hne].
    + rewrite lookup_insert_eq. simplify_eq. exists e'. auto 8.
    + rewrite lookup_insert_ne by done. exists e0. split; [done|]. split; [by left|].
      destruct Hk as [_ Hk]. apply Hk. by eapply leaf_page.
  - intros q HU Hl. pose proof (used_rc _ _ _ _ (fr e') C3) as Hr.
    pose proof (lcount_pos _ _ _ (lookup_insert_eq L (key a va) e')) as Hp.
    pose proof (inv_U _ _ _ _ HI (fr e')). rewrite lcount_insert, C1, !cnt_one, Hl. unfold one.
    case_decide as D1; [subst q; pose proof (lcount_pos _ _ _ C1); lia|].
    case_decide as D2; [subst q; lia|]. lia.
Qed.

Definition writable_upto (L : gmap (list Z) Z) (a va len p : Z) : Prop :=
  forall k, 0 <= k < len -> va + k < p -> allows L VMM_ACCESS_WRITE (key a (va + k)).

Lemma cowed_writable U w L w' L' k :
  cowed U w L w' L' -> allows L VMM_ACCESS_WRITE k -> allows L' VMM_ACCESS_WRITE k.
Proof.
  intros Hc (e & He & Hw). destruct (cw_some _ _ _ _ _ Hc k e He) as (e' & He' & C & _). exists e'. split; [done|].
  destruct C as [->|(_ & _ & Hw' & _)]; [done|]. cbn. by rewrite ap_rw.
Qed.

Lemma prepare_loop w T L U a as_ va len :
  Inv w T L U -> as_ok w T a as_ -> is_u64 va -> 0 < len -> va + len <= 2 ^ 64 ->
  exists b w' L', iter (prepare_step as_ (page_of (va + len - 1))) (pages_fuel (page_of va) (page_of (va + len - 1)))
      (page_of va, w) = Some (b, w') /\ Inv w' T L' U /\ cowed U w L w' L' /\
    (b = true -> forall k, 0 <= k < len -> allows L' VMM_ACCESS_WRITE (key a (va + k))).
Proof.
  intros HI Has Hva Hl Hle. destruct (first_last va len Hva ltac:(lia) Hle) as (Hfl & Hal & H0 & Hf & Hlst).
  unfold is_u64 in Hva.
  destruct (iter_pages (prepare_step as_ (page_of (va + len - 1))) fst
    (fun '(p, w1) => exists L1, Inv w1 T L1 U /\ cowed U w L w1 L1 /\ writable_upto L1 a va len p)
    (fun '(b, w1) => exists L1, Inv w1 T L1 U /\ cowed U w L w1 L1 /\
      (b = true -> forall k, 0 <= k < len -> allows L1 VMM_ACCESS_WRITE (key a (va + k))))
    (page_of va) (page_of (va + len - 1)) (page_of va, w)) as ([b w'] & E & L' & H1 & H2 & H3);
    [done| |done|lia| |by exists b, w', L'].
  - intros [p w1] (L1 & HI1 & Hc1 & Hw1) Hp Hm. cbn [fst] in Hp, Hm. unfold prepare_step.
    assert (forall k, 0 <= k < len -> p <= va + k < p + PAGE_SIZE -> key a (va + k) = key a p) as Hkey.
    { intros k Hk Hkp. apply key_page. unfold PAGE_SIZE in *. dmlia. }
    assert (as_ok w1 T a as_) as Has1 by (destruct Has, (cw_keep _ _ _ _ _ Hc1) as [[] _]; split; congruence).
    assert (exists ok w2 L2, (if user_to_phys_checked as_ p VMM_ACCESS_WRITE w1 =? 0 then vmm_handle_cow_fault as_ p w1 else (true, w1)) = (ok, w2) /\
      Inv w2 T L2 U /\ cowed U w L w2 L2 /\ writable_upto L2 a va len p /\ (ok = true -> allows L2 VMM_ACCESS_WRITE (key a p)))
      as (ok & w2 & L2 & -> & HI2 & Hc2 & Hw2 & Hok).
    { destruct (Z.eqb_spec (user_to_phys_checked as_ p VMM_ACCESS_WRITE w1) 0) as [Hz|Hnz].
      - destruct (vmm_handle_cow_fault as_ p w1) as [ok w2] eqn:E.
        destruct (cow_fault_cases w1 w2 T L1 U a as_ p ok HI1 Has1 E) as [Hk Hcase].
        pose proof (cow_fault_outside w1 w2 T L1 U a as_ p ok HI1 Has1 E) as Ho. destruct ok.
        + destruct Hcase as (_ & e & e' & Hd). exists true, w2, (<[key a p := e']> L1).
          pose proof (cow_done_cowed w1 w2 T L1 U a p e e' HI1 Hk Ho Hd) as Hc12.
          split; [done|]. split; [apply Hd|]. split; [by eapply cowed_trans|]. split.
          * intros k Hk1 Hk2. eapply cowed_writable; [done|]. by apply Hw1.
          * intros _. exists e'. rewrite lookup_insert_eq. split; [done|]. cbn. rewrite ap_rw. apply Hd.
        + destruct Hcase as (HI2 & _). exists false, w2, L1. split; [done|]. split; [done|].
          split; [|done]. eapply cowed_trans; [done|]. destruct (cowed_refl U w1 L1). split; try done.
          intros k e He. exists e. split; [done|]. split; [by left|]. destruct Hk as [_ Hk]. apply Hk. by eapply leaf_page.
      - exists true, w1, L1. rewrite (to_phys_zero w1 T L1 U a as_) in Hnz by (done || lia).
        split_and!; try done; try apply HI1; try apply Hc1. intros _. by apply dec_stable. }
    destruct ok; cbn [negb]; [|by exists L2].
    assert (writable_upto L2 a va len (p + PAGE_SIZE)) as Hw3.
    { intros k Hk Hkp. destruct (Z.lt_ge_cases (va + k) p); [by apply Hw2|]. rewrite Hkey by lia. by apply Hok. }
    destruct (Z.eqb_spec p (page_of (va + len - 1))) as [Ep|Hne].
    + exists L2. split; [done|]. split; [done|]. intros _ k Hk. apply Hw3; [done|]. unfold PAGE_SIZE in *. dmlia.
    + rewrite u64_small by (unfold is_u64, PAGE_SIZE in *; dmlia). split; [done|]. split; [done|]. by exists L2.
  - exists L. split; [done|]. split; [apply cowed_refl|]. intros k Hk Hkp. unfold PAGE_SIZE in *. dmlia.
Qed.

(** ** Copying out *)

(** The kernel address behind byte [k] of a user buffer. *)
Definition paddr (w : machine) (L : gmap (list Z) Z) (a va k : Z) : Z := hhdm w + default 0 (upa L a (va + k)).

(** Writing bytes of mapped pages leaves the tables alone. *)
Lemma inv_write_user w T L U m (ps : Z -> Prop) :
  Inv w T L U -> (forall x, is_u8 (m x)) ->
  (forall x, ps x -> exists pa j, x = hhdm w + pa + j /\ 0 <= j < PAGE_SIZE /\ 0 < lcount L pa) ->
  (forall x, ~ ps x -> m x = m_mem w x) -> Inv (put_mem w m) T L U.
Proof.
  intros HI H8 Hps Hm. apply (inv_mem_change w); [done| |done|done|].
  - destruct (inv_machine _ _ _ _ HI). by split.
  - intros k pa Hpa j Hj. unfold page_byte. apply Hm. intros (q & i & Ex & Hi & Hq)%Hps.
    destruct (page_pos w T L U pa HI (inv_T_pos _ _ _ _ _ _ HI Hpa)) as (_ & H2 & _).
    pose proof (inv_U _ _ _ _ HI q).
    destruct (page_pos w T L U q HI) as (_ & H2' & _); [rewrite (used_rc w T L U); (done || lia)|].
    assert (pa <> q) as Hne by (intros ->; apply (not_table w T L U q HI ltac:(lia) k Hpa)).
    change (hhdm (put_mem w m)) with (hhdm w) in Ex.
    destruct (pages_apart pa q H2 H2' Hne); lia.
Qed.

Lemma copy_out_turn w T L U a as_ dst src len done m :
  Inv w T L U -> as_ok w T a as_ -> 0 <= dst -> dst + len <= 2 ^ 64 -> 0 <= done < len ->
  Inv (put_mem w m) T L U -> kernel_buffer w L U src len -> allows L VMM_ACCESS_WRITE (key a (dst + done)) ->
  exists m' c, copy_out_step as_ dst src len (done, put_mem w m) = inl (done + c, put_mem w m') /\
    c = chunk_at (u64 (dst + done)) len done /\ 0 < c <= len - done /\ (forall x, is_u8 (m' x)) /\
    (forall k, 0 <= k < c -> m' (paddr w L a dst (done + k)) = m (src + (done + k))) /\
    (forall x, (forall k, 0 <= k < c -> paddr w L a dst (done + k) <> x) -> m' x = m x).
Proof.
  intros HI Has Hdst Hle Hd HI1 Hbuf (e & He & Hw). unfold copy_out_step. replace (done <? len) with true by lia.
  destruct Has as [Hh Ha]. rewrite (to_phys_spec _ T L U HI1 as_ Hh a Ha). pose proof (chunk_page dst len done) as Hcp.
  set (c := chunk_at (u64 (dst + done)) len done) in *.
  assert (0 <= (dst + done) mod PAGE_SIZE < PAGE_SIZE) as Hmod by (apply Z.mod_pos_bound; done).
  assert (0 < c <= len - done) as Hc.
  { unfold c. rewrite u64_small, chunk_eq by (unfold is_u64; lia). lia. }
  change (match L !! key a (u64 (dst + done)) with Some _ => _ | None => _ end)
    with (translate L a (u64 (dst + done)) VMM_ACCESS_WRITE).
  rewrite u64_small by (unfold is_u64; lia). rewrite (translate_eq _ T L U) by (done || lia). rewrite He, Hw.
  assert ((dst + done) mod PAGE_SIZE + c <= PAGE_SIZE) as Hoff.
  { destruct (Hcp (c - 1)) as (_ & E & _); [lia..|].
    pose proof (Z.mod_pos_bound (dst + done + (c - 1)) PAGE_SIZE ltac:(done)). lia. }
  pose proof (leaf_nonzero w T L U _ _ HI He) as Hnz. replace (_ =? 0) with false by lia. cbn [negb]. rewrite Hh.
  destruct (chunk_apart w T L U src len done c (fr e) ((dst + done) mod PAGE_SIZE) HI Hbuf) as (R1 & R2 & R3);
    [lia..|by eapply lcount_pos|lia|lia|].
  assert (c = 0 \/ hhdm w + fr e + (dst + done) mod PAGE_SIZE + c <= src + done \/
          src + done + c <= hhdm w + fr e + (dst + done) mod PAGE_SIZE) as R4 by lia.
  pose proof (fun x => kmemcpy_apart m _ _ c x R2 R1 R4) as Hcpy.
  pose proof (fun x => Mem.kmemcpy_u8 m (u64 (hhdm w + fr e + (dst + done) mod PAGE_SIZE)) (u64 (src + done)) c x (m_bytes _ (inv_machine _ _ _ _ HI1))) as H8.
  rewrite Z.add_assoc. cbn [put_mem m_mem] in *. set (m' := Mem.kmemcpy _ _ _ _) in *.
  assert (forall k, 0 <= k < c -> paddr w L a dst (done + k) = hhdm w + fr e + (dst + done) mod PAGE_SIZE + k) as Hpa.
  { intros k Hk. destruct (Hcp k) as (E1 & E2 & _); [lia..|]. unfold paddr, upa. rewrite Z.add_assoc.
    rewrite (key_page a (dst + done + k) (dst + done)), He by done. cbn. lia. }
  exists m', c. split; [done|]. split; [done|]. split; [done|]. split; [done|]. split.
  - intros k Hk. rewrite Hpa, Hcpy by done. replace ((_ <=? _) && (_ <? _)) with true by (zcases; simpl; lia). f_equal. lia.
  - intros x Hx. rewrite Hcpy. replace ((_ <=? _) && (_ <? _)) with false; [done|]. symmetry. apply not_true_iff_false.
    intros [H1 H2]%andb_true_iff. zbool. apply (Hx (x - (hhdm w + fr e + (dst + done) mod PAGE_SIZE))); [lia|]. rewrite Hpa; lia.
Qed.

(** The bytes of a user range are in mapped pages. *)
Lemma paddr_mapped w T L U a va len k :
  Inv w T L U -> (forall k, 0 <= k < len -> allows L VMM_ACCESS_WRITE (key a (va + k))) -> 0 <= k < len ->
  exists pa j, paddr w L a va k = hhdm w + pa + j /\ 0 <= j < PAGE_SIZE /\ 0 < lcount L pa.
Proof.
  intros HI Hall Hk. destruct (Hall k Hk) as (e & He & _). exists (fr e), ((va + k) mod PAGE_SIZE).
  split; [unfold paddr, upa; rewrite He; cbn; lia|]. split; [apply Z.mod_pos_bound; done|by eapply lcount_pos].
Qed.

Lemma paddr_not_kernel w T L U a va len src n k i :
  Inv w T L U -> (forall k, 0 <= k < len -> allows L VMM_ACCESS_WRITE (key a (va + k))) -> 0 <= k < len ->
  kernel_buffer w L U src n -> 0 <= i < n -> paddr w L a va k <> src + i.
Proof.
  intros HI Hall Hk [_ Hbuf] Hi E. destruct (paddr_mapped w T L U a va len k HI Hall Hk) as (pa & j & E' & Hj & Hl).
  pose proof (inv_U _ _ _ _ HI pa).
  destruct (page_pos w T L U pa HI) as (H1 & H2 & _); [rewrite (used_rc w T L U); (done || lia)|].
  apply (kernel_byte_apart w L U (src + i) pa j (Hbuf i Hi)); try done; [by right|]. congruence.
Qed.

Lemma copy_out_loop w T L U a as_ dst src len :
  Inv w T L U -> as_ok w T a as_ -> 0 <= dst -> 0 < len -> dst + len <= 2 ^ 64 -> kernel_buffer w L U src len ->
  (forall k, 0 <= k < len -> allows L VMM_ACCESS_WRITE (key a (dst + k))) ->
  exists m, iter (copy_out_step as_ dst src len) (copy_fuel len) (0, w) = Some (true, put_mem w m) /\
    Inv (put_mem w m) T L U /\
    (forall k, 0 <= k < len -> (forall k', k < k' < len -> paddr w L a dst k' <> paddr w L a dst k) ->
       m (paddr w L a dst k) = m_mem w (src + k)) /\
    (forall x, (forall k, 0 <= k < len -> paddr w L a dst k <> x) -> m x = m_mem w x).
Proof.
  intros HI Has Hdst Hl Hle Hbuf Hall.
  set (written := fun n m => (forall k, 0 <= k < n -> (forall k', k < k' < n -> paddr w L a dst k' <> paddr w L a dst k) ->
       m (paddr w L a dst k) = m_mem w (src + k)) /\
    (forall x, (forall k, 0 <= k < n -> paddr w L a dst k <> x) -> m x = m_mem w x)).
  destruct (iter_chunks (copy_out_step as_ dst src len)
    (fun done w1 => exists m, w1 = put_mem w m /\ Inv w1 T L U /\ written done m)
    (fun r => exists m, r = (true, put_mem w m) /\ Inv (put_mem w m) T L U /\ written len m) dst len w)
    as (r & E & m & -> & HI' & Hw1 & Hw2); [lia..| | | |by exists m].
  - intros done w1 Hd (m & -> & HI1 & Hw1 & Hw2).
    destruct (copy_out_turn w T L U a as_ dst src len done m HI Has) as (m' & c & -> & Hc & Hcr & H8 & Hin & Hout);
      [done..|by apply Hall|]. split; [by subst c|]. exists m'. split; [done|].
    assert (written (done + c) m') as [HW1 HW2].
    { split.
      - intros k Hk Hlast. destruct (Z.lt_ge_cases k done) as [Hlt|Hge].
        + rewrite Hout; [apply Hw1; [lia|]; intros k' Hk'; apply Hlast; lia|]. intros j Hj. apply Hlast. lia.
        + replace k with (done + (k - done)) at 1 by lia. rewrite Hin by lia.
          replace (done + (k - done)) with k by lia. apply Hw2. intros j Hj.
          by apply (paddr_not_kernel w T L U a dst len src len); [..|lia|done|lia].
      - intros x Hx. rewrite Hout by (intros k Hk; apply Hx; lia). apply Hw2. intros k Hk. apply Hx. lia. }
    split; [|done]. apply (inv_write_user w T L U m' (fun x => exists k, 0 <= k < done + c /\ paddr w L a dst k = x) HI H8).
    + intros x (k & Hk & <-). apply (paddr_mapped w T L U a dst len k HI Hall). lia.
    + intros x Hx. apply HW2. intros k Hk Ek. apply Hx. by exists k.
  - intros w1 (m & -> & HI1 & Hw). unfold copy_out_step. rewrite Z.ltb_irrefl. eexists. split; [done|]. by exists m.
  - exists (m_mem w). split; [by destruct w|]. split; [done|]. split; [intros k Hk; lia|done].
Qed.

(** Kernel buffers keep their contents while copy-on-write is resolved. *)
Lemma kernel_unchanged w T w' L L' U p len k :
  Inv w T L U -> cowed U w L w' L' -> kernel_buffer w L U p len -> 0 <= k < len -> m_mem w' (p + k) = m_mem w (p + k).
Proof.
  intros HI Hc [_ Hb] Hk. destruct (cw_keep _ _ _ _ _ Hc) as [[Hh Ht] Hkeep].
  destruct (decide (p + k < hhdm w \/ hhdm w + PAGE_SIZE * tracked w <= p + k)) as [Ho|Hi].
  { by apply (cw_outside _ _ _ _ _ Hc). }
  set (q := PAGE_SIZE * ((p + k - hhdm w) / PAGE_SIZE)). set (j := (p + k - hhdm w) mod PAGE_SIZE).
  assert (p + k = hhdm w + q + j) as Ex by (unfold q, j, PAGE_SIZE; dmlia).
  assert (0 <= j < PAGE_SIZE) as Hj by (apply Z.mod_pos_bound; done).
  destruct (Hb k Hk q j) as [HU Hl]; [unfold q, PAGE_SIZE; dmlia|done|done|unfold q, PAGE_SIZE in *; dmlia|].
  specialize (Hkeep q ltac:(lia) j Hj). unfold page_byte in Hkeep. rewrite Hh in Hkeep. by rewrite Ex.
Qed.
