(* ===== verification/VmmTree.v ===== *)
(** Whole page-table trees: [vmm_destroy] and [vmm_clone_cow]
    ([kernel/src/mm/vmm.c]). *)

From stdpp Require Import base numbers list option gmap fin_maps.
From Stdlib Require Import ZArith Lia.
From S2P Require Import Prelude Mem Pmm PmmSpec Vmm VmmInv VmmOps VmmCow.
Import Pmm Vmm.

(** ** Counting the references of a part of a tree *)

(** Entries of [M] whose key satisfies [P] and whose value stands for [q]. *)
Definition count (P : list Z -> bool) (g : Z -> Z) (M : gmap (list Z) Z) (q : Z) : Z :=
  Z.of_nat (size (filter (fun kv => P kv.1 = true /\ g kv.2 = q) M)).

Lemma count_insert_new P g M k v q :
  M !! k = None -> count P g (<[k := v]> M) q = count P g M q + (if P k then one (g v) q else 0).
Proof.
  intros Hk. unfold count. rewrite map_filter_insert. unfold one. cbn [fst snd].
  destruct (P k) eqn:E.
  - case_decide as Hd; case_decide as Hd'; try (destruct Hd as [_ Hd]); try congruence.
    + rewrite map_size_insert, map_lookup_filter_None_2; [lia|by left].
    + exfalso. by apply Hd.
    + rewrite delete_id by done. lia.
  - rewrite decide_False; [|by intros [? _]]. rewrite delete_id by done. lia.
Qed.

Lemma count_split P P1 P2 g M q :
  (forall k, is_Some (M !! k) -> P k = P1 k || P2 k) -> (forall k, is_Some (M !! k) -> P1 k && P2 k = false) ->
  count P g M q = count P1 g M q + count P2 g M q.
Proof.
  induction M as [|k v M Hk IH] using map_ind; [done|]. intros H1 H2.
  rewrite !count_insert_new by done. rewrite IH.
  - specialize (H1 k ltac:(by rewrite lookup_insert_eq)). specialize (H2 k ltac:(by rewrite lookup_insert_eq)).
    rewrite H1. destruct (P1 k), (P2 k); try done; simpl; lia.
  - intros k' Hk'. apply H1. rewrite lookup_insert_is_Some'. by right.
  - intros k' Hk'. apply H2. rewrite lookup_insert_is_Some'. by right.
Qed.

Lemma count_zero P g M q : (forall k, is_Some (M !! k) -> P k = false) -> count P g M q = 0.
Proof.
  induction M as [|k v M Hk IH] using map_ind; [done|]. intros H. rewrite count_insert_new by done.
  rewrite H by by rewrite lookup_insert_eq. rewrite IH; [done|].
  intros k' Hk'. apply H. rewrite lookup_insert_is_Some'. by right.
Qed.

(** When a single key of [M] satisfies [P]. *)
Lemma count_single P g M k v q :
  M !! k = Some v -> P k = true -> (forall k', is_Some (M !! k') -> P k' = true -> k' = k) ->
  count P g M q = one (g v) q.
Proof.
  intros Hk HP Hu. rewrite <- (insert_delete_id M k v Hk) at 1. rewrite count_insert_new by apply lookup_delete_eq.
  rewrite HP, count_zero; [lia|]. intros k' [x [Hne Hx]%lookup_delete_Some].
  apply not_true_iff_false. intros HP'. apply Hne. symmetry. apply Hu; [by exists x|done].
Qed.

Lemma count_none P g M q :
  (forall k v, M !! k = Some v -> P k = true -> g v <> q) -> count P g M q = 0.
Proof.
  induction M as [|k v M Hk IH] using map_ind; [done|]. intros H. rewrite count_insert_new by done.
  rewrite IH; [|intros k' v' Hk'; apply H; rewrite lookup_insert_ne; [done|congruence]].
  specialize (H k v (lookup_insert_eq _ _ _)). destruct (P k); [|done]. unfold one.
  rewrite decide_False; [done|]. intros ->. by apply H.
Qed.

Lemma count_nonneg P g M q : 0 <= count P g M q.
Proof. unfold count. lia. Qed.

Lemma count_all g M q : (forall v, g v = fr v) -> count (fun _ => true) g M q = lcount M q.
Proof.
  intros Hg. induction M as [|k v M Hk IH] using map_ind; [done|].
  rewrite count_insert_new, lcount_insert_new, IH by done. rewrite cnt_one, Hg. done.
Qed.

Definition under (p k : list Z) : bool := bool_decide (p `prefix_of` k).

(** The keys below [p] whose next index is less than [i]. *)
Definition below (p : list Z) (i : Z) (k : list Z) : bool :=
  match drop (length p) k with j :: _ => under p k && (j <? i) | [] => false end.

(** References of tables and leaves of part of the forest to the page [q]. *)
Definition held (P : list Z -> bool) (T L : gmap (list Z) Z) (q : Z) : Z :=
  count P (fun pa => pa) T q + count P fr L q.

Lemma under_iff p k : under p k = true <-> exists r, k = p ++ r.
Proof. unfold under. rewrite bool_decide_eq_true. done. Qed.

Lemma below_iff p i k : below p i k = true <-> exists j r, k = p ++ j :: r /\ j < i.
Proof.
  unfold below. split.
  - destruct (drop (length p) k) as [|j r] eqn:E; [done|]. intros [[r' ->]%under_iff H2]%andb_true_iff. zbool.
    rewrite drop_app_length in E. subst r'. eauto.
  - intros (j & r & -> & Hj). rewrite drop_app_length. apply andb_true_iff. split; [|lia]. apply under_iff. eauto.
Qed.

(** Below a key without table there is nothing. *)
Lemma T_prefix w T L U p r pa :
  Inv w T L U -> T !! (p ++ r) = Some pa -> p <> [] -> is_Some (T !! p).
Proof.
  intros HI. revert pa. induction r as [|j r IH] using rev_ind; intros pa Hk Hp; [rewrite app_nil_r in Hk; by exists pa|].
  rewrite app_assoc in Hk. destruct (inv_T_parent _ _ _ _ HI _ _ _ Hk) as [[x Hx] _]; [by destruct p|].
  by apply (IH x).
Qed.

Lemma L_prefix w T L U p r e :
  Inv w T L U -> L !! (p ++ r) = Some e -> p <> [] -> r <> [] -> is_Some (T !! p).
Proof.
  intros HI Hk Hp Hr. destruct (exists_last Hr) as (r' & j & ->). rewrite app_assoc in Hk.
  destruct (inv_L_parent _ _ _ _ HI _ _ Hk) as (k' & i & [<- _]%app_inj_2 & _ & [x Hx] & _); [|done].
  by eapply T_prefix.
Qed.

Section Held.
Context (w : machine) (T L : gmap (list Z) Z) (U : Z -> Z) (HI : Inv w T L U).

Lemma T_length k pa : T !! k = Some pa -> (1 <= length k <= 4)%nat.
Proof. apply (inv_T _ _ _ _ HI). Qed.

Lemma L_length k e : L !! k = Some e -> length k = 5%nat.
Proof. intros H. destruct (inv_L_parent _ _ _ _ HI _ _ H) as (k' & i & -> & Hl & _). rewrite length_app. simpl. lia. Qed.

Lemma held_step k i q :
  held (below k (i + 1)) T L q = held (below k i) T L q + held (under (k ++ [i])) T L q.
Proof.
  assert (forall kk, below k (i + 1) kk = below k i kk || under (k ++ [i]) kk) as H1.
  { intros kk. apply eq_true_iff_eq. rewrite orb_true_iff, !below_iff, under_iff. split.
    - intros (j & r & -> & Hj). destruct (Z.eq_dec j i) as [->|]; [right; exists r; by rewrite <- app_assoc|left].
      exists j, r. split; [done|lia].
    - intros [(j & r & -> & Hj)|(r & ->)]; [exists j, r; split; [done|lia]|].
      exists i, r. rewrite <- app_assoc. split; [done|lia]. }
  assert (forall kk, below k i kk && under (k ++ [i]) kk = false) as H2.
  { intros kk. apply not_true_iff_false. rewrite andb_true_iff, below_iff, under_iff.
    intros [(j & r & -> & Hj) (r' & E)]. rewrite <- app_assoc in E. apply app_inv_head in E. injection E as -> _. lia. }
  unfold held. rewrite !(count_split (below k (i + 1)) (below k i) (under (k ++ [i]))) by auto. lia.
Qed.

Lemma child_range k i r :
  k <> [] -> is_Some (T !! (k ++ i :: r)) \/ is_Some (L !! (k ++ i :: r)) -> 0 <= i < 512.
Proof.
  intros Hk H. assert (is_Some (T !! (k ++ [i])) \/ is_Some (L !! (k ++ [i]))) as [[x Hx]|[x Hx]].
  { destruct H as [[x Hx]|[x Hx]].
    - left. apply (T_prefix w T L U _ r x HI); [by rewrite <- app_assoc|by destruct k].
    - destruct r as [|j r]; [right; by exists x|]. left.
      apply (L_prefix w T L U _ (j :: r) x HI); [by rewrite <- app_assoc|by destruct k|done]. }
  - by destruct (inv_T_parent _ _ _ _ HI _ _ _ Hx Hk).
  - destruct (inv_L_parent _ _ _ _ HI _ _ Hx) as (k' & i' & [-> [= ->]]%app_inj_2 & _ & _ & ?); done.
Qed.

Lemma held_under k pa q :
  T !! k = Some pa -> held (under k) T L q = one pa q + held (below k 512) T L q.
Proof.
  intros Hk. pose proof (T_length k pa Hk) as Hlen. assert (k <> []) as Hne by (intros ->; simpl in Hlen; lia).
  assert (forall kk, is_Some (T !! kk) \/ is_Some (L !! kk) -> under k kk = bool_decide (kk = k) || below k 512 kk) as H1.
  { intros kk Hkk. apply eq_true_iff_eq. rewrite orb_true_iff, below_iff, under_iff, bool_decide_eq_true. split.
    - intros ([|j r] & ->); [left; apply app_nil_r|right]. exists j, r. split; [done|]. by eapply child_range.
    - intros [->|(j & r & -> & _)]; [exists []; by rewrite app_nil_r|by eexists]. }
  assert (forall kk, bool_decide (kk = k) && below k 512 kk = false) as H2.
  { intros kk. apply not_true_iff_false. rewrite andb_true_iff, below_iff, bool_decide_eq_true.
    intros [-> (j & r & E & _)]. apply (f_equal length) in E. rewrite length_app in E. simpl in E. lia. }
  unfold held. rewrite !(count_split (under k) (fun kk => bool_decide (kk = k)) (below k 512)) by auto.
  rewrite (count_single _ _ T k pa) by (done || (by apply bool_decide_eq_true) || (intros ? _; apply bool_decide_eq_true)).
  rewrite (count_zero _ fr L); [lia|]. intros kk [e He]. apply bool_decide_eq_false. intros ->.
  apply L_length in He. lia.
Qed.

Lemma held_none k i q : k <> [] -> entry_of T L k i = None -> T !! k <> None -> held (under (k ++ [i])) T L q = 0.
Proof.
  intros Hne He Hk. unfold held. unfold entry_of in He.
  assert (forall r, T !! (k ++ i :: r) = None /\ L !! (k ++ i :: r) = None) as Hn.
  { intros r. split.
    - destruct (T !! (k ++ i :: r)) as [x|] eqn:E; [|done].
      destruct (T_prefix w T L U (k ++ [i]) r x HI) as [y Hy]; [by rewrite <- app_assoc|by destruct k|].
      case_decide as Hl; [|by rewrite Hy in He]. apply T_length in Hy. rewrite length_app in Hy. simpl in Hy. lia.
    - destruct (L !! (k ++ i :: r)) as [x|] eqn:E; [|done]. pose proof (L_length _ _ E) as Hl.
      rewrite length_app in Hl. simpl in Hl. case_decide as Hd.
      + destruct r; [congruence|simpl in Hl; lia].
      + destruct (L_prefix w T L U (k ++ [i]) r x HI) as [y Hy];
          [by rewrite <- app_assoc|by destruct k|intros ->; simpl in Hl; lia|]. by rewrite Hy in He. }
  rewrite !count_zero; [done|..]; intros kk [x Hx]; apply not_true_iff_false; rewrite under_iff; intros (r & ->);
    rewrite <- app_assoc in Hx; destruct (Hn r) as [H1 H2]; simpl in Hx; congruence.
Qed.

Lemma held_leaf k i e q :
  length k = 4%nat -> L !! (k ++ [i]) = Some e -> held (under (k ++ [i])) T L q = one (fr e) q.
Proof.
  intros Hl He. unfold held. rewrite count_zero, (count_single _ fr L (k ++ [i]) e); [lia|done|..].
  - apply under_iff. exists []. by rewrite app_nil_r.
  - intros kk [x Hx] (r & ->)%under_iff. apply L_length in Hx. rewrite !length_app in Hx. simpl in Hx.
    destruct r; [apply app_nil_r|simpl in Hx; lia].
  - intros kk [x Hx]. apply not_true_iff_false. intros (r & ->)%under_iff.
    apply T_length in Hx. rewrite !length_app in Hx. simpl in Hx. lia.
Qed.

Lemma held_ge P q : 0 <= held P T L q.
Proof. unfold held. pose proof (count_nonneg P (fun pa => pa) T q). pose proof (count_nonneg P fr L q). lia. Qed.

Lemma held_mono k i q : T !! k <> None -> k <> [] -> 0 <= i <= 512 -> held (below k i) T L q <= held (below k 512) T L q.
Proof.
  intros _ _ Hi. replace 512 with (i + Z.of_nat (Z.to_nat (512 - i))) by lia.
  induction (Z.to_nat (512 - i)) as [|n IH]; [by rewrite Z.add_0_r|].
  rewrite Nat2Z.inj_succ, <- Z.add_1_r, Z.add_assoc, held_step. pose proof (held_ge (under (k ++ [i + Z.of_nat n])) q). lia.
Qed.
End Held.

(** ** Destroying a tree *)

(** From [w] to [w'] the allocator dropped [n q] references to each page. *)
Record released (w w' : machine) (n : Z -> Z) : Prop := {
  rl_ok : machine_ok w';
  rl_cfg : same_cfg w w';
  rl_mem : m_mem w' = m_mem w;
  rl_rc : forall q, rc w' q = rc w q - n q;
}.

Lemma released_refl w : machine_ok w -> released w w (fun _ => 0).
Proof. intros H. split; [done..|]. intros q. lia. Qed.

Lemma released_trans w w1 w2 n1 n2 :
  released w w1 n1 -> released w1 w2 n2 -> released w w2 (fun q => n1 q + n2 q).
Proof.
  intros [A1 [A2 A2'] A3 A4] [B1 [B2 B2'] B3 B4]. split; [done|split; congruence|congruence|].
  intros q. rewrite B4, A4. lia.
Qed.

Lemma released_free w pa : machine_ok w -> 0 < rc w pa -> released w (free_page pa w) (one pa).
Proof. intros Hok Hrc. destruct (free_cases w pa Hok Hrc) as (H1 & H2 & H3). by split. Qed.

Lemma released_ext w w' n n' : released w w' n -> (forall q, n' q = n q) -> released w w' n'.
Proof. intros [H1 H2 H3 H4] H. split; [done..|]. intros q. rewrite H. apply H4. Qed.

Section Destroy.
Context (w0 : machine) (T L : gmap (list Z) Z) (U : Z -> Z) (HI : Inv w0 T L U).
Context (as_ : user_address_space) (Hh : hhdm_offset as_ = hhdm w0).

(** The recursive call on the table with key [k]. *)
Definition destroys (rec : Z -> machine -> option machine) (k : list Z) : Prop :=
  forall pa w n0, T !! k = Some pa -> released w0 w n0 -> (forall q, held (under k) T L q <= rc w q) ->
  exists w', rec pa w = Some w' /\ released w w' (held (under k) T L).

Lemma destroy_entries_spec rec k pa n i w n0 :
  T !! k = Some pa -> (length k < 4 -> forall j, destroys rec (k ++ [j]))%nat ->
  released w0 w n0 -> 0 <= i -> i + Z.of_nat n = 512 ->
  (forall q, held (below k 512) T L q - held (below k i) T L q <= rc w q) ->
  exists w', destroy_entries rec (pt_virt as_ pa) (Z.of_nat (length k) - 1) n i w = Some w' /\
    released w w' (fun q => held (below k 512) T L q - held (below k i) T L q).
Proof.
  intros Hk Hrec. pose proof (T_length w0 T L U HI k pa Hk) as Hlen.
  assert (k <> []) as Hne by (intros ->; simpl in Hlen; lia).
  revert i w n0. induction n as [|n IH]; intros i w n0 Hr Hi Hn Hrc; cbn [destroy_entries].
  { assert (i = 512) as -> by lia. exists w. split; [done|]. eapply released_ext; [by apply released_refl, Hr|]. intros q. cbv beta. lia. }
  assert (get w (pte_addr (pt_virt as_ pa) i) = word w0 pa i) as ->.
  { rewrite (pte_addr_eq w0) by (apply HI || done || (by eapply inv_T_pos) || lia). unfold word, get.
    by rewrite (rl_mem _ _ _ Hr). }
  pose proof (inv_word _ _ _ _ HI k pa i Hk ltac:(lia)) as Hw.
  assert (forall w1, released w w1 (held (under (k ++ [i])) T L) ->
    exists w', destroy_entries rec (pt_virt as_ pa) (Z.of_nat (length k) - 1) n (i + 1) w1 = Some w' /\
      released w w' (fun q => held (below k 512) T L q - held (below k i) T L q)) as Hnext.
  { intros w1 Hr1. destruct (IH (i + 1) w1 _ (released_trans _ _ _ _ _ Hr Hr1)) as (w' & E & Hr'); [lia|lia| |].
    - intros q. rewrite (rl_rc _ _ _ Hr1), held_step. specialize (Hrc q). lia.
    - exists w'. split; [done|]. eapply released_ext; [by eapply released_trans|]. intros q. simpl. rewrite held_step. lia. }
  assert (forall q, held (under (k ++ [i])) T L q <= rc w q) as Hle.
  { intros q. specialize (Hrc q). pose proof (held_step T L k i q).
    pose proof (held_mono T L k (i + 1) q ltac:(congruence) Hne ltac:(lia)). lia. }
  destruct (entry_of T L k i) as [e|] eqn:Ee; cbn [holds] in Hw.
  - rewrite Hw. unfold entry_of in Ee. case_decide as Hl.
    + assert (held (under (k ++ [i])) T L (fr e) = 1) as H1 by (rewrite (held_leaf w0 T L U HI k i e) by done; apply one_eq).
      specialize (Hle (fr e)). unfold is_leaf_at_level. rewrite (leaf_valid w0 T L U HI _ _ Ee). cbn [negb].
      replace (_ =? 3) with true by lia. apply Hnext. eapply released_ext; [apply released_free; [apply Hr|fold (fr e); lia]|].
      intros q. by rewrite (held_leaf w0 T L U HI k i e).
    + apply fmap_Some in Ee as (c & Hc & ->). unfold is_leaf_at_level. rewrite has_valid, has_table.
      destruct (table_entry_bits c) as [-> ->]. cbn [negb]. replace (_ =? 3) with false by lia. cbn [orb].
      destruct (table_page w0 T L U HI _ _ Hc). fold (fr (table_entry c)). rewrite fr_table_entry by done.
      destruct (Hrec ltac:(lia) i c w n0 Hc Hr Hle) as (w1 & -> & Hr1). by apply Hnext.
  - rewrite Hw. cbn [negb]. apply Hnext. eapply released_ext; [by apply released_refl, Hr|]. intros q.
    by rewrite (held_none w0 T L U HI k i) by (done || congruence).
Qed.

Lemma destroy_table_spec fuel k :
  (length k + fuel = 5)%nat -> destroys (destroy_table fuel as_ (Z.of_nat (length k) - 1)) k.
Proof.
  revert k. induction fuel as [|f IH]; intros k Hf pa w n0 Hk Hr Hrc.
  { apply (T_length w0 T L U HI) in Hk. lia. }
  cbn [destroy_table]. pose proof (held_under w0 T L U HI k pa) as Hu.
  destruct (destroy_entries_spec (destroy_table f as_ (Z.of_nat (length k) - 1 + 1)) k pa 512 0 w n0 Hk) as (w1 & E & Hr1);
    [|done|lia|lia| |].
  - intros Hlen j. replace (Z.of_nat (length k) - 1 + 1) with (Z.of_nat (length (k ++ [j])) - 1).
    + apply IH. rewrite length_app. simpl. lia.
    + rewrite length_app. simpl. lia.
  - intros q. specialize (Hrc q). rewrite Hu in Hrc by done. pose proof (held_ge T L (below k 0) q).
    pose proof (one_range pa q). lia.
  - rewrite E. cbn [obind]. eexists. split; [done|].
    assert (forall q, held (below k 0) T L q = 0) as H0.
    { intros q. pose proof (child_range w0 T L U HI) as Hc. unfold held. assert (k <> []) as Hne by (intros ->; apply (T_length w0 T L U HI) in Hk; simpl in Hk; lia).
      rewrite !count_zero; [done|..]; intros kk Hkk; apply not_true_iff_false; intros (j & r & -> & Hj)%below_iff.
      - destruct (Hc k j r Hne (or_intror Hkk)); lia.
      - destruct (Hc k j r Hne (or_introl Hkk)); lia. }
    assert (0 < rc w1 pa) as Hpos.
    { rewrite (rl_rc _ _ _ Hr1), H0. specialize (Hrc pa). rewrite Hu, one_eq in Hrc by done. lia. }
    eapply released_ext; [eapply released_trans; [exact Hr1|by apply released_free; [apply Hr1|]]|].
    intros q. simpl. rewrite Hu, H0 by done. lia.
Qed.
End Destroy.

(** What remains without the address space [a]. *)
Definition without (a : Z) (M : gmap (list Z) Z) : gmap (list Z) Z := filter (fun kv => under [a] kv.1 = false) M.

Lemma without_Some a M k v : without a M !! k = Some v <-> M !! k = Some v /\ under [a] k = false.
Proof. unfold without. rewrite map_lookup_filter_Some. done. Qed.

Lemma without_lookup a M k : under [a] k = false -> without a M !! k = M !! k.
Proof.
  intros H. apply option_eq. intros v. rewrite without_Some. tauto.
Qed.

Lemma under_app a k r : k <> [] -> under [a] (k ++ r) = under [a] k.
Proof.
  intros Hk. destruct k as [|x k]; [done|]. apply eq_true_iff_eq. rewrite !under_iff. cbn [app].
  split; intros (t & E); [exists k|exists (k ++ r)]; congruence.
Qed.

Lemma lcount_without a M q : lcount (without a M) q + count (under [a]) fr M q = lcount M q.
Proof.
  induction M as [|k v M Hk IH] using map_ind; [done|].
  rewrite count_insert_new, lcount_insert_new by done. unfold without. rewrite map_filter_insert. cbn [fst].
  destruct (under [a] k) eqn:E.
  - rewrite decide_False by done. rewrite delete_id by done. unfold without in IH. rewrite cnt_one. lia.
  - rewrite decide_True by done. rewrite lcount_insert_new by (apply map_lookup_filter_None_2; by left).
    unfold without in IH. lia.
Qed.

(** A table page of [a] is counted once below [a], any other page by its leaves. *)
Lemma held_table w T L U a k pa :
  Inv w T L U -> T !! k = Some pa -> held (under [a]) T L pa = if under [a] k then 1 else 0.
Proof.
  intros HI Hk. unfold held. destruct (inv_T_rc _ _ _ _ HI _ _ Hk) as (_ & _ & Hl & _).
  assert (count (under [a]) fr L pa = 0) as ->.
  { pose proof (lcount_without a L pa). pose proof (lcount_nonneg (without a L) pa).
    pose proof (count_nonneg (under [a]) fr L pa). lia. }
  rewrite <- (insert_delete_id T k pa Hk) at 1. rewrite count_insert_new by apply lookup_delete_eq. rewrite one_eq.
  assert (count (under [a]) (fun pa => pa) (delete k T) pa = 0) as ->; [|case_match; lia].
  apply count_none. intros k' x [Hne Hx]%lookup_delete_Some _ E. subst x. apply Hne. by eapply (inv_inj _ _ _ _ HI).
Qed.

Lemma held_page w T L U a q :
  Inv w T L U -> (forall k, T !! k <> Some q) -> held (under [a]) T L q = count (under [a]) fr L q.
Proof.
  intros HI Hn. unfold held. assert (count (under [a]) (fun pa => pa) T q = 0) as ->; [|done].
  apply count_none. intros k' x Hx _ E. subst x. by apply (Hn k').
Qed.

Lemma inv_without w w' T L U a :
  Inv w T L U -> T !! [a] <> None -> released w w' (held (under [a]) T L) -> Inv w' (without a T) (without a L) U.
Proof.
  intros HI Ha [Hok [Hh Ht] Hm Hrc]. pose proof HI as [H1 H2 H3 H4 H5 H6 H7 H8 H9 H10 H11]. split; try done.
  - intros k pa [Hk _]%without_Some. by apply (H2 k pa).
  - intros k i pa [Hk Hu]%without_Some Hne. rewrite under_app in Hu by done. rewrite without_lookup by done. by apply (H3 k i pa).
  - intros k e [Hk _]%without_Some. by apply (H4 k).
  - intros k e [Hk Hu]%without_Some. destruct (H5 k e Hk) as (k' & i & -> & Hl & HS & Hi). exists k', i.
    rewrite under_app in Hu by by destruct k'. rewrite without_lookup by done. done.
  - intros k k' pa [Hk _]%without_Some [Hk' _]%without_Some. by apply (H6 k k' pa).
  - intros k pa i [Hk Hu]%without_Some Hi. assert (k <> []) as Hne by (intros ->; apply H2 in Hk; simpl in Hk; lia).
    specialize (H7 k pa i Hk Hi). unfold word, get in *. rewrite Hm, Hh. unfold entry_of in *.
    by rewrite !without_lookup by (by rewrite under_app).
  - intros k pa [Hk Hu]%without_Some. destruct (H8 k pa Hk) as (A & B & C & D).
    rewrite Hrc, (held_table w T L U a k pa HI Hk), Hu. pose proof (lcount_without a L pa).
    pose proof (lcount_nonneg (without a L) pa). pose proof (count_nonneg (under [a]) fr L pa). split_and!; lia.
  - intros q Hq. rewrite Hrc. pose proof (lcount_without a L q).
    destruct (decide (map_Exists (fun k v => v = q /\ under [a] k = true) T)) as [(k & ? & Hk & -> & Hu)|Hno].
    + rewrite (held_table w T L U a k q HI Hk), Hu. destruct (H8 k q Hk) as (A & B & C & D).
      pose proof (lcount_nonneg (without a L) q). pose proof (count_nonneg (under [a]) fr L q). lia.
    + assert (forall k, T !! k <> Some q) as Hn.
      { intros k Hk. destruct (under [a] k) eqn:Hu; [apply Hno; by exists k, q|]. apply (Hq k). by apply without_Some. }
      rewrite (held_page w T L U a q HI Hn), H9 by done. lia.
  - pose proof (lcount_without a L 0). pose proof (lcount_nonneg (without a L) 0). pose proof (count_nonneg (under [a]) fr L 0). lia.
Qed.

Lemma held_le_rc w T L U a q : Inv w T L U -> held (under [a]) T L q <= rc w q.
Proof.
  intros HI. destruct (decide (map_Exists (fun k v => v = q) T)) as [(k & ? & Hk & ->)|Hno].
  - rewrite (held_table w T L U a k q HI Hk). destruct (inv_T_rc _ _ _ _ HI k q Hk) as (_ & -> & _). case_match; lia.
  - assert (forall k, T !! k <> Some q) as Hn by (intros k Hk; apply Hno; by exists k, q).
    rewrite (held_page w T L U a q HI Hn), (inv_rc _ _ _ _ HI q Hn). pose proof (lcount_without a L q).
    pose proof (lcount_nonneg (without a L) q). pose proof (inv_U _ _ _ _ HI q). lia.
Qed.

Lemma inv_destroy w T L U a as_ :
  Inv w T L U -> as_ok w T a as_ ->
  exists w', vmm_destroy as_ w = Some (mk_as 0 (hhdm_offset as_) (brk_base as_) (brk_current as_) (mmap_base as_) (asid as_), w') /\
    Inv w' (without a T) (without a L) U /\ m_mem w' = m_mem w /\ same_cfg w w'.
Proof.
  intros HI [Hh Ha]. unfold vmm_destroy. destruct (inv_T_rc _ _ _ _ HI _ _ Ha) as (Hnz & _).
  rewrite (proj2 (Z.eqb_neq _ _) Hnz). cbn [negb].
  destruct (destroy_table_spec w T L U HI as_ Hh LEVELS [a] eq_refl (root_pa as_) w (fun _ => 0) Ha) as (w' & E & Hr).
  - by apply released_refl, HI.
  - intros q. by eapply held_le_rc.
  - cbn [length] in E. change (Z.of_nat 1 - 1) with 0 in E. rewrite E. cbn [obind]. exists w'. split; [done|].
    split; [|by destruct Hr]. eapply inv_without; [done|congruence|done].
Qed.
