(* ===== verification/VmmClone.v ===== *)
(** Copy-on-write cloning of an address space ([vmm_clone_cow] of
    [kernel/src/mm/vmm.c]). *)

From stdpp Require Import base numbers list option gmap fin_maps.
From Stdlib Require Import ZArith Lia.
From S2P Require Import Prelude Mem Pmm PmmSpec Vmm VmmInv VmmOps VmmCow VmmTree.
Import Pmm Vmm.

(** The leaf both address spaces get for a leaf of the source. *)
Definition shared_leaf (e : Z) : Z :=
  if write_bit e || cow_bit e then leaf_with_ap (e .| PTE_COW) PTE_AP_USER_RO else e.

Lemma shared_leaf_spec e :
  is_u64 e -> has e PTE_VALID = true ->
  let e' := shared_leaf e in
  is_u64 e' /\ has e' PTE_VALID = true /\ fr e' = fr e /\ write_bit e' = false /\
  cow_bit e' = write_bit e || cow_bit e /\ exec_bit e' = exec_bit e.
Proof.
  intros He Hv. cbv zeta. unfold shared_leaf. destruct (write_bit e || cow_bit e) eqn:Ew.
  - unfold leaf_with_ap. rewrite has_valid in *. unfold cow_bit, write_bit, exec_bit.
    split; [pte_u64; apply u64_range|]. split; [pte_bits; by rewrite Hv|].
    split; [by rewrite fr_lor_const, fr_land_const, fr_lor_const|]. by pte_bits.
  - apply orb_false_iff in Ew as [-> ->]. done.
Qed.

(** Keys below [p] whose next index is at least [i]. *)
Definition from (p : list Z) (i : Z) (r : list Z) : bool :=
  match drop (length p) r with j :: _ => under p r && (i <=? j) | [] => false end.

Lemma from_iff p i r : from p i r = true <-> exists j t, r = p ++ j :: t /\ i <= j.
Proof.
  unfold from. split.
  - destruct (drop (length p) r) as [|j t] eqn:E; [done|]. intros [[t' ->]%under_iff H2]%andb_true_iff. zbool.
    rewrite drop_app_length in E. subst t'. eauto.
  - intros (j & t & -> & Hj). rewrite drop_app_length. apply andb_true_iff. split; [|lia]. apply under_iff. eauto.
Qed.

Lemma from_step p i r : from p i r = under (p ++ [i]) r || from p (i + 1) r.
Proof.
  apply eq_true_iff_eq. rewrite orb_true_iff, !from_iff, under_iff. split.
  - intros (j & t & -> & Hj). destruct (Z.eq_dec j i) as [->|]; [left; exists t; by rewrite <- app_assoc|right].
    exists j, t. split; [done|lia].
  - intros [(t & ->)|(j & t & -> & Hj)]; [exists i, t; rewrite <- app_assoc; split; [done|lia]|].
    exists j, t. split; [done|lia].
Qed.

Lemma from_disjoint p i r : under (p ++ [i]) r && from p (i + 1) r = false.
Proof.
  apply not_true_iff_false. rewrite andb_true_iff, from_iff, under_iff.
  intros [(t & ->) (j & t' & E & Hj)]. rewrite <- app_assoc in E. apply app_inv_head in E. injection E as -> _. lia.
Qed.

Section Clone.
Context (U : Z -> Z) (a d : Z) (Had : a <> d).

(** The pages of [a] selected by [D] are shared with [d]; no other leaf changed. *)
Record cloned (D : list Z -> bool) (L L' : gmap (list Z) Z) : Prop := {
  cl_other : forall k, head k <> Some a -> head k <> Some d -> L' !! k = L !! k;
  cl_in : forall r, D r = true ->
    L' !! (a :: r) = shared_leaf <$> L !! (a :: r) /\ L' !! (d :: r) = shared_leaf <$> L !! (a :: r);
  cl_out : forall r, D r = false -> L' !! (a :: r) = L !! (a :: r) /\ L' !! (d :: r) = L !! (d :: r);
}.

(** A leaf that at most lost its write permission to copy-on-write. *)
Definition softened (e e' : Z) : Prop :=
  e' = e \/ fr e' = fr e /\ write_bit e' = false /\ cow_bit e' = true /\ exec_bit e' = exec_bit e.

Record weakened (L L' : gmap (list Z) Z) : Prop := {
  wk_other : forall k, head k <> Some a -> head k <> Some d -> L' !! k = L !! k;
  wk_none : forall r, L !! (a :: r) = None -> L' !! (a :: r) = None;
  wk_some : forall r e, L !! (a :: r) = Some e -> exists e', L' !! (a :: r) = Some e' /\ softened e e';
}.

Lemma softened_trans e1 e2 e3 : softened e1 e2 -> softened e2 e3 -> softened e1 e3.
Proof. unfold softened. intros [->|(? & ? & ? & ?)] [->|(? & ? & ? & ?)]; eauto. right. split_and!; congruence. Qed.

Lemma weakened_refl L : weakened L L.
Proof. split; [done..|]. intros r e He. exists e. split; [done|by left]. Qed.

Lemma weakened_trans L1 L2 L3 : weakened L1 L2 -> weakened L2 L3 -> weakened L1 L3.
Proof.
  intros [A1 A2 A3] [B1 B2 B3]. split; [|auto|].
  - intros k Ha Hd. rewrite B1 by done. by apply A1.
  - intros r e He. destruct (A3 r e He) as (e' & He' & S1). destruct (B3 r e' He') as (e'' & He'' & S2).
    exists e''. split; [done|]. by eapply softened_trans.
Qed.

Lemma cloned_trans D D1 D2 L L1 L2 :
  (forall r, D r = D1 r || D2 r) -> (forall r, D1 r && D2 r = false) ->
  cloned D1 L L1 -> cloned D2 L1 L2 -> cloned D L L2.
Proof.
  intros HD Hdis [A1 A2 A3] [B1 B2 B3]. split.
  - intros k Ha Hd. rewrite B1 by done. by apply A1.
  - intros r Hr. rewrite HD in Hr. specialize (Hdis r). destruct (D1 r) eqn:E1.
    + simpl in Hdis. destruct (B3 r Hdis) as [-> ->]. by apply A2.
    + simpl in Hr. destruct (B2 r Hr) as [-> ->]. by destruct (A3 r E1) as [-> _].
  - intros r Hr. rewrite HD in Hr. apply orb_false_iff in Hr as [E1 E2].
    destruct (B3 r E2) as [-> ->]. by apply A3.
Qed.

(** Nothing of [d] lies below [p] from index [i] on. *)
Definition vacant (p : list Z) (i : Z) (T L : gmap (list Z) Z) : Prop :=
  forall j t, i <= j -> T !! (d :: p ++ j :: t) = None /\ L !! (d :: p ++ j :: t) = None.

(** The outcome of cloning what [D] selects below [p]. *)
Record clone_post (w : machine) (T L : gmap (list Z) Z) (p : list Z) (D : list Z -> bool) (b : bool)
    (w' : machine) (T' L' : gmap (list Z) Z) : Prop := {
  cp_inv : Inv w' T' L' U;
  cp_keep : keep L U w w';
  cp_mmu : m_mmu w' = m_mmu w;
  cp_sub : T ⊆ T';
  cp_T : forall k, under (d :: p) k = false -> T' !! k = T !! k;
  cp_L : forall r, D r = false -> L' !! (d :: r) = L !! (d :: r);
  cp_used : forall q, 0 < lcount L q + U q -> 0 < lcount L' q + U q;
  cp_weak : weakened L L';
  cp_done : b = true -> cloned D L L';
}.

Lemma clone_post_refl w w' T L p D b :
  Inv w' T L U -> keep L U w w' -> m_mmu w' = m_mmu w -> (b = true -> cloned D L L) -> clone_post w T L p D b w' T L.
Proof. intros HI Hk Hm Hc. split; try done. apply weakened_refl. Qed.

(** Sequencing two parts. *)
Lemma clone_post_trans w T L p D D1 D2 b w1 T1 L1 w2 T2 L2 p1 p2 :
  (forall r, D r = D1 r || D2 r) -> (forall r, D1 r && D2 r = false) ->
  (forall k, under (d :: p) k = false -> under (d :: p1) k = false /\ under (d :: p2) k = false) ->
  clone_post w T L p1 D1 true w1 T1 L1 -> clone_post w1 T1 L1 p2 D2 b w2 T2 L2 ->
  clone_post w T L p D b w2 T2 L2.
Proof.
  intros HD Hdis Hp [A1 A2 A3 A4 A5 A6 A7 A8 A9] [B1 B2 B3 B4 B5 B6 B7 B8 B9]. split; auto.
  - destruct A2 as [[? ?] A2], B2 as [[? ?] B2]. split; [split; congruence|]. intros q Hq j Hj.
    rewrite (B2 q (A7 q Hq) j Hj). by apply A2.
  - congruence.
  - by etrans.
  - intros k Hk. destruct (Hp k Hk). rewrite B5 by done. by apply A5.
  - intros r Hr. rewrite HD in Hr. apply orb_false_iff in Hr as [? ?]. rewrite B6 by done. by apply A6.
  - by eapply weakened_trans.
  - intros ->. eapply cloned_trans; [done..|by apply A9|by apply B9].
Qed.

(** Failure after a first part. *)
Lemma clone_post_fail w T L p D D1 w1 T1 L1 p1 :
  (forall r, D r = false -> D1 r = false) -> (forall k, under (d :: p) k = false -> under (d :: p1) k = false) ->
  clone_post w T L p1 D1 false w1 T1 L1 -> clone_post w T L p D false w1 T1 L1.
Proof. intros HD Hp [A1 A2 A3 A4 A5 A6 A7 A8 A9]. split; auto. done. Qed.

(** *** One leaf *)

Lemma cloned_leaf w T L p i e :
  Inv w T L U -> length p = 3%nat -> L !! (a :: p ++ [i]) = Some e ->
  cloned (under (p ++ [i])) L (<[d :: p ++ [i] := shared_leaf e]> (<[a :: p ++ [i] := shared_leaf e]> L)).
Proof.
  intros HI Hp He. split.
  - intros k Ha Hd. rewrite !lookup_insert_ne; [done|by intros <-..].
  - intros r (t & ->)%under_iff. destruct t as [|x t].
    + rewrite app_nil_r. rewrite lookup_insert_ne by congruence. rewrite !lookup_insert_eq, He. done.
    + assert (forall b, L !! (b :: (p ++ [i]) ++ x :: t) = None) as Hn.
      { intros b. destruct (L !! (b :: (p ++ [i]) ++ x :: t)) as [y|] eqn:E; [|done]. apply (L_length w T L U HI) in E.
        simpl in E. rewrite !length_app in E. simpl in E. lia. }
      assert (forall b c, b :: p ++ [i] <> c :: (p ++ [i]) ++ x :: t) as Hk.
      { intros b c E. apply (f_equal length) in E. simpl in E. rewrite !length_app in E. simpl in E. lia. }
      rewrite !lookup_insert_ne by (apply Hk || done). by rewrite !Hn.
  - intros r Hr. assert (r <> p ++ [i]) as Hne.
    { intros ->. apply not_true_iff_false in Hr. apply Hr, under_iff. exists []. by rewrite app_nil_r. }
    rewrite !lookup_insert_ne by congruence. done.
Qed.

Lemma weakened_leaf L p i e :
  is_u64 e -> has e PTE_VALID = true -> L !! (a :: p ++ [i]) = Some e ->
  weakened L (<[d :: p ++ [i] := shared_leaf e]> (<[a :: p ++ [i] := shared_leaf e]> L)).
Proof.
  intros Hu Hv He. destruct (shared_leaf_spec e Hu Hv) as (_ & _ & H3 & H4 & H5 & H6). split.
  - intros k Ha Hd. rewrite !lookup_insert_ne; [done|by intros <-..].
  - intros r Hr. rewrite !lookup_insert_ne; [done|congruence..].
  - intros r e0 He0. rewrite lookup_insert_ne by congruence.
    destruct (decide (r = p ++ [i])) as [->|Hne].
    + rewrite lookup_insert_eq. assert (e0 = e) as -> by congruence. exists (shared_leaf e). split; [done|].
      unfold shared_leaf in *. destruct (write_bit e || cow_bit e); [|by left]. by right.
    + rewrite lookup_insert_ne by congruence. exists e0. split; [done|by left].
Qed.

Lemma clone_leaf_post w w1 T L p i e spa dpa :
  Inv w T L U -> T !! (a :: p) = Some spa -> T !! (d :: p) = Some dpa -> length p = 3%nat -> 0 <= i < 512 ->
  L !! (a :: p ++ [i]) = Some e -> L !! (d :: p ++ [i]) = None -> share_page (fr e) w = (true, w1) ->
  let e' := shared_leaf e in
  let w2 := if write_bit e || cow_bit e then put w1 (entry_at w spa i) e' else w1 in
  let w3 := put w2 (entry_at w dpa i) e' in
  clone_post w T L (p ++ [i]) (under (p ++ [i])) true w3 T (<[d :: p ++ [i] := e']> (<[a :: p ++ [i] := e']> L)).
Proof.
  intros HI Hs Hd Hp Hi He Hn Hsh. cbv zeta. destruct (inv_L _ _ _ _ HI _ _ He) as [Hv Hu].
  destruct (shared_leaf_spec e Hu Hv) as (H1 & H2 & H3 & _). set (e' := shared_leaf e) in *.
  destruct (inv_share w w1 T L U (fr e) HI (leaf_page _ _ _ _ _ _ HI He) Hsh) as (HI1 & Hm1 & [Hh1 Ht1] & Hmm1).
  set (w2 := if write_bit e || cow_bit e then _ else w1).
  assert (Inv w2 T (<[a :: p ++ [i] := e']> L) (fun q => U q + one (fr e) q) /\ only_tables T w1 w2 /\ m_mmu w2 = m_mmu w1) as (HI2 & Ho2 & Hmm2).
  { unfold w2, e', shared_leaf. destruct (write_bit e || cow_bit e) eqn:Ew.
    - rewrite <- (entry_at_cfg w w1) by done. split; [|split; [by eapply (only_tables_put w1 T L _ spa i _ _ HI1 Hs)|done]].
      assert (leaf_with_ap (e .| PTE_COW) PTE_AP_USER_RO = e') as -> by (unfold e', shared_leaf; by rewrite Ew).
      apply (inv_set_leaf w1 T L _ _ (a :: p) spa i e' (Some e') HI1); try done; [simpl; lia|intros ? [= <-]; rewrite H3; pose proof (leaf_nonzero _ _ _ _ _ _ HI He); split; [done|lia]|apply HI1|].
      intros q. cbn [app]. by rewrite He, !cnt_one, H3.
    - rewrite insert_id by done. done. }
  assert (hhdm w2 = hhdm w) as Hh2 by (destruct Ho2 as [[] _]; congruence).
  rewrite <- (entry_at_cfg w w2) by done. set (w3 := put w2 _ e').
  assert (only_tables T w1 w3) as Ho3 by (eapply only_tables_trans; [done|by eapply (only_tables_put w2 T _ _ dpa i _ _ HI2 Hd)]).
  assert (Inv w3 T (<[d :: p ++ [i] := e']> (<[a :: p ++ [i] := e']> L)) U) as HI3.
  { apply (inv_set_leaf w2 T _ _ U (d :: p) dpa i e' (Some e') HI2); try done; [simpl; lia|intros ? [= <-]; rewrite H3; pose proof (leaf_nonzero _ _ _ _ _ _ HI He); split; [done|lia]|apply HI|].
    intros q. cbn [app]. rewrite lookup_insert_ne by congruence. rewrite Hn, cnt_one, H3. simpl. lia. }
  split; try done.
  - destruct Ho3 as [[] Ho3]. split; [split; congruence|]. intros q Hq j Hj.
    rewrite (only_tables_keep w w1 T L U w3 HI (conj (conj H H0) Ho3) q Hq j Hj). unfold page_byte. by rewrite Hm1, Hh1.
  - cbn. congruence.
  - intros r Hr. rewrite lookup_insert_ne; [by rewrite lookup_insert_ne by congruence|]. intros [= <-].
    apply not_true_iff_false in Hr. apply Hr, under_iff. exists []. by rewrite app_nil_r.
  - intros q Hq. rewrite !lcount_insert, lookup_insert_ne, Hn, He, !cnt_one, H3 by congruence. simpl.
    pose proof (one_range (fr e) q). lia.
  - by apply weakened_leaf.
  - intros _. by apply (cloned_leaf w T).
Qed.
(** *** A subtree *)

Lemma clone_post_pre w w2 T T2 L p D b w3 T3 L3 :
  keep L U w w2 -> m_mmu w2 = m_mmu w -> T ⊆ T2 -> (forall k, under (d :: p) k = false -> T2 !! k = T !! k) ->
  clone_post w2 T2 L p D b w3 T3 L3 -> clone_post w T L p D b w3 T3 L3.
Proof.
  intros Hk Hm Hs HT [A1 A2 A3 A4 A5 A6 A7 A8 A9]. split; try done.
  - by eapply keep_trans.
  - congruence.
  - by etrans.
  - intros k Hkk. rewrite A5 by done. by apply HT.
Qed.

Context (src dst : user_address_space) (h : Z) (Hsrc : hhdm_offset src = h) (Hdst : hhdm_offset dst = h).

Definition clones (rec : Z -> Z -> machine -> option (bool * machine)) (p : list Z) : Prop :=
  forall w T L spa dpa, Inv w T L U -> hhdm w = h -> T !! (a :: p) = Some spa -> T !! (d :: p) = Some dpa ->
  vacant p 0 T L ->
  exists b w' T' L', rec dpa spa w = Some (b, w') /\ clone_post w T L p (under p) b w' T' L'.

(** A new table for [d] under index [i]. *)
Lemma clone_child w w1 T L p i dpa c :
  Inv w T L U -> T !! (d :: p) = Some dpa -> (length p < 3)%nat -> 0 <= i < 512 -> vacant p i T L ->
  alloc_zero_page w = (c, w1) -> c <> 0 ->
  let w2 := put w1 (entry_at w dpa i) (table_entry c) in
  let T2 := <[d :: p ++ [i] := c]> T in
  Inv w2 T2 L U /\ keep L U w w2 /\ m_mmu w2 = m_mmu w /\ hhdm w2 = hhdm w /\ T ⊆ T2 /\
  (forall k, under (d :: p ++ [i]) k = false -> T2 !! k = T !! k) /\ vacant (p ++ [i]) 0 T2 L.
Proof.
  intros HI Hd Hlen Hi Hvac E Hc. cbv zeta.
  destruct (inv_alloc_cases w w1 T L U c HI E) as ([Hh1 Ht1] & Hm1 & Hk1 & [[? _]|(_ & HI1 & Hl & Hu & Hn & Hz)]); [done|].
  destruct (Hvac i [] ltac:(lia)) as [Hno _]. rewrite <- (entry_at_cfg w w1) by done.
  assert (0 < rc w1 c) as Hrc by (rewrite (used_rc _ _ _ _ c HI1); rewrite one_eq; lia).
  split.
  { eapply inv_U_ext; [apply (inv_new_table w1 T L _ (d :: p) i dpa c HI1 Hd)|]; try done.
    - simpl. lia.
    - rewrite one_eq. lia.
    - intros j Hj. by rewrite (zero_page_words w1 c (inv_machine _ _ _ _ HI1) Hrc Hz).
    - intros q. simpl. lia. }
  split.
  { eapply keep_trans; [done|]. eapply keep_mono; [|by eapply (keep_put L _ w1 T dpa i _ _ HI1)].
    intros q Hq. pose proof (one_range c q). lia. }
  split; [done|]. split; [done|]. split; [by apply insert_subseteq|]. split.
  - intros k Hk. rewrite lookup_insert_ne; [done|]. intros <-. apply not_true_iff_false in Hk. apply Hk, under_iff.
    exists []. by rewrite app_nil_r.
  - intros j t Hj. rewrite <- !app_assoc. cbn [app]. rewrite lookup_insert_ne.
    + apply Hvac. lia.
    + intros Ek. apply (f_equal length) in Ek. simpl in Ek. rewrite !length_app in Ek. simpl in Ek. lia.
Qed.

(** Index [i] of the loop when nothing is mapped there. *)
Lemma cloned_nothing w T L p i :
  Inv w T L U -> T !! (a :: p) <> None -> (length p <= 3)%nat -> entry_of T L (a :: p) i = None -> vacant p i T L ->
  cloned (under (p ++ [i])) L L.
Proof.
  intros HI Hs Hlen He Hvac. split; [done| |done]. intros r (t & ->)%under_iff. rewrite <- !app_assoc. cbn [app].
  destruct (Hvac i t ltac:(lia)) as [_ ->].
  assert (L !! (a :: p ++ i :: t) = None) as ->; [|done].
  destruct (L !! (a :: p ++ i :: t)) as [x|] eqn:E; [exfalso|done].
  pose proof (L_length w T L U HI _ _ E) as Hl. simpl in Hl. rewrite length_app in Hl. simpl in Hl.
  unfold entry_of in He. cbn [length] in He. case_decide as Hd.
  - destruct t; [cbn [app] in He; congruence|simpl in Hl; lia].
  - destruct (L_prefix w T L U ((a :: p) ++ [i]) t x HI) as [y Hy].
    + rewrite <- app_assoc. done.
    + done.
    + intros ->. simpl in Hl. lia.
    + by rewrite Hy in He.
Qed.

Lemma vacant_next w T L p i b w' T' L' :
  vacant p i T L -> clone_post w T L (p ++ [i]) (under (p ++ [i])) b w' T' L' -> vacant p (i + 1) T' L'.
Proof.
  intros Hv Hp j t Hj. destruct (Hv j t ltac:(lia)) as [H1 H2].
  assert (under (p ++ [i]) (p ++ j :: t) = false) as Hu.
  { apply not_true_iff_false. rewrite under_iff. intros (t' & E). rewrite <- app_assoc in E. apply app_inv_head in E.
    injection E as -> _. lia. }
  rewrite (cp_L _ _ _ _ _ _ _ _ _ Hp) by done. rewrite (cp_T _ _ _ _ _ _ _ _ _ Hp); [done|].
  apply not_true_iff_false. rewrite under_iff. intros (t' & E). apply not_true_iff_false in Hu. apply Hu, under_iff.
  exists t'. by injection E.
Qed.

Lemma under_weaken p i k : under (d :: p) k = false -> under (d :: p ++ [i]) k = false.
Proof.
  intros H. apply not_true_iff_false. apply not_true_iff_false in H. rewrite under_iff in *. intros (t & ->).
  apply H. exists (i :: t). cbn [app]. by rewrite <- app_assoc.
Qed.
Lemma cloned_tail w T L p :
  Inv w T L U -> vacant p 512 T L -> cloned (from p 512) L L.
Proof.
  intros HI Hvac. split; [done| |done]. intros r (j & t & -> & Hj)%from_iff. destruct (Hvac j t Hj) as [_ ->].
  destruct (L !! (a :: p ++ j :: t)) as [x|] eqn:E; [exfalso|done].
  pose proof (child_range w T L U HI (a :: p) j t ltac:(done)) as Hr. cbn [app] in Hr. rewrite E in Hr.
  destruct (Hr (or_intror (mk_is_Some _ _ eq_refl))). lia.
Qed.

(** The entry at index [i]: it is skipped, shared or cloned. *)
Lemma clone_entry_spec rec p w T L spa dpa i n :
  (length p < 3 -> forall j, clones rec (p ++ [j]))%nat -> (length p <= 3)%nat ->
  Inv w T L U -> hhdm w = h -> T !! (a :: p) = Some spa -> T !! (d :: p) = Some dpa -> vacant p i T L -> 0 <= i < 512 ->
  exists b w1 T1 L1, clone_post w T L (p ++ [i]) (under (p ++ [i])) b w1 T1 L1 /\
    clone_entries rec (pt_virt dst dpa) (pt_virt src spa) (Z.of_nat (length p)) (S n) i w =
      if b then clone_entries rec (pt_virt dst dpa) (pt_virt src spa) (Z.of_nat (length p)) n (i + 1) w1
      else Some (false, w1).
Proof.
  intros Hrec Hlen HI Hh Hs Hd Hvac Hi. cbn [clone_entries].
  rewrite !(pte_addr_eq w) by (apply HI || congruence || (by eapply inv_T_pos) || done).
  change (get w (entry_at w spa i)) with (word w spa i).
  pose proof (inv_word _ _ _ _ HI _ _ i Hs Hi) as Hw.
  destruct (entry_of T L (a :: p) i) as [x|] eqn:Ee; cbn [holds] in Hw.
  2: { rewrite Hw. cbn [negb]. exists true, w, T, L. split; [|done].
       apply clone_post_refl; [done|apply keep_refl|done|]. intros _. by apply (cloned_nothing w T); [..|congruence|done|done|done]. }
  rewrite Hw. unfold entry_of in Ee. cbn [length] in Ee. case_decide as Hl.
  - cbn [app] in Ee. assert (length p = 3%nat) as Hp by lia. rewrite (leaf_valid w T L U HI _ _ Ee). cbn [negb].
    unfold is_leaf_at_level. rewrite (leaf_valid w T L U HI _ _ Ee). cbn [negb]. replace (_ =? 3) with true by lia. cbn [orb].
    destruct (Hvac i [] ltac:(lia)) as [_ Hn]. fold (fr x).
    destruct (share_page (fr x) w) as [ok w1] eqn:Esh. destruct ok; cbn [negb].
    + pose proof (clone_leaf_post w w1 T L p i x spa dpa HI Hs Hd Hp Hi Ee Hn Esh) as Hpost. cbv zeta in Hpost.
      unfold is_writable_leaf. rewrite ap_rw, has_cow. fold (cow_bit x).
      unfold shared_leaf in Hpost. destruct (write_bit x || cow_bit x); eexists true, _, _, _; (split; [exact Hpost|done]).
    + pose proof (leaf_page _ _ _ _ _ _ HI Ee) as Hpos.
      destruct (share_cases w (fr x) false w1 (inv_machine _ _ _ _ HI)) as [(_ & -> & _)|(? & _)];
        [by rewrite (used_rc w T L U)|done| |done].
      exists false, w, T, L. split; [|done]. by apply clone_post_refl; [..|apply keep_refl|done|].
  - apply fmap_Some in Ee as (sc & Hsc & ->). cbn [app] in Hsc. rewrite has_valid. unfold is_leaf_at_level.
    rewrite has_valid, has_table. destruct (table_entry_bits sc) as [-> ->]. cbn [negb].
    replace (_ =? 3) with false by lia. cbn [orb]. fold (fr (table_entry sc)).
    destruct (table_page w T L U HI _ _ Hsc). rewrite fr_table_entry by done.
    destruct (alloc_zero_page w) as [c w1] eqn:E. destruct (Z.eqb_spec c 0) as [->|Hc].
    + destruct (inv_alloc_cases w w1 T L U 0 HI E) as (_ & Hm1 & Hk1 & [[_ HI1]|[? _]]); [|done].
      exists false, w1, T, L. split; [|done]. by apply clone_post_refl.
    + destruct (clone_child w w1 T L p i dpa c HI Hd ltac:(lia) Hi Hvac E Hc) as (HI2 & Hk2 & Hm2 & Hh2 & Hs2 & HT2 & Hv2).
      fold (table_entry c). set (w2 := put w1 _ _) in *.
      destruct (Hrec ltac:(lia) i w2 _ L sc c HI2 ltac:(congruence)) as (b & w3 & T3 & L3 & -> & Hpost).
      * by rewrite lookup_insert_ne by congruence.
      * apply lookup_insert_eq.
      * done.
      * exists b, w3, T3, L3. split; [by eapply clone_post_pre|]. cbn [obind]. by destruct b.
Qed.

Lemma clone_entries_spec rec p n w T L spa dpa i :
  (length p < 3 -> forall j, clones rec (p ++ [j]))%nat -> (length p <= 3)%nat ->
  Inv w T L U -> hhdm w = h -> T !! (a :: p) = Some spa -> T !! (d :: p) = Some dpa -> vacant p i T L ->
  0 <= i -> i + Z.of_nat n = 512 ->
  exists b w' T' L', clone_entries rec (pt_virt dst dpa) (pt_virt src spa) (Z.of_nat (length p)) n i w = Some (b, w') /\
    clone_post w T L p (from p i) b w' T' L'.
Proof.
  intros Hrec Hlen. revert w T L i. induction n as [|n IH]; intros w T L i HI Hh Hs Hd Hvac Hi Hn.
  - assert (i = 512) as -> by lia. exists true, w, T, L. split; [done|].
    apply clone_post_refl; [done|apply keep_refl|done|]. intros _. by eapply cloned_tail.
  - destruct (clone_entry_spec rec p w T L spa dpa i n Hrec Hlen HI Hh Hs Hd Hvac ltac:(lia)) as (b & w1 & T1 & L1 & Hp & ->).
    destruct b.
    + pose proof Hp as [A1 [[A2 _] _] _ A4 _ _ _ _ _].
      destruct (IH w1 T1 L1 (i + 1)) as (b & w2 & T2 & L2 & E & Hp2);
        [done|congruence|by eapply lookup_weaken|by eapply lookup_weaken|by eapply vacant_next|lia|lia|].
      exists b, w2, T2, L2. split; [done|]. eapply clone_post_trans; [apply from_step|apply from_disjoint| |exact Hp|exact Hp2].
      intros k Hk. split; [by apply under_weaken|done].
    + exists false, w1, T1, L1. split; [done|]. eapply clone_post_fail; [| |exact Hp].
      * intros r Hr. rewrite from_step in Hr. by apply orb_false_iff in Hr as [? _].
      * intros k Hk. by apply under_weaken.
Qed.

(** Below a table, everything has an index. *)
Lemma clone_post_under w T L p b w' T' L' :
  Inv w T L U -> (length p <= 3)%nat -> clone_post w T L p (from p 0) b w' T' L' -> clone_post w T L p (under p) b w' T' L'.
Proof.
  intros HI Hlen [A1 A2 A3 A4 A5 A6 A7 A8 A9].
  assert (forall r, from p 0 r = true -> under p r = true) as Hfu.
  { intros r (j & t & -> & _)%from_iff. apply under_iff. eauto. }
  assert (forall w T L b r, Inv w T L U -> under p r = true -> from p 0 r = false -> L !! (b :: r) = None) as Hn.
  { clear - Hlen. intros w T L b r HI (t & ->)%under_iff Hf. apply not_true_iff_false in Hf.
    destruct (L !! (b :: p ++ t)) as [x|] eqn:E; [exfalso|done]. destruct t as [|j t].
    - apply (L_length w T L U HI) in E. simpl in E. rewrite length_app in E. simpl in E. lia.
    - pose proof (child_range w T L U HI (b :: p) j t ltac:(done)) as Hr. cbn [app] in Hr. rewrite E in Hr.
      destruct (Hr (or_intror (mk_is_Some _ _ eq_refl))). apply Hf, from_iff. exists j, t. split; [done|lia]. }
  split; try done.
  - intros r Hr. apply A6. apply not_true_iff_false. intros Hf%Hfu. congruence.
  - intros Hb. destruct (A9 Hb) as [C1 C2 C3]. split; [done| |].
    + intros r Hr. destruct (from p 0 r) eqn:Ef; [by apply C2|].
      rewrite !(Hn w' T' L' _ r A1 Hr Ef), (Hn w T L _ r HI Hr Ef). done.
    + intros r Hr. apply C3. apply not_true_iff_false. intros Hf%Hfu. congruence.
Qed.

Lemma clone_table_spec fuel p :
  (length p + fuel = 4)%nat -> clones (clone_table_cow fuel dst src (Z.of_nat (length p))) p.
Proof.
  revert p. induction fuel as [|f IH]; intros p Hf w T L spa dpa HI Hh Hs Hd Hvac.
  { apply (inv_T _ _ _ _ HI) in Hs. simpl in Hs. lia. }
  cbn [clone_table_cow].
  destruct (clone_entries_spec (clone_table_cow f dst src (Z.of_nat (length p) + 1)) p 512 w T L spa dpa 0) as (b & w' & T' & L' & E & Hp);
    try done; [|lia|].
  - intros Hlen j. replace (Z.of_nat (length p) + 1) with (Z.of_nat (length (p ++ [j]))) by (rewrite length_app; simpl; lia).
    apply IH. rewrite length_app. simpl. lia.
  - exists b, w', T', L'. split; [exact E|]. apply clone_post_under; [done|lia|done].
Qed.
End Clone.

(** ** The whole address space *)

Lemma inv_clone w T L U a d src asid_ :
  Inv w T L U -> as_ok w T a src -> T !! [d] = None -> a <> d ->
  exists b r w', vmm_clone_cow src asid_ w = Some (b, r, w') /\
    match r with
    | None => b = false /\ Inv w' T L U /\ keep L U w w'
    | Some dst =>
        exists T' L', Inv w' T' L' U /\ keep L U w w' /\ as_ok w' T' a src /\ as_ok w' T' d dst /\ T ⊆ T' /\
          weakened a d L L' /\ m_mmu w' = TlbiAll :: m_mmu w /\
          (b = true -> cloned a d (fun _ => true) L L')
    end.
Proof.
  intros HI [Hh Ha] Hd Had. unfold vmm_clone_cow. destruct (alloc_zero_page w) as [root w1] eqn:E.
  destruct (inv_alloc_cases w w1 T L U root HI E) as ([Hh1 Ht1] & Hm1 & Hk1 & [[-> HI1]|(Hr & HI1 & Hl & Hu & Hn & Hz)]).
  { exists false, None, w1. split; [done|]. auto. }
  rewrite (proj2 (Z.eqb_neq _ _) Hr). set (dst := mk_as root _ _ _ _ _).
  assert (0 < rc w1 root) as Hrc by (rewrite (used_rc _ _ _ _ root HI1); rewrite one_eq; lia).
  assert (Inv w1 (<[[d] := root]> T) L U) as HI2.
  { eapply inv_U_ext; [apply (inv_new_root w1 T L _ d root HI1 Hd Hr)|].
    - rewrite one_eq. lia.
    - done.
    - intros j Hj. by rewrite (zero_page_words w1 root (inv_machine _ _ _ _ HI1) Hrc Hz).
    - intros q. simpl. lia. }
  assert (T ⊆ <[[d] := root]> T) as Hsub by by apply insert_subseteq.
  destruct (clone_table_spec U a d Had src dst (hhdm w1) ltac:(congruence) ltac:(simpl; congruence) LEVELS []
    eq_refl w1 (<[[d] := root]> T) L (root_pa src) root HI2 eq_refl) as (b & w2 & T' & L' & Ec & Hp).
  - by eapply lookup_weaken.
  - apply lookup_insert_eq.
  - intros j t _. cbn [app]. rewrite lookup_insert_ne by done. split.
    + destruct (T !! (d :: j :: t)) as [x|] eqn:Ex; [|done].
      destruct (T_prefix w T L U [d] (j :: t) x HI) as [y Hy]; [done|done|congruence].
    + destruct (L !! (d :: j :: t)) as [x|] eqn:Ex; [|done].
      destruct (L_prefix w T L U [d] (j :: t) x HI) as [y Hy]; [done|done|done|congruence].
  - cbn [length] in Ec. change (Z.of_nat 0) with 0 in Ec. rewrite Ec. cbn [obind].
    eexists b, (Some dst), _. split; [done|]. destruct Hp as [A1 A2 A3 A4 A5 A6 A7 A8 A9].
    assert (keep L U w w2) as Hk by by eapply keep_trans. pose proof Hk as [[Hh2 Ht2] _].
    exists T', L'. split; [by apply inv_mmu|]. split; [exact Hk|].
    split; [split; [exact (eq_trans Hh (eq_sym Hh2))|]; eapply lookup_weaken; [exact Ha|by etrans]|].
    split; [split; [exact (eq_trans Hh (eq_sym Hh2))|]; eapply lookup_weaken; [apply lookup_insert_eq|done]|].
    split; [by etrans|]. split; [done|]. split; [cbn; congruence|]. intros Hb. destruct (A9 Hb) as [C1 C2 C3].
    split; [done| |done]. intros r _. apply C2. apply under_iff. by exists r.
Qed.
