(* ===== verification/VmmSpec.v ===== *)
(** Correctness of the user page tables ([kernel/src/mm/vmm.c]).

    Each theorem is about an arbitrary system of address spaces: [Inv w T L U]
    gives the tables, the mapped pages of every address space and the references
    held elsewhere, and the conclusion says what every address space sees
    afterwards. *)

From stdpp Require Import base numbers list option gmap fin_maps.
From Stdlib Require Import ZArith Lia.
From S2P Require Import Prelude Mem Pmm PmmSpec Vmm VmmInv VmmOps VmmCow VmmCopy VmmTree VmmClone.
Import Pmm Vmm.

(** ** A system with a shared page *)

Lemma inv_empty w : machine_ok w -> Inv w ∅ ∅ (rc w).
Proof.
  intros Hok. split; try done; try (intros *; rewrite lookup_empty; done).
  intros pa. by apply rc_nonneg.
Qed.

Lemma inv_user_init w T L U a h r w' :
  Inv w T L U -> T !! [a] = None -> h = hhdm w -> vmm_user_init h w = (r, w') ->
  keep L U w w' /\
  match r with
  | None => Inv w' T L U
  | Some as_ => Inv w' (<[[a] := root_pa as_]> T) L U /\ as_ok w' (<[[a] := root_pa as_]> T) a as_
  end.
Proof.
  intros HI Ha -> E. unfold vmm_user_init in E. destruct (alloc_zero_page w) as [root w1] eqn:Ea.
  destruct (inv_alloc_cases w w1 T L U root HI Ea) as ([Hh1 Ht1] & Hm1 & Hk1 & [[-> HI1]|(Hr & HI1 & Hl & Hu & Hn & Hz)]).
  { injection E as <- <-. done. }
  rewrite (proj2 (Z.eqb_neq _ _) Hr) in E. simplify_eq. split; [done|]. cbn [root_pa].
  assert (0 < rc w' root) as Hrc by (rewrite (used_rc _ _ _ _ root HI1); rewrite one_eq; lia).
  split; [|split; [by rewrite Hh1|apply lookup_insert_eq]].
  eapply inv_U_ext; [apply (inv_new_root w' T L _ a root HI1 Ha Hr)|].
  - rewrite one_eq. lia.
  - done.
  - intros j Hj. by rewrite (zero_page_words w' root (inv_machine _ _ _ _ HI1) Hrc Hz).
  - intros q. simpl. lia.
Qed.

(** Two address spaces made one after the other that map the same page
    copy-on-write. *)
Lemma two_spaces m0 h as1 m1 as2 m2 page m3 m4 va flags m5 m6 :
  machine_ok m0 -> h = hhdm m0 -> vmm_user_init h m0 = (Some as1, m1) -> vmm_user_init h m1 = (Some as2, m2) ->
  alloc_zero_page m2 = (page, m3) -> page <> 0 -> share_page page m3 = (true, m4) ->
  map_page true as1 va page flags m4 = (true, m5) -> map_page true as2 va page flags m5 = (true, m6) ->
  exists T L U, Inv m6 T L U /\ as_ok m6 T 1 as1 /\ as_ok m6 T 2 as2 /\ T !! [3] = None /\
    L !! key 1 va = Some (map_desc true page flags) /\ L !! key 2 va = Some (map_desc true page flags) /\
    (forall q, U q = rc m0 q) /\ (forall k, k <> key 1 va -> k <> key 2 va -> L !! k = None).
Proof.
  intros Hok -> E1 E2 Ea Hp0 Esh Em1 Em2.
  destruct (inv_user_init m0 ∅ ∅ _ 1 _ _ _ (inv_empty m0 Hok) (lookup_empty _) eq_refl E1) as (K1 & I1 & A1).
  set (T1 := <[[1] := root_pa as1]> ∅) in *.
  destruct (inv_user_init m1 T1 ∅ _ 2 _ (Some as2) m2 I1 ltac:(done) (eq_sym (proj1 (proj1 K1))) E2) as (K2 & I2 & A2).
  set (T2 := <[[2] := root_pa as2]> T1) in *. set (U := rc m0) in *.
  destruct (inv_alloc_cases m2 m3 T2 ∅ U page I2 Ea) as (C3 & _ & K3 & [[? _]|(_ & I3 & _)]); [done|].
  destruct (inv_share m3 m4 T2 ∅ _ page I3) as (I4 & M4 & C4 & _); [|done|].
  { rewrite one_eq. pose proof (inv_U _ _ _ _ I2 page). pose proof (lcount_nonneg ∅ page). lia. }
  assert (as_ok m4 T2 1 as1) as B1.
  { destruct A1, K2 as [[] _], C3, C4. split; [congruence|]. unfold T2. by rewrite lookup_insert_ne. }
  destruct (inv_map_page m4 m5 T2 ∅ _ 1 as1 true va page flags true I4 B1 Hp0) as (T3 & G3 & K5 & I5 & _); [|done|].
  { rewrite one_eq. pose proof (inv_U _ _ _ _ I2 page). lia. }
  assert (as_ok m5 T3 2 as2) as B2.
  { eapply as_ok_grows; [|done|apply K5]. destruct A2, C3, C4. split; [congruence|done]. }
  destruct (inv_map_page m5 m6 T3 _ _ 2 as2 true va page flags true I5 B2 Hp0) as (T4 & G4 & K6 & I6 & _); [|done|].
  { unfold moved. rewrite lookup_empty, one_eq. simpl. pose proof (inv_U _ _ _ _ I2 page). lia. }
  exists T4. eexists _, _. split; [exact I6|].
  assert (T4 !! [3] = None) as H3.
  { destruct (T4 !! [3]) as [x|] eqn:Ex; [|done].
    destruct (proj2 G4 [3] ltac:(by exists x)) as [Hs|?]; [|done]. destruct (proj2 G3 [3] Hs) as [Hs'|?]; [|done].
    unfold T2, T1 in Hs'. rewrite !lookup_insert_ne, lookup_empty in Hs' by done. by destruct Hs'. }
  split; [eapply as_ok_grows; [eapply as_ok_grows; [exact B1|exact G3|apply K5]|exact G4|apply K6]|].
  split; [eapply as_ok_grows; [exact B2|exact G4|apply K6]|]. split; [done|].
  split; [rewrite lookup_insert_ne; [apply lookup_insert_eq|]; intros E; by apply key_eq in E as [? _]|].
  split; [apply lookup_insert_eq|]. split; [|intros k Hk1 Hk2; by rewrite !lookup_insert_ne by done].
  intros q. unfold moved. rewrite lookup_empty, lookup_insert_ne, lookup_empty.
  - unfold U. simpl. lia.
  - intros E. by apply key_eq in E as [? _].
Qed.

Definition m0 : machine := mk_machine sample (fun _ => 0) [].
Definition no_as : user_address_space := mk_as 0 0 0 0 0 0.
Definition as1 : user_address_space := default no_as (vmm_user_init 0xffff000000000000 m0).1.
Definition m1 : machine := (vmm_user_init 0xffff000000000000 m0).2.
Definition as2 : user_address_space := default no_as (vmm_user_init 0xffff000000000000 m1).1.
Definition m2 : machine := (vmm_user_init 0xffff000000000000 m1).2.
Definition page : Z := (alloc_zero_page m2).1.
Definition m3 : machine := (alloc_zero_page m2).2.
Definition m4 : machine := (share_page page m3).2.
Definition uva : Z := 0x400000.
Definition rw : Z := VMM_USER_READ .| VMM_USER_WRITE.
Definition m5 : machine := (map_page true as1 uva page rw m4).2.
Definition m6 : machine := (map_page true as2 uva page rw m5).2.

Lemma m0_ok : machine_ok m0.
Proof.
  split.
  - apply sample_ok.
  - vm_compute. done.
  - vm_compute. done.
  - intros x. unfold is_u8. cbn. lia.
Qed.

Lemma sample_hhdm : 0xffff000000000000 = hhdm m0.
Proof. by vm_compute. Qed.

Lemma sample_page : page <> 0 /\ (share_page page m3).1 = true /\ (map_page true as1 uva page rw m4).1 = true.
Proof. by vm_compute. Qed.

Lemma sample_page2 : (map_page true as2 uva page rw m5).1 = true.
Proof. by vm_compute. Qed.

Lemma init_some (x : option user_address_space * machine) :
  match x.1 with Some _ => true | None => false end = true -> x = (Some (default no_as x.1), x.2).
Proof. by destruct x as [[?|] ?]. Qed.

Lemma pair_true (x : bool * machine) : x.1 = true -> x = (true, x.2).
Proof. by destruct x as [[] ?]. Qed.

Lemma sample_space1 : vmm_user_init 0xffff000000000000 m0 = (Some as1, m1).
Proof. apply (init_some (vmm_user_init 0xffff000000000000 m0)). by vm_compute. Qed.

Lemma sample_space2 : vmm_user_init 0xffff000000000000 m1 = (Some as2, m2).
Proof. apply (init_some (vmm_user_init 0xffff000000000000 m1)). by vm_compute. Qed.

Lemma sample_inv : exists T L U, Inv m6 T L U /\ as_ok m6 T 1 as1 /\ as_ok m6 T 2 as2 /\ T !! [3] = None /\
  L !! key 1 uva = Some (map_desc true page rw) /\ L !! key 2 uva = Some (map_desc true page rw) /\
  (forall q, U q = rc m0 q) /\ (forall k, k <> key 1 uva -> k <> key 2 uva -> L !! k = None).
Proof.
  destruct sample_page as (Hp0 & Hsh & Hmap).
  exact (two_spaces m0 0xffff000000000000 as1 m1 as2 m2 page m3 m4 uva rw m5 m6 m0_ok sample_hhdm sample_space1 sample_space2
    (surjective_pairing _) Hp0 (pair_true _ Hsh) (pair_true _ Hmap) (pair_true _ sample_page2)).
Qed.

Lemma low_buffer w L U p n : 0 <= p -> 0 <= n -> p + n <= hhdm w -> hhdm w <= 2 ^ 64 -> kernel_buffer w L U p n.
Proof.
  intros Hp Hn Hh Hh'. split; [unfold Mem.range_ok; lia|]. intros k Hk pa j _ Hj E Hpa. lia.
Qed.

(** ** What address spaces see *)

Lemma phys w T L U b as_ va access :
  Inv w T L U -> as_ok w T b as_ -> 0 <= va ->
  user_to_phys_checked as_ va access w =
    match L !! key b va with
    | Some e => if user_entry_allows e access then fr e + va mod PAGE_SIZE else 0
    | None => 0
    end.
Proof.
  intros HI [Hh Ha] Hva. rewrite (to_phys_spec w T L U HI as_ Hh b Ha). by apply (translate_eq w T L U).
Qed.

Lemma allows_bits e access :
  user_entry_allows e access =
    match access with VMM_ACCESS_READ => true | VMM_ACCESS_WRITE => write_bit e | VMM_ACCESS_EXEC => exec_bit e end.
Proof.
  destruct access; [done|apply ap_rw|]. cbn. unfold exec_bit. rewrite <- (has_pow2 e 54) by lia. unfold has.
  by rewrite negb_involutive.
Qed.

(** Two machines in which the leaves agree translate alike. *)
Lemma phys_same w T L U w' T' L' U' b as_ va access :
  Inv w T L U -> Inv w' T' L' U' -> as_ok w T b as_ -> as_ok w' T' b as_ -> 0 <= va -> L' !! key b va = L !! key b va ->
  user_to_phys_checked as_ va access w' = user_to_phys_checked as_ va access w.
Proof. intros HI HI' Ha Ha' Hva E. rewrite (phys w T L U b), (phys w' T' L' U' b) by done. by rewrite E. Qed.

(** Whether a mapping made with [flags] allows an access. *)
Definition flags_allow (cow : bool) (flags : Z) (access : vmm_access) : bool :=
  match access with
  | VMM_ACCESS_READ => true
  | VMM_ACCESS_WRITE => negb cow && has flags VMM_USER_WRITE
  | VMM_ACCESS_EXEC => has flags VMM_USER_EXEC
  end.

(** *** Properties *)

(** mapping a page ([vmm_map_page], [vmm_map_page_cow]). On success every
    address of that page in that address space translates to [pa] plus its offset
    for exactly the accesses the flags give (never a write when copy-on-write),
    the page's TLB entry is invalidated, and no other translation of any address
    space changes. On failure no translation changes and no page is lost: the
    tables made so far belong to the address space. The contents of pages in use
    are kept in both cases. *)
Theorem vmm_map_page_correct (w w' : machine) T L U (a : Z) (as_ : user_address_space) (cow : bool) (va pa flags : Z) (b : bool) :
  Inv w T L U -> as_ok w T a as_ -> pa <> 0 -> 1 <= U pa ->
  (if cow then vmm_map_page_cow as_ va pa flags w else vmm_map_page as_ va pa flags w) = (b, w') ->
  exists T', T ⊆ T' /\ keep L U w w' /\
    (if b
     then Inv w' T' (<[key a va := map_desc cow pa flags]> L) (moved U pa (L !! key a va)) /\ flushed w w' va
     else Inv w' T' L U) /\
    forall c as' vb access, as_ok w T c as' -> 0 <= vb ->
      user_to_phys_checked as' vb access w' =
        if b && bool_decide (c = a /\ vpn vb = vpn va)
        then if flags_allow cow flags access then pa + vb mod PAGE_SIZE else 0
        else user_to_phys_checked as' vb access w.
Proof.
  intros HI Has Hnz HU E. destruct (inv_map_page w w' T L U a as_ cow va pa flags b HI Has Hnz HU E) as (T' & Hg & Hk & Hb).
  exists T'. split; [apply Hg|]. split; [done|].
  assert (fr pa = pa) as Hfr.
  { pose proof (lcount_nonneg L pa).
    destruct (page_pos w T L U pa HI) as (? & ? & ?); [rewrite (used_rc w T L U); (done || lia)|].
    pose proof (m_tracked w (inv_machine _ _ _ _ HI)). apply fr_page; [unfold PAGE_SIZE in *; lia|done]. }
  destruct (map_desc_spec cow pa flags) as (_ & _ & Hd3 & Hd4 & Hd5 & Hd6).
  destruct b; destruct Hb as [HI' Hm].
  - split; [split; [done|by exists [TlbiVa (Z.shiftr va 12)]; split; [|left]]|].
    intros c as' vb access Hc Hvb. assert (as_ok w' T' c as') as Hc' by by eapply as_ok_grows; [..|apply Hk].
    cbn [andb]. destruct (bool_decide_reflect (c = a /\ vpn vb = vpn va)) as [Hk'|Hk'].
    + apply key_eq in Hk' as Ek. rewrite (phys w' T' _ _ c as' vb access HI' Hc' Hvb), Ek, lookup_insert_eq, allows_bits.
      rewrite Hd3, Hfr. destruct access; cbn [flags_allow]; by rewrite ?Hd5, ?Hd6.
    + eapply phys_same; try done. rewrite lookup_insert_ne; [done|]. intros Ek. apply Hk'. symmetry in Ek. by apply key_eq in Ek.
  - split; [done|]. intros c as' vb access Hc Hvb. cbn [andb]. assert (as_ok w' T' c as') as Hc' by by eapply as_ok_grows; [..|apply Hk].
    by eapply phys_same.
Qed.

Lemma vmm_map_page_correct_witness :
  exists b w', vmm_map_page as1 (uva + 0x1000) 0x100000 rw m6 = (b, w') /\
    user_to_phys_checked as2 uva VMM_ACCESS_READ w' = user_to_phys_checked as2 uva VMM_ACCESS_READ m6.
Proof.
  destruct sample_inv as (T & L & U & HI & A1 & A2 & _ & _ & _ & HU & _).
  assert (1 <= U 0x100000) as Hu by (rewrite HU; vm_compute; discriminate).
  destruct (vmm_map_page as1 (uva + 0x1000) 0x100000 rw m6) as [b w'] eqn:E. exists b, w'. split; [reflexivity|].
  destruct (vmm_map_page_correct m6 w' T L U 1 as1 false (uva + 0x1000) 0x100000 rw b HI A1 ltac:(discriminate) Hu E)
    as (T' & _ & _ & _ & H).
  rewrite (H 2 as2 uva VMM_ACCESS_READ A2 ltac:(unfold uva; lia)). rewrite bool_decide_eq_false_2, andb_false_r; [exact eq_refl|].
  intros [? _]. discriminate.
Defined.

(** C31: [vmm_unmap_range] terminates for every range that ends below the last
    page of the 64-bit space, removes exactly the pages of the range from its
    address space, drops one reference for each, invalidates the TLB entry of
    each, and changes no other translation, page content or reference. *)
Theorem vmm_unmap_range_correct (w : machine) T L U (a : Z) (as_ : user_address_space) (start end_ : Z) :
  Inv w T L U -> as_ok w T a as_ -> 0 <= start -> end_ + PAGE_SIZE <= 2 ^ 64 ->
  exists w' L', vmm_unmap_range as_ start end_ w = Some w' /\ Inv w' T L' U /\ keep L U w w' /\
    (forall k, L' !! k = if decide (k ∈ page_keys a start end_) then None else L !! k) /\
    (forall k, k ∈ page_keys a start end_ -> is_Some (L !! k) -> exists va, key a va = k /\ flushed w w' va) /\
    (forall c as' vb access, as_ok w T c as' -> 0 <= vb ->
      user_to_phys_checked as' vb access w' =
        if decide (key c vb ∈ page_keys a start end_) then 0 else user_to_phys_checked as' vb access w).
Proof.
  intros HI Has Hs He. destruct (inv_unmap_range w T L U a as_ start end_ HI Has Hs He)
    as (w' & va & E & (_ & _ & (L' & HI' & HL) & Hk & _ & Hf) & Hkeys).
  assert (forall k, L' !! k = if decide (k ∈ page_keys a start end_) then None else L !! k) as HL'.
  { intros k. rewrite HL. by apply decide_ext. }
  exists w', L'. split_and!; try done.
  - intros k Hin. by apply Hf, Hkeys.
  - intros c as' vb access Hc Hvb. assert (as_ok w' T c as') as Hc' by (destruct Hc, Hk as [[] _]; split; congruence).
    rewrite (phys w' T L' U c), (phys w T L U c), HL' by done. by case_decide.
Qed.

Lemma vmm_unmap_range_correct_witness :
  exists w', vmm_unmap_range as1 uva (uva + 0x3000) m6 = Some w' /\ user_to_phys_checked as1 uva VMM_ACCESS_READ w' = 0.
Proof.
  destruct sample_inv as (T & L & U & HI & A1 & _).
  destruct (vmm_unmap_range_correct m6 T L U 1 as1 uva (uva + 0x3000) HI A1 ltac:(unfold uva; lia) ltac:(unfold uva, PAGE_SIZE; lia))
    as (w' & L' & E & _ & _ & _ & _ & H). exists w'. split; [exact E|].
  rewrite (H 1 as1 uva VMM_ACCESS_READ A1 ltac:(unfold uva; lia)). rewrite decide_True; [reflexivity|].
  apply elem_of_page_keys. exists uva. split; [reflexivity|]. split; [lia|]. by rewrite Z.sub_diag.
Defined.

(** C8: a copy-on-write fault. When [vmm_handle_cow_fault] succeeds the address
    had a copy-on-write page, and now has a writable one, with the same contents
    and execute permission, that is referenced by this mapping alone; every other
    mapping of every address space keeps its page and its contents. It fails only
    without such a page or without memory, and then nothing changes. *)
Theorem vmm_handle_cow_fault_correct (w w' : machine) T L U (a : Z) (as_ : user_address_space) (va : Z) (b : bool) :
  Inv w T L U -> as_ok w T a as_ -> vmm_handle_cow_fault as_ va w = (b, w') ->
  keep L U w w' /\
  if b
  then flushed w w' va /\
    exists e e', L !! key a va = Some e /\ cow_bit e = true /\ Inv w' T (<[key a va := e']> L) U /\
      user_entry_allows e' VMM_ACCESS_WRITE = true /\ cow_bit e' = false /\ exec_bit e' = exec_bit e /\
      pmm_refcount (m_pmm w') (fr e') = 1 /\
      (forall k e2, k <> key a va -> L !! k = Some e2 -> fr e2 <> fr e') /\
      (forall j, 0 <= j < PAGE_SIZE -> page_byte w' (fr e') j = page_byte w (fr e) j)
  else Inv w' T L U /\
    ((forall e, L !! key a va = Some e -> cow_bit e = false) \/ (alloc_zero_page w).1 = 0).
Proof.
  intros HI Has E. destruct (cow_fault_cases w w' T L U a as_ va b HI Has E) as [Hk Hc]. split; [done|].
  destruct b; [|by destruct Hc as (? & _ & ?)]. destruct Hc as (Hf & e & e' & [C1 C2 C3 C4 C5 C6 C7 C8 C9]).
  split; [done|]. exists e, e'. split_and!; try done.
  - cbn. by rewrite ap_rw.
  - unfold rc in C7. pose proof (fr_range e'). by replace (fr e' <? 0) with false in C7 by lia.
  - intros k e2 Hk2 He2 Ef. pose proof (used_rc _ _ _ _ _ C3 (leaf_page _ _ _ _ _ _ C3 (lookup_insert_eq _ _ _))) as Hr.
    rewrite C7 in Hr. pose proof (inv_U _ _ _ _ C3 (fr e')) as HU.
    assert (lcount (<[key a va := e']> L) (fr e') = lcount (delete k (<[key a va := e']> L)) (fr e') + 1) as H1.
    { rewrite lcount_delete, lookup_insert_ne, He2 by done. simpl. rewrite decide_True by done. lia. }
    assert (0 < lcount (delete k (<[key a va := e']> L)) (fr e')); [|lia].
    eapply lcount_pos. rewrite lookup_delete_ne by done. apply lookup_insert_eq.
Qed.

Lemma vmm_handle_cow_fault_correct_witness :
  exists b w', vmm_handle_cow_fault as1 uva m6 = (b, w') /\ same_cfg m6 w'.
Proof.
  destruct sample_inv as (T & L & U & HI & A1 & _).
  destruct (vmm_handle_cow_fault as1 uva m6) as [b w'] eqn:E. exists b, w'. split; [reflexivity|].
  exact (proj1 (proj1 (vmm_handle_cow_fault_correct m6 w' T L U 1 as1 uva b HI A1 E))).
Defined.

(** [vmm_protect_range] terminates, gives every mapped page of the range
    exactly the write and execute permission of [flags], keeps its physical page
    and its copy-on-write mark, invalidates its TLB entry, and changes no other
    mapping, reference or page content. *)
Theorem vmm_protect_range_correct (w : machine) T L U (a : Z) (as_ : user_address_space) (start end_ flags : Z) :
  Inv w T L U -> as_ok w T a as_ -> 0 <= start -> end_ + PAGE_SIZE <= 2 ^ 64 -> end_ - start <= 2 ^ 48 ->
  exists w' L', vmm_protect_range as_ start end_ flags w = Some w' /\ Inv w' T L' U /\ keep L U w w' /\
    (forall k, k ∉ page_keys a start end_ -> L' !! k = L !! k) /\
    (forall k, k ∈ page_keys a start end_ -> L !! k = None -> L' !! k = None) /\
    (forall k e, k ∈ page_keys a start end_ -> L !! k = Some e ->
      exists e', L' !! k = Some e' /\ fr e' = fr e /\ cow_bit e' = cow_bit e /\
        user_entry_allows e' VMM_ACCESS_WRITE = has flags VMM_USER_WRITE /\
        user_entry_allows e' VMM_ACCESS_EXEC = has flags VMM_USER_EXEC /\
        exists va, key a va = k /\ flushed w w' va).
Proof.
  intros HI Has Hs He Hlen. destruct (inv_protect_range w T L U a as_ start end_ flags HI Has Hs He Hlen)
    as (w' & va & E & (_ & _ & (L' & HI' & HL) & Hk & _ & Hf) & Hkeys).
  exists w', L'. split_and!; try done.
  - intros k Hn. rewrite HL, decide_False; [done|]. by rewrite Hkeys.
  - intros k Hn Hk0. rewrite HL, decide_True, Hk0; [done|]. by rewrite Hkeys.
  - intros k e Hin Hk0. destruct (inv_L _ _ _ _ HI _ _ Hk0) as [Hv Hu].
    destruct (protected_spec e flags Hu Hv) as (_ & _ & H3 & H4 & H5 & H6). exists (protected e flags).
    rewrite HL, decide_True, Hk0, !allows_bits by by rewrite Hkeys. split_and!; try done.
    apply Hf; [by rewrite Hkeys|by exists e].
Qed.

Lemma vmm_protect_range_correct_witness :
  exists w', vmm_protect_range as1 uva (uva + 0x1000) VMM_USER_READ m6 = Some w' /\ same_cfg m6 w'.
Proof.
  destruct sample_inv as (T & L & U & HI & A1 & _).
  destruct (vmm_protect_range_correct m6 T L U 1 as1 uva (uva + 0x1000) VMM_USER_READ HI A1 ltac:(unfold uva; lia)
    ltac:(unfold uva, PAGE_SIZE; lia) ltac:(unfold uva; lia)) as (w' & L' & E & _ & Hk & _).
  exists w'. split; [exact E|exact (proj1 Hk)].
Defined.

Lemma vmm_protect_range_keep w T L U a as_ start end_ flags w' :
  Inv w T L U -> as_ok w T a as_ -> 0 <= start -> end_ + PAGE_SIZE <= 2 ^ 64 -> end_ - start <= 2 ^ 48 ->
  vmm_protect_range as_ start end_ flags w = Some w' -> keep L U w w'.
Proof.
  intros HI Has Hs He Hlen E. destruct (inv_protect_range w T L U a as_ start end_ flags HI Has Hs He Hlen)
    as (w1 & va & E1 & (_ & _ & _ & Hk & _) & _). rewrite E in E1. by injection E1 as <-.
Qed.

(** granting write permission with [vmm_protect_range] on a page that is
    mapped copy-on-write makes it writable in place: when another mapping shares
    the page, both now have the same physical page and one of them can write it,
    although copy-on-write was to keep them apart. *)
Theorem protect_exposes_cow (w : machine) T L U (a : Z) (as_ : user_address_space) (va flags e : Z) (k2 : list Z) (e2 : Z) :
  Inv w T L U -> as_ok w T a as_ -> 0 <= va -> va + 2 * PAGE_SIZE <= 2 ^ 64 -> has flags VMM_USER_WRITE = true ->
  L !! key a va = Some e -> cow_bit e = true -> k2 <> key a va -> L !! k2 = Some e2 -> fr e2 = fr e ->
  exists w' L', vmm_protect_range as_ va (va + PAGE_SIZE) flags w = Some w' /\ Inv w' T L' U /\
    user_to_phys_checked as_ va VMM_ACCESS_WRITE w' = fr e + va mod PAGE_SIZE /\ L' !! k2 = Some e2 /\
    1 < pmm_refcount (m_pmm w') (fr e).
Proof.
  intros HI Has Hva Hend Hf Hl Hc Hne Hl2 Hfr.
  destruct (inv_protect_range w T L U a as_ va (va + PAGE_SIZE) flags HI Has Hva ltac:(lia) ltac:(unfold PAGE_SIZE; lia))
    as (w' & vb & E & (_ & _ & (L' & HI' & HL) & Hk & _) & Hkeys).
  assert (forall k, k ∈ page_keys a va vb <-> k = key a va) as Hin.
  { intros k. rewrite Hkeys, page_keys_step, page_keys_nil by (lia || by rewrite Z.sub_diag).
    rewrite elem_of_nil. tauto. }
  destruct (inv_L _ _ _ _ HI _ _ Hl) as [Hv Hu]. destruct (protected_spec e flags Hu Hv) as (_ & _ & H3 & _ & H5 & _).
  assert (L' !! key a va = Some (protected e flags)) as Hl' by (rewrite HL, decide_True, Hl; [done|by apply Hin]).
  assert (L' !! k2 = Some e2) as Hl2' by (rewrite HL, decide_False; [done|by rewrite Hin]).
  exists w', L'. split_and!; try done.
  - assert (as_ok w' T a as_) as Has' by (destruct Has, Hk as [[] _]; split; congruence).
    by rewrite (phys w' T L' U a), Hl', allows_bits, H5, Hf, H3 by done.
  - pose proof (used_rc _ _ _ _ (fr e) HI') as Hr. pose proof (lcount_delete L' k2 (fr e)) as Hd.
    rewrite Hl2' in Hd. cbn in Hd. rewrite decide_True in Hd by done.
    assert (delete k2 L' !! key a va = Some (protected e flags)) as Hdel by by rewrite lookup_delete_ne.
    pose proof (lcount_pos _ _ _ Hdel) as Hp. rewrite H3 in Hp. pose proof (inv_U _ _ _ _ HI' (fr e)).
    assert (rc w' (fr e) = pmm_refcount (m_pmm w') (fr e)) as <-; [|lia].
    unfold rc. pose proof (fr_range e). by replace (fr e <? 0) with false by lia.
Qed.

Lemma protect_exposes_cow_witness :
  exists w', vmm_protect_range as1 uva (uva + PAGE_SIZE) rw m6 = Some w' /\
    user_to_phys_checked as1 uva VMM_ACCESS_WRITE w' <> 0 /\ 1 < pmm_refcount (m_pmm w') (fr (map_desc true page rw)).
Proof.
  destruct sample_inv as (T & L & U & HI & A1 & _ & _ & L1 & L2 & _).
  assert (key 2 uva <> key 1 uva) as Hk by (intros E; apply key_eq in E as [E _]; discriminate).
  assert (cow_bit (map_desc true page rw) = true) as Hc by (destruct (map_desc_spec true page rw) as (_ & _ & _ & H & _); exact H).
  destruct (protect_exposes_cow m6 T L U 1 as1 uva rw (map_desc true page rw) (key 2 uva) (map_desc true page rw) HI A1
    ltac:(unfold uva; lia) ltac:(unfold uva, PAGE_SIZE; lia) ltac:(vm_compute; reflexivity) L1 Hc Hk L2 eq_refl)
    as (w' & L' & E & _ & Hp & _ & Hr). exists w'. split; [exact E|]. split; [|exact Hr]. rewrite Hp.
  pose proof (leaf_nonzero _ _ _ _ _ _ HI L1). pose proof (Z.mod_pos_bound uva PAGE_SIZE ltac:(reflexivity)). lia.
Defined.

(** C2: cloning an address space copy-on-write. After a successful
    [vmm_clone_cow] the new address space translates every address for reading
    and executing as the old one did before, neither of the two may write any
    page without a fault, and the TLB is flushed. Whether it succeeds or not, the
    old address space still reads and executes the same pages, the translations
    of all other address spaces and the contents of all pages in use are
    unchanged, and every reference is accounted for. *)
Theorem vmm_clone_cow_correct (w : machine) T L U (a d : Z) (src : user_address_space) (asid_ : Z) :
  Inv w T L U -> as_ok w T a src -> T !! [d] = None -> a <> d ->
  exists b r w', vmm_clone_cow src asid_ w = Some (b, r, w') /\ keep L U w w' /\
    match r with
    | None => b = false /\ Inv w' T L U
    | Some dst =>
        exists T' L', Inv w' T' L' U /\ as_ok w' T' a src /\ as_ok w' T' d dst /\ m_mmu w' = TlbiAll :: m_mmu w /\
          (forall c as' va access, c <> a -> c <> d -> as_ok w T c as' -> 0 <= va ->
             user_to_phys_checked as' va access w' = user_to_phys_checked as' va access w) /\
          (forall va access, access <> VMM_ACCESS_WRITE -> 0 <= va ->
             user_to_phys_checked src va access w' = user_to_phys_checked src va access w) /\
          (b = true -> forall va, 0 <= va ->
             user_to_phys_checked src va VMM_ACCESS_WRITE w' = 0 /\ user_to_phys_checked dst va VMM_ACCESS_WRITE w' = 0 /\
             forall access, access <> VMM_ACCESS_WRITE ->
               user_to_phys_checked dst va access w' = user_to_phys_checked src va access w)
    end.
Proof.
  intros HI Has Hd Had. destruct (inv_clone w T L U a d src asid_ HI Has Hd Had) as (b & r & w' & E & Hr).
  exists b, r, w'. split; [done|]. destruct r as [dst|]; [|by destruct Hr as (? & ? & ?)].
  destruct Hr as (T' & L' & HI' & Hk & Has' & Hdst & Hsub & [W1 W2 W3] & Hm & Hcl). split; [done|].
  exists T', L'. split_and!; try done.
  - intros c as' va access Hca Hcd Hc Hva. eapply phys_same; try done.
    + destruct Hc, Hk as [[] _]. split; [congruence|by eapply lookup_weaken].
    + apply W1; intros [= ?]; done.
  - intros va access Hacc Hva. rewrite (phys w' T' L' U a), (phys w T L U a) by done. unfold key, tkey in *. cbn [app] in *.
    destruct (L !! _) as [e|] eqn:El; [|by rewrite (W2 _ El)].
    destruct (W3 _ _ El) as (e' & -> & [->|(Hf & _ & _ & Hx)]); [done|]. rewrite !allows_bits, Hf.
    destruct access; [done|done|by rewrite Hx].
  - intros Hb va Hva. destruct (Hcl Hb) as [_ C2 _].
    destruct (C2 [pt_index va 39; pt_index va 30; pt_index va 21; pt_index va 12] eq_refl) as [Ca Cd].
    assert (L' !! key a va = shared_leaf <$> L !! key a va) as Ca' by exact Ca.
    assert (L' !! key d va = shared_leaf <$> L !! key a va) as Cd' by exact Cd.
    pose proof (fun access => phys w' T' L' U a src va access HI' Has' Hva) as Pa. rewrite Ca' in Pa.
    pose proof (fun access => phys w' T' L' U d dst va access HI' Hdst Hva) as Pd. rewrite Cd' in Pd.
    pose proof (fun access => phys w T L U a src va access HI Has Hva) as P0.
    rewrite Pa, Pd. split; [|split].
    1, 2: destruct (L !! key a va) as [e|] eqn:El; [|done]; destruct (inv_L _ _ _ _ HI _ _ El) as [Hv Hu];
      destruct (shared_leaf_spec e Hu Hv) as (_ & _ & _ & H4 & _); cbn; by rewrite ap_rw, H4.
    intros access Hacc. rewrite Pd, P0. destruct (L !! key a va) as [e|] eqn:El; [|done].
    destruct (inv_L _ _ _ _ HI _ _ El) as [Hv Hu]. destruct (shared_leaf_spec e Hu Hv) as (_ & _ & H3 & _ & _ & H6).
    cbn [fmap option_fmap option_map]. rewrite !allows_bits, H3. destruct access; [done|done|by rewrite H6].
Qed.

Lemma vmm_clone_cow_correct_witness :
  exists b r w', vmm_clone_cow as1 0 m6 = Some (b, r, w') /\ same_cfg m6 w'.
Proof.
  destruct sample_inv as (T & L & U & HI & A1 & _ & H3 & _).
  destruct (vmm_clone_cow_correct m6 T L U 1 3 as1 0 HI A1 H3 ltac:(discriminate)) as (b & r & w' & E & Hk & _).
  exists b, r, w'. split; [exact E|exact (proj1 Hk)].
Defined.

(** C32: [vmm_destroy] terminates and releases exactly what its address space
    held: afterwards every page has as many references as the mappings of the
    other address spaces and the holders outside give it, no memory has changed,
    and the other address spaces translate as before. *)
Theorem vmm_destroy_correct (w : machine) T L U (a : Z) (as_ : user_address_space) :
  Inv w T L U -> as_ok w T a as_ ->
  exists as' w', vmm_destroy as_ w = Some (as', w') /\ root_pa as' = 0 /\ m_mem w' = m_mem w /\
    Inv w' (without a T) (without a L) U /\
    (forall q, 0 <= q -> (forall k, without a T !! k <> Some q) ->
       pmm_refcount (m_pmm w') q = lcount (without a L) q + U q) /\
    (forall c as2 va access, c <> a -> as_ok w T c as2 -> 0 <= va ->
       user_to_phys_checked as2 va access w' = user_to_phys_checked as2 va access w).
Proof.
  intros HI Has. destruct (inv_destroy w T L U a as_ HI Has) as (w' & E & HI' & Hm & [Hh Ht]).
  eexists _, w'. split; [exact E|]. split; [done|]. split; [done|]. split; [done|]. split.
  - intros q Hq Hn. rewrite <- (inv_rc _ _ _ _ HI' q Hn). unfold rc. by replace (q <? 0) with false by lia.
  - intros c as2 va access Hc Hc2 Hva.
    assert (forall k, under [a] (c :: k) = false) as Hu.
    { intros k. apply not_true_iff_false. rewrite under_iff. intros (t & [= ? _]). done. }
    eapply phys_same; try done; [|unfold key, tkey; cbn [app]; by rewrite without_lookup].
    destruct Hc2 as [H1 H2]. split; [congruence|]. by rewrite without_lookup.
Qed.

Lemma vmm_destroy_correct_witness :
  exists as' w', vmm_destroy as1 m6 = Some (as', w') /\
    user_to_phys_checked as2 uva VMM_ACCESS_READ w' = user_to_phys_checked as2 uva VMM_ACCESS_READ m6.
Proof.
  destruct sample_inv as (T & L & U & HI & A1 & A2 & _).
  destruct (vmm_destroy_correct m6 T L U 1 as1 HI A1) as (as' & w' & E & _ & _ & _ & _ & H).
  exists as', w'. split; [exact E|]. exact (H 2 as2 uva VMM_ACCESS_READ ltac:(discriminate) A2 ltac:(unfold uva; lia)).
Defined.

(** C33: [vmm_copy_from_user] terminates, succeeds exactly when the whole source
    range can be read, then leaves in the kernel buffer the bytes the address
    space sees, and writes nothing else; when it fails it writes nothing. *)
Theorem vmm_copy_from_user_correct (w : machine) T L U (a : Z) (as_ : user_address_space) (dst src len : Z) :
  Inv w T L U -> as_ok w T a as_ -> is_u64 src -> 0 <= len < 2 ^ 64 -> kernel_buffer w L U dst len ->
  exists b w', vmm_copy_from_user as_ dst src len w = Some (b, w') /\ Inv w' T L U /\
    (b = true <-> len = 0 \/ src + len <= 2 ^ 64 /\ forall k, 0 <= k < len -> allows L VMM_ACCESS_READ (key a (src + k))) /\
    (forall x, ~ (dst <= x < dst + len) -> m_mem w' x = m_mem w x) /\
    if b then forall k, 0 <= k < len -> ubyte w L a (src + k) = Some (m_mem w' (dst + k)) else w' = w.
Proof.
  intros HI Has Hsrc Hlen Hbuf. unfold vmm_copy_from_user. destruct (Z.eqb_spec len 0) as [->|Hl].
  { exists true, w. split_and!; [done|done|tauto|done|]. intros k Hk. lia. }
  rewrite checked_add_spec by (done || lia). destruct (Z.leb_spec (src + len) (2 ^ 64)) as [Hle|Hgt].
  2: { exists false, w. split_and!; [done|done| |done|done]. split; [done|]. intros [?|[? _]]; lia. }
  destruct (accessible_spec w T L U a as_ src len VMM_ACCESS_READ HI Has Hsrc ltac:(lia)) as (b & -> & Hb).
  cbn [obind]. destruct b; cbn [negb].
  - destruct (proj1 Hb eq_refl) as [?|[_ Hall]]; [lia|].
    destruct (copy_in_loop w T L U a as_ dst src len HI Has Hsrc ltac:(lia) Hle Hbuf Hall)
      as ([b w'] & E & Hr1 & HI' & _ & Hout & Hin). cbn [fst snd] in *. subst b. exists true, w'. split_and!; try done.
  - exists false, w. split_and!; try done.
Qed.

Lemma vmm_copy_from_user_correct_witness :
  exists b w', vmm_copy_from_user as1 0x1000 uva 16 m6 = Some (b, w') /\ (b = false -> w' = m6).
Proof.
  destruct sample_inv as (T & L & U & HI & A1 & _).
  destruct (vmm_copy_from_user_correct m6 T L U 1 as1 0x1000 uva 16 HI A1 ltac:(split; [discriminate|reflexivity]) ltac:(lia)
    (low_buffer m6 L U 0x1000 16 ltac:(lia) ltac:(lia)
      ltac:(rewrite <- (proj1 A1); vm_compute; discriminate) ltac:(rewrite <- (proj1 A1); vm_compute; discriminate))) as (b & w' & E & _ & _ & _ & Hb).
  exists b, w'. split; [exact E|]. intros ->. exact Hb.
Defined.



(** ** Moving a page *)

Lemma inv_move_leaf w T L U a old new e l3 n3 :
  Inv w T L U -> T !! tkey a old = Some l3 -> T !! tkey a new = Some n3 -> L !! key a old = Some e -> L !! key a new = None ->
  let w' := put (put w (entry_at w n3 (pt_index new 12)) e) (entry_at w l3 (pt_index old 12)) 0 in
  Inv w' T (<[key a new := e]> (delete (key a old) L)) U /\ only_tables T w w'.
Proof.
  intros HI Ht Hn He Hnone. cbv zeta. pose proof (pt_index_range old 12 ltac:(lia)) as Hi. pose proof (pt_index_range new 12 ltac:(lia)) as Hj.
  destruct (inv_L _ _ _ _ HI _ _ He) as [Hv Hu]. pose proof (leaf_nonzero _ _ _ _ _ _ HI He) as Hnz.
  set (p := entry_at w l3 _). set (q := entry_at w n3 _).
  assert (Inv (put w p 0) T (delete (key a old) L) (fun x => U x + one (fr e) x)) as HI1.
  { apply (inv_set_leaf w T L U _ (tkey a old) l3 _ 0 None); try done.
    - intros x. pose proof (one_range (fr e) x). pose proof (inv_U _ _ _ _ HI x). lia.
    - by apply (delete_cnt L U (key a old) e). }
  assert (Inv (put (put w p 0) q e) T (<[key a new := e]> (delete (key a old) L)) U) as HI2.
  { eapply inv_U_ext; [apply (inv_put_leaf (put w p 0) T _ _ a new (fr e) e n3 HI1 Hn); try done|].
    - rewrite one_eq. pose proof (inv_U _ _ _ _ HI (fr e)). lia.
    - lia.
    - intros x. unfold moved. rewrite lookup_delete_ne, Hnone; [simpl; lia|]. congruence. }
  assert (only_tables T w (put (put w q e) p 0)) as Hot.
  { apply (only_tables_trans T w (put w q e)); [by eapply only_tables_put|].
    apply (only_tables_put_rc (put w q e) T l3 (pt_index old 12) 0 (tkey a old)); [by apply put_ok, HI| |done|done].
    exact (inv_T_pos _ _ _ _ _ _ HI Ht). }
  split; [|done]. apply (inv_mem_change (put (put w p 0) q e)); [done|by apply put_ok, put_ok, HI|done|done|].
  intros k pa _ j _. unfold page_byte. cbn [put put_mem m_mem].
  destruct (page_pos w T L U l3 HI (inv_T_pos _ _ _ _ _ _ HI Ht)) as (P1 & P2 & P3).
  destruct (page_pos w T L U n3 HI (inv_T_pos _ _ _ _ _ _ HI Hn)) as (Q1 & Q2 & Q3). pose proof (m_direct w (inv_machine _ _ _ _ HI)).
  apply Mem.store64_comm; unfold p, q, entry_at; try (unfold PAGE_SIZE in *; lia).
  destruct (Z.eq_dec l3 n3) as [<-|Hne]; [|destruct (pages_apart l3 n3 P2 Q2 Hne); unfold PAGE_SIZE in *; lia].
  assert (pt_index old 12 <> pt_index new 12); [|lia]. intros Ei.
  pose proof (inv_inj _ _ _ _ HI _ _ _ Ht Hn) as Ek. unfold key in *. rewrite Ek, Ei in He. congruence.
Qed.

(** [vmm_move_page]: a mapped page moves to an unmapped address with its contents
    and permissions; nothing is moved when the target is mapped or no table can be
    made, and moving an unmapped page is no failure. *)
Theorem vmm_move_page_correct (w w' : machine) T L U (a : Z) (as_ : user_address_space) (old new : Z) (b : bool) :
  Inv w T L U -> as_ok w T a as_ -> vmm_move_page as_ old new w = (b, w') ->
  exists T', T ⊆ T' /\ keep L U w w' /\
    match L !! key a old with
    | None => b = true /\ w' = w
    | Some e =>
        if b
        then L !! key a new = None /\ Inv w' T' (<[key a new := e]> (delete (key a old) L)) U /\ flushed w w' old /\ flushed w w' new
        else Inv w' T' L U
    end.
Proof.
  intros HI Has. unfold vmm_move_page. pose proof (unmap_body w T L U a as_ old HI Has) as Hb.
  destruct (leaf_for_va as_ old w) as [pte|].
  2: { rewrite Hb. intros [= <- <-]. exists T. split; [done|]. split; [apply keep_refl|done]. }
  destruct (has (get w pte) PTE_VALID); cbn [negb] in Hb |- *.
  2: { rewrite Hb. intros [= <- <-]. exists T. split; [done|]. split; [apply keep_refl|done]. }
  destruct Hb as (e & l3 & He & _ & Ht & ->). rewrite He.
  destruct (ensure_tables as_ new w) as [r w1] eqn:E.
  destruct (ensure_tables_spec w w1 T L U a as_ new r HI Has E) as (T1 & HI1 & Hk1 & Hm1 & Hg1 & Hr1).
  destruct r as [t|]; [|intros [= <- <-]; exists T1; split; [apply Hg1|done]]. destruct Hr1 as (n3 & Hn & ->).
  assert (as_ok w1 T1 a as_) as Has1 by by eapply as_ok_grows; [..|apply Hk1]. pose proof Hk1 as [[Hh1 Ht1] _].
  assert (T1 !! tkey a old = Some l3) as Ht' by (eapply lookup_weaken; [done|apply Hg1]).
  rewrite (pte_addr_eq w1) by (apply HI1 || apply Has1 || (by eapply inv_T_pos) || (apply pt_index_range; lia)).
  pose proof (leaf_word w1 T1 L U HI1 a new n3 Hn) as Hw. rewrite <- (entry_at_cfg w w1) by done.
  pose proof (leaf_word w1 T1 L U HI1 a old l3 Ht') as Hwo. rewrite He in Hwo. cbn [holds] in Hwo.
  destruct (L !! key a new) as [e2|] eqn:Hnew; cbn [holds] in Hw; rewrite Hw.
  - rewrite (leaf_valid w1 T1 L U HI1 _ _ Hnew). intros [= <- <-]. exists T1. split; [apply Hg1|done].
  - rewrite Hwo. intros [= <- <-]. destruct (inv_move_leaf w1 T1 L U a old new e l3 n3 HI1 Ht' Hn He Hnew) as [HI2 Hot].
    exists T1. split; [apply Hg1|]. split.
    { eapply keep_trans; [done|]. split; [apply Hot|]. by apply (only_tables_keep w1 w1 T1 L U). }
    split; [done|]. split; [by apply inv_mmu, inv_mmu|].
    split; exists [TlbiVa (Z.shiftr new 12); TlbiVa (Z.shiftr old 12)]; (split; [cbn; by rewrite Hm1|set_solver]).
Qed.

Lemma inv_alloc_page w w' T L U a as_ va flags b :
  Inv w T L U -> as_ok w T a as_ -> L !! key a va = None -> vmm_alloc_page as_ va flags w = (b, w') ->
  exists T', grows a T T' /\ keep L U w w' /\
    if b
    then exists pa, fr pa = pa /\ U pa = 0 /\ lcount L pa = 0 /\ Inv w' T' (<[key a va := map_desc false pa flags]> L) U /\
         forall j, 0 <= j < PAGE_SIZE -> page_byte w' pa j = 0
    else (alloc_zero_page w).1 = 0 /\ Inv w' T' L U \/
         exists pa, pa <> 0 /\ U pa = 0 /\ lcount L pa = 0 /\ Inv w' T' L (fun q => U q + one pa q).
Proof.
  intros HI Has Hnone. unfold vmm_alloc_page. destruct (alloc_zero_page w) as [pa w1] eqn:E. cbn [fst].
  destruct (inv_alloc_cases w w1 T L U pa HI E) as ([Hh1 Ht1] & _ & Hk1 & [[-> HI1]|(Hpa & HI1 & Hl & HU & Hn & Hz)]).
  { intros [= <- <-]. exists T. split; [apply grows_refl|]. split; [done|]. by left. }
  rewrite (proj2 (Z.eqb_neq _ _) Hpa). intros Em.
  destruct (inv_map_page w1 w' T L _ a as_ false va pa flags b HI1) as (T' & Hg & Hk2 & Hb);
    [destruct Has; split; congruence|done|rewrite one_eq; lia|done|].
  exists T'. split; [done|]. split.
  { eapply keep_trans; [done|]. eapply keep_mono; [|done]. intros q Hq. pose proof (one_range pa q). lia. }
  destruct b; destruct Hb as [HI2 _].
  - exists pa. split_and!; try done.
    + destruct (rc_page w1 pa (inv_machine _ _ _ _ HI1)) as (? & ? & _); [|by apply fr_page].
      rewrite (used_rc w1 T L _ pa HI1); rewrite one_eq; lia.
    + eapply inv_U_ext; [exact HI2|]. intros q. unfold moved. rewrite Hnone. simpl. lia.
    + intros j Hj. destruct Hk2 as [_ Hk2]. rewrite (Hk2 pa); [by apply Hz| |done]. rewrite one_eq. lia.
  - right. by exists pa.
Qed.

(** C35: [vmm_alloc_page] maps a zeroed page that was not in use, with the
    permissions of [flags]. When it fails it mapped nothing; but if the page was
    allocated and the tables could not be made, the page stays allocated although
    nothing refers to it any more. *)
Theorem vmm_alloc_page_correct (w w' : machine) T L U (a : Z) (as_ : user_address_space) (va flags : Z) (b : bool) :
  Inv w T L U -> as_ok w T a as_ -> L !! key a va = None -> vmm_alloc_page as_ va flags w = (b, w') ->
  exists T', T ⊆ T' /\ keep L U w w' /\
    if b
    then exists pa, U pa = 0 /\ lcount L pa = 0 /\ Inv w' T' (<[key a va := map_desc false pa flags]> L) U /\
         forall j, 0 <= j < PAGE_SIZE -> page_byte w' pa j = 0
    else (alloc_zero_page w).1 = 0 /\ Inv w' T' L U \/
         exists pa, pa <> 0 /\ U pa = 0 /\ lcount L pa = 0 /\ Inv w' T' L (fun q => U q + one pa q).
Proof.
  intros HI Has Hn E. destruct (inv_alloc_page w w' T L U a as_ va flags b HI Has Hn E) as (T' & [Hs _] & Hk & Hb).
  exists T'. split; [done|]. split; [done|]. destruct b; [|done]. destruct Hb as (pa & _ & Hb). by exists pa.
Qed.

Lemma vmm_alloc_page_correct_witness :
  exists b w', vmm_alloc_page as1 (uva + 0x1000) rw m6 = (b, w') /\ same_cfg m6 w'.
Proof.
  destruct sample_inv as (T & L & U & HI & A1 & _ & _ & _ & _ & _ & HL).
  assert (L !! key 1 (uva + 0x1000) = None) as Hn.
  { apply HL; intros E; apply key_eq in E as [E1 E2]; [revert E2|revert E1]; vm_compute; discriminate. }
  destruct (vmm_alloc_page as1 (uva + 0x1000) rw m6) as [b w'] eqn:E. exists b, w'. split; [reflexivity|].
  destruct (vmm_alloc_page_correct m6 w' T L U 1 as1 (uva + 0x1000) rw b HI A1 Hn E) as (T' & _ & Hk & _). exact (proj1 Hk).
Defined.
