(* ===== verification/Ramfs.v ===== *)
(** The RAM file system ([kernel/src/ramfs.c]): the tree of nodes behind
    [/dev], [/proc], [/sys], [/tmp], [/run] and memory files.

    [struct ramfs] and the statics of the file are one [state]. The node array
    and the table of backing pages are functions of the index; the bytes of a
    file live in kernel memory at the [data] pointers of its backing pages, and
    the pages come from the allocator of [Pmm]. A [const char *] into a path is
    the rest of that string and [int] results below zero are failures, as in
    the source. The code after [#else] of [__STDC_HOSTED__] is the one modelled.
    Loops along the page chains run on fuel, [None] being out of fuel. *)

From stdpp Require Import base numbers list option.
From Stdlib Require Import ZArith Lia String Ascii.
From S2P Require Import Prelude Mem Pmm Vmm.
Import Mem Kstr Pmm Vmm.

Open Scope string_scope.
Open Scope char_scope.
Open Scope list_scope.
Open Scope Z_scope.
Open Scope c_scope.

Module Ramfs.

Definition RAMFS_MAX_NODES : Z := 512.
Definition RAMFS_NAME_MAX : nat := 255.
Definition RAMFS_PAGE_SIZE : Z := 4096.
Definition RAMFS_INITIAL_BACKING_PAGES : Z := 256.
Definition RAMFS_MAX_BACKING_PAGES : Z := (4 * 1024 * 1024 * 1024) / RAMFS_PAGE_SIZE.
Definition RAMFS_F_SEAL_SEAL : Z := 0x0001.
Definition RAMFS_F_SEAL_SHRINK : Z := 0x0002.
Definition RAMFS_F_SEAL_GROW : Z := 0x0004.
Definition RAMFS_F_SEAL_WRITE : Z := 0x0008.
Definition RAMFS_F_SEAL_FUTURE_WRITE : Z := 0x0010.
Definition RAMFS_F_SEAL_MASK : Z := 0x001f.
Definition RAMFS_MAX_FILE_SIZE : Z := UINT32_MAX * RAMFS_PAGE_SIZE.
Definition SPORE_BOOT_CPU_MAX : Z := 64.
Definition CELL_PTY_CAP : nat := 16.
#[global] Arguments RAMFS_NAME_MAX : simpl never.

(** The octal permission and type constants of the source are written in
    hexadecimal: 0777 is [0x1ff], 0666 [0x1b6], 0444 [0x124], 0660 [0x1b0],
    07777 [0xfff], 0040000 [0x4000], 0010000 [0x1000], 0140000 [0xc000] and
    0170000 [0xf000]. *)

Inductive ramfs_mount :=
| RAMFS_MOUNT_RAM0 | RAMFS_MOUNT_DEV | RAMFS_MOUNT_PROC | RAMFS_MOUNT_SYS | RAMFS_MOUNT_TMP | RAMFS_MOUNT_RUN.

Inductive ramfs_device :=
| RAMFS_DEV_NONE | RAMFS_DEV_NULL | RAMFS_DEV_ZERO | RAMFS_DEV_FULL | RAMFS_DEV_RANDOM | RAMFS_DEV_URANDOM
| RAMFS_DEV_CONSOLE | RAMFS_DEV_TTY | RAMFS_DEV_PTMX | RAMFS_DEV_PTS | RAMFS_DEV_PROCINFO | RAMFS_DEV_MEMINFO
| RAMFS_DEV_CPUINFO | RAMFS_DEV_UPTIME | RAMFS_DEV_LOADAVG | RAMFS_DEV_MOUNTS | RAMFS_DEV_STAT
| RAMFS_DEV_NET_DEV | RAMFS_DEV_KMSG | RAMFS_DEV_FILESYSTEMS | RAMFS_DEV_PARTITIONS | RAMFS_DEV_DEVICES
| RAMFS_DEV_FSSTATS | RAMFS_DEV_PROC_PID_STAT | RAMFS_DEV_PROC_PID_STATUS | RAMFS_DEV_PROC_PID_CMDLINE
| RAMFS_DEV_PROC_PID_STATM | RAMFS_DEV_PROC_PID_COMM | RAMFS_DEV_PROC_PID_MOUNTS | RAMFS_DEV_PROC_PID_CWD
| RAMFS_DEV_PROC_PID_EXE | RAMFS_DEV_PROC_PID_FD | RAMFS_DEV_FS_ROOT | RAMFS_DEV_FS_BOOT | RAMFS_DEV_FS_RAM0
| RAMFS_DEV_FS_TMP | RAMFS_DEV_SYS_CPU_POSSIBLE | RAMFS_DEV_SYS_CPU_PRESENT | RAMFS_DEV_SYS_CPU_ONLINE
| RAMFS_DEV_SYS_CPU_CORE_ONLINE | RAMFS_DEV_BLK_ROOT | RAMFS_DEV_BLK_BOOT.

#[export] Instance ramfs_mount_eq_dec : EqDecision ramfs_mount.
Proof. solve_decision. Defined.

#[export] Instance ramfs_device_eq_dec : EqDecision ramfs_device.
Proof. solve_decision. Defined.

Record ramfs_mem_node := mk_node {
  used : bool;
  is_dir : bool;
  writable : bool;
  mount : ramfs_mount;
  device : ramfs_device;
  mode : Z;
  uid : Z;
  gid : Z;
  refs : Z;
  seals : Z;
  shared_write_mappings : Z;
  sealable : bool;
  first_page : Z;
  parent : Z;
  name : string;
  ro_data : Z;
  size : Z;
  ino : Z;
  atime : Z;
  ctime : Z;
  mtime : Z;
}.

Definition zeroed : ramfs_mem_node :=
  mk_node false false false RAMFS_MOUNT_RAM0 RAMFS_DEV_NONE 0 0 0 0 0 0 false 0 0 EmptyString 0 0 0 0 0 0.

(** [(struct ramfs_mem_node){.parent = -1, .first_page = -1}]. *)
Definition blank : ramfs_mem_node :=
  mk_node false false false RAMFS_MOUNT_RAM0 RAMFS_DEV_NONE 0 0 0 0 0 0 false (-1) (-1) EmptyString 0 0 0 0 0 0.

(** Assignments to the fields of a node. *)
Definition set_dir (v : bool) (n : ramfs_mem_node) : ramfs_mem_node :=
  mk_node (used n) v (writable n) (mount n) (device n) (mode n) (uid n) (gid n) (refs n) (seals n)
    (shared_write_mappings n) (sealable n) (first_page n) (parent n) (name n) (ro_data n) (size n) (ino n) (atime n) (ctime n) (mtime n).
Definition set_writable (v : bool) (n : ramfs_mem_node) : ramfs_mem_node :=
  mk_node (used n) (is_dir n) v (mount n) (device n) (mode n) (uid n) (gid n) (refs n) (seals n)
    (shared_write_mappings n) (sealable n) (first_page n) (parent n) (name n) (ro_data n) (size n) (ino n) (atime n) (ctime n) (mtime n).
Definition set_mount_of (v : ramfs_mount) (n : ramfs_mem_node) : ramfs_mem_node :=
  mk_node (used n) (is_dir n) (writable n) v (device n) (mode n) (uid n) (gid n) (refs n) (seals n)
    (shared_write_mappings n) (sealable n) (first_page n) (parent n) (name n) (ro_data n) (size n) (ino n) (atime n) (ctime n) (mtime n).
Definition set_device (v : ramfs_device) (n : ramfs_mem_node) : ramfs_mem_node :=
  mk_node (used n) (is_dir n) (writable n) (mount n) v (mode n) (uid n) (gid n) (refs n) (seals n)
    (shared_write_mappings n) (sealable n) (first_page n) (parent n) (name n) (ro_data n) (size n) (ino n) (atime n) (ctime n) (mtime n).
Definition set_mode (v : Z) (n : ramfs_mem_node) : ramfs_mem_node :=
  mk_node (used n) (is_dir n) (writable n) (mount n) (device n) v (uid n) (gid n) (refs n) (seals n)
    (shared_write_mappings n) (sealable n) (first_page n) (parent n) (name n) (ro_data n) (size n) (ino n) (atime n) (ctime n) (mtime n).
Definition set_owner (u g : Z) (n : ramfs_mem_node) : ramfs_mem_node :=
  mk_node (used n) (is_dir n) (writable n) (mount n) (device n) (mode n) u g (refs n) (seals n)
    (shared_write_mappings n) (sealable n) (first_page n) (parent n) (name n) (ro_data n) (size n) (ino n) (atime n) (ctime n) (mtime n).
Definition set_refs (v : Z) (n : ramfs_mem_node) : ramfs_mem_node :=
  mk_node (used n) (is_dir n) (writable n) (mount n) (device n) (mode n) (uid n) (gid n) v (seals n)
    (shared_write_mappings n) (sealable n) (first_page n) (parent n) (name n) (ro_data n) (size n) (ino n) (atime n) (ctime n) (mtime n).
Definition set_seals (b : bool) (v : Z) (n : ramfs_mem_node) : ramfs_mem_node :=
  mk_node (used n) (is_dir n) (writable n) (mount n) (device n) (mode n) (uid n) (gid n) (refs n) v
    (shared_write_mappings n) b (first_page n) (parent n) (name n) (ro_data n) (size n) (ino n) (atime n) (ctime n) (mtime n).
Definition set_shared (v : Z) (n : ramfs_mem_node) : ramfs_mem_node :=
  mk_node (used n) (is_dir n) (writable n) (mount n) (device n) (mode n) (uid n) (gid n) (refs n) (seals n)
    v (sealable n) (first_page n) (parent n) (name n) (ro_data n) (size n) (ino n) (atime n) (ctime n) (mtime n).
Definition set_first_page (v : Z) (n : ramfs_mem_node) : ramfs_mem_node :=
  mk_node (used n) (is_dir n) (writable n) (mount n) (device n) (mode n) (uid n) (gid n) (refs n) (seals n)
    (shared_write_mappings n) (sealable n) v (parent n) (name n) (ro_data n) (size n) (ino n) (atime n) (ctime n) (mtime n).
Definition set_parent (v : Z) (n : ramfs_mem_node) : ramfs_mem_node :=
  mk_node (used n) (is_dir n) (writable n) (mount n) (device n) (mode n) (uid n) (gid n) (refs n) (seals n)
    (shared_write_mappings n) (sealable n) (first_page n) v (name n) (ro_data n) (size n) (ino n) (atime n) (ctime n) (mtime n).
Definition set_name (v : string) (n : ramfs_mem_node) : ramfs_mem_node :=
  mk_node (used n) (is_dir n) (writable n) (mount n) (device n) (mode n) (uid n) (gid n) (refs n) (seals n)
    (shared_write_mappings n) (sealable n) (first_page n) (parent n) v (ro_data n) (size n) (ino n) (atime n) (ctime n) (mtime n).
Definition set_ro_data (v : Z) (n : ramfs_mem_node) : ramfs_mem_node :=
  mk_node (used n) (is_dir n) (writable n) (mount n) (device n) (mode n) (uid n) (gid n) (refs n) (seals n)
    (shared_write_mappings n) (sealable n) (first_page n) (parent n) (name n) v (size n) (ino n) (atime n) (ctime n) (mtime n).
Definition set_size (v : Z) (n : ramfs_mem_node) : ramfs_mem_node :=
  mk_node (used n) (is_dir n) (writable n) (mount n) (device n) (mode n) (uid n) (gid n) (refs n) (seals n)
    (shared_write_mappings n) (sealable n) (first_page n) (parent n) (name n) (ro_data n) v (ino n) (atime n) (ctime n) (mtime n).
Definition set_atime (v : Z) (n : ramfs_mem_node) : ramfs_mem_node :=
  mk_node (used n) (is_dir n) (writable n) (mount n) (device n) (mode n) (uid n) (gid n) (refs n) (seals n)
    (shared_write_mappings n) (sealable n) (first_page n) (parent n) (name n) (ro_data n) (size n) (ino n) v (ctime n) (mtime n).
Definition set_ctime (v : Z) (n : ramfs_mem_node) : ramfs_mem_node :=
  mk_node (used n) (is_dir n) (writable n) (mount n) (device n) (mode n) (uid n) (gid n) (refs n) (seals n)
    (shared_write_mappings n) (sealable n) (first_page n) (parent n) (name n) (ro_data n) (size n) (ino n) (atime n) v (mtime n).
Definition set_mtime (v : Z) (n : ramfs_mem_node) : ramfs_mem_node :=
  mk_node (used n) (is_dir n) (writable n) (mount n) (device n) (mode n) (uid n) (gid n) (refs n) (seals n)
    (shared_write_mappings n) (sealable n) (first_page n) (parent n) (name n) (ro_data n) (size n) (ino n) (atime n) (ctime n) v.

Record ramfs_backing_page := mk_backing {
  bp_used : bool;
  next : Z;
  free_next : Z;
  owner : Z;
  file_page : Z;
  pa : Z;
  data : Z;
}.

(** [sizeof(struct ramfs_backing_page)] under the AArch64 ABI. *)
Definition sizeof_backing_page : Z := 40.

Definition zero_backing : ramfs_backing_page := mk_backing false 0 0 0 0 0 0.

Definition set_next (v : Z) (b : ramfs_backing_page) : ramfs_backing_page :=
  mk_backing (bp_used b) v (free_next b) (owner b) (file_page b) (pa b) (data b).

(** [struct ramfs], the statics of [ramfs.c] ([backing_table] is the address in
    [backing_pages], 0 for [NULL]) and the machine. *)
Record state := mk_state {
  nodes : Z -> ramfs_mem_node;
  hhdm_offset : Z;
  next_ino : Z;
  backing_pages : Z -> ramfs_backing_page;
  backing_table : Z;
  backing_page_capacity : Z;
  backing_page_used_count : Z;
  backing_page_free_head : Z;
  ramfs_hhdm_offset : Z;
  ramfs_now_sec : Z;
  kernel : machine;
}.

Definition upd {A} (f : Z -> A) (i : Z) (v : A) : Z -> A := fun j => if j =? i then v else f j.

Definition put_nodes (s : state) (f : Z -> ramfs_mem_node) : state :=
  mk_state f (hhdm_offset s) (next_ino s) (backing_pages s) (backing_table s) (backing_page_capacity s)
    (backing_page_used_count s) (backing_page_free_head s) (ramfs_hhdm_offset s) (ramfs_now_sec s) (kernel s).

(** [fs->nodes[i].field = ...]. *)
Definition on_node (i : Z) (f : ramfs_mem_node -> ramfs_mem_node) (s : state) : state :=
  put_nodes s (upd (nodes s) i (f (nodes s i))).

Definition put_slots (s : state) (f : Z -> ramfs_backing_page) : state :=
  mk_state (nodes s) (hhdm_offset s) (next_ino s) f (backing_table s) (backing_page_capacity s)
    (backing_page_used_count s) (backing_page_free_head s) (ramfs_hhdm_offset s) (ramfs_now_sec s) (kernel s).

Definition put_slot (i : Z) (b : ramfs_backing_page) (s : state) : state :=
  put_slots s (upd (backing_pages s) i b).

Definition put_free_head (v : Z) (s : state) : state :=
  mk_state (nodes s) (hhdm_offset s) (next_ino s) (backing_pages s) (backing_table s) (backing_page_capacity s)
    (backing_page_used_count s) v (ramfs_hhdm_offset s) (ramfs_now_sec s) (kernel s).

Definition put_used_count (v : Z) (s : state) : state :=
  mk_state (nodes s) (hhdm_offset s) (next_ino s) (backing_pages s) (backing_table s) (backing_page_capacity s)
    v (backing_page_free_head s) (ramfs_hhdm_offset s) (ramfs_now_sec s) (kernel s).

Definition put_table (f : Z -> ramfs_backing_page) (table capacity : Z) (s : state) : state :=
  mk_state (nodes s) (hhdm_offset s) (next_ino s) f table capacity
    (backing_page_used_count s) (backing_page_free_head s) (ramfs_hhdm_offset s) (ramfs_now_sec s) (kernel s).

Definition put_kernel (s : state) (w : machine) : state :=
  mk_state (nodes s) (hhdm_offset s) (next_ino s) (backing_pages s) (backing_table s) (backing_page_capacity s)
    (backing_page_used_count s) (backing_page_free_head s) (ramfs_hhdm_offset s) (ramfs_now_sec s) w.

Definition put_memory (s : state) (m : kmem) : state := put_kernel s (put_mem (kernel s) m).
Definition memory (s : state) : kmem := m_mem (kernel s).

Definition ramfs_set_now (epoch_sec : Z) (s : state) : state :=
  mk_state (nodes s) (hhdm_offset s) (next_ino s) (backing_pages s) (backing_table s) (backing_page_capacity s)
    (backing_page_used_count s) (backing_page_free_head s) (ramfs_hhdm_offset s) epoch_sec (kernel s).

(** ** Names *)

Fixpoint streq (a b : string) : bool :=
  match a, b with
  | String x a', String y b' => if negb (Ascii.eqb x y) then false else streq a' b'
  | EmptyString, EmptyString => true
  | _, _ => false
  end.

(** The result and the array after the call, whose last byte is the NUL the node
    was zeroed with. *)
Definition copy_name (src : string) : bool * string :=
  let dst := copy_loop RAMFS_NAME_MAX src in
  (Ascii.eqb (char_at src (kstrlen dst)) "000", dst).

Fixpoint last_component_loop (p name : string) : string :=
  match p with
  | EmptyString => name
  | String c p' => last_component_loop p' (if Ascii.eqb c "/" && nonempty p' then p' else name)
  end.

Definition last_component (path : string) : string := last_component_loop path path.

(** ** Backing pages *)

Definition node_range : nat := Z.to_nat RAMFS_MAX_NODES.

(** The first node with [p], as the scanning loops find it; -1 if there is none. *)
Definition first_node (p : Z -> bool) : Z :=
  match first_from (fun k => p (Z.of_nat k)) 0 node_range with Some k => Z.of_nat k | None => -1 end.

Definition alloc_node (s : state) : Z * state :=
  let i := first_node (fun i => negb (used (nodes s i))) in
  if i <? 0 then (-1, s) else
  let now := ramfs_now_sec s in
  let n := mk_node true false false RAMFS_MOUNT_RAM0 RAMFS_DEV_NONE 0 0 0 0 0 0 false (-1) (-1) EmptyString 0 0
             (next_ino s) now now now in
  (i, mk_state (upd (nodes s) i n) (hhdm_offset s) (u64 (next_ino s + 1)) (backing_pages s) (backing_table s)
        (backing_page_capacity s) (backing_page_used_count s) (backing_page_free_head s) (ramfs_hhdm_offset s) now
        (kernel s)).

Definition free_backing_data (b : ramfs_backing_page) (s : state) : state :=
  if data b =? 0 then s else
  if negb (pa b =? 0) then put_kernel s (free_page (pa b) (kernel s)) else s.

Definition alloc_backing_data (slot : Z) (s : state) : bool * state :=
  let '(p, w) := alloc_zero_page (kernel s) in
  let s := put_kernel s w in
  if p =? 0 then (false, s) else
  let b := backing_pages s slot in
  (true, put_slot slot (mk_backing (bp_used b) (next b) (free_next b) (owner b) (file_page b) p
                          (u64 (hhdm_offset s + p))) s).

Definition table_pages (capacity : Z) : Z :=
  u64 (u64 (capacity * sizeof_backing_page) + RAMFS_PAGE_SIZE - 1) / RAMFS_PAGE_SIZE.

(** The address of the zeroed table, 0 for [NULL]. *)
Definition alloc_backing_table (capacity : Z) (s : state) : Z * state :=
  let pages := table_pages capacity in
  let '(p, m) := pmm_alloc_contiguous_pages (m_pmm (kernel s)) pages in
  let s := put_kernel s (put_pmm (kernel s) m) in
  if p =? 0 then (0, s) else
  let ptr := u64 (ramfs_hhdm_offset s + p) in
  (ptr, put_memory s (kmemset (memory s) ptr 0 (u64 (pages * RAMFS_PAGE_SIZE)))).

Fixpoint free_pages_from (n : nat) (p : Z) (w : machine) : machine :=
  match n with
  | O => w
  | S n' => free_pages_from n' (u64 (p + RAMFS_PAGE_SIZE)) (free_page p w)
  end.

Definition free_backing_table (ptr capacity : Z) (s : state) : state :=
  if ptr =? 0 then s else
  put_kernel s (free_pages_from (Z.to_nat (table_pages capacity)) (u64 (ptr - ramfs_hhdm_offset s)) (kernel s)).

Fixpoint init_backing_range (n : nat) (index : Z) (s : state) : state :=
  match n with
  | O => s
  | S n' =>
      let b := backing_pages s index in
      let s := put_slot index (mk_backing (bp_used b) (-1) (backing_page_free_head s) (-1) (file_page b) (pa b) (data b)) s in
      init_backing_range n' (index + 1) (put_free_head index s)
  end.

Definition grow_backing_pages (s : state) : bool * state :=
  let old_capacity := backing_page_capacity s in
  let new_capacity := if old_capacity =? 0 then RAMFS_INITIAL_BACKING_PAGES else u64 (old_capacity * 2) in
  let new_capacity := if (new_capacity <=? old_capacity) || (RAMFS_MAX_BACKING_PAGES <? new_capacity)
                      then RAMFS_MAX_BACKING_PAGES else new_capacity in
  if new_capacity <=? old_capacity then (false, s) else
  let '(new_pages, s) := alloc_backing_table new_capacity s in
  if new_pages =? 0 then (false, s) else
  let old_pages := backing_table s in
  let contents := fun i => if negb (old_pages =? 0) && (i <? old_capacity) then backing_pages s i else zero_backing in
  let s := put_table contents new_pages new_capacity s in
  let s := init_backing_range (Z.to_nat (new_capacity - old_capacity)) old_capacity s in
  (true, free_backing_table old_pages old_capacity s).

Definition alloc_backing_slot (s : state) : Z * state :=
  let '(ok, s) := if backing_page_free_head s <? 0 then grow_backing_pages s else (true, s) in
  if negb ok then (-1, s) else
  let slot := backing_page_free_head s in
  let s := put_free_head (free_next (backing_pages s slot)) s in
  let s := put_slot slot (mk_backing true (-1) (-1) (-1) 0 0 0) s in
  (slot, put_used_count (u64 (backing_page_used_count s + 1)) s).

Definition free_backing_slot (slot : Z) (s : state) : state :=
  if (slot <? 0) || (backing_page_capacity s <=? slot) || negb (bp_used (backing_pages s slot)) then s else
  let s := free_backing_data (backing_pages s slot) s in
  let s := put_slot slot (mk_backing false (-1) (backing_page_free_head s) (-1) 0 0 0) s in
  let s := put_free_head slot s in
  if 0 <? backing_page_used_count s then put_used_count (backing_page_used_count s - 1) s else s.

Fixpoint free_used_data (n : nat) (i : Z) (s : state) : state :=
  match n with
  | O => s
  | S n' => free_used_data n' (i + 1) (if bp_used (backing_pages s i) then free_backing_data (backing_pages s i) s else s)
  end.

Definition reset_backing_pages (s : state) : state :=
  let s := free_used_data (Z.to_nat (backing_page_capacity s)) 0 s in
  let s := free_backing_table (backing_table s) (backing_page_capacity s) s in
  put_free_head (-1) (put_used_count 0 (put_table (fun _ => zero_backing) 0 0 s)).

Definition ramfs_backing_used_pages (s : state) : Z := backing_page_used_count s.

(** A chain has at most one slot per entry of the table. *)
Definition chain_fuel (s : state) : nat := S (S (Z.to_nat (backing_page_capacity s))).

Definition find_step (s : state) (fp : Z) (slot : Z) : Z + Z :=
  if 0 <=? slot then
    if file_page (backing_pages s slot) =? fp then inr slot else inl (next (backing_pages s slot))
  else inr (-1).

Definition find_backing_page (s : state) (node fp : Z) : option Z :=
  iter (find_step s fp) (chain_fuel s) (first_page (nodes s node)).

Definition get_backing_page (node fp : Z) (create : bool) (s : state) : option (Z * state) :=
  let* found := find_backing_page s node fp in
  if (0 <=? found) || negb create then Some (found, s) else
  let '(slot, s) := alloc_backing_slot s in
  if slot <? 0 then Some (-1, s) else
  let b := backing_pages s slot in
  let s := put_slot slot (mk_backing (bp_used b) (first_page (nodes s node)) (free_next b) node fp (pa b) (data b)) s in
  let '(ok, s) := alloc_backing_data slot s in
  if negb ok then Some (-1, free_backing_slot slot s) else
  Some (slot, on_node node (set_first_page slot) s).

Definition free_step (st : Z * state) : (Z * state) + state :=
  let '(slot, s) := st in
  if 0 <=? slot then inl (next (backing_pages s slot), free_backing_slot slot s) else inr s.

Definition free_node_pages (node : Z) (s : state) : option state :=
  let slot := first_page (nodes s node) in
  iter free_step (chain_fuel s) (slot, on_node node (set_first_page (-1)) s).

Definition free_node (node : Z) (s : state) : option state :=
  let* s := free_node_pages node s in
  Some (on_node node (fun _ => blank) s).

(** ** Paths *)

Definition find_child (s : state) (parent_ : Z) (nm : string) : Z :=
  first_node (fun i => used (nodes s i) && (parent (nodes s i) =? parent_) && streq (name (nodes s i)) nm).

(** The two loops of [lookup_index]: [component] and [len] are the name read so
    far; a component ends at a separator or at the end of the path. *)
Fixpoint lookup_loop (s : state) (current : Z) (component : string) (len : nat) (p : string) : Z :=
  match p with
  | EmptyString =>
      match len with
      | O => current
      | S _ => let current := find_child s current component in if current <? 0 then -1 else current
      end
  | String c p' =>
      if Ascii.eqb c "/" then
        let current := find_child s current component in
        if current <? 0 then -1 else lookup_loop s current EmptyString 0 p'
      else if (RAMFS_NAME_MAX <=? len)%nat then -1
      else lookup_loop s current (component ++ String c EmptyString)%string (S len) p'
  end.

Definition is_root (path : string) : bool := streq path (String "/" EmptyString).

Definition lookup_index (s : state) (path : option string) : Z :=
  match path with
  | Some (String c p as path) =>
      if negb (Ascii.eqb c "/") then -1 else
      if is_root path then 0 else lookup_loop s 0 EmptyString 0 p
  | _ => -1
  end.

(** The parent's index and the name in it. *)
Definition split_parent (s : state) (path : option string) : option (Z * string) :=
  match path with
  | None => None
  | Some path =>
      if negb (Ascii.eqb (char_at path 0) "/") || is_root path then None else
      let last := last_component path in
      if Ascii.eqb (char_at last 0) "000" then None else
      let name_len := kstrlen last in
      if (name_len =? 0)%nat || (RAMFS_NAME_MAX <? name_len)%nat then None else
      let parent_len := (kstrlen path - kstrlen last)%nat in
      let parent_len := if (parent_len =? 0)%nat then 1%nat else parent_len in
      if (512 <=? parent_len)%nat then None else
      let parent_len := if (1 <? parent_len)%nat && Ascii.eqb (char_at path (parent_len - 1)) "/"
                        then (parent_len - 1)%nat else parent_len in
      let p := lookup_index s (Some (substring 0 parent_len path)) in
      if (p <? 0) || negb (is_dir (nodes s p)) then None else Some (p, last)
  end.

Definition add_node (parent_ : Z) (nm : string) (dir writable_ : bool) (s : state) : option (Z * state) :=
  if (parent_ <? 0) || negb (is_dir (nodes s parent_)) || (0 <=? find_child s parent_ nm) then Some (-1, s) else
  let '(index, s) := alloc_node s in
  if index <? 0 then Some (-1, s) else
  let '(ok, copied) := copy_name nm in
  let s := on_node index (set_name copied) s in
  if negb ok then let* s := free_node index s in Some (-1, s) else
  let s := on_node index (set_parent parent_) s in
  let s := on_node index (set_dir dir) s in
  let s := on_node index (set_writable writable_) s in
  let s := on_node index (set_mount_of (mount (nodes s parent_))) s in
  let s := on_node index (set_mode (if dir then 0x1ff else 0x1b6)) s in
  let s := on_node index (set_owner 0 0) s in
  let s := on_node parent_ (set_mtime (ramfs_now_sec s)) s in
  let s := on_node parent_ (set_ctime (ramfs_now_sec s)) s in
  Some (index, s).

(** ** The initial tree *)

Definition dev_in (ds : list ramfs_device) (d : ramfs_device) : bool := existsb (fun x => bool_decide (x = d)) ds.

Definition device_is_block (d : ramfs_device) : bool := dev_in [RAMFS_DEV_BLK_ROOT; RAMFS_DEV_BLK_BOOT] d.

Definition device_is_readonly_text (d : ramfs_device) : bool :=
  dev_in [RAMFS_DEV_FS_ROOT; RAMFS_DEV_FS_BOOT; RAMFS_DEV_FS_RAM0;
          RAMFS_DEV_FS_TMP; RAMFS_DEV_PROCINFO; RAMFS_DEV_MEMINFO;
          RAMFS_DEV_CPUINFO; RAMFS_DEV_UPTIME; RAMFS_DEV_MOUNTS;
          RAMFS_DEV_STAT; RAMFS_DEV_KMSG; RAMFS_DEV_FILESYSTEMS;
          RAMFS_DEV_PARTITIONS; RAMFS_DEV_DEVICES; RAMFS_DEV_FSSTATS;
          RAMFS_DEV_PROC_PID_STAT; RAMFS_DEV_PROC_PID_STATUS;
          RAMFS_DEV_PROC_PID_CMDLINE; RAMFS_DEV_PROC_PID_STATM;
          RAMFS_DEV_PROC_PID_COMM; RAMFS_DEV_PROC_PID_MOUNTS; RAMFS_DEV_PROC_PID_CWD;
          RAMFS_DEV_PROC_PID_EXE; RAMFS_DEV_SYS_CPU_POSSIBLE;
          RAMFS_DEV_SYS_CPU_PRESENT; RAMFS_DEV_SYS_CPU_ONLINE;
          RAMFS_DEV_SYS_CPU_CORE_ONLINE] d.

Definition set_mount (index : Z) (m : ramfs_mount) (s : state) : state :=
  if 0 <=? index then on_node index (set_mount_of m) s else s.

(** The characters up to the first separator, and the rest from it. *)
Fixpoint take_component (p : string) : string * string :=
  match p with
  | EmptyString => (EmptyString, EmptyString)
  | String c p' =>
      if Ascii.eqb c "/" then (EmptyString, p) else let '(comp, rest) := take_component p' in (String c comp, rest)
  end.

Fixpoint skip_slashes (p : string) : string :=
  match p with
  | String c p' => if Ascii.eqb c "/" then skip_slashes p' else p
  | EmptyString => EmptyString
  end.

(** One turn of the outer loop of [add_ro_file]: the directory reached, the rest
    of the path and the state. The loop ends with the directory and the name to
    add, or with failure. *)
Definition ro_step (st : Z * string * string * state) :
    (Z * string * string * state) + option (option (Z * string) * state) :=
  let '(parent_, p, nm, s) := st in
  match p with
  | EmptyString => inr (Some (Some (parent_, nm), s))
  | _ =>
      let start := p in
      let '(component, p) := take_component p in
      let len := kstrlen component in
      if (len =? 0)%nat || (RAMFS_NAME_MAX <? len)%nat then inr (Some (None, s)) else
      let p := skip_slashes p in
      match p with
      | EmptyString => inr (Some (Some (parent_, start), s))
      | _ =>
          let found := find_child s parent_ component in
          match (if found <? 0 then add_node parent_ component true true s else Some (found, s)) with
          | None => inr None
          | Some (nx, s) =>
              if nx <? 0 then inr (Some (None, s)) else
              if negb (is_dir (nodes s nx)) then inr (Some (None, s)) else inl (nx, p, nm, s)
          end
      end
  end.

Definition add_ro_file (path : option string) (data_ size_ : Z) (s : state) : option (bool * state) :=
  match path with
  | Some (String c (String _ _ as p)) =>
      if negb (Ascii.eqb c "/") then Some (false, s) else
      let* r := iter ro_step (S (kstrlen p)) (0, p, p, s) in
      let* (dest, s) := r in
      match dest with
      | None => Some (false, s)
      | Some (parent_, nm) =>
          let* (index, s) := add_node parent_ nm false false s in
          if index <? 0 then Some (false, s) else
          let s := on_node index (set_ro_data data_) s in
          let s := on_node index (set_size size_) s in
          Some (true, on_node index (set_mode 0x124) s)
      end
  | _ => Some (false, s)
  end.

Definition add_device (path : string) (d : ramfs_device) (s : state) : option (bool * state) :=
  match split_parent s (Some path) with
  | None => Some (false, s)
  | Some (parent_, nm) =>
      let* (index, s) := add_node parent_ nm false false s in
      if index <? 0 then Some (false, s) else
      let s := on_node index (set_device d) s in
      Some (true, on_node index
                    (set_mode (if device_is_block d then 0x1b0 else if device_is_readonly_text d then 0x124 else 0x1b6)) s)
  end.

(** [tmp] from its first digit written, the least significant. *)
Fixpoint dec_digits (room : nat) (value : Z) : list ascii :=
  match room with
  | O => []
  | S room' =>
      if value =? 0 then [] else
      ascii_of_N (Z.to_N (48 + value mod 10)) :: dec_digits room' (value / 10)
  end.

Fixpoint append_loop (dst : string) (cap : nat) (len : nat) (tmp : list ascii) : string :=
  match tmp with
  | [] => dst
  | c :: tmp' =>
      if (len + 1 <? cap)%nat then append_loop (dst ++ String c EmptyString)%string cap (S len) tmp' else dst
  end.

(** The string at [dst] after the call, [len] being its length before; the
    result of the call is its new length. *)
Definition append_dec (dst : string) (cap : nat) (value : Z) : string :=
  let tmp := if value =? 0 then ["0"] else dec_digits 20 value in
  append_loop dst cap (kstrlen dst) (rev tmp).

Definition ensure_child_dir (parent_ : Z) (nm : string) (s : state) : option (Z * state) :=
  let index := find_child s parent_ nm in
  if 0 <=? index then Some (if is_dir (nodes s index) then index else -1, s)
  else add_node parent_ nm true true s.

Local Notation "'do' s <- m ; k" := (obind m (fun r => let '(_, s) := r in k))
  (at level 10, s name, m at level 100, k at level 200).

(** The loop over the CPUs with [n] of them left. *)
Fixpoint add_cpus (n : nat) (cpu cpu_root : Z) (s : state) : option state :=
  match n with
  | O => Some s
  | S n' =>
      let path := append_dec "/sys/devices/system/cpu/cpu" 96 cpu in
      let nm := drop_str 24 path in
      let* (dir, s) := ensure_child_dir cpu_root nm s in
      if dir <? 0 then add_cpus n' (cpu + 1) cpu_root s else
      let path := append_loop path 96 (kstrlen path) (list_ascii_of_string "/online") in
      do s <- add_device path RAMFS_DEV_SYS_CPU_CORE_ONLINE s;
      add_cpus n' (cpu + 1) cpu_root s
  end.

(** [possible] is what [smp_possible_cpu_count] returns. *)
Definition add_sys_cpu_topology (possible : Z) (s : state) : option state :=
  let possible := if possible =? 0 then 1 else possible in
  let possible := if SPORE_BOOT_CPU_MAX <? possible then SPORE_BOOT_CPU_MAX else possible in
  let sys := lookup_index s (Some "/sys"%string) in
  if sys <? 0 then Some s else
  let* (devices, s) := ensure_child_dir sys "devices" s in
  let* (system, s) := ensure_child_dir devices "system" s in
  let* (cpu_root, s) := ensure_child_dir system "cpu" s in
  if cpu_root <? 0 then Some s else
  do s <- add_device "/sys/devices/system/cpu/possible" RAMFS_DEV_SYS_CPU_POSSIBLE s;
  do s <- add_device "/sys/devices/system/cpu/present" RAMFS_DEV_SYS_CPU_PRESENT s;
  do s <- add_device "/sys/devices/system/cpu/online" RAMFS_DEV_SYS_CPU_ONLINE s;
  add_cpus (Z.to_nat possible) 0 cpu_root s.

Fixpoint add_devices (ds : list (string * ramfs_device)) (s : state) : option state :=
  match ds with
  | [] => Some s
  | (path, d) :: ds' => do s <- add_device path d s; add_devices ds' s
  end.

Definition tty_devices : list (string * ramfs_device) :=
  [("/dev/null", RAMFS_DEV_NULL); ("/dev/zero", RAMFS_DEV_ZERO); ("/dev/full", RAMFS_DEV_FULL);
   ("/dev/random", RAMFS_DEV_RANDOM); ("/dev/urandom", RAMFS_DEV_URANDOM); ("/dev/console", RAMFS_DEV_CONSOLE);
   ("/dev/tty", RAMFS_DEV_TTY); ("/dev/ttys0", RAMFS_DEV_TTY); ("/dev/ptmx", RAMFS_DEV_PTMX)]%string.

Definition pts_devices : list (string * ramfs_device) :=
  map (fun pty => (append_dec "/dev/pts/" 32 (Z.of_nat pty), RAMFS_DEV_PTS)) (seq 0 CELL_PTY_CAP).

Definition text_devices : list (string * ramfs_device) :=
  [("/dev/procinfo", RAMFS_DEV_PROCINFO); ("/dev/fs/root", RAMFS_DEV_FS_ROOT); ("/dev/fs/boot", RAMFS_DEV_FS_BOOT);
   ("/dev/fs/ram0", RAMFS_DEV_FS_RAM0); ("/dev/fs/tmp", RAMFS_DEV_FS_TMP); ("/dev/blk/root", RAMFS_DEV_BLK_ROOT);
   ("/dev/blk/boot", RAMFS_DEV_BLK_BOOT); ("/proc/procinfo", RAMFS_DEV_PROCINFO); ("/proc/meminfo", RAMFS_DEV_MEMINFO);
   ("/proc/cpuinfo", RAMFS_DEV_CPUINFO); ("/proc/uptime", RAMFS_DEV_UPTIME); ("/proc/loadavg", RAMFS_DEV_LOADAVG);
   ("/proc/mounts", RAMFS_DEV_MOUNTS); ("/proc/stat", RAMFS_DEV_STAT); ("/proc/net/dev", RAMFS_DEV_NET_DEV);
   ("/proc/kmsg", RAMFS_DEV_KMSG); ("/proc/filesystems", RAMFS_DEV_FILESYSTEMS);
   ("/proc/partitions", RAMFS_DEV_PARTITIONS); ("/proc/devices", RAMFS_DEV_DEVICES);
   ("/proc/fsstats", RAMFS_DEV_FSSTATS)]%string.

Record spore_boot_module := mk_module {
  phys_addr : Z;
  mod_size : Z;
  mod_path : string;
}.

Fixpoint add_modules (ms : list spore_boot_module) (hhdm : Z) (s : state) : option state :=
  match ms with
  | [] => Some s
  | m :: ms' =>
      if Ascii.eqb (char_at (mod_path m) 0) "/" then
        do s <- add_ro_file (Some (mod_path m)) (u64 (hhdm + phys_addr m)) (mod_size m) s;
        add_modules ms' hhdm s
      else add_modules ms' hhdm s
  end.

(** [modules = NULL] is the empty list. *)
Definition ramfs_init (possible : Z) (modules : list spore_boot_module) (hhdm : Z) (s : state) : option state :=
  let s := mk_state (fun _ => zeroed) 0 0 (backing_pages s) (backing_table s) (backing_page_capacity s)
             (backing_page_used_count s) (backing_page_free_head s) hhdm (ramfs_now_sec s) (kernel s) in
  let s := reset_backing_pages s in
  let s := mk_state (nodes s) hhdm 1 (backing_pages s) (backing_table s) (backing_page_capacity s)
             (backing_page_used_count s) (backing_page_free_head s) hhdm (ramfs_now_sec s) (kernel s) in
  let '(root, s) := alloc_node s in
  let s := on_node root (set_dir true) s in
  let s := on_node root (set_parent root) s in
  let s := on_node root (set_mount_of RAMFS_MOUNT_RAM0) s in
  let s := on_node root (set_name (snd (copy_name EmptyString))) s in
  let* (dev, s) := add_node root "dev" true true s in
  let* (proc, s) := add_node root "proc" true true s in
  let* (sys, s) := add_node root "sys" true true s in
  let* (tmp, s) := add_node root "tmp" true true s in
  let* (run, s) := add_node root "run" true true s in
  let s := set_mount dev RAMFS_MOUNT_DEV s in
  let s := set_mount proc RAMFS_MOUNT_PROC s in
  let s := set_mount sys RAMFS_MOUNT_SYS s in
  let s := set_mount tmp RAMFS_MOUNT_TMP s in
  let s := set_mount run RAMFS_MOUNT_RUN s in
  do s <- add_node dev "fs" true true s;
  do s <- add_node dev "blk" true true s;
  do s <- add_node dev "shm" true true s;
  do s <- add_node dev "pts" true true s;
  do s <- add_node run "memfd" true true s;
  do s <- add_node proc "net" true true s;
  let* s := add_sys_cpu_topology possible s in
  let* s := add_devices tty_devices s in
  let* s := add_devices pts_devices s in
  let* s := add_devices text_devices s in
  add_modules modules hhdm s.

(** ** Nodes and references *)

Record ramfs_file := mk_file {
  file_path : option string;
  file_data : Z;
  file_size : Z;
}.

Definition no_device (n : ramfs_mem_node) : bool := bool_decide (device n = RAMFS_DEV_NONE).

Definition ramfs_lookup (s : state) (path : option string) : option ramfs_file :=
  let index := lookup_index s path in
  if (index <? 0) || is_dir (nodes s index) || negb (no_device (nodes s index)) then None else
  Some (mk_file path (if writable (nodes s index) then 0 else ro_data (nodes s index)) (size (nodes s index))).

(** [struct ramfs_node]; its [fs] is the state. *)
Record ramfs_node := mk_ramfs_node {
  rn_index : Z;
  rn_name : string;
  rn_data : Z;
  rn_size : Z;
  rn_ino : Z;
  rn_is_dir : bool;
  rn_mount : ramfs_mount;
  rn_device : ramfs_device;
  rn_mode : Z;
  rn_uid : Z;
  rn_gid : Z;
  rn_seals : Z;
  rn_shared_write_mappings : Z;
  rn_sealable : bool;
  rn_atime : Z;
  rn_ctime : Z;
  rn_mtime : Z;
}.

(** The guard the operations on an index share. *)
Definition live (s : state) (index : Z) : bool :=
  negb ((index <? 0) || (RAMFS_MAX_NODES <=? index) || negb (used (nodes s index))).

Definition ramfs_refresh_node (s : state) (index : Z) : option ramfs_node :=
  if negb (live s index) then None else
  let n := nodes s index in
  Some (mk_ramfs_node index (if index =? 0 then "/"%string else name n) (if writable n then 0 else ro_data n) (size n)
          (ino n) (is_dir n) (mount n) (device n) (mode n) (uid n) (gid n) (seals n) (shared_write_mappings n)
          (sealable n) (atime n) (ctime n) (mtime n)).

Definition ramfs_retain_node (index : Z) (s : state) : bool * state :=
  if negb (live s index) then (false, s) else (true, on_node index (set_refs (u32 (refs (nodes s index) + 1))) s).

Definition ramfs_release_node (index : Z) (s : state) : option state :=
  if negb (live s index) || (refs (nodes s index) =? 0) then Some s else
  let s := on_node index (set_refs (refs (nodes s index) - 1)) s in
  if (refs (nodes s index) =? 0) && (parent (nodes s index) <? 0) && negb (index =? 0) then free_node index s
  else Some s.

Definition ramfs_set_sealable (index : Z) (allow_sealing : bool) (s : state) : bool * state :=
  if negb (live s index) || is_dir (nodes s index) || negb (no_device (nodes s index)) then (false, s) else
  let s := on_node index (set_seals true (if allow_sealing then 0 else RAMFS_F_SEAL_SEAL)) s in
  (true, on_node index (set_ctime (ramfs_now_sec s)) s).

Definition ramfs_add_seals (index new : Z) (s : state) : Z * state :=
  if negb (live s index) || negb (sealable (nodes s index)) || negb (new .& not32 RAMFS_F_SEAL_MASK =? 0)
  then (-22, s) else
  let n := nodes s index in
  if has (seals n) RAMFS_F_SEAL_SEAL then (-1, s) else
  if has new RAMFS_F_SEAL_WRITE && negb (shared_write_mappings n =? 0) then (-16, s) else
  let s := on_node index (set_seals (sealable n) (seals n .| new)) s in
  (0, on_node index (set_ctime (ramfs_now_sec s)) s).

Definition ramfs_get_seals (s : state) (index : Z) : Z :=
  if negb (live s index) || negb (sealable (nodes s index)) then -22 else seals (nodes s index).

Definition ramfs_write_sealed (s : state) (index : Z) : bool :=
  if negb (live s index) then false
  else has (seals (nodes s index)) (RAMFS_F_SEAL_WRITE .| RAMFS_F_SEAL_FUTURE_WRITE).

Definition ramfs_truncate_sealed (s : state) (index new_size : Z) : bool :=
  if negb (live s index) then false else
  let sl := seals (nodes s index) in
  (new_size <? size (nodes s index)) && has sl RAMFS_F_SEAL_SHRINK ||
  (size (nodes s index) <? new_size) && has sl RAMFS_F_SEAL_GROW.

Definition ramfs_shared_writable_mmap_sealed (s : state) (index : Z) : bool :=
  if negb (live s index) then false
  else has (seals (nodes s index)) (RAMFS_F_SEAL_WRITE .| RAMFS_F_SEAL_FUTURE_WRITE).

Definition ramfs_note_shared_writable_mapping (index : Z) (add : bool) (s : state) : state :=
  if negb (live s index) then s else
  let n := shared_write_mappings (nodes s index) in
  if add then on_node index (set_shared (u32 (n + 1))) s
  else if negb (n =? 0) then on_node index (set_shared (n - 1)) s else s.

Definition ramfs_lookup_node (s : state) (path : option string) : option ramfs_node :=
  ramfs_refresh_node s (lookup_index s path).

Record ramfs_dirent_ := mk_dirent {
  de_name : string;
  de_ino : Z;
  de_is_dir : bool;
  de_is_device : bool;
  de_type : Z;
}.

(** The loop over the nodes with [n] of them left. *)
Fixpoint dirent_loop (s : state) (dir_index index : Z) (n : nat) (i seen : Z) : option ramfs_dirent_ :=
  match n with
  | O => None
  | S n' =>
      let c := nodes s i in
      if used c && (parent c =? dir_index) && negb (i =? dir_index) then
        if seen =? index then
          Some (mk_dirent (name c) (ino c) (is_dir c)
                  (negb (no_device c) && bool_decide (mount c = RAMFS_MOUNT_DEV))
                  (u8 (Z.shiftr (mode c .& 0xf000) 12)))
        else dirent_loop s dir_index index n' (i + 1) (u64 (seen + 1))
      else dirent_loop s dir_index index n' (i + 1) seen
  end.

Definition ramfs_dirent (s : state) (dir_index index : Z) : option ramfs_dirent_ :=
  if negb (live s dir_index) || negb (is_dir (nodes s dir_index)) then None
  else dirent_loop s dir_index index node_range 0 0.

Definition root_entries : list ramfs_dirent_ :=
  [mk_dirent "dev" 2 true false 0; mk_dirent "proc" 3 true false 0; mk_dirent "sys" 4 true false 0;
   mk_dirent "tmp" 5 true false 0; mk_dirent "run" 6 true false 0].

Definition ramfs_root_dirent (index : Z) : option ramfs_dirent_ :=
  if Z.of_nat (List.length root_entries) <=? index then None else nth_error root_entries (Z.to_nat index).

(** ** The name space *)

Definition ramfs_mkdir (path : option string) (md : Z) (s : state) : option (bool * state) :=
  let* (index, s) :=
    match split_parent s path with
    | Some (parent_, nm) => add_node parent_ nm true true s
    | None => Some (-1, s)
    end in
  if index <? 0 then Some (false, s) else
  Some (true, on_node index (set_mode (u16 (0x4000 .| md .& 0xfff))) s).

Definition ramfs_create (path : option string) (s : state) : option (option ramfs_node * state) :=
  let existing := lookup_index s path in
  if 0 <=? existing then Some (ramfs_refresh_node s existing, s) else
  match split_parent s path with
  | None => Some (None, s)
  | Some (parent_, nm) =>
      let* (index, s) := add_node parent_ nm false true s in
      Some (ramfs_refresh_node s index, s)
  end.

(** [ramfs_mkfifo] and [ramfs_mksock] differ in the type bits. *)
Definition make_special (type_bits : Z) (path : option string) (md : Z) (s : state) :
    option (option ramfs_node * state) :=
  if 0 <=? lookup_index s path then Some (None, s) else
  match split_parent s path with
  | None => Some (None, s)
  | Some (parent_, nm) =>
      let* (index, s) := add_node parent_ nm false true s in
      if index <? 0 then Some (None, s) else
      let s := on_node index (set_mode (u16 (type_bits .| md .& 0x1ff))) s in
      Some (ramfs_refresh_node s index, s)
  end.

Definition ramfs_mkfifo : option string -> Z -> state -> option (option ramfs_node * state) := make_special 0x1000.
Definition ramfs_mksock : option string -> Z -> state -> option (option ramfs_node * state) := make_special 0xc000.

(** [int *link]: the [first_page] of the node, or the [next] of a slot. *)
Definition get_link (node : Z) (link : option Z) (s : state) : Z :=
  match link with None => first_page (nodes s node) | Some k => next (backing_pages s k) end.

Definition set_link (node : Z) (link : option Z) (v : Z) (s : state) : state :=
  match link with
  | None => on_node node (set_first_page v) s
  | Some k => put_slot k (set_next v (backing_pages s k)) s
  end.

Definition truncate_step (node keep_pages : Z) (st : option Z * state) : (option Z * state) + state :=
  let '(link, s) := st in
  let slot := get_link node link s in
  if 0 <=? slot then
    if keep_pages <=? file_page (backing_pages s slot) then
      let s := set_link node link (next (backing_pages s slot)) s in
      inl (link, free_backing_slot slot s)
    else inl (Some slot, s)
  else inr s.

Definition plain_writable (s : state) (index : Z) : bool :=
  live s index && negb (is_dir (nodes s index)) && no_device (nodes s index) && writable (nodes s index).

Definition ramfs_truncate (index new_size : Z) (s : state) : option (bool * state) :=
  if negb (plain_writable s index) || (RAMFS_MAX_FILE_SIZE <? new_size) then Some (false, s) else
  if ramfs_truncate_sealed s index new_size then Some (false, s) else
  let keep_pages := u64 (new_size + RAMFS_PAGE_SIZE - 1) / RAMFS_PAGE_SIZE in
  let* s := iter (truncate_step index keep_pages) (chain_fuel s) (None, s) in
  let* s :=
    if negb (new_size mod RAMFS_PAGE_SIZE =? 0) then
      let* slot := find_backing_page s index (u32 (new_size / RAMFS_PAGE_SIZE)) in
      if 0 <=? slot then
        let tail := new_size mod RAMFS_PAGE_SIZE in
        Some (put_memory s (kmemset (memory s) (u64 (data (backing_pages s slot) + tail)) 0 (RAMFS_PAGE_SIZE - tail)))
      else Some s
    else Some s in
  let s := on_node index (set_size new_size) s in
  let s := on_node index (set_mtime (ramfs_now_sec s)) s in
  Some (true, on_node index (set_ctime (ramfs_now_sec s)) s).

Definition ramfs_chmod_node (index md : Z) (s : state) : bool * state :=
  if negb (live s index) then (false, s) else
  let s := on_node index (set_mode (md .& 0xfff)) s in
  (true, on_node index (set_ctime (ramfs_now_sec s)) s).

Definition ramfs_chown_node (index u g : Z) (s : state) : bool * state :=
  if negb (live s index) then (false, s) else
  let s := on_node index (set_owner u g) s in
  (true, on_node index (set_ctime (ramfs_now_sec s)) s).

(** A node that is still referenced leaves the tree but keeps its contents. *)
Definition detach (index : Z) (s : state) : state :=
  let s := on_node index (set_parent (-1)) s in
  let s := on_node index (set_name EmptyString) s in
  on_node index (set_ctime (ramfs_now_sec s)) s.

Definition ramfs_unlink (path : option string) (s : state) : option (bool * state) :=
  let index := lookup_index s path in
  if (index <=? 0) || negb (used (nodes s index)) then Some (false, s) else
  if is_dir (nodes s index) && (0 <=? first_node (fun i => used (nodes s i) && (parent (nodes s i) =? index)))
  then Some (false, s) else
  if negb (refs (nodes s index) =? 0) then Some (true, detach index s) else
  let* s := free_node index s in
  Some (true, s).

Definition link_step (dst : Z) (st : Z * state) : (Z * state) + option (bool * state) :=
  let '(slot, s) := st in
  if 0 <=? slot then
    match get_backing_page dst (file_page (backing_pages s slot)) true s with
    | None => inr None
    | Some (dst_slot, s) =>
        if dst_slot <? 0 then inr (let* s := free_node dst s in Some (false, s)) else
        let s := put_memory s (kmemcpy (memory s) (data (backing_pages s dst_slot)) (data (backing_pages s slot))
                                 RAMFS_PAGE_SIZE) in
        inl (next (backing_pages s slot), s)
    end
  else inr (Some (true, s)).

Definition ramfs_link (old_path new_path : option string) (s : state) : option (bool * state) :=
  let src := lookup_index s old_path in
  if (src <=? 0) || is_dir (nodes s src) || negb (no_device (nodes s src)) then Some (false, s) else
  match split_parent s new_path with
  | None => Some (false, s)
  | Some (parent_, nm) =>
      if 0 <=? find_child s parent_ nm then Some (false, s) else
      let* (dst, s) := add_node parent_ nm false (writable (nodes s src)) s in
      if dst <? 0 then Some (false, s) else
      let s := on_node dst (set_size (size (nodes s src))) s in
      let s := on_node dst (set_mode (mode (nodes s src))) s in
      let s := on_node dst (set_atime (atime (nodes s src))) s in
      let s := on_node dst (set_mtime (mtime (nodes s src))) s in
      let s := on_node dst (set_ctime (ramfs_now_sec s)) s in
      if writable (nodes s src) then
        let* r := iter (link_step dst) (chain_fuel s) (first_page (nodes s src), s) in r
      else Some (true, on_node dst (set_ro_data (ro_data (nodes s src))) s)
  end.

Definition ramfs_rename (old_path new_path : option string) (s : state) : option (bool * state) :=
  let index := lookup_index s old_path in
  if index <=? 0 then Some (false, s) else
  match split_parent s new_path with
  | None => Some (false, s)
  | Some (parent_, nm) =>
      let existing := lookup_index s new_path in
      let* s :=
        if 0 <? existing then
          if negb (refs (nodes s existing) =? 0) then Some (detach existing s) else free_node existing s
        else Some s in
      let '(ok, copied) := copy_name nm in
      let s := on_node index (set_name copied) s in
      if negb ok then Some (false, s) else
      let s := on_node index (set_parent parent_) s in
      Some (true, on_node index (set_ctime (ramfs_now_sec s)) s)
  end.

(** ** File contents *)

Definition chunk_of (pos left : Z) : Z :=
  let within := pos mod RAMFS_PAGE_SIZE in
  let chunk := RAMFS_PAGE_SIZE - within in
  if left <? chunk then left else chunk.

Definition read_step (index off dst n : Z) (st : Z * state) : (Z * state) + option (Z * state) :=
  let '(done, s) := st in
  if done <? n then
    let pos := u64 (off + done) in
    let within := pos mod RAMFS_PAGE_SIZE in
    let chunk := chunk_of pos (n - done) in
    match find_backing_page s index (u32 (pos / RAMFS_PAGE_SIZE)) with
    | None => inr None
    | Some slot =>
        let m :=
          if 0 <=? slot
          then kmemcpy (memory s) (u64 (dst + done)) (u64 (data (backing_pages s slot) + within)) chunk
          else kmemset (memory s) (u64 (dst + done)) 0 chunk in
        inl (done + chunk, put_memory s m)
    end
  else inr (Some (n, s)).

Definition copy_fuel (len : Z) : nat := S (S (S (Z.to_nat (len / RAMFS_PAGE_SIZE)))).

Definition ramfs_read (index off dst len : Z) (s : state) : option (Z * state) :=
  if negb (live s index) || is_dir (nodes s index) || negb (no_device (nodes s index)) ||
     (size (nodes s index) <=? off) then Some (0, s) else
  let n := size (nodes s index) - off in
  let n := if len <? n then len else n in
  if negb (writable (nodes s index)) then
    Some (n, put_memory s (kmemcpy (memory s) dst (u64 (ro_data (nodes s index) + off)) n))
  else let* r := iter (read_step index off dst n) (copy_fuel n) (0, s) in r.

Definition write_step (index off src len : Z) (st : Z * state) : (Z * state) + option (bool * state) :=
  let '(done, s) := st in
  if done <? len then
    let pos := u64 (off + done) in
    let within := pos mod RAMFS_PAGE_SIZE in
    let chunk := chunk_of pos (len - done) in
    match get_backing_page index (u32 (pos / RAMFS_PAGE_SIZE)) true s with
    | None => inr None
    | Some (slot, s) =>
        if slot <? 0 then inr (Some (false, s)) else
        inl (done + chunk, put_memory s (kmemcpy (memory s) (u64 (data (backing_pages s slot) + within))
                                           (u64 (src + done)) chunk))
    end
  else inr (Some (true, s)).

Definition ramfs_write (index off src len : Z) (s : state) : option (Z * state) :=
  if negb (plain_writable s index) || (RAMFS_MAX_FILE_SIZE <? off) || (RAMFS_MAX_FILE_SIZE - off <? len)
  then Some (-1, s) else
  if ramfs_write_sealed s index then Some (-1, s) else
  let* r := iter (write_step index off src len) (copy_fuel len) (0, s) in
  let* (ok, s) := r in
  if negb ok then Some (-1, s) else
  let s := if size (nodes s index) <? u64 (off + len) then on_node index (set_size (u64 (off + len))) s else s in
  let s := on_node index (set_mtime (ramfs_now_sec s)) s in
  Some (len, on_node index (set_ctime (ramfs_now_sec s)) s).

End Ramfs.
