(* ===== verification/RamfsInv.v ===== *)
(** The backing-page pool of the RAM file system: its invariant and the effect
    of every pool operation on it.

    A node's pages are a chain of slots through [next], the unused slots a chain
    through [free_next]. [Pool s hd F free U] says that the chains starting at
    [hd i] are the lists [F i], that the free chain is [free], that these lists
    partition the table, and that the page allocator holds for every page one
    reference per slot or table page of the pool plus the [U] references of the
    rest of the kernel. A lost or doubled page breaks that equation. *)

From Stdlib Require Import ZArith Lia String Ascii.
From stdpp Require Import base numbers list option.
From S2P Require Import Prelude Mem Pmm PmmSpec Vmm VmmInv Ramfs.
Import Mem Kstr Pmm Vmm VmmInv Ramfs list_basics.list list_relations.list.

Open Scope list_scope.
Open Scope Z_scope.
Open Scope c_scope.

Module RamfsInv.

(** ** Chains *)

Fixpoint chain (nx : Z -> Z) (h : Z) (l : list Z) : Prop :=
  match l with
  | [] => h < 0
  | k :: l' => h = k /\ 0 <= k /\ chain nx (nx k) l'
  end.

Lemma chain_ext nx nx' h l : (forall k, k ∈ l -> nx' k = nx k) -> chain nx h l -> chain nx' h l.
Proof.
  revert h. induction l as [|k l IH]; intros h Hext; [done|]. simpl. intros (-> & H0 & H). split_and!; [done..|].
  rewrite Hext by left. apply IH; [|done]. intros j Hj. apply Hext. by right.
Qed.

(** Taking [k] out of a chain: its predecessor, if any, now leads to [nx k]. *)
Lemma chain_remove nx nx' h l1 k l2 :
  NoDup (l1 ++ k :: l2) ->
  (forall j, j ∈ l1 ++ l2 -> nx' j = if decide (last l1 = Some j) then nx k else nx j) ->
  chain nx h (l1 ++ k :: l2) ->
  chain nx' (match l1 with [] => nx k | _ => h end) (l1 ++ l2).
Proof.
  revert h. induction l1 as [|p l1 IH]; intros h Hnd Hext.
  - simpl. intros (-> & _ & H). apply (chain_ext nx); [|done]. intros j Hj. by rewrite Hext.
  - simpl in *. intros (-> & H0 & H). split_and!; [done..|]. apply NoDup_cons in Hnd as [Hp Hnd].
    assert (chain nx' (match l1 with [] => nx k | _ => nx p end) (l1 ++ l2)) as Hc.
    { apply IH; [done| |done]. intros j Hj. rewrite Hext by (by right).
      destruct l1; [|done]. rewrite decide_False; [done|]. intros [= ->]. apply Hp. by right. }
    rewrite Hext by left. destruct l1 as [|q l1]; [by rewrite decide_True|].
    rewrite decide_False; [done|]. intros Hl. change (last (q :: l1) = Some p) in Hl. apply last_Some_elem_of in Hl.
    apply Hp. change (p ∈ (q :: l1) ++ k :: l2). apply elem_of_app. by left.
Qed.

(** ** Runs of pages *)

(** Whether [q] is one of the [n] pages from [p]. *)
Definition run (p n q : Z) : Z := if (p <=? q) && (q <? p + n * PAGE_SIZE) && (q mod PAGE_SIZE =? 0) then 1 else 0.

Lemma run_range p n q : 0 <= run p n q <= 1.
Proof. unfold run. destruct (_ && _); lia. Qed.

Lemma run_0 p q : run p 0 q = 0.
Proof. unfold run. zcases; simpl; lia. Qed.

Lemma run_S p n q : p mod PAGE_SIZE = 0 -> 0 <= n -> run p (n + 1) q = one p q + run (p + PAGE_SIZE) n q.
Proof.
  intros Hp Hn. unfold run, one, PAGE_SIZE in *. case_decide as Hd.
  - subst q. rewrite Hp. zcases; simpl; lia.
  - assert (q mod 4096 = 0 -> p <= q -> p + 4096 <= q) as Hq by dmlia.
    destruct (Z.eqb_spec (q mod 4096) 0); [|by rewrite !andb_false_r]. rewrite !andb_true_r.
    zcases; simpl; lia.
Qed.

Lemma alloc_run_cases w n p m :
  machine_ok w -> 0 <= n -> pmm_alloc_contiguous_pages (m_pmm w) n = (p, m) ->
  machine_ok (put_pmm w m) /\ same_cfg w (put_pmm w m) /\
  (p = 0 /\ (forall q, rc (put_pmm w m) q = rc w q) \/
   0 < p /\ p mod PAGE_SIZE = 0 /\ 0 < n /\ p + n * PAGE_SIZE <= PAGE_SIZE * tracked w /\
   forall q, rc (put_pmm w m) q = rc w q + run p n q /\ (run p n q = 1 -> rc w q = 0)).
Proof.
  intros Hok Hn E. destruct (alloc_contiguous_cases _ _ _ _ (m_pmm_ok w Hok) Hn E)
    as [Hm [(-> & Hps & _)|(r & -> & (Hr1 & Hr2 & Hfree) & Hn0 & _ & Hps)]].
  - destruct (machine_ok_pmm w m (m_mem w) (m_mmu w) Hok Hm (ps_config _ _ _ _ _ _ Hps) (m_bytes w Hok)) as [Ho Hc].
    split_and!; [done..|]. left. split; [done|]. intros q. by apply rc_unchanged.
  - destruct (machine_ok_pmm w m (m_mem w) (m_mmu w) Hok Hm (ps_config _ _ _ _ _ _ Hps) (m_bytes w Hok)) as [Ho Hc].
    split_and!; [done..|]. right. unfold tracked. split_and!; [unfold PAGE_SIZE; lia|apply page_addr_inv|done|unfold PAGE_SIZE; lia|].
    intros q. destruct Hps as [(Hh & Ht & _) _ Href].
    assert (forall v, rc v q = if (q <? 0) || negb (q mod PAGE_SIZE =? 0) || negb (valid_page (m_pmm v) (q / PAGE_SIZE))
                               then 0 else refcount_at (m_pmm v) (q / PAGE_SIZE)) as Hrc.
    { intros v. unfold rc, pmm_refcount. by destruct (q <? 0), (q mod PAGE_SIZE =? 0), (valid_page _ _). }
    rewrite !Hrc. unfold put_pmm. cbn [m_pmm]. unfold run. destruct (Z.ltb_spec q 0) as [|Hq].
    { simpl. split; [|done]. replace (r * PAGE_SIZE <=? q) with false; [done|]. unfold PAGE_SIZE. lia. }
    destruct (Z.eqb_spec (q mod PAGE_SIZE) 0) as [Hq0|]; [|simpl; by rewrite andb_false_r].
    assert (0 <= q / PAGE_SIZE) by (apply Z.div_pos; unfold PAGE_SIZE; lia).
    rewrite !valid_page_spec by (apply Hm || apply Hok || lia). rewrite Ht.
    replace ((r * PAGE_SIZE <=? q) && (q <? r * PAGE_SIZE + n * PAGE_SIZE))
      with ((r <=? q / PAGE_SIZE) && (q / PAGE_SIZE <? r + n)) by (unfold PAGE_SIZE in *; zcases; simpl; dmlia).
    rewrite andb_true_r. cbn [orb negb]. destruct (Z.ltb_spec (q / PAGE_SIZE) (tracked_page_count (m_pmm w))) as [Hlt|Hge].
    2:{ split; [|done]. zcases; simpl; lia. }
    cbn [negb]. rewrite Href by lia. destruct ((r <=? q / PAGE_SIZE) && (q / PAGE_SIZE <? r + n)) eqn:Ein.
    + assert (refcount_at (m_pmm w) (q / PAGE_SIZE) = 0) as ->; [|split; [lia|done]].
      destruct (Z.eq_dec (refcount_at (m_pmm w) (q / PAGE_SIZE)) 0) as [|Hne]; [done|].
      pose proof (ok_ref _ (m_pmm_ok w Hok) (q / PAGE_SIZE) ltac:(lia) Hne) as Hb.
      rewrite Hfree in Hb; [done|]. zbool. lia.
    + split; [lia|done].
Qed.

Lemma free_run_cases n p w :
  machine_ok w -> p mod PAGE_SIZE = 0 -> 0 <= p -> p + Z.of_nat n * PAGE_SIZE <= 2 ^ 63 ->
  (forall q, run p (Z.of_nat n) q <= rc w q) ->
  machine_ok (free_pages_from n p w) /\ same_cfg w (free_pages_from n p w) /\
  m_mem (free_pages_from n p w) = m_mem w /\
  (forall q, rc (free_pages_from n p w) q = rc w q - run p (Z.of_nat n) q).
Proof.
  revert p w. induction n as [|n IH]; intros p w Hok Hp H0 Hle Hrc.
  { simpl. split_and!; [done..|]. intros q. rewrite run_0. lia. }
  rewrite Nat2Z.inj_succ, <- Z.add_1_r in *. cbn [free_pages_from].
  assert (forall q, one p q + run (p + PAGE_SIZE) (Z.of_nat n) q <= rc w q) as Hrc'.
  { intros q. rewrite <- run_S by (done || lia). apply Hrc. }
  destruct (free_cases w p Hok) as (Hok1 & Hc1 & Hr1).
  { specialize (Hrc' p). unfold one in Hrc'. rewrite decide_True in Hrc' by done.
    pose proof (run_range (p + PAGE_SIZE) (Z.of_nat n) p). lia. }
  change (u64 (p + RAMFS_PAGE_SIZE)) with (u64 (p + PAGE_SIZE)). rewrite u64_small by (unfold is_u64, PAGE_SIZE in *; lia).
  destruct (IH (p + PAGE_SIZE) (free_page p w)) as (Hok2 & Hc2 & Hm2 & Hr2); [done|unfold PAGE_SIZE in *; dmlia..| |].
  { intros q. rewrite Hr1. specialize (Hrc' q). lia. }
  split_and!; [done| |done|].
  - destruct Hc1, Hc2. split; congruence.
  - intros q. rewrite Hr2, Hr1, run_S by (done || lia). lia.
Qed.

(** ** The pool *)

Definition slot_count (s : state) : nat := Z.to_nat (backing_page_capacity s).
Definition in_use (s : state) (k : Z) : bool := bp_used (backing_pages s k).
Definition holds (s : state) (x k : Z) : bool := in_use s k && (pa (backing_pages s k) =? x).

(** References to the page [x] held by the table. *)
Definition table_refs (s : state) (x : Z) : Z :=
  if backing_table s =? 0 then 0
  else run (backing_table s - hhdm (kernel s)) (table_pages (backing_page_capacity s)) x.

Lemma table_refs_range s x : 0 <= table_refs s x <= 1.
Proof. unfold table_refs. case_match; [lia|apply run_range]. Qed.

(** References to the page [x] held by the pool. *)
Definition held (s : state) (x : Z) : Z := countb (holds s x) (slot_count s) + table_refs s x.

Definition slot_ok (s : state) (k : Z) : Prop := 0 <= k < backing_page_capacity s.

Record Pool (s : state) (hd : Z -> Z) (F : Z -> list Z) (free : list Z) (U : Z -> Z) : Prop := {
  pl_machine : machine_ok (kernel s);
  pl_hhdm : hhdm_offset s = hhdm (kernel s) /\ ramfs_hhdm_offset s = hhdm (kernel s);
  pl_cap : 0 <= backing_page_capacity s <= RAMFS_MAX_BACKING_PAGES;
  pl_table : backing_table s = 0 /\ backing_page_capacity s = 0 \/
             exists p, backing_table s = hhdm (kernel s) + p /\ 0 < p /\ p mod PAGE_SIZE = 0 /\
               p + table_pages (backing_page_capacity s) * PAGE_SIZE <= PAGE_SIZE * tracked (kernel s) /\
               0 < backing_page_capacity s;
  pl_free : chain (fun k => free_next (backing_pages s k)) (backing_page_free_head s) free;
  pl_free_in : forall k, k ∈ free <-> slot_ok s k /\ in_use s k = false;
  pl_free_nodup : NoDup free;
  pl_chain : forall i, chain (fun k => next (backing_pages s k)) (hd i) (F i);
  pl_in : forall i k, k ∈ F i <-> slot_ok s k /\ in_use s k = true /\ owner (backing_pages s k) = i;
  pl_nodup : forall i, NoDup (F i);
  pl_pages : forall i k k', k ∈ F i -> k' ∈ F i ->
               file_page (backing_pages s k) = file_page (backing_pages s k') -> k = k';
  pl_count : backing_page_used_count s = countb (in_use s) (slot_count s);
  pl_data : forall k, slot_ok s k -> in_use s k = true ->
              data (backing_pages s k) = hhdm (kernel s) + pa (backing_pages s k) /\ 0 < pa (backing_pages s k);
  pl_distinct : forall k k', slot_ok s k -> slot_ok s k' -> in_use s k = true -> in_use s k' = true ->
              pa (backing_pages s k) = pa (backing_pages s k') -> k = k';
  pl_U : forall x, 0 <= U x;
  pl_rc : forall x, rc (kernel s) x = U x + held s x;
}.

(** The pool does not depend on the nodes or the clock. *)
Definition same_pool (s s' : state) : Prop :=
  hhdm_offset s' = hhdm_offset s /\ backing_pages s' = backing_pages s /\ backing_table s' = backing_table s /\
  backing_page_capacity s' = backing_page_capacity s /\ backing_page_used_count s' = backing_page_used_count s /\
  backing_page_free_head s' = backing_page_free_head s /\ ramfs_hhdm_offset s' = ramfs_hhdm_offset s.

(** Slots in use are untouched, unused ones keep their place in the free chain. *)
Lemma pool_ext s s' hd F free U :
  Pool s hd F free U ->
  (forall j, in_use s' j = in_use s j) ->
  (forall j, in_use s j = true -> backing_pages s' j = backing_pages s j) ->
  (forall j, in_use s j = false -> free_next (backing_pages s' j) = free_next (backing_pages s j)) ->
  hhdm_offset s' = hhdm_offset s -> ramfs_hhdm_offset s' = ramfs_hhdm_offset s ->
  backing_table s' = backing_table s -> backing_page_capacity s' = backing_page_capacity s ->
  backing_page_used_count s' = backing_page_used_count s -> backing_page_free_head s' = backing_page_free_head s ->
  machine_ok (kernel s') -> same_cfg (kernel s) (kernel s') -> (forall x, rc (kernel s') x = rc (kernel s) x) ->
  Pool s' hd F free U.
Proof.
  intros HP Hu Hused Hfree H1 H7 H3 H4 H5 H6 Hm [Hh Ht] Hrc.
  assert (forall j, slot_ok s' j <-> slot_ok s j) as Hok by (intros j; unfold slot_ok; by rewrite H4).
  assert (forall i k, k ∈ F i -> backing_pages s' k = backing_pages s k) as HF.
  { intros i k Hk. apply (pl_in _ _ _ _ _ HP) in Hk as (_ & ? & _). by apply Hused. }
  assert (forall f n, countb (in_use s') n = countb (in_use s) n /\ countb (holds s' f) n = countb (holds s f) n) as Hcnt.
  { intros f n. split; apply countb_ext; intros j _; [apply Hu|]. unfold holds. rewrite Hu.
    destruct (in_use s j) eqn:E; [by rewrite Hused|done]. }
  destruct HP. split; rewrite ?H1, ?H3, ?H4, ?H5, ?H6, ?H7, ?Hh, ?Ht; try done.
  - eapply chain_ext; [|done]. intros k Hk. apply Hfree. by apply pl_free_in0 in Hk as [_ ?].
  - intros k. by rewrite Hok, Hu.
  - intros i. eapply chain_ext; [|done]. intros k Hk. by rewrite (HF i k Hk).
  - intros i k. rewrite Hok, Hu, pl_in0. destruct (in_use s k) eqn:E; [by rewrite Hused|naive_solver].
  - intros i k k' Hk Hk'. rewrite (HF i k Hk), (HF i k' Hk'). by eapply pl_pages0.
  - unfold slot_count. rewrite H4, pl_count0. symmetry. apply (Hcnt 0).
  - intros k Hk. rewrite Hu. intros E. rewrite Hused by done. apply pl_data0; [by apply Hok|done].
  - intros k k' Hk Hk'. rewrite !Hu. intros E E'. rewrite !Hused by done. apply pl_distinct0; try done; by apply Hok.
  - intros x. rewrite Hrc, pl_rc0. unfold held, table_refs, slot_count. rewrite H3, H4, Hh.
    by destruct (Hcnt x (Z.to_nat (backing_page_capacity s))) as [_ ->].
Qed.

(** Changes of the nodes, of memory, and of the allocator's statistics. *)
Lemma pool_same s s' hd F free U :
  Pool s hd F free U -> same_pool s s' -> machine_ok (kernel s') -> same_cfg (kernel s) (kernel s') ->
  (forall x, rc (kernel s') x = rc (kernel s) x) -> Pool s' hd F free U.
Proof.
  intros HP (H1 & H2 & H3 & H4 & H5 & H6 & H7) Hm Hcfg Hrc. unfold in_use.
  by apply (pool_ext s s'); try done; intros j; unfold in_use; rewrite H2.
Qed.

Lemma pool_nodes s f hd F free U : Pool s hd F free U -> Pool (put_nodes s f) hd F free U.
Proof. intros HP. by apply (pool_same s); [|repeat split|apply HP|..]. Qed.

Lemma pool_on_node s i f hd F free U : Pool s hd F free U -> Pool (on_node i f s) hd F free U.
Proof. apply pool_nodes. Qed.

Lemma pool_memory s m hd F free U :
  Pool s hd F free U -> (forall a, is_u8 (m a)) -> Pool (put_memory s m) hd F free U.
Proof.
  intros HP Hm. apply (pool_same s); [done|by repeat split| |by split|done].
  destruct (pl_machine _ _ _ _ _ HP) as [H1 H2 H3 H4]. by split.
Qed.

Lemma pool_hd s hd hd' F free U :
  Pool s hd F free U -> (forall i, chain (fun k => next (backing_pages s k)) (hd' i) (F i)) -> Pool s hd' F free U.
Proof. intros []. by split. Qed.

(** A list of distinct slots fits the table. *)
Lemma distinct_bound n l : NoDup l -> (forall k, k ∈ l -> 0 <= k < n) -> Z.of_nat (length l) <= Z.max 0 n.
Proof.
  intros Hnd Hin. assert (l ⊆+ seqZ 0 n) as Hs.
  { apply NoDup_submseteq; [done|]. intros k Hk. apply elem_of_seqZ. specialize (Hin k Hk). lia. }
  apply submseteq_length in Hs. rewrite length_seqZ in Hs. lia.
Qed.

Section PoolFacts.
Context (s : state) (hd : Z -> Z) (F : Z -> list Z) (free : list Z) (U : Z -> Z).
Hypothesis HP : Pool s hd F free U.

Lemma chain_fits i : (length (F i) < chain_fuel s)%nat.
Proof.
  pose proof (distinct_bound (backing_page_capacity s) (F i) (pl_nodup _ _ _ _ _ HP i)) as H.
  unfold chain_fuel. pose proof (pl_cap _ _ _ _ _ HP). enough (Z.of_nat (length (F i)) <= Z.max 0 (backing_page_capacity s)) by lia.
  apply H. intros k Hk. by apply (pl_in _ _ _ _ _ HP) in Hk as [? _].
Qed.

Lemma pool_rc_pos k : slot_ok s k -> in_use s k = true -> 0 < rc (kernel s) (pa (backing_pages s k)).
Proof.
  intros Hk Hu. rewrite (pl_rc _ _ _ _ _ HP). pose proof (pl_U _ _ _ _ _ HP (pa (backing_pages s k))).
  unfold held. pose proof (table_refs_range s (pa (backing_pages s k))).
  pose proof (countb_bounds (holds s (pa (backing_pages s k))) (slot_count s)).
  assert (countb (holds s (pa (backing_pages s k))) (slot_count s) <> 0); [|lia].
  intros Hz. apply (proj1 (countb_zero _ _)) with (i := k) in Hz; [|unfold slot_ok, slot_count in *; lia].
  unfold holds in Hz. rewrite Hu, Z.eqb_refl in Hz. done.
Qed.

Lemma pool_data k : slot_ok s k -> in_use s k = true ->
  data (backing_pages s k) = hhdm (kernel s) + pa (backing_pages s k) /\ 0 < pa (backing_pages s k) < 2 ^ 48 /\
  pa (backing_pages s k) mod PAGE_SIZE = 0 /\ 0 <= hhdm (kernel s) /\
  data (backing_pages s k) + PAGE_SIZE <= 2 ^ 64.
Proof.
  intros Hk Hu. pose proof (pl_machine _ _ _ _ _ HP) as Hm.
  destruct (rc_page (kernel s) _ Hm (pool_rc_pos k Hk Hu)) as (H1 & H2 & H3).
  destruct (pl_data _ _ _ _ _ HP k Hk Hu) as [-> H4]. pose proof (m_direct _ Hm). split_and!; (done || lia).
Qed.

Lemma pool_unowned x : rc (kernel s) x = 0 -> U x = 0 /\ held s x = 0 /\
  (forall k, slot_ok s k -> in_use s k = true -> pa (backing_pages s k) <> x).
Proof.
  intros Hx. pose proof (pl_rc _ _ _ _ _ HP x) as Hr. pose proof (pl_U _ _ _ _ _ HP x).
  pose proof (table_refs_range s x).
  pose proof (countb_bounds (holds s x) (slot_count s)). unfold held in *. split_and!; [lia..|].
  intros k Hk Hu He. pose proof (pool_rc_pos k Hk Hu). rewrite He in *. lia.
Qed.
End PoolFacts.

(** Only the slot [k] changes between in use and unused. *)
Lemma held_switch s s' k x :
  slot_ok s k -> in_use s k = false -> in_use s' k = true -> backing_page_capacity s' = backing_page_capacity s ->
  (forall j, slot_ok s j -> j <> k -> in_use s' j = in_use s j /\ pa (backing_pages s' j) = pa (backing_pages s j)) ->
  countb (in_use s') (slot_count s') = countb (in_use s) (slot_count s) + 1 /\
  countb (holds s' x) (slot_count s') = countb (holds s x) (slot_count s) + one (pa (backing_pages s' k)) x.
Proof.
  intros Hk Hu Hu' Hcap Hj. unfold slot_count. rewrite Hcap. unfold slot_ok in *. split.
  - apply (countb_switch _ _ _ k); [lia|done..|]. intros j Hj1 Hj2. symmetry. apply Hj; lia.
  - unfold one. case_decide as Hx.
    + apply (countb_switch _ _ _ k); [lia|unfold holds; by rewrite Hu|unfold holds; rewrite Hu'; simpl; lia|].
      intros j Hj1 Hj2. unfold holds. by destruct (Hj j ltac:(lia) Hj2) as [-> ->].
    + rewrite Z.add_0_r. apply countb_ext. intros j Hj1. unfold holds. destruct (Z.eq_dec j k) as [->|Hne].
      * rewrite Hu, Hu'. simpl. lia.
      * by destruct (Hj j ltac:(lia) Hne) as [-> ->].
Qed.

Definition freed_slot (fn : Z) : ramfs_backing_page := mk_backing false (-1) fn (-1) 0 0 0.

(** The slot [k] leaves the chain of [i] and its page goes back. *)
Record unlinked (s s' : state) (l1 : list Z) (k : Z) : Prop := {
  ul_slots : forall j, backing_pages s' j =
    if j =? k then freed_slot (backing_page_free_head s)
    else if decide (last l1 = Some j) then set_next (next (backing_pages s k)) (backing_pages s j)
    else backing_pages s j;
  ul_kernel : kernel s' = free_page (pa (backing_pages s k)) (kernel s);
  ul_head : backing_page_free_head s' = k;
  ul_count : backing_page_used_count s' = backing_page_used_count s - 1;
  ul_cap : backing_page_capacity s' = backing_page_capacity s;
  ul_table : backing_table s' = backing_table s;
  ul_hhdm : hhdm_offset s' = hhdm_offset s /\ ramfs_hhdm_offset s' = ramfs_hhdm_offset s;
}.

Lemma unlinked_other s s' l1 k j :
  unlinked s s' l1 k -> j <> k ->
  exists n, backing_pages s' j = set_next n (backing_pages s j) /\
    (last l1 <> Some j -> n = next (backing_pages s j)) /\
    (last l1 = Some j -> n = next (backing_pages s k)).
Proof.
  intros Hul Hj. rewrite (ul_slots _ _ _ _ Hul). replace (j =? k) with false by lia. case_decide.
  - eexists. by split_and!.
  - exists (next (backing_pages s j)). split_and!; [|done..]. by destruct (backing_pages s j).
Qed.

Lemma pool_unlink s s' hd F free U i l1 k l2 :
  Pool s hd F free U -> F i = l1 ++ k :: l2 -> unlinked s s' l1 k ->
  Pool s' (upd hd i (match l1 with [] => next (backing_pages s k) | _ => hd i end)) (upd F i (l1 ++ l2)) (k :: free) U.
Proof.
  intros HP HF Hul. pose proof (pl_nodup _ _ _ _ _ HP i) as Hnd. rewrite HF in Hnd.
  assert (k ∈ F i) as HkF by (rewrite HF; apply elem_of_app; right; by left).
  apply (pl_in _ _ _ _ _ HP) in HkF as (Hk & Hku & Hko).
  assert (forall j, j ∈ l1 ++ l2 <-> j ∈ F i /\ j <> k) as Hsub.
  { intros j. rewrite HF, !elem_of_app, elem_of_cons. apply NoDup_app in Hnd as (_ & Hx & Hnd).
    apply NoDup_cons in Hnd as [Hkl _]. split.
    - intros [Hj|Hj]; (split; [by auto|]); intros ->; [|done]. eapply Hx; [done|by left].
    - intros [[?|[?|?]] ?]; by auto. }
  assert (in_use s' k = false) as Hku'.
  { unfold in_use. rewrite (ul_slots _ _ _ _ Hul), Z.eqb_refl. done. }
  assert (forall j, j <> k -> in_use s' j = in_use s j /\ pa (backing_pages s' j) = pa (backing_pages s j) /\
            owner (backing_pages s' j) = owner (backing_pages s j) /\ data (backing_pages s' j) = data (backing_pages s j) /\
            file_page (backing_pages s' j) = file_page (backing_pages s j) /\
            free_next (backing_pages s' j) = free_next (backing_pages s j)) as Hoth.
  { intros j Hj. unfold in_use. by destruct (unlinked_other _ _ _ _ _ Hul Hj) as (n & -> & _). }
  destruct (free_cases (kernel s) (pa (backing_pages s k)) (pl_machine _ _ _ _ _ HP)
              (pool_rc_pos _ _ _ _ _ HP k Hk Hku)) as (Hm & [Hh Ht] & Hr). rewrite <- (ul_kernel _ _ _ _ Hul) in *.
  assert (forall j, slot_ok s' j <-> slot_ok s j) as Hok by (intros j; unfold slot_ok; by rewrite (ul_cap _ _ _ _ Hul)).
  assert (forall x, countb (in_use s) (slot_count s) = countb (in_use s') (slot_count s') + 1 /\
            countb (holds s x) (slot_count s) = countb (holds s' x) (slot_count s') + one (pa (backing_pages s k)) x) as Hcnt.
  { intros x. apply (held_switch s' s k x); [by apply Hok|done..|symmetry; apply Hul|].
    intros j _ Hj. by destruct (Hoth j Hj) as (-> & -> & _). }
  assert (forall j, j ∈ k :: free <-> j = k \/ slot_ok s j /\ in_use s j = false) as Hfree.
  { intros j. rewrite elem_of_cons, (pl_free_in _ _ _ _ _ HP). done. }
  split.
  - done.
  - rewrite Hh. destruct (ul_hhdm _ _ _ _ Hul) as [-> ->]. apply HP.
  - rewrite (ul_cap _ _ _ _ Hul). apply HP.
  - rewrite (ul_cap _ _ _ _ Hul), (ul_table _ _ _ _ Hul), Hh, Ht. apply HP.
  - simpl. rewrite (ul_head _ _ _ _ Hul), (ul_slots _ _ _ _ Hul), Z.eqb_refl. unfold slot_ok in Hk.
    split_and!; [done|lia|]. simpl. apply (chain_ext (fun j => free_next (backing_pages s j))); [|apply HP].
    intros j Hj. apply (pl_free_in _ _ _ _ _ HP) in Hj as [_ Hj]. apply Hoth. congruence.
  - intros j. rewrite Hfree, Hok. destruct (Z.eq_dec j k) as [->|Hj]; [naive_solver|].
    destruct (Hoth j Hj) as (-> & _). naive_solver.
  - apply NoDup_cons. split; [|apply HP]. intros Hj. apply (pl_free_in _ _ _ _ _ HP) in Hj as [_ ?]. congruence.
  - intros i'. unfold upd. destruct (Z.eqb_spec i' i) as [->|Hi].
    + apply (chain_remove (fun j => next (backing_pages s j)) _ (hd i) l1 k l2); [done| |rewrite <- HF; apply HP].
      intros j Hj. apply Hsub in Hj as [_ Hj]. destruct (unlinked_other _ _ _ _ _ Hul Hj) as (n & -> & H1 & H2).
      case_decide; [by apply H2|by apply H1].
    + apply (chain_ext (fun j => next (backing_pages s j))); [|apply HP].
      intros j Hj. apply (pl_in _ _ _ _ _ HP) in Hj as (_ & _ & Hj).
      destruct (unlinked_other s s' l1 k j Hul) as (n & -> & H1 & _); [congruence|]. apply H1. intros Hl.
      apply last_Some_elem_of in Hl. assert (j ∈ F i) as HjF by (rewrite HF; apply elem_of_app; by left).
      apply (pl_in _ _ _ _ _ HP) in HjF as (_ & _ & ?). congruence.
  - intros i' j. rewrite Hok. unfold upd. destruct (Z.eqb_spec i' i) as [->|Hi].
    + rewrite Hsub, (pl_in _ _ _ _ _ HP). destruct (Z.eq_dec j k) as [->|Hj]; [naive_solver congruence|].
      destruct (Hoth j Hj) as (-> & _ & -> & _). naive_solver.
    + rewrite (pl_in _ _ _ _ _ HP). destruct (Z.eq_dec j k) as [->|Hj]; [naive_solver congruence|].
      by destruct (Hoth j Hj) as (-> & _ & -> & _).
  - intros i'. unfold upd. destruct (Z.eqb_spec i' i) as [->|Hi]; [|apply HP].
    apply NoDup_app in Hnd as (H1 & H2 & H3). apply NoDup_cons in H3 as [_ H3]. apply NoDup_app. split_and!; [done| |done].
    intros j Hj1 Hj2. eapply H2; [done|by right].
  - intros i' j j' Hj Hj'. assert (j ∈ F i' /\ j <> k /\ j' ∈ F i' /\ j' <> k) as (? & Hjk & ? & Hjk').
    { revert Hj Hj'. unfold upd. destruct (Z.eqb_spec i' i) as [->|Hi]; [rewrite !Hsub; naive_solver|].
      intros Hj Hj'. split_and!; [done| |done|]; intros ->; apply (pl_in _ _ _ _ _ HP) in Hj, Hj'; naive_solver congruence. }
    destruct (Hoth j Hjk) as (_ & _ & _ & _ & -> & _), (Hoth j' Hjk') as (_ & _ & _ & _ & -> & _). by eapply HP.
  - rewrite (ul_count _ _ _ _ Hul), (pl_count _ _ _ _ _ HP). destruct (Hcnt 0). lia.
  - intros j Hj Hju. apply Hok in Hj. assert (j <> k) as Hjk by congruence.
    destruct (Hoth j Hjk) as (Hu & -> & _ & -> & _). rewrite Hh. apply HP; congruence.
  - intros j j' Hj Hj' Hju Hju'. apply Hok in Hj, Hj'. assert (j <> k /\ j' <> k) as [Hjk Hjk'] by (split; congruence).
    destruct (Hoth j Hjk) as (Hu & -> & _), (Hoth j' Hjk') as (Hu' & -> & _). apply HP; congruence.
  - apply HP.
  - intros x. rewrite Hr, (pl_rc _ _ _ _ _ HP). unfold held, table_refs.
    rewrite (ul_cap _ _ _ _ Hul), (ul_table _ _ _ _ Hul), Hh. destruct (Hcnt x). lia.
Qed.

(** The free slot [k] gets the fresh page [p] as page [fp] of [i]. *)
Record linked (s s' : state) (k h i fp p : Z) : Prop := {
  lk_slots : forall j, backing_pages s' j =
    if j =? k then mk_backing true h (-1) i fp p (hhdm (kernel s) + p) else backing_pages s j;
  lk_machine : machine_ok (kernel s') /\ same_cfg (kernel s) (kernel s');
  lk_fresh : fresh_page (kernel s) (kernel s') p;
  lk_head : backing_page_free_head s' = free_next (backing_pages s k);
  lk_count : backing_page_used_count s' = backing_page_used_count s + 1;
  lk_cap : backing_page_capacity s' = backing_page_capacity s;
  lk_table : backing_table s' = backing_table s;
  lk_hhdm : hhdm_offset s' = hhdm_offset s /\ ramfs_hhdm_offset s' = ramfs_hhdm_offset s;
}.

Lemma linked_other s s' k h i fp p j : linked s s' k h i fp p -> j <> k -> backing_pages s' j = backing_pages s j.
Proof. intros Hl Hj. rewrite (lk_slots _ _ _ _ _ _ _ Hl). by replace (j =? k) with false by lia. Qed.

Lemma linked_new s s' k h i fp p :
  linked s s' k h i fp p -> backing_pages s' k = mk_backing true h (-1) i fp p (hhdm (kernel s) + p).
Proof. intros Hl. rewrite (lk_slots _ _ _ _ _ _ _ Hl). by rewrite Z.eqb_refl. Qed.

Section Link.
Context (s s' : state) (hd : Z -> Z) (F : Z -> list Z) (free : list Z) (U : Z -> Z) (k i fp p : Z).
Hypothesis HP : Pool s hd F (k :: free) U.
Hypothesis Hl : linked s s' k (hd i) i fp p.

Lemma link_free : slot_ok s k /\ in_use s k = false /\ (k ∉ free) /\ in_use s' k = true /\ forall i', k ∉ F i'.
Proof.
  destruct (proj1 (pl_free_in _ _ _ _ _ HP k)) as [Hk Hu]; [by left|].
  pose proof (pl_free_nodup _ _ _ _ _ HP) as Hnd. apply NoDup_cons in Hnd as [Hn _].
  split_and!; [done..| |]; [by unfold in_use; rewrite (linked_new _ _ _ _ _ _ _ Hl)|].
  intros i' Hi. apply (pl_in _ _ _ _ _ HP) in Hi as (_ & ? & _). congruence.
Qed.

Lemma link_in_use j : j <> k -> in_use s' j = in_use s j.
Proof. intros Hj. unfold in_use. by rewrite (linked_other _ _ _ _ _ _ _ _ Hl Hj). Qed.

Lemma link_ok j : slot_ok s' j <-> slot_ok s j.
Proof. unfold slot_ok. by rewrite (lk_cap _ _ _ _ _ _ _ Hl). Qed.

Lemma link_counts x :
  countb (in_use s') (slot_count s') = countb (in_use s) (slot_count s) + 1 /\
  countb (holds s' x) (slot_count s') = countb (holds s x) (slot_count s) + one p x.
Proof.
  destruct link_free as (Hk & Hu & _ & Hu' & _).
  destruct (held_switch s s' k x Hk Hu Hu' (lk_cap _ _ _ _ _ _ _ Hl)) as [H1 H2].
  { intros j _ Hj. rewrite link_in_use, (linked_other _ _ _ _ _ _ _ _ Hl Hj) by done. done. }
  split; [done|]. by rewrite (linked_new _ _ _ _ _ _ _ Hl) in H2.
Qed.

Lemma link_lists :
  (forall k', k' ∈ F i -> file_page (backing_pages s k') <> fp) ->
  (forall i', chain (fun j => next (backing_pages s' j)) (upd hd i k i') (upd F i (k :: F i) i')) /\
  (forall i' j, j ∈ upd F i (k :: F i) i' <-> slot_ok s' j /\ in_use s' j = true /\ owner (backing_pages s' j) = i') /\
  (forall i', NoDup (upd F i (k :: F i) i')) /\
  (forall i' j j', j ∈ upd F i (k :: F i) i' -> j' ∈ upd F i (k :: F i) i' ->
     file_page (backing_pages s' j) = file_page (backing_pages s' j') -> j = j').
Proof.
  intros Hfp. destruct link_free as (Hk & Hu & Hkf & Hu' & HkF). pose proof (linked_new _ _ _ _ _ _ _ Hl) as Hnew.
  pose proof (fun j => linked_other _ _ _ _ _ _ _ j Hl) as Hoth.
  assert (forall i' j, j ∈ F i' -> j <> k) as Hne by (intros i' j Hj ->; by eapply HkF).
  split_and!; intros i'; unfold upd; destruct (Z.eqb_spec i' i) as [->|Hi].
  - simpl. unfold slot_ok in Hk. split_and!; [done|lia|]. rewrite Hnew. simpl.
    apply (chain_ext (fun j => next (backing_pages s j))); [|apply HP]. intros j Hj. rewrite Hoth; [done|eauto].
  - apply (chain_ext (fun j => next (backing_pages s j))); [|apply HP]. intros j Hj. rewrite Hoth; [done|eauto].
  - intros j. rewrite elem_of_cons, (pl_in _ _ _ _ _ HP), link_ok. destruct (Z.eq_dec j k) as [->|Hj].
    { rewrite Hnew. naive_solver. }
    rewrite link_in_use, Hoth by done. naive_solver.
  - intros j. rewrite (pl_in _ _ _ _ _ HP), link_ok. destruct (Z.eq_dec j k) as [->|Hj].
    { rewrite Hnew. simpl. naive_solver congruence. }
    by rewrite link_in_use, Hoth.
  - apply NoDup_cons. split; [apply HkF|apply HP].
  - apply HP.
  - intros j j'. rewrite !elem_of_cons. intros [->|Hj] [->|Hj']; [done|..].
    + rewrite Hnew, Hoth by eauto. intros He. simpl in He. exfalso. by eapply Hfp.
    + rewrite Hnew, (Hoth j) by eauto. intros He. simpl in He. exfalso. by eapply Hfp.
    + rewrite !Hoth by eauto. by eapply HP.
  - intros j j' Hj Hj'. rewrite !Hoth by eauto. by eapply HP.
Qed.

Lemma pool_link :
  (forall k', k' ∈ F i -> file_page (backing_pages s k') <> fp) ->
  Pool s' (upd hd i k) (upd F i (k :: F i)) free U.
Proof.
  intros Hfp. destruct (link_lists Hfp) as (L1 & L2 & L3 & L4). destruct link_free as (Hk & Hu & Hkf & Hu' & _).
  pose proof (linked_new _ _ _ _ _ _ _ Hl) as Hnew. pose proof (fun j => linked_other _ _ _ _ _ _ _ j Hl) as Hoth.
  destruct (lk_machine _ _ _ _ _ _ _ Hl) as [Hm [Hh Ht]]. pose proof (lk_fresh _ _ _ _ _ _ _ Hl) as Hfr.
  destruct (pool_unowned _ _ _ _ _ HP p (fresh_rc _ _ _ Hfr)) as (_ & _ & Hun).
  split; try done.
  - rewrite Hh. destruct (lk_hhdm _ _ _ _ _ _ _ Hl) as [-> ->]. apply HP.
  - rewrite (lk_cap _ _ _ _ _ _ _ Hl). apply HP.
  - rewrite (lk_cap _ _ _ _ _ _ _ Hl), (lk_table _ _ _ _ _ _ _ Hl), Hh, Ht. apply HP.
  - rewrite (lk_head _ _ _ _ _ _ _ Hl). destruct (pl_free _ _ _ _ _ HP) as (_ & _ & Hc).
    eapply chain_ext; [|done]. intros j Hj. rewrite Hoth; [done|]. intros ->. done.
  - intros j. rewrite link_ok. destruct (Z.eq_dec j k) as [->|Hj]; [naive_solver congruence|].
    rewrite link_in_use by done. pose proof (pl_free_in _ _ _ _ _ HP j) as Hf. rewrite elem_of_cons in Hf. tauto.
  - pose proof (pl_free_nodup _ _ _ _ _ HP) as Hnd. by apply NoDup_cons in Hnd as [_ ?].
  - rewrite (lk_count _ _ _ _ _ _ _ Hl), (pl_count _ _ _ _ _ HP). destruct (link_counts 0). lia.
  - intros j Hj Hju. apply link_ok in Hj. rewrite Hh. destruct (Z.eq_dec j k) as [->|Hjk].
    + rewrite Hnew. simpl. split; [done|]. apply Hfr.
    + rewrite Hoth by done. rewrite link_in_use in Hju by done. by apply HP.
  - intros j j' Hj Hj'. apply link_ok in Hj, Hj'. destruct (Z.eq_dec j k) as [->|Hjk], (Z.eq_dec j' k) as [->|Hjk']; [done|..];
      rewrite ?Hnew, ?Hoth, ?(link_in_use j), ?(link_in_use j') by done; simpl; intros Hju Hju' He.
    + exfalso. by eapply (Hun j').
    + exfalso. by eapply (Hun j).
    + by apply (pl_distinct _ _ _ _ _ HP).
  - apply HP.
  - intros x. rewrite (fresh_rc' _ _ _ Hfr), (pl_rc _ _ _ _ _ HP). unfold held, table_refs.
    rewrite (lk_cap _ _ _ _ _ _ _ Hl), (lk_table _ _ _ _ _ _ _ Hl), Hh. destruct (link_counts x). lia.
Qed.
End Link.

(** ** Growing *)

Lemma chain_down nx idx h0 n :
  h0 < 0 -> 0 <= idx -> (forall j, idx <= j < idx + Z.of_nat n -> nx j = if j =? idx then h0 else j - 1) ->
  chain nx (if (n =? 0)%nat then h0 else idx + Z.of_nat n - 1) (reverse (seqZ idx (Z.of_nat n))).
Proof.
  intros Hh Hi. induction n as [|n IH]; intros Hnx; [done|].
  rewrite seqZ_S, reverse_snoc. simpl. split_and!; [lia..|]. rewrite Hnx by lia.
  replace (if idx + Z.of_nat n =? idx then h0 else idx + Z.of_nat n - 1)
    with (if (n =? 0)%nat then h0 else idx + Z.of_nat n - 1).
  - apply IH. intros j Hj. apply Hnx. lia.
  - destruct n; cbn -[Z.of_nat]; zcases; lia.
Qed.

Lemma init_range_spec n idx s :
  let s' := init_backing_range n idx s in
  same_pool (put_free_head (backing_page_free_head s') (put_slots s (backing_pages s'))) s' /\
  nodes s' = nodes s /\ kernel s' = kernel s /\ next_ino s' = next_ino s /\ ramfs_now_sec s' = ramfs_now_sec s /\
  backing_page_free_head s' = (if (n =? 0)%nat then backing_page_free_head s else idx + Z.of_nat n - 1) /\
  forall j, backing_pages s' j =
    let b := backing_pages s j in
    if (idx <=? j) && (j <? idx + Z.of_nat n)
    then mk_backing (bp_used b) (-1) (if j =? idx then backing_page_free_head s else j - 1) (-1) (file_page b) (pa b) (data b)
    else b.
Proof.
  revert idx s. induction n as [|n IH]; intros idx s; cbn [init_backing_range].
  { simpl. split_and!; [by repeat split|done..|]. intros j. 
    destruct (Z.leb_spec idx j), (Z.ltb_spec j (idx + Z.of_nat 0)); simpl in *; (lia || done). }
  match goal with |- context [init_backing_range n ?i ?t] => destruct (IH i t) as (H1 & H2 & H3 & H4 & H5 & H6 & H7); clear IH;
    set (s' := init_backing_range n i t) in * end.
  cbv zeta. split_and!; [|done..| |].
  - destruct H1 as (E1 & E2 & E3 & E4 & E5 & E6 & E7). by repeat split.
  - rewrite H6. simpl. destruct n; simpl; lia.
  - intros j. rewrite H7. cbn -[Z.of_nat]. unfold upd.
    destruct (Z.eqb_spec j idx) as [->|Hj].
    + replace ((idx + 1 <=? idx) && _) with false by (zcases; simpl; lia).
      by replace ((idx <=? idx) && (idx <? idx + Z.of_nat (S n))) with true by (zcases; simpl; lia).
    + replace ((idx <=? j) && (j <? idx + Z.of_nat (S n))) with ((idx + 1 <=? j) && (j <? idx + 1 + Z.of_nat n))
        by (zcases; simpl; lia).
      destruct ((idx + 1 <=? j) && (j <? idx + 1 + Z.of_nat n)); [|done].
      f_equal. destruct (Z.eqb_spec j (idx + 1)); [lia|done].
Qed.

(** A table of [cap] slots replaces the old one, which had no free slot. *)
Record regrown (s s' : state) (p cap : Z) : Prop := {
  rg_cap : backing_page_capacity s < cap <= RAMFS_MAX_BACKING_PAGES /\ backing_page_capacity s' = cap;
  rg_old : forall j, slot_ok s j -> backing_pages s' j = backing_pages s j;
  rg_new : forall j, backing_page_capacity s <= j < cap ->
    in_use s' j = false /\
    free_next (backing_pages s' j) = if j =? backing_page_capacity s then backing_page_free_head s else j - 1;
  rg_head : backing_page_free_head s' = cap - 1;
  rg_count : backing_page_used_count s' = backing_page_used_count s;
  rg_table : backing_table s' = hhdm (kernel s) + p /\ 0 < p /\ p mod PAGE_SIZE = 0 /\
             p + table_pages cap * PAGE_SIZE <= PAGE_SIZE * tracked (kernel s);
  rg_hhdm : hhdm_offset s' = hhdm_offset s /\ ramfs_hhdm_offset s' = ramfs_hhdm_offset s;
  rg_machine : machine_ok (kernel s') /\ same_cfg (kernel s) (kernel s');
  rg_rc : forall x, rc (kernel s') x = rc (kernel s) x + run p (table_pages cap) x - table_refs s x;
}.

Lemma pool_grow s s' hd F U p cap :
  Pool s hd F [] U -> regrown s s' p cap ->
  Pool s' hd F (reverse (seqZ (backing_page_capacity s) (cap - backing_page_capacity s))) U.
Proof.
  intros HP Hg. destruct (rg_cap _ _ _ _ Hg) as [[Hlt Hmax] Hcap]. pose proof (pl_cap _ _ _ _ _ HP) as [Hc0 _].
  destruct (rg_machine _ _ _ _ Hg) as [Hm [Hh Ht]].
  assert (forall j, slot_ok s j -> slot_ok s' j) as Hok by (unfold slot_ok; lia).
  assert (forall j, slot_ok s' j -> in_use s' j = true -> slot_ok s j /\ backing_pages s' j = backing_pages s j) as Hold.
  { unfold slot_ok. rewrite Hcap. intros j Hj Hu. destruct (Z.lt_ge_cases j (backing_page_capacity s)) as [Hj'|Hj'].
    - split; [lia|]. apply (rg_old _ _ _ _ Hg). unfold slot_ok. lia.
    - destruct (rg_new _ _ _ _ Hg j) as [? _]; [lia|congruence]. }
  assert (forall i k, k ∈ F i -> slot_ok s k /\ in_use s k = true /\ backing_pages s' k = backing_pages s k) as HF.
  { intros i k Hk. apply (pl_in _ _ _ _ _ HP) in Hk as (? & ? & _). split_and!; [done..|]. by apply Hg. }
  assert (forall j, slot_ok s j -> in_use s j = true) as Hfull.
  { intros j Hj. destruct (in_use s j) eqn:E; [done|]. assert (j ∈ @nil Z) as H by (by apply (pl_free_in _ _ _ _ _ HP)).
    by apply not_elem_of_nil in H. }
  assert (forall f g, (forall j, slot_ok s j -> f j = g j) -> (forall j, backing_page_capacity s <= j < cap -> f j = false) ->
            countb f (slot_count s') = countb g (slot_count s)) as Hcnt.
  { intros f g H1 H2. unfold slot_count. rewrite Hcap.
    rewrite (countb_extend f (Z.to_nat (backing_page_capacity s)) (Z.to_nat cap)) by (lia || (intros; apply H2; lia)).
    apply countb_ext. intros j Hj. apply H1. unfold slot_ok. lia. }
  split; try done.
  - rewrite Hh. destruct (rg_hhdm _ _ _ _ Hg) as [-> ->]. apply HP.
  - rewrite Hcap. lia.
  - right. exists p. rewrite Hcap, Hh, Ht. destruct (rg_table _ _ _ _ Hg) as (-> & ? & ? & ?). split_and!; (done || lia).
  - rewrite (rg_head _ _ _ _ Hg). pose proof (pl_free _ _ _ _ _ HP) as Hf. simpl in Hf.
    replace (cap - backing_page_capacity s) with (Z.of_nat (Z.to_nat (cap - backing_page_capacity s))) by lia.
    pose proof (chain_down (fun k => free_next (backing_pages s' k)) (backing_page_capacity s) (backing_page_free_head s)
      (Z.to_nat (cap - backing_page_capacity s)) Hf Hc0) as Hch.
    replace (_ =? 0)%nat with false in Hch by (symmetry; apply Nat.eqb_neq; lia).
    replace (backing_page_capacity s + Z.of_nat (Z.to_nat (cap - backing_page_capacity s)) - 1) with (cap - 1) in Hch by lia.
    apply Hch. intros j Hj. apply (rg_new _ _ _ _ Hg). lia.
  - intros k. rewrite elem_of_reverse, elem_of_seqZ. unfold slot_ok. rewrite Hcap. split.
    + intros Hk. split; [lia|]. apply (rg_new _ _ _ _ Hg). lia.
    + intros [Hk Hu]. destruct (Z.lt_ge_cases k (backing_page_capacity s)); [|lia].
      assert (slot_ok s k) as Hk' by (unfold slot_ok; lia). specialize (Hfull k Hk').
      unfold in_use in Hu, Hfull. rewrite (rg_old _ _ _ _ Hg k Hk') in Hu. congruence.
  - rewrite reverse_Permutation; apply NoDup_seqZ.
  - intros i. eapply chain_ext; [|apply HP]. intros k Hk. by destruct (HF i k Hk) as (_ & _ & ->).
  - intros i k. rewrite (pl_in _ _ _ _ _ HP). split.
    + intros (Hk & Hu & Ho). unfold in_use. rewrite (rg_old _ _ _ _ Hg k Hk). split_and!; [by apply Hok|done..].
    + intros (Hk & Hu & Ho). destruct (Hold k Hk Hu) as [Hk' He]. rewrite He in Ho. split_and!; [done|by apply Hfull|done].
  - apply HP.
  - intros i k k' Hk Hk'. destruct (HF i k Hk) as (_ & _ & ->), (HF i k' Hk') as (_ & _ & ->). by eapply HP.
  - rewrite (rg_count _ _ _ _ Hg), (pl_count _ _ _ _ _ HP). symmetry. apply Hcnt.
    + intros j Hj. unfold in_use. by rewrite (rg_old _ _ _ _ Hg j Hj).
    + intros j Hj. by apply Hg.
  - intros k Hk Hu. destruct (Hold k Hk Hu) as [Hk' ->]. rewrite Hh. by apply HP; [|apply Hfull].
  - intros k k' Hk Hk2 Hu Hu2. destruct (Hold k Hk Hu) as [Hk' ->], (Hold k' Hk2 Hu2) as [Hk2' ->].
    by apply (pl_distinct _ _ _ _ _ HP); [| |apply Hfull..].
  - apply HP.
  - intros x. rewrite (rg_rc _ _ _ _ Hg), (pl_rc _ _ _ _ _ HP). unfold held.
    rewrite (Hcnt (holds s' x) (holds s x)).
    + unfold table_refs. destruct (rg_table _ _ _ _ Hg) as (-> & ? & _). rewrite Hcap, Hh.
      pose proof (m_direct _ (pl_machine _ _ _ _ _ HP)). replace (hhdm (kernel s) + p =? 0) with false by lia.
      replace (hhdm (kernel s) + p - hhdm (kernel s)) with p by lia. lia.
    + intros j Hj. unfold holds, in_use. by rewrite (rg_old _ _ _ _ Hg j Hj).
    + intros j Hj. unfold holds. by destruct (rg_new _ _ _ _ Hg j Hj) as [-> _].
Qed.

End RamfsInv.
