(* ===== verification/RamfsPool.v ===== *)
(** Specifications of the pool operations of [kernel/src/ramfs.c]: growing the
    table, taking and freeing slots, finding the slot of a file page. *)

From Stdlib Require Import ZArith Lia String Ascii.
From stdpp Require Import base numbers list option.
From S2P Require Import Prelude Mem Pmm PmmSpec Vmm VmmInv Ramfs RamfsInv.
Import Mem Kstr Pmm Vmm VmmInv Ramfs RamfsInv list_basics.list list_relations.list.

Open Scope list_scope.
Open Scope Z_scope.
Open Scope c_scope.

Module RamfsPool.

Definition is_page (w : machine) (x : Z) : Prop :=
  0 <= x /\ x mod PAGE_SIZE = 0 /\ x + PAGE_SIZE <= PAGE_SIZE * tracked w.

Definition off_page (w : machine) (x a : Z) : Prop := a < hhdm w + x \/ hhdm w + x + PAGE_SIZE <= a.

(** [a] is in no page that the pool may take or give back: free pages and the
    table. *)
Definition safe (s : state) (U : Z -> Z) (a : Z) : Prop :=
  forall x, is_page (kernel s) x -> U x = 0 ->
    (forall k, slot_ok s k -> in_use s k = true -> pa (backing_pages s k) <> x) -> off_page (kernel s) x a.

(** [s'] has the nodes of [s] but for the heads of their chains, the slots in use
    of [s] but for the links, and the same bytes in safe memory. *)
Record extends (U : Z -> Z) (s s' : state) : Prop := {
  ex_nodes : forall i, nodes s' i = set_first_page (first_page (nodes s' i)) (nodes s i);
  ex_clock : ramfs_now_sec s' = ramfs_now_sec s;
  ex_used : forall k, slot_ok s k -> in_use s k = true -> slot_ok s' k /\ in_use s' k = true /\
              backing_pages s' k = set_next (next (backing_pages s' k)) (backing_pages s k);
  ex_cfg : same_cfg (kernel s) (kernel s');
  ex_mem : forall a, safe s U a -> memory s' a = memory s a;
}.

Lemma set_first_page_same n : n = set_first_page (first_page n) n.
Proof. by destruct n. Qed.

Lemma set_next_same b : b = set_next (next b) b.
Proof. by destruct b. Qed.

Lemma extends_refl U s : extends U s s.
Proof. split; try done; intros; (split_and!; [done|done|apply set_next_same]) || apply set_first_page_same. Qed.

Lemma extends_safe U s s' a : extends U s s' -> safe s U a -> safe s' U a.
Proof.
  intros He Ha x Hx HU Hk. destruct (ex_cfg _ _ _ He) as [Hh Ht]. unfold is_page, off_page in *.
  rewrite Ht in Hx. rewrite Hh. apply Ha; [done..|]. intros k Hok Hu. destruct (ex_used _ _ _ He k Hok Hu) as (H1 & H2 & H3).
  specialize (Hk k H1 H2). by rewrite H3 in Hk.
Qed.

Lemma extends_trans U s1 s2 s3 : extends U s1 s2 -> extends U s2 s3 -> extends U s1 s3.
Proof.
  intros H12 H23. split.
  - intros i. rewrite (ex_nodes _ _ _ H23 i) at 1. by rewrite (ex_nodes _ _ _ H12 i).
  - rewrite (ex_clock _ _ _ H23). apply H12.
  - intros k Hk Hu. destruct (ex_used _ _ _ H12 k Hk Hu) as (Hk2 & Hu2 & E2).
    destruct (ex_used _ _ _ H23 k Hk2 Hu2) as (Hk3 & Hu3 & E3). split_and!; [done..|]. rewrite E3 at 1. by rewrite E2.
  - destruct (ex_cfg _ _ _ H12), (ex_cfg _ _ _ H23). split; congruence.
  - intros a Ha. rewrite (ex_mem _ _ _ H23); [by apply H12|]. by eapply extends_safe.
Qed.

(** An address off the safe pages is off every page nothing refers to. *)
Lemma safe_unowned s hd F free U a :
  Pool s hd F free U -> safe s U a ->
  forall x, is_page (kernel s) x -> rc (kernel s) x = 0 -> off_page (kernel s) x a.
Proof. intros HP Ha x Hx Hr. destruct (pool_unowned _ _ _ _ _ HP x Hr) as (H1 & _ & H3). by apply Ha. Qed.

(** A step that leaves the nodes and the slots in use alone. *)
Lemma extends_pool U s s' :
  nodes s' = nodes s -> ramfs_now_sec s' = ramfs_now_sec s ->
  (forall k, slot_ok s k -> in_use s k = true -> slot_ok s' k /\ backing_pages s' k = backing_pages s k) ->
  same_cfg (kernel s) (kernel s') -> (forall a, safe s U a -> memory s' a = memory s a) -> extends U s s'.
Proof.
  intros Hn Hc Hu Hcfg Hmem. split; [|done| |done|done].
  - intros i. rewrite Hn. apply set_first_page_same.
  - intros k Hk Hk'. destruct (Hu k Hk Hk') as [H1 H2]. unfold in_use in *. rewrite H2. split_and!; [done..|apply set_next_same].
Qed.

Lemma table_pages_range cap :
  0 < cap <= RAMFS_MAX_BACKING_PAGES -> 0 < table_pages cap < 2 ^ 20.
Proof.
  intros [H0 H1]. change RAMFS_MAX_BACKING_PAGES with 1048576 in H1. unfold table_pages.
  change sizeof_backing_page with 40. change RAMFS_PAGE_SIZE with 4096.
  rewrite (u64_small (cap * 40)) by (unfold is_u64; lia). rewrite u64_small by (unfold is_u64; lia). dmlia.
Qed.

(** Zeroing the run changes only pages of the run. *)
Lemma zero_run_mem w p n a :
  machine_ok w -> 0 <= p -> p mod PAGE_SIZE = 0 -> 0 < n -> p + n * PAGE_SIZE <= PAGE_SIZE * tracked w ->
  (forall x, is_page w x -> run p n x = 1 -> off_page w x a) ->
  kmemset (m_mem w) (hhdm w + p) 0 (n * PAGE_SIZE) a = m_mem w a.
Proof.
  intros Hm Hp Hal Hn Hle Hoff. destruct (m_direct w Hm) as [Hh Hd]. rewrite kmemset_spec.
  2:{ unfold range_ok, PAGE_SIZE in *. lia. }
  destruct ((hhdm w + p <=? a) && (a <? hhdm w + p + n * PAGE_SIZE)) eqn:E; [|done]. zbool.
  set (x := p + (a - hhdm w - p) / PAGE_SIZE * PAGE_SIZE).
  assert (x <= a - hhdm w < x + PAGE_SIZE /\ x mod PAGE_SIZE = 0 /\ p <= x /\ x + PAGE_SIZE <= p + n * PAGE_SIZE) as (H1 & H2 & H3 & H4).
  { unfold x, PAGE_SIZE in *. split_and!; dmlia. }
  exfalso. destruct (Hoff x) as [?|?]; [..|lia|lia].
  - unfold is_page. split_and!; (done || lia).
  - unfold run. rewrite H2. replace (p <=? x) with true by lia.
    replace (x <? p + n * PAGE_SIZE) with true by (unfold PAGE_SIZE in *; lia). done.
Qed.

(** The machine after the new table is allocated and zeroed. *)
Lemma alloc_table_spec s hd F free U cap ptr s' :
  Pool s hd F free U -> 0 < cap <= RAMFS_MAX_BACKING_PAGES -> alloc_backing_table cap s = (ptr, s') ->
  exists w, s' = put_kernel s w /\ machine_ok w /\ same_cfg (kernel s) w /\
  (forall a, (forall x, is_page (kernel s) x -> rc (kernel s) x = 0 -> off_page (kernel s) x a) -> m_mem w a = memory s a) /\
  (ptr = 0 /\ (forall x, rc w x = rc (kernel s) x) \/
   exists p, ptr = hhdm (kernel s) + p /\ 0 < p /\ p mod PAGE_SIZE = 0 /\
     p + table_pages cap * PAGE_SIZE <= PAGE_SIZE * tracked (kernel s) /\
     forall x, rc w x = rc (kernel s) x + run p (table_pages cap) x).
Proof.
  intros HP Hcap. unfold alloc_backing_table. pose proof (table_pages_range cap Hcap) as Hn.
  pose proof (pl_machine _ _ _ _ _ HP) as Hm. destruct (pl_hhdm _ _ _ _ _ HP) as [_ Hh].
  destruct (pmm_alloc_contiguous_pages _ _) as [p m] eqn:E.
  destruct (alloc_run_cases (kernel s) (table_pages cap) p m Hm ltac:(lia) E) as (Hm1 & [Hc1 Hc2] & Hcase).
  destruct Hcase as [(-> & Hrc)|(Hp & Hal & _ & Hle & Hrc)].
  { intros [= <- <-]. exists (put_pmm (kernel s) m). split_and!; try done. by left. }
  replace (p =? 0) with false by lia. cbn [ramfs_hhdm_offset put_kernel]. rewrite Hh.
  pose proof (m_direct _ Hm) as [Hd0 Hd1]. pose proof (m_tracked _ Hm) as Htr.
  rewrite u64_small by (unfold is_u64, PAGE_SIZE in *; lia).
  change RAMFS_PAGE_SIZE with PAGE_SIZE. rewrite u64_small by (unfold is_u64, PAGE_SIZE in *; lia).
  change (memory (put_kernel s (put_pmm (kernel s) m))) with (m_mem (kernel s)).
  pose proof (fun a => zero_run_mem (kernel s) p (table_pages cap) a Hm ltac:(lia) Hal ltac:(lia) Hle) as Hz.
  pose proof (fun a => kmemset_u8 (m_mem (kernel s)) (hhdm (kernel s) + p) 0 (table_pages cap * PAGE_SIZE) a (m_bytes _ Hm)) as H8.
  revert Hz H8. generalize (kmemset (m_mem (kernel s)) (hhdm (kernel s) + p) 0 (table_pages cap * PAGE_SIZE)).
  intros mem Hz H8 [= <- <-]. exists (put_mem (put_pmm (kernel s) m) mem). split_and!; try done.
  - destruct Hm1 as [K1 K2 K3 K4]. by split.
  - intros a Ha. apply Hz. intros x Hx Hr. apply Ha; [done|]. by apply Hrc.
  - right. exists p. split_and!; try done. intros x. apply Hrc.
Qed.

Lemma free_table_spec s hd F free U t :
  Pool s hd F free U -> machine_ok (kernel t) -> same_cfg (kernel s) (kernel t) ->
  ramfs_hhdm_offset t = ramfs_hhdm_offset s -> (forall x, table_refs s x <= rc (kernel t) x) ->
  exists w', free_backing_table (backing_table s) (backing_page_capacity s) t = put_kernel t w' /\
    machine_ok w' /\ same_cfg (kernel s) w' /\ m_mem w' = memory t /\
    forall x, rc w' x = rc (kernel t) x - table_refs s x.
Proof.
  intros HP Hm [Hc1 Hc2] Hh Hrc. unfold free_backing_table, table_refs in *.
  destruct (pl_table _ _ _ _ _ HP) as [[Et _]|(p & Et & Hp & Hal & Hle & Hcap)]; rewrite Et in *; clear Et.
  { exists (kernel t). split_and!; try done; [by destruct t|]. intros x. simpl. lia. }
  pose proof (pl_machine _ _ _ _ _ HP) as Hm0. pose proof (m_direct _ Hm0) as [Hd0 Hd1]. pose proof (m_tracked _ Hm0) as Htr.
  replace (hhdm (kernel s) + p =? 0) with false in * by lia. destruct (pl_hhdm _ _ _ _ _ HP) as [_ Hh']. rewrite Hh, Hh'.
  replace (hhdm (kernel s) + p - hhdm (kernel s)) with p in * by lia.
  pose proof (table_pages_range (backing_page_capacity s)) as Hn.
  assert (0 < table_pages (backing_page_capacity s) < 2 ^ 20) as Hn' by (apply Hn; pose proof (pl_cap _ _ _ _ _ HP); lia).
  rewrite u64_small by (unfold is_u64, PAGE_SIZE in *; lia).
  destruct (free_run_cases (Z.to_nat (table_pages (backing_page_capacity s))) p (kernel t) Hm Hal) as (K1 & [K2 K2'] & K3 & K4).
  - lia.
  - rewrite Z2Nat.id by lia. unfold PAGE_SIZE in *. lia.
  - intros q. rewrite Z2Nat.id by lia. apply Hrc.
  - eexists. split; [reflexivity|]. split_and!; [done|split; congruence|done|].
    intros x. rewrite K4, Z2Nat.id by lia. done.
Qed.

Lemma grow_spec s hd F U ok s' :
  Pool s hd F [] U -> grow_backing_pages s = (ok, s') ->
  extends U s s' /\ nodes s' = nodes s /\
  if ok then exists k free, Pool s' hd F (k :: free) U else Pool s' hd F [] U.
Proof.
  intros HP. unfold grow_backing_pages. pose proof (pl_cap _ _ _ _ _ HP) as [Hc0 Hc1].
  set (c0 := if backing_page_capacity s =? 0 then RAMFS_INITIAL_BACKING_PAGES else u64 (backing_page_capacity s * 2)).
  set (cap := if (c0 <=? backing_page_capacity s) || _ then _ else _).
  assert (cap <= RAMFS_MAX_BACKING_PAGES) as Hmax by (unfold cap; zcases; simpl; lia).
  destruct (Z.leb_spec cap (backing_page_capacity s)) as [Hle|Hlt]; [intros [= <- <-]; split_and!; [apply extends_refl|done..]|].
  destruct (alloc_backing_table cap s) as [ptr s1] eqn:E.
  destruct (alloc_table_spec s hd F [] U cap ptr s1 HP ltac:(lia) E) as (w & -> & Hm & Hcfg & Hmem & Hcase).
  destruct Hcase as [(-> & Hrc)|(p & -> & Hp & Hal & Htab & Hrc)].
  { intros [= <- <-]. split_and!; [|done|by apply (pool_same s)]. apply extends_pool; [done..|].
    intros a Ha. apply Hmem. by eapply safe_unowned. }
  pose proof (m_direct _ (pl_machine _ _ _ _ _ HP)) as [Hd _]. replace (hhdm (kernel s) + p =? 0) with false by lia.
  cbn [backing_table put_kernel backing_pages]. set (contents := fun i => if negb _ && _ then _ else _).
  set (s2 := put_table contents (hhdm (kernel s) + p) cap (put_kernel s w)).
  set (n := Z.to_nat (cap - backing_page_capacity s)).
  destruct (init_range_spec n (backing_page_capacity s) s2) as (I1 & I2 & I3 & I4 & I5 & I6 & I7).
  set (s3 := init_backing_range n (backing_page_capacity s) s2) in *.
  destruct (free_table_spec s hd F [] U s3 HP) as (w' & -> & Hm' & Hcfg' & Hmem' & Hrc').
  { by rewrite I3. } { by rewrite I3. } { by destruct I1 as (_ & _ & _ & _ & _ & _ & ->). }
  { intros x. rewrite I3. cbn. rewrite Hrc, (pl_rc _ _ _ _ _ HP). unfold held. pose proof (pl_U _ _ _ _ _ HP x).
    pose proof (countb_bounds (holds s x) (slot_count s)). pose proof (run_range p (table_pages cap) x). lia. }
  assert (forall j, slot_ok s j -> backing_pages s3 j = backing_pages s j) as Hold.
  { intros j Hj. rewrite I7. unfold slot_ok in Hj. replace ((_ <=? j) && _) with false by (zcases; simpl; lia).
    cbn. unfold contents. destruct (pl_table _ _ _ _ _ HP) as [[_ ?]|(p' & -> & ? & _)]; [lia|].
    replace (hhdm (kernel s) + p' =? 0) with false by lia. by replace (j <? _) with true by lia. }
  assert (forall j, backing_page_capacity s <= j < cap -> backing_pages s3 j =
    mk_backing false (-1) (if j =? backing_page_capacity s then backing_page_free_head s else j - 1) (-1) 0 0 0) as Hnew.
  { intros j Hj. rewrite I7. replace ((_ <=? j) && _) with true by (unfold n; zcases; simpl; lia).
    cbn. unfold contents. replace (j <? backing_page_capacity s) with false by lia. by rewrite andb_false_r. }
  assert (backing_page_capacity s3 = cap) as Hcap3 by (by destruct I1 as (_ & _ & _ & -> & _)).
  intros [= <- <-]. split_and!; [|done|].
  - apply extends_pool; [done|done| |done|].
    + intros k Hk _. cbn. split; [unfold slot_ok in *; cbn; lia|by apply Hold].
    + intros a Ha. unfold memory. cbn. rewrite Hmem'. unfold memory. rewrite I3. apply Hmem. by eapply safe_unowned.
  - assert (Pool (put_kernel s3 w') hd F (reverse (seqZ (backing_page_capacity s) (cap - backing_page_capacity s))) U) as HP'.
    { apply (pool_grow s _ hd F U p cap HP). destruct I1 as (E1 & _ & E3 & _ & E5 & _ & E7).
      split; cbn; unfold in_use; cbn; try done.
      - intros j Hj. by rewrite Hnew.
      - rewrite I6. replace (n =? 0)%nat with false by (symmetry; apply Nat.eqb_neq; unfold n; lia). unfold n. lia.
      - intros x. rewrite Hrc', I3. cbn. rewrite Hrc. lia. }
    destruct (reverse _) as [|k free] eqn:Er; [|by eauto].
    exfalso. apply (f_equal length) in Er. rewrite length_reverse, length_seqZ in Er. simpl in Er. lia.
Qed.

(** ** Slots *)

Definition taken_slot : ramfs_backing_page := mk_backing true (-1) (-1) (-1) 0 0 0.

(** [s] with its first free slot [k] taken. *)
Definition taken (k : Z) (s : state) : state :=
  put_used_count (backing_page_used_count s + 1) (put_slot k taken_slot (put_free_head (free_next (backing_pages s k)) s)).

Lemma pool_used_count s hd F free U :
  Pool s hd F free U -> 0 <= backing_page_used_count s <= RAMFS_MAX_BACKING_PAGES.
Proof.
  intros HP. rewrite (pl_count _ _ _ _ _ HP). pose proof (countb_bounds (in_use s) (slot_count s)) as H.
  unfold slot_count in *. pose proof (pl_cap _ _ _ _ _ HP). lia.
Qed.

Lemma alloc_slot_spec s hd F free U k s' :
  Pool s hd F free U -> alloc_backing_slot s = (k, s') ->
  k = -1 /\ Pool s' hd F [] U /\ extends U s s' /\ nodes s' = nodes s \/
  exists s1 free1, Pool s1 hd F (k :: free1) U /\ extends U s s1 /\ nodes s1 = nodes s /\ s' = taken k s1.
Proof.
  intros HP. unfold alloc_backing_slot.
  destruct (if backing_page_free_head s <? 0 then grow_backing_pages s else (true, s)) as [ok s1] eqn:E.
  assert (extends U s s1 /\ nodes s1 = nodes s /\
    if ok then exists k free, Pool s1 hd F (k :: free) U else Pool s1 hd F [] U) as (He & Hn & Hp).
  { pose proof (pl_free _ _ _ _ _ HP) as Hf. destruct free as [|k0 free0]; simpl in Hf.
    - replace (backing_page_free_head s <? 0) with true in E by lia. by eapply grow_spec.
    - replace (backing_page_free_head s <? 0) with false in E by lia. injection E as <- <-.
      split_and!; [apply extends_refl|done|by eauto]. }
  destruct ok; cbn [negb]; [|intros [= <- <-]; by left].
  destruct Hp as (k1 & free1 & Hp). pose proof (pl_free _ _ _ _ _ Hp) as [Hh _]. rewrite Hh.
  intros [= <- <-]. right. exists s1, free1. split_and!; [done..|].
  pose proof (pool_used_count _ _ _ _ _ Hp) as Hc. change RAMFS_MAX_BACKING_PAGES with 1048576 in Hc.
  unfold taken. cbn [backing_page_used_count put_slot put_slots put_free_head]. by rewrite u64_small by (unfold is_u64; lia).
Qed.

(** The slot of file page [fp] in a chain. *)
Definition find_slot (s : state) (l : list Z) (fp : Z) : option Z :=
  List.find (fun k => file_page (backing_pages s k) =? fp) l.

Lemma find_slot_Some s l fp k : find_slot s l fp = Some k -> k ∈ l /\ file_page (backing_pages s k) = fp.
Proof. intros H. apply find_some in H as [H1 H2]. split; [by apply list_elem_of_In|lia]. Qed.

Lemma find_slot_None s l fp k : find_slot s l fp = None -> k ∈ l -> file_page (backing_pages s k) <> fp.
Proof. intros H Hk He. apply list_elem_of_In in Hk. apply (find_none _ _ H) in Hk. lia. Qed.

Lemma find_slot_ext s s' l fp :
  (forall k, k ∈ l -> file_page (backing_pages s' k) = file_page (backing_pages s k)) -> find_slot s' l fp = find_slot s l fp.
Proof.
  unfold find_slot. induction l as [|k l IH]; intros H; [done|]. cbn [List.find]. rewrite H by left.
  destruct (_ =? fp); [done|]. apply IH. intros j Hj. apply H. by right.
Qed.

Lemma find_iter s fp h l fuel :
  chain (fun k => next (backing_pages s k)) h l -> (length l < fuel)%nat ->
  iter (find_step s fp) fuel h = Some (default (-1) (find_slot s l fp)).
Proof.
  revert h fuel. induction l as [|k l IH]; intros h [|fuel] Hc Hf; simpl in *; try lia; unfold find_step at 1.
  - by replace (0 <=? h) with false by lia.
  - destruct Hc as (-> & H0 & Hc). replace (0 <=? k) with true by lia.
    unfold find_slot. cbn [List.find]. destruct (_ =? fp); [done|]. apply IH; [done|lia].
Qed.

Lemma find_spec s hd F free U i fp :
  Pool s hd F free U -> first_page (nodes s i) = hd i ->
  find_backing_page s i fp = Some (default (-1) (find_slot s (F i) fp)).
Proof.
  intros HP Hh. unfold find_backing_page. rewrite Hh. apply find_iter; [apply HP|]. by eapply chain_fits.
Qed.

(** An unused slot that was taken and given back. *)
Lemma pool_retaken s s' hd F k free U :
  Pool s hd F (k :: free) U ->
  (forall j, backing_pages s' j = if j =? k then freed_slot (free_next (backing_pages s k)) else backing_pages s j) ->
  backing_page_used_count s' = backing_page_used_count s -> backing_page_free_head s' = k ->
  backing_page_capacity s' = backing_page_capacity s -> backing_table s' = backing_table s ->
  hhdm_offset s' = hhdm_offset s -> ramfs_hhdm_offset s' = ramfs_hhdm_offset s ->
  nodes s' = nodes s -> ramfs_now_sec s' = ramfs_now_sec s ->
  machine_ok (kernel s') -> same_cfg (kernel s) (kernel s') -> (forall x, rc (kernel s') x = rc (kernel s) x) ->
  memory s' = memory s ->
  Pool s' hd F (k :: free) U /\ extends U s s'.
Proof.
  intros HP Hb Hc Hf Hcap Ht Hh Hh' Hn Hck Hm Hcfg Hrc Hmem.
  destruct (proj1 (pl_free_in _ _ _ _ _ HP k)) as [Hk Hu]; [by left|]. split.
  - apply (pool_ext s); try done; unfold in_use in *.
    + intros j. rewrite Hb. destruct (Z.eqb_spec j k) as [->|]; [by rewrite Hu|done].
    + intros j Hj. rewrite Hb. destruct (Z.eqb_spec j k) as [->|]; [congruence|done].
    + intros j Hj. rewrite Hb. destruct (Z.eqb_spec j k) as [->|]; done.
    + destruct (pl_free _ _ _ _ _ HP) as [? _]. congruence.
  - apply extends_pool; [done..| |done|by rewrite Hmem].
    intros j Hj Hju. split; [unfold slot_ok in *; by rewrite Hcap|]. rewrite Hb.
    destruct (Z.eqb_spec j k) as [->|]; [congruence|done].
Qed.

(** What [get_backing_page] with [create] does when the page is not there. *)
Definition added (s s' : state) (hd : Z -> Z) (F : Z -> list Z) (U : Z -> Z) (i fp k : Z) : Prop :=
  exists free', Pool s' (upd hd i k) (upd F i (k :: F i)) free' U /\ extends U s s' /\
    first_page (nodes s' i) = k /\ (forall j, j <> i -> first_page (nodes s' j) = first_page (nodes s j)) /\
    file_page (backing_pages s' k) = fp /\ (k ∉ F i) /\ U (pa (backing_pages s' k)) = 0 /\
    (forall j, 0 <= j < PAGE_SIZE -> memory s' (data (backing_pages s' k) + j) = 0).

Lemma extends_link s s' hd F free U k i fp p :
  Pool s hd F (k :: free) U -> linked s s' k (hd i) i fp p -> nodes s' = nodes s -> ramfs_now_sec s' = ramfs_now_sec s ->
  extends U s s'.
Proof.
  intros HP Hl Hn Hc. destruct (link_free _ _ _ _ _ _ _ _ _ _ HP Hl) as (Hk & Hu & _).
  apply extends_pool; [done..| |apply Hl|].
  - intros j Hj Hju. split; [by apply (link_ok _ _ _ _ _ _ _ Hl)|]. eapply linked_other; [done|]. congruence.
  - intros a Ha. apply (fresh_mem _ _ _ (lk_fresh _ _ _ _ _ _ _ Hl)).
    apply (safe_unowned s hd F (k :: free) U a HP Ha p); [|apply Hl].
    pose proof (lk_fresh _ _ _ _ _ _ _ Hl) as Hf. destruct (lk_machine _ _ _ _ _ _ _ Hl) as [Hm [Hh Ht]].
    unfold is_page. rewrite <- Ht. apply rc_pos; [done|]. rewrite (fresh_rc' _ _ _ Hf), (fresh_rc _ _ _ Hf).
    unfold one. rewrite decide_True by done. lia.
Qed.

Lemma get_spec s hd F free U i fp create :
  Pool s hd F free U -> first_page (nodes s i) = hd i ->
  exists k s', get_backing_page i fp create s = Some (k, s') /\
  match find_slot s (F i) fp with
  | Some k0 => k = k0 /\ s' = s
  | None =>
      if create
      then k = -1 /\ (exists free', Pool s' hd F free' U) /\ extends U s s' /\ nodes s' = nodes s \/
           0 <= k /\ added s s' hd F U i fp k
      else k = -1 /\ s' = s
  end.
Proof.
  intros HP Hh. unfold get_backing_page. rewrite (find_spec _ _ _ _ _ _ fp HP Hh). cbn [obind].
  destruct (find_slot s (F i) fp) as [k0|] eqn:Ef; cbn [default from_option id].
  { apply find_slot_Some in Ef as [Hin _]. apply (pl_in _ _ _ _ _ HP) in Hin as ([Hk _] & _).
    replace (0 <=? k0) with true by lia. exists k0, s. by split. }
  change (0 <=? -1) with false. destruct create; cbn [negb orb]; [|by exists (-1), s].
  destruct (alloc_backing_slot s) as [k s1'] eqn:Ea.
  destruct (alloc_slot_spec _ _ _ _ _ _ _ HP Ea) as [(-> & HP1 & He & Hn)|(s1 & free1 & HP1 & He & Hn & ->)].
  { exists (-1), s1'. split; [done|]. left. split_and!; try done. by eexists. }
  destruct (proj1 (pl_free_in _ _ _ _ _ HP1 k)) as [[Hk0 Hk1] Hu]; [by left|]. replace (k <? 0) with false by lia.
  assert ((k ∉ F i) /\ forall j, j ∈ F i -> file_page (backing_pages s1 j) <> fp) as [HkF Hnf].
  { split; [intros Hin; apply (pl_in _ _ _ _ _ HP1) in Hin as (_ & ? & _); congruence|].
    intros j Hj. pose proof (find_slot_None _ _ _ _ Ef Hj) as Hne. apply (pl_in _ _ _ _ _ HP) in Hj as (Hj1 & Hj2 & _).
    destruct (ex_used _ _ _ He j Hj1 Hj2) as (_ & _ & ->). done. }
  unfold alloc_backing_data.
  match goal with |- context [alloc_zero_page (kernel ?t)] => change (kernel t) with (kernel s1) end.
  destruct (alloc_zero_page (kernel s1)) as [p w] eqn:Ez.
  destruct (alloc_cases _ _ _ (pl_machine _ _ _ _ _ HP1) Ez) as (Hm & Hcfg & _ & Hcase).
  assert (forall j, upd (backing_pages s1) k taken_slot j = if j =? k then taken_slot else backing_pages s1 j) as Htk by done.
  destruct Hcase as [(-> & Hmem & Hrc)|Hfr].
  - cbn -[free_backing_slot taken]. eexists _, _. split; [reflexivity|]. left. split; [done|].
    unfold free_backing_slot, taken, free_backing_data. cbn. unfold upd. rewrite !Z.eqb_refl. cbn.
    replace (k <? 0) with false by lia. replace (backing_page_capacity s1 <=? k) with false by lia. cbn.
    pose proof (pool_used_count _ _ _ _ _ HP1) as Hc. replace (0 <? backing_page_used_count s1 + 1) with true by lia.
    set (sf := put_used_count _ _).
    destruct (pool_retaken s1 sf hd F k free1 U HP1) as [HPf Hef]; try done.
    + intros j. cbn. unfold upd. by destruct (j =? k).
    + cbn. lia.
    + split_and!; [by eexists|by eapply extends_trans|by rewrite <- Hn].
  - replace (p =? 0) with false by (pose proof (fresh_pos _ _ _ Hfr); lia). cbn -[taken].
    eexists _, _. split; [reflexivity|]. right. split; [lia|].
    set (s2 := put_slot k _ (put_kernel _ w)).
    assert (linked s1 s2 k (hd i) i fp p) as Hl.
    { split; try done.
      - intros j. cbn. unfold upd. rewrite Z.eqb_refl. destruct (Z.eqb_spec j k); [|done]. cbn. f_equal.
        + by rewrite Hn, Hh.
        + destruct (pl_hhdm _ _ _ _ _ HP1) as [-> _]. apply u64_small.
          destruct (rc_page w p Hm) as (H1 & H2 & H3).
          { rewrite (fresh_rc' _ _ _ Hfr), (fresh_rc _ _ _ Hfr). unfold one. rewrite decide_True by done. lia. }
          destruct Hcfg as [Hc1 _]. rewrite Hc1 in H3. pose proof (m_direct _ (pl_machine _ _ _ _ _ HP1)).
          unfold is_u64, PAGE_SIZE in *. lia. }
    pose proof (pool_link _ _ _ _ _ _ _ _ _ _ HP1 Hl Hnf) as HP2.
    assert (nodes s2 = nodes s) as Hn2 by (cbn; done).
    exists free1. split_and!; [by apply pool_on_node| | | | |done| |].
    + eapply extends_trans; [done|]. eapply (extends_trans U s1 s2); [by eapply (extends_link s1)|].
      split; try done; cbn; unfold upd.
      * intros j. destruct (Z.eqb_spec j i) as [->|]; [done|apply set_first_page_same].
      * intros j Hj1 Hj2. split_and!; [done..|apply set_next_same].
    + cbn. unfold upd. by rewrite Z.eqb_refl.
    + intros j Hj. cbn. unfold upd. replace (j =? i) with false by lia. by rewrite Hn.
    + change (backing_pages (on_node i (set_first_page k) s2) k) with (backing_pages s2 k).
      by rewrite (linked_new _ _ _ _ _ _ _ Hl).
    + change (backing_pages (on_node i (set_first_page k) s2) k) with (backing_pages s2 k).
      rewrite (linked_new _ _ _ _ _ _ _ Hl). apply (pool_unowned _ _ _ _ _ HP1 p), Hfr.
    + intros j Hj. change (backing_pages (on_node i (set_first_page k) s2) k) with (backing_pages s2 k).
      rewrite (linked_new _ _ _ _ _ _ _ Hl). change (memory _) with (m_mem w). cbn [data].
      destruct Hcfg as [Hc1 _]. rewrite <- Hc1. by apply (fresh_zero _ _ _ Hfr).
Qed.

(** ** Freeing *)

Lemma pool_fun_ext s hd hd' F F' free U :
  Pool s hd F free U -> (forall i, hd' i = hd i) -> (forall i, F' i = F i) -> Pool s hd' F' free U.
Proof.
  intros [] Hh HF. split; try done.
  - intros i. by rewrite Hh, HF.
  - intros i k. by rewrite HF.
  - intros i. by rewrite HF.
  - intros i k k'. rewrite HF. apply pl_pages0.
Qed.

(** What freeing slots of [i] leaves alone. *)
Record trims (i : Z) (s s' : state) : Prop := {
  tr_nodes : forall j, j <> i -> nodes s' j = nodes s j;
  tr_node : nodes s' i = set_first_page (first_page (nodes s' i)) (nodes s i);
  tr_clock : ramfs_now_sec s' = ramfs_now_sec s /\ next_ino s' = next_ino s;
  tr_other : forall k, slot_ok s k -> in_use s k = true -> owner (backing_pages s k) <> i ->
               slot_ok s' k /\ backing_pages s' k = backing_pages s k;
  tr_own : forall k, slot_ok s' k -> in_use s' k = true -> slot_ok s k /\ in_use s k = true /\
             backing_pages s' k = set_next (next (backing_pages s' k)) (backing_pages s k);
  tr_cfg : same_cfg (kernel s) (kernel s');
  tr_mem : memory s' = memory s;
}.

Lemma trims_refl i s : trims i s s.
Proof. split; try done; [apply set_first_page_same|]. intros. split_and!; [done..|apply set_next_same]. Qed.

Lemma trims_trans i s1 s2 s3 : trims i s1 s2 -> trims i s2 s3 -> trims i s1 s3.
Proof.
  intros H12 H23. split.
  - intros j Hj. rewrite (tr_nodes _ _ _ H23 j Hj). by apply H12.
  - rewrite (tr_node _ _ _ H23) at 1. by rewrite (tr_node _ _ _ H12).
  - destruct (tr_clock _ _ _ H12), (tr_clock _ _ _ H23). split; congruence.
  - intros k Hk Hu Ho. destruct (tr_other _ _ _ H12 k Hk Hu Ho) as [Hk2 E2].
    destruct (tr_other _ _ _ H23 k Hk2) as [Hk3 E3]; [unfold in_use in *; by rewrite E2|by rewrite E2|].
    split; [done|]. by rewrite E3.
  - intros k Hk Hu. destruct (tr_own _ _ _ H23 k Hk Hu) as (Hk2 & Hu2 & E2).
    destruct (tr_own _ _ _ H12 k Hk2 Hu2) as (Hk3 & Hu3 & E3). split_and!; [done..|]. rewrite E2 at 1. by rewrite E3.
  - destruct (tr_cfg _ _ _ H12), (tr_cfg _ _ _ H23). split; congruence.
  - rewrite (tr_mem _ _ _ H23). apply H12.
Qed.

Lemma free_slot_unlinked s hd F free U i l1 k l2 :
  Pool s hd F free U -> F i = l1 ++ k :: l2 ->
  let s' := free_backing_slot k (set_link i (last l1) (next (backing_pages s k)) s) in
  unlinked s s' l1 k /\ trims i s s' /\
  nodes s' i = match l1 with [] => set_first_page (next (backing_pages s k)) (nodes s i) | _ => nodes s i end.
Proof.
  intros HP HF. assert (k ∈ F i) as Hin by (rewrite HF; apply elem_of_app; right; by left).
  apply (pl_in _ _ _ _ _ HP) in Hin as (Hk & Hu & Ho). pose proof (pl_nodup _ _ _ _ _ HP i) as Hnd. rewrite HF in Hnd.
  assert (last l1 <> Some k) as Hlk.
  { intros Hl. apply last_Some_elem_of in Hl. apply NoDup_app in Hnd as (_ & Hx & _). eapply Hx; [done|by left]. }
  assert (forall j, last l1 = Some j -> slot_ok s j /\ in_use s j = true /\ owner (backing_pages s j) = i) as Hlast.
  { intros j Hj. apply (pl_in _ _ _ _ _ HP). rewrite HF. apply elem_of_app. left. by apply last_Some_elem_of. }
  destruct (pool_data _ _ _ _ _ HP k Hk Hu) as (Hd & [Hp _] & _ & Hh & _). unfold slot_ok in Hk.
  pose proof (pl_count _ _ _ _ _ HP) as Hcnt. assert (0 < backing_page_used_count s) as Hpos.
  { rewrite Hcnt. pose proof (countb_bounds (in_use s) (slot_count s)). assert (countb (in_use s) (slot_count s) <> 0); [|lia].
    intros Hz. apply (proj1 (countb_zero _ _)) with (i := k) in Hz; [congruence|unfold slot_count; lia]. }
  set (s1 := set_link i (last l1) (next (backing_pages s k)) s).
  assert (forall j, backing_pages s1 j = if decide (last l1 = Some j) then set_next (next (backing_pages s k)) (backing_pages s j)
            else backing_pages s j) as Hb.
  { intros j. unfold s1, set_link. destruct (last l1) as [q|]; [|by rewrite decide_False]. cbn. unfold upd.
    destruct (Z.eqb_spec j q) as [->|]; [by rewrite decide_True|by rewrite decide_False by congruence]. }
  assert (backing_pages s1 k = backing_pages s k) as Hbk by (rewrite Hb; by rewrite decide_False).
  assert (backing_page_capacity s1 = backing_page_capacity s /\ backing_page_used_count s1 = backing_page_used_count s /\
    kernel s1 = kernel s /\ backing_page_free_head s1 = backing_page_free_head s /\ backing_table s1 = backing_table s /\
    hhdm_offset s1 = hhdm_offset s /\ ramfs_hhdm_offset s1 = ramfs_hhdm_offset s /\ ramfs_now_sec s1 = ramfs_now_sec s /\
    next_ino s1 = next_ino s) as (E1 & E2 & E3 & E4 & E5 & E6 & E7 & E8 & E9).
  { unfold s1, set_link. by destruct (last l1). }
  assert (free_backing_slot k s1 = put_used_count (backing_page_used_count s - 1) (put_free_head k
    (put_slot k (freed_slot (backing_page_free_head s)) (put_kernel s1 (free_page (pa (backing_pages s k)) (kernel s)))))) as ->.
  { unfold free_backing_slot. rewrite Hbk, E1. unfold in_use in Hu. rewrite Hu. replace (k <? 0) with false by lia.
    replace (backing_page_capacity s <=? k) with false by lia. cbn [orb negb]. unfold free_backing_data.
    replace (data (backing_pages s k) =? 0) with false by lia. replace (pa (backing_pages s k) =? 0) with false by lia.
    cbn [negb]. rewrite E3. cbn [backing_page_used_count put_free_head put_slot put_slots put_kernel backing_page_free_head].
    rewrite E2, E4. by replace (0 <? backing_page_used_count s) with true by lia. }
  assert (same_cfg (kernel s) (free_page (pa (backing_pages s k)) (kernel s))) as Hcfg.
  { apply free_cases; [apply HP|]. by apply (pool_rc_pos _ _ _ _ _ HP). }
  split_and!.
  - split; try done; cbn. intros j. unfold upd. by rewrite Hb.
  - split; try done; unfold slot_ok, in_use; cbn; unfold upd; rewrite ?E1, ?E3; try done.
    + intros j Hj. unfold s1, set_link. destruct (last l1); [done|]. cbn. unfold upd. by replace (j =? i) with false by lia.
    + unfold s1, set_link. destruct (last l1); [apply set_first_page_same|]. cbn. unfold upd. by rewrite Z.eqb_refl.
    + intros j Hj Hju Hjo. split; [done|]. destruct (Z.eqb_spec j k); [congruence|]. rewrite Hb.
      rewrite decide_False; [done|]. intros Hl. by apply Hlast in Hl as (_ & _ & ?).
    + intros j Hj. destruct (Z.eqb_spec j k) as [|Hjk]; [done|]. rewrite Hb.
      case_decide as Hd1; cbn; intros Hju; split_and!; (done || lia || apply set_next_same).
  - cbn. unfold s1, set_link. destruct l1 as [|q l1]; [cbn; unfold upd; by rewrite Z.eqb_refl|].
    by destruct (last (q :: l1)) eqn:El; [|apply last_None in El].
Qed.

Lemma free_slot_nodes k f s : free_backing_slot k (put_nodes s f) = put_nodes (free_backing_slot k s) f.
Proof.
  unfold free_backing_slot, free_backing_data. cbn. destruct (_ || _); [done|]. cbn.
  destruct (data _ =? 0); cbn; [|destruct (pa _ =? 0); cbn]; by destruct (0 <? _).
Qed.

Lemma free_slot_nodes_same k s : nodes (free_backing_slot k s) = nodes s.
Proof.
  unfold free_backing_slot, free_backing_data. destruct (_ || _); [done|].
  destruct (data _ =? 0); cbn; [|destruct (pa _ =? 0); cbn]; by destruct (0 <? _).
Qed.

(** Freeing the first slot of a chain nothing points to any more. *)
Lemma free_first s hd F free U i k l :
  Pool s hd F free U -> F i = k :: l ->
  let s' := free_backing_slot k s in
  Pool s' (upd hd i (next (backing_pages s k))) (upd F i l) (k :: free) U /\ trims i s s' /\ nodes s' = nodes s.
Proof.
  intros HP HF. destruct (free_slot_unlinked s hd F free U i [] k l HP HF) as (Hul & Htr & _).
  cbn [set_link last] in *. unfold on_node in *. rewrite free_slot_nodes in *. cbv zeta.
  split_and!; [| |apply free_slot_nodes_same].
  - apply (pool_unlink s _ hd F free U i [] k l HP HF). destruct Hul. by split.
  - destruct Htr. split; try done; intros; rewrite ?free_slot_nodes_same; [done|apply set_first_page_same].
Qed.

Lemma free_iter l : forall s hd F free U i fuel,
  Pool s hd F free U -> F i = l -> (length l < fuel)%nat ->
  exists s' hd' free', iter free_step fuel (hd i, s) = Some s' /\
    Pool s' hd' (upd F i []) free' U /\ (forall j, j <> i -> hd' j = hd j) /\ trims i s s' /\ nodes s' = nodes s.
Proof.
  induction l as [|k l IH]; intros s hd F free U i [|fuel] HP HF Hf; simpl in Hf; try lia;
    pose proof (pl_chain _ _ _ _ _ HP i) as Hc; rewrite HF in Hc; simpl in Hc.
  - exists s, hd, free. cbn [iter free_step]. replace (0 <=? hd i) with false by lia. split_and!; try done.
    + eapply pool_fun_ext; [done..|]. intros j. unfold upd. by destruct (Z.eqb_spec j i) as [->|].
    + apply trims_refl.
  - destruct Hc as (Hh & Hk & _). destruct (free_first s hd F free U i k l HP HF) as (HP1 & Ht1 & Hn1).
    destruct (IH _ _ _ _ _ i fuel HP1) as (s' & hd' & free' & E & HP' & Hhd & Ht & Hn); [unfold upd; by rewrite Z.eqb_refl|lia|].
    exists s', hd', free'. cbn [iter free_step]. rewrite Hh. replace (0 <=? k) with true by lia.
    unfold upd in E at 1. rewrite Z.eqb_refl in E. split_and!; [done| | | |congruence].
    + eapply pool_fun_ext; [done..|]. intros j. unfold upd. by destruct (Z.eqb_spec j i).
    + intros j Hj. rewrite Hhd by done. unfold upd. by replace (j =? i) with false by lia.
    + by eapply trims_trans.
Qed.

(** [free_node]: the chain of the node goes back to the pool. *)
Lemma free_node_spec s hd F free U i :
  Pool s hd F free U -> first_page (nodes s i) = hd i ->
  exists s' hd' free', free_node i s = Some s' /\ Pool s' hd' (upd F i []) free' U /\
    (forall j, j <> i -> hd' j = hd j) /\ (forall j, nodes s' j = if j =? i then blank else nodes s j) /\
    ramfs_now_sec s' = ramfs_now_sec s /\ next_ino s' = next_ino s /\
    (forall k, slot_ok s k -> in_use s k = true -> owner (backing_pages s k) <> i ->
       slot_ok s' k /\ backing_pages s' k = backing_pages s k) /\
    same_cfg (kernel s) (kernel s') /\ memory s' = memory s.
Proof.
  intros HP Hh. unfold free_node, free_node_pages. rewrite Hh.
  pose proof (pool_on_node s i (set_first_page (-1)) hd F free U HP) as HP1.
  destruct (free_iter (F i) _ _ _ _ _ i (chain_fuel s) HP1 eq_refl) as (s' & hd' & free' & -> & HP' & Hhd & Ht & Hn).
  { by eapply chain_fits. }
  cbn [obind]. exists (on_node i (fun _ => blank) s'), hd', free'. destruct Ht.
  split_and!; try done.
  - by apply pool_on_node.
  - intros j. cbn. unfold upd. rewrite Hn. cbn. unfold upd. by destruct (j =? i).
  - apply tr_clock0.
  - apply tr_clock0.
Qed.

End RamfsPool.
