(* ===== verification/RamfsFile.v ===== *)
(** The contents of RAM files: what [ramfs_read], [ramfs_write] and
    [ramfs_truncate] do to the bytes of every file. *)

From Stdlib Require Import ZArith Lia String Ascii.
From stdpp Require Import base numbers list option.
From S2P Require Import Prelude Mem Pmm PmmSpec Vmm VmmInv Ramfs RamfsInv RamfsPool.
Import Mem Kstr Pmm Vmm VmmInv Ramfs RamfsInv RamfsPool list_basics.list list_relations.list.

Open Scope list_scope.
Open Scope Z_scope.
Open Scope c_scope.

Module RamfsFile.

Definition heads (s : state) (i : Z) : Z := if live s i then first_page (nodes s i) else -1.

(** The invariant of the file system: its pool, and sizes in range. *)
Record Inv (s : state) (F : Z -> list Z) (free : list Z) (U : Z -> Z) : Prop := {
  iv_pool : Pool s (heads s) F free U;
  iv_sizes : forall i, live s i = true ->
               is_u64 (size (nodes s i)) /\ (writable (nodes s i) = true -> size (nodes s i) <= RAMFS_MAX_FILE_SIZE);
}.

Definition ramfs_ok (s : state) (U : Z -> Z) : Prop := exists F free, Inv s F free U.

(** Byte [x] of the file [i]; a page that is not there reads as zeros. *)
Definition file_byte (s : state) (i x : Z) : Z :=
  match find_backing_page s i (x / RAMFS_PAGE_SIZE) with
  | Some k => if 0 <=? k then memory s (data (backing_pages s k) + x mod RAMFS_PAGE_SIZE) else 0
  | None => 0
  end.

(** [a] is in no page of the pool and in no page only the pool may take. *)
Definition off_pages (s : state) (U : Z -> Z) (a : Z) : Prop :=
  forall x, is_page (kernel s) x ->
    U x = 0 \/ (exists k, slot_ok s k /\ in_use s k = true /\ pa (backing_pages s k) = x) -> off_page (kernel s) x a.

(** A buffer of the caller. *)
Definition buffer (s : state) (U : Z -> Z) (p len : Z) : Prop :=
  range_ok p len /\ forall e, 0 <= e < len -> off_pages s U (p + e).

Lemma off_pages_safe s U a : off_pages s U a -> safe s U a.
Proof. intros Ha x Hx HU _. apply Ha; [done|by left]. Qed.

Lemma within_page x : 0 <= x mod RAMFS_PAGE_SIZE < PAGE_SIZE.
Proof. by apply Z.mod_pos_bound. Qed.

Lemma live_heads s i : live s i = true -> first_page (nodes s i) = heads s i.
Proof. unfold heads. by intros ->. Qed.

(** ** The bytes of a slot *)

Section Slots.
Context (s : state) (hd : Z -> Z) (F : Z -> list Z) (free : list Z) (U : Z -> Z).
Hypothesis HP : Pool s hd F free U.

(** Two slots, or a slot and another page, do not overlap. *)
Lemma slot_apart k x j :
  slot_ok s k -> in_use s k = true -> is_page (kernel s) x -> pa (backing_pages s k) <> x -> 0 <= j < PAGE_SIZE ->
  off_page (kernel s) x (data (backing_pages s k) + j).
Proof.
  intros Hk Hu (Hx0 & Hx1 & _) Hne Hj. destruct (pool_data _ _ _ _ _ HP k Hk Hu) as (-> & _ & Hal & _).
  unfold off_page. destruct (pages_apart (pa (backing_pages s k)) x Hal Hx1 Hne); lia.
Qed.

Lemma slot_page k : slot_ok s k -> in_use s k = true -> is_page (kernel s) (pa (backing_pages s k)).
Proof.
  intros Hk Hu. apply rc_pos; [apply HP|]. by apply (pool_rc_pos _ _ _ _ _ HP).
Qed.

Lemma slot_safe k j : slot_ok s k -> in_use s k = true -> 0 <= j < PAGE_SIZE -> safe s U (data (backing_pages s k) + j).
Proof. intros Hk Hu Hj x Hx _ Hno. apply slot_apart; try done. by apply Hno. Qed.

(** Slots with different indices have different bytes. *)
Lemma slots_apart k k' j j' :
  slot_ok s k -> in_use s k = true -> slot_ok s k' -> in_use s k' = true -> 0 <= j < PAGE_SIZE -> 0 <= j' < PAGE_SIZE ->
  data (backing_pages s k) + j = data (backing_pages s k') + j' -> k = k' /\ j = j'.
Proof.
  intros Hk Hu Hk' Hu' Hj Hj' He. destruct (pool_data _ _ _ _ _ HP k' Hk' Hu') as (Hd' & _).
  destruct (Z.eq_dec (pa (backing_pages s k)) (pa (backing_pages s k'))) as [Hp|Hp].
  - assert (k = k') as -> by (by apply (pl_distinct _ _ _ _ _ HP)). split; [done|lia].
  - destruct (slot_apart k _ j Hk Hu (slot_page k' Hk' Hu') Hp Hj); lia.
Qed.

Lemma byte_eq i x :
  first_page (nodes s i) = hd i ->
  file_byte s i x = match find_slot s (F i) (x / RAMFS_PAGE_SIZE) with
                    | Some k => memory s (data (backing_pages s k) + x mod RAMFS_PAGE_SIZE)
                    | None => 0
                    end.
Proof.
  intros Hh. unfold file_byte. rewrite (find_spec _ _ _ _ _ _ _ HP Hh).
  destruct (find_slot s (F i) _) as [k|] eqn:E; [|done]. cbn. apply find_slot_Some in E as [Hin _].
  apply (pl_in _ _ _ _ _ HP) in Hin as ([Hk _] & _). by replace (0 <=? k) with true by lia.
Qed.

Lemma find_slot_in i k : k ∈ F i -> find_slot s (F i) (file_page (backing_pages s k)) = Some k.
Proof.
  intros Hk. destruct (find_slot s (F i) _) as [k'|] eqn:E.
  - apply find_slot_Some in E as [Hk' He]. f_equal. by apply (pl_pages _ _ _ _ _ HP i).
  - by eapply find_slot_None in E.
Qed.
End Slots.

(** Bytes survive a step that keeps the slots in use and at most adds zeroed
    pages. *)
Lemma bytes_keep s hd F free U s' hd' F' free' j x :
  Pool s hd F free U -> Pool s' hd' F' free' U -> extends U s s' ->
  first_page (nodes s j) = hd j -> first_page (nodes s' j) = hd' j ->
  (forall k, k ∈ F j -> k ∈ F' j) ->
  (forall k, k ∈ F' j -> k ∉ F j -> forall y, 0 <= y < PAGE_SIZE -> memory s' (data (backing_pages s' k) + y) = 0) ->
  file_byte s' j x = file_byte s j x.
Proof.
  intros HP HP' He Hh Hh' Hsub Hnew. rewrite (byte_eq _ _ _ _ _ HP' _ _ Hh'), (byte_eq _ _ _ _ _ HP _ _ Hh).
  assert (forall k, k ∈ F j -> backing_pages s' k = set_next (next (backing_pages s' k)) (backing_pages s k)) as Hk.
  { intros k Hk. apply (pl_in _ _ _ _ _ HP) in Hk as (H1 & H2 & _). by apply (ex_used _ _ _ He). }
  set (fp := x / RAMFS_PAGE_SIZE). destruct (find_slot s (F j) fp) as [k|] eqn:E.
  - apply find_slot_Some in E as [Hin Hfp]. pose proof (Hk k Hin) as Hb.
    assert (find_slot s' (F' j) fp = Some k) as ->.
    { rewrite <- Hfp. replace (file_page (backing_pages s k)) with (file_page (backing_pages s' k)) by (by rewrite Hb).
      eapply (find_slot_in s'); [done|]. by apply Hsub. }
    rewrite Hb. cbn [data set_next]. apply He. apply (pl_in _ _ _ _ _ HP) in Hin as (H1 & H2 & _).
    eapply slot_safe; [done..|]. apply within_page.
  - destruct (find_slot s' (F' j) fp) as [k|] eqn:E'; [|done]. apply find_slot_Some in E' as [Hin Hfp].
    apply Hnew; [done| |apply within_page]. intros Hin'. apply (find_slot_None _ _ _ _ E Hin').
    rewrite (Hk k Hin') in Hfp. done.
Qed.

(** A store of [c] bytes into the page [k] of the file [i]. *)
Lemma bytes_store s hd F free U m i k w c j x :
  Pool s hd F free U -> k ∈ F i -> first_page (nodes s j) = hd j -> 0 <= w -> w + c <= PAGE_SIZE ->
  (forall a, ~ (data (backing_pages s k) + w <= a < data (backing_pages s k) + w + c) -> m a = memory s a) ->
  file_byte (put_memory s m) j x =
    let within := x mod RAMFS_PAGE_SIZE in
    if decide (j = i /\ x / RAMFS_PAGE_SIZE = file_page (backing_pages s k) /\ w <= within < w + c)
    then m (data (backing_pages s k) + within) else file_byte s j x.
Proof.
  intros HP Hk Hh Hw Hc Hm. cbv zeta. pose proof (within_page x) as Hx.
  assert (file_byte (put_memory s m) j x = match find_slot s (F j) (x / RAMFS_PAGE_SIZE) with
            | Some k' => m (data (backing_pages s k') + x mod RAMFS_PAGE_SIZE) | None => 0 end) as ->.
  { unfold file_byte. change (find_backing_page (put_memory s m) j (x / RAMFS_PAGE_SIZE))
      with (find_backing_page s j (x / RAMFS_PAGE_SIZE)). rewrite (find_spec _ _ _ _ _ _ _ HP Hh).
    destruct (find_slot s (F j) _) as [k'|] eqn:E; [|done]. apply find_slot_Some in E as [Hin _].
    apply (pl_in _ _ _ _ _ HP) in Hin as ([Hk' _] & _). cbn. by replace (0 <=? k') with true by lia. }
  rewrite (byte_eq _ _ _ _ _ HP _ _ Hh). apply (pl_in _ _ _ _ _ HP) in Hk as Hki. destruct Hki as (Hks & Hku & Hko).
  case_decide as Hd.
  - destruct Hd as (-> & Hfp & _). rewrite Hfp. by rewrite (find_slot_in _ _ _ _ _ HP i k Hk).
  - destruct (find_slot s (F j) _) as [k'|] eqn:E; [|done]. apply find_slot_Some in E as [Hin Hfp].
    apply (pl_in _ _ _ _ _ HP) in Hin as (Hks' & Hku' & Hko'). apply Hm. intros Ha.
    destruct (slots_apart _ _ _ _ _ HP k' k (x mod RAMFS_PAGE_SIZE) (x mod RAMFS_PAGE_SIZE + data (backing_pages s k') - data (backing_pages s k)))
      as [-> Heq]; [done..|lia|lia|]. apply Hd. split_and!; [congruence|done|lia..].
Qed.

(** ** Finding or making a page *)

Lemma extends_live U s s' i : extends U s s' -> live s' i = live s i.
Proof. intros He. unfold live. by rewrite (ex_nodes _ _ _ He i). Qed.

Lemma extends_sizes U s s' F free :
  Inv s F free U -> extends U s s' -> forall i, live s' i = true ->
  is_u64 (size (nodes s' i)) /\ (writable (nodes s' i) = true -> size (nodes s' i) <= RAMFS_MAX_FILE_SIZE).
Proof.
  intros HI He i Hl. rewrite (extends_live _ _ _ _ He) in Hl. rewrite (ex_nodes _ _ _ He i). by apply (iv_sizes _ _ _ _ HI i).
Qed.

(** The pages of the pool after a step are those before it or were free. *)
Lemma extends_off U s s' a :
  extends U s s' -> off_pages s U a ->
  (forall k, slot_ok s' k -> in_use s' k = true -> U (pa (backing_pages s' k)) = 0 \/ slot_ok s k /\ in_use s k = true) ->
  off_pages s' U a /\ memory s' a = memory s a.
Proof.
  intros He Ha Hk. split; [|apply He; by apply off_pages_safe]. destruct (ex_cfg _ _ _ He) as [Hh Ht].
  intros x Hx Hor. unfold is_page, off_page in *. rewrite Ht in Hx. rewrite Hh. apply (Ha x Hx).
  destruct Hor as [?|(k & H1 & H2 & <-)]; [by left|]. destruct (Hk k H1 H2) as [?|[H3 H4]]; [by left|].
  right. exists k. split_and!; [done..|]. by destruct (ex_used _ _ _ He k H3 H4) as (_ & _ & ->).
Qed.

(** The step from [s] to [s'] adds pages to [i] and changes no byte of any file. *)
Record grows_file (U : Z -> Z) (i : Z) (s s' : state) : Prop := {
  gf_nodes : forall j, j <> i -> nodes s' j = nodes s j;
  gf_ext : extends U s s';
  gf_bytes : forall j x, live s j = true -> file_byte s' j x = file_byte s j x;
  gf_off : forall a, off_pages s U a -> off_pages s' U a /\ memory s' a = memory s a;
}.

Lemma get_keeps s F free U i fp :
  Inv s F free U -> live s i = true ->
  exists k s' F' free', get_backing_page i fp true s = Some (k, s') /\ Inv s' F' free' U /\ grows_file U i s s' /\
    (forall j, j <> i -> F' j = F j) /\ (k = -1 \/ 0 <= k /\ k ∈ F' i /\ file_page (backing_pages s' k) = fp).
Proof.
  intros HI Hl. pose proof (iv_pool _ _ _ _ HI) as HP.
  destruct (get_spec s (heads s) F free U i fp true HP (live_heads _ _ Hl)) as (k & s' & -> & Hcase).
  destruct (find_slot s (F i) fp) as [k0|] eqn:E.
  { destruct Hcase as [-> ->]. apply find_slot_Some in E as [Hin Hfp].
    apply (pl_in _ _ _ _ _ HP) in Hin as Hk. destruct Hk as ([Hk _] & _).
    exists k0, s, F, free. split_and!; try done; [|by right]. split; try done. apply extends_refl. }
  destruct Hcase as [(-> & [free' HP'] & He & Hn)|(Hk & free' & HP' & He & Hfi & Hfj & Hfp & HkF & HkU & Hz)].
  - assert (forall j, heads s' j = heads s j) as Hh by (intros j; unfold heads, live; by rewrite Hn).
    assert (Pool s' (heads s') F free' U) as HP2 by (by eapply pool_fun_ext).
    exists (-1), s', F, free'. split_and!; [done| | |done|by left].
    + split; [done|]. by eapply extends_sizes.
    + split; [by intros; rewrite Hn|done| |].
      * intros j x Hj. eapply (bytes_keep s (heads s) F); try done; [by apply live_heads|].
        apply live_heads. by rewrite (extends_live _ _ _ _ He).
      * intros a Ha. apply extends_off; [done..|]. intros k Hk Hu. right.
        assert (k ∈ F (owner (backing_pages s' k))) as Hin by (by apply (pl_in _ _ _ _ _ HP2)).
        apply (pl_in _ _ _ _ _ HP) in Hin. naive_solver.
  - assert (forall j, live s j = true -> live s' j = true) as Hlv by (intros j Hj; by rewrite (extends_live _ _ _ _ He)).
    assert (forall j, heads s' j = upd (heads s) i k j) as Hh.
    { intros j. unfold upd. destruct (Z.eqb_spec j i) as [->|Hj]; unfold heads; rewrite (extends_live _ _ _ _ He).
      - by rewrite Hl, Hfi. - by rewrite Hfj. }
    assert (Pool s' (heads s') (upd F i (k :: F i)) free' U) as HP2 by (by eapply pool_fun_ext).
    exists k, s', (upd F i (k :: F i)), free'. split_and!; [done| | | |].
    + split; [done|]. by eapply extends_sizes.
    + split; [|done| |].
      * intros j Hj. rewrite (ex_nodes _ _ _ He j), Hfj by done. symmetry. apply set_first_page_same.
      * intros j x Hj. eapply (bytes_keep s (heads s) F free U s' (heads s')); try done; [by apply live_heads|by apply live_heads, Hlv|..].
        -- intros q Hq. unfold upd. destruct (Z.eqb_spec j i) as [->|]; [by right|done].
        -- intros q Hq Hnq y Hy. unfold upd in Hq. destruct (Z.eqb_spec j i) as [->|]; [|done].
           apply elem_of_cons in Hq as [->|]; [by apply Hz|done].
      * intros a Ha. apply extends_off; [done..|]. intros q Hq Hu.
        assert (q ∈ upd F i (k :: F i) (owner (backing_pages s' q))) as Hin by (by apply (pl_in _ _ _ _ _ HP2)).
        unfold upd in Hin. destruct (Z.eqb_spec (owner (backing_pages s' q)) i); [apply elem_of_cons in Hin as [->|Hin]; [by left|]|];
          right; apply (pl_in _ _ _ _ _ HP) in Hin; naive_solver.
    + intros j Hj. unfold upd. by replace (j =? i) with false by lia.
    + right. split_and!; [done| |done]. unfold upd. rewrite Z.eqb_refl. by left.
Qed.

(** ** Writing *)

Lemma grows_live U i s s' j : grows_file U i s s' -> live s' j = live s j.
Proof. intros Hg. eapply extends_live, Hg. Qed.

Lemma buffer_apart w x b c a :
  0 < c -> (forall e, 0 <= e < c -> off_page w x (b + e)) -> hhdm w + x <= a -> a + c <= hhdm w + x + PAGE_SIZE ->
  b + c <= a \/ a + c <= b.
Proof.
  intros Hc Hoff H1 H2. destruct (Z.le_gt_cases (b + c) a); [by left|]. destruct (Z.le_gt_cases (a + c) b); [by right|].
  exfalso. destruct (Hoff (Z.max b a - b)); unfold off_page in *; lia.
Qed.

Lemma inv_memory s m F free U : Inv s F free U -> (forall a, is_u8 (m a)) -> Inv (put_memory s m) F free U.
Proof.
  intros [HP Hs] Hm. split; [|done]. change (heads (put_memory s m)) with (heads s). by apply pool_memory.
Qed.

(** Copying [c] bytes between a caller's buffer and a page of the file [i], in
    either direction. *)
Lemma slot_copy s F free U i k w b c :
  Inv s F free U -> k ∈ F i -> 0 <= w -> w + c <= PAGE_SIZE -> 0 < c -> range_ok b c ->
  (forall e, 0 <= e < c -> off_pages s U (b + e)) ->
  let a := data (backing_pages s k) + w in
  u64 a = a /\ u64 b = b /\
  (forall x, kmemcpy (memory s) a b c x = if (a <=? x) && (x <? a + c) then memory s (b + (x - a)) else memory s x) /\
  (forall x, kmemcpy (memory s) b a c x = if (b <=? x) && (x <? b + c) then memory s (a + (x - b)) else memory s x) /\
  (forall d e x, is_u8 (kmemcpy (memory s) d e c x)).
Proof.
  intros HI Hk Hw Hwc Hc Hr Hoff. pose proof (iv_pool _ _ _ _ HI) as HP. apply (pl_in _ _ _ _ _ HP) in Hk as (Hk & Hu & _).
  destruct (pool_data _ _ _ _ _ HP k Hk Hu) as (Hd & Hp & _ & Hh & Hle). cbv zeta.
  set (a := data (backing_pages s k) + w). unfold range_ok in Hr.
  assert (range_ok a c) as Ha by (unfold range_ok, a in *; lia).
  assert (b + c <= a \/ a + c <= b) as Hap.
  { apply (buffer_apart (kernel s) (pa (backing_pages s k))); [done| |unfold a; lia..].
    intros e He. apply Hoff; [done|by eapply slot_page|]. right. by exists k. }
  split_and!.
  - apply u64_small. unfold is_u64, range_ok in *. lia.
  - apply u64_small. unfold is_u64 in *. lia.
  - intros x. apply kmemcpy_spec; [done|done|lia].
  - intros x. apply kmemcpy_spec; [done|done|lia].
  - intros d e x. apply kmemcpy_u8. apply HP.
Qed.

(** [s1] is [s] with the first [d] bytes of the buffer written at [off]. *)
Record Written (U : Z -> Z) (i off src len : Z) (s : state) (d : Z) (s1 : state) : Prop := {
  wr_inv : ramfs_ok s1 U;
  wr_nodes : forall j, j <> i -> nodes s1 j = nodes s j;
  wr_node : nodes s1 i = set_first_page (first_page (nodes s1 i)) (nodes s i);
  wr_clock : ramfs_now_sec s1 = ramfs_now_sec s;
  wr_buffer : buffer s1 U src len;
  wr_src : forall e, 0 <= e < len -> memory s1 (src + e) = memory s (src + e);
  wr_bytes : forall x, 0 <= x -> file_byte s1 i x =
    if (off <=? x) && (x <? off + d) then memory s (src + (x - off)) else file_byte s i x;
  wr_other : forall j x, j <> i -> live s j = true -> file_byte s1 j x = file_byte s j x;
}.

Lemma written_grow U i off src len s d s1 s2 :
  Written U i off src len s d s1 -> live s i = true -> ramfs_ok s2 U -> grows_file U i s1 s2 ->
  Written U i off src len s d s2.
Proof.
  intros HW Hl Hok Hg. assert (forall j, live s1 j = live s j) as Hlv.
  { intros j. unfold live. destruct (Z.eq_dec j i) as [->|Hj]; [by rewrite (wr_node _ _ _ _ _ _ _ _ HW)|by rewrite (wr_nodes _ _ _ _ _ _ _ _ HW)]. }
  pose proof (gf_ext _ _ _ _ Hg) as He. destruct (wr_buffer _ _ _ _ _ _ _ _ HW) as [Hr Hb]. split.
  - done.
  - intros j Hj. rewrite (gf_nodes _ _ _ _ Hg j Hj). by apply HW.
  - rewrite (ex_nodes _ _ _ He i) at 1. by rewrite (wr_node _ _ _ _ _ _ _ _ HW).
  - rewrite (ex_clock _ _ _ He). apply HW.
  - split; [done|]. intros e He'. by apply Hg, Hb.
  - intros e He'. destruct (gf_off _ _ _ _ Hg (src + e) (Hb e He')) as [_ ->]. by apply HW.
  - intros x Hx. rewrite (gf_bytes _ _ _ _ Hg) by (by rewrite Hlv). by apply HW.
  - intros j x Hj Hlj. rewrite (gf_bytes _ _ _ _ Hg) by (by rewrite Hlv). by apply HW.
Qed.

Lemma written_live U i off src len s d s1 j : Written U i off src len s d s1 -> live s1 j = live s j.
Proof.
  intros HW. unfold live.
  destruct (Z.eq_dec j i) as [->|Hj]; [by rewrite (wr_node _ _ _ _ _ _ _ _ HW)|by rewrite (wr_nodes _ _ _ _ _ _ _ _ HW)].
Qed.

(** One chunk: [c] bytes into the page [k] that holds position [off + d]. *)
Lemma written_chunk U i off src len s d s1 F free k c :
  Written U i off src len s d s1 -> Inv s1 F free U -> live s i = true -> 0 <= off -> 0 <= d -> 0 < c -> d + c <= len ->
  (off + d) mod PAGE_SIZE + c <= PAGE_SIZE -> k ∈ F i -> file_page (backing_pages s1 k) = (off + d) / PAGE_SIZE ->
  Written U i off src len s (d + c)
    (put_memory s1 (kmemcpy (memory s1) (u64 (data (backing_pages s1 k) + (off + d) mod PAGE_SIZE)) (u64 (src + d)) c)).
Proof.
  intros HW HI Hl Hoff Hd Hc Hle Hwc Hk Hfp. destruct (wr_buffer _ _ _ _ _ _ _ _ HW) as [Hr Hb].
  pose proof (within_page (off + d)) as Hw. change RAMFS_PAGE_SIZE with PAGE_SIZE in *.
  destruct (slot_copy s1 F free U i k ((off + d) mod PAGE_SIZE) (src + d) c HI Hk) as (Ea & Eb & Hcp & _ & H8).
  { lia. } { lia. } { lia. } { unfold range_ok in *. lia. } { intros e He. rewrite <- Z.add_assoc. apply Hb. lia. }
  cbv zeta in *. rewrite Ea, Eb. set (a := data (backing_pages s1 k) + (off + d) mod PAGE_SIZE) in *.
  specialize (H8 a (src + d)). revert Hcp H8. generalize (kmemcpy (memory s1) a (src + d) c). intros m Hcp H8.
  pose proof (iv_pool _ _ _ _ HI) as HP.
  assert (forall j x, live s j = true -> file_byte (put_memory s1 m) j x =
    if decide (j = i /\ x / PAGE_SIZE = (off + d) / PAGE_SIZE /\ (off + d) mod PAGE_SIZE <= x mod PAGE_SIZE < (off + d) mod PAGE_SIZE + c)
    then m (data (backing_pages s1 k) + x mod PAGE_SIZE) else file_byte s1 j x) as Hby.
  { intros j x Hj. rewrite (bytes_store s1 (heads s1) F free U m i k ((off + d) mod PAGE_SIZE) c j x HP Hk); [|..|lia|].
    - by rewrite Hfp. - apply live_heads. by rewrite (written_live _ _ _ _ _ _ _ _ _ HW). - lia.
    - intros y Hy. rewrite Hcp. fold a in Hy. by replace ((a <=? y) && (y <? a + c)) with false by (zcases; simpl; lia). }
  assert (forall e, 0 <= e < len -> m (src + e) = memory s1 (src + e)) as Hsrc.
  { intros e He. rewrite Hcp. destruct ((a <=? src + e) && (src + e <? a + c)) eqn:E; [|done]. zbool. exfalso.
    apply (pl_in _ _ _ _ _ HP) in Hk as (Hk1 & Hk2 & _). destruct (pool_data _ _ _ _ _ HP k Hk1 Hk2) as (Hdk & _).
    destruct (Hb e He _ (slot_page _ _ _ _ _ HP k Hk1 Hk2)); [right; by exists k|unfold off_page, a in *; lia..]. }
  split.
  - exists F, free. by apply inv_memory.
  - apply HW.
  - apply HW.
  - apply HW.
  - split; [done|apply Hb].
  - intros e He. change (memory (put_memory s1 m)) with m. rewrite Hsrc by done. by apply HW.
  - intros x Hx. rewrite Hby by done. rewrite (wr_bytes _ _ _ _ _ _ _ _ HW x Hx). unfold PAGE_SIZE in *. case_decide as Hd'.
    + destruct Hd' as (_ & Hq & Hm). rewrite Hcp. replace ((a <=? _) && _) with true by (unfold a; zcases; simpl; lia).
      replace ((off <=? x) && (x <? off + (d + c))) with true by (zcases; simpl; dmlia).
      replace (src + d + (data (backing_pages s1 k) + x mod 4096 - a)) with (src + (x - off)) by (unfold a; dmlia).
      apply HW. dmlia.
    + replace ((off <=? x) && (x <? off + (d + c))) with ((off <=? x) && (x <? off + d)); [done|].
      zcases; simpl; try done; exfalso; apply Hd'; split_and!; [done|dmlia..].
  - intros j x Hj Hlj. rewrite Hby by done. rewrite decide_False by naive_solver. by apply HW.
Qed.

Lemma chunk_of_eq pos left : chunk_of pos left = Z.min left (PAGE_SIZE - pos mod PAGE_SIZE).
Proof. unfold chunk_of. change RAMFS_PAGE_SIZE with PAGE_SIZE. destruct (Z.ltb_spec left (PAGE_SIZE - pos mod PAGE_SIZE)); lia. Qed.

(** The position [off + d] of a file: no wrap-around, and its page number fits. *)
Lemma position off d len :
  0 <= off -> 0 <= d < len -> off + len <= RAMFS_MAX_FILE_SIZE ->
  u64 (off + d) = off + d /\ u32 ((off + d) / RAMFS_PAGE_SIZE) = (off + d) / PAGE_SIZE /\
  (off + d) mod RAMFS_PAGE_SIZE = (off + d) mod PAGE_SIZE /\
  let c := Z.min (len - d) (PAGE_SIZE - (off + d) mod PAGE_SIZE) in
  chunk_of (off + d) (len - d) = c /\ 0 < c /\ d + c <= len /\ (off + d) mod PAGE_SIZE + c <= PAGE_SIZE.
Proof.
  intros Ho Hd Hle. change RAMFS_MAX_FILE_SIZE with (4294967295 * 4096) in Hle. change RAMFS_PAGE_SIZE with PAGE_SIZE.
  cbv zeta. rewrite chunk_of_eq. pose proof (Z.mod_pos_bound (off + d) PAGE_SIZE ltac:(done)).
  split_and!; try done; try lia.
  - apply u64_small. unfold is_u64. lia.
  - apply u32_small. unfold is_u32, PAGE_SIZE. dmlia.
Qed.

Lemma write_loop s U i off src len :
  ramfs_ok s U -> live s i = true -> buffer s U src len -> 0 <= off -> 0 <= len -> off + len <= RAMFS_MAX_FILE_SIZE ->
  exists ok s1 d, iter (write_step i off src len) (copy_fuel len) (0, s) = Some (Some (ok, s1)) /\ 0 <= d <= len /\
    Written U i off src len s d s1 /\ (ok = true -> d = len).
Proof.
  intros Hok Hl Hb Ho Hlen Hmax.
  destruct (iter_chunked (write_step i off src len) (fun d s1 => 0 <= d <= len /\ Written U i off src len s d s1)
    (fun r => exists ok s1 d, r = Some (ok, s1) /\ 0 <= d <= len /\ Written U i off src len s d s1 /\ (ok = true -> d = len))
    PAGE_SIZE off len (copy_fuel len) s) as (r & Hr & ok & s1 & d & -> & HQ); [done|lia|unfold copy_fuel, RAMFS_PAGE_SIZE, PAGE_SIZE; lia|..].
  - intros d s1 Hd [_ HW]. unfold write_step. replace (d <? len) with true by lia.
    destruct (position off d len Ho Hd Hmax) as (-> & -> & -> & -> & Hc & Hdc & Hwc).
    destruct (wr_inv _ _ _ _ _ _ _ _ HW) as (F1 & free1 & HI1).
    destruct (get_keeps s1 F1 free1 U i ((off + d) / PAGE_SIZE) HI1) as (k & s2 & F2 & free2 & -> & HI2 & Hg & _ & Hk).
    { by rewrite (written_live _ _ _ _ _ _ _ _ _ HW). }
    assert (Written U i off src len s d s2) as HW2 by (apply (written_grow _ _ _ _ _ _ _ _ _ HW Hl); [by exists F2, free2|done]).
    destruct Hk as [->|(Hk0 & Hk & Hfp)].
    + exists false, s2, d. split_and!; (done || lia).
    + replace (k <? 0) with false by lia. split; [done|]. split; [lia|]. eapply written_chunk; first [done|lia].
  - intros s1 [_ HW]. exists (Some (true, s1)). split; [unfold write_step; by rewrite Z.ltb_irrefl|].
    exists true, s1, len. split_and!; (done || lia).
  - split; [lia|]. split; try done; try apply set_first_page_same.
    intros x Hx. by replace ((off <=? x) && (x <? off + 0)) with false by (zcases; simpl; lia).
  - by exists ok, s1, d.
Qed.

(** ** Reading *)

Lemma read_loop s U i off dst n :
  ramfs_ok s U -> live s i = true -> buffer s U dst n -> 0 <= off -> 0 <= n -> off + n <= RAMFS_MAX_FILE_SIZE ->
  exists m, iter (read_step i off dst n) (copy_fuel n) (0, s) = Some (Some (n, put_memory s m)) /\
    (forall a, is_u8 (m a)) /\
    forall a, m a = if (dst <=? a) && (a <? dst + n) then file_byte s i (off + (a - dst)) else memory s a.
Proof.
  intros (F & free & HI) Hl [Hr Hb] Ho Hn Hmax. pose proof (iv_pool _ _ _ _ HI) as HP.
  set (P := fun d s1 => exists m, s1 = put_memory s m /\ (forall a, is_u8 (m a)) /\
    forall a, m a = if (dst <=? a) && (a <? dst + d) then file_byte s i (off + (a - dst)) else memory s a).
  destruct (iter_chunked (read_step i off dst n) P (fun r => exists s1, r = Some (n, s1) /\ P n s1)
    PAGE_SIZE off n (copy_fuel n) s) as (r & Hr' & s1 & -> & m & -> & HQ); [done|lia|unfold copy_fuel, RAMFS_PAGE_SIZE, PAGE_SIZE; lia|..].
  - intros d s1 Hd (m & -> & H8 & Hm). unfold read_step. replace (d <? n) with true by lia.
    destruct (position off d n Ho Hd Hmax) as (-> & -> & -> & -> & Hc & Hdc & Hwc).
    change (find_backing_page (put_memory s m) i ((off + d) / PAGE_SIZE)) with (find_backing_page s i ((off + d) / PAGE_SIZE)).
    rewrite (find_spec _ _ _ _ _ _ _ HP (live_heads _ _ Hl)). split; [done|]. set (c := Z.min _ _) in *.
    assert (range_ok (dst + d) c) as Hrc by (unfold range_ok in *; lia).
    assert (forall y, 0 <= y < c -> (off + d + y) / PAGE_SIZE = (off + d) / PAGE_SIZE /\
              (off + d + y) mod PAGE_SIZE = (off + d) mod PAGE_SIZE + y) as Hy by (intros y Hy; unfold PAGE_SIZE in *; split; dmlia).
    destruct (find_slot s (F i) ((off + d) / PAGE_SIZE)) as [k|] eqn:Ef; cbn [default from_option id].
    + apply find_slot_Some in Ef as Hk. destruct Hk as [Hk Hfp]. pose proof (within_page (off + d)) as Hw.
      change RAMFS_PAGE_SIZE with PAGE_SIZE in Hw. apply (pl_in _ _ _ _ _ HP) in Hk as Hk'. destruct Hk' as (Hk1 & Hk2 & _).
      replace (0 <=? k) with true by (unfold slot_ok in Hk1; lia).
      destruct (slot_copy (put_memory s m) F free U i k ((off + d) mod PAGE_SIZE) (dst + d) c (inv_memory _ _ _ _ _ HI H8) Hk)
        as (Ea & Eb & _ & Hcp & Hc8); [lia..|done| |].
      { intros e He. rewrite <- Z.add_assoc. apply Hb. lia. }
      cbv zeta in *. change (backing_pages (put_memory s m)) with (backing_pages s) in *. rewrite Ea, Eb.
      eexists. split; [reflexivity|]. split; [apply Hc8|]. intros a. rewrite Hcp. change (memory (put_memory s m)) with m.
      destruct ((dst + d <=? a) && (a <? dst + d + c)) eqn:Ein; zbool.
      * replace ((dst <=? a) && (a <? dst + (d + c))) with true by (zcases; simpl; lia).
        rewrite Hm. replace ((dst <=? _) && _) with false.
        -- rewrite (byte_eq _ _ _ _ _ HP _ _ (live_heads _ _ Hl)). change RAMFS_PAGE_SIZE with PAGE_SIZE.
           replace (off + (a - dst)) with (off + d + (a - dst - d)) by lia.
           destruct (Hy (a - dst - d)) as [-> ->]; [lia|]. rewrite Ef. f_equal. lia.
        -- symmetry. apply not_true_is_false. intros Hin. zbool.
           destruct (pool_data _ _ _ _ _ HP k Hk1 Hk2) as (Hdk & _).
           set (b := data (backing_pages s k) + (off + d) mod PAGE_SIZE + (a - (dst + d))) in *.
           destruct (Hb (b - dst) ltac:(lia) _ (slot_page _ _ _ _ _ HP k Hk1 Hk2)) as [?|?]; [right; by exists k|unfold b in *; lia..].
      * rewrite Hm. by replace ((dst <=? a) && (a <? dst + (d + c))) with ((dst <=? a) && (a <? dst + d))
          by (revert Ein Hd Hc; clearbody c; clear; intros Ein Hd Hc; zcases; simpl in *; (congruence || lia)).
    + change (0 <=? -1) with false. cbv iota. rewrite u64_small by (unfold is_u64, range_ok in *; lia).
      eexists. split; [reflexivity|]. split; [intros a; by apply kmemset_u8|].
      intros a. rewrite kmemset_spec by done. change (memory (put_memory s m)) with m.
      destruct ((dst + d <=? a) && (a <? dst + d + c)) eqn:Ein; zbool.
      * replace ((dst <=? a) && (a <? dst + (d + c))) with true by (zcases; simpl; lia).
        rewrite (byte_eq _ _ _ _ _ HP _ _ (live_heads _ _ Hl)). change RAMFS_PAGE_SIZE with PAGE_SIZE.
        replace (off + (a - dst)) with (off + d + (a - dst - d)) by lia. destruct (Hy (a - dst - d)) as [-> _]; [lia|]. by rewrite Ef.
      * rewrite Hm. by replace ((dst <=? a) && (a <? dst + (d + c))) with ((dst <=? a) && (a <? dst + d))
          by (revert Ein Hd Hc; clearbody c; clear; intros Ein Hd Hc; zcases; simpl in *; (congruence || lia)).
  - intros s1 HP1. exists (Some (n, s1)). split; [unfold read_step; by rewrite Z.ltb_irrefl|]. by exists s1.
  - exists (memory s). split; [by destruct s as [? ? ? ? ? ? ? ? ? ? []]|]. split; [apply (pl_machine _ _ _ _ _ HP)|].
    intros a. by replace ((dst <=? a) && (a <? dst + 0)) with false by (zcases; simpl; lia).
  - by exists m.
Qed.

End RamfsFile.
