(* ===== verification/RamfsTrunc.v ===== *)
(** [ramfs_truncate]: the loop along the chain of a file, and the bytes left. *)

From Stdlib Require Import ZArith Lia String Ascii.
From stdpp Require Import base numbers list option.
From S2P Require Import Prelude Mem Pmm PmmSpec Vmm VmmInv Ramfs RamfsInv RamfsPool RamfsFile.
Import Mem Kstr Pmm Vmm VmmInv Ramfs RamfsInv RamfsPool RamfsFile list_basics.list list_relations.list.

Open Scope list_scope.
Open Scope Z_scope.
Open Scope c_scope.

Module RamfsTrunc.

(** Where the link after [l1] leads. *)
Lemma chain_after nx h l1 l2 :
  chain nx h (l1 ++ l2) -> chain nx (match last l1 with Some p => nx p | None => h end) l2.
Proof.
  revert h. induction l1 as [|p l1 IH]; intros h; [done|]. simpl. intros (-> & _ & H). specialize (IH _ H).
  destruct l1 as [|q l1]; [done|]. change (last (p :: q :: l1)) with (last (q :: l1)).
  by destruct (last (q :: l1)) eqn:E; [|apply last_None in E].
Qed.

(** The chain of [i] is [kept ++ rest]; what went is past the kept pages. *)
Record Cutting (s : state) (F : Z -> list Z) (U : Z -> Z) (i keep : Z) (kept rest : list Z) (s1 : state) : Prop := {
  ct_pool : exists free1, Pool s1 (fun j => if j =? i then first_page (nodes s1 i) else heads s j) (upd F i (kept ++ rest)) free1 U;
  ct_trims : trims i s s1;
  ct_kept : forall k, k ∈ kept -> file_page (backing_pages s k) < keep;
  ct_gone : forall k, k ∈ F i -> k ∈ kept ++ rest \/ keep <= file_page (backing_pages s k);
}.

Lemma cutting_slot s F free U i keep kept k rest s1 :
  Inv s F free U -> Cutting s F U i keep kept (k :: rest) s1 ->
  slot_ok s1 k /\ get_link i (last kept) s1 = k /\ file_page (backing_pages s1 k) = file_page (backing_pages s k) /\ k ∈ F i.
Proof.
  intros HI [[free1 HP1] Ht _ _].
  assert (k ∈ upd F i (kept ++ k :: rest) i) as Hin.
  { unfold upd. rewrite Z.eqb_refl. apply elem_of_app. right. by left. }
  apply (pl_in _ _ _ _ _ HP1) in Hin as (Hk & Hu & Ho). destruct (tr_own _ _ _ Ht k Hk Hu) as (Hk0 & Hu0 & E).
  pose proof (pl_chain _ _ _ _ _ HP1 i) as Hc. unfold upd in Hc. rewrite Z.eqb_refl in Hc.
  apply chain_after in Hc as [Hc _]. split_and!; [done| |by rewrite E|].
  - unfold get_link. by destruct (last kept).
  - apply (pl_in _ _ _ _ _ (iv_pool _ _ _ _ HI)). split_and!; [done..|]. by rewrite E in Ho.
Qed.

Lemma cutting_drop s F free U i keep kept k rest s1 :
  Inv s F free U -> Cutting s F U i keep kept (k :: rest) s1 -> keep <= file_page (backing_pages s k) ->
  Cutting s F U i keep kept rest (free_backing_slot k (set_link i (last kept) (next (backing_pages s1 k)) s1)).
Proof.
  intros HI HC Hfp. destruct (cutting_slot _ _ _ _ _ _ _ _ _ _ HI HC) as (Hk & _ & _ & HkF).
  destruct HC as [[free1 HP1] Ht Hkept Hgone].
  destruct (free_slot_unlinked s1 _ _ free1 U i kept k rest HP1) as (Hul & Ht1 & Hn).
  { unfold upd. by rewrite Z.eqb_refl. }
  pose proof (pool_unlink _ _ _ _ _ _ i kept k rest HP1 ltac:(unfold upd; by rewrite Z.eqb_refl) Hul) as HP2.
  set (s2 := free_backing_slot k _) in *. split.
  - exists (k :: free1). eapply pool_fun_ext; [done|..]; intros j; unfold upd; destruct (Z.eqb_spec j i) as [->|]; try done.
    rewrite Hn, Z.eqb_refl. by destruct kept.
  - by eapply trims_trans.
  - done.
  - intros q Hq. destruct (Hgone q Hq) as [Hin|]; [|by right]. apply elem_of_app in Hin as [Hin|Hin].
    + left. apply elem_of_app. by left.
    + apply elem_of_cons in Hin as [->|Hin]; [by right|]. left. apply elem_of_app. by right.
Qed.

Lemma cutting_keep s F U i keep kept k rest s1 :
  Cutting s F U i keep kept (k :: rest) s1 -> file_page (backing_pages s k) < keep ->
  Cutting s F U i keep (kept ++ [k]) rest s1.
Proof.
  intros [HP Ht Hkept Hgone] Hfp. split; rewrite <- ?app_assoc; try done.
  intros q Hq. apply elem_of_app in Hq as [Hq|Hq]; [by apply Hkept|]. apply list_elem_of_singleton in Hq as ->. done.
Qed.

Lemma cut_iter s F free U i keep : forall rest kept s1 fuel,
  Inv s F free U -> Cutting s F U i keep kept rest s1 -> (length rest < fuel)%nat ->
  exists kept' s2, iter (truncate_step i keep) fuel (last kept, s1) = Some s2 /\ Cutting s F U i keep kept' [] s2.
Proof.
  induction rest as [|k rest IH]; intros kept s1 [|fuel] HI HC Hf; simpl in Hf; try lia; cbn [iter]; unfold truncate_step at 1.
  - exists kept, s1. split; [|done]. pose proof HC as [[free1 HP1] _ _ _]. pose proof (pl_chain _ _ _ _ _ HP1 i) as Hc.
    unfold upd in Hc. rewrite Z.eqb_refl in Hc. apply chain_after in Hc. simpl in Hc.
    replace (0 <=? get_link i (last kept) s1) with false; [done|]. unfold get_link. destruct (last kept); lia.
  - destruct (cutting_slot _ _ _ _ _ _ _ _ _ _ HI HC) as ([Hk _] & -> & -> & HkF). replace (0 <=? k) with true by lia.
    destruct (Z.leb_spec keep (file_page (backing_pages s k))).
    + apply IH; [done| |lia]. by eapply cutting_drop.
    + replace (Some k) with (last (kept ++ [k])) by (by rewrite last_snoc).
      apply IH; [done| |lia]. by eapply cutting_keep.
Qed.

(** The loop of [ramfs_truncate] drops the pages from [keep] on. *)
Lemma cut_spec s F free U i keep :
  Inv s F free U -> live s i = true ->
  exists s1 F1 free1, iter (truncate_step i keep) (chain_fuel s) (None, s) = Some s1 /\
    Inv s1 F1 free1 U /\ trims i s s1 /\ (forall j, j <> i -> F1 j = F j) /\
    (forall j x, j <> i -> live s j = true -> file_byte s1 j x = file_byte s j x) /\
    (forall x, file_byte s1 i x = if x / RAMFS_PAGE_SIZE <? keep then file_byte s i x else 0).
Proof.
  intros HI Hl. pose proof (iv_pool _ _ _ _ HI) as HP.
  destruct (cut_iter s F free U i keep (F i) [] s (chain_fuel s) HI) as (kept & s1 & Hit & [[free1 HP1] Ht Hkept Hgone]).
  { split; [exists free|apply trims_refl|intros k Hk; by apply not_elem_of_nil in Hk|by left].
    eapply pool_fun_ext; [done|..]; intros j; unfold upd; destruct (Z.eqb_spec j i) as [->|]; try done. by apply live_heads. }
  { by eapply chain_fits. }
  rewrite app_nil_r in *.
  assert (forall j, live s1 j = live s j) as Hlv.
  { intros j. unfold live. destruct (Z.eq_dec j i) as [->|Hj]; [by rewrite (tr_node _ _ _ Ht)|by rewrite (tr_nodes _ _ _ Ht j Hj)]. }
  assert (Pool s1 (heads s1) (upd F i kept) free1 U) as HP2.
  { eapply pool_fun_ext; [done| |done]. intros j. unfold heads. rewrite Hlv. destruct (Z.eqb_spec j i) as [->|]; [by rewrite Hl|].
    by rewrite (tr_nodes _ _ _ Ht j). }
  assert (forall j k, k ∈ upd F i kept j -> k ∈ F j /\ backing_pages s1 k = set_next (next (backing_pages s1 k)) (backing_pages s k)) as Hsub.
  { intros j k Hk. apply (pl_in _ _ _ _ _ HP2) in Hk as (H1 & H2 & H3). destruct (tr_own _ _ _ Ht k H1 H2) as (H4 & H5 & H6).
    split; [|done]. apply (pl_in _ _ _ _ _ HP). rewrite H6 in H3. done. }
  exists s1, (upd F i kept), free1. split_and!; [done| |done| | |].
  - split; [done|]. intros j. rewrite Hlv. intros Hj. destruct (Z.eq_dec j i) as [->|Hne].
    + rewrite (tr_node _ _ _ Ht). by apply (iv_sizes _ _ _ _ HI).
    + rewrite (tr_nodes _ _ _ Ht j Hne). by apply (iv_sizes _ _ _ _ HI).
  - intros j Hj. unfold upd. by replace (j =? i) with false by lia.
  - intros j x Hj Hlj. rewrite (byte_eq _ _ _ _ _ HP2), (byte_eq _ _ _ _ _ HP) by (apply live_heads; by rewrite ?Hlv).
    assert (upd F i kept j = F j) as E by (unfold upd; by replace (j =? i) with false by lia). rewrite E.
    rewrite (find_slot_ext s s1); [|intros k Hk; rewrite <- E in Hk; by destruct (Hsub j k Hk) as [_ ->]].
    destruct (find_slot s (F j) _) as [k|] eqn:Ef; [|done]. apply find_slot_Some in Ef as [Hk _]. rewrite <- E in Hk.
    destruct (Hsub j k Hk) as [_ ->]. by rewrite (tr_mem _ _ _ Ht).
  - intros x. rewrite (byte_eq _ _ _ _ _ HP2), (byte_eq _ _ _ _ _ HP) by (apply live_heads; by rewrite ?Hlv).
    assert (upd F i kept i = kept) as E by (unfold upd; by rewrite Z.eqb_refl).
    set (fp := x / RAMFS_PAGE_SIZE). destruct (find_slot s1 (upd F i kept i) fp) as [k|] eqn:Ef.
    + apply find_slot_Some in Ef as [Hk Hfp]. destruct (Hsub i k Hk) as [HkF Hb]. rewrite Hb in Hfp. cbn in Hfp.
      rewrite E in Hk. specialize (Hkept k Hk). replace (fp <? keep) with true by lia.
      rewrite <- Hfp, (find_slot_in _ _ _ _ _ HP i k HkF), Hb. by rewrite (tr_mem _ _ _ Ht).
    + destruct (Z.ltb_spec fp keep); [|done]. destruct (find_slot s (F i) fp) as [k|] eqn:Ef'; [|done].
      apply find_slot_Some in Ef' as [HkF Hfp]. destruct (Hgone k HkF) as [Hk|Hk]; [|lia]. rewrite <- E in Hk.
      exfalso. apply (find_slot_None _ _ _ _ Ef Hk). destruct (Hsub i k Hk) as [_ ->]. done.
Qed.

End RamfsTrunc.
