(* ===== verification/RamfsTree.v ===== *)
(** The name space of the RAM file system: path resolution as a walk over the
    components of the path, and the effect of adding and removing nodes on it. *)

From Stdlib Require Import ZArith Lia String Ascii.
From stdpp Require Import base numbers list option.
From S2P Require Import Prelude Mem Pmm PmmSpec Vmm VmmInv Ramfs RamfsInv RamfsPool RamfsFile.
Import Mem Kstr Pmm Vmm VmmInv Ramfs RamfsInv RamfsPool RamfsFile list_basics.list list_relations.list.

Open Scope string_scope.
Open Scope char_scope.
Open Scope list_scope.
Open Scope Z_scope.
Open Scope c_scope.

Module RamfsTree.

Lemma streq_spec a b : streq a b = true <-> a = b.
Proof.
  revert b. induction a as [|x a IH]; intros [|y b]; simpl; try (split; done).
  destruct (Ascii.eqb_spec x y) as [->|Hne]; simpl; [rewrite IH; split; congruence|split; congruence].
Qed.

(** ** Scanning the nodes *)

Definition in_range (i : Z) : Prop := 0 <= i < RAMFS_MAX_NODES.

Lemma first_node_spec p :
  (first_node p = -1 /\ forall i, in_range i -> p i = false) \/
  (in_range (first_node p) /\ p (first_node p) = true /\ forall i, 0 <= i < first_node p -> p i = false).
Proof.
  unfold first_node, in_range. destruct (first_from _ 0 node_range) as [k|] eqn:E.
  - right. apply first_from_Some in E as (H1 & H3 & H4). change node_range with 512%nat in *. change RAMFS_MAX_NODES with 512.
    split_and!; [lia|lia|done|]. intros i Hi. specialize (H4 (Z.to_nat i)). rewrite Z2Nat.id in H4 by lia. apply H4. lia.
  - left. split; [done|]. intros i Hi. pose proof (proj1 (first_from_None _ _ _) E (Z.to_nat i)) as H. cbv beta in H.
    rewrite Z2Nat.id in H by lia. apply H. change node_range with 512%nat. change RAMFS_MAX_NODES with 512 in Hi. lia.
Qed.

Lemma first_node_ext p q : (forall i, in_range i -> p i = q i) -> first_node p = first_node q.
Proof.
  intros H. unfold first_node. rewrite (first_from_ext _ (fun k => q (Z.of_nat k))); [done|].
  intros k Hk. apply H. unfold in_range. change node_range with 512%nat in Hk. change RAMFS_MAX_NODES with 512. lia.
Qed.

Lemma live_spec s i : live s i = true <-> in_range i /\ used (nodes s i) = true.
Proof.
  unfold live, in_range. destruct (Z.ltb_spec i 0), (Z.leb_spec RAMFS_MAX_NODES i); simpl; rewrite ?negb_involutive; split; intros; naive_solver lia.
Qed.

(** [i] is an entry named [nm] of [p]. *)
Definition child (s : state) (p : Z) (nm : string) (i : Z) : Prop :=
  live s i = true /\ parent (nodes s i) = p /\ name (nodes s i) = nm.

Lemma child_test s p nm i :
  in_range i -> used (nodes s i) && (parent (nodes s i) =? p) && streq (name (nodes s i)) nm = true <-> child s p nm i.
Proof.
  intros Hi. unfold child. rewrite live_spec, !andb_true_iff, streq_spec, Z.eqb_eq. naive_solver.
Qed.

Lemma find_child_spec s p nm :
  (find_child s p nm = -1 /\ forall i, ~ child s p nm i) \/
  (in_range (find_child s p nm) /\ child s p nm (find_child s p nm)).
Proof.
  unfold find_child. destruct (first_node_spec (fun i => used (nodes s i) && (parent (nodes s i) =? p) && streq (name (nodes s i)) nm))
    as [[-> H]|(H1 & H2 & _)]; [left|right].
  - split; [done|]. intros i Hc. assert (in_range i) as Hi by (by destruct (proj1 (live_spec s i) (proj1 Hc))).
    apply child_test in Hc; [|done]. by rewrite H in Hc.
  - split; [done|]. by apply child_test.
Qed.

(** A directory has no two entries of the same name. *)
Definition unique_names (s : state) : Prop :=
  forall i j, live s i = true -> live s j = true -> 0 <= parent (nodes s i) -> parent (nodes s i) = parent (nodes s j) ->
    name (nodes s i) = name (nodes s j) -> i = j.

Lemma find_child_unique s p nm i : unique_names s -> 0 <= p -> child s p nm i -> find_child s p nm = i.
Proof.
  intros Hu Hp Hc. destruct (find_child_spec s p nm) as [[_ H]|[_ H]]; [by destruct (H i)|].
  destruct Hc as (H1 & H2 & H3), H as (H4 & H5 & H6). apply Hu; congruence.
Qed.

Lemma find_child_range s p nm : find_child s p nm = -1 \/ in_range (find_child s p nm).
Proof. destruct (find_child_spec s p nm) as [[-> _]|[? _]]; auto. Qed.

(** ** Paths *)

(** The components of a path after its leading separator: the names between
    separators, without an empty last one. *)
Fixpoint comps (acc p : string) : list string :=
  match p with
  | EmptyString => if nonempty acc then [acc] else []
  | String c p' => if Ascii.eqb c "/" then acc :: comps EmptyString p' else comps (acc ++ String c EmptyString)%string p'
  end.

Definition components (p : string) : list string := comps EmptyString p.

(** The walk: every component is looked up in the directory reached so far. *)
Fixpoint walk (s : state) (cur : Z) (cs : list string) : Z :=
  match cs with
  | [] => cur
  | c :: cs' =>
      if (RAMFS_NAME_MAX <? kstrlen c)%nat then -1 else
      let i := find_child s cur c in
      if i <? 0 then -1 else walk s i cs'
  end.

Lemma kstrlen_snoc a c : kstrlen (a ++ String c EmptyString) = S (kstrlen a).
Proof. rewrite kstrlen_app. simpl. lia. Qed.

Lemma comps_long acc p cs s cur :
  comps acc p = cs -> (RAMFS_NAME_MAX < kstrlen acc)%nat -> walk s cur cs = -1.
Proof.
  revert acc cs. induction p as [|c p IH]; intros acc cs <- Hl; simpl.
  - destruct acc; [simpl in Hl; lia|]. simpl nonempty. cbn [walk]. by replace (_ <? _)%nat with true by (symmetry; apply Nat.ltb_lt; lia).
  - destruct (Ascii.eqb c "/").
    + cbn [walk]. by replace (_ <? _)%nat with true by (symmetry; apply Nat.ltb_lt; lia).
    + eapply IH; [done|]. rewrite kstrlen_snoc. lia.
Qed.

Lemma lookup_loop_walk s cur acc p :
  (kstrlen acc <= RAMFS_NAME_MAX)%nat ->
  lookup_loop s cur acc (kstrlen acc) p = walk s cur (comps acc p).
Proof.
  revert cur acc. induction p as [|c p IH]; intros cur acc Hl; cbn [lookup_loop comps].
  - destruct acc as [|a acc]; [done|]. cbn [walk kstrlen nonempty].
    replace (RAMFS_NAME_MAX <? S (kstrlen acc))%nat with false by (symmetry; apply Nat.ltb_ge; simpl in Hl; lia). done.
  - destruct (Ascii.eqb_spec c "/") as [->|Hc].
    + cbn [walk]. replace (_ <? _)%nat with false by (symmetry; apply Nat.ltb_ge; lia).
      destruct (find_child s cur acc <? 0); [done|]. apply IH. simpl. lia.
    + destruct (Nat.leb_spec RAMFS_NAME_MAX (kstrlen acc)).
      * symmetry. eapply comps_long; [done|]. rewrite kstrlen_snoc. lia.
      * rewrite <- kstrlen_snoc with (c := c). apply IH. rewrite kstrlen_snoc. lia.
Qed.

Lemma lookup_walk s p : lookup_index s (Some (String "/" p)) = walk s 0 (components p).
Proof.
  unfold lookup_index, is_root. change (Ascii.eqb "/" "/") with true. cbn [negb streq].
  change (Ascii.eqb "/" "/") with true. cbn [negb]. destruct p as [|c p]; [done|].
  apply (lookup_loop_walk s 0 EmptyString). simpl. lia.
Qed.

Lemma walk_app s cur a b :
  0 <= cur -> walk s cur (a ++ b) = let i := walk s cur a in if i <? 0 then -1 else walk s i b.
Proof.
  revert cur. induction a as [|c a IH]; intros cur Hc; simpl.
  - by replace (cur <? 0) with false by lia.
  - destruct (_ <? _)%nat; [done|]. destruct (Z.ltb_spec (find_child s cur c) 0); [done|]. by apply IH.
Qed.

Lemma walk_range s cur cs : in_range cur -> walk s cur cs = -1 \/ in_range (walk s cur cs).
Proof.
  revert cur. induction cs as [|c cs IH]; intros cur Hc; simpl; [by right|].
  destruct (_ <? _)%nat; [by left|]. destruct (Z.ltb_spec (find_child s cur c) 0); [by left|].
  apply IH. destruct (find_child_range s cur c); [lia|done].
Qed.

Fixpoint no_slash (s : string) : bool :=
  match s with EmptyString => true | String c s' => negb (Ascii.eqb c "/") && no_slash s' end.

Fixpoint ends_slash (s : string) : bool :=
  match s with
  | EmptyString => false
  | String c EmptyString => Ascii.eqb c "/"
  | String _ s' => ends_slash s'
  end.

(** [dir/nm] as the system calls pass it on: [dir] is empty or an absolute path
    without a trailing separator, [nm] a plain name. *)
Definition proper (dir nm : string) : Prop :=
  (dir = EmptyString \/ exists d, dir = String "/" d /\ d <> EmptyString /\ ends_slash d = false) /\
  nm <> EmptyString /\ no_slash nm = true.

Definition join (dir nm : string) : string := (dir ++ String "/" nm)%string.

(** The path of the directory. *)
Definition dir_path (dir : string) : string := match dir with EmptyString => String "/" EmptyString | _ => dir end.

Lemma comps_plain acc nm : no_slash nm = true -> (acc ++ nm)%string <> EmptyString -> comps acc nm = [(acc ++ nm)%string].
Proof.
  revert acc. induction nm as [|c nm IH]; intros acc Hn Hne; simpl in *.
  - rewrite string_app_nil in *. by destruct acc.
  - apply andb_true_iff in Hn as [Hc Hn]. apply negb_true_iff in Hc. rewrite Hc.
    rewrite IH; [|done|]; rewrite string_app_assoc; [done|]. by destruct acc.
Qed.

Lemma comps_join acc d nm :
  no_slash nm = true -> nm <> EmptyString -> ends_slash d = false -> (acc ++ d)%string <> EmptyString ->
  comps acc (d ++ String "/" nm)%string = comps acc d ++ [nm].
Proof.
  intros Hn Hne. revert acc. induction d as [|c d IH]; intros acc He Ha.
  - simpl in *. rewrite string_app_nil in Ha. rewrite comps_plain by done. by destruct acc.
  - simpl in *. destruct (Ascii.eqb_spec c "/") as [->|Hc].
    + simpl. f_equal. destruct d as [|c' d]; [done|]. apply IH; done.
    + apply IH; [by destruct d|]. rewrite string_app_assoc. by destruct acc.
Qed.

(** Looking up [dir/nm] is looking up [nm] in the directory [dir]. *)
Lemma lookup_join s dir nm :
  proper dir nm -> (kstrlen nm <= RAMFS_NAME_MAX)%nat ->
  lookup_index s (Some (join dir nm)) =
    let p := lookup_index s (Some (dir_path dir)) in
    if p <? 0 then -1 else let i := find_child s p nm in if i <? 0 then -1 else i.
Proof.
  intros ([->|(d & -> & Hd & He)] & Hne & Hn) Hl.
  - change (join EmptyString nm) with (String "/" nm). rewrite lookup_walk.
    change (lookup_index s (Some (dir_path EmptyString))) with 0. cbv zeta. unfold components. rewrite comps_plain by done.
    change (EmptyString ++ nm)%string with nm. simpl.
    by replace (RAMFS_NAME_MAX <? kstrlen nm)%nat with false by (symmetry; apply Nat.ltb_ge; lia).
  - change (join (String "/" d) nm) with (String "/" (d ++ String "/" nm)%string).
    change (dir_path (String "/" d)) with (String "/" d). rewrite !lookup_walk. unfold components. rewrite comps_join by done. rewrite walk_app by lia. simpl.
    by replace (RAMFS_NAME_MAX <? kstrlen nm)%nat with false by (symmetry; apply Nat.ltb_ge; lia).
Qed.

(** ** Splitting a path *)

Lemma last_plain nm q : no_slash nm = true -> last_component_loop nm q = q.
Proof.
  revert q. induction nm as [|c nm IH]; intros q; simpl; [done|]. intros H. apply andb_true_iff in H as [Hc Hn].
  apply negb_true_iff in Hc. rewrite Hc. simpl. by apply IH.
Qed.

Lemma last_join dir nm q : no_slash nm = true -> nm <> EmptyString -> last_component_loop (dir ++ String "/" nm)%string q = nm.
Proof.
  intros Hn Hne. revert q. induction dir as [|c dir IH]; intros q; simpl; [|apply IH].
  destruct nm as [|c nm]; [done|]. simpl. apply (last_plain (String c nm)). done.
Qed.

Lemma substring_app a b : substring 0 (kstrlen a) (a ++ b)%string = a.
Proof. induction a as [|c a IH]; simpl; [by destruct b|]. by rewrite IH. Qed.

Lemma char_at_mid a c b : char_at (a ++ String c b) (kstrlen a) = c.
Proof. induction a as [|x a IH]; [done|]. unfold char_at in *. simpl. done. Qed.

Lemma split_join s dir nm :
  proper dir nm -> char_at nm 0 <> "000" ->
  split_parent s (Some (join dir nm)) =
    if (RAMFS_NAME_MAX <? kstrlen nm)%nat || (511 <=? kstrlen dir)%nat then None else
    let p := lookup_index s (Some (dir_path dir)) in
    if (p <? 0) || negb (is_dir (nodes s p)) then None else Some (p, nm).
Proof.
  intros Hp H0. pose proof Hp as (Hd & Hne & Hn). unfold split_parent.
  assert (char_at (join dir nm) 0 = "/") as -> by (by destruct Hd as [->|(d & -> & _)]).
  assert (is_root (join dir nm) = false) as ->.
  { unfold is_root, join. destruct Hd as [->|(d & -> & Hd & _)]; simpl; [by destruct nm|by destruct d]. }
  change (negb (Ascii.eqb "/" "/") || false) with false. cbv iota.
  assert (last_component (join dir nm) = nm) as -> by (unfold last_component, join; by apply last_join).
  cbv zeta.
  destruct (Ascii.eqb_spec (char_at nm 0) "000"); [done|].
  replace (kstrlen nm =? 0)%nat with false by (destruct nm; [done|]; simpl; done). cbn [orb].
  destruct (RAMFS_NAME_MAX <? kstrlen nm)%nat; [done|]. cbn [orb].
  assert (kstrlen (join dir nm) - kstrlen nm = S (kstrlen dir))%nat as -> by (unfold join; rewrite kstrlen_app; simpl; lia).
  cbn [Nat.eqb]. replace (512 <=? S (kstrlen dir))%nat with (511 <=? kstrlen dir)%nat by done.
  destruct (511 <=? kstrlen dir)%nat; [done|]. replace (S (kstrlen dir) - 1)%nat with (kstrlen dir) by lia.
  unfold join. rewrite char_at_mid. change (Ascii.eqb "/" "/") with true. rewrite andb_true_r.
  destruct Hd as [->|(d & -> & _)].
  { by destruct nm. }
  replace (1 <? S (kstrlen (String "/" d)))%nat with true by (symmetry; apply Nat.ltb_lt; simpl; lia).
  by rewrite substring_app.
Qed.

End RamfsTree.
