(* ===== verification/RamfsOps.v ===== *)
(** The operations on the tree of the RAM file system preserve its invariants:
    the page pool of [RamfsInv] and the shape of the tree. *)

From Stdlib Require Import ZArith Lia String Ascii.
From stdpp Require Import base numbers list option.
From S2P Require Import Prelude Mem Pmm PmmSpec Vmm VmmInv Ramfs RamfsInv RamfsPool RamfsFile RamfsTrunc RamfsTree.
Import Mem Kstr Pmm Vmm VmmInv Ramfs RamfsInv RamfsPool RamfsFile RamfsTrunc RamfsTree list_basics.list list_relations.list.

Open Scope string_scope.
Open Scope char_scope.
Open Scope list_scope.
Open Scope Z_scope.
Open Scope c_scope.

Module RamfsOps.

(** ** Changes of the nodes *)

(** The pool, memory and clock are the same. *)
Definition pool_fixed (s s' : state) : Prop :=
  same_pool s s' /\ kernel s' = kernel s /\ ramfs_now_sec s' = ramfs_now_sec s.

Lemma pool_fixed_refl s : pool_fixed s s.
Proof. by repeat split. Qed.

Lemma pool_fixed_trans s1 s2 s3 : pool_fixed s1 s2 -> pool_fixed s2 s3 -> pool_fixed s1 s3.
Proof.
  intros ((A1 & A2 & A3 & A4 & A5 & A6 & A7) & A8 & A9) ((B1 & B2 & B3 & B4 & B5 & B6 & B7) & B8 & B9).
  repeat split; congruence.
Qed.

Lemma fixed_on_node i f s : pool_fixed s (on_node i f s).
Proof. by repeat split. Qed.

Lemma fixed_byte s s' j x :
  pool_fixed s s' -> first_page (nodes s' j) = first_page (nodes s j) -> file_byte s' j x = file_byte s j x.
Proof.
  intros ((_ & Hb & _ & Hc & _) & Hk & _) Hf. unfold file_byte, find_backing_page, chain_fuel, find_step, memory.
  by rewrite Hb, Hc, Hk, Hf.
Qed.

Lemma fixed_pool s s' hd F free U : pool_fixed s s' -> Pool s hd F free U -> Pool s' hd F free U.
Proof.
  intros (Hp & Hk & _) HP. apply (pool_same s); [done|done|..]; rewrite Hk; [apply HP|by split|done].
Qed.

Definition size_ok (n : ramfs_mem_node) : Prop :=
  is_u64 (size n) /\ (writable n = true -> size n <= RAMFS_MAX_FILE_SIZE).

(** A change of nodes that leaves the chains alone. *)
Lemma fixed_inv s s' F free U :
  pool_fixed s s' -> Inv s F free U -> (forall i, heads s' i = heads s i) ->
  (forall i, live s' i = true -> size_ok (nodes s' i)) -> Inv s' F free U.
Proof.
  intros Hf [HP Hs] Hh Hsz. split; [|done]. eapply pool_fun_ext; [by eapply fixed_pool|done|done].
Qed.

(** A change of the fields of one node other than [used] and [first_page]. *)
Lemma on_node_live i f s j : used (f (nodes s i)) = used (nodes s i) -> live (on_node i f s) j = live s j.
Proof. intros Hu. unfold live. cbn. unfold upd. by destruct (Z.eqb_spec j i) as [->|]; rewrite ?Hu. Qed.

Lemma on_node_inv i f s F free U :
  Inv s F free U -> used (f (nodes s i)) = used (nodes s i) -> first_page (f (nodes s i)) = first_page (nodes s i) ->
  (live s i = true -> size_ok (f (nodes s i))) -> Inv (on_node i f s) F free U.
Proof.
  intros HI Hu Hf Hsz. apply (fixed_inv s); [apply fixed_on_node|done|..].
  - intros j. unfold heads. rewrite on_node_live by done. cbn. unfold upd. destruct (Z.eqb_spec j i) as [->|]; [|done]. by rewrite Hf.
  - intros j. rewrite on_node_live by done. intros Hj. cbn. unfold upd. destruct (Z.eqb_spec j i) as [->|]; [by apply Hsz|].
    by apply HI.
Qed.

(** ** The tree *)

Record Tree (s : state) : Prop := {
  tree_root : live s 0 = true /\ is_dir (nodes s 0) = true /\ parent (nodes s 0) = 0 /\ name (nodes s 0) = EmptyString;
  tree_parent : forall i, live s i = true -> parent (nodes s i) <> -1 ->
                  live s (parent (nodes s i)) = true /\ is_dir (nodes s (parent (nodes s i))) = true /\
                  parent (nodes s (parent (nodes s i))) <> -1;
  tree_names : unique_names s;
  tree_named : forall i, live s i = true -> i <> 0 -> parent (nodes s i) <> -1 -> name (nodes s i) <> EmptyString;
  tree_refs : forall i, live s i = true -> is_u32 (refs (nodes s i)) /\ (parent (nodes s i) = -1 -> 0 < refs (nodes s i));
}.

(** Nodes that agree on what the tree is made of. *)
Definition same_place (n n' : ramfs_mem_node) : Prop :=
  used n' = used n /\ is_dir n' = is_dir n /\ parent n' = parent n /\ name n' = name n.

Lemma tree_same s s' :
  Tree s -> (forall i, live s' i = live s i) ->
  (forall i, live s i = true -> same_place (nodes s i) (nodes s' i) /\
     is_u32 (refs (nodes s' i)) /\ (parent (nodes s i) = -1 -> 0 < refs (nodes s' i))) ->
  Tree s'.
Proof.
  intros HT Hl Hn. assert (forall i, live s i = true -> is_dir (nodes s' i) = is_dir (nodes s i) /\
    parent (nodes s' i) = parent (nodes s i) /\ name (nodes s' i) = name (nodes s i)) as Hs by (intros i Hi; by destruct (Hn i Hi) as [(_ & ?) _]).
  destruct (tree_root _ HT) as (R1 & R2 & R3 & R4). split.
  - rewrite Hl. destruct (Hs 0 R1) as (-> & -> & ->). done.
  - intros i. rewrite Hl. intros Hi. destruct (Hs i Hi) as (_ & -> & _). intros Hp.
    destruct (tree_parent _ HT i Hi Hp) as (H1 & H2 & H3). rewrite Hl. destruct (Hs _ H1) as (-> & -> & _). done.
  - intros i j. rewrite !Hl. intros Hi Hj. destruct (Hs i Hi) as (_ & -> & ->), (Hs j Hj) as (_ & -> & ->). by apply (tree_names _ HT).
  - intros i. rewrite Hl. intros Hi. destruct (Hs i Hi) as (_ & -> & ->). by apply HT.
  - intros i. rewrite Hl. intros Hi. destruct (Hs i Hi) as (_ & -> & _). by apply Hn.
Qed.

Lemma find_child_same s s' p nm :
  (forall i, live s' i = live s i) -> (forall i, live s i = true -> same_place (nodes s i) (nodes s' i)) ->
  find_child s' p nm = find_child s p nm.
Proof.
  intros Hl Hn. unfold find_child. apply first_node_ext. intros i Hi.
  destruct (live s i) eqn:E.
  - by destruct (Hn i E) as (-> & _ & -> & ->).
  - assert (used (nodes s i) = false /\ used (nodes s' i) = false) as [-> ->]; [|done].
    split; apply not_true_is_false; intros Hu; [|rewrite <- Hl in E]; apply not_true_iff_false in E; apply E, live_spec; done.
Qed.

Lemma walk_same s s' cur cs :
  (forall p nm, find_child s' p nm = find_child s p nm) -> walk s' cur cs = walk s cur cs.
Proof. intros H. revert cur. induction cs as [|c cs IH]; intros cur; simpl; [done|]. rewrite H. by rewrite IH. Qed.

Lemma lookup_same s s' path :
  (forall p nm, find_child s' p nm = find_child s p nm) -> lookup_index s' path = lookup_index s path.
Proof.
  intros H. destruct path as [[|c p]|]; [done| |done]. destruct (Ascii.eqb_spec c "/") as [->|Hc].
  - rewrite !lookup_walk. by apply walk_same.
  - unfold lookup_index. destruct (Ascii.eqb_spec c "/"); done.
Qed.

(** ** Adding a node *)

(** A C string. *)
Fixpoint c_str (s : string) : bool :=
  match s with EmptyString => true | String c s' => negb (Ascii.eqb c "000") && c_str s' end.

Lemma c_str_at s i : c_str s = true -> char_at s i = "000" -> (kstrlen s <= i)%nat.
Proof.
  revert i. induction s as [|c s IH]; intros i H Hc; simpl in *; [lia|]. apply andb_true_iff in H as [H1 H2].
  destruct i as [|i]; [unfold char_at in Hc; simpl in Hc; subst c; done|]. specialize (IH i H2 Hc). lia.
Qed.

Lemma char_at_end s : char_at s (kstrlen s) = "000".
Proof. induction s as [|c s IH]; [done|]. unfold char_at in *. simpl. done. Qed.

Lemma copy_name_spec nm ok copied :
  c_str nm = true -> copy_name nm = (ok, copied) ->
  if ok then copied = nm /\ (kstrlen nm <= RAMFS_NAME_MAX)%nat else (RAMFS_NAME_MAX < kstrlen nm)%nat.
Proof.
  intros Hc. unfold copy_name. remember (copy_loop RAMFS_NAME_MAX nm) as d eqn:Hd. cbv zeta. intros [= <- <-].
  destruct (Ascii.eqb_spec (char_at nm (kstrlen d)) "000") as [E|E]; subst d.
  - apply c_str_at in E; [|done]. pose proof (copy_loop_length RAMFS_NAME_MAX nm).
    split; [|lia]. apply copy_loop_full. lia.
  - destruct (Nat.lt_ge_cases RAMFS_NAME_MAX (kstrlen nm)) as [|Hle]; [done|].
    exfalso. apply E. rewrite copy_loop_full by lia. apply char_at_end.
Qed.

(** Nothing that is in use has changed. *)
Record kept (s s' : state) : Prop := {
  kp_live : forall j, live s' j = live s j;
  kp_nodes : forall j, live s j = true -> nodes s' j = nodes s j;
  kp_bytes : forall j x, live s j = true -> file_byte s' j x = file_byte s j x;
  kp_clock : ramfs_now_sec s' = ramfs_now_sec s /\ memory s' = memory s;
}.

Lemma kept_refl s : kept s s.
Proof. by split. Qed.

Lemma kept_tree s s' : kept s s' -> Tree s -> Tree s'.
Proof.
  intros Hk HT. apply (tree_same s); [done|apply Hk|]. intros i Hi. rewrite (kp_nodes _ _ Hk i Hi).
  split; [done|by apply HT].
Qed.

Lemma kept_lookup s s' path : kept s s' -> lookup_index s' path = lookup_index s path.
Proof.
  intros Hk. apply lookup_same. intros p nm. apply find_child_same; [apply Hk|]. intros i Hi. by rewrite (kp_nodes _ _ Hk i Hi).
Qed.

(** The node [r] is new, an entry [nm] of [p]. *)
Record added_node (s s' : state) (r p : Z) (nm : string) (dir wr : bool) : Prop := {
  an_range : in_range r /\ live s r = false;
  an_name : (kstrlen nm <= RAMFS_NAME_MAX)%nat;
  an_dir : is_dir (nodes s p) = true;
  an_new : forall i, ~ child s p nm i;
  an_node : nodes s' r = mk_node true dir wr (mount (nodes s p)) RAMFS_DEV_NONE (if dir then 0x1ff else 0x1b6) 0 0 0 0 0 false
              (-1) p nm 0 0 (next_ino s) (ramfs_now_sec s) (ramfs_now_sec s) (ramfs_now_sec s);
  an_parent : nodes s' p = set_ctime (ramfs_now_sec s) (set_mtime (ramfs_now_sec s) (nodes s p));
  an_other : forall j, j <> r -> j <> p -> nodes s' j = nodes s j;
  an_fixed : pool_fixed s s';
}.

Lemma alloc_node_spec s i s' :
  alloc_node s = (i, s') ->
  i = -1 /\ s' = s \/
  in_range i /\ live s i = false /\ pool_fixed s s' /\ (forall j, j <> i -> nodes s' j = nodes s j) /\
  nodes s' i = mk_node true false false RAMFS_MOUNT_RAM0 RAMFS_DEV_NONE 0 0 0 0 0 0 false (-1) (-1) EmptyString 0 0
                 (next_ino s) (ramfs_now_sec s) (ramfs_now_sec s) (ramfs_now_sec s).
Proof.
  unfold alloc_node. destruct (first_node_spec (fun i => negb (used (nodes s i)))) as [[-> _]|(Hr & Hu & _)].
  { intros [= <- <-]. by left. }
  set (k := first_node _) in *. replace (k <? 0) with false by (unfold in_range in Hr; lia).
  intros [= <- <-]. right. split_and!; [done| |by repeat split| |].
  - apply not_true_is_false. intros Hl. apply live_spec in Hl as [_ Hl]. rewrite Hl in Hu. done.
  - intros j Hj. cbn. unfold upd. by replace (j =? k) with false by lia.
  - cbn. unfold upd. by rewrite Z.eqb_refl.
Qed.

(** A node taken into use with an empty chain. *)
Lemma alloc_inv s i s' F free U :
  Inv s F free U -> live s i = false -> pool_fixed s s' -> (forall j, j <> i -> nodes s' j = nodes s j) ->
  first_page (nodes s' i) = -1 -> size (nodes s' i) = 0 -> Inv s' F free U.
Proof.
  intros HI Hi Hf Hn Hp Hz. apply (fixed_inv s); [done|done|..].
  - intros j. unfold heads, live. destruct (Z.eq_dec j i) as [->|Hj]; [|by rewrite Hn].
    unfold live in Hi. rewrite Hi, Hp. by case_match.
  - intros j. destruct (Z.eq_dec j i) as [->|Hj].
    + intros _. unfold size_ok. rewrite Hz. change RAMFS_MAX_FILE_SIZE with (4294967295 * 4096). unfold is_u64. lia.
    + unfold live. rewrite Hn by done. apply HI.
Qed.

(** ** Freeing a node *)

Lemma free_node_inv s F free U i :
  Inv s F free U -> live s i = true ->
  exists s' F' free', free_node i s = Some s' /\ Inv s' F' free' U /\ live s' i = false /\
    (forall j, j <> i -> nodes s' j = nodes s j) /\ nodes s' i = blank /\
    (forall j x, j <> i -> live s j = true -> file_byte s' j x = file_byte s j x) /\
    ramfs_now_sec s' = ramfs_now_sec s /\ memory s' = memory s.
Proof.
  intros HI Hl. pose proof (iv_pool _ _ _ _ HI) as HP.
  destruct (free_node_spec s (heads s) F free U i HP (live_heads _ _ Hl)) as
    (s' & hd' & free' & -> & HP' & Hhd & Hn & Hck & _ & Hother & Hcfg & Hmem).
  assert (live s' i = false) as Hli.
  { unfold live. rewrite Hn, Z.eqb_refl. cbn. by rewrite orb_true_r. }
  assert (forall j, j <> i -> nodes s' j = nodes s j) as Hnj by (intros j Hj; rewrite Hn; by replace (j =? i) with false by lia).
  assert (forall j, j <> i -> live s' j = live s j) as Hlj by (intros j Hj; unfold live; by rewrite Hnj).
  assert (Pool s' (heads s') (upd F i []) free' U) as HP2.
  { eapply pool_hd; [done|]. intros j. pose proof (pl_chain _ _ _ _ _ HP' j) as Hch. unfold heads.
    destruct (Z.eq_dec j i) as [->|Hj]; [rewrite Hli; unfold upd; by rewrite Z.eqb_refl|].
    rewrite Hhd in Hch by done. unfold heads in Hch. by rewrite Hlj, Hnj. }
  exists s', (upd F i []), free'. split_and!; try done.
  - split; [done|]. intros j Hj. destruct (Z.eq_dec j i) as [->|Hne]; [congruence|]. rewrite Hlj in Hj by done.
    rewrite Hnj by done. by apply HI.
  - by rewrite Hn, Z.eqb_refl.
  - intros j x Hj Hlv. assert (upd F i [] j = F j) as EF by (unfold upd; by replace (j =? i) with false by lia).
    rewrite (byte_eq _ _ _ _ _ HP2), (byte_eq _ _ _ _ _ HP) by (apply live_heads; rewrite ?Hlj; done). rewrite EF.
    assert (forall k, k ∈ F j -> backing_pages s' k = backing_pages s k) as Hk.
    { intros k Hk. apply (pl_in _ _ _ _ _ HP) in Hk as (H1 & H2 & H3). apply Hother; [done..|congruence]. }
    rewrite (find_slot_ext s s') by (intros k Hk'; by rewrite Hk). destruct (find_slot s (F j) _) as [k|] eqn:Ef; [|done].
    apply find_slot_Some in Ef as [Hkj _]. by rewrite Hk, Hmem.
Qed.

(** [alloc_inv] with the times of the parent changed. *)
Lemma alloc_inv2 s i s' F free U p :
  Inv s F free U -> live s i = false -> live s p = true -> pool_fixed s s' ->
  (forall j, j <> i -> j <> p -> nodes s' j = nodes s j) ->
  first_page (nodes s' i) = -1 -> size (nodes s' i) = 0 ->
  used (nodes s' p) = used (nodes s p) -> first_page (nodes s' p) = first_page (nodes s p) ->
  size (nodes s' p) = size (nodes s p) -> writable (nodes s' p) = writable (nodes s p) -> Inv s' F free U.
Proof.
  intros HI Hi Hp Hf Hn Hfp Hz H1 H2 H3 H4. apply (fixed_inv s); [done|done|..].
  - intros j. unfold heads, live in *. destruct (Z.eq_dec j i) as [->|Hj]; [rewrite Hi, Hfp; by case_match|].
    destruct (Z.eq_dec j p) as [->|Hjp]; [by rewrite H1, H2|by rewrite Hn].
  - intros j. destruct (Z.eq_dec j i) as [->|Hj].
    + intros _. unfold size_ok. rewrite Hz. change RAMFS_MAX_FILE_SIZE with (4294967295 * 4096). unfold is_u64. lia.
    + unfold live, size_ok. destruct (Z.eq_dec j p) as [->|Hjp]; [rewrite H1, H3, H4; apply HI|rewrite Hn by done; apply HI].
Qed.

Lemma add_node_spec s F free U p nm dir wr :
  Inv s F free U -> live s p = true -> c_str nm = true ->
  exists r s', add_node p nm dir wr s = Some (r, s') /\
    (r = -1 /\ ramfs_ok s' U /\ kept s s' \/ Inv s' F free U /\ added_node s s' r p nm dir wr).
Proof.
  intros HI Hp Hc. unfold add_node. apply live_spec in Hp as Hp'. destruct Hp' as [Hpr Hpu]. unfold in_range in Hpr.
  replace (p <? 0) with false by lia. destruct (is_dir (nodes s p)) eqn:Hd; cbn [orb negb].
  2:{ exists (-1), s. split; [done|]. left. split_and!; [done|by exists F, free|apply kept_refl]. }
  destruct (find_child_spec s p nm) as [[-> Hno]|[Hr _]].
  2:{ replace (0 <=? find_child s p nm) with true by (unfold in_range in Hr; lia).
      exists (-1), s. split; [done|]. left. split_and!; [done|by exists F, free|apply kept_refl]. }
  change (0 <=? -1) with false. cbv iota. destruct (alloc_node s) as [i s1] eqn:Ea.
  destruct (alloc_node_spec _ _ _ Ea) as [[-> ->]|(Hi & Hfree & Hf & Hn & Hnode)].
  { exists (-1), s. split; [done|]. left. split_and!; [done|by exists F, free|apply kept_refl]. }
  replace (i <? 0) with false by (unfold in_range in Hi; lia). destruct (copy_name nm) as [ok copied] eqn:Ec.
  pose proof (copy_name_spec nm ok copied Hc Ec) as Hcn.
  assert (i <> p) as Hip by congruence.
  assert (forall t, pool_fixed s t -> (forall j, j <> i -> nodes t j = nodes s j) -> first_page (nodes t i) = -1 ->
            size (nodes t i) = 0 -> Inv t F free U) as Hinv by (intros t; by apply alloc_inv).
  destruct ok; cbn [negb].
  - destruct Hcn as [-> Hlen]. eexists _, _. split; [reflexivity|]. right. set (s' := on_node p _ _).
    assert (nodes s' i = mk_node true dir wr (mount (nodes s p)) RAMFS_DEV_NONE (if dir then 0x1ff else 0x1b6) 0 0 0 0 0 false
              (-1) p nm 0 0 (next_ino s) (ramfs_now_sec s) (ramfs_now_sec s) (ramfs_now_sec s)) as Hni.
    { unfold s'. cbn. unfold upd. rewrite !Z.eqb_refl. replace (i =? p) with false by lia. replace (p =? i) with false by lia.
      cbn. rewrite Hnode. cbn. by rewrite Hn by lia. }
    assert (pool_fixed s s') as Hf'.
    { eapply pool_fixed_trans; [exact Hf|]. unfold s'. by repeat split. }
    assert (forall j, j <> i -> j <> p -> nodes s' j = nodes s j) as Hoth.
    { intros j Hj Hjp. unfold s'. cbn. unfold upd. replace (j =? i) with false by lia. replace (j =? p) with false by lia. by apply Hn. }
    assert (nodes s' p = set_ctime (ramfs_now_sec s) (set_mtime (ramfs_now_sec s) (nodes s p))) as Hnp.
    { unfold s'. cbn. unfold upd. rewrite !Z.eqb_refl. replace (p =? i) with false by lia.
      destruct Hf as (_ & _ & ->). by rewrite Hn by lia. }
    split; [|by split].
    apply (alloc_inv2 s i s' F free U p HI); try done; rewrite ?Hni, ?Hnp; done.
  - set (t := on_node i (set_name copied) s1).
    assert (nodes t i = set_name copied (nodes s1 i)) as Hti by (unfold t; cbn; unfold upd; by rewrite Z.eqb_refl).
    assert (forall j, j <> i -> nodes t j = nodes s j) as Htj.
    { intros j Hj. unfold t. cbn. unfold upd. replace (j =? i) with false by lia. by apply Hn. }
    assert (pool_fixed s t) as Hft by (eapply pool_fixed_trans; [done|apply fixed_on_node]).
    destruct (free_node_inv t F free U i) as (s' & F' & free' & -> & HI' & Hl' & Hn' & _ & Hb' & Hck & Hmem).
    { apply Hinv; [done|done|by rewrite Hti, Hnode..]. }
    { apply live_spec. split; [done|]. by rewrite Hti, Hnode. }
    assert (forall j, j <> i -> live t j = live s j) as Hlt by (intros j Hj; unfold live; by rewrite Htj).
    exists (-1), s'. split; [done|]. left. split_and!; [done|by exists F', free'|]. split.
    + intros j. destruct (Z.eq_dec j i) as [->|Hj]; [by rewrite Hl'|]. unfold live. rewrite Hn' by done. by apply Hlt.
    + intros j Hj. rewrite Hn' by congruence. apply Htj. congruence.
    + intros j x Hj. assert (j <> i) as Hne by congruence. rewrite Hb' by (rewrite ?Hlt; done).
      apply fixed_byte; [done|]. by rewrite Htj.
    + split; [rewrite Hck; apply Hft|]. rewrite Hmem. unfold memory. by destruct Hft as (_ & -> & _).
Qed.

(** ** The tree after adding a node *)

Section Added.
Context (s s' : state) (r p : Z) (nm : string) (dir wr : bool).
Hypothesis HT : Tree s.
Hypothesis Hp : live s p = true.
Hypothesis Hpp : parent (nodes s p) <> -1.
Hypothesis Ha : added_node s s' r p nm dir wr.

Lemma added_place j : j <> r -> same_place (nodes s j) (nodes s' j) /\ refs (nodes s' j) = refs (nodes s j).
Proof.
  intros Hj. destruct (Z.eq_dec j p) as [->|Hjp].
  - by rewrite (an_parent _ _ _ _ _ _ _ Ha).
  - by rewrite (an_other _ _ _ _ _ _ _ Ha).
Qed.

Lemma added_live j : live s' j = if j =? r then true else live s j.
Proof.
  destruct (Z.eqb_spec j r) as [->|Hj].
  - apply live_spec. split; [apply Ha|]. by rewrite (an_node _ _ _ _ _ _ _ Ha).
  - unfold live. by destruct (added_place j Hj) as [(-> & _) _].
Qed.

Lemma added_bytes j x : live s j = true -> file_byte s' j x = file_byte s j x.
Proof.
  intros Hj. apply fixed_byte; [apply Ha|]. destruct (an_range _ _ _ _ _ _ _ Ha) as [_ Hr].
  destruct (Z.eq_dec j p) as [->|Hjp]; [by rewrite (an_parent _ _ _ _ _ _ _ Ha)|].
  rewrite (an_other _ _ _ _ _ _ _ Ha); [done|congruence|done].
Qed.

Lemma added_child q m i : child s' q m i <-> child s q m i \/ i = r /\ q = p /\ m = nm.
Proof.
  unfold child. rewrite added_live. destruct (Z.eqb_spec i r) as [->|Hi].
  - rewrite (an_node _ _ _ _ _ _ _ Ha). cbn. destruct (an_range _ _ _ _ _ _ _ Ha) as [_ ->]. naive_solver.
  - destruct (added_place i Hi) as [(_ & _ & -> & ->) _]. naive_solver.
Qed.

Lemma added_names : unique_names s'.
Proof.
  pose proof (an_new _ _ _ _ _ _ _ Ha) as Hnew. pose proof (an_node _ _ _ _ _ _ _ Ha) as Hn.
  intros i j. rewrite !added_live. destruct (Z.eqb_spec i r) as [->|Hi], (Z.eqb_spec j r) as [->|Hj]; [done|..];
    rewrite ?Hn; try destruct (added_place i Hi) as [(_ & _ & -> & ->) _]; try destruct (added_place j Hj) as [(_ & _ & -> & ->) _]; cbn.
  - intros _ Hlj _ H1 H2. exfalso. by apply (Hnew j).
  - intros Hli _ _ H1 H2. exfalso. by apply (Hnew i).
  - apply (tree_names _ HT).
Qed.

Lemma added_tree : nm <> EmptyString -> Tree s'.
Proof.
  intros Hne. pose proof (an_node _ _ _ _ _ _ _ Ha) as Hn. destruct (an_range _ _ _ _ _ _ _ Ha) as [_ Hr].
  assert (forall j, live s j = true -> j <> r) as Hlr by (intros j Hj ->; congruence).
  assert (forall j, live s j = true -> live s' j = true /\ is_dir (nodes s' j) = is_dir (nodes s j) /\
            parent (nodes s' j) = parent (nodes s j)) as Hk.
  { intros j Hj. rewrite added_live. destruct (added_place j (Hlr j Hj)) as [(_ & -> & -> & _) _].
    split_and!; [|done..]. by destruct (j =? r). }
  destruct (tree_root _ HT) as (R1 & R2 & R3 & R4). split.
  - destruct (Hk 0 R1) as (-> & -> & ->). by destruct (added_place 0 (Hlr 0 R1)) as [(_ & _ & _ & ->) _].
  - intros i. rewrite added_live. destruct (Z.eqb_spec i r) as [->|Hi].
    + intros _ _. rewrite Hn. cbn. destruct (Hk p Hp) as (-> & -> & ->). split_and!; [done|apply Ha|done].
    + destruct (added_place i Hi) as [(_ & _ & -> & _) _]. intros Hli Hpi.
      destruct (tree_parent _ HT i Hli Hpi) as (H1 & H2 & H3). by destruct (Hk _ H1) as (-> & -> & ->).
  - apply added_names.
  - intros i. rewrite added_live. destruct (Z.eqb_spec i r) as [->|Hi]; [by rewrite Hn|].
    destruct (added_place i Hi) as [(_ & _ & -> & ->) _]. apply HT.
  - intros i. rewrite added_live. destruct (Z.eqb_spec i r) as [->|Hi].
    + intros _. rewrite Hn. cbn. split; [done|]. intros ->. apply live_spec in Hp as [[? _] _]. lia.
    + destruct (added_place i Hi) as [(_ & _ & -> & _) ->]. apply HT.
Qed.

Lemma added_find q m : 0 <= q -> 0 <= find_child s q m -> find_child s' q m = find_child s q m.
Proof.
  intros Hq Hf. destruct (find_child_spec s q m) as [[? _]|[_ Hc]]; [lia|].
  apply find_child_unique; [apply added_names|done|]. apply added_child. by left.
Qed.

Lemma added_find_new : find_child s' p nm = r.
Proof.
  apply find_child_unique; [apply added_names|by apply live_spec in Hp as [[? _] _]|]. apply added_child. by right.
Qed.

Lemma added_walk cur cs : 0 <= cur -> 0 <= walk s cur cs -> walk s' cur cs = walk s cur cs.
Proof.
  revert cur. induction cs as [|c cs IH]; intros cur Hc; simpl; [done|]. destruct (_ <? _)%nat; [lia|].
  destruct (Z.ltb_spec (find_child s cur c) 0); [lia|]. rewrite added_find by done. intros Hw.
  replace (find_child s cur c <? 0) with false by lia. by apply IH.
Qed.

(** A path that led somewhere still does. *)
Lemma added_lookup path : 0 <= lookup_index s path -> lookup_index s' path = lookup_index s path.
Proof.
  destruct path as [[|c q]|]; [done| |done]. destruct (Ascii.eqb_spec c "/") as [->|Hc].
  - rewrite !lookup_walk. by apply added_walk.
  - unfold lookup_index. destruct (Ascii.eqb_spec c "/"); done.
Qed.
End Added.

(** ** The tree after removing a node *)

(** The node [i] is out of the tree; it had no entries. *)
Record removed (s s' : state) (i : Z) : Prop := {
  rm_live : live s i = true /\ i <> 0;
  rm_leaf : forall j, live s j = true -> parent (nodes s j) <> i;
  rm_node : live s' i = false \/ live s' i = true /\ parent (nodes s' i) = -1 /\ 0 < refs (nodes s' i) < 2 ^ 32;
  rm_other : forall j, j <> i -> nodes s' j = nodes s j;
}.

Section Removed.
Context (s s' : state) (i : Z).
Hypothesis HT : Tree s.
Hypothesis Hr : removed s s' i.

Lemma removed_live j : j <> i -> live s' j = live s j.
Proof. intros Hj. unfold live. by rewrite (rm_other _ _ _ Hr). Qed.

Lemma removed_tree : Tree s'.
Proof.
  destruct (tree_root _ HT) as (R1 & R2 & R3 & R4). destruct (rm_live _ _ _ Hr) as [Hl H0].
  assert (forall j, live s' j = true -> parent (nodes s' j) <> -1 -> j <> i) as Hne.
  { intros j Hj Hp ->. destruct (rm_node _ _ _ Hr) as [?|(_ & ? & _)]; congruence. }
  split.
  - rewrite removed_live, (rm_other _ _ _ Hr) by done. done.
  - intros j Hj Hp. pose proof (Hne j Hj Hp) as Hji. rewrite removed_live in Hj by done. rewrite (rm_other _ _ _ Hr) in * by done.
    pose proof (rm_leaf _ _ _ Hr j Hj) as Hpi. rewrite removed_live, (rm_other _ _ _ Hr) by done. by apply HT.
  - intros j k Hj Hk Hp Hpp Hnm. assert (j <> i) as Hji by (apply Hne; [done|lia]). assert (k <> i) as Hki by (apply Hne; [done|lia]).
    rewrite removed_live in Hj, Hk by done. rewrite !(rm_other _ _ _ Hr) in * by done. by apply (tree_names _ HT).
  - intros j Hj Hj0 Hp. pose proof (Hne j Hj Hp) as Hji. rewrite removed_live in Hj by done.
    rewrite (rm_other _ _ _ Hr) in * by done. by apply HT.
  - intros j Hj. destruct (Z.eq_dec j i) as [->|Hji].
    + destruct (rm_node _ _ _ Hr) as [?|(_ & _ & ?)]; [congruence|]. unfold is_u32. lia.
    + rewrite removed_live in Hj by done. rewrite (rm_other _ _ _ Hr) in * by done. by apply HT.
Qed.

Lemma removed_child q m j : 0 <= q -> child s' q m j <-> child s q m j /\ j <> i.
Proof.
  intros Hq. unfold child. destruct (Z.eq_dec j i) as [->|Hj].
  - split; [|by intros [_ ?]]. intros (H1 & H2 & _). exfalso.
    destruct (rm_node _ _ _ Hr) as [H|(_ & H & _)]; [congruence|lia].
  - rewrite removed_live, (rm_other _ _ _ Hr) by done. naive_solver.
Qed.

Lemma removed_find q m : 0 <= q -> find_child s' q m = if find_child s q m =? i then -1 else find_child s q m.
Proof.
  intros Hq. pose proof removed_tree as HT'. destruct (find_child_spec s q m) as [[-> Hno]|[Hir Hc]].
  - destruct (rm_live _ _ _ Hr) as [Hl _]. apply live_spec in Hl as [Hi _]. unfold in_range in Hi. replace (-1 =? i) with false by lia.
    destruct (find_child_spec s' q m) as [[? _]|[_ Hc]]; [done|]. apply removed_child in Hc as [Hc _]; [|done]. by apply Hno in Hc.
  - destruct (Z.eqb_spec (find_child s q m) i) as [Hi|Hi].
    + destruct (find_child_spec s' q m) as [[? _]|[_ Hc']]; [done|]. apply removed_child in Hc' as [Hc' Hne]; [|done].
      exfalso. apply Hne. rewrite <- Hi. symmetry. by apply find_child_unique; [apply HT| |].
    + apply find_child_unique; [apply HT'|done|]. by apply removed_child.
Qed.

Lemma removed_leaf_find m : find_child s i m = -1.
Proof.
  destruct (find_child_spec s i m) as [[? _]|[_ (H1 & H2 & _)]]; [done|]. by apply (rm_leaf _ _ _ Hr) in H1.
Qed.

Lemma removed_walk cur cs : 0 <= cur -> cur <> i -> walk s' cur cs = if walk s cur cs =? i then -1 else walk s cur cs.
Proof.
  destruct (rm_live _ _ _ Hr) as [Hl _]. apply live_spec in Hl as [Hir _]. unfold in_range in Hir.
  revert cur. induction cs as [|c cs IH]; intros cur Hc Hne; simpl.
  - by replace (cur =? i) with false by lia.
  - destruct (_ <? _)%nat; [by replace (-1 =? i) with false by lia|]. rewrite removed_find by done.
    destruct (Z.ltb_spec (find_child s cur c) 0) as [Hf|Hf].
    { replace (find_child s cur c =? i) with false by lia. replace (find_child s cur c <? 0) with true by lia.
      by replace (-1 =? i) with false by lia. }
    destruct (Z.eqb_spec (find_child s cur c) i) as [Hi|Hi].
    + rewrite Hi. change (-1 <? 0) with true. cbv iota. destruct cs as [|c' cs]; cbn [walk]; [by rewrite Z.eqb_refl|].
      rewrite removed_leaf_find. change (-1 <? 0) with true. cbv iota zeta.
      destruct (_ <? _)%nat; by replace (-1 =? i) with false by lia.
    + replace (find_child s cur c <? 0) with false by lia. by apply IH.
Qed.

(** Only paths to the node change, and they lead nowhere now. *)
Lemma removed_lookup path : lookup_index s' path = if lookup_index s path =? i then -1 else lookup_index s path.
Proof.
  destruct (rm_live _ _ _ Hr) as [Hl H0]. apply live_spec in Hl as [Hir _]. unfold in_range in Hir.
  assert (-1 = if -1 =? i then -1 else -1) as Hm by (by replace (-1 =? i) with false by lia).
  destruct path as [[|c q]|]; [exact Hm| |exact Hm]. destruct (Ascii.eqb_spec c "/") as [->|Hc].
  - rewrite !lookup_walk. apply removed_walk; [lia|done].
  - unfold lookup_index. destruct (Ascii.eqb_spec c "/"); [done|exact Hm].
Qed.
End Removed.

End RamfsOps.
