(* ===== verification/RamfsApi.v ===== *)
(** The interface of [kernel/src/ramfs.c]: every operation returns, keeps the
    invariants, and touches only what it is meant to. *)

From Stdlib Require Import ZArith Lia String Ascii.
From stdpp Require Import base numbers list option.
From S2P Require Import Prelude Mem Pmm PmmSpec Vmm VmmInv Ramfs RamfsInv RamfsPool RamfsFile RamfsTrunc RamfsTree RamfsOps.
Import Mem Kstr Pmm Vmm VmmInv Ramfs RamfsInv RamfsPool RamfsFile RamfsTrunc RamfsTree RamfsOps list_basics.list list_relations.list.

Open Scope string_scope.
Open Scope char_scope.
Open Scope list_scope.
Open Scope Z_scope.
Open Scope c_scope.

Module RamfsApi.

(** The invariant of the file system. *)
Definition Good (s : state) (U : Z -> Z) : Prop := ramfs_ok s U /\ Tree s.

(** ** Paths that lead somewhere *)

Lemma walk_live s cur cs : live s cur = true -> 0 <= walk s cur cs -> live s (walk s cur cs) = true.
Proof.
  revert cur. induction cs as [|c cs IH]; intros cur Hc; simpl; [done|]. destruct (_ <? _)%nat; [lia|].
  destruct (Z.ltb_spec (find_child s cur c) 0); [lia|]. apply IH.
  destruct (find_child_spec s cur c) as [[? _]|[_ [? _]]]; [lia|done].
Qed.

Lemma lookup_from_root s path : live s 0 = true -> 0 <= lookup_index s path -> live s (lookup_index s path) = true.
Proof.
  intros H0. destruct path as [[|c q]|]; [done| |done]. destruct (Ascii.eqb_spec c "/") as [->|Hc].
  - rewrite lookup_walk. by apply walk_live.
  - unfold lookup_index. by destruct (Ascii.eqb_spec c "/").
Qed.

Lemma lookup_live s path : Tree s -> 0 <= lookup_index s path -> live s (lookup_index s path) = true.
Proof. intros HT. apply lookup_from_root, HT. Qed.

(** A path leads into the tree, not to a node taken out of it. *)
Lemma walk_in_tree s cur cs :
  0 <= cur -> parent (nodes s cur) <> -1 -> 0 <= walk s cur cs -> parent (nodes s (walk s cur cs)) <> -1.
Proof.
  revert cur. induction cs as [|c cs IH]; intros cur H0 Hc; simpl; [done|]. destruct (_ <? _)%nat; [lia|].
  destruct (Z.ltb_spec (find_child s cur c) 0); [lia|]. apply IH; [done|].
  destruct (find_child_spec s cur c) as [[? _]|[_ (_ & -> & _)]]; lia.
Qed.

Lemma lookup_in_tree s path : Tree s -> 0 <= lookup_index s path -> parent (nodes s (lookup_index s path)) <> -1.
Proof.
  intros HT. destruct path as [[|c q]|]; [done| |done]. destruct (Ascii.eqb_spec c "/") as [->|Hc].
  - rewrite lookup_walk. apply walk_in_tree; [done|]. destruct (tree_root _ HT) as (_ & _ & -> & _). lia.
  - unfold lookup_index. by destruct (Ascii.eqb_spec c "/").
Qed.

Lemma lookup_range s path : lookup_index s path = -1 \/ 0 <= lookup_index s path.
Proof.
  destruct path as [[|c q]|]; [by left| |by left]. destruct (Ascii.eqb_spec c "/") as [->|Hc].
  - rewrite lookup_walk. destruct (walk_range s 0 (components q)) as [->|[? _]]; [|by left|by right].
    unfold in_range. change RAMFS_MAX_NODES with 512. lia.
  - left. unfold lookup_index. by destruct (Ascii.eqb_spec c "/").
Qed.

Lemma last_c_str p nm : c_str p = true -> c_str nm = true -> c_str (last_component_loop p nm) = true.
Proof.
  revert nm. induction p as [|c p IH]; intros nm Hp Hn; simpl; [done|]. apply andb_true_iff in Hp as [_ Hp].
  apply IH; [done|]. by destruct (_ && _).
Qed.

Definition c_path (path : option string) : Prop := match path with Some p => c_str p = true | None => True end.

Lemma split_sound s path p nm :
  Tree s -> c_path path -> split_parent s path = Some (p, nm) ->
  live s p = true /\ parent (nodes s p) <> -1 /\ nm <> EmptyString /\ c_str nm = true.
Proof.
  intros HT Hc. unfold split_parent. destruct path as [path|]; [|done]. simpl in Hc. destruct (_ || _); [done|].
  set (last := last_component path). destruct (Ascii.eqb_spec (char_at last 0) "000") as [|H0]; [done|].
  destruct (_ || _); [done|]. cbv zeta. destruct (512 <=? _)%nat; [done|].
  match goal with |- context [lookup_index s (Some ?q)] => set (i := lookup_index s (Some q)) end.
  destruct (Z.ltb_spec i 0); [done|]. destruct (is_dir (nodes s i)) eqn:Ed; [|done]. intros [= <- <-].
  split_and!; [by apply lookup_live|by apply lookup_in_tree| |by apply last_c_str]. intros E. by rewrite E in H0.
Qed.

(** ** Making nodes *)

Lemma add_good s U p nm dir wr :
  Good s U -> live s p = true -> parent (nodes s p) <> -1 -> c_str nm = true -> nm <> EmptyString ->
  exists r s', add_node p nm dir wr s = Some (r, s') /\ Good s' U /\
    (r = -1 /\ kept s s' \/ added_node s s' r p nm dir wr).
Proof.
  intros [(F & free & HI) HT] Hp Hpp Hc Hne.
  destruct (add_node_spec s F free U p nm dir wr HI Hp Hc) as (r & s' & -> & [(-> & Hok & Hk)|[HI' Ha]]).
  - exists (-1), s'. split_and!; [done| |by left]. split; [done|by eapply kept_tree].
  - exists r, s'. split_and!; [done| |by right]. split; [by exists F, free|by eapply added_tree].
Qed.

(** A change of the fields that neither the tree nor the pool depend on. *)
Definition plain (f : ramfs_mem_node -> ramfs_mem_node) : Prop :=
  forall n, same_place n (f n) /\ refs (f n) = refs n /\ first_page (f n) = first_page n /\
    size (f n) = size n /\ writable (f n) = writable n.

Create HintDb ramfs.
#[export] Hint Extern 1 (plain _) => (intros ?; repeat split) : ramfs.

Lemma good_sizes s U i : Good s U -> live s i = true -> size_ok (nodes s i).
Proof. intros [(F & free & HI) _] Hl. by apply HI. Qed.

Lemma resize_good s U i f :
  Good s U -> (forall n, same_place n (f n) /\ refs (f n) = refs n /\ first_page (f n) = first_page n) ->
  (live s i = true -> size_ok (f (nodes s i))) -> Good (on_node i f s) U.
Proof.
  intros [(F & free & HI) HT] Hf Hsz. destruct (Hf (nodes s i)) as ((Hu & Hplace) & Hr & Hp). split.
  - exists F, free. by apply on_node_inv.
  - apply (tree_same s); [done|intros j; by apply on_node_live|]. intros j Hj. cbn. unfold upd.
    destruct (Z.eqb_spec j i) as [->|]; [rewrite Hr|]; (split; [done|by apply HT]).
Qed.

Lemma plain_good s U i f : plain f -> Good s U -> Good (on_node i f s) U.
Proof.
  intros Hf HG. apply resize_good; [done|intros n; by destruct (Hf n) as (? & ? & ? & _)|].
  intros Hl. destruct (Hf (nodes s i)) as (_ & _ & _ & H1 & H2). unfold size_ok. rewrite H1, H2. by eapply good_sizes.
Qed.

Lemma plain_live s i f j : plain f -> live (on_node i f s) j = live s j.
Proof. intros Hf. apply on_node_live. apply Hf. Qed.

Lemma plain_lookup s i f path : plain f -> lookup_index (on_node i f s) path = lookup_index s path.
Proof.
  intros Hf. apply lookup_same. intros p nm. apply find_child_same; [intros j; by apply plain_live|].
  intros j Hj. cbn. unfold upd. destruct (Z.eqb_spec j i) as [->|]; [apply Hf|done].
Qed.

Lemma plain_byte s i f j x : plain f -> file_byte (on_node i f s) j x = file_byte s j x.
Proof.
  intros Hf. apply fixed_byte; [apply fixed_on_node|]. cbn. unfold upd. destruct (Z.eqb_spec j i) as [->|]; [apply Hf|done].
Qed.

#[export] Hint Resolve plain_good : ramfs.

(** What making a node leaves alone: the paths that led somewhere, and the files. *)
Record undisturbed (s s' : state) : Prop := {
  ud_lookup : forall path, 0 <= lookup_index s path -> lookup_index s' path = lookup_index s path;
  ud_live : forall j, live s j = true -> live s' j = true;
  ud_node : forall j, live s j = true -> same_place (nodes s j) (nodes s' j) /\
              size (nodes s' j) = size (nodes s j) /\ seals (nodes s' j) = seals (nodes s j);
  ud_bytes : forall j x, live s j = true -> file_byte s' j x = file_byte s j x;
}.

Lemma kept_undisturbed s s' : kept s s' -> undisturbed s s'.
Proof.
  intros Hk. split.
  - intros path _. by apply kept_lookup.
  - intros j. by rewrite (kp_live _ _ Hk).
  - intros j Hj. by rewrite (kp_nodes _ _ Hk j Hj).
  - apply Hk.
Qed.

Lemma undisturbed_refl s : undisturbed s s.
Proof. by split. Qed.

Lemma added_undisturbed s s' r p nm dir wr :
  Tree s -> live s p = true -> parent (nodes s p) <> -1 -> added_node s s' r p nm dir wr -> undisturbed s s'.
Proof.
  intros HT Hp Hpp Ha. destruct (an_range _ _ _ _ _ _ _ Ha) as [_ Hr].
  assert (forall j, live s j = true -> j <> r) as Hne by (intros j Hj ->; congruence). split.
  - intros path. by eapply added_lookup.
  - intros j Hj. rewrite (added_live _ _ _ _ _ _ _ Ha). by destruct (j =? r).
  - intros j Hj. split; [by apply (added_place _ _ _ _ _ _ _ Ha), Hne|].
    destruct (Z.eq_dec j p) as [->|]; [by rewrite (an_parent _ _ _ _ _ _ _ Ha)|].
    by rewrite (an_other _ _ _ _ _ _ _ Ha) by (done || by apply Hne).
  - intros j x. by eapply added_bytes.
Qed.

(** A change of the fields of a node that was not there before. *)
Lemma undisturbed_new s s' r f : plain f -> live s r = false -> undisturbed s s' -> undisturbed s (on_node r f s').
Proof.
  intros Hf Hr Hu. assert (forall j, live s j = true -> nodes (on_node r f s') j = nodes s' j) as Hn.
  { intros j Hj. cbn. unfold upd. destruct (Z.eqb_spec j r) as [->|]; [congruence|done]. }
  split.
  - intros path Hp. rewrite plain_lookup by done. by apply Hu.
  - intros j Hj. rewrite plain_live by done. by apply Hu.
  - intros j Hj. rewrite Hn by done. by apply Hu.
  - intros j x Hj. rewrite plain_byte by done. by apply Hu.
Qed.

Lemma mkdir_good s U path md :
  Good s U -> c_path path ->
  exists b s', ramfs_mkdir path md s = Some (b, s') /\ Good s' U /\ undisturbed s s'.
Proof.
  intros HG Hc. unfold ramfs_mkdir. destruct (split_parent s path) as [[p nm]|] eqn:Es.
  2:{ exists false, s. split_and!; [done..|apply undisturbed_refl]. }
  destruct (split_sound _ _ _ _ (proj2 HG) Hc Es) as (Hp & Hpp & Hne & Hcs).
  destruct (add_good s U p nm true true HG Hp Hpp Hcs Hne) as (r & s1 & -> & HG1 & [[-> Hk]|Ha]); cbn [obind].
  - exists false, s1. split_and!; [done..|by apply kept_undisturbed].
  - destruct (an_range _ _ _ _ _ _ _ Ha) as [[Hr _] Hfr]. replace (r <? 0) with false by lia.
    eexists true, _. split_and!; [done|by auto with ramfs|].
    apply undisturbed_new; [by auto with ramfs|done|]. eapply added_undisturbed; [apply HG|done..].
Qed.

Lemma refresh_live s i : live s i = true -> exists n, ramfs_refresh_node s i = Some n /\ rn_index n = i /\ rn_size n = size (nodes s i).
Proof. intros Hl. unfold ramfs_refresh_node. rewrite Hl. by eexists. Qed.

Lemma refresh_dead s : ramfs_refresh_node s (-1) = None.
Proof. done. Qed.

(** What [ramfs_create], [ramfs_mkfifo] and [ramfs_mksock] promise of the node
    they return. *)
Definition made (s s' : state) (path : option string) (res : option ramfs_node) : Prop :=
  match res with
  | Some n => live s' (rn_index n) = true /\
      (live s (rn_index n) = true /\ s' = s /\ lookup_index s path = rn_index n \/
       live s (rn_index n) = false /\ size (nodes s' (rn_index n)) = 0 /\ (forall x, file_byte s' (rn_index n) x = 0) /\
       exists p nm, split_parent s path = Some (p, nm) /\ child s' p nm (rn_index n))
  | None => True
  end.

Lemma new_bytes s s' r p nm dir wr x : added_node s s' r p nm dir wr -> file_byte s' r x = 0.
Proof. intros Ha. unfold file_byte, find_backing_page. by rewrite (an_node _ _ _ _ _ _ _ Ha). Qed.

Lemma create_good s U path :
  Good s U -> c_path path ->
  exists res s', ramfs_create path s = Some (res, s') /\ Good s' U /\ undisturbed s s' /\ made s s' path res.
Proof.
  intros HG Hc. unfold ramfs_create. destruct (Z.leb_spec 0 (lookup_index s path)) as [Hl|Hl].
  { pose proof (lookup_live _ _ (proj2 HG) Hl) as Hlive. destruct (refresh_live _ _ Hlive) as (n & Hn & Hi & _).
    eexists _, s. split_and!; [done..|apply undisturbed_refl|]. rewrite Hn. cbn. rewrite Hi. split; [done|by left]. }
  destruct (split_parent s path) as [[p nm]|] eqn:Es.
  2:{ exists None, s. split_and!; [done..|apply undisturbed_refl|done]. }
  destruct (split_sound _ _ _ _ (proj2 HG) Hc Es) as (Hp & Hpp & Hne & Hcs).
  destruct (add_good s U p nm false true HG Hp Hpp Hcs Hne) as (r & s1 & -> & HG1 & [[-> Hk]|Ha]); cbn [obind].
  - eexists _, s1. split_and!; [done..|by apply kept_undisturbed|done].
  - assert (live s1 r = true) as Hlr by (rewrite (added_live _ _ _ _ _ _ _ Ha); by rewrite Z.eqb_refl).
    destruct (refresh_live _ _ Hlr) as (n & Hn & Hi & _). eexists _, s1. rewrite Hn. split_and!; [done..| |].
    + eapply added_undisturbed; [apply HG|done..].
    + cbn. rewrite Hi. split; [done|]. right. split_and!; [apply Ha|by rewrite (an_node _ _ _ _ _ _ _ Ha)| |].
      * intros x. by eapply new_bytes.
      * exists p, nm. split; [done|]. by split_and!; [|rewrite (an_node _ _ _ _ _ _ _ Ha)..].
Qed.

Lemma special_good s U ty path md :
  Good s U -> c_path path ->
  exists res s', make_special ty path md s = Some (res, s') /\ Good s' U /\ undisturbed s s' /\ made s s' path res.
Proof.
  intros HG Hc. unfold make_special. destruct (Z.leb_spec 0 (lookup_index s path)) as [Hl|Hl].
  { exists None, s. split_and!; [done..|apply undisturbed_refl|done]. }
  destruct (split_parent s path) as [[p nm]|] eqn:Es.
  2:{ exists None, s. split_and!; [done..|apply undisturbed_refl|done]. }
  destruct (split_sound _ _ _ _ (proj2 HG) Hc Es) as (Hp & Hpp & Hne & Hcs).
  destruct (add_good s U p nm false true HG Hp Hpp Hcs Hne) as (r & s1 & -> & HG1 & [[-> Hk]|Ha]); cbn [obind].
  - exists None, s1. split_and!; [done..|by apply kept_undisturbed|done].
  - destruct (an_range _ _ _ _ _ _ _ Ha) as [[Hr _] Hfr]. replace (r <? 0) with false by lia.
    set (f := set_mode _). assert (plain f) as Hf by (unfold f; auto with ramfs).
    assert (live (on_node r f s1) r = true) as Hlr.
    { rewrite plain_live, (added_live _ _ _ _ _ _ _ Ha) by done. by rewrite Z.eqb_refl. }
    destruct (refresh_live _ _ Hlr) as (n & Hn & Hi & _). eexists _, (on_node r f s1). rewrite Hn. split_and!; [done|auto with ramfs| |].
    + apply undisturbed_new; [done..|]. eapply added_undisturbed; [apply HG|done..].
    + cbn -[on_node]. rewrite Hi. assert (nodes (on_node r f s1) r = f (nodes s1 r)) as Hnr by (cbn; unfold upd; by rewrite Z.eqb_refl).
      split; [done|]. right. split_and!; [done| | |].
      * rewrite Hnr. by rewrite (an_node _ _ _ _ _ _ _ Ha).
      * intros x. rewrite plain_byte by done. by eapply new_bytes.
      * exists p, nm. split; [done|]. by split_and!; [|rewrite Hnr, (an_node _ _ _ _ _ _ _ Ha)..].
Qed.

(** ** Removing nodes *)

Lemma detach_fixed i s : pool_fixed s (detach i s).
Proof. by repeat split. Qed.

Lemma detach_node i s j :
  nodes (detach i s) j =
    if j =? i then set_ctime (ramfs_now_sec s) (set_name EmptyString (set_parent (-1) (nodes s i))) else nodes s j.
Proof. unfold detach. cbn. unfold upd. rewrite !Z.eqb_refl. by destruct (j =? i). Qed.

Lemma detach_live i s j : live (detach i s) j = live s j.
Proof. unfold live. rewrite detach_node. by destruct (Z.eqb_spec j i) as [->|]. Qed.

(** A node out of the tree that keeps its contents or is freed. *)
Definition take_out (i : Z) (s : state) : option state :=
  if negb (refs (nodes s i) =? 0) then Some (detach i s) else free_node i s.

Lemma take_out_spec s U i :
  Good s U -> live s i = true -> 0 <= refs (nodes s i) ->
  exists s', take_out i s = Some s' /\ ramfs_ok s' U /\ (forall j, j <> i -> nodes s' j = nodes s j) /\
    (forall j x, j <> i -> live s j = true -> file_byte s' j x = file_byte s j x) /\
    (refs (nodes s i) = 0 /\ live s' i = false /\ nodes s' i = blank \/
     0 < refs (nodes s i) /\ s' = detach i s /\ live s' i = true /\ parent (nodes s' i) = -1 /\
     refs (nodes s' i) = refs (nodes s i) /\ size (nodes s' i) = size (nodes s i) /\
     seals (nodes s' i) = seals (nodes s i) /\ forall x, file_byte s' i x = file_byte s i x).
Proof.
  intros [(F & free & HI) HT] Hl Hrf. unfold take_out. destruct (Z.eqb_spec (refs (nodes s i)) 0) as [H0|H0]; cbn [negb].
  - destruct (free_node_inv s F free U i HI Hl) as (s' & F' & free' & -> & HI' & Hd & Hn & Hb & Hby & _ & _).
    exists s'. split_and!; [done|by exists F', free'|done..|]. by left.
  - exists (detach i s). assert (forall j x, file_byte (detach i s) j x = file_byte s j x) as Hb.
    { intros j x. apply fixed_byte; [apply detach_fixed|]. rewrite detach_node. by destruct (Z.eqb_spec j i) as [->|]. }
    split_and!; [done| | |by intros|].
    + exists F, free. apply (fixed_inv s); [apply detach_fixed|done|..].
      * intros j. unfold heads. rewrite detach_live, detach_node. by destruct (Z.eqb_spec j i) as [->|].
      * intros j. rewrite detach_live, detach_node. intros Hj. destruct (Z.eqb_spec j i) as [->|]; by apply HI.
    + intros j Hj. rewrite detach_node. by replace (j =? i) with false by lia.
    + right. rewrite detach_live, detach_node, Z.eqb_refl. split_and!; [lia|done..].
Qed.

Lemma leaf_of s i :
  Tree s -> live s i = true -> i <> 0 ->
  (is_dir (nodes s i) = true -> first_node (fun j => used (nodes s j) && (parent (nodes s j) =? i)) < 0) ->
  forall j, live s j = true -> parent (nodes s j) <> i.
Proof.
  intros HT Hl H0 Hd j Hj Hp. apply live_spec in Hl as Hi. destruct Hi as [[Hi _] _].
  destruct (tree_parent _ HT j Hj) as (_ & Hdir & _); [lia|]. rewrite Hp in Hdir. specialize (Hd Hdir).
  destruct (first_node_spec (fun j => used (nodes s j) && (parent (nodes s j) =? i))) as [[_ Hno]|[[? _] _]]; [|lia].
  apply live_spec in Hj as [Hjr Hju]. specialize (Hno j Hjr). rewrite Hju, Hp, Z.eqb_refl in Hno. done.
Qed.

Lemma unlink_spec s U path :
  Good s U ->
  exists b s', ramfs_unlink path s = Some (b, s') /\ Good s' U /\
    if b
    then let i := lookup_index s path in
      removed s s' i /\ (forall j x, j <> i -> live s j = true -> file_byte s' j x = file_byte s j x) /\
      (refs (nodes s i) = 0 /\ live s' i = false \/
       0 < refs (nodes s i) /\ live s' i = true /\ size (nodes s' i) = size (nodes s i) /\
       refs (nodes s' i) = refs (nodes s i) /\ seals (nodes s' i) = seals (nodes s i) /\
       forall x, file_byte s' i x = file_byte s i x)
    else s' = s /\ (lookup_index s path <= 0 \/ exists j, live s j = true /\ parent (nodes s j) = lookup_index s path).
Proof.
  intros HG. pose proof (proj2 HG) as HT. unfold ramfs_unlink. set (i := lookup_index s path).
  destruct (Z.leb_spec i 0) as [Hi|Hi]; cbn [orb]; [exists false, s; by split_and!; [..|left]|].
  pose proof (lookup_live s path HT) as Hl. fold i in Hl. specialize (Hl ltac:(lia)).
  apply live_spec in Hl as Hl'. destruct Hl' as [Hir Hu]. rewrite Hu. cbn [negb].
  set (kids := first_node _). destruct (is_dir (nodes s i) && (0 <=? kids)) eqn:Ek.
  { exists false, s. split_and!; [done..|]. right. apply andb_true_iff in Ek as [_ Ek]. exists kids.
    destruct (first_node_spec (fun j => used (nodes s j) && (parent (nodes s j) =? i))) as [[E _]|(Hk & Hkp & _)]; [change (kids = -1) in E; lia|].
    apply andb_true_iff in Hkp as [Hku Hkp]. split; [by apply live_spec|by apply Z.eqb_eq in Hkp]. }
  assert (forall j, live s j = true -> parent (nodes s j) <> i) as Hleaf.
  { apply leaf_of; [done|done|lia|]. intros Hd. rewrite Hd in Ek. cbn in Ek. fold kids. lia. }
  destruct (take_out_spec s U i HG Hl) as (s' & Hto & Hok & Hn & Hb & Hcase); [apply (tree_refs _ HT i Hl)|].
  assert (removed s s' i) as Hrm.
  { split; [split; [done|lia]|done| |done]. destruct Hcase as [(_ & ? & _)|(? & _ & ? & ? & -> & _)]; [by left|]. right.
    destruct (tree_refs _ HT i Hl) as [Hu32 _]. unfold is_u32 in Hu32. split_and!; (done || lia). }
  exists true, s'. split; [|split].
  - unfold take_out in Hto. destruct (negb _); [by injection Hto as <-|]. rewrite Hto. done.
  - split; [done|by eapply removed_tree].
  - cbv zeta. split; [exact Hrm|]. split; [exact Hb|]. destruct Hcase as [(? & ? & _)|(? & _ & ? & _ & ? & ? & ? & ?)]; [by left|right; by split_and!].
Qed.

Lemma retain_good s U i b s' :
  Good s U -> refs (nodes s i) < UINT32_MAX -> ramfs_retain_node i s = (b, s') -> Good s' U.
Proof.
  intros HG Hmax. pose proof HG as [(F & free & HI) HT]. unfold ramfs_retain_node. destruct (live s i) eqn:Hl; cbn [negb]; [|by intros [= <- <-]].
  intros [= <- <-]. destruct (tree_refs _ HT i Hl) as [Hri _]. unfold UINT32_MAX, is_u32 in *. rewrite u32_small by (unfold is_u32; lia).
  split.
  - exists F, free. apply on_node_inv; [done..|]. intros _. by apply HI.
  - apply (tree_same s); [done|intros j; by apply on_node_live|]. intros j Hj. cbn. unfold upd.
    destruct (Z.eqb_spec j i) as [->|]; [|split; [done|by apply HT]]. unfold is_u32. split_and!; [done|cbn; lia..].
Qed.

(** Dropping the last reference to a node out of the tree frees it. *)
Lemma release_spec s U i :
  Good s U ->
  exists s', ramfs_release_node i s = Some s' /\ Good s' U /\
    (forall j, j <> i -> nodes s' j = nodes s j) /\ (forall j x, j <> i -> live s j = true -> file_byte s' j x = file_byte s j x) /\
    (live s i = true -> 0 < refs (nodes s i) ->
       if (refs (nodes s i) =? 1) && (parent (nodes s i) <? 0)
       then live s' i = false
       else live s' i = true /\ refs (nodes s' i) = refs (nodes s i) - 1 /\ size (nodes s' i) = size (nodes s i) /\
            seals (nodes s' i) = seals (nodes s i) /\
            forall x, file_byte s' i x = file_byte s i x).
Proof.
  intros HG. pose proof HG as [(F & free & HI) HT]. unfold ramfs_release_node.
  destruct (live s i) eqn:Hl; cbn [negb orb]; [|by exists s].
  destruct (Z.eqb_spec (refs (nodes s i)) 0) as [H0|H0]; [exists s; split_and!; [done..|lia]|].
  destruct (tree_refs _ HT i Hl) as [Hri _]. unfold is_u32 in Hri. set (s1 := on_node i (set_refs (refs (nodes s i) - 1)) s).
  assert (nodes s1 i = set_refs (refs (nodes s i) - 1) (nodes s i)) as Hn1 by (unfold s1; cbn; unfold upd; by rewrite Z.eqb_refl).
  assert (forall j, j <> i -> nodes s1 j = nodes s j) as Hn1' by (intros j Hj; unfold s1; cbn; unfold upd; by replace (j =? i) with false by lia).
  assert (forall j, live s1 j = live s j) as Hlv by (intros j; by apply on_node_live).
  assert (forall j x, file_byte s1 j x = file_byte s j x) as Hb.
  { intros j x. apply fixed_byte; [apply fixed_on_node|]. destruct (Z.eq_dec j i) as [->|]; [by rewrite Hn1|by rewrite Hn1']. }
  assert (Inv s1 F free U) as HI1 by (apply on_node_inv; [done..|]; intros _; by apply HI).
  rewrite Hn1. cbn [refs parent set_refs]. replace (refs (nodes s i) - 1 =? 0) with (refs (nodes s i) =? 1) by lia.
  assert (i = 0 -> 0 <= parent (nodes s i)) as Hroot by (intros ->; destruct (tree_root _ HT) as (_ & _ & -> & _); lia).
  replace ((refs (nodes s i) =? 1) && (parent (nodes s i) <? 0) && negb (i =? 0)) with ((refs (nodes s i) =? 1) && (parent (nodes s i) <? 0)).
  2:{ destruct (Z.eqb_spec i 0) as [->|]; [|by rewrite andb_true_r]. rewrite andb_false_r.
      replace (parent (nodes s 0) <? 0) with false by (specialize (Hroot eq_refl); lia). by rewrite andb_false_r. }
  destruct ((refs (nodes s i) =? 1) && (parent (nodes s i) <? 0)) eqn:E.
  - destruct (free_node_inv s1 F free U i HI1) as (s' & F' & free' & -> & HI' & Hd & Hn & _ & Hby & _); [by rewrite Hlv|].
    assert (forall j, j <> i -> nodes s' j = nodes s j) as Hnj by (intros j Hj; rewrite Hn by done; by apply Hn1').
    exists s'. zbool. split_and!; [done| |done| |done].
    + split; [by exists F', free'|]. apply (removed_tree s s' i HT). split; [|intros j Hj|by left|done].
      * split; [done|]. intros ->. specialize (Hroot eq_refl). lia.
      * intros Hp. apply live_spec in Hl as Hl0. destruct Hl0 as [[Hi0 _] _].
        destruct (tree_parent _ HT j Hj) as (_ & _ & Hpp); [lia|]. rewrite Hp in Hpp.
        destruct (tree_parent _ HT i Hl Hpp) as (Hpl & _). apply live_spec in Hpl as [[? _] _]. lia.
    + intros j x Hj Hlj. rewrite Hby by (rewrite ?Hlv; done). apply Hb.
  - exists s1. split_and!; [done| |done|by intros|].
    + split; [by exists F, free|]. apply (tree_same s); [done|done|]. intros j Hj.
      destruct (Z.eq_dec j i) as [->|Hne]; [|rewrite Hn1' by done; split; [done|by apply HT]].
      rewrite Hn1. unfold is_u32. split_and!; [done|cbn; lia..|]. cbn. intros Hp. rewrite Hp in E. rewrite andb_true_r in E. zbool. lia.
    + intros _ _. rewrite Hlv, Hn1. by split_and!.
Qed.

End RamfsApi.
