(* ===== verification/RamfsData.v ===== *)
(** [ramfs_write], [ramfs_read], [ramfs_truncate] and [ramfs_link] as a whole. *)

From Stdlib Require Import ZArith Lia String Ascii.
From stdpp Require Import base numbers list option.
From S2P Require Import Prelude Mem Pmm PmmSpec Vmm VmmInv Ramfs RamfsInv RamfsPool RamfsFile RamfsTrunc RamfsTree.
From S2P Require Import RamfsOps RamfsApi.
Import Mem Kstr Pmm Vmm VmmInv Ramfs RamfsInv RamfsPool RamfsFile RamfsTrunc RamfsTree RamfsOps RamfsApi
  list_basics.list list_relations.list.

Open Scope list_scope.
Open Scope Z_scope.
Open Scope c_scope.

Module RamfsData.

(** The other files are as they were. *)
Definition others (i : Z) (s s' : state) : Prop :=
  forall j, j <> i -> nodes s' j = nodes s j /\ (live s j = true -> forall x, file_byte s' j x = file_byte s j x).

(** A step that only changes the chain of [i]. *)
Lemma rechained_tree s s' i :
  Tree s -> (forall j, j <> i -> nodes s' j = nodes s j) -> nodes s' i = set_first_page (first_page (nodes s' i)) (nodes s i) -> Tree s'.
Proof.
  intros HT Hn Hi. apply (tree_same s); [done|..].
  - intros j. unfold live. destruct (Z.eq_dec j i) as [->|Hj]; [by rewrite Hi|by rewrite Hn].
  - intros j Hj. destruct (Z.eq_dec j i) as [->|Hne]; [rewrite Hi|rewrite Hn by done]; (split; [done|by apply HT]).
Qed.

Lemma plain_others i f s s' : plain f -> others i s s' -> others i s (on_node i f s').
Proof.
  intros Hf Ho j Hj. destruct (Ho j Hj) as [Hn Hb]. split.
  - cbn. unfold upd. by replace (j =? i) with false by lia.
  - intros Hl x. rewrite plain_byte by done. by apply Hb.
Qed.

Lemma max_size : RAMFS_MAX_FILE_SIZE = 17592186040320.
Proof. done. Qed.

(** Setting the size, then the two times. *)
Definition resized (n i : Z) (s : state) : state :=
  on_node i (set_ctime (ramfs_now_sec s)) (on_node i (set_mtime (ramfs_now_sec s)) (on_node i (set_size n) s)).

Lemma resized_good s U i n : Good s U -> 0 <= n <= RAMFS_MAX_FILE_SIZE -> Good (resized n i s) U.
Proof.
  intros HG Hn. unfold resized. do 2 (apply plain_good; [by auto with ramfs|]). apply resize_good; [done|by repeat split|].
  intros _. unfold size_ok, is_u64. cbn. rewrite max_size in *. lia.
Qed.

Lemma resized_byte s i n j x : file_byte (resized n i s) j x = file_byte s j x.
Proof.
  unfold resized. rewrite !plain_byte by auto with ramfs. apply fixed_byte; [apply fixed_on_node|].
  cbn. unfold upd. by destruct (Z.eqb_spec j i) as [->|].
Qed.

Lemma resized_node s i n j : nodes (resized n i s) j =
  if j =? i then set_ctime (ramfs_now_sec s) (set_mtime (ramfs_now_sec s) (set_size n (nodes s i))) else nodes s j.
Proof. unfold resized. cbn. unfold upd. rewrite !Z.eqb_refl. by destruct (j =? i). Qed.

(** Nodes that differ at most in their size, pages and times. *)
Definition same_attrs (n n' : ramfs_mem_node) : Prop :=
  same_place n n' /\ seals n' = seals n /\ writable n' = writable n /\ device n' = device n.

(** ** Writing *)

(** Whether [ramfs_write] gets to write. *)
Definition may_write (s : state) (i off len : Z) : bool :=
  plain_writable s i && (off <=? RAMFS_MAX_FILE_SIZE) && (len <=? RAMFS_MAX_FILE_SIZE - off) && negb (ramfs_write_sealed s i).

(** Byte [x] of [i] after the first [d] bytes at [src] are written at [off]. *)
Definition overwritten (s : state) (i off src d x : Z) : Z :=
  if (off <=? x) && (x <? off + d) then memory s (src + (x - off)) else file_byte s i x.

Lemma write_spec s U i off src len :
  Good s U -> buffer s U src len -> 0 <= off -> 0 <= len ->
  exists r s', ramfs_write i off src len s = Some (r, s') /\ Good s' U /\ others i s s' /\
    if may_write s i off len
    then live s' i = true /\ same_attrs (nodes s i) (nodes s' i) /\
      (r = len /\ size (nodes s' i) = Z.max (size (nodes s i)) (off + len) /\
         (forall x, 0 <= x -> file_byte s' i x = overwritten s i off src len x) \/
       r = -1 /\ size (nodes s' i) = size (nodes s i) /\
         exists d, 0 <= d <= len /\ forall x, 0 <= x -> file_byte s' i x = overwritten s i off src d x)
    else r = -1 /\ s' = s.
Proof.
  intros HG Hb Ho Hl. unfold ramfs_write, may_write.
  destruct (plain_writable s i) eqn:Hpw; cbn [negb andb orb]; [|by exists (-1), s].
  destruct (Z.ltb_spec RAMFS_MAX_FILE_SIZE off) as [H1|H1]; cbn [orb].
  { replace (off <=? RAMFS_MAX_FILE_SIZE) with false by lia. by exists (-1), s. }
  replace (off <=? RAMFS_MAX_FILE_SIZE) with true by lia. cbn [andb].
  destruct (Z.ltb_spec (RAMFS_MAX_FILE_SIZE - off) len) as [H2|H2].
  { replace (len <=? RAMFS_MAX_FILE_SIZE - off) with false by lia. by exists (-1), s. }
  replace (len <=? RAMFS_MAX_FILE_SIZE - off) with true by lia. cbn [andb].
  destruct (ramfs_write_sealed s i); cbn [negb]; [by exists (-1), s|].
  unfold plain_writable in Hpw. apply andb_true_iff in Hpw as [Hpw Hw]. apply andb_true_iff in Hpw as [Hpw _].
  apply andb_true_iff in Hpw as [Hlive _].
  destruct (write_loop s U i off src len (proj1 HG) Hlive Hb Ho Hl ltac:(lia)) as (ok & s1 & d & -> & Hd & HW & Hok). cbn [obind].
  assert (Good s1 U) as HG1 by (split; [apply HW|eapply rechained_tree; [apply HG|apply HW..]]).
  assert (others i s s1) as Ho1 by (intros j Hj; split; [by apply HW|intros Hlj x; by apply HW]).
  pose proof (wr_node _ _ _ _ _ _ _ _ HW) as Hn. assert (live s1 i = true) as Hl1 by (by rewrite (written_live _ _ _ _ _ _ _ _ _ HW)).
  destruct ok; cbn [negb].
  - specialize (Hok eq_refl) as ->. assert (size (nodes s1 i) = size (nodes s i)) as Hsz by (by rewrite Hn).
    destruct (good_sizes s U i HG Hlive) as [Hu64 Hmax]. specialize (Hmax Hw). unfold is_u64 in Hu64.
    rewrite max_size in *. rewrite (u64_small (off + len)) by (unfold is_u64; lia).
    assert (exists s2, (if size (nodes s1 i) <? off + len then on_node i (set_size (off + len)) s1 else s1) = s2 /\
      Good s2 U /\ others i s s2 /\ live s2 i = true /\ same_attrs (nodes s i) (nodes s2 i) /\
      size (nodes s2 i) = Z.max (size (nodes s i)) (off + len) /\ (forall x, file_byte s2 i x = file_byte s1 i x)) as
      (s2 & -> & HG2 & Ho2 & Hl2 & Hp2 & Hsz2 & Hb2).
    { rewrite Hsz. destruct (Z.ltb_spec (size (nodes s i)) (off + len)).
      - eexists. split; [reflexivity|]. assert (forall j x, file_byte (on_node i (set_size (off + len)) s1) j x = file_byte s1 j x) as Hbb.
        { intros j x. apply fixed_byte; [apply fixed_on_node|]. cbn. unfold upd. by destruct (Z.eqb_spec j i) as [->|]. }
        split_and!.
        + apply resize_good; [done|by repeat split|]. intros _. unfold size_ok, is_u64. cbn. rewrite max_size. lia.
        + intros j Hj. destruct (Ho1 j Hj) as [? ?]. split; [cbn; unfold upd; by replace (j =? i) with false by lia|].
          intros Hlj x. rewrite Hbb. by apply Ho1.
        + by rewrite on_node_live.
        + cbn. unfold upd. rewrite Z.eqb_refl, Hn. done.
        + cbn. unfold upd. rewrite Z.eqb_refl. cbn. lia.
        + intros x. apply Hbb.
      - exists s1. split_and!; try done; rewrite Hn; cbn; try done. lia. }
    eexists len, _. split; [reflexivity|]. split; [by auto with ramfs|]. split; [apply plain_others; [by auto with ramfs|by apply plain_others; [auto with ramfs|]]|].
    rewrite !plain_live by auto with ramfs. cbn -[same_attrs file_byte]. unfold upd. rewrite !Z.eqb_refl. split_and!; [done..|].
    left. split_and!; [done|done|]. intros x Hx. rewrite !plain_byte by auto with ramfs. rewrite Hb2. by apply HW.
  - exists (-1), s1. split_and!; [done..|by rewrite Hn|]. right. split_and!; [done|by rewrite Hn|]. exists d. split; [done|]. apply HW.
Qed.

(** ** Reading *)

Definition readable (s : state) (i off : Z) : bool :=
  live s i && negb (is_dir (nodes s i)) && no_device (nodes s i) && (off <? size (nodes s i)).

Lemma memory_good s U m : Good s U -> (forall a, is_u8 (m a)) -> Good (put_memory s m) U.
Proof.
  intros [(F & free & HI) HT] Hm. split; [exists F, free; by apply inv_memory|]. by apply (tree_same s); [done|done|]; intros i Hi; split; [|apply HT].
Qed.

Lemma put_same s : put_memory s (memory s) = s.
Proof. by destruct s as [? ? ? ? ? ? ? ? ? ? []]. Qed.

Lemma read_guards s i off dst len :
  ramfs_read i off dst len s =
    if readable s i off then
      let n := Z.min len (size (nodes s i) - off) in
      if negb (writable (nodes s i)) then Some (n, put_memory s (kmemcpy (memory s) dst (u64 (ro_data (nodes s i) + off)) n))
      else let* r := iter (read_step i off dst n) (copy_fuel n) (0, s) in r
    else Some (0, s).
Proof.
  unfold ramfs_read, readable. destruct (live s i), (is_dir (nodes s i)), (no_device (nodes s i)); cbn [negb orb andb]; try done.
  destruct (Z.leb_spec (size (nodes s i)) off); [by replace (off <? size (nodes s i)) with false by lia|].
  replace (off <? size (nodes s i)) with true by lia. cbv zeta.
  by replace (if len <? size (nodes s i) - off then len else size (nodes s i) - off) with (Z.min len (size (nodes s i) - off)) by (zcases; lia).
Qed.

(** Nothing read. *)
Lemma read_nothing s U dst (f : Z -> Z) :
  Good s U -> exists m, Some (0, s) = Some (0, put_memory s m) /\ Good (put_memory s m) U /\
    forall a, m a = if (dst <=? a) && (a <? dst + 0) then f a else memory s a.
Proof.
  intros HG. exists (memory s). rewrite put_same. split_and!; [done..|].
  intros a. by replace ((dst <=? a) && (a <? dst + 0)) with false by (zcases; simpl; lia).
Qed.

Lemma read_spec s U i off dst len :
  Good s U -> buffer s U dst len -> 0 <= off -> 0 <= len -> writable (nodes s i) = true ->
  let n := if readable s i off then Z.min len (size (nodes s i) - off) else 0 in
  exists m, ramfs_read i off dst len s = Some (n, put_memory s m) /\ Good (put_memory s m) U /\
    forall a, m a = if (dst <=? a) && (a <? dst + n) then file_byte s i (off + (a - dst)) else memory s a.
Proof.
  intros HG [Hr Hb] Ho Hl Hw. rewrite read_guards, Hw. cbv zeta. cbn [negb].
  destruct (readable s i off) eqn:Hrd; [|by apply (read_nothing s U dst (fun a => file_byte s i (off + (a - dst))))].
  unfold readable in Hrd. apply andb_true_iff in Hrd as [Hrd Hlt]. apply andb_true_iff in Hrd as [Hrd _]. apply andb_true_iff in Hrd as [Hlive _].
  set (n := Z.min _ _). destruct (good_sizes s U i HG Hlive) as [_ Hmax]. specialize (Hmax Hw).
  destruct (read_loop s U i off dst n (proj1 HG) Hlive) as (m & -> & H8 & Hm); [|done|unfold n; lia..|].
  { split; [unfold range_ok, n in *; lia|]. intros e He. apply Hb. unfold n in He. lia. }
  exists m. split_and!; [done|by apply memory_good|done].
Qed.

(** A store into a caller's buffer changes no file. *)
Lemma buffer_store s U dst len m i x :
  Good s U -> buffer s U dst len -> live s i = true ->
  (forall a, ~ (dst <= a < dst + len) -> m a = memory s a) -> file_byte (put_memory s m) i x = file_byte s i x.
Proof.
  intros [(F & free & HI) _] [_ Hb] Hl Hm. pose proof (iv_pool _ _ _ _ HI) as HP. pose proof (within_page x) as Hx.
  unfold file_byte. change (find_backing_page (put_memory s m) i) with (find_backing_page s i).
  rewrite (find_spec _ _ _ _ _ _ _ HP (live_heads _ _ Hl)). destruct (find_slot s (F i) _) as [k|] eqn:E; [|done]. cbn.
  destruct (0 <=? k); [|done]. apply find_slot_Some in E as [Hk _]. apply (pl_in _ _ _ _ _ HP) in Hk as (Hk & Hu & _).
  apply Hm. intros Ha. destruct (pool_data _ _ _ _ _ HP k Hk Hu) as (Hd & _).
  set (a := data (backing_pages s k) + x mod RAMFS_PAGE_SIZE) in *.
  destruct (Hb (a - dst) ltac:(lia) _ (slot_page _ _ _ _ _ HP k Hk Hu)); [right; by exists k|unfold a in *; lia..].
Qed.

(** A read-only file: its bytes are where the boot loader put them. *)
Definition ro_apart (s : state) (i dst len : Z) : Prop :=
  live s i = true -> writable (nodes s i) = false ->
  range_ok (ro_data (nodes s i)) (size (nodes s i)) /\
  (ro_data (nodes s i) + size (nodes s i) <= dst \/ dst + len <= ro_data (nodes s i)).

Lemma read_ro_spec s U i off dst len :
  Good s U -> range_ok dst len -> 0 <= off -> writable (nodes s i) = false -> ro_apart s i dst len ->
  let n := if readable s i off then Z.min len (size (nodes s i) - off) else 0 in
  exists m, ramfs_read i off dst len s = Some (n, put_memory s m) /\ Good (put_memory s m) U /\
    forall a, m a = if (dst <=? a) && (a <? dst + n) then memory s (ro_data (nodes s i) + off + (a - dst)) else memory s a.
Proof.
  intros HG Hr Ho Hw Hap. pose proof HG as [(F & free & HI) _].
  pose proof (m_bytes _ (pl_machine _ _ _ _ _ (iv_pool _ _ _ _ HI))) as H8. rewrite read_guards, Hw. cbv zeta. cbn [negb].
  destruct (readable s i off) eqn:Hrd; [|by apply (read_nothing s U dst (fun a => memory s (ro_data (nodes s i) + off + (a - dst))))].
  unfold readable in Hrd. apply andb_true_iff in Hrd as [Hrd Hlt]. apply andb_true_iff in Hrd as [Hrd _]. apply andb_true_iff in Hrd as [Hlive _].
  destruct (Hap Hlive Hw) as [Hrs Hd]. set (n := Z.min _ _). unfold range_ok in *. rewrite u64_small by (unfold is_u64; lia). eexists. split; [reflexivity|].
  split; [apply memory_good; [done|intros a; by apply kmemcpy_u8]|]. intros a. apply kmemcpy_spec; unfold range_ok; lia.
Qed.

(** ** Truncating *)

Definition may_truncate (s : state) (i n : Z) : bool :=
  plain_writable s i && (n <=? RAMFS_MAX_FILE_SIZE) && negb (ramfs_truncate_sealed s i n).

Lemma trims_others i s s' : trims i s s' -> (forall j x, j <> i -> live s j = true -> file_byte s' j x = file_byte s j x) -> others i s s'.
Proof. intros Ht Hb j Hj. split; [by apply Ht|]. intros Hl x. by apply Hb. Qed.

(** The pages past the end are gone; now the rest of the last page is cleared. *)
Lemma clear_tail s U i n :
  Good s U -> live s i = true -> 0 <= n <= RAMFS_MAX_FILE_SIZE ->
  (forall x, n <= x -> n / PAGE_SIZE < x / PAGE_SIZE -> file_byte s i x = 0) ->
  (n mod PAGE_SIZE = 0 -> forall x, n <= x -> file_byte s i x = 0) ->
  exists s', (if negb (n mod RAMFS_PAGE_SIZE =? 0) then
      let* slot := find_backing_page s i (u32 (n / RAMFS_PAGE_SIZE)) in
      if 0 <=? slot then
        Some (put_memory s (kmemset (memory s) (u64 (data (backing_pages s slot) + n mod RAMFS_PAGE_SIZE)) 0
                              (RAMFS_PAGE_SIZE - n mod RAMFS_PAGE_SIZE)))
      else Some s
    else Some s) = Some s' /\ Good s' U /\ nodes s' = nodes s /\ ramfs_now_sec s' = ramfs_now_sec s /\
    (forall j x, j <> i -> live s j = true -> file_byte s' j x = file_byte s j x) /\
    (forall x, 0 <= x -> file_byte s' i x = if x <? n then file_byte s i x else 0).
Proof.
  intros HG Hl Hn Hpast Haligned. change RAMFS_PAGE_SIZE with PAGE_SIZE. rewrite max_size in Hn.
  destruct (Z.eqb_spec (n mod PAGE_SIZE) 0) as [H0|H0]; cbn [negb].
  { exists s. split_and!; try done. intros x Hx. destruct (Z.ltb_spec x n); [done|]. by apply Haligned. }
  pose proof HG as [(F & free & HI) HT]. pose proof (iv_pool _ _ _ _ HI) as HP.
  assert (0 <= n mod PAGE_SIZE < PAGE_SIZE) as Hm by (by apply Z.mod_pos_bound).
  rewrite u32_small by (unfold is_u32, PAGE_SIZE in *; dmlia). rewrite (find_spec _ _ _ _ _ _ _ HP (live_heads _ _ Hl)). cbn [obind].
  destruct (find_slot s (F i) (n / PAGE_SIZE)) as [k|] eqn:Ef; cbn [default from_option id].
  - apply find_slot_Some in Ef as [Hk Hfp]. apply (pl_in _ _ _ _ _ HP) in Hk as Hk'. destruct Hk' as (Hk1 & Hk2 & _).
    replace (0 <=? k) with true by (unfold slot_ok in Hk1; lia). destruct (pool_data _ _ _ _ _ HP k Hk1 Hk2) as (Hd & Hpa & _ & Hh & Hle).
    rewrite u64_small by (unfold is_u64, PAGE_SIZE in *; lia).
    set (a := data (backing_pages s k) + n mod PAGE_SIZE). set (c := PAGE_SIZE - n mod PAGE_SIZE).
    assert (range_ok a c) as Hra by (unfold range_ok, a, c in *; lia).
    pose proof (fun x => kmemset_spec (memory s) a 0 c x Hra) as Hset.
    pose proof (fun x => kmemset_u8 (memory s) a 0 c x (m_bytes _ (pl_machine _ _ _ _ _ HP))) as H8.
    revert Hset H8. generalize (kmemset (memory s) a 0 c). intros m Hset H8. exists (put_memory s m).
    assert (forall j x, live s j = true -> file_byte (put_memory s m) j x =
      if decide (j = i /\ x / PAGE_SIZE = n / PAGE_SIZE /\ n mod PAGE_SIZE <= x mod PAGE_SIZE) then 0 else file_byte s j x) as Hby.
    { intros j x Hj. pose proof (Z.mod_pos_bound x PAGE_SIZE ltac:(done)) as Hx.
      rewrite (bytes_store s (heads s) F free U m i k (n mod PAGE_SIZE) c j x HP Hk (live_heads _ _ Hj)); [|unfold c; lia..|].
      - change RAMFS_PAGE_SIZE with PAGE_SIZE. rewrite Hfp. cbv zeta. case_decide as H1.
        + destruct H1 as (-> & Hq & H1). rewrite decide_True by (split_and!; [done|done|lia]). rewrite Hset.
          by replace ((a <=? _) && _) with true by (unfold a, c; zcases; simpl; lia).
        + rewrite decide_False; [done|]. intros (-> & Hq & H2). apply H1. split_and!; [done|done|lia|unfold c; lia].
      - intros y Hy. rewrite Hset. fold a in Hy. by replace ((a <=? y) && (y <? a + c)) with false by (zcases; simpl; lia). }
    split_and!; [done|by apply memory_good|done|done| |].
    + intros j x Hj Hlj. rewrite Hby by done. by rewrite decide_False by naive_solver.
    + intros x Hx. rewrite Hby by done. case_decide as Hd'.
      * replace (x <? n) with false; [done|]. symmetry. apply Z.ltb_ge. unfold PAGE_SIZE in *. dmlia.
      * destruct (Z.ltb_spec x n); [done|]. apply Hpast; [done|].
        destruct (Z.lt_trichotomy (x / PAGE_SIZE) (n / PAGE_SIZE)) as [Hq|[Hq|Hq]]; [unfold PAGE_SIZE in *; dmlia| |done].
        exfalso. apply Hd'. split_and!; [done|done|]. unfold PAGE_SIZE in *. dmlia.
  - exists s. split_and!; try done. intros x Hx. destruct (Z.ltb_spec x n); [done|].
    destruct (Z.lt_trichotomy (x / PAGE_SIZE) (n / PAGE_SIZE)) as [Hq|[Hq|Hq]]; [unfold PAGE_SIZE in *; dmlia| |by apply Hpast].
    rewrite (byte_eq _ _ _ _ _ HP _ _ (live_heads _ _ Hl)). change RAMFS_PAGE_SIZE with PAGE_SIZE. by rewrite Hq, Ef.
Qed.

(** The first byte past the kept pages. *)
Lemma keep_pages n x :
  0 <= n <= RAMFS_MAX_FILE_SIZE -> 0 <= x ->
  let keep := u64 (n + RAMFS_PAGE_SIZE - 1) / RAMFS_PAGE_SIZE in
  (x < n -> x / RAMFS_PAGE_SIZE < keep) /\
  (n <= x -> n / PAGE_SIZE < x / PAGE_SIZE \/ n mod PAGE_SIZE = 0 -> keep <= x / RAMFS_PAGE_SIZE).
Proof.
  rewrite max_size. intros Hn Hx. unfold RAMFS_PAGE_SIZE, PAGE_SIZE. rewrite u64_small by (unfold is_u64; lia). split; dmlia.
Qed.

Lemma truncate_spec s U i n :
  Good s U -> 0 <= n ->
  exists b s', ramfs_truncate i n s = Some (b, s') /\ Good s' U /\ others i s s' /\ b = may_truncate s i n /\
    if b
    then live s' i = true /\ same_attrs (nodes s i) (nodes s' i) /\
      size (nodes s' i) = n /\ forall x, 0 <= x -> file_byte s' i x = if x <? n then file_byte s i x else 0
    else s' = s.
Proof.
  intros HG Hn0. unfold ramfs_truncate, may_truncate.
  destruct (plain_writable s i) eqn:Hpw; cbn [negb andb orb]; [|by exists false, s].
  destruct (Z.ltb_spec RAMFS_MAX_FILE_SIZE n) as [H1|H1].
  { replace (n <=? RAMFS_MAX_FILE_SIZE) with false by lia. by exists false, s. }
  replace (n <=? RAMFS_MAX_FILE_SIZE) with true by lia. cbn [andb].
  destruct (ramfs_truncate_sealed s i n); cbn [negb]; [by exists false, s|].
  apply andb_true_iff in Hpw as [Hpw _]. apply andb_true_iff in Hpw as [Hpw _]. apply andb_true_iff in Hpw as [Hl _].
  pose proof HG as [(F & free & HI) HT]. cbv zeta. set (keep := u64 _ / _).
  destruct (cut_spec s F free U i keep HI Hl) as (s1 & F1 & free1 & -> & HI1 & Ht & _ & Hoth & Hby). cbn [obind].
  pose proof (tr_node _ _ _ Ht) as Hn1.
  assert (Good s1 U) as HG1 by (split; [by exists F1, free1|eapply rechained_tree; [done|apply Ht|done]]).
  assert (live s1 i = true) as Hl1 by (unfold live in *; by rewrite Hn1).
  destruct (clear_tail s1 U i n HG1 Hl1) as (s2 & -> & HG2 & Hn2 & Hc2 & Hoth2 & Hby2); [done|..]; cbn [obind].
  { intros x Hx Hq. rewrite Hby. destruct (keep_pages n x) as [_ Hk]; [done|lia|]. fold keep in Hk.
    specialize (Hk Hx (or_introl Hq)). by replace (_ <? keep) with false by lia. }
  { intros H0 x Hx. rewrite Hby. destruct (keep_pages n x) as [_ Hk]; [done|lia|]. fold keep in Hk.
    specialize (Hk Hx (or_intror H0)). by replace (_ <? keep) with false by lia. }
  change (on_node i (set_ctime _) _) with (resized n i s2). exists true, (resized n i s2).
  assert (forall j, nodes (resized n i s2) j = if j =? i then set_ctime (ramfs_now_sec s2) (set_mtime (ramfs_now_sec s2) (set_size n (nodes s1 i))) else nodes s1 j) as Hr
    by (intros j; by rewrite resized_node, Hn2).
  split_and!; [done|by apply resized_good| |done| | | |].
  - intros j Hj. rewrite Hr. replace (j =? i) with false by lia. split; [by apply Ht|]. intros Hlj x.
    rewrite resized_byte, Hoth2, Hoth; try done. unfold live in *. by rewrite (tr_nodes _ _ _ Ht).
  - unfold live in *. rewrite Hr, Z.eqb_refl. done.
  - rewrite Hr, Z.eqb_refl, Hn1. done.
  - by rewrite Hr, Z.eqb_refl.
  - intros x Hx. rewrite resized_byte, Hby2, Hby by done. destruct (Z.ltb_spec x n); [|done].
    destruct (keep_pages n x) as [Hk _]; [done..|]. fold keep in Hk. specialize (Hk ltac:(lia)). by replace (_ <? keep) with true by lia.
Qed.

End RamfsData.
