(* ===== verification/RamfsLink.v ===== *)
(** [ramfs_link], which copies a file, and [ramfs_rename]. *)

From Stdlib Require Import ZArith Lia String Ascii.
From stdpp Require Import base numbers list option.
From S2P Require Import Prelude Mem Pmm PmmSpec Vmm VmmInv Ramfs RamfsInv RamfsPool RamfsFile RamfsTrunc RamfsTree.
From S2P Require Import RamfsOps RamfsApi RamfsData.
Import Mem Kstr Pmm Vmm VmmInv Ramfs RamfsInv RamfsPool RamfsFile RamfsTrunc RamfsTree RamfsOps RamfsApi RamfsData
  list_basics.list list_relations.list.

Open Scope list_scope.
Open Scope Z_scope.
Open Scope c_scope.

Module RamfsLink.

(** ** Copying the pages of a file *)

(** [s1] is [s] with the pages [l1] of [src] copied to [dst]; [l2] are left. *)
Record Linking (s : state) (U : Z -> Z) (src dst : Z) (l1 l2 : list Z) (s1 : state) : Prop := {
  lk_inv : exists F free, Inv s1 F free U /\ F src = l1 ++ l2;
  lk_nodes : forall j, j <> dst -> nodes s1 j = nodes s j;
  lk_node : nodes s1 dst = set_first_page (first_page (nodes s1 dst)) (nodes s dst);
  lk_other : forall j x, j <> dst -> live s j = true -> file_byte s1 j x = file_byte s j x;
  lk_bytes : forall x, file_byte s1 dst x = if find_slot s1 l1 (x / RAMFS_PAGE_SIZE) is Some _ then file_byte s src x else 0;
}.

Lemma linking_live s U src dst l1 l2 s1 j : Linking s U src dst l1 l2 s1 -> live s1 j = live s j.
Proof.
  intros HL. unfold live.
  destruct (Z.eq_dec j dst) as [->|Hj]; [by rewrite (lk_node _ _ _ _ _ _ _ HL)|by rewrite (lk_nodes _ _ _ _ _ _ _ HL)].
Qed.

Definition link_head (src : Z) (l1 : list Z) (s1 : state) : Z :=
  match last l1 with Some p => next (backing_pages s1 p) | None => first_page (nodes s1 src) end.

Lemma linking_head s U src dst l1 l2 s1 :
  Linking s U src dst l1 l2 s1 -> live s src = true ->
  chain (fun k => next (backing_pages s1 k)) (link_head src l1 s1) l2.
Proof.
  intros HL Hl. destruct (lk_inv _ _ _ _ _ _ _ HL) as (F & free & HI & HF).
  pose proof (pl_chain _ _ _ _ _ (iv_pool _ _ _ _ HI) src) as Hc. rewrite HF in Hc. apply chain_after in Hc.
  unfold link_head. rewrite <- (live_heads s1 src) in Hc by (by rewrite (linking_live _ _ _ _ _ _ _ _ HL)). done.
Qed.

(** Two slots of different files. *)
Lemma copy_slot s F free U k k' :
  Inv s F free U -> slot_ok s k -> in_use s k = true -> slot_ok s k' -> in_use s k' = true -> k <> k' ->
  let a := data (backing_pages s k) in let b := data (backing_pages s k') in
  (forall x, kmemcpy (memory s) a b RAMFS_PAGE_SIZE x =
     if (a <=? x) && (x <? a + PAGE_SIZE) then memory s (b + (x - a)) else memory s x) /\
  (forall x, is_u8 (kmemcpy (memory s) a b RAMFS_PAGE_SIZE x)).
Proof.
  intros HI Hk Hu Hk' Hu' Hne a b. pose proof (iv_pool _ _ _ _ HI) as HP.
  destruct (pool_data _ _ _ _ _ HP k Hk Hu) as (Hd & Hp & Hal & Hh & Hle).
  destruct (pool_data _ _ _ _ _ HP k' Hk' Hu') as (Hd' & Hp' & Hal' & _ & Hle').
  change RAMFS_PAGE_SIZE with PAGE_SIZE. split.
  - intros x. apply kmemcpy_spec; unfold range_ok, a, b, PAGE_SIZE in *; [lia..|].
    assert (pa (backing_pages s k) <> pa (backing_pages s k')) as Hpa by (intros Hpa; apply Hne; by apply (pl_distinct _ _ _ _ _ HP)).
    destruct (pages_apart _ _ Hal Hal' Hpa); unfold PAGE_SIZE in *; lia.
  - intros x. apply kmemcpy_u8, HP.
Qed.

(** A page for [dst] is found or made; no byte changes. *)
Lemma linking_grow s U src dst l1 l2 s1 s2 F2 free2 :
  Linking s U src dst l1 l2 s1 -> grows_file U dst s1 s2 -> Inv s2 F2 free2 U -> F2 src = l1 ++ l2 -> live s dst = true ->
  Linking s U src dst l1 l2 s2.
Proof.
  intros HL Hg HI HF Hl. pose proof (gf_ext _ _ _ _ Hg) as He. destruct (lk_inv _ _ _ _ _ _ _ HL) as (F1 & free1 & HI1 & HF1). split.
  - by exists F2, free2.
  - intros j Hj. rewrite (gf_nodes _ _ _ _ Hg j Hj). by apply HL.
  - rewrite (ex_nodes _ _ _ He dst) at 1. by rewrite (lk_node _ _ _ _ _ _ _ HL).
  - intros j x Hj Hlj. rewrite (gf_bytes _ _ _ _ Hg) by (by rewrite (linking_live _ _ _ _ _ _ _ _ HL)). by apply HL.
  - intros x. rewrite (gf_bytes _ _ _ _ Hg) by (by rewrite (linking_live _ _ _ _ _ _ _ _ HL)). rewrite (lk_bytes _ _ _ _ _ _ _ HL).
    rewrite (find_slot_ext s1 s2); [done|]. intros k Hk.
    assert (k ∈ F1 src) as Hin by (rewrite HF1; apply elem_of_app; by left).
    apply (pl_in _ _ _ _ _ (iv_pool _ _ _ _ HI1)) in Hin as (Hk1 & Hk2 & _). by destruct (ex_used _ _ _ He k Hk1 Hk2) as (_ & _ & ->).
Qed.

Lemma find_slot_snoc s l k fp :
  find_slot s (l ++ [k]) fp =
    if find_slot s l fp is Some j then Some j else if file_page (backing_pages s k) =? fp then Some k else None.
Proof. unfold find_slot. induction l as [|j l IH]; [done|]. cbn [app List.find]. destruct (file_page (backing_pages s j) =? fp); [done|]. exact IH. Qed.

(** The page [k] of [src] goes to the page [k'] of [dst]. *)
Lemma linking_copy s U src dst l1 k l2 s1 F free k' :
  Linking s U src dst l1 (k :: l2) s1 -> Inv s1 F free U -> F src = l1 ++ k :: l2 -> src <> dst ->
  live s src = true -> live s dst = true ->
  k' ∈ F dst -> file_page (backing_pages s1 k') = file_page (backing_pages s1 k) ->
  Linking s U src dst (l1 ++ [k]) l2
    (put_memory s1 (kmemcpy (memory s1) (data (backing_pages s1 k')) (data (backing_pages s1 k)) RAMFS_PAGE_SIZE)).
Proof.
  intros HL HI HF Hne Hls Hld Hk' Hfp. pose proof (iv_pool _ _ _ _ HI) as HP.
  assert (k ∈ F src) as Hk by (rewrite HF; apply elem_of_app; right; by left).
  pose proof Hk as Hks. pose proof Hk' as Hkd. apply (pl_in _ _ _ _ _ HP) in Hks as (Hk1 & Hk2 & Hk3), Hkd as (Hd1 & Hd2 & Hd3).
  destruct (copy_slot s1 F free U k' k HI) as [Hcp H8]; [done..|congruence|]. cbv zeta in *. revert Hcp H8.
  set (a := data (backing_pages s1 k')). set (b := data (backing_pages s1 k)).
  generalize (kmemcpy (memory s1) a b RAMFS_PAGE_SIZE). intros m Hcp H8.
  assert (forall j, live s1 j = live s j) as Hlv by (intros j; by rewrite (linking_live _ _ _ _ _ _ _ _ HL)).
  assert (forall j x, live s j = true -> file_byte (put_memory s1 m) j x =
    if decide (j = dst /\ x / RAMFS_PAGE_SIZE = file_page (backing_pages s1 k)) then file_byte s src x else file_byte s1 j x) as Hby.
  { intros j x Hj. pose proof (within_page x) as Hx.
    rewrite (bytes_store s1 (heads s1) F free U m dst k' 0 PAGE_SIZE j x HP Hk'); [|apply live_heads; by rewrite Hlv|lia..|].
    - rewrite Hfp. cbv zeta. case_decide as H1.
      + destruct H1 as (-> & Hq & _). rewrite decide_True by done. rewrite Hcp.
        replace ((a <=? _) && _) with true by (unfold a; zcases; simpl; lia).
        rewrite <- (lk_other _ _ _ _ _ _ _ HL) by done. rewrite (byte_eq _ _ _ _ _ HP) by (apply live_heads; by rewrite Hlv).
        rewrite Hq, (find_slot_in _ _ _ _ _ HP src k Hk). f_equal. unfold a, b. lia.
      + rewrite decide_False; [done|]. intros [-> Hq]. apply H1. split_and!; [done|done|lia|lia].
    - intros y Hy. rewrite Hcp. rewrite Z.add_0_r in Hy. fold a in Hy.
      by replace ((a <=? y) && (y <? a + PAGE_SIZE)) with false by (zcases; simpl; lia). }
  split.
  - exists F, free. split; [by apply inv_memory|]. by rewrite <- app_assoc.
  - apply HL.
  - apply HL.
  - intros j x Hj Hlj. rewrite Hby by done. rewrite decide_False by naive_solver. by apply HL.
  - intros x. rewrite Hby by done. unfold find_slot. change (backing_pages (put_memory s1 m)) with (backing_pages s1).
    change (List.find _ (l1 ++ [k])) with (find_slot s1 (l1 ++ [k]) (x / RAMFS_PAGE_SIZE)). rewrite find_slot_snoc.
    case_decide as Hd; [destruct Hd as [_ Hq]; rewrite Hq, Z.eqb_refl; by destruct (find_slot _ _ _)|].
    replace (file_page (backing_pages s1 k) =? x / RAMFS_PAGE_SIZE) with false by (symmetry; apply Z.eqb_neq; naive_solver).
    rewrite (lk_bytes _ _ _ _ _ _ _ HL). by destruct (find_slot _ _ _).
Qed.

(** The loop of [ramfs_link]: every page is copied, or [dst] is freed again. *)
Lemma link_iter s U src dst : live s src = true -> live s dst = true -> src <> dst ->
  forall l2 l1 s1 fuel, Linking s U src dst l1 l2 s1 -> (length l2 < fuel)%nat ->
  exists b s2, iter (link_step dst) fuel (link_head src l1 s1, s1) = Some (Some (b, s2)) /\
    if b then exists l, Linking s U src dst l [] s2
    else exists s3 l l', Linking s U src dst l l' s3 /\ free_node dst s3 = Some s2.
Proof.
  intros Hls Hld Hne. induction l2 as [|k l2 IH]; intros l1 s1 [|fuel] HL Hf; simpl in Hf; try lia; cbn [iter];
    pose proof (linking_head _ _ _ _ _ _ _ HL Hls) as Hc; unfold link_step at 1.
  - simpl in Hc. replace (0 <=? link_head src l1 s1) with false by lia. exists true, s1. split; [done|by exists l1].
  - destruct Hc as (-> & Hk0 & _). replace (0 <=? k) with true by lia.
    destruct (lk_inv _ _ _ _ _ _ _ HL) as (F1 & free1 & HI1 & HF1).
    destruct (get_keeps s1 F1 free1 U dst (file_page (backing_pages s1 k)) HI1) as (k' & s2 & F2 & free2 & -> & HI2 & Hg & HF2 & Hk').
    { by rewrite (linking_live _ _ _ _ _ _ _ _ HL). }
    assert (F2 src = l1 ++ k :: l2) as HFs by (by rewrite HF2).
    pose proof (linking_grow _ _ _ _ _ _ _ _ _ _ HL Hg HI2 HFs Hld) as HL2.
    destruct Hk' as [->|(Hk1 & Hk2 & Hfp)].
    + change (-1 <? 0) with true. cbv iota.
      destruct (free_node_inv s2 F2 free2 U dst HI2) as (s3 & _ & _ & E & _); [by rewrite (linking_live _ _ _ _ _ _ _ _ HL2)|].
      rewrite E. exists false, s3. split; [done|]. by exists s2, l1, (k :: l2).
    + replace (k' <? 0) with false by lia. assert (k ∈ F1 src) as Hin by (rewrite HF1; apply elem_of_app; right; by left).
      apply (pl_in _ _ _ _ _ (iv_pool _ _ _ _ HI1)) in Hin as (Hs1 & Hs2 & _).
      assert (file_page (backing_pages s2 k) = file_page (backing_pages s1 k)) as Hfk
        by (by destruct (ex_used _ _ _ (gf_ext _ _ _ _ Hg) k Hs1 Hs2) as (_ & _ & ->)).
      pose proof (linking_copy s U src dst l1 k l2 s2 F2 free2 k' HL2 HI2 HFs Hne Hls Hld Hk2 ltac:(congruence)) as HL3.
      revert HL3. generalize (kmemcpy (memory s2) (data (backing_pages s2 k')) (data (backing_pages s2 k)) RAMFS_PAGE_SIZE). intros m HL3.
      replace (next (backing_pages (put_memory s2 m) k)) with (link_head src (l1 ++ [k]) (put_memory s2 m)) by (unfold link_head; by rewrite last_snoc).
      apply IH; [done|lia].
Qed.

(** All pages copied: the bytes are those of the source. *)
Lemma linking_done s U src dst l s1 :
  Linking s U src dst l [] s1 -> live s src = true -> src <> dst -> forall x, file_byte s1 dst x = file_byte s src x.
Proof.
  intros HL Hl Hne x. rewrite (lk_bytes _ _ _ _ _ _ _ HL). destruct (find_slot s1 l _) eqn:E; [done|].
  rewrite <- (lk_other _ _ _ _ _ _ _ HL) by done. destruct (lk_inv _ _ _ _ _ _ _ HL) as (F & free & HI & HF).
  rewrite (byte_eq _ _ _ _ _ (iv_pool _ _ _ _ HI)) by (apply live_heads; by rewrite (linking_live _ _ _ _ _ _ _ _ HL)).
  rewrite app_nil_r in HF. by rewrite HF, E.
Qed.

(** ** Linking *)

Lemma linking_good s U src dst l1 l2 s1 : Tree s -> Linking s U src dst l1 l2 s1 -> Good s1 U.
Proof.
  intros HT HL. destruct (lk_inv _ _ _ _ _ _ _ HL) as (F & free & HI & _). split; [by exists F, free|].
  eapply rechained_tree; [done|apply HL|apply HL].
Qed.

(** Filling a node that was not there before disturbs nothing. *)
Lemma linking_undisturbed s0 s U src dst l1 l2 s1 :
  live s0 dst = false -> undisturbed s0 s -> Linking s U src dst l1 l2 s1 -> undisturbed s0 s1.
Proof.
  intros Hd Hu HL. assert (forall j, live s0 j = true -> j <> dst) as Hne by (intros j Hj ->; congruence). split.
  - intros path Hp. rewrite <- (ud_lookup _ _ Hu path Hp). apply lookup_same. intros p nm.
    apply find_child_same; [intros i; by apply (linking_live _ _ _ _ _ _ _ i HL)|]. intros i Hi.
    destruct (Z.eq_dec i dst) as [->|Hi']; [by rewrite (lk_node _ _ _ _ _ _ _ HL)|by rewrite (lk_nodes _ _ _ _ _ _ _ HL)].
  - intros j Hj. rewrite (linking_live _ _ _ _ _ _ _ _ HL). by apply Hu.
  - intros j Hj. rewrite (lk_nodes _ _ _ _ _ _ _ HL) by (by apply Hne). by apply Hu.
  - intros j x Hj. rewrite (lk_other _ _ _ _ _ _ _ HL) by (by apply Hne || by apply Hu). by apply Hu.
Qed.

(** A new node freed again: as before. *)
Lemma link_undone s0 s U dst s' :
  Tree s0 -> live s0 dst = false -> undisturbed s0 s -> Good s U -> live s dst = true -> dst <> 0 -> is_dir (nodes s dst) = false ->
  free_node dst s = Some s' -> Good s' U /\ undisturbed s0 s' /\ live s' dst = false /\ forall j, j <> dst -> live s' j = live s j.
Proof.
  intros HT0 H0 Hu HG Hl Hd0 Hdir Hf. pose proof HG as [(F & free & HI) HT].
  destruct (free_node_inv s F free U dst HI Hl) as (s1 & F1 & free1 & Hf1 & HI1 & Hl1 & Hn & _ & Hb & _). rewrite Hf in Hf1.
  injection Hf1 as <-. assert (removed s s' dst) as Hrm.
  { split; [done| |by left|done]. intros j Hj Hp. apply live_spec in Hl as [[? _] _].
    destruct (tree_parent _ HT j Hj) as (_ & Hd & _); [lia|]. rewrite Hp in Hd. congruence. }
  assert (forall j, live s0 j = true -> j <> dst) as Hne by (intros j Hj ->; congruence).
  split_and!; [split; [by exists F1, free1|by eapply removed_tree]| |done|intros j Hj; by eapply removed_live]. split.
  - intros path Hp. rewrite (removed_lookup _ _ _ HT Hrm), (ud_lookup _ _ Hu path Hp). replace (_ =? dst) with false; [done|].
    symmetry. apply Z.eqb_neq. intros E. apply lookup_live in Hp; [|done]. congruence.
  - intros j Hj. rewrite (removed_live _ _ _ Hrm) by (by apply Hne). by apply Hu.
  - intros j Hj. rewrite Hn by (by apply Hne). by apply Hu.
  - intros j x Hj. rewrite Hb by (by apply Hne || by apply Hu). by apply Hu.
Qed.

(** The copy of [src]: a new entry with its size and contents. *)
Record copied (s s' : state) (src dst p : Z) (nm : string) : Prop := {
  cp_new : live s dst = false /\ live s' dst = true;
  cp_entry : child s' p nm dst;
  cp_size : size (nodes s' dst) = size (nodes s src) /\ writable (nodes s' dst) = writable (nodes s src);
  cp_bytes : writable (nodes s src) = true -> forall x, file_byte s' dst x = file_byte s src x;
  cp_ro : writable (nodes s src) = false -> ro_data (nodes s' dst) = ro_data (nodes s src);
}.

(** The attributes a new node takes from [src]. *)
Definition attributed (src dst : Z) (s : state) : state :=
  let s := on_node dst (set_size (size (nodes s src))) s in
  let s := on_node dst (set_mode (mode (nodes s src))) s in
  let s := on_node dst (set_atime (atime (nodes s src))) s in
  let s := on_node dst (set_mtime (mtime (nodes s src))) s in
  on_node dst (set_ctime (ramfs_now_sec s)) s.

Lemma attributed_node s src dst j :
  src <> dst ->
  nodes (attributed src dst s) j =
    if j =? dst then set_ctime (ramfs_now_sec s) (set_mtime (mtime (nodes s src)) (set_atime (atime (nodes s src))
                       (set_mode (mode (nodes s src)) (set_size (size (nodes s src)) (nodes s dst))))) else nodes s j.
Proof.
  intros Hne. unfold attributed. cbn. unfold upd. rewrite !Z.eqb_refl. replace (src =? dst) with false by lia. by destruct (j =? dst).
Qed.

Lemma attributed_good s U src dst :
  Good s U -> live s src = true -> writable (nodes s dst) = writable (nodes s src) -> Good (attributed src dst s) U.
Proof.
  intros HG Hl Hw. unfold attributed. do 4 (apply plain_good; [by auto with ramfs|]). apply resize_good; [done|by repeat split|].
  intros _. unfold size_ok. cbn. rewrite Hw. by apply (good_sizes s U).
Qed.

Lemma attributed_undisturbed s0 s src dst : live s0 dst = false -> undisturbed s0 s -> undisturbed s0 (attributed src dst s).
Proof.
  intros Hd Hu. unfold attributed. do 4 (apply undisturbed_new; [by auto with ramfs|done|]).
  assert (forall j, live s0 j = true -> j <> dst) as Hne by (intros j Hj ->; congruence). set (s1 := on_node _ _ _).
  assert (forall j, j <> dst -> nodes s1 j = nodes s j) as Hn by (intros j Hj; unfold s1; cbn; unfold upd; by replace (j =? dst) with false by lia).
  assert (nodes s1 dst = set_size (size (nodes s src)) (nodes s dst)) as Hnd by (unfold s1; cbn; unfold upd; by rewrite Z.eqb_refl).
  assert (forall j, live s1 j = live s j) as Hlv by (intros j; by apply on_node_live). split.
  - intros path Hp. rewrite <- (ud_lookup _ _ Hu path Hp). apply lookup_same. intros p nm. apply find_child_same; [done|].
    intros i _. destruct (Z.eq_dec i dst) as [->|Hi]; [by rewrite Hnd|by rewrite Hn].
  - intros j Hj. rewrite Hlv. by apply Hu.
  - intros j Hj. rewrite Hn by (by apply Hne). by apply Hu.
  - intros j x Hj. rewrite <- (ud_bytes _ _ Hu j x Hj). apply fixed_byte; [apply fixed_on_node|]. by rewrite Hn by (by apply Hne).
Qed.

Lemma link_spec s U old_path new_path :
  Good s U -> c_path new_path ->
  exists b s', ramfs_link old_path new_path s = Some (b, s') /\ Good s' U /\ undisturbed s s' /\
    if b then exists dst p nm, 0 < lookup_index s old_path /\ split_parent s new_path = Some (p, nm) /\
                copied s s' (lookup_index s old_path) dst p nm
    else forall j, live s' j = live s j.
Proof.
  intros HG Hc. pose proof (proj2 HG) as HT. unfold ramfs_link. set (src := lookup_index s old_path).
  assert (exists b s', Some (false, s) = Some (b, s') /\ Good s' U /\ undisturbed s s' /\
    if b then exists dst p nm, 0 < src /\ split_parent s new_path = Some (p, nm) /\ copied s s' src dst p nm
    else forall j, live s' j = live s j) as Hno by (exists false, s; split_and!; [done..|apply undisturbed_refl|done]).
  destruct (Z.leb_spec src 0) as [Hs|Hs]; cbn [orb]; [done|]. destruct (is_dir (nodes s src)) eqn:Hsd; cbn [orb]; [done|].
  destruct (negb (no_device (nodes s src))); [done|]. destruct (split_parent s new_path) as [[p nm]|] eqn:Es; [|done].
  destruct (0 <=? find_child s p nm); [done|]. clear Hno.
  destruct (split_sound _ _ _ _ HT Hc Es) as (Hp & Hpp & Hnm & Hcs).
  assert (live s src = true) as Hls by (apply lookup_live; [done|fold src; lia]).
  destruct (add_good s U p nm false (writable (nodes s src)) HG Hp Hpp Hcs Hnm) as (dst & s1 & -> & HG1 & [[-> Hk]|Ha]); cbn [obind].
  { exists false, s1. split_and!; [done..|by apply kept_undisturbed|apply Hk]. }
  destruct (an_range _ _ _ _ _ _ _ Ha) as [[Hd0 _] Hfree]. replace (dst <? 0) with false by lia.
  assert (src <> dst) as Hne by congruence. pose proof (an_dir _ _ _ _ _ _ _ Ha) as Hpd.
  assert (dst <> 0) as Hdz by (intros ->; destruct (tree_root _ HT); congruence).
  assert (nodes s1 src = nodes s src) as Hns by (apply (an_other _ _ _ _ _ _ _ Ha); [done|congruence]).
  assert (forall j, live s1 j = if j =? dst then true else live s j) as Hlv1 by (intros j; by rewrite (added_live _ _ _ _ _ _ _ Ha)).
  assert (live s1 src = true) as Hls1 by (rewrite Hlv1, Hls; by destruct (src =? dst)).
  assert (undisturbed s s1) as Hu1 by (exact (added_undisturbed _ _ _ _ _ _ _ HT Hp Hpp Ha)).
  match goal with |- context [if writable (nodes ?t src) then _ else _] => change t with (attributed src dst s1); set (s2 := attributed src dst s1) end.
  pose proof (fun j => attributed_node s1 src dst j Hne) as Hn2. fold s2 in Hn2. pose proof (an_node _ _ _ _ _ _ _ Ha) as Hnd.
  assert (Good s2 U) as HG2 by (apply attributed_good; [done|done|by rewrite Hnd, Hns]).
  assert (undisturbed s s2) as Hu2 by (by apply attributed_undisturbed).
  clearbody s2.
  assert (forall j, live s2 j = live s1 j) as Hlv2 by (intros j; unfold live; rewrite Hn2; by destruct (Z.eqb_spec j dst) as [->|]).
  assert (live s2 dst = true) as Hld2 by (by rewrite Hlv2, Hlv1, Z.eqb_refl).
  assert (nodes s2 src = nodes s src) as Hns2 by (rewrite Hn2; by replace (src =? dst) with false by lia).
  pose proof (Hn2 dst) as Hnd2. rewrite Z.eqb_refl, Hnd, Hns in Hnd2. cbn in Hnd2. rewrite Hns2. destruct (writable (nodes s src)) eqn:Hw.
  - pose proof HG2 as [(F & free & HI) HT2]. rewrite Hlv1 in Hls1.
    assert (Linking s2 U src dst [] (F src) s2) as HL.
    { split; [by exists F, free|reflexivity|rewrite Hnd2; reflexivity|reflexivity|]. intros x. unfold file_byte, find_backing_page. by rewrite Hnd2. }
    assert (live s2 src = true) as Hls2 by (by rewrite Hlv2, Hlv1).
    destruct (link_iter s2 U src dst Hls2 Hld2 Hne (F src) [] s2 (chain_fuel s2) HL) as (b & s3 & Hit & Hcase).
    { eapply chain_fits, HI. }
    change (link_head src [] s2) with (first_page (nodes s2 src)) in Hit. rewrite Hns2 in Hit. rewrite Hit. cbn [obind].
    exists b, s3. split; [done|]. destruct b.
    + destruct Hcase as (l & HL3). pose proof (lk_node _ _ _ _ _ _ _ HL3) as Hnd3. rewrite Hnd2 in Hnd3.
      assert (live s3 dst = true) as Hld3 by (by rewrite (linking_live _ _ _ _ _ _ _ _ HL3)).
      split_and!; [by eapply linking_good|by eapply linking_undisturbed|]. exists dst, p, nm. split_and!; [done|done|]. split.
      * done.
      * split_and!; [done|by rewrite Hnd3..].
      * by rewrite Hnd3, Hw.
      * intros _ x. rewrite (linking_done _ _ _ _ _ _ HL3 Hls2 Hne). by apply Hu2.
      * congruence.
    + destruct Hcase as (s4 & l & l' & HL4 & Hfr).
      assert (live s4 dst = true) as Hld4 by (by rewrite (linking_live _ _ _ _ _ _ _ _ HL4)).
      destruct (link_undone s s4 U dst s3) as (HG3 & Hu3 & Hl3 & Hl3'); try done.
      { by eapply linking_undisturbed. } { by eapply linking_good. } { by rewrite (lk_node _ _ _ _ _ _ _ HL4), Hnd2. }
      split_and!; [done..|]. intros j. destruct (Z.eq_dec j dst) as [->|Hj]; [congruence|].
      rewrite Hl3', (linking_live _ _ _ _ _ _ _ _ HL4), Hlv2, Hlv1 by done. by replace (j =? dst) with false by lia.
  - exists true, (on_node dst (set_ro_data (ro_data (nodes s src))) s2). split; [done|].
    split; [by auto with ramfs|]. split; [by apply undisturbed_new; [auto with ramfs|..]|].
    exists dst, p, nm. split_and!; [done|done|]. assert (forall q, nodes (on_node dst (set_ro_data q) s2) dst = set_ro_data q (nodes s2 dst)) as Hro
      by (intros q; cbn; unfold upd; by rewrite Z.eqb_refl).
    split.
    + by rewrite plain_live by auto with ramfs.
    + unfold child. rewrite plain_live, Hro, Hnd2 by auto with ramfs. done.
    + by rewrite Hro, Hnd2, Hw.
    + congruence.
    + intros _. by rewrite Hro.
Qed.

End RamfsLink.
