(* ===== verification/RamfsRename.v ===== *)
(** [ramfs_rename]: what moves, what is replaced, and which paths change. *)

From Stdlib Require Import ZArith Lia String Ascii.
From stdpp Require Import base numbers list option.
From S2P Require Import Prelude Mem Pmm PmmSpec Vmm VmmInv Ramfs RamfsInv RamfsPool RamfsFile RamfsTrunc RamfsTree.
From S2P Require Import RamfsOps RamfsApi.
Import Mem Kstr Pmm Vmm VmmInv Ramfs RamfsInv RamfsPool RamfsFile RamfsTrunc RamfsTree RamfsOps RamfsApi
  list_basics.list list_relations.list.

Open Scope string_scope.
Open Scope char_scope.
Open Scope list_scope.
Open Scope Z_scope.
Open Scope c_scope.

Module RamfsRename.

(** The node [i] is the entry [nm] of [p] now; the node [e] that was, if any,
    is out of the tree. *)
Record moved (s s' : state) (i e p : Z) (nm : string) : Prop := {
  mv_live : live s i = true /\ i <> 0;
  mv_dir : live s p = true /\ is_dir (nodes s p) = true /\ parent (nodes s p) <> -1;
  mv_name : nm <> EmptyString;
  mv_was : e = find_child s p nm /\ e <> i;
  mv_leaf : 0 <= e -> forall j, live s j = true -> parent (nodes s j) <> e;
  mv_node : exists t, nodes s' i = set_ctime t (set_parent p (set_name nm (nodes s i)));
  mv_gone : 0 <= e -> live s' e = false \/ live s' e = true /\ parent (nodes s' e) = -1 /\ 0 < refs (nodes s' e) < 2 ^ 32;
  mv_other : forall j, j <> i -> j <> e -> nodes s' j = nodes s j;
}.

Section Moved.
Context (s s' : state) (i e p : Z) (nm : string).
Hypothesis HT : Tree s.
Hypothesis Hm : moved s s' i e p nm.

Lemma moved_was : e = -1 \/ 0 < e /\ child s p nm e.
Proof.
  destruct (mv_was _ _ _ _ _ _ Hm) as [-> _]. destruct (find_child_spec s p nm) as [[? _]|[[H _] Hc]]; [by left|right].
  split; [|done]. destruct (Z.eq_dec (find_child s p nm) 0) as [E|]; [|lia]. rewrite E in Hc.
  destruct Hc as (_ & _ & Hn). destruct (tree_root _ HT) as (_ & _ & _ & Hr). rewrite Hr in Hn. by destruct (mv_name _ _ _ _ _ _ Hm).
Qed.

Lemma moved_p : 0 <= p /\ p <> e.
Proof.
  destruct (mv_dir _ _ _ _ _ _ Hm) as [Hp _]. apply live_spec in Hp as Hp'. destruct Hp' as [[? _] _]. split; [done|]. intros E.
  destruct moved_was as [?|(_ & H1 & H2 & _)]; [lia|]. apply (mv_leaf _ _ _ _ _ _ Hm ltac:(lia) e); congruence.
Qed.

Lemma moved_self : nodes s' i = nodes s' i /\ used (nodes s' i) = used (nodes s i) /\ is_dir (nodes s' i) = is_dir (nodes s i) /\
  parent (nodes s' i) = p /\ name (nodes s' i) = nm /\ refs (nodes s' i) = refs (nodes s i).
Proof. by destruct (mv_node _ _ _ _ _ _ Hm) as [t ->]. Qed.

Lemma moved_live j : j <> e -> live s' j = live s j.
Proof.
  intros He. unfold live. destruct (Z.eq_dec j i) as [->|Hj]; [by destruct moved_self as (_ & -> & _)|].
  by rewrite (mv_other _ _ _ _ _ _ Hm).
Qed.

(** The nodes in the tree afterwards. *)
Lemma moved_in j : live s' j = true -> parent (nodes s' j) <> -1 -> j <> e /\ live s j = true.
Proof.
  intros Hl Hp. assert (j <> e) as He.
  { intros ->. apply live_spec in Hl as Hl'. destruct Hl' as [[H0 _] _].
    destruct (mv_gone _ _ _ _ _ _ Hm H0) as [?|(_ & ? & _)]; congruence. }
  split; [done|]. by rewrite <- moved_live.
Qed.

Lemma parent_range j : live s j = true -> parent (nodes s j) = -1 \/ 0 <= parent (nodes s j).
Proof.
  intros Hj. destruct (Z.eq_dec (parent (nodes s j)) (-1)) as [|Hp]; [by left|right].
  destruct (tree_parent _ HT j Hj Hp) as (H & _). by apply live_spec in H as [[? _] _].
Qed.

Lemma moved_child q m j : 0 <= q ->
  child s' q m j <-> (if decide (q = p /\ m = nm) then j = i else child s q m j /\ j <> i).
Proof.
  intros Hq. destruct (mv_live _ _ _ _ _ _ Hm) as [Hi _]. destruct moved_self as (_ & _ & _ & Hsp & Hsn & _).
  destruct (mv_was _ _ _ _ _ _ Hm) as [Hwas Hne]. split.
  - intros (Hl & Hp & Hn). destruct (moved_in j Hl) as [He Hlj]; [lia|]. destruct (Z.eq_dec j i) as [->|Hj].
    { rewrite decide_True by (split; congruence). done. }
    rewrite (mv_other _ _ _ _ _ _ Hm) in Hp, Hn by done. case_decide as Hd; [|by split].
    destruct Hd as [-> ->]. exfalso. apply He. rewrite Hwas. symmetry. apply find_child_unique; [apply HT|done|by split].
  - case_decide as Hd.
    + intros ->. destruct Hd as [-> ->]. split; [by rewrite moved_live|done].
    + intros [(Hl & Hp & Hn) Hj]. assert (j <> e) as He.
      { intros ->. destruct moved_was as [->|(_ & _ & H1 & H2)]; [apply live_spec in Hl as [[? _] _]; lia|]. apply Hd. split; congruence. }
      unfold child. rewrite moved_live, (mv_other _ _ _ _ _ _ Hm) by done. done.
Qed.

Lemma moved_names : unique_names s'.
Proof.
  intros j k Hj Hk Hp Hpp Hnn.
  assert (child s' (parent (nodes s' j)) (name (nodes s' j)) j) as Hcj by done.
  assert (child s' (parent (nodes s' j)) (name (nodes s' j)) k) as Hck by (unfold child; split_and!; congruence).
  apply moved_child in Hcj, Hck; [|done..]. case_decide; [congruence|]. destruct Hcj as [(? & H1 & H2) _], Hck as [(? & H3 & H4) _].
  apply (tree_names _ HT); congruence.
Qed.

Lemma moved_tree : Tree s'.
Proof.
  destruct (mv_live _ _ _ _ _ _ Hm) as [Hi Hi0]. destruct moved_self as (_ & _ & Hdir & Hsp & Hsn & Hsr). destruct moved_p as [Hp0 Hpe].
  destruct (mv_dir _ _ _ _ _ _ Hm) as (Hpl & Hpd & Hpp). destruct (tree_root _ HT) as (R1 & R2 & R3 & R4).
  assert (0 <> e) as He0 by (destruct moved_was as [->|[? _]]; lia).
  assert (forall j, live s j = true -> j <> e -> live s' j = true /\ is_dir (nodes s' j) = is_dir (nodes s j) /\
    (parent (nodes s j) <> -1 -> parent (nodes s' j) <> -1)) as Hk.
  { intros j Hj He. rewrite moved_live by done. destruct (Z.eq_dec j i) as [->|Hne]; [split_and!; [done..|lia]|].
    by rewrite (mv_other _ _ _ _ _ _ Hm). }
  split.
  - rewrite moved_live, (mv_other _ _ _ _ _ _ Hm) by done. done.
  - intros j Hj Hp. assert (j = i \/ j <> i) as [->|Hji] by lia.
    + rewrite Hsp. destruct (Hk p Hpl Hpe) as (-> & -> & H). split_and!; [done|done|by apply H].
    + destruct (moved_in j Hj Hp) as [Hje Hlj]. clear Hj. rename Hlj into Hj. rewrite (mv_other _ _ _ _ _ _ Hm) in * by done.
      destruct (tree_parent _ HT j Hj Hp) as (H1 & H2 & H3).
      assert (parent (nodes s j) <> e) as Hne by (destruct (parent_range j Hj) as [|H0]; [done|]; intros E; by apply (mv_leaf _ _ _ _ _ _ Hm ltac:(lia) j)).
      destruct (Hk _ H1 Hne) as (-> & -> & H). split_and!; [done|done|by apply H].
  - apply moved_names.
  - intros j Hj Hj0 Hp. destruct (Z.eq_dec j i) as [->|Hji]; [rewrite Hsn; apply Hm|].
    destruct (moved_in j Hj Hp) as [Hje Hlj]. rewrite (mv_other _ _ _ _ _ _ Hm) in * by done. by apply HT.
  - intros j Hj. destruct (Z.eq_dec j e) as [->|Hje].
    + apply live_spec in Hj as Hj'. destruct Hj' as [[H0 _] _].
      destruct (mv_gone _ _ _ _ _ _ Hm H0) as [?|(_ & _ & ?)]; [congruence|]. unfold is_u32. lia.
    + rewrite moved_live in Hj by done. destruct (Z.eq_dec j i) as [->|Hji].
      * rewrite Hsr, Hsp. split; [by apply HT|lia].
      * rewrite (mv_other _ _ _ _ _ _ Hm) by done. by apply HT.
Qed.

Lemma moved_find q m : 0 <= q ->
  find_child s' q m = if decide (q = p /\ m = nm) then i else if find_child s q m =? i then -1 else find_child s q m.
Proof.
  intros Hq. destruct (mv_live _ _ _ _ _ _ Hm) as [Hi _]. apply live_spec in Hi as [[Hi _] _]. case_decide as Hd.
  - apply find_child_unique; [apply moved_names|done|]. apply moved_child; [done|]. by rewrite decide_True.
  - destruct (find_child_spec s q m) as [[-> Hno]|[_ Hc]].
    + replace (-1 =? i) with false by lia. destruct (find_child_spec s' q m) as [[? _]|[_ Hc]]; [done|].
      apply moved_child in Hc; [|done]. rewrite decide_False in Hc by done. by destruct (Hno _ (proj1 Hc)).
    + destruct (Z.eqb_spec (find_child s q m) i) as [Hf|Hf].
      * destruct (find_child_spec s' q m) as [[? _]|[_ Hc']]; [done|]. apply moved_child in Hc'; [|done].
        rewrite decide_False in Hc' by done. destruct Hc' as [Hc' Hne]. destruct Hne. rewrite <- Hf. symmetry.
        by apply find_child_unique; [apply HT| |].
      * apply find_child_unique; [apply moved_names|done|]. apply moved_child; [done|]. by rewrite decide_False.
Qed.

(** The paths, when [i] has no entries: those to [i] lead nowhere, those to [e]
    lead to [i], the others lead where they led. *)
Definition redirect (r : Z) : Z := if r =? i then -1 else if r =? e then i else r.

Hypothesis Hleaf : forall j, live s j = true -> parent (nodes s j) <> i.

Lemma leaf_end q m : q = i \/ q = e -> 0 <= q -> find_child s q m = -1.
Proof.
  intros Hq H0. destruct (find_child_spec s q m) as [[? _]|[_ (Hl & Hp & _)]]; [done|]. exfalso.
  destruct Hq as [E|E]; [by apply (Hleaf _ Hl); rewrite Hp|]. apply (mv_leaf _ _ _ _ _ _ Hm ltac:(lia) _ Hl). by rewrite Hp.
Qed.

Lemma moved_walk cur cs : 0 <= cur -> cur <> i -> cur <> e -> 0 <= walk s cur cs -> walk s' cur cs = redirect (walk s cur cs).
Proof.
  destruct (mv_was _ _ _ _ _ _ Hm) as [Hwas Hne]. destruct (mv_live _ _ _ _ _ _ Hm) as [Hi _]. apply live_spec in Hi as [[Hi _] _].
  revert cur. induction cs as [|c cs IH]; intros cur Hc Hci Hce; simpl.
  { intros _. unfold redirect. by replace (cur =? i) with false by lia; replace (cur =? e) with false by lia. }
  destruct (_ <? _)%nat; [lia|]. set (f := find_child s cur c). destruct (Z.ltb_spec f 0) as [|Hf]; [lia|]. intros Hw.
  assert (child s cur c f) as Hch by (unfold f in *; destruct (find_child_spec s cur c) as [[? _]|[_ ?]]; [lia|done]).
  assert ((cur = p /\ c = nm) <-> f = e) as Hpn.
  { split; [by intros [-> ->]|]. intros E. destruct moved_was as [?|(_ & _ & H1 & H2)]; [lia|]. destruct Hch as (_ & H3 & H4). rewrite E in H3, H4. split; congruence. }
  rewrite moved_find by done. fold f. assert (f = i \/ f = e -> cs = []) as Hend.
  { intros Hor. destruct cs as [|c' cs']; [done|]. simpl in Hw. rewrite (leaf_end f c' Hor Hf) in Hw. destruct (_ <? _)%nat; simpl in Hw; lia. }
  destruct (Z.eq_dec f e) as [Hfe|Hfe].
  - rewrite decide_True by (by apply Hpn). rewrite Hend by (by right). unfold redirect. simpl.
    replace (i <? 0) with false by lia. replace (f =? i) with false by lia. by replace (f =? e) with true by lia.
  - rewrite decide_False by (by intros ?%Hpn). destruct (Z.eqb_spec f i) as [Hfi|Hfi].
    + rewrite Hend by (by left). unfold redirect. simpl. by replace (f =? i) with true by lia.
    + replace (f <? 0) with false by lia. by apply IH.
Qed.

Lemma moved_lookup path : 0 <= lookup_index s path -> lookup_index s' path = redirect (lookup_index s path).
Proof.
  destruct (mv_live _ _ _ _ _ _ Hm) as [_ Hi0]. assert (0 <> e) as He0 by (destruct moved_was as [E|[? _]]; lia).
  destruct path as [[|c q]|]; [done| |done]. destruct (Ascii.eqb_spec c "/") as [->|Hc].
  - rewrite !lookup_walk. intros Hw. apply moved_walk; (done || lia).
  - unfold lookup_index. by destruct (Ascii.eqb_spec c "/").
Qed.

End Moved.

(** The calls that keep the tree well formed: the last component of the new path
    is a plain name, the target is another node, and it has no entries. *)
Definition rename_safe (s : state) (old_path new_path : option string) : Prop :=
  match split_parent s new_path with
  | None => True
  | Some (p, nm) =>
      let e := lookup_index s new_path in
      e = find_child s p nm /\ e <> lookup_index s old_path /\
      (0 <= e -> forall j, live s j = true -> parent (nodes s j) <> e)
  end.

Lemma split_name_fits s path p nm : split_parent s path = Some (p, nm) -> (kstrlen nm <= RAMFS_NAME_MAX)%nat /\ is_dir (nodes s p) = true.
Proof.
  unfold split_parent. destruct path as [path|]; [|done]. destruct (_ || _); [done|]. destruct (Ascii.eqb _ _); [done|].
  destruct (kstrlen (last_component path) =? 0)%nat; [done|]. destruct (RAMFS_NAME_MAX <? kstrlen (last_component path))%nat eqn:E; [done|].
  cbv zeta. cbn [orb]. destruct (512 <=? _)%nat; [done|]. destruct (_ <? 0); [done|]. destruct (is_dir _) eqn:Ed; [|done].
  intros [= <- <-]. split; [|done]. by apply Nat.ltb_ge in E.
Qed.

(** A change of neither the chain nor the size. *)
Definition shallow (f : ramfs_mem_node -> ramfs_mem_node) : Prop :=
  forall n, used (f n) = used n /\ first_page (f n) = first_page n /\ size (f n) = size n /\ writable (f n) = writable n.

Lemma shallow_ok s U i f : shallow f -> ramfs_ok s U -> ramfs_ok (on_node i f s) U.
Proof.
  intros Hf (F & free & HI). exists F, free. destruct (Hf (nodes s i)) as (H1 & H2 & H3 & H4).
  apply on_node_inv; [done..|]. intros Hl. unfold size_ok. rewrite H3, H4. by apply HI.
Qed.

Lemma shallow_byte s i f j x : shallow f -> file_byte (on_node i f s) j x = file_byte s j x.
Proof.
  intros Hf. apply fixed_byte; [apply fixed_on_node|]. cbn. unfold upd. destruct (Z.eqb_spec j i) as [->|]; [apply Hf|done].
Qed.

(** Giving a node a place and a name. *)
Definition placed (i p : Z) (nm : string) (s : state) : state :=
  let s := on_node i (set_parent p) (on_node i (set_name nm) s) in on_node i (set_ctime (ramfs_now_sec s)) s.

Lemma placed_ok s U i p nm : ramfs_ok s U -> ramfs_ok (placed i p nm s) U.
Proof. intros Hok. unfold placed. do 3 (apply shallow_ok; [by repeat split|]). done. Qed.

Lemma placed_byte s i p nm j x : file_byte (placed i p nm s) j x = file_byte s j x.
Proof. unfold placed. do 3 (rewrite shallow_byte by (by repeat split)). done. Qed.

Lemma placed_node s i p nm j :
  nodes (placed i p nm s) j = if j =? i then set_ctime (ramfs_now_sec s) (set_parent p (set_name nm (nodes s i))) else nodes s j.
Proof. unfold placed. cbn. unfold upd. rewrite !Z.eqb_refl. by destruct (j =? i). Qed.

(** What is left of the node that was at the new path: its contents while
    somebody holds it, nothing otherwise. *)
Definition replaced (s s' : state) (e : Z) : Prop :=
  0 < e ->
  refs (nodes s e) = 0 /\ live s' e = false \/
  0 < refs (nodes s e) /\ live s' e = true /\ size (nodes s' e) = size (nodes s e) /\ seals (nodes s' e) = seals (nodes s e) /\
    forall x, file_byte s' e x = file_byte s e x.

Lemma rename_spec s U old_path new_path :
  Good s U -> c_path new_path -> rename_safe s old_path new_path ->
  exists b s', ramfs_rename old_path new_path s = Some (b, s') /\ Good s' U /\
    if b then exists p nm, split_parent s new_path = Some (p, nm) /\
      moved s s' (lookup_index s old_path) (lookup_index s new_path) p nm /\
      (forall j x, j <> lookup_index s new_path -> live s j = true -> file_byte s' j x = file_byte s j x) /\
      replaced s s' (lookup_index s new_path)
    else s' = s.
Proof.
  intros HG Hc. pose proof (proj2 HG) as HT. unfold ramfs_rename, rename_safe. set (i := lookup_index s old_path).
  destruct (Z.leb_spec i 0) as [Hi|Hi]; [by exists false, s|].
  destruct (split_parent s new_path) as [[p nm]|] eqn:Es; [|by exists false, s].
  destruct (split_sound _ _ _ _ HT Hc Es) as (Hp & Hpp & Hne & Hcs). destruct (split_name_fits _ _ _ _ Es) as [Hlen Hpd].
  set (e := lookup_index s new_path). cbv zeta. intros (He & Hei & Hleaf).
  assert (live s i = true) as Hli by (apply lookup_live; [done|fold i; lia]).
  assert (exists s1, (if 0 <? e then if negb (refs (nodes s e) =? 0) then Some (detach e s) else free_node e s else Some s) = Some s1 /\
    ramfs_ok s1 U /\ (forall j, j <> e -> nodes s1 j = nodes s j) /\
    (forall j x, j <> e -> live s j = true -> file_byte s1 j x = file_byte s j x) /\ replaced s s1 e /\
    (0 < e -> live s1 e = false \/ live s1 e = true /\ parent (nodes s1 e) = -1 /\ 0 < refs (nodes s1 e) < 2 ^ 32)) as
    (s1 & -> & Hok1 & Hn1 & Hb1 & Hrep & Hgone).
  { destruct (Z.ltb_spec 0 e) as [H0|H0]; [|exists s; split_and!; try done; [apply HG|intros ?; lia..]].
    assert (live s e = true) as Hle by (apply lookup_live; [done|fold e; lia]).
    destruct (tree_refs _ HT e Hle) as [Hu _]. unfold is_u32 in Hu.
    destruct (take_out_spec s U e HG Hle ltac:(lia)) as (s1 & Hto & Hok & Hn & Hb & Hcase). exists s1.
    split_and!; [done..| |]; destruct Hcase as [(H1 & H2 & _)|(H1 & _ & H2 & H3 & H4 & H5 & H6 & H7)]; intros _; [by left|by right|by left|].
    right. split_and!; [done|done|lia|lia]. }
  cbn [obind]. destruct (copy_name nm) as [ok cp] eqn:Ecp. pose proof (copy_name_spec nm ok cp Hcs Ecp) as Hcp.
  destruct ok; [|lia]. destruct Hcp as [-> _]. cbn [negb]. change (on_node i (set_ctime _) _) with (placed i p nm s1).
  pose proof (placed_node s1 i p nm) as Hn2. assert (forall j, live (placed i p nm s1) j = live s1 j) as Hl2.
  { intros j. unfold live. rewrite Hn2. by destruct (Z.eqb_spec j i) as [->|]. }
  assert (moved s (placed i p nm s1) i e p nm) as Hmv.
  { split; [split; [done|lia]|by split_and!|done|by split|done| | |].
    - exists (ramfs_now_sec s1). rewrite Hn2, Z.eqb_refl. by rewrite Hn1 by done.
    - intros H0. rewrite Hl2, Hn2. replace (e =? i) with false by lia. apply Hgone.
      destruct (Z.eq_dec e 0) as [E|]; [|lia]. exfalso. rewrite E in He. destruct (find_child_spec s p nm) as [[? _]|[_ (_ & _ & Hnm)]]; [lia|].
      rewrite <- He in Hnm. destruct (tree_root _ HT) as (_ & _ & _ & Hr). congruence.
    - intros j Hj Hje. rewrite Hn2. replace (j =? i) with false by lia. by apply Hn1. }
  exists true, (placed i p nm s1). split; [done|]. split; [split; [by apply placed_ok|by eapply moved_tree]|].
  exists p, nm. split; [done|]. split; [done|]. split.
  - intros j x Hj Hlj. rewrite placed_byte. by apply Hb1.
  - intros H0. rewrite Hl2, Hn2. replace (e =? i) with false by lia.
    destruct (Hrep H0) as [?|(? & ? & ? & ? & Hb)]; [by left|right]. split_and!; [done..|]. intros x. by rewrite placed_byte.
Qed.

End RamfsRename.
