(* ===== verification/RamfsInit.v ===== *)
(** [ramfs_init] builds a file system that satisfies the invariants. *)

From Stdlib Require Import ZArith Lia String Ascii.
From stdpp Require Import base numbers list option.
From S2P Require Import Prelude Mem Pmm PmmSpec Vmm VmmInv Ramfs RamfsInv RamfsPool RamfsFile RamfsTrunc RamfsTree.
From S2P Require Import RamfsOps RamfsApi.
Import Mem Kstr Pmm Vmm VmmInv Ramfs RamfsInv RamfsPool RamfsFile RamfsTrunc RamfsTree RamfsOps RamfsApi
  list_basics.list list_relations.list.

Open Scope string_scope.
Open Scope char_scope.
Open Scope list_scope.
Open Scope Z_scope.
Open Scope c_scope.

Module RamfsInit.

(** The invariants, with every node in the tree. *)
Definition Fresh (s : state) (U : Z -> Z) : Prop := Good s U /\ forall j, live s j = true -> parent (nodes s j) <> -1.

(** A directory entries may be added to, or the failure of a step before. *)
Definition place (s : state) (p : Z) : Prop := p < 0 \/ live s p = true.

(** What every step of [ramfs_init] gives. *)
Definition builds (U : Z -> Z) (s s' : state) : Prop := Fresh s' U /\ forall p, live s p = true -> live s' p = true.

Lemma builds_trans U s1 s2 s3 : builds U s1 s2 -> builds U s2 s3 -> builds U s1 s3.
Proof. intros [_ H1] [HG H2]. split; [done|]. intros p Hp. by apply H2, H1. Qed.

Lemma builds_refl U s : Fresh s U -> builds U s s.
Proof. by split. Qed.

Lemma builds_place U s s' p : builds U s s' -> place s p -> place s' p.
Proof. intros [_ H] [?|Hl]; [by left|right; by apply H]. Qed.

Lemma plain_builds U s s' i f : plain f -> builds U s s' -> builds U s (on_node i f s').
Proof.
  intros Hf [[HG Ha] Ho]. split; [split; [by apply plain_good|]|].
  - intros j. rewrite plain_live by done. intros Hj. cbn. unfold upd. destruct (Z.eqb_spec j i) as [->|]; [|by apply Ha].
    destruct (Hf (nodes s' i)) as ((_ & _ & -> & _) & _). by apply Ha.
  - intros p Hp. rewrite plain_live by done. by apply Ho.
Qed.

#[export] Hint Resolve builds_refl plain_builds : ramfs.

Lemma add_builds s U p nm dir wr :
  Fresh s U -> place s p -> c_str nm = true -> nm <> EmptyString ->
  exists r s', add_node p nm dir wr s = Some (r, s') /\ builds U s s' /\ place s' r /\
    (0 <= r -> live s' r = true /\ writable (nodes s' r) = wr /\ forall x, file_byte s' r x = 0).
Proof.
  intros [HG Hat] [Hp|Hl] Hc Hne.
  { exists (-1), s. unfold add_node. replace (p <? 0) with true by lia. split_and!; [done|by repeat split; try apply HG|by left|lia]. }
  specialize (Hat p Hl) as Hp.
  destruct (add_good s U p nm dir wr HG Hl Hp Hc Hne) as (r & s' & -> & HG' & [[-> Hk]|Ha]).
  - exists (-1), s'. split_and!; [done| |by left|lia]. split; [split; [done|]|]; intros j; rewrite (kp_live _ _ Hk); [|done].
    intros Hj. rewrite (kp_nodes _ _ Hk) by done. by apply Hat.
  - exists r, s'. pose proof (an_node _ _ _ _ _ _ _ Ha) as Hn. assert (live s' r = true) as Hlr by (rewrite (added_live _ _ _ _ _ _ _ Ha); by rewrite Z.eqb_refl).
    split_and!; [done| |by right|].
    + split; [split; [done|]|]; intros j; rewrite (added_live _ _ _ _ _ _ _ Ha); destruct (Z.eqb_spec j r) as [->|Hj]; try done.
      * intros _. rewrite Hn. cbn. apply live_spec in Hl as [[? _] _]. lia.
      * destruct (added_place _ _ _ _ _ _ _ Ha j Hj) as [(_ & _ & -> & _) _]. apply Hat.
    + intros _. split_and!; [done|by rewrite Hn|]. intros x. by eapply new_bytes.
Qed.

Lemma mount_builds U s s' i m : builds U s s' -> builds U s (set_mount i m s').
Proof. intros H. unfold set_mount. case_match; auto with ramfs. Qed.

Lemma lookup_place s path : Tree s -> place s (lookup_index s path).
Proof. intros HT. destruct (lookup_range s path) as [->|H]; [by left|right]. by apply lookup_live. Qed.

Lemma device_builds s U path d :
  Fresh s U -> c_str path = true -> exists b s', add_device path d s = Some (b, s') /\ builds U s s'.
Proof.
  intros HG Hc. unfold add_device. destruct (split_parent s (Some path)) as [[p nm]|] eqn:Es.
  2:{ exists false, s. by auto with ramfs. }
  destruct (split_sound s (Some path) _ _ (proj2 (proj1 HG)) Hc Es) as (Hp & Hpp & Hne & Hcs).
  destruct (add_builds s U p nm false false HG) as (r & s1 & -> & Hb & _); [by right|done..|]. cbn [obind].
  destruct (r <? 0); [by exists false, s1|]. eexists true, _. split; [done|]. by auto with ramfs.
Qed.

Lemma devices_build U : forall ds s, Fresh s U -> Forall (fun d => c_str (fst d) = true) ds ->
  exists s', add_devices ds s = Some s' /\ builds U s s'.
Proof.
  induction ds as [|[path d] ds IH]; intros s HG Hds; cbn [add_devices]; [exists s; by auto with ramfs|].
  inversion Hds as [|? ? Hc Hcs]; subst. destruct (device_builds s U path d HG Hc) as (b & s1 & -> & Hb). cbn [obind].
  destruct (IH s1 (proj1 Hb) Hcs) as (s' & -> & Hb'). exists s'. split; [done|by eapply builds_trans].
Qed.

Lemma ensure_builds s U p nm :
  Fresh s U -> place s p -> c_str nm = true -> nm <> EmptyString ->
  exists r s', ensure_child_dir p nm s = Some (r, s') /\ builds U s s' /\ place s' r.
Proof.
  intros HF Hp Hc Hne. unfold ensure_child_dir. destruct (Z.leb_spec 0 (find_child s p nm)) as [H0|H0].
  - eexists _, s. split_and!; [done|by auto with ramfs|]. destruct (is_dir _); [right|by left].
    destruct (find_child_spec s p nm) as [[? _]|[_ [? _]]]; [lia|done].
  - destruct (add_builds s U p nm true true HF Hp Hc Hne) as (r & s' & -> & Hb & Hr & _). by exists r, s'.
Qed.

(** ** Processors *)

Lemma c_str_snoc s c : c_str s = true -> c <> "000" -> c_str (s ++ String c EmptyString)%string = true.
Proof.
  intros H Hc. induction s as [|x s IH]; simpl in *; [by destruct (Ascii.eqb_spec c "000")|].
  apply andb_true_iff in H as [-> H]. by apply IH.
Qed.

Lemma append_c_str : forall tmp dst cap n,
  c_str dst = true -> Forall (fun c => c <> "000") tmp -> c_str (append_loop dst cap n tmp) = true.
Proof.
  induction tmp as [|c tmp IH]; intros dst cap n Hd Ht; cbn [append_loop]; [done|]. inversion Ht; subst.
  destruct (_ <? cap)%nat; [|done]. apply IH; [by apply c_str_snoc|done].
Qed.

Lemma digit_char d : 0 <= d < 10 -> ascii_of_N (Z.to_N (48 + d)) <> "000".
Proof.
  intros Hd. assert (d = 0 \/ d = 1 \/ d = 2 \/ d = 3 \/ d = 4 \/ d = 5 \/ d = 6 \/ d = 7 \/ d = 8 \/ d = 9) as Hor by lia.
  by repeat destruct Hor as [->|Hor]; subst.
Qed.

Lemma digits_chars n v : Forall (fun c => c <> "000") (dec_digits n v).
Proof.
  revert v. induction n as [|n IH]; intros v; cbn [dec_digits]; [constructor|]. destruct (v =? 0); constructor; [|apply IH].
  apply digit_char. by apply Z.mod_pos_bound.
Qed.

Lemma append_dec_c_str dst cap v : c_str dst = true -> c_str (append_dec dst cap v) = true.
Proof.
  intros Hd. unfold append_dec. apply append_c_str; [done|]. apply Forall_rev. destruct (v =? 0); [by repeat constructor|]. apply digits_chars.
Qed.

Lemma append_dec_prefix dst cap v : exists t, append_dec dst cap v = (dst ++ t)%string.
Proof.
  unfold append_dec. generalize (kstrlen dst). generalize (rev (if v =? 0 then ["0"] else dec_digits 20 v)). intros l.
  revert dst. induction l as [|c l IH]; intros dst n; cbn [append_loop]; [exists EmptyString; by rewrite string_app_nil|].
  destruct (_ <? cap)%nat; [|exists EmptyString; by rewrite string_app_nil].
  destruct (IH (dst ++ String c EmptyString)%string (S n)) as [t ->]. exists (String c t). by rewrite string_app_assoc.
Qed.

Lemma c_str_app a b : c_str (a ++ b)%string = c_str a && c_str b.
Proof. induction a as [|c a IH]; [done|]. simpl. by rewrite IH, andb_assoc. Qed.

Lemma cpus_build U cpu_root : forall n cpu s, Fresh s U -> live s cpu_root = true ->
  exists s', add_cpus n cpu cpu_root s = Some s' /\ builds U s s'.
Proof.
  induction n as [|n IH]; intros cpu s HF Hl; cbn [add_cpus]; [exists s; by auto with ramfs|].
  destruct (append_dec_prefix "/sys/devices/system/cpu/cpu" 96 cpu) as [t Ht].
  pose proof (append_dec_c_str "/sys/devices/system/cpu/cpu" 96 cpu eq_refl) as Hc.
  rewrite Ht in *. change (drop_str 24 _) with ("cpu" ++ t)%string. rewrite c_str_app in Hc. apply andb_true_iff in Hc as [_ Hct].
  destruct (ensure_builds s U cpu_root ("cpu" ++ t)%string HF) as (d & s1 & -> & Hb & Hd); [by right|done|done|]. cbn [obind].
  assert (live s1 cpu_root = true) as Hl1 by (by apply Hb).
  destruct (d <? 0).
  { destruct (IH (cpu + 1) s1 (proj1 Hb) Hl1) as (s' & -> & Hb'). exists s'. split; [done|by eapply builds_trans]. }
  destruct (device_builds s1 U (append_loop ("/sys/devices/system/cpu/cpu" ++ t)%string 96 (kstrlen ("/sys/devices/system/cpu/cpu" ++ t)%string)
    (list_ascii_of_string "/online")) RAMFS_DEV_SYS_CPU_CORE_ONLINE (proj1 Hb)) as (b & s2 & -> & Hb2).
  { apply append_c_str; [by rewrite c_str_app|by repeat constructor]. }
  cbn [obind]. destruct (IH (cpu + 1) s2 (proj1 Hb2)) as (s' & -> & Hb'); [by apply Hb2|].
  exists s'. split; [done|]. eapply builds_trans; [done|by eapply builds_trans].
Qed.

Lemma topology_builds s U possible : Fresh s U -> exists s', add_sys_cpu_topology possible s = Some s' /\ builds U s s'.
Proof.
  intros HF. unfold add_sys_cpu_topology. cbv zeta. set (n := if SPORE_BOOT_CPU_MAX <? _ then _ else _). set (sys := lookup_index s _).
  destruct (Z.ltb_spec sys 0); [exists s; by auto with ramfs|].
  destruct (ensure_builds s U sys "devices" HF) as (d1 & s1 & -> & Hb1 & Hp1); [by apply lookup_place, HF|done..|]. cbn [obind].
  destruct (ensure_builds s1 U d1 "system" (proj1 Hb1)) as (d2 & s2 & -> & Hb2 & Hp2); [done..|]. cbn [obind].
  destruct (ensure_builds s2 U d2 "cpu" (proj1 Hb2)) as (d3 & s3 & -> & Hb3 & Hp3); [done..|]. cbn [obind].
  pose proof (builds_trans _ _ _ _ (builds_trans _ _ _ _ Hb1 Hb2) Hb3) as Hb. destruct (Z.ltb_spec d3 0); [by exists s3|].
  destruct Hp3 as [?|Hl3]; [lia|].
  destruct (device_builds s3 U "/sys/devices/system/cpu/possible" RAMFS_DEV_SYS_CPU_POSSIBLE (proj1 Hb) eq_refl) as (b4 & s4 & -> & Hb4). cbn [obind].
  destruct (device_builds s4 U "/sys/devices/system/cpu/present" RAMFS_DEV_SYS_CPU_PRESENT (proj1 Hb4) eq_refl) as (b5 & s5 & -> & Hb5). cbn [obind].
  destruct (device_builds s5 U "/sys/devices/system/cpu/online" RAMFS_DEV_SYS_CPU_ONLINE (proj1 Hb5) eq_refl) as (b6 & s6 & -> & Hb6). cbn [obind].
  pose proof (builds_trans _ _ _ _ (builds_trans _ _ _ _ Hb4 Hb5) Hb6) as Hb'.
  destruct (cpus_build U d3 (Z.to_nat n) 0 s6 (proj1 Hb')) as (s7 & -> & Hb7); [by apply Hb'|].
  exists s7. split; [done|]. eapply builds_trans; [done|by eapply builds_trans].
Qed.

(** ** Boot modules *)

Lemma take_component_spec p comp rest :
  take_component p = (comp, rest) -> c_str p = true ->
  c_str comp = true /\ c_str rest = true /\ kstrlen p = (kstrlen comp + kstrlen rest)%nat.
Proof.
  revert comp rest. induction p as [|c p IH]; intros comp rest; simpl; [by intros [= <- <-]|].
  destruct (Ascii.eqb c "/"); [intros [= <- <-] Hc; by split_and!|]. destruct (take_component p) as [cm rs].
  intros [= <- <-] Hc. apply andb_true_iff in Hc as [H1 H2]. destruct (IH cm rs eq_refl H2) as (? & ? & ?). simpl. rewrite H1. split_and!; (done || lia).
Qed.

Lemma skip_slashes_spec p : c_str p = true -> c_str (skip_slashes p) = true /\ (kstrlen (skip_slashes p) <= kstrlen p)%nat.
Proof.
  induction p as [|c p IH]; simpl; [done|]. intros H. destruct (Ascii.eqb c "/"); [|simpl; split; (done || lia)].
  apply andb_true_iff in H as [_ H]. destruct (IH H). split; [done|lia].
Qed.

(** The walk down to the directory of a module, making directories on the way. *)
Definition ro_at (U : Z -> Z) (s : state) (st : Z * string * string * state) : Prop :=
  let '(q, p, nm, s1) := st in builds U s s1 /\ live s1 q = true /\ c_str p = true /\ c_str nm = true /\ nm <> EmptyString.

Definition ro_end (U : Z -> Z) (s : state) (r : option (option (Z * string) * state)) : Prop :=
  exists dest s1, r = Some (dest, s1) /\ builds U s s1 /\
    match dest with Some (q, nm) => live s1 q = true /\ c_str nm = true /\ nm <> EmptyString | None => True end.

Lemma ro_step_spec U s q p nm s1 :
  ro_at U s (q, p, nm, s1) ->
  match ro_step (q, p, nm, s1) with
  | inl (q', p', nm', s2) => ro_at U s (q', p', nm', s2) /\ (kstrlen p' < kstrlen p)%nat
  | inr r => ro_end U s r
  end.
Proof.
  intros (Hb & Hl & Hp & Hn & Hnn). unfold ro_step. destruct p as [|c p]; [by exists (Some (q, nm)), s1|].
  destruct (take_component (String c p)) as [comp rest] eqn:Et. destruct (take_component_spec _ _ _ Et Hp) as (Hcc & Hcr & Hlen).
  destruct (kstrlen comp =? 0)%nat eqn:E0; cbn [orb]; [by exists None, s1|]. apply Nat.eqb_neq in E0.
  destruct (RAMFS_NAME_MAX <? kstrlen comp)%nat; [by exists None, s1|].
  destruct (skip_slashes_spec rest Hcr) as [Hsc Hsl]. destruct (skip_slashes rest) as [|c' p2]; [by exists (Some (q, String c p)), s1|].
  assert (comp <> EmptyString) as Hcne by (by intros ->).
  assert (exists nx s2, (if find_child s1 q comp <? 0 then add_node q comp true true s1 else Some (find_child s1 q comp, s1)) = Some (nx, s2) /\
    builds U s1 s2 /\ place s2 nx) as (nx & s2 & -> & Hb2 & Hnx).
  { destruct (find_child_spec s1 q comp) as [[-> _]|[[H0 _] [Hlc _]]].
    - destruct (add_builds s1 U q comp true true (proj1 Hb)) as (r & s2 & -> & H1 & H2 & _); [by right|done|done|]. by exists r, s2.
    - replace (find_child s1 q comp <? 0) with false by lia. eexists _, s1. split_and!; [done|by apply builds_refl, Hb|by right]. }
  pose proof (builds_trans _ _ _ _ Hb Hb2) as Hb3. destruct (Z.ltb_spec nx 0); [by exists None, s2|].
  destruct (negb (is_dir (nodes s2 nx))); [by exists None, s2|]. destruct Hnx as [?|Hnx]; [lia|]. split; [by split_and!|]. lia.
Qed.

Lemma ro_walk U s p :
  Fresh s U -> c_str p = true -> p <> EmptyString ->
  exists r, iter ro_step (S (kstrlen p)) (0, p, p, s) = Some r /\ ro_end U s r.
Proof.
  intros HF Hc Hne. apply (iter_spec ro_step (ro_at U s) (fun '(_, p1, _, _) => kstrlen p1)).
  - intros [[[q p1] nm] s1] [[[q' p'] nm'] s2] Hat E. pose proof (ro_step_spec U s q p1 nm s1 Hat) as H. by rewrite E in H.
  - intros [[[q p1] nm] s1] r Hat E. pose proof (ro_step_spec U s q p1 nm s1 Hat) as H. by rewrite E in H.
  - split_and!; [by auto with ramfs|apply HF|done..].
  - lia.
Qed.

Lemma resize_builds U s s' i n : builds U s s' -> writable (nodes s' i) = false -> is_u64 n -> builds U s (on_node i (set_size n) s').
Proof.
  intros [[HG Ha] Ho] Hw Hn. assert (forall j, live (on_node i (set_size n) s') j = live s' j) as Hlv by (intros j; by apply on_node_live).
  split; [split; [apply resize_good; [done|by repeat split|]|]|].
  - intros _. split; [done|]. cbn. congruence.
  - intros j. rewrite Hlv. intros Hj. cbn. unfold upd. destruct (Z.eqb_spec j i) as [->|]; by apply Ha.
  - intros p Hp. rewrite Hlv. by apply Ho.
Qed.

Lemma ro_file_builds s U path d n :
  Fresh s U -> c_path path -> is_u64 n -> exists b s', add_ro_file path d n s = Some (b, s') /\ builds U s s'.
Proof.
  intros HF Hc Hn. assert (exists b s', Some (false, s) = Some (b, s') /\ builds U s s') as Hno by (exists false, s; by auto with ramfs).
  unfold add_ro_file. destruct path as [[|c [|c2 p]]|]; try done. destruct (Ascii.eqb c "/"); cbn [negb]; [|done].
  simpl in Hc. apply andb_true_iff in Hc as [_ Hc].
  destruct (ro_walk U s (String c2 p) HF Hc) as (r & -> & dest & s1 & -> & Hb & Hd); [done|]. cbn [obind].
  destruct dest as [[q nm]|]; [|by exists false, s1]. destruct Hd as (Hl & Hcn & Hne).
  destruct (add_builds s1 U q nm false false (proj1 Hb)) as (i & s2 & -> & Hb2 & _ & Hi); [by right|done|done|]. cbn [obind].
  pose proof (builds_trans _ _ _ _ Hb Hb2) as Hb3. destruct (Z.ltb_spec i 0) as [|H0]; [by exists false, s2|].
  destruct (Hi H0) as (_ & Hw & _). eexists true, _. split; [done|]. apply plain_builds; [by intros ?; repeat split|].
  apply resize_builds; [by apply plain_builds; [intros ?; repeat split|]| |done]. cbn. unfold upd. by rewrite Z.eqb_refl.
Qed.

Definition module_ok (m : spore_boot_module) : Prop := c_str (mod_path m) = true /\ is_u64 (mod_size m).

Lemma modules_build U h : forall ms s, Fresh s U -> Forall module_ok ms ->
  exists s', add_modules ms h s = Some s' /\ builds U s s'.
Proof.
  induction ms as [|m ms IH]; intros s HF Hms; cbn [add_modules]; [exists s; by auto with ramfs|].
  inversion Hms as [|? ? [Hc Hn] Hrest]; subst. destruct (Ascii.eqb _ _); [|by apply IH].
  destruct (ro_file_builds s U (Some (mod_path m)) (u64 (h + phys_addr m)) (mod_size m) HF Hc Hn) as (b & s1 & -> & Hb). cbn [obind].
  destruct (IH s1 (proj1 Hb) Hrest) as (s' & -> & Hb'). exists s'. split; [done|by eapply builds_trans].
Qed.

(** ** The root and the whole *)

(** The state at boot: no table yet, the kernel's direct map known. *)
Record booted (s : state) (h : Z) : Prop := {
  bt_table : backing_table s = 0 /\ backing_page_capacity s = 0;
  bt_machine : machine_ok (kernel s) /\ h = hhdm (kernel s);
}.

(** An empty pool. *)
Lemma empty_pool s U :
  machine_ok (kernel s) -> hhdm_offset s = hhdm (kernel s) -> ramfs_hhdm_offset s = hhdm (kernel s) ->
  backing_table s = 0 -> backing_page_capacity s = 0 -> backing_page_used_count s = 0 -> backing_page_free_head s = -1 ->
  (forall x, U x = rc (kernel s) x) -> Pool s (fun _ => -1) (fun _ => []) [] U.
Proof.
  intros Hm H1 H2 H3 H4 H5 H6 HU. assert (forall k, ~ slot_ok s k) as Hno by (intros k; unfold slot_ok; rewrite H4; lia).
  split; try done.
  - by rewrite H4.
  - by left.
  - rewrite H6. done.
  - intros k. split; [intros Hk; by apply not_elem_of_nil in Hk|]. intros [Hk _]. by apply Hno in Hk.
  - constructor.
  - intros i k. split; [intros Hk; by apply not_elem_of_nil in Hk|]. intros [Hk _]. by apply Hno in Hk.
  - intros i. constructor.
  - intros i k k' Hk. by apply not_elem_of_nil in Hk.
  - rewrite H5. unfold slot_count. by rewrite H4.
  - intros k Hk. by apply Hno in Hk.
  - intros k k' Hk. by apply Hno in Hk.
  - intros x. rewrite HU. by apply rc_nonneg.
  - intros x. rewrite HU. unfold held, table_refs, slot_count. rewrite H3, H4, Z.eqb_refl. change (Z.to_nat 0) with O. simpl countb. lia.
Qed.

Definition root_node (t : Z) : ramfs_mem_node :=
  mk_node true true false RAMFS_MOUNT_RAM0 RAMFS_DEV_NONE 0 0 0 0 0 0 false (-1) 0 EmptyString 0 0 1 t t t.

Lemma root_fresh s U t :
  Pool s (fun _ => -1) (fun _ => []) [] U -> (forall j, nodes s j = if j =? 0 then root_node t else zeroed) -> Fresh s U.
Proof.
  intros HP Hn. assert (forall j, live s j = true <-> j = 0) as Hl.
  { intros j. rewrite live_spec, Hn. destruct (Z.eqb_spec j 0) as [->|]; cbn; [|naive_solver]. split; [done|]. intros _. split; [|done].
    unfold in_range. change RAMFS_MAX_NODES with 512. lia. }
  assert (nodes s 0 = root_node t) as H0 by (by rewrite Hn).
  split; [split|].
  - exists (fun _ => []), []. split.
    + eapply pool_fun_ext; [done| |done]. intros j. unfold heads. destruct (live s j) eqn:E; [|done]. apply Hl in E as ->. by rewrite H0.
    + intros j Hj. apply Hl in Hj as ->. rewrite H0. cbn. unfold is_u64. split; [lia|done].
  - split.
    + rewrite H0. split_and!; [by apply Hl|done..].
    + intros j Hj _. apply Hl in Hj as ->. rewrite H0. cbn. rewrite H0. split_and!; [by apply Hl|done..].
    + intros j k Hj Hk. apply Hl in Hj as ->. by apply Hl in Hk as ->.
    + intros j Hj. by apply Hl in Hj as ->.
    + intros j Hj. apply Hl in Hj as ->. rewrite H0. cbn. unfold is_u32. split; [lia|done].
  - intros j Hj. apply Hl in Hj as ->. by rewrite H0.
Qed.

(** The root of [ramfs_init]. *)
Lemma root_built s h :
  booted s h ->
  let s0 := mk_state (fun _ => zeroed) 0 0 (backing_pages s) (backing_table s) (backing_page_capacity s)
              (backing_page_used_count s) (backing_page_free_head s) h (ramfs_now_sec s) (kernel s) in
  let s1 := reset_backing_pages s0 in
  let s2 := mk_state (nodes s1) h 1 (backing_pages s1) (backing_table s1) (backing_page_capacity s1)
              (backing_page_used_count s1) (backing_page_free_head s1) h (ramfs_now_sec s1) (kernel s1) in
  let '(root, s3) := alloc_node s2 in
  let s3 := on_node root (set_dir true) s3 in
  let s3 := on_node root (set_parent root) s3 in
  let s3 := on_node root (set_mount_of RAMFS_MOUNT_RAM0) s3 in
  let s3 := on_node root (set_name (snd (copy_name EmptyString))) s3 in
  root = 0 /\ kernel s3 = kernel s /\ Fresh s3 (rc (kernel s)).
Proof.
  intros [[Ht Hc] [Hm Hh]]. unfold reset_backing_pages, free_backing_table. rewrite Ht, Hc. cbn -[alloc_node Fresh].
  unfold alloc_node. change (first_node _) with 0. change (0 <? 0) with false. cbv iota. split_and!; [done|done|].
  apply (root_fresh _ _ (ramfs_now_sec s)).
  - by apply empty_pool.
  - intros j. cbn. unfold upd. by destruct (Z.eqb_spec j 0).
Qed.

(** Past a step that builds on the state. *)
Ltac built Hb :=
  repeat match type of Hb with builds _ ?s _ =>
    match goal with Hp : place s _ |- _ => apply (builds_place _ _ _ _ Hb) in Hp end
  end;
  match type of Hb with builds _ ?s _ => match goal with HF : Fresh s _ |- _ => clear HF end end;
  apply proj1 in Hb; cbn [obind].

Ltac add_dir :=
  match goal with HF : Fresh ?s ?U |- context [add_node ?p ?nm true true ?s] =>
    let Hb := fresh "HF" in
    destruct (add_builds s U p nm true true HF ltac:(assumption) eq_refl ltac:(done)) as (? & ? & -> & Hb & ? & _); built Hb
  end.

Ltac mount_dir :=
  match goal with HF : Fresh ?s ?U |- context [set_mount ?i ?m ?s] =>
    let Hb := fresh "HF" in
    pose proof (mount_builds U s s i m (builds_refl U s HF)) as Hb; revert Hb; generalize (set_mount i m s); intros ? Hb; built Hb
  end.

Lemma init_good s h possible modules :
  booted s h -> Forall module_ok modules ->
  exists s', ramfs_init possible modules h s = Some s' /\ Good s' (rc (kernel s)).
Proof.
  intros Hbt Hms. unfold ramfs_init. pose proof (root_built s h Hbt) as Hroot. cbv zeta in *.
  destruct (alloc_node _) as [root s3]. destruct Hroot as (-> & _ & HF). revert HF. generalize (rc (kernel s)). clear Hbt.
  generalize (on_node 0 (set_name (snd (copy_name EmptyString))) (on_node 0 (set_mount_of RAMFS_MOUNT_RAM0)
    (on_node 0 (set_parent 0) (on_node 0 (set_dir true) s3)))). clear s s3. intros s0 U HF.
  assert (place s0 0) as Hp0 by (right; apply HF). do 5 add_dir. do 5 mount_dir. do 6 add_dir.
  match goal with HF : Fresh ?s U |- _ => destruct (topology_builds s U possible HF) as (sA & -> & HA) end. cbn [obind].
  destruct (devices_build U tty_devices sA (proj1 HA)) as (sB & -> & HB); [by repeat constructor|]. cbn [obind].
  destruct (devices_build U pts_devices sB (proj1 HB)) as (sC & -> & HC).
  { unfold pts_devices. apply Forall_forall. intros [path d] Hin. apply list_elem_of_In, in_map_iff in Hin as (k & E & _).
    injection E as <- <-. by apply append_dec_c_str. }
  cbn [obind]. destruct (devices_build U text_devices sC (proj1 HC)) as (sD & -> & HD); [by repeat constructor|]. cbn [obind].
  destruct (modules_build U h modules sD (proj1 HD) Hms) as (sE & -> & HE). exists sE. split; [done|]. apply HE.
Qed.

End RamfsInit.
