(* ===== verification/RamfsRun.v ===== *)
(** Sequences of operations on the RAM file system: the invariants hold
    throughout, and every operation changes only the file it is given. *)

From Stdlib Require Import ZArith Lia String Ascii.
From stdpp Require Import base numbers list option.
From S2P Require Import Prelude Mem Pmm PmmSpec Vmm VmmInv Ramfs RamfsInv RamfsPool RamfsFile RamfsTrunc RamfsTree.
From S2P Require Import RamfsOps RamfsApi RamfsData RamfsLink RamfsRename RamfsInit.
Import Mem Kstr Pmm Vmm VmmInv Ramfs RamfsInv RamfsPool RamfsFile RamfsTrunc RamfsTree RamfsOps RamfsApi RamfsData
  RamfsLink RamfsRename RamfsInit list_basics.list list_relations.list.

Open Scope list_scope.
Open Scope Z_scope.
Open Scope c_scope.

Module RamfsRun.

(** The calls of the interface that change the state. *)
Inductive op :=
  | OSetNow (t : Z)
  | OMkdir (path : option string) (md : Z)
  | OCreate (path : option string)
  | OMkfifo (path : option string) (md : Z)
  | OMksock (path : option string) (md : Z)
  | OUnlink (path : option string)
  | OLink (old_path new_path : option string)
  | ORename (old_path new_path : option string)
  | OTruncate (i n : Z)
  | OWrite (i off src len : Z)
  | ORead (i off dst len : Z)
  | OChmod (i md : Z)
  | OChown (i u g : Z)
  | ORetain (i : Z)
  | ORelease (i : Z)
  | OSetSealable (i : Z) (allow : bool)
  | OAddSeals (i new : Z)
  | ONoteMapping (i : Z) (add : bool).

Definition exec (o : op) (s : state) : option state :=
  match o with
  | OSetNow t => Some (ramfs_set_now t s)
  | OMkdir path md => option_map snd (ramfs_mkdir path md s)
  | OCreate path => option_map snd (ramfs_create path s)
  | OMkfifo path md => option_map snd (ramfs_mkfifo path md s)
  | OMksock path md => option_map snd (ramfs_mksock path md s)
  | OUnlink path => option_map snd (ramfs_unlink path s)
  | OLink old_path new_path => option_map snd (ramfs_link old_path new_path s)
  | ORename old_path new_path => option_map snd (ramfs_rename old_path new_path s)
  | OTruncate i n => option_map snd (ramfs_truncate i n s)
  | OWrite i off src len => option_map snd (ramfs_write i off src len s)
  | ORead i off dst len => option_map snd (ramfs_read i off dst len s)
  | OChmod i md => Some (snd (ramfs_chmod_node i md s))
  | OChown i u g => Some (snd (ramfs_chown_node i u g s))
  | ORetain i => Some (snd (ramfs_retain_node i s))
  | ORelease i => ramfs_release_node i s
  | OSetSealable i allow => Some (snd (ramfs_set_sealable i allow s))
  | OAddSeals i new => Some (snd (ramfs_add_seals i new s))
  | ONoteMapping i add => Some (ramfs_note_shared_writable_mapping i add s)
  end.

(** What a caller has to respect: paths are C strings, buffers lie outside the
    pages of the file system, reference counts do not overflow, and a rename
    does not replace the file itself or a directory with entries. *)
Definition op_ok (U : Z -> Z) (s : state) (o : op) : Prop :=
  match o with
  | OMkdir path _ | OCreate path | OMkfifo path _ | OMksock path _ | OLink _ path => c_path path
  | ORename old_path new_path => c_path new_path /\ rename_safe s old_path new_path
  | OTruncate _ n => 0 <= n
  | OWrite _ off src len => buffer s U src len /\ 0 <= off /\ 0 <= len
  | ORead i off dst len => buffer s U dst len /\ 0 <= off /\ 0 <= len /\ ro_apart s i dst len
  | ORetain i => refs (nodes s i) < UINT32_MAX
  | _ => True
  end.

(** The file whose contents, size or seals an operation is meant to change. *)
Definition target (o : op) : option Z :=
  match o with
  | OTruncate i _ | OWrite i _ _ _ | OSetSealable i _ | OAddSeals i _ => Some i
  | _ => None
  end.

Definition same_file (s s' : state) (j : Z) : Prop :=
  live s' j = true /\ size (nodes s' j) = size (nodes s j) /\ seals (nodes s' j) = seals (nodes s j) /\
  forall x, file_byte s' j x = file_byte s j x.

(** What an operation may do to a file in use. *)
Definition framed (o : op) (s s' : state) : Prop :=
  forall j, live s j = true -> target o = Some j \/ live s' j = false \/ same_file s s' j.

Lemma same_file_refl s j : live s j = true -> same_file s s j.
Proof. by split. Qed.

Lemma undisturbed_framed o s s' : undisturbed s s' -> framed o s s'.
Proof.
  intros Hu j Hj. right. right. destruct (ud_node _ _ Hu j Hj) as (_ & H1 & H2). split_and!; [by apply Hu|done..|].
  intros x. by apply Hu.
Qed.

(** A change of a field no file depends on. *)
Lemma shallow_same s i f j : shallow f -> (forall n, seals (f n) = seals n) -> live s j = true -> same_file s (on_node i f s) j.
Proof.
  intros Hf Hs Hj. split; [rewrite on_node_live; [done|apply Hf]|]. split_and!; [..|intros x; by apply shallow_byte];
    cbn; unfold upd; destruct (Z.eqb_spec j i) as [->|]; (done || apply Hf || apply Hs).
Qed.

Lemma same_file_trans s1 s2 s3 j : same_file s1 s2 j -> same_file s2 s3 j -> same_file s1 s3 j.
Proof. intros (H1 & H2 & H3 & H4) (H5 & H6 & H7 & H8). split_and!; [done|congruence..|]. intros x. by rewrite H8. Qed.

(** A plain change of a field, then of the time of change. *)
Lemma stamped_spec o s U i f t :
  Good s U -> plain f -> (target o = Some i \/ forall n, seals (f n) = seals n) ->
  let s' := on_node i (set_ctime t) (on_node i f s) in Good s' U /\ framed o s s'.
Proof.
  intros HG Hf Hs. split; [by auto with ramfs|]. assert (shallow f) as Hsh by (intros n; by destruct (Hf n) as ((? & _) & _ & ? & ? & ?)).
  intros j Hj. destruct (Z.eq_dec j i) as [->|Hne].
  - destruct Hs as [?|Hs]; [by left|]. right. right. assert (same_file s (on_node i f s) i) as H1 by (by apply shallow_same).
    eapply same_file_trans; [exact H1|]. apply shallow_same; [by repeat split|done|apply H1].
  - right. right. split_and!.
    + rewrite plain_live by auto with ramfs. by rewrite plain_live.
    + cbn. unfold upd. by replace (j =? i) with false by lia.
    + cbn. unfold upd. by replace (j =? i) with false by lia.
    + intros x. rewrite plain_byte by auto with ramfs. by rewrite plain_byte.
Qed.

Lemma framed_refl o s : framed o s s.
Proof. intros j Hj. right. right. by apply same_file_refl. Qed.

Lemma others_framed o s s' i :
  target o = Some i -> (forall j, j <> i -> nodes s' j = nodes s j) ->
  (forall j x, j <> i -> live s j = true -> file_byte s' j x = file_byte s j x) -> framed o s s'.
Proof.
  intros Ht Hn Hb j Hj. destruct (Z.eq_dec j i) as [->|Hne]; [by left|]. right. right.
  unfold same_file, live in *. rewrite Hn by done. split_and!; [done..|]. intros x. by apply Hb.
Qed.

Lemma read_good s U i off dst len :
  Good s U -> op_ok U s (ORead i off dst len) ->
  exists n s', ramfs_read i off dst len s = Some (n, s') /\ Good s' U /\ framed (ORead i off dst len) s s'.
Proof.
  intros HG (Hb & Ho & Hl & Hap). set (n := if readable s i off then Z.min len (size (nodes s i) - off) else 0).
  assert (n <= len) as Hn by (unfold n; case_match; lia).
  assert (exists m, ramfs_read i off dst len s = Some (n, put_memory s m) /\ Good (put_memory s m) U /\
    forall a, ~ (dst <= a < dst + n) -> m a = memory s a) as (m & -> & HG' & Hm).
  { destruct (writable (nodes s i)) eqn:Hw.
    - destruct (read_spec s U i off dst len HG Hb Ho Hl Hw) as (m & E & HG' & Hm). exists m. split_and!; [done..|].
      intros a Ha. rewrite Hm. fold n. by replace ((dst <=? a) && (a <? dst + n)) with false by (zcases; simpl; lia).
    - destruct (read_ro_spec s U i off dst len HG (proj1 Hb) Ho Hw Hap) as (m & E & HG' & Hm). exists m. split_and!; [done..|].
      intros a Ha. rewrite Hm. fold n. by replace ((dst <=? a) && (a <? dst + n)) with false by (zcases; simpl; lia). }
  exists n, (put_memory s m). split_and!; [done..|]. intros j Hj. right. right. split_and!; [done..|].
  intros x. apply (buffer_store s U dst len m j x HG Hb Hj). intros a Ha. apply Hm. lia.
Qed.

Lemma rename_framed s s' old_path new_path p nm :
  moved s s' (lookup_index s old_path) (lookup_index s new_path) p nm -> Tree s ->
  (forall j x, j <> lookup_index s new_path -> live s j = true -> file_byte s' j x = file_byte s j x) ->
  replaced s s' (lookup_index s new_path) -> framed (ORename old_path new_path) s s'.
Proof.
  intros Hm HT Hb Hr j Hj. set (i := lookup_index s old_path) in *. set (e := lookup_index s new_path) in *. right.
  destruct (Z.eq_dec j e) as [->|Hje].
  - apply live_spec in Hj as [[H0 _] _]. destruct (moved_was _ _ _ _ _ _ HT Hm) as [?|[Hpos _]]; [lia|].
    destruct (Hr Hpos) as [[_ ?]|(_ & ? & ? & ? & ?)]; [by left|right; by split_and!].
  - right. split; [by rewrite (moved_live _ _ _ _ _ _ Hm)|]. assert (size (nodes s' j) = size (nodes s j) /\ seals (nodes s' j) = seals (nodes s j)) as [? ?].
    { destruct (Z.eq_dec j i) as [->|Hji]; [by destruct (mv_node _ _ _ _ _ _ Hm) as [t ->]|by rewrite (mv_other _ _ _ _ _ _ Hm)]. }
    split_and!; [done..|]. intros x. by apply Hb.
Qed.

Lemma clock_fixed t s U : Good s U -> Good (ramfs_set_now t s) U.
Proof.
  intros [(F & free & [HP Hs]) HT]. split.
  - exists F, free. split; [|done]. by apply (pool_same s); [|repeat split|apply HP|..].
  - apply (tree_same s); [done|done|]. intros i Hi. split; [done|by apply HT].
Qed.

Lemma removed_framed o s s' i :
  (forall j, j <> i -> nodes s' j = nodes s j) -> (forall j x, j <> i -> live s j = true -> file_byte s' j x = file_byte s j x) ->
  (live s i = true -> live s' i = false \/ same_file s s' i) -> framed o s s'.
Proof.
  intros Hn Hb Hi j Hj. right. destruct (Z.eq_dec j i) as [->|Hne]; [by apply Hi|]. right.
  unfold same_file, live in *. rewrite Hn by done. split_and!; [done..|]. intros x. by apply Hb.
Qed.

Lemma release_framed s U i :
  Good s U -> exists s', ramfs_release_node i s = Some s' /\ Good s' U /\ framed (ORelease i) s s'.
Proof.
  intros HG. destruct (release_spec s U i HG) as (s' & E & HG' & Hn & Hb & Hi). exists s'. split_and!; [done..|].
  apply (removed_framed _ s s' i Hn Hb). intros Hl.
  destruct (Z.eq_dec (refs (nodes s i)) 0) as [H0|H0].
  - right. unfold ramfs_release_node in E. rewrite Hl, H0 in E. injection E as <-. by apply same_file_refl.
  - destruct (tree_refs _ (proj2 HG) i Hl) as [Hu _]. unfold is_u32 in Hu. specialize (Hi Hl ltac:(lia)).
    destruct (_ && _); [by left|right]. destruct Hi as (? & _ & ? & ? & ?). by split_and!.
Qed.

Lemma unlink_framed s U path :
  Good s U -> exists b s', ramfs_unlink path s = Some (b, s') /\ Good s' U /\ framed (OUnlink path) s s'.
Proof.
  intros HG. destruct (unlink_spec s U path HG) as (b & s' & E & HG' & Hs). exists b, s'. split_and!; [done..|].
  destruct b; [|destruct Hs as [-> _]; apply framed_refl]. destruct Hs as (Hrm & Hb & Hcase).
  apply (removed_framed _ s s' (lookup_index s path) (rm_other _ _ _ Hrm) Hb). intros _.
  destruct Hcase as [[_ ?]|(_ & ? & ? & _ & ? & ?)]; [by left|right; by split_and!].
Qed.

Lemma write_framed s U i off src len :
  Good s U -> op_ok U s (OWrite i off src len) ->
  exists r s', ramfs_write i off src len s = Some (r, s') /\ Good s' U /\ framed (OWrite i off src len) s s'.
Proof.
  intros HG (Hb & Ho & Hl). destruct (write_spec s U i off src len HG Hb Ho Hl) as (r & s' & E & HG' & Hoth & _).
  exists r, s'. split_and!; [done..|]. apply (others_framed _ _ _ i); [done|intros j Hj; by apply Hoth|intros j x Hj Hlj; by apply Hoth].
Qed.

Lemma truncate_framed s U i n :
  Good s U -> 0 <= n -> exists b s', ramfs_truncate i n s = Some (b, s') /\ Good s' U /\ framed (OTruncate i n) s s'.
Proof.
  intros HG Hn. destruct (truncate_spec s U i n HG Hn) as (b & s' & E & HG' & Hoth & _).
  exists b, s'. split_and!; [done..|]. apply (others_framed _ _ _ i); [done|intros j Hj; by apply Hoth|intros j x Hj Hlj; by apply Hoth].
Qed.

(** Every operation returns, keeps the invariants and stays in its frame. *)
Lemma exec_spec U s o : Good s U -> op_ok U s o -> exists s', exec o s = Some s' /\ Good s' U /\ framed o s s'.
Proof.
  intros HG Hok. assert (forall (A : Type) (r : option (A * state)), (exists x s', r = Some (x, s') /\ Good s' U /\ framed o s s') ->
    exists s', option_map snd r = Some s' /\ Good s' U /\ framed o s s') as Hmap.
  { intros A r (x & s' & -> & H). by exists s'. }
  destruct o; cbn [exec op_ok] in *; try apply Hmap.
  - eexists. split_and!; [done|by apply clock_fixed|]. intros j Hj. right. right. by split_and!.
  - destruct (mkdir_good s U path md HG Hok) as (b & s' & E & ? & ?). exists b, s'. split_and!; [done..|by apply undisturbed_framed].
  - destruct (create_good s U path HG Hok) as (b & s' & E & ? & ? & _). exists b, s'. split_and!; [done..|by apply undisturbed_framed].
  - destruct (special_good s U 0x1000 path md HG Hok) as (b & s' & E & ? & ? & _). exists b, s'. split_and!; [done..|by apply undisturbed_framed].
  - destruct (special_good s U 0xc000 path md HG Hok) as (b & s' & E & ? & ? & _). exists b, s'. split_and!; [done..|by apply undisturbed_framed].
  - by apply unlink_framed.
  - destruct (link_spec s U old_path new_path HG Hok) as (b & s' & E & ? & ? & _). exists b, s'. split_and!; [done..|by apply undisturbed_framed].
  - destruct Hok as [Hc Hs]. destruct (rename_spec s U old_path new_path HG Hc Hs) as (b & s' & E & ? & Hb). exists b, s'. split_and!; [done..|].
    destruct b; [|subst; apply framed_refl]. destruct Hb as (p & nm & _ & Hm & Hby & Hr). eapply rename_framed; [done|apply HG|done|done].
  - by apply truncate_framed.
  - by apply write_framed.
  - by apply read_good.
  - eexists. split; [done|]. unfold ramfs_chmod_node. destruct (live s i); cbn [negb snd]; [|by split; [|apply framed_refl]].
    apply stamped_spec; [done|by auto with ramfs|by right].
  - eexists. split; [done|]. unfold ramfs_chown_node. destruct (live s i); cbn [negb snd]; [|by split; [|apply framed_refl]].
    apply stamped_spec; [done|by auto with ramfs|by right].
  - eexists. split; [done|]. destruct (ramfs_retain_node i s) as [b s'] eqn:E. cbn [snd]. split; [by eapply retain_good|].
    unfold ramfs_retain_node in E. destruct (live s i); cbn [negb] in E; injection E as <- <-; [|apply framed_refl].
    intros j Hj. right. right. apply shallow_same; [by repeat split|done|done].
  - destruct (release_framed s U i HG) as (s' & -> & H). by exists s'.
  - eexists. split; [done|]. unfold ramfs_set_sealable. destruct (_ || _); cbn [snd]; [by split; [|apply framed_refl]|].
    apply stamped_spec; [done|by auto with ramfs|by left].
  - eexists. split; [done|]. unfold ramfs_add_seals. destruct (_ || _); cbn [snd]; [by split; [|apply framed_refl]|].
    do 2 (destruct (_ : bool); cbn [snd]; [by split; [|apply framed_refl]|]). apply stamped_spec; [done|by auto with ramfs|by left].
  - eexists. split; [done|]. unfold ramfs_note_shared_writable_mapping. destruct (live s i); cbn [negb]; [|by split; [|apply framed_refl]].
    destruct add; [|destruct (negb _); [|by split; [|apply framed_refl]]];
      (split; [by auto with ramfs|]; intros j Hj; right; right; apply shallow_same; [by repeat split|done|done]).
Qed.

(** ** Sequences *)

Fixpoint run (ops : list op) (s : state) : option state :=
  match ops with
  | [] => Some s
  | o :: ops' => let* s' := exec o s in run ops' s'
  end.

(** Every call respects [op_ok] in the state it is made in. *)
Fixpoint allowed (U : Z -> Z) (ops : list op) (s : state) : Prop :=
  match ops with
  | [] => True
  | o :: ops' => op_ok U s o /\ match exec o s with Some s' => allowed U ops' s' | None => True end
  end.

Lemma run_good U : forall ops s, Good s U -> allowed U ops s -> exists s', run ops s = Some s' /\ Good s' U.
Proof.
  induction ops as [|o ops IH]; intros s HG Ha; cbn [run]; [by exists s|]. destruct Ha as [Hok Ha].
  destruct (exec_spec U s o HG Hok) as (s' & E & HG' & _). rewrite E in *. by apply IH.
Qed.

(** ** Sealed files *)

(** The file [i] is sealed against writing, shrinking and growing. *)
Definition frozen (s : state) (i : Z) : Prop :=
  live s i = true /\ has (seals (nodes s i)) RAMFS_F_SEAL_WRITE = true /\
  has (seals (nodes s i)) RAMFS_F_SEAL_SHRINK = true /\ has (seals (nodes s i)) RAMFS_F_SEAL_GROW = true.

Definition same_contents (s s' : state) (i : Z) : Prop :=
  size (nodes s' i) = size (nodes s i) /\ forall x, 0 <= x < size (nodes s i) -> file_byte s' i x = file_byte s i x.

Lemma has_lor_l x a b : has x a = true -> has x (a .| b) = true.
Proof.
  unfold has. rewrite !negb_true_iff, !Z.eqb_neq. intros H E. apply H. apply Z.bits_inj'. intros n Hn.
  apply (f_equal (fun y => Z.testbit y n)) in E. rewrite Z.land_spec, Z.lor_spec in E. rewrite Z.bits_0 in *. rewrite Z.land_spec.
  by destruct (Z.testbit x n), (Z.testbit a n).
Qed.

Lemma has_lor_arg x y a : has x a = true -> has (x .| y) a = true.
Proof. unfold has. rewrite !(Z.land_comm _ a). apply has_lor_l. Qed.

Lemma frozen_same s s' i : frozen s i -> same_file s s' i -> frozen s' i /\ same_contents s s' i.
Proof. intros (H1 & H2 & H3 & H4) (H5 & H6 & H7 & H8). unfold frozen, same_contents. rewrite H7. by split_and!. Qed.

(** One call leaves a frozen file as it is, or frees it. *)
Lemma frozen_step U s o i s' :
  Good s U -> op_ok U s o -> frozen s i -> (forall allow, o <> OSetSealable i allow) -> exec o s = Some s' ->
  live s' i = false \/ frozen s' i /\ same_contents s s' i.
Proof.
  intros HG Hok Hf Hns E. pose proof Hf as (Hl & Hw & Hsh & Hgr). destruct (exec_spec U s o HG Hok) as (s1 & E1 & _ & Hfr).
  assert (s1 = s') as -> by congruence. destruct (Hfr i Hl) as [Ht|[?|Hsame]]; [|by left|right; by apply frozen_same].
  assert (same_contents s s i) as Hsc by done. right.
  destruct o; cbn in Ht; try done; injection Ht as ->; cbn [exec] in E.
  - destruct (truncate_spec s U i n HG Hok) as (b & s2 & E2 & _ & _ & Hb & Hs). rewrite E2 in E. injection E as <-.
    destruct b; [|by subst]. destruct Hs as (H1 & (_ & H2 & _) & H3 & H4). unfold may_truncate in Hb. symmetry in Hb.
    apply andb_true_iff in Hb as [_ Hb]. unfold ramfs_truncate_sealed in Hb. rewrite Hl, Hsh, Hgr, !andb_true_r in Hb. cbn [negb] in Hb.
    assert (n = size (nodes s i)) as -> by (destruct (Z.ltb_spec n (size (nodes s i))), (Z.ltb_spec (size (nodes s i)) n); done || lia).
    split; [unfold frozen; by rewrite H2|]. split; [done|]. intros x Hx. rewrite H4 by lia. by replace (x <? size (nodes s i)) with true by lia.
  - unfold ramfs_write in E. destruct (_ || _); [by injection E as <-|].
    replace (ramfs_write_sealed s i) with true in E; [by injection E as <-|]. unfold ramfs_write_sealed. rewrite Hl. by rewrite has_lor_l.
  - by destruct (Hns allow).
  - injection E as <-. unfold ramfs_add_seals. destruct (_ || _); [done|]. cbv zeta.
    destruct (has (seals (nodes s i)) RAMFS_F_SEAL_SEAL); [done|]. destruct (_ && _); [done|]. cbn [snd].
    set (s2 := on_node i _ (on_node i _ s)). assert (nodes s2 i = set_ctime (ramfs_now_sec s) (set_seals (sealable (nodes s i)) (seals (nodes s i) .| new) (nodes s i))) as Hn.
    { unfold s2. cbn. unfold upd. by rewrite !Z.eqb_refl. }
    split; [unfold frozen; rewrite Hn; cbn; rewrite !has_lor_arg by done; split; [|done]; unfold s2; by rewrite !plain_live by auto with ramfs|].
    split; [by rewrite Hn|]. intros x _. unfold s2. by rewrite !plain_byte by auto with ramfs.
Qed.

Lemma frozen_run U i : forall ops s s', Good s U -> allowed U ops s -> frozen s i ->
  (forall allow, ~ In (OSetSealable i allow) ops) -> run ops s = Some s' ->
  (exists ops1 ops2 s1, ops = ops1 ++ ops2 /\ run ops1 s = Some s1 /\ live s1 i = false) \/ frozen s' i /\ same_contents s s' i.
Proof.
  induction ops as [|o ops IH]; intros s s' HG Ha Hf Hns E; cbn [run] in E; [injection E as <-; by right|].
  destruct Ha as [Hok Ha]. destruct (exec_spec U s o HG Hok) as (s1 & E1 & HG1 & _). rewrite E1 in *. cbn [obind] in E.
  destruct (frozen_step U s o i s1 HG Hok Hf) as [Hdead|[Hf1 [Hsz1 Hb1]]]; [intros allow ->; apply (Hns allow); by left|done|..].
  { left. exists [o], ops, s1. cbn [run]. by rewrite E1. }
  destruct (IH s1 s' HG1 Ha Hf1) as [(ops1 & ops2 & s2 & -> & Hr & Hd)|[Hf2 [Hsz2 Hb2]]]; [intros allow Hin; apply (Hns allow); by right|done|..].
  - left. exists (o :: ops1), ops2, s2. cbn [run]. by rewrite E1.
  - right. split; [done|]. split; [congruence|]. intros x Hx. rewrite Hb2 by lia. by apply Hb1.
Qed.

End RamfsRun.
