(* ===== verification/RamfsSpec.v ===== *)
(** Correctness of the RAM file system ([kernel/src/ramfs.c]).

    [Good s U] is the invariant: the page pool accounts for every reference of
    the allocator beyond the [U x] held elsewhere, and the nodes form a tree. The
    contents of a file are given byte by byte by [file_byte]. *)

From Stdlib Require Import ZArith Lia String Ascii.
From stdpp Require Import base numbers list option.
From S2P Require Import Prelude Mem Pmm PmmSpec Vmm VmmInv Ramfs RamfsInv RamfsPool RamfsFile RamfsTrunc RamfsTree.
From S2P Require Import RamfsOps RamfsApi RamfsData RamfsLink RamfsRename RamfsInit RamfsRun.
Import Mem Kstr Pmm Vmm VmmInv Ramfs RamfsInv RamfsPool RamfsFile RamfsTrunc RamfsTree RamfsOps RamfsApi RamfsData
  RamfsLink RamfsRename RamfsInit RamfsRun list_basics.list list_relations.list.

Open Scope string_scope.
Open Scope char_scope.
Open Scope list_scope.
Open Scope Z_scope.
Open Scope c_scope.

Module RamfsSpec.

(** ** A small file system *)

Definition h : Z := 0xffff000000000000.
Definition unused_slot : ramfs_backing_page := mk_backing false 0 0 0 0 0 0.
Definition boot : state :=
  mk_state (fun _ => zeroed) 0 0 (fun _ => unused_slot) 0 0 0 0 0 1700000000 (mk_machine PmmSpec.sample (fun a => a mod 251) []).
Definition user : Z -> Z := rc (kernel boot).

Lemma boot_ok : booted boot h.
Proof.
  split; [done|]. split; [|by vm_compute]. split.
  - apply sample_ok.
  - by vm_compute.
  - by vm_compute.
  - intros a. unfold is_u8. cbn. pose proof (Z.mod_pos_bound a 251 ltac:(done)). lia.
Qed.

(** A file system with nothing but its root, and what [o] makes of a state. *)
Definition root_only (w : machine) : state :=
  mk_state (fun j => if j =? 0 then root_node 1700000000 else zeroed) h 2 (fun _ => zero_backing) 0 0 0 (-1) h 1700000000 w.
Definition fs0 : state := root_only (kernel boot).
Definition next_of (s : state) (o : op) : state := default s (exec o s).

Lemma root_only_good w : machine_ok w -> h = hhdm w -> Good (root_only w) (rc w).
Proof. intros Hm Hh. apply (root_fresh (root_only w) (rc w) 1700000000); [|done]. by apply empty_pool. Qed.

Lemma fs0_good : Good fs0 user.
Proof. destruct boot_ok as [_ [Hm Hh]]. exact (root_only_good (kernel boot) Hm Hh). Qed.

Lemma good_next s o : Good s user -> op_ok user s o -> Good (next_of s o) user.
Proof. intros HG Ho. unfold next_of. by destruct (exec_spec user s o HG Ho) as (s' & -> & HG' & _). Qed.

(** Buffers below the direct map are buffers of the caller. *)
Lemma low_memory s U p len : hhdm (kernel s) = h -> 0 <= p -> 0 <= len -> p + len <= h -> buffer s U p len.
Proof.
  intros Hh Hp Hl Hle. split; [unfold range_ok, h in *; lia|]. intros e He x (Hx & _) _. left. unfold off_page. rewrite Hh. lia.
Qed.

Definition path_a : option string := Some "/a"%string.
Definition path_b : option string := Some "/b"%string.

(** [/a] made with 200 bytes across a page boundary, then [/b]. *)
Definition fs1 : state := next_of fs0 (OCreate path_a).
Definition fs2 : state := next_of fs1 (OWrite 1 4000 0x1000 200).
Definition fs3 : state := next_of fs2 (OCreate path_b).

Lemma fs1_good : Good fs1 user.
Proof. apply good_next; [apply fs0_good|done]. Qed.

Lemma fs1_buffer p len : 0 <= p -> 0 <= len -> p + len <= h -> buffer fs1 user p len.
Proof. apply low_memory. by vm_compute. Qed.

Lemma fs2_good : Good fs2 user.
Proof. apply good_next; [apply fs1_good|]. split; [by apply fs1_buffer|]. done. Qed.

Lemma fs3_good : Good fs3 user.
Proof. apply good_next; [apply fs2_good|done]. Qed.

(** ** Paths of the form [dir/nm] *)

Section Path.
Context (s : state) (dir nm : string).
Hypothesis Hp : proper dir nm.
Hypothesis Hc : c_str (join dir nm) = true.

Lemma path_name : c_str nm = true /\ char_at nm 0 <> "000".
Proof.
  unfold join in Hc. rewrite c_str_app in Hc. apply andb_true_iff in Hc as [_ H]. simpl in H. split; [done|].
  destruct Hp as (_ & Hne & _). destruct nm as [|c m]; [done|]. simpl in H. unfold char_at. simpl. by destruct (Ascii.eqb_spec c "000").
Qed.

Lemma path_split p m : split_parent s (Some (join dir nm)) = Some (p, m) -> p = lookup_index s (Some (dir_path dir)) /\ m = nm /\ 0 <= p.
Proof.
  rewrite (split_join s dir nm Hp (proj2 path_name)). destruct (_ || _); [done|]. cbv zeta.
  destruct (Z.ltb_spec (lookup_index s (Some (dir_path dir))) 0); [done|]. destruct (negb _); [done|]. by intros [= <- <-].
Qed.

Hypothesis Hlen : (kstrlen nm <= RAMFS_NAME_MAX)%nat.

Lemma path_lookup : 0 <= lookup_index s (Some (dir_path dir)) ->
  lookup_index s (Some (join dir nm)) = find_child s (lookup_index s (Some (dir_path dir))) nm.
Proof.
  intros H0. rewrite (lookup_join s dir nm Hp Hlen). cbv zeta. replace (_ <? 0) with false by lia.
  destruct (find_child_range s (lookup_index s (Some (dir_path dir))) nm) as [->|[? _]]; [done|]. by replace (_ <? 0) with false by lia.
Qed.
End Path.

Definition clear_path (dir nm : string) : Prop :=
  proper dir nm /\ c_str (join dir nm) = true /\ (kstrlen nm <= RAMFS_NAME_MAX)%nat.

(** ** References *)

Fixpoint releases (k : nat) (i : Z) (s : state) : option state :=
  match k with
  | O => Some s
  | S k' => let* s' := ramfs_release_node i s in releases k' i s'
  end.

(** A node out of the tree lives until its last reference goes. *)
Lemma releases_spec U i n (b : Z -> Z) : forall k s, Good s U -> live s i = true -> parent (nodes s i) = -1 -> size (nodes s i) = n ->
  (forall x, file_byte s i x = b x) -> Z.of_nat k <= refs (nodes s i) ->
  exists s', releases k i s = Some s' /\ Good s' U /\
    if Z.of_nat k <? refs (nodes s i)
    then live s' i = true /\ size (nodes s' i) = n /\ forall x, file_byte s' i x = b x
    else live s' i = false.
Proof.
  induction k as [|k IH]; intros s HG Hl Hp Hn Hb Hk; cbn [releases].
  { destruct (tree_refs _ (proj2 HG) i Hl) as [_ Hr]. specialize (Hr Hp). exists s. change (Z.of_nat 0) with 0; replace (0 <? refs (nodes s i)) with true by lia. by split_and!. }
  destruct (release_spec s U i HG) as (s1 & E & HG1 & _ & _ & Hi). rewrite E. cbn [obind]. specialize (Hi Hl ltac:(lia)).
  rewrite Hp in Hi. change (-1 <? 0) with true in Hi. rewrite andb_true_r in Hi.
  destruct (Z.eqb_spec (refs (nodes s i)) 1) as [H1|H1].
  - destruct k as [|k]; [|lia]. exists s1. change (Z.of_nat 1) with 1; replace (1 <? refs (nodes s i)) with false by lia. by split_and!.
  - destruct Hi as (Hl1 & Hr1 & Hs1 & _ & Hb1).
    assert (parent (nodes s1 i) = -1) as Hp1.
    { unfold ramfs_release_node in E. rewrite Hl in E. cbn [negb orb] in E. destruct (refs (nodes s i) =? 0); [by injection E as <-|].
      destruct (_ && _) eqn:Eb; [|injection E as <-; cbn; unfold upd; by rewrite Z.eqb_refl].
      cbn in Eb. unfold upd in Eb. rewrite Z.eqb_refl in Eb. cbn in Eb. zbool. lia. }
    destruct (IH s1 HG1 Hl1 Hp1) as (s' & -> & HG' & Hc); [congruence|intros x; by rewrite Hb1|lia|].
    exists s'. split_and!; [done..|]. rewrite Hr1 in Hc. by replace (Z.of_nat (S k) <? refs (nodes s i)) with (Z.of_nat k <? refs (nodes s i) - 1) by (apply eq_iff_eq_true; rewrite !Z.ltb_lt; lia).
Qed.

(** ** Properties *)



(** C36: what a successful [ramfs_write] stored, [ramfs_read] at the same offset
    delivers, whatever the page boundaries in between. *)
Theorem ramfs_write_read s U i off src len s1 dst :
  Good s U -> buffer s U src len -> 0 <= off -> 0 <= len -> ramfs_write i off src len s = Some (len, s1) -> buffer s1 U dst len ->
  exists s2, ramfs_read i off dst len s1 = Some (len, s2) /\ Good s2 U /\
    forall e, 0 <= e < len -> memory s2 (dst + e) = memory s (src + e).
Proof.
  intros HG Hb Ho Hl Hw Hd. destruct (write_spec s U i off src len HG Hb Ho Hl) as (r & s' & E & HG1 & _ & Hcase).
  rewrite Hw in E. injection E as <- <-. destruct (may_write s i off len) eqn:Hm; [|lia].
  destruct Hcase as (Hlive & ((_ & Hdir & _) & _ & Hwr & Hdev) & [(_ & Hsz & Hby)|[? _]]); [|lia].
  unfold may_write, plain_writable in Hm. do 3 apply andb_true_iff in Hm as [Hm _]. apply andb_true_iff in Hm as [Hm Hwr0].
  apply andb_true_iff in Hm as [Hm Hnd]. apply andb_true_iff in Hm as [_ Hnf]. rewrite Hwr0 in Hwr.
  destruct (read_spec s1 U i off dst len HG1 Hd Ho Hl Hwr) as (m & Er & HG2 & Hmem). revert Er Hmem. cbv zeta.
  replace (if readable s1 i off then Z.min len (size (nodes s1 i) - off) else 0) with len.
  2:{ unfold readable, no_device in *. rewrite Hlive, Hdir, Hdev, Hnf, Hnd, Hsz. cbn [andb]. zcases; lia. }
  intros Er Hmem. exists (put_memory s1 m). split_and!; [done..|]. intros e He. change (memory (put_memory s1 m)) with m.
  rewrite Hmem. replace ((dst <=? dst + e) && (dst + e <? dst + len)) with true by (zcases; simpl; lia).
  rewrite Hby by lia. unfold overwritten. replace ((off <=? off + (dst + e - dst)) && _) with true by (zcases; simpl; lia). f_equal. lia.
Qed.

(** [ramfs_truncate] is refused, changing nothing, exactly when the node is
    not a writable file, the size is over the limit or a seal forbids it.
    Otherwise the file has the given size, keeps its bytes below it and reads as
    zeros above it, also after growing again. No other file changes. *)
Theorem ramfs_truncate_correct s U i n :
  Good s U -> 0 <= n ->
  exists s', ramfs_truncate i n s = Some (may_truncate s i n, s') /\ Good s' U /\ others i s s' /\
    if may_truncate s i n
    then live s' i = true /\ same_attrs (nodes s i) (nodes s' i) /\ size (nodes s' i) = n /\
      forall x, 0 <= x -> file_byte s' i x = if x <? n then file_byte s i x else 0
    else s' = s.
Proof.
  intros HG Hn. destruct (truncate_spec s U i n HG Hn) as (b & s' & E & HG' & Ho & -> & Hs). by exists s'.
Qed.

(** [ramfs_create] returns the file the path already leads to, changing
    nothing, or makes an empty file the path leads to from then on; when it
    fails the path leads nowhere. Every path that led somewhere still leads
    there, and no existing file changes. *)
Theorem ramfs_create_correct s U dir nm :
  Good s U -> clear_path dir nm ->
  let path := Some (join dir nm) in
  exists res s', ramfs_create path s = Some (res, s') /\ Good s' U /\ undisturbed s s' /\
    match res with
    | Some n => lookup_index s' path = rn_index n /\
        (0 <= lookup_index s path -> s' = s) /\
        (lookup_index s path < 0 -> size (nodes s' (rn_index n)) = 0 /\ forall x, file_byte s' (rn_index n) x = 0)
    | None => lookup_index s path = -1
    end.
Proof.
  intros HG (Hp & Hc & Hlen) path. destruct (create_good s U path HG Hc) as (res & s' & E & HG' & Hu & Hm).
  exists res, s'. split_and!; [done..|]. unfold ramfs_create in E. destruct (lookup_range s path) as [H0|H0].
  - rewrite H0 in *. change (0 <=? -1) with false in E. cbv iota in E. destruct res as [n|]; [|done].
    destruct Hm as (Hl & [(_ & _ & Hx)|(_ & Hz & Hb & p & m & Hs & Hch)]).
    { rewrite <- Hx in Hl. apply live_spec in Hl as [[? _] _]. lia. }
    split_and!; [|lia|done]. destruct (path_split s dir nm Hp Hc p m Hs) as (-> & -> & Hp0).
    assert (lookup_index s' (Some (dir_path dir)) = lookup_index s (Some (dir_path dir))) as Hd by (by apply (ud_lookup _ _ Hu)).
    unfold path. rewrite (path_lookup s' dir nm Hp Hlen) by lia. rewrite Hd. apply find_child_unique; [apply HG'|done|done].
  - replace (0 <=? lookup_index s path) with true in E by lia.
    assert (s = s' /\ ramfs_refresh_node s (lookup_index s path) = res) as [<- E1] by (split; congruence).
    destruct (refresh_live s (lookup_index s path)) as (n & En & Hi & _); [by apply lookup_live; [apply HG|]|].
    rewrite En in E1. subst res. split_and!; [done|done|lia].
Qed.

(** [ramfs_unlink] takes the node out of the tree unless the path leads
    nowhere, to the root or to a directory with entries. Then exactly the paths
    to it lead nowhere, the other nodes and files are untouched, and the node is
    freed when nobody holds it and keeps its contents otherwise. *)
Theorem ramfs_unlink_correct s U path :
  Good s U ->
  let i := lookup_index s path in
  exists b s', ramfs_unlink path s = Some (b, s') /\ Good s' U /\
    if b
    then (forall q, lookup_index s' q = if lookup_index s q =? i then -1 else lookup_index s q) /\
      (forall j, j <> i -> nodes s' j = nodes s j /\ (live s j = true -> forall x, file_byte s' j x = file_byte s j x)) /\
      (refs (nodes s i) = 0 -> live s' i = false) /\
      (refs (nodes s i) <> 0 -> live s' i = true /\ size (nodes s' i) = size (nodes s i) /\ forall x, file_byte s' i x = file_byte s i x)
    else s' = s /\ (i <= 0 \/ exists j, live s j = true /\ parent (nodes s j) = i).
Proof.
  intros HG i. destruct (unlink_spec s U path HG) as (b & s' & E & HG' & Hb). exists b, s'. split_and!; [done..|].
  destruct b; [|done]. destruct Hb as (Hrm & Hby & Hcase). split_and!.
  - intros q. by rewrite (removed_lookup _ _ _ (proj2 HG) Hrm).
  - intros j Hj. split; [by apply Hrm|]. intros Hl x. by apply Hby.
  - intros H0. destruct Hcase as [[_ ?]|[? _]]; [done|unfold i in H0; lia].
  - intros H0. destruct Hcase as [[? _]|(_ & ? & ? & _ & _ & ?)]; [done|by split_and!].
Qed.

(** C37: a file unlinked while references to it are held keeps its size and
    contents until the last of them is released, and is freed then. *)
Theorem ramfs_unlinked_until_released s U path s' k :
  Good s U -> ramfs_unlink path s = Some (true, s') ->
  let i := lookup_index s path in
  0 < refs (nodes s i) -> Z.of_nat k <= refs (nodes s i) ->
  exists s'', releases k i s' = Some s'' /\ Good s'' U /\
    if Z.of_nat k <? refs (nodes s i)
    then live s'' i = true /\ size (nodes s'' i) = size (nodes s i) /\ forall x, file_byte s'' i x = file_byte s i x
    else live s'' i = false.
Proof.
  intros HG Hun i Hr Hk. destruct (unlink_spec s U path HG) as (b & s1 & E & HG' & Hb). rewrite Hun in E. injection E as <- <-.
  fold i in Hb. destruct Hb as (Hrm & _ & [[? _]|(_ & Hl & Hs & Hrf & _ & Hby)]); [lia|].
  rewrite <- Hrf in *. apply (releases_spec U i (size (nodes s i)) (file_byte s i)); try done.
  destruct (rm_node _ _ _ Hrm) as [?|(_ & ? & _)]; [congruence|done].
Qed.


(** C26: renaming a file to its own path succeeds and destroys it: when nobody
    holds the file, the call returns true, the node is freed with its contents,
    and no path leads to it any more. *)
Theorem ramfs_rename_onto_self s U dir nm :
  Good s U -> clear_path dir nm -> (kstrlen dir < 511)%nat ->
  let path := Some (join dir nm) in
  let i := lookup_index s path in
  0 < i -> refs (nodes s i) = 0 ->
  exists s', ramfs_rename path path s = Some (true, s') /\ live s' i = false /\ forall q, lookup_index s' q <> i.
Proof.
  intros HG (Hp & Hc & Hlen) Hdl path i Hi Hr. pose proof (proj2 HG) as HT. unfold ramfs_rename. fold i. replace (i <=? 0) with false by lia.
  assert (exists p, split_parent s path = Some (p, nm)) as [p Es].
  { unfold path. rewrite (split_join s dir nm Hp (proj2 (path_name dir nm Hp Hc))).
    replace (RAMFS_NAME_MAX <? kstrlen nm)%nat with false by (symmetry; apply Nat.ltb_ge; lia).
    replace (511 <=? kstrlen dir)%nat with false by (symmetry; apply Nat.leb_gt; lia). cbn [orb]. cbv zeta.
    set (p := lookup_index s (Some (dir_path dir))). destruct (Z.ltb_spec p 0) as [Hp0|Hp0].
    { exfalso. unfold i, path in Hi. rewrite (lookup_join s dir nm Hp Hlen) in Hi. fold p in Hi. cbv zeta in Hi.
      replace (p <? 0) with true in Hi by lia. lia. }
    exists p. assert (child s p nm i) as (Hl & Hpar & _).
    { unfold i, path in *. rewrite (path_lookup s dir nm Hp Hlen) in * by done. fold p in Hi |- *.
      destruct (find_child_spec s p nm) as [[? _]|[_ ?]]; [lia|done]. }
    destruct (tree_parent _ HT i Hl) as (_ & Hd & _); [lia|]. rewrite Hpar in Hd. by rewrite Hd. }
  rewrite Es. fold i. replace (0 <? i) with true by lia. rewrite Hr. change (negb (0 =? 0)) with false. cbv iota.
  destruct HG as [(F & free & HI) _]. assert (live s i = true) as Hl by (apply lookup_live; [done|fold i; lia]).
  destruct (free_node_inv s F free U i HI Hl) as (s1 & _ & _ & -> & _ & Hl1 & Hn & _). cbn [obind].
  destruct (copy_name nm) as [ok cp] eqn:Ecp. pose proof (copy_name_spec nm ok cp (proj1 (path_name dir nm Hp Hc)) Ecp) as Hcp.
  destruct ok; [|lia]. cbn [negb]. change (on_node i (set_ctime _) _) with (placed i p cp s1). exists (placed i p cp s1).
  assert (forall j, live (placed i p cp s1) j = live s1 j) as Hlv.
  { intros j. unfold live. rewrite placed_node. by destruct (Z.eqb_spec j i) as [->|]. }
  split_and!; [done|by rewrite Hlv|]. intros q Hq.
  assert (live (placed i p cp s1) i = true); [|by rewrite Hlv, Hl1 in *]. rewrite <- Hq at 2.
  apply lookup_from_root; [|lia]. rewrite Hlv. unfold live. rewrite Hn by lia. apply (tree_root _ HT).
Qed.


(** *** The properties at work *)

Lemma result_of {A : Type} (r : option (A * state)) (v : A) (s : state) :
  option_map fst r = Some v -> r = Some (v, default s (option_map snd r)).
Proof. destruct r as [[x s']|]; [|done]. by intros [= ->]. Qed.

Lemma path_a_clear : clear_path "" "a".
Proof. split; [|split; [done|by apply Nat.leb_le]]. split; [by left|done]. Qed.

Lemma path_b_clear : clear_path "" "b".
Proof. split; [|split; [done|by apply Nat.leb_le]]. split; [by left|done]. Qed.



Lemma fs2_written : ramfs_write 1 4000 0x1000 200 fs1 = Some (200, fs2).
Proof. unfold fs2, next_of. cbn [exec]. apply (result_of _ 200 fs1). by vm_compute. Qed.

Lemma ramfs_write_read_witness :
  exists s2, ramfs_read 1 4000 0x2000 200 fs2 = Some (200, s2) /\ memory s2 (0x2000 + 150) = memory fs1 (0x1000 + 150).
Proof.
  destruct (ramfs_write_read fs1 user 1 4000 0x1000 200 fs2 0x2000 fs1_good (fs1_buffer 0x1000 200 ltac:(done) ltac:(done) ltac:(done))
    ltac:(done) ltac:(done) fs2_written) as (s2 & E & _ & Hm).
  - apply low_memory; [by vm_compute|done..].
  - exists s2. split; [exact E|]. apply Hm. lia.
Defined.

Lemma ramfs_truncate_correct_witness :
  may_truncate fs2 1 4100 = true /\ exists s', ramfs_truncate 1 4100 fs2 = Some (true, s') /\ size (nodes s' 1) = 4100.
Proof.
  assert (may_truncate fs2 1 4100 = true) as Hm by (by vm_compute). split; [done|].
  destruct (ramfs_truncate_correct fs2 user 1 4100 fs2_good ltac:(done)) as (s' & E & _ & _ & Hs).
  rewrite Hm in *. exists s'. split; [done|apply Hs].
Defined.

Lemma ramfs_create_correct_witness :
  lookup_index fs2 path_b = -1 /\ exists res s', ramfs_create path_b fs2 = Some (res, s') /\ Good s' user /\ undisturbed fs2 s'.
Proof.
  split; [by vm_compute|]. destruct (ramfs_create_correct fs2 user "" "b" fs2_good path_b_clear) as (res & s' & E & HG & Hu & _).
  exists res, s'. split; [exact E|]. split; [exact HG|exact Hu].
Defined.

Lemma ramfs_unlink_correct_witness :
  exists b s', ramfs_unlink path_a fs3 = Some (b, s') /\ Good s' user.
Proof. destruct (ramfs_unlink_correct fs3 user path_a fs3_good) as (b & s' & E & HG & _). exists b, s'. split; [exact E|exact HG]. Defined.

(** [/a] held twice, then unlinked. *)
Definition fs4 : state := next_of (next_of fs3 (ORetain 1)) (ORetain 1).
Definition fs5 : state := next_of fs4 (OUnlink path_a).

Lemma fs4_good : Good fs4 user.
Proof. apply good_next; [apply good_next; [exact fs3_good|]|]; by vm_compute. Qed.

Lemma ramfs_unlinked_until_released_witness :
  exists s'', releases 1 1 fs5 = Some s'' /\ live s'' 1 = true /\ file_byte s'' 1 4000 = file_byte fs4 1 4000.
Proof.
  assert (lookup_index fs4 path_a = 1 /\ refs (nodes fs4 1) = 2) as [Hi Hr] by (by vm_compute).
  assert (ramfs_unlink path_a fs4 = Some (true, fs5)) as Hu
    by (unfold fs5, next_of; cbn [exec]; apply (result_of _ true fs4); by vm_compute).
  destruct (ramfs_unlinked_until_released fs4 user path_a fs5 1 fs4_good Hu) as (s'' & E & _ & Hs); rewrite ?Hi, ?Hr in *; [done..|].
  change (Z.of_nat 1 <? 2) with true in Hs. exists s''. split; [done|]. split; [apply Hs|apply Hs].
Defined.

Definition all_in_root (s : state) : bool := first_node (fun j => used (nodes s j) && negb (parent (nodes s j) =? 0)) <? 0.

Lemma all_in_root_spec s j : all_in_root s = true -> live s j = true -> parent (nodes s j) = 0.
Proof.
  unfold all_in_root. destruct (first_node_spec (fun j => used (nodes s j) && negb (parent (nodes s j) =? 0))) as [[_ Hall]|[[H _] _]]; [|lia].
  intros _ Hl. apply live_spec in Hl as [Hr Hu]. specialize (Hall j Hr). rewrite Hu in Hall. cbn [andb] in Hall. apply negb_false_iff in Hall. lia.
Qed.

Lemma fs3_in_root : all_in_root fs3 = true.
Proof. vm_compute. reflexivity. Qed.


Lemma ramfs_rename_onto_self_witness : exists s', ramfs_rename path_a path_a fs3 = Some (true, s') /\ live s' 1 = false.
Proof.
  assert (lookup_index fs3 path_a = 1 /\ refs (nodes fs3 1) = 0) as [Hi Hr] by (by vm_compute).
  destruct (ramfs_rename_onto_self fs3 user "" "a" fs3_good path_a_clear ltac:(by apply Nat.ltb_lt)) as (s' & E & Hd & _);
    change (Some (join "" "a")) with path_a in *; rewrite ?Hi, ?Hr in *; [done..|].
  exists s'. split; [exact E|exact Hd].
Defined.

(** [/a] sealed. *)
Definition all_seals : Z := RAMFS_F_SEAL_WRITE .| RAMFS_F_SEAL_SHRINK .| RAMFS_F_SEAL_GROW.
Definition fs6 : state := next_of (next_of fs3 (OSetSealable 1 true)) (OAddSeals 1 all_seals).

Lemma fs6_good : Good fs6 user.
Proof. apply good_next; [apply good_next; [exact fs3_good|]|]; exact I. Qed.


End RamfsSpec.
