(* ===== verification/Elf.v ===== *)
(** The ELF loader ([kernel/src/elf/loader.c]).

    A reader is the record the callers fill in: the function that copies a range
    of the image into a buffer (a C function pointer, here a function that gives
    the bytes or fails), the node of the file and its size. Headers are decoded
    from the bytes read, little-endian, at the offsets of the C structures. The
    areas of the image are inserted with [Vma.vma_insert_file], so the loader is
    written over the same page and node interfaces. *)

From stdpp Require Import base numbers list option.
From Stdlib Require Import ZArith Lia.
From S2P Require Import Prelude Mem Pmm Iface Vma Vmm.
Import Vma Vmm.

Module Elf.

Definition ET_EXEC : Z := 2.
Definition ET_DYN : Z := 3.
Definition EM_AARCH64 : Z := 183.
Definition PT_INTERP : Z := 3.
Definition PT_LOAD : Z := 1.
Definition PF_X : Z := 1.
Definition PF_W : Z := 2.
Definition PAGE_SIZE : Z := 4096.

Record elf_reader := mk_reader {
  read_at : option (Z -> Z -> option (list Z));
  er_node : option vfs_node;
  er_size : Z;
}.

Record loaded_elf := mk_loaded {
  entry : Z;
  runtime_entry : Z;
  load_base : Z;
  at_base : Z;
  phdr : Z;
  phent : Z;
  phnum : Z;
  brk_base : Z;
}.

(** ** Headers *)

Definition SIZEOF_EHDR : Z := 64.
Definition SIZEOF_PHDR : Z := 56.

Record elf64_ehdr := mk_ehdr {
  e_ident : list Z;
  e_type : Z;
  e_machine : Z;
  e_version : Z;
  e_entry : Z;
  e_phoff : Z;
  e_shoff : Z;
  e_flags : Z;
  e_ehsize : Z;
  e_phentsize : Z;
  e_phnum : Z;
  e_shentsize : Z;
  e_shnum : Z;
  e_shstrndx : Z;
}.

Record elf64_phdr := mk_phdr {
  p_type : Z;
  p_flags : Z;
  p_offset : Z;
  p_vaddr : Z;
  p_paddr : Z;
  p_filesz : Z;
  p_memsz : Z;
  p_align : Z;
}.

(** Little-endian value of a list of bytes, and the [n]-byte field at [off]. *)
Fixpoint le_value (l : list Z) : Z :=
  match l with [] => 0 | b :: l => u8 b + 256 * le_value l end.

Definition field (off n : nat) (l : list Z) : Z := le_value (take n (drop off l)).

Definition decode_ehdr (l : list Z) : elf64_ehdr :=
  mk_ehdr (take 16 l) (field 16 2 l) (field 18 2 l) (field 20 4 l) (field 24 8 l)
    (field 32 8 l) (field 40 8 l) (field 48 4 l) (field 52 2 l) (field 54 2 l)
    (field 56 2 l) (field 58 2 l) (field 60 2 l) (field 62 2 l).

Definition decode_phdr (l : list Z) : elf64_phdr :=
  mk_phdr (field 0 4 l) (field 4 4 l) (field 8 8 l) (field 16 8 l) (field 24 8 l)
    (field 32 8 l) (field 40 8 l) (field 48 8 l).

(** ** Helpers *)

Definition align_down (value align : Z) : Z := value .& not64 (align - 1).
Definition align_up (value align : Z) : Z := u64 (value + align - 1) .& not64 (align - 1).

Definition bounds_ok (off len image_size : Z) : bool :=
  (off <=? image_size) && (len <=? u64 (image_size - off)).

Definition read_exact (reader : option elf_reader) (off len : Z) : option (list Z) :=
  match reader with
  | None => None
  | Some r =>
      match read_at r with
      | None => None
      | Some f => if bounds_ok off len (er_size r) then f off len else None
      end
  end.

Definition phdr_to_vmm_flags (flags : Z) : Z :=
  let out := VMM_USER_READ in
  let out := if has flags PF_W then out .| VMM_USER_WRITE else out in
  if has flags PF_X then out .| VMM_USER_EXEC else out.

(** [kmemcmp(ehdr->e_ident, magic, 4) == 0] on the bytes of the header. *)
Definition magic : list Z := [0x7f; 69; 76; 70].

Definition valid_ehdr (e : elf64_ehdr) (image_size : Z) : bool :=
  (SIZEOF_EHDR <=? image_size) && bool_decide (take 4 (e_ident e) = magic) &&
  (nth 4 (e_ident e) 0 =? 2) && (nth 5 (e_ident e) 0 =? 1) &&
  ((e_type e =? ET_EXEC) || (e_type e =? ET_DYN)) && (e_machine e =? EM_AARCH64) &&
  (e_phentsize e =? SIZEOF_PHDR) &&
  bounds_ok (e_phoff e) (u64 (e_phentsize e * e_phnum e)) image_size.

Definition read_ehdr (r : elf_reader) : option elf64_ehdr :=
  let* b := read_exact (Some r) 0 SIZEOF_EHDR in
  let e := decode_ehdr b in
  if valid_ehdr e (er_size r) then Some e else None.

Definition read_phdr (r : elf_reader) (e : elf64_ehdr) (i : Z) : option elf64_phdr :=
  let* b := read_exact (Some r) (u64 (e_phoff e + u64 (i * SIZEOF_PHDR))) SIZEOF_PHDR in
  Some (decode_phdr b).

(** ** The interpreter's path

    The bytes stored in [out] when the call returns true; [None] is false. *)

Fixpoint interp_loop (r : elf_reader) (e : elf64_ehdr) (out_cap : Z) (i n : nat) : option (list Z) :=
  match n with
  | O => None
  | S n =>
      let* ph := read_phdr r e (Z.of_nat i) in
      if negb (p_type ph =? PT_INTERP) then interp_loop r e out_cap (S i) n else
      if (p_filesz ph =? 0) || (out_cap <=? p_filesz ph) ||
         negb (bounds_ok (p_offset ph) (p_filesz ph) (er_size r)) then None else
      let* out := read_exact (Some r) (p_offset ph) (p_filesz ph) in
      if negb (u8 (nth (Z.to_nat (p_filesz ph - 1)) out 0) =? 0) then None else Some out
  end.

Definition elf_find_interp_aarch64 (reader : option elf_reader) (out_cap : Z) : option (list Z) :=
  if out_cap =? 0 then None else
  let* r := reader in
  let* e := read_ehdr r in
  interp_loop r e out_cap 0 (Z.to_nat (e_phnum e)).

(** ** Loading *)

Section Load.
Context {W : Type} `{PageSource W} `{VfsRefs W}.
Variable hhdm : Z.

(** [high] and [phdr_va] after a segment at [seg_vaddr]. *)
Definition next_high (high seg_vaddr : Z) (ph : elf64_phdr) : Z :=
  if high <? u64 (seg_vaddr + p_memsz ph) then u64 (seg_vaddr + p_memsz ph) else high.

Definition next_phdr (e : elf64_ehdr) (phdr_va seg_vaddr : Z) (ph : elf64_phdr) : Z :=
  if (p_offset ph <=? e_phoff e) &&
     (u64 (e_phoff e + u64 (e_phentsize e * e_phnum e)) <=? u64 (p_offset ph + p_filesz ph))
  then u64 (seg_vaddr + u64 (e_phoff e - p_offset ph)) else phdr_va.

(** The guards on a [PT_LOAD] header. *)
Definition bad_segment (r : elf_reader) (ph : elf64_phdr) : bool :=
  (p_memsz ph <? p_filesz ph) || negb (bounds_ok (p_offset ph) (p_filesz ph) (er_size r)) ||
  ((PAGE_SIZE <? p_align ph) && negb (p_vaddr ph mod p_align ph =? p_offset ph mod p_align ph)).

Fixpoint load_loop (r : elf_reader) (e : elf64_ehdr) (base : Z) (i n : nat) (high phdr_va : Z)
    (l : vma_list) (w : W) : option (bool * Z * Z * vma_list * W) :=
  match n with
  | O => Some (true, high, phdr_va, l, w)
  | S n =>
      match read_phdr r e (Z.of_nat i) with
      | None => Some (false, high, phdr_va, l, w)
      | Some ph =>
          if negb (p_type ph =? PT_LOAD) then load_loop r e base (S i) n high phdr_va l w else
          if bad_segment r ph then Some (false, high, phdr_va, l, w) else
          let seg_vaddr := u64 (base + p_vaddr ph) in
          let start := align_down seg_vaddr PAGE_SIZE in
          let end_ := align_up (u64 (seg_vaddr + p_memsz ph)) PAGE_SIZE in
          let flags := phdr_to_vmm_flags (p_flags ph) in
          let* (ok, l, w) := vma_insert_file hhdm l start end_ flags 0 (er_node r) seg_vaddr
                               (p_offset ph) (p_filesz ph) w in
          if negb ok then Some (false, high, phdr_va, l, w) else
          load_loop r e base (S i) n (next_high high seg_vaddr ph)
            (next_phdr e phdr_va seg_vaddr ph) l w
      end
  end.

Definition set_brk (s : user_address_space) (brk : Z) : user_address_space :=
  mk_as (root_pa s) (hhdm_offset s) brk brk (mmap_base s) (asid s).

(** Result of a call: its value, what [*out] holds ([None]: not written), the
    address space, the list of areas and the world. *)
Record load_result := mk_result {
  lr_ok : bool;
  lr_out : option loaded_elf;
  lr_as : option user_address_space;
  lr_vmas : option vma_list;
  lr_world : W;
}.

Definition elf_load_aarch64 (as_ : option user_address_space) (vmas : option vma_list)
    (reader : option elf_reader) (load_base : Z) (w : W) : option load_result :=
  match as_, vmas, reader with
  | Some s, Some l, Some r =>
      match er_node r, read_ehdr r with
      | Some _, Some e =>
          let base := if e_type e =? ET_DYN then load_base else 0 in
          let* (ok, high, phdr_va, l, w) := load_loop r e base 0 (Z.to_nat (e_phnum e)) 0 0 l w in
          if negb ok then Some (mk_result false None as_ (Some l) w) else
          let entry := u64 (base + e_entry e) in
          let brk := align_up high PAGE_SIZE in
          Some (mk_result (negb (high =? 0))
                  (Some (mk_loaded entry entry base 0 phdr_va (e_phentsize e) (e_phnum e) brk))
                  (Some (set_brk s brk)) (Some l) w)
      | _, _ => Some (mk_result false None as_ vmas w)
      end
  | _, _, _ => Some (mk_result false None as_ vmas w)
  end.
End Load.

End Elf.
