(* ===== verification/ElfSpec.v ===== *)
(** Correctness of the ELF loader.

    The reference is the list of program headers of the image: [phdrs] reads
    them, [loads] keeps the segments, and a segment [ph] loaded at [base] is to
    cover the pages from [seg_start] to [seg_end] with the attributes
    [seg_attrs]. *)

From stdpp Require Import base numbers list option.
From Stdlib Require Import ZArith Lia.
From S2P Require Import Prelude Mem Pmm PmmSpec Iface Vma VmaInv VmaOps Vmm Elf.
Import Vma Vmm Elf list_basics.list list_relations.list.

Module ElfSpec.

(** ** The image *)

Fixpoint phdrs (r : elf_reader) (e : elf64_ehdr) (i n : nat) : option (list elf64_phdr) :=
  match n with
  | O => Some []
  | S n =>
      let* ph := read_phdr r e (Z.of_nat i) in
      let* rest := phdrs r e (S i) n in
      Some (ph :: rest)
  end.

Definition loads (phs : list elf64_phdr) : list elf64_phdr :=
  filter (fun ph => p_type ph = PT_LOAD) phs.

Definition image_base (e : elf64_ehdr) (lb : Z) : Z := if e_type e =? ET_DYN then lb else 0.

Definition seg_vaddr (base : Z) (ph : elf64_phdr) : Z := u64 (base + p_vaddr ph).
Definition seg_start (base : Z) (ph : elf64_phdr) : Z := align_down (seg_vaddr base ph) Elf.PAGE_SIZE.
Definition seg_end (base : Z) (ph : elf64_phdr) : Z :=
  align_up (u64 (seg_vaddr base ph + p_memsz ph)) Elf.PAGE_SIZE.

Definition seg_attrs (base : Z) (nd : vfs_node) (ph : elf64_phdr) : attrs :=
  file_attrs (phdr_to_vmm_flags (p_flags ph)) 0 nd (seg_vaddr base ph) (p_offset ph) (p_filesz ph).

Definition in_segment (base : Z) (ph : elf64_phdr) (va : Z) : Prop :=
  seg_start base ph <= va < seg_end base ph.

(** The list [l'] is [l] with the segments [segs] added over unmapped pages. *)
Record installed (base : Z) (nd : vfs_node) (segs : list elf64_phdr) (l l' : vma_list) : Prop := {
  in_maps : forall va a, Maps l' va a <->
    Maps l va a \/ exists ph, ph ∈ segs /\ in_segment base ph va /\ a = seg_attrs base nd ph;
  in_new : forall ph va a, ph ∈ segs -> in_segment base ph va -> ~ Maps l va a;
  in_apart : forall i j p q va, segs !! i = Some p -> segs !! j = Some q ->
    in_segment base p va -> in_segment base q va -> i = j;
  in_pages : Forall (fun ph => seg_start base ph < seg_end base ph) segs;
}.

(** A segment the kernel can map: a regular file over a range that is not empty. *)
Definition file_backed (nd : vfs_node) : Prop := is_dir nd = false /\ device nd = RAMFS_DEV_NONE.

(** Why the loader stopped at header [i] with the areas [l]. *)
Definition refused {W} `{PageSource W} (hhdm base : Z) (r : elf_reader) (e : elf64_ehdr) (nd : vfs_node)
    (l : vma_list) (i : nat) : Prop :=
  read_phdr r e (Z.of_nat i) = None \/
  exists ph, read_phdr r e (Z.of_nat i) = Some ph /\ p_type ph = PT_LOAD /\
    (bad_segment r ph = true \/ ~ file_backed nd \/ seg_end base ph <= seg_start base ph \/
     (exists va a, in_segment base ph va /\ Maps l va a) \/ exists w : W, no_slot hhdm l w).

Definition high_of (base : Z) (segs : list elf64_phdr) (high : Z) : Z :=
  fold_left (fun h ph => next_high h (seg_vaddr base ph) ph) segs high.

Definition phdr_of (e : elf64_ehdr) (base : Z) (segs : list elf64_phdr) (va : Z) : Z :=
  fold_left (fun p ph => next_phdr e p (seg_vaddr base ph) ph) segs va.

(** ** Installing segments *)

Lemma installed_nil base nd l : installed base nd [] l l.
Proof.
  split; [|intros; by apply not_elem_of_nil in H|done|constructor].
  intros va a. split; [by left|]. intros [?|(ph & Hp & _)]; [done|]. by apply not_elem_of_nil in Hp.
Qed.

Lemma installed_cons base nd ph segs l l1 l' :
  seg_start base ph < seg_end base ph ->
  (forall va a, in_segment base ph va -> ~ Maps l va a) ->
  (forall va a, Maps l1 va a <->
     if within (seg_start base ph) (seg_end base ph) va then a = seg_attrs base nd ph else Maps l va a) ->
  installed base nd segs l1 l' -> installed base nd (ph :: segs) l l'.
Proof.
  intros Hlt Hno H1 [HM Hnew Hap Hpg].
  assert (Hw : forall va, within (seg_start base ph) (seg_end base ph) va = true <-> in_segment base ph va)
    by (intros va; unfold within, in_segment; rewrite andb_true_iff, Z.leb_le, Z.ltb_lt; done).
  assert (Hone : forall va a, Maps l1 va a <-> Maps l va a \/ in_segment base ph va /\ a = seg_attrs base nd ph).
  { intros va a. rewrite H1. destruct (within _ _ va) eqn:E.
    - apply Hw in E. specialize (Hno va a E). naive_solver.
    - assert (~ in_segment base ph va) by (intros Hc; apply Hw in Hc; congruence). naive_solver. }
  assert (Hsep : forall q va, q ∈ segs -> in_segment base ph va -> ~ in_segment base q va).
  { intros q va Hq Hp Hq'. apply (Hnew q va (seg_attrs base nd ph) Hq Hq'). apply Hone. by right. }
  split.
  - intros va a. rewrite HM, Hone. split.
    + intros [[?|[? ?]]|(q & ? & ? & ?)]; [by left|right; exists ph|right; exists q];
        rewrite elem_of_cons; naive_solver.
    + intros [?|(q & [->|?]%elem_of_cons & ? & ?)]; naive_solver.
  - intros q va a [->|Hq]%elem_of_cons Hin; [by apply Hno|].
    intros Hm. apply (Hnew q va a Hq Hin). apply Hone. by left.
  - intros [|i] [|j] p q va; simpl; [done| | |].
    + intros [= <-] Hq Hp Hq'. exfalso. eapply Hsep; [by eapply list_elem_of_lookup_2| |]; done.
    + intros Hp [= <-] Hp' Hq. exfalso. eapply Hsep; [by eapply list_elem_of_lookup_2| |]; done.
    + intros Hp Hq H2 H3. f_equal. by eapply Hap.
  - by constructor.
Qed.

Section Loading.
Context {W : Type} {HS : PageSource W} {HL : PageLaws W} {HF : VfsRefs W} {HV : VfsLaws W}.
Variables (hhdm : Z) (fr : frame) (r : elf_reader) (e : elf64_ehdr) (base : Z) (nd : vfs_node).
Hypothesis Hnd : er_node r = Some nd.

(** What the loop over the headers from [i] leaves after [k] of them. *)
Definition loop_post (i n : nat) (high phdr_va : Z) (l : vma_list) (b : bool) (high' phdr' : Z)
    (l' : vma_list) : Prop :=
  exists k phs, (k <= n)%nat /\ phdrs r e i k = Some phs /\
    installed base nd (loads phs) l l' /\
    Forall (fun ph => bad_segment r ph = false) (loads phs) /\
    high' = high_of base (loads phs) high /\ phdr' = phdr_of e base (loads phs) phdr_va /\
    if b then k = n /\ (loads phs <> [] -> file_backed nd)
    else (k < n)%nat /\ @refused W _ hhdm base r e nd l' (i + k).

Lemma loop_stop i n high phdr_va l :
  @refused W _ hhdm base r e nd l i -> loop_post i (S n) high phdr_va l false high phdr_va l.
Proof.
  intros Hr. exists 0%nat, []. split; [lia|]. split; [done|]. split; [apply installed_nil|].
  split; [constructor|]. split; [done|]. split; [done|]. split; [lia|]. by rewrite Nat.add_0_r.
Qed.

Lemma loop_skip i n ph high phdr_va l b high' phdr' l' :
  read_phdr r e (Z.of_nat i) = Some ph -> p_type ph <> PT_LOAD ->
  loop_post (S i) n high phdr_va l b high' phdr' l' -> loop_post i (S n) high phdr_va l b high' phdr' l'.
Proof.
  intros Er Hp (k & phs & Hk & E & Hin & Hf & Hh & Hv & Hb).
  exists (S k), (ph :: phs). unfold loads in *. rewrite filter_cons_False by done.
  split; [lia|]. simpl. rewrite Er. simpl. rewrite E. split; [done|]. split_and!; try done.
  destruct b; [destruct Hb; by subst|]. destruct Hb as [? Hr]. split; [lia|].
  by replace (i + S k)%nat with (S i + k)%nat by lia.
Qed.

Lemma loop_add i n ph high phdr_va l l1 b high' phdr' l' :
  read_phdr r e (Z.of_nat i) = Some ph -> p_type ph = PT_LOAD -> bad_segment r ph = false ->
  file_backed nd -> seg_start base ph < seg_end base ph ->
  (forall va a, in_segment base ph va -> ~ Maps l va a) ->
  (forall va a, Maps l1 va a <->
     if within (seg_start base ph) (seg_end base ph) va then a = seg_attrs base nd ph else Maps l va a) ->
  loop_post (S i) n (next_high high (seg_vaddr base ph) ph) (next_phdr e phdr_va (seg_vaddr base ph) ph)
    l1 b high' phdr' l' ->
  loop_post i (S n) high phdr_va l b high' phdr' l'.
Proof.
  intros Er Hp Hbad Hfb Hlt Hno H1 (k & phs & Hk & E & Hin & Hf & Hh & Hv & Hb).
  exists (S k), (ph :: phs). unfold loads in *. rewrite filter_cons_True by done.
  split; [lia|]. simpl. rewrite Er. simpl. rewrite E. split; [done|].
  split; [by eapply installed_cons|]. split; [by constructor|]. split; [done|]. split; [done|].
  destruct b; [destruct Hb; by subst|]. destruct Hb as [? Hr]. split; [lia|].
  by replace (i + S k)%nat with (S i + k)%nat by lia.
Qed.

Lemma load_loop_ok n : forall i high phdr_va l w,
  Inv l -> Res fr l w ->
  exists b high' phdr' l' w', load_loop hhdm r e base i n high phdr_va l w = Some (b, high', phdr', l', w') /\
    Inv l' /\ Res fr l' w' /\ loop_post i n high phdr_va l b high' phdr' l'.
Proof.
  induction n as [|n IH]; intros i high phdr_va l w HI HR; simpl.
  { exists true, high, phdr_va, l, w. split; [done|]. split; [done|]. split; [done|].
    exists 0%nat, []. split_and!; try done; apply installed_nil. }
  assert (Hstop : @refused W _ hhdm base r e nd l i -> exists b high' phdr' l' w',
    Some (false, high, phdr_va, l, w) = Some (b, high', phdr', l', w') /\
    Inv l' /\ Res fr l' w' /\ loop_post i (S n) high phdr_va l b high' phdr' l').
  { intros Hr. exists false, high, phdr_va, l, w. split_and!; try done. by apply loop_stop. }
  destruct (read_phdr r e (Z.of_nat i)) as [ph|] eqn:Er; [|apply Hstop; by left].
  destruct (Z.eqb_spec (p_type ph) PT_LOAD) as [Hp|Hp]; simpl.
  2:{ destruct (IH (S i) high phdr_va l w HI HR) as (b & h & p & l' & w' & -> & ? & ? & ?).
      exists b, h, p, l', w'. split_and!; try done. by eapply loop_skip. }
  destruct (bad_segment r ph) eqn:Hbad; [apply Hstop; right; exists ph; by auto|].
  fold (seg_vaddr base ph). fold (seg_start base ph). fold (seg_end base ph).
  destruct (insert_file_ok hhdm fr l (seg_start base ph) (seg_end base ph) (phdr_to_vmm_flags (p_flags ph)) 0
    (er_node r) (seg_vaddr base ph) (p_offset ph) (p_filesz ph) w HI HR) as (ok & l1 & w1 & -> & HI1 & HR1 & Hok).
  rewrite Hnd in Hok. simpl. destruct ok; simpl.
  - destruct Hok as (nd' & [= <-] & Hd & Hdev & Hlt & Hno & _ & HM).
    destruct (IH (S i) (next_high high (seg_vaddr base ph) ph) (next_phdr e phdr_va (seg_vaddr base ph) ph)
      l1 w1 HI1 HR1) as (b & h & p & l' & w' & -> & ? & ? & ?).
    exists b, h, p, l', w'. split_and!; try done. by eapply loop_add.
  - destruct Hok as [-> Hwhy]. exists false, high, phdr_va, l, w1. split_and!; try done. apply loop_stop.
    right. exists ph. split_and!; try done. unfold file_backed. right.
    destruct Hwhy as [?|[(nd' & [= <-] & Hbad')|[?|[?|?]]]]; [done|left|by eauto..].
    intros [Hd Hdev]. destruct Hbad' as [Hc|Hc]; [by rewrite Hd in Hc|done].
Qed.
End Loading.

(** ** Bounds *)

Lemma le_value_range l : 0 <= le_value l < 256 ^ Z.of_nat (length l).
Proof.
  induction l as [|b l IH]; simpl length; simpl le_value; [lia|].
  rewrite Nat2Z.inj_succ, Z.pow_succ_r by lia. unfold u8. dmlia.
Qed.

Lemma field_range off n l : 0 <= field off n l < 256 ^ Z.of_nat n.
Proof.
  unfold field. pose proof (le_value_range (take n (drop off l))) as [H1 H2]. split; [done|].
  eapply Z.lt_le_trans; [done|]. apply Z.pow_le_mono_r; [lia|]. rewrite length_take. lia.
Qed.

Lemma read_phdr_range r e i ph :
  read_phdr r e i = Some ph ->
  is_u64 (p_offset ph) /\ is_u64 (p_vaddr ph) /\ is_u64 (p_filesz ph) /\ is_u64 (p_memsz ph).
Proof.
  unfold read_phdr. destruct (read_exact _ _ _) as [b|]; simpl; [|done]. intros [= <-].
  unfold is_u64. simpl. change (2 ^ 64) with (256 ^ Z.of_nat 8). split_and!; apply field_range.
Qed.

Lemma phdrs_range r e n : forall i phs ph, phdrs r e i n = Some phs -> ph ∈ phs ->
  is_u64 (p_offset ph) /\ is_u64 (p_vaddr ph) /\ is_u64 (p_filesz ph) /\ is_u64 (p_memsz ph).
Proof.
  induction n as [|n IH]; intros i phs ph E Hin; simpl in E.
  { injection E as <-. by apply not_elem_of_nil in Hin. }
  destruct (read_phdr r e (Z.of_nat i)) as [p|] eqn:Er; [|done]. simpl in E.
  destruct (phdrs r e (S i) n) as [rest|] eqn:En; [|done]. simpl in E. injection E as <-.
  apply elem_of_cons in Hin as [->|Hin]; [by eapply read_phdr_range|by eapply IH].
Qed.

Lemma elem_loads ph phs : ph ∈ loads phs <-> p_type ph = PT_LOAD /\ ph ∈ phs.
Proof. unfold loads. by rewrite list_elem_of_filter. Qed.

Lemma align_down_eq x : is_u64 x -> align_down x 4096 = 4096 * (x / 4096).
Proof. intros Hx. unfold align_down. change (4096 - 1) with (2 ^ 12 - 1). by rewrite land_not64_low. Qed.

Lemma align_up_eq x :
  is_u64 x -> align_up x 4096 = if x <=? 2 ^ 64 - 4096 then 4096 * ((x + 4095) / 4096) else 0.
Proof.
  intros Hx. unfold align_up. change (not64 (4096 - 1)) with (not64 (2 ^ 12 - 1)).
  rewrite land_not64_low by (try apply u64_range; lia). unfold is_u64, u64 in *.
  change (2 ^ 12) with 4096. change (2 ^ 64) with 18446744073709551616 in *. zcases; dmlia.
Qed.

Lemma bounds_ok_iff off len size :
  is_u64 off -> is_u64 len -> is_u64 size -> bounds_ok off len size = true <-> off + len <= size.
Proof.
  intros H1 H2 H3. unfold bounds_ok, u64, is_u64 in *. rewrite andb_true_iff, !Z.leb_le.
  split; [intros [? Hl]; rewrite Z.mod_small in Hl by lia|intros ?; rewrite Z.mod_small by lia]; lia.
Qed.

Lemma seg_pages base ph :
  seg_start base ph < seg_end base ph ->
  u64 (seg_vaddr base ph + p_memsz ph) <= 2 ^ 64 - 4096 /\
  seg_start base ph = 4096 * (seg_vaddr base ph / 4096) /\
  seg_end base ph = 4096 * ((u64 (seg_vaddr base ph + p_memsz ph) + 4095) / 4096).
Proof.
  unfold seg_start, seg_end, Elf.PAGE_SIZE. pose proof (u64_range (base + p_vaddr ph)) as Hv.
  fold (seg_vaddr base ph) in Hv. pose proof (u64_range (seg_vaddr base ph + p_memsz ph)) as Hs.
  rewrite align_down_eq, align_up_eq by done. unfold is_u64 in Hv. zcases; [done|]. dmlia.
Qed.

(** [high] is the largest end of a segment. *)
Lemma high_of_spec base segs : forall high,
  high <= high_of base segs high /\
  (forall ph, ph ∈ segs -> u64 (seg_vaddr base ph + p_memsz ph) <= high_of base segs high) /\
  (high_of base segs high = high \/
   exists ph, ph ∈ segs /\ high_of base segs high = u64 (seg_vaddr base ph + p_memsz ph)).
Proof.
  induction segs as [|p segs IH]; intros high; simpl.
  { split; [lia|]. split; [intros ph Hp; by apply not_elem_of_nil in Hp|by left]. }
  destruct (IH (next_high high (seg_vaddr base p) p)) as (H1 & H2 & H3).
  assert (Hn : high <= next_high high (seg_vaddr base p) p /\
    u64 (seg_vaddr base p + p_memsz p) <= next_high high (seg_vaddr base p) p /\
    (next_high high (seg_vaddr base p) p = high \/
     next_high high (seg_vaddr base p) p = u64 (seg_vaddr base p + p_memsz p)))
    by (unfold next_high; destruct (Z.ltb_spec high (u64 (seg_vaddr base p + p_memsz p))); lia).
  split; [lia|]. split.
  - intros ph [->|Hp]%elem_of_cons; [lia|by apply H2].
  - destruct H3 as [H3|(ph & Hp & H3)].
    + destruct Hn as (_ & _ & [E|E]); rewrite E in H3 at 2; [by left|right; exists p].
      split; [apply elem_of_cons; by left|done].
    + right. exists ph. split; [apply elem_of_cons; by right|done].
Qed.

(** [phdr] is where some segment puts the header table. *)
Definition holds_table (e : elf64_ehdr) (ph : elf64_phdr) : Prop :=
  p_offset ph <= e_phoff e /\ e_phoff e + SIZEOF_PHDR * e_phnum e <= p_offset ph + p_filesz ph.

Lemma read_ehdr_valid r e :
  read_ehdr r = Some e -> is_u64 (er_size r) ->
  e_phentsize e = SIZEOF_PHDR /\ 0 <= e_phoff e /\ 0 <= e_phnum e < 2 ^ 16 /\
  e_phoff e + SIZEOF_PHDR * e_phnum e <= er_size r.
Proof.
  unfold read_ehdr. destruct (read_exact _ _ _) as [b|]; simpl; [|done].
  destruct (valid_ehdr _ _) eqn:Hv; [|done]. intros [= <-] Hs.
  unfold valid_ehdr in Hv. rewrite !andb_true_iff in Hv. destruct Hv as [[_ Hp%Z.eqb_eq] Hb].
  assert (Hn : 0 <= e_phnum (decode_ehdr b) < 2 ^ 16)
    by (simpl; change (2 ^ 16) with (256 ^ Z.of_nat 2); apply field_range).
  assert (Ho : is_u64 (e_phoff (decode_ehdr b)))
    by (unfold is_u64; simpl; change (2 ^ 64) with (256 ^ Z.of_nat 8); apply field_range).
  rewrite Hp in Hb. unfold SIZEOF_PHDR in *. unfold u64 in Hb. rewrite (Z.mod_small (_ * _)) in Hb by lia.
  apply bounds_ok_iff in Hb; [|done|unfold is_u64; lia|done]. unfold is_u64 in Ho. split_and!; lia.
Qed.

Lemma segment_window r ph :
  bad_segment r ph = false -> is_u64 (er_size r) -> is_u64 (p_offset ph) -> is_u64 (p_filesz ph) ->
  p_filesz ph <= p_memsz ph /\ p_offset ph + p_filesz ph <= er_size r.
Proof.
  unfold bad_segment. intros Hb Hs Ho Hf. apply orb_false_iff in Hb as [[Hm Hb]%orb_false_iff _].
  apply Z.ltb_ge in Hm. apply negb_false_iff in Hb. split; [done|]. by apply bounds_ok_iff in Hb.
Qed.

Lemma next_phdr_spec r e ph va sv :
  read_ehdr r = Some e -> is_u64 (er_size r) -> bad_segment r ph = false ->
  is_u64 (p_offset ph) -> is_u64 (p_filesz ph) ->
  next_phdr e va sv ph = va \/
  holds_table e ph /\ next_phdr e va sv ph = u64 (sv + (e_phoff e - p_offset ph)).
Proof.
  intros He Hs Hb Ho Hf. destruct (read_ehdr_valid r e He Hs) as (Hps & Hpo & Hpn & Hend).
  destruct (segment_window r ph Hb Hs Ho Hf) as [_ Hw]. unfold is_u64, SIZEOF_PHDR in *.
  unfold next_phdr, holds_table, u64. rewrite Hps. unfold SIZEOF_PHDR.
  rewrite (Z.mod_small (56 * _)), (Z.mod_small (e_phoff e + _)), (Z.mod_small (p_offset ph + _)) by lia.
  destruct (_ && _) eqn:E; [|by left]. rewrite andb_true_iff, !Z.leb_le in E.
  right. rewrite (Z.mod_small (e_phoff e - _)) by lia. by split.
Qed.

Lemma phdr_of_spec r e base segs : forall va,
  read_ehdr r = Some e -> is_u64 (er_size r) ->
  Forall (fun ph => bad_segment r ph = false) segs ->
  (forall ph, ph ∈ segs -> is_u64 (p_offset ph) /\ is_u64 (p_filesz ph)) ->
  phdr_of e base segs va = va \/
  exists ph, ph ∈ segs /\ holds_table e ph /\
    phdr_of e base segs va = u64 (seg_vaddr base ph + (e_phoff e - p_offset ph)).
Proof.
  induction segs as [|p segs IH]; intros va He Hs Hb Hu; simpl; [by left|].
  inversion Hb as [|? ? Hb1 Hb2]; subst.
  destruct (Hu p) as [Ho Hf]; [apply elem_of_cons; by left|].
  destruct (IH (next_phdr e va (seg_vaddr base p) p)) as [E|(ph & Hp & Ht & E)]; try done.
  { intros ph Hp. apply Hu, elem_of_cons. by right. }
  - destruct (next_phdr_spec r e p va (seg_vaddr base p)) as [E2|[Ht E2]]; try done;
      rewrite E2 in E at 2; [by left|]. right. exists p. split; [apply elem_of_cons; by left|done].
  - right. exists ph. split; [apply elem_of_cons; by right|done].
Qed.

(** ** The claims *)

Section Claims.
Context {W : Type} {HS : PageSource W} {HL : PageLaws W} {HF : VfsRefs W} {HV : VfsLaws W}.

(** What a call leaves when the image has header [e]. *)
Definition load_post (hhdm : Z) (fr : frame) (r : elf_reader) (e : elf64_ehdr) (nd : vfs_node) (base : Z)
    (s : user_address_space) (l : vma_list) (res : load_result (W := W)) : Prop :=
  exists l' k phs, lr_vmas res = Some l' /\ Inv l' /\ Res fr l' (lr_world res) /\
    (k <= Z.to_nat (e_phnum e))%nat /\ phdrs r e 0 k = Some phs /\
    installed base nd (loads phs) l l' /\
    Forall (fun ph => bad_segment r ph = false) (loads phs) /\
    match lr_out res with
    | None => lr_ok res = false /\ lr_as res = Some s /\ (k < Z.to_nat (e_phnum e))%nat /\
        @refused W _ hhdm base r e nd l' k
    | Some out => k = Z.to_nat (e_phnum e) /\
        lr_ok res = negb (high_of base (loads phs) 0 =? 0) /\
        out = mk_loaded (u64 (base + e_entry e)) (u64 (base + e_entry e)) base 0
                (phdr_of e base (loads phs) 0) (e_phentsize e) (e_phnum e)
                (align_up (high_of base (loads phs) 0) Elf.PAGE_SIZE) /\
        lr_as res = Some (set_brk s (Elf.brk_base out))
    end.

Lemma load_ok hhdm fr r nd s l lb w :
  er_node r = Some nd -> Inv l -> Res fr l w ->
  exists res, elf_load_aarch64 hhdm (Some s) (Some l) (Some r) lb w = Some res /\
    match read_ehdr r with
    | None => res = mk_result false None (Some s) (Some l) w
    | Some e => load_post hhdm fr r e nd (image_base e lb) s l res
    end.
Proof.
  intros Hnd HI HR. unfold elf_load_aarch64. rewrite Hnd.
  destruct (read_ehdr r) as [e|] eqn:He; [|by eexists].
  fold (image_base e lb).
  destruct (load_loop_ok hhdm fr r e (image_base e lb) nd Hnd (Z.to_nat (e_phnum e)) 0 0 0 l w HI HR)
    as (b & h & p & l' & w' & -> & HI' & HR' & k & phs & Hk & E & Hin & Hf & -> & -> & Hb).
  simpl. destruct b; simpl; eexists; (split; [reflexivity|]); exists l', k, phs; simpl;
    split_and!; try done; by destruct Hb.
Qed.

(** C20: For an image with a readable and valid header, the loader always
    returns, and it adds to the areas of the address space exactly the segments
    of a prefix of the program headers, each over pages that were unmapped, with
    the permissions of its flags and the window of the file it names; the list
    of areas stays well formed and owns what it held. When it fills in [*out]
    the prefix is the whole table and the record, the break and the result are
    the stated ones; otherwise the header after the prefix was unreadable,
    malformed, or could not be mapped, and the break is unchanged. A bad file
    header changes nothing. *)
Theorem elf_load_correct hhdm fr r nd s l lb (w : W) :
  er_node r = Some nd -> Inv l -> Res fr l w ->
  exists res, elf_load_aarch64 hhdm (Some s) (Some l) (Some r) lb w = Some res /\
    match read_ehdr r with
    | None => res = mk_result false None (Some s) (Some l) w
    | Some e => load_post hhdm fr r e nd (image_base e lb) s l res
    end.
Proof. apply load_ok. Qed.

(** C21: When the loader returns true, every segment it mapped has its file
    window inside the file, a memory size of at least that window, page-aligned
    ends, and covers its whole memory range unless that range wraps around the
    address space; the break is the page-aligned end of the highest segment and
    lies above all of them; and the header address reported to the program is
    zero or the place where a mapped segment holds the complete header table. *)
Theorem elf_load_bounds hhdm fr r nd s l lb (w : W) res e :
  er_node r = Some nd -> is_u64 (er_size r) -> Inv l -> Res fr l w -> read_ehdr r = Some e ->
  elf_load_aarch64 hhdm (Some s) (Some l) (Some r) lb w = Some res -> lr_ok res = true ->
  exists out phs, lr_out res = Some out /\ phdrs r e 0 (Z.to_nat (e_phnum e)) = Some phs /\
    let base := image_base e lb in
    let segs := loads phs in
    (forall ph, ph ∈ segs ->
       p_filesz ph <= p_memsz ph /\ p_offset ph + p_filesz ph <= er_size r /\
       seg_start base ph mod 4096 = 0 /\ seg_end base ph mod 4096 = 0 /\
       seg_start base ph < seg_end base ph <= Elf.brk_base out /\
       (seg_vaddr base ph + p_memsz ph < 2 ^ 64 ->
        forall va, seg_vaddr base ph <= va < seg_vaddr base ph + p_memsz ph -> in_segment base ph va)) /\
    (exists ph, ph ∈ segs /\ Elf.brk_base out = seg_end base ph) /\
    (phdr out = 0 \/ exists ph, ph ∈ segs /\ holds_table e ph /\
       phdr out = u64 (seg_vaddr base ph + (e_phoff e - p_offset ph))).
Proof.
  intros Hnd Hs HI HR He E Hok.
  destruct (load_ok hhdm fr r nd s l lb w Hnd HI HR) as (res' & E' & Hp). rewrite E in E'. injection E' as <-.
  rewrite He in Hp. destruct Hp as (l' & k & phs & _ & _ & _ & _ & Ephs & [_ _ _ Hpg] & Hbad & Hout).
  destruct (lr_out res) as [out|]; [|destruct Hout as [Hf _]; congruence].
  destruct Hout as (-> & Hhi & Hrec & _). rewrite Hok in Hhi. symmetry in Hhi. apply negb_true_iff, Z.eqb_neq in Hhi.
  exists out, phs. split; [done|]. split; [done|]. set (base := image_base e lb) in *. simpl.
  assert (Hr : forall ph, ph ∈ loads phs -> is_u64 (p_offset ph) /\ is_u64 (p_filesz ph) /\ is_u64 (p_memsz ph))
    by (intros ph [_ Hin]%elem_loads; by destruct (phdrs_range r e _ _ _ ph Ephs Hin) as (? & ? & ? & ?)).
  rewrite Forall_forall in Hpg. rewrite Forall_forall in Hbad.
  destruct (high_of_spec base (loads phs) 0) as (_ & Hle & Hmax). set (h := high_of base (loads phs) 0) in *.
  destruct Hmax as [|(p & Hp & Hph)]; [done|]. destruct (seg_pages base p (Hpg p Hp)) as (Hsmall & _ & Hend).
  assert (Hbrk : Elf.brk_base out = 4096 * ((h + 4095) / 4096)).
  { rewrite Hrec. simpl. fold h. unfold Elf.PAGE_SIZE. rewrite align_up_eq, Hph by (rewrite Hph; apply u64_range).
    by rewrite (proj2 (Z.leb_le _ _) Hsmall). }
  split_and!.
  - intros ph Hin. destruct (Hr ph Hin) as (Ho & Hf & Hm).
    destruct (segment_window r ph (Hbad ph Hin) Hs Ho Hf) as [Hw1 Hw2].
    destruct (seg_pages base ph (Hpg ph Hin)) as (Hsm & Hst & Hen). specialize (Hle ph Hin).
    specialize (Hpg ph Hin). unfold in_segment. rewrite Hbrk. split_and!; try done; [dmlia|dmlia|dmlia|].
    intros Hnw va Hva. unfold is_u64 in Hm.
    pose proof (u64_range (base + p_vaddr ph)) as Hv. fold (seg_vaddr base ph) in Hv. unfold is_u64 in Hv.
    rewrite Hst, Hen. unfold u64. rewrite Z.mod_small by lia. dmlia.
  - exists p. split; [done|]. by rewrite Hbrk, Hend, Hph.
  - rewrite Hrec. simpl. apply (phdr_of_spec r); [done|done|by apply Forall_forall|].
    intros ph Hin. by destruct (Hr ph Hin) as (? & ? & ?).
Qed.
End Claims.

(** The header that names the interpreter is the first of its type. *)
Definition interp_at (r : elf_reader) (e : elf64_ehdr) (i n : nat) (ph : elf64_phdr) : Prop :=
  exists k phs, (k < n)%nat /\ phdrs r e i k = Some phs /\ Forall (fun p => p_type p <> PT_INTERP) phs /\
    read_phdr r e (Z.of_nat (i + k)) = Some ph /\ p_type ph = PT_INTERP.

Definition interp_bytes (r : elf_reader) (cap : Z) (ph : elf64_phdr) (out : list Z) : Prop :=
  p_filesz ph <> 0 /\ p_filesz ph < cap /\
  read_exact (Some r) (p_offset ph) (p_filesz ph) = Some out /\
  u8 (nth (Z.to_nat (p_filesz ph - 1)) out 0) = 0.

Lemma list_snoc_case {A} (l : list A) : l = [] \/ exists b z, l = b ++ [z].
Proof. induction l using rev_ind; [by left|right; by exists l, x]. Qed.

Lemma interp_at_here r e i n ph ph' :
  read_phdr r e (Z.of_nat i) = Some ph -> p_type ph = PT_INTERP ->
  interp_at r e i (S n) ph' <-> ph' = ph.
Proof.
  intros E Hp. split.
  - intros (k & phs & Hk & Ephs & Hno & Ek & Hp').
    destruct k as [|k]; [rewrite Nat.add_0_r in Ek; congruence|].
    simpl in Ephs. rewrite E in Ephs. simpl in Ephs. destruct (phdrs r e (S i) k); [|done]. simpl in Ephs.
    injection Ephs as <-. inversion Hno. congruence.
  - intros ->. exists 0%nat, []. rewrite Nat.add_0_r. split_and!; try done. lia.
Qed.

Lemma interp_at_next r e i n ph ph' :
  read_phdr r e (Z.of_nat i) = Some ph -> p_type ph <> PT_INTERP ->
  interp_at r e i (S n) ph' <-> interp_at r e (S i) n ph'.
Proof.
  intros E Hp. split.
  - intros (k & phs & Hk & Ephs & Hno & Ek & Hp').
    destruct k as [|k]; [rewrite Nat.add_0_r in Ek; congruence|].
    simpl in Ephs. rewrite E in Ephs. simpl in Ephs. destruct (phdrs r e (S i) k) as [rest|] eqn:Er; [|done].
    simpl in Ephs. injection Ephs as <-. inversion Hno; subst. exists k, rest.
    replace (S i + k)%nat with (i + S k)%nat by lia. split_and!; try done. lia.
  - intros (k & phs & Hk & Ephs & Hno & Ek & Hp'). exists (S k), (ph :: phs). simpl. rewrite E. simpl. rewrite Ephs.
    replace (i + S k)%nat with (S i + k)%nat by lia. split_and!; try done; [lia|by constructor].
Qed.

Lemma interp_loop_spec r e cap n : forall i out,
  interp_loop r e cap i n = Some out <-> exists ph, interp_at r e i n ph /\ interp_bytes r cap ph out.
Proof.
  induction n as [|n IH]; intros i out; simpl.
  { split; [done|]. intros (ph & (k & ? & ? & _) & _). lia. }
  destruct (read_phdr r e (Z.of_nat i)) as [ph|] eqn:E; simpl.
  2:{ split; [done|]. intros (ph & (k & phs & Hk & Ephs & _ & Ek & _) & _).
      destruct k; [rewrite Nat.add_0_r in Ek; congruence|]. simpl in Ephs. by rewrite E in Ephs. }
  destruct (Z.eqb_spec (p_type ph) PT_INTERP) as [Hp|Hp]; simpl.
  2:{ rewrite IH. by setoid_rewrite (interp_at_next r e i n ph); [|done..]. }
  transitivity (interp_bytes r cap ph out).
  2:{ split; [intros ?; exists ph; split; [by apply (interp_at_here r e i n ph)|done]|].
      by intros (ph' & ->%(interp_at_here r e i n ph) & ?). }
  unfold interp_bytes, read_exact. destruct (Z.eqb_spec (p_filesz ph) 0); simpl; [naive_solver|].
  destruct (Z.leb_spec cap (p_filesz ph)); simpl; [naive_solver lia|].
  destruct (read_at r) as [f|]; simpl; [|destruct (bounds_ok _ _ _); simpl; naive_solver].
  destruct (bounds_ok _ _ _); simpl; [|naive_solver].
  destruct (f _ _) as [b|]; simpl; [|naive_solver].
  destruct (Z.eqb_spec (u8 (nth (Z.to_nat (p_filesz ph - 1)) b 0)) 0); simpl; naive_solver.
Qed.

(** A reader delivers as many bytes as it is asked for. *)
Definition reader_exact (r : elf_reader) : Prop :=
  forall f off len out, read_at r = Some f -> f off len = Some out -> Z.of_nat (length out) = len.

(** The interpreter's path is found exactly when the header of the file is
    valid and the first [PT_INTERP] header names a non-empty range of the file
    that is smaller than the buffer and ends with a zero byte; the buffer then
    starts with the bytes of that range, so that it holds a string ended within
    its capacity. *)
Theorem elf_find_interp_correct r cap out :
  reader_exact r -> cap <> 0 ->
  elf_find_interp_aarch64 (Some r) cap = Some out <->
  exists e ph, read_ehdr r = Some e /\ interp_at r e 0 (Z.to_nat (e_phnum e)) ph /\
    interp_bytes r cap ph out /\ Z.of_nat (length out) = p_filesz ph /\
    exists body z, out = body ++ [z] /\ u8 z = 0 /\ Z.of_nat (length body) < cap - 1.
Proof.
  intros Hr Hcap. unfold elf_find_interp_aarch64. destruct (Z.eqb_spec cap 0) as [|_]; [done|]. simpl.
  destruct (read_ehdr r) as [e|]; simpl; [|naive_solver]. rewrite interp_loop_spec. split.
  - intros (ph & Hat & Hb). exists e, ph. split; [done|]. split; [done|]. split; [done|].
    destruct Hb as (Hnz & Hlt & Hrd & Hz). unfold read_exact in Hrd.
    destruct (read_at r) as [f|] eqn:Ef; [|done]. destruct (bounds_ok _ _ _); [|done].
    pose proof (Hr f _ _ _ Ef Hrd) as Hlen. split; [done|].
    destruct (list_snoc_case out) as [->|(body & z & ->)]; [simpl in Hlen; lia|].
    rewrite length_app in Hlen. simpl in Hlen. exists body, z. split_and!; [done| |lia].
    replace (Z.to_nat (p_filesz ph - 1)) with (length body) in Hz by lia. by rewrite nth_middle in Hz.
  - intros (e' & ph & [= <-] & Hat & Hb & _). by exists ph.
Qed.



(** ** A sample image

    A position-independent executable with an interpreter, a read-execute segment
    that holds the headers and a read-write segment with zeroed memory. *)

Fixpoint le (n : nat) (v : Z) : list Z :=
  match n with O => [] | S n => u8 v :: le n (v / 256) end.

Definition sample_phdr (ty fl off va fsz msz al : Z) : list Z :=
  le 4 ty ++ le 4 fl ++ le 8 off ++ le 8 va ++ le 8 va ++ le 8 fsz ++ le 8 msz ++ le 8 al.

Definition sample_image : list Z :=
  magic ++ [2; 1; 1; 0] ++ le 8 0 ++ le 2 ET_DYN ++ le 2 EM_AARCH64 ++ le 4 1 ++ le 8 0x80 ++ le 8 64 ++
  le 8 0 ++ le 4 0 ++ le 2 64 ++ le 2 56 ++ le 2 3 ++ le 2 0 ++ le 2 0 ++ le 2 0 ++
  sample_phdr PT_INTERP 4 232 232 8 8 1 ++
  sample_phdr PT_LOAD 5 0 0 240 240 0x1000 ++
  sample_phdr PT_LOAD 6 200 0x10c8 40 0x2000 0x1000 ++
  [47; 108; 105; 98; 47; 108; 100; 0].

Definition sample_reader : elf_reader :=
  mk_reader (Some (fun off len =>
      if bounds_ok off len 240 && (0 <=? off) && (0 <=? len)
      then Some (take (Z.to_nat len) (drop (Z.to_nat off) sample_image)) else None))
    (Some sample_file) 240.

Definition sample_as : user_address_space := mk_as 0x200000 sample_hhdm 0 0 0 1.

Definition load_sample (l : vma_list) (w : kernel) : option load_result :=
  elf_load_aarch64 sample_hhdm (Some sample_as) (Some l) (Some sample_reader) 0x40000000 w.

Lemma elf_load_correct_witness :
  on_sample False (fun l w => exists res e, load_sample l w = Some res /\ read_ehdr sample_reader = Some e /\
    load_post sample_hhdm (snapshot sample_kernel) sample_reader e sample_file 0x40000000 sample_as l res) /\
  on_sample false (fun l w => default false (lr_ok <$> load_sample l w)) = true.
Proof.
  split; [|by vm_compute]. apply on_sample_ok. intros l w HI HR.
  destruct (elf_load_correct sample_hhdm _ sample_reader sample_file sample_as l 0x40000000 w eq_refl HI HR)
    as (res & E & Hp).
  destruct (read_ehdr sample_reader) as [e|] eqn:He; [|vm_compute in He; discriminate].
  exists res, e. split; [exact E|]. split; [reflexivity|].
  assert (image_base e 0x40000000 = 0x40000000) as Hb by (vm_compute in He; injection He as <-; reflexivity).
  rewrite <- Hb. exact Hp.
Defined.

Lemma elf_load_bounds_witness :
  on_sample False (fun l w => exists res out, load_sample l w = Some res /\ lr_out res = Some out /\
    Elf.brk_base out = 0x40004000 /\ phdr out = 0x40000040).
Proof.
  apply (on_sample_if (fun l w => default false (r ← load_sample l w; o ← lr_out r;
    Some (lr_ok r && (Elf.brk_base o =? 0x40004000) && (phdr o =? 0x40000040)))));
    [vm_compute; reflexivity|].
  intros l w HI HR Hok. destruct (load_sample l w) as [res|] eqn:E; [|discriminate]. simpl in Hok.
  destruct (lr_out res) as [o|] eqn:Eo; [|discriminate]. simpl in Hok.
  rewrite !andb_true_iff, !Z.eqb_eq in Hok. destruct Hok as [[Hok Hb] Hp].
  destruct (read_ehdr sample_reader) as [e|] eqn:He; [|vm_compute in He; discriminate].
  destruct (elf_load_bounds sample_hhdm _ sample_reader sample_file sample_as l 0x40000000 w res e
    eq_refl ltac:(split; [discriminate|reflexivity]) HI HR He E Hok) as (out & phs & Eo' & _).
  exists res, out. split; [reflexivity|]. split; [exact Eo'|]. rewrite Eo in Eo'. injection Eo' as <-. exact (conj Hb Hp).
Defined.

Lemma sample_reader_exact : reader_exact sample_reader.
Proof.
  intros f off len out [= <-]. unfold bounds_ok, u64.
  destruct (_ && _) eqn:E; [|done]. rewrite !andb_true_iff, !Z.leb_le in E. intros [= <-].
  rewrite length_take, length_drop. change (length sample_image) with 240%nat.
  rewrite Z.mod_small in E by lia. lia.
Qed.

Lemma elf_find_interp_correct_witness :
  elf_find_interp_aarch64 (Some sample_reader) 64 = Some [47; 108; 105; 98; 47; 108; 100; 0] /\
  exists e ph, read_ehdr sample_reader = Some e /\
    interp_at sample_reader e 0 (Z.to_nat (e_phnum e)) ph /\ p_filesz ph = 8.
Proof.
  split; [vm_compute; reflexivity|].
  destruct (proj1 (elf_find_interp_correct sample_reader 64 [47; 108; 105; 98; 47; 108; 100; 0]
    sample_reader_exact ltac:(discriminate)) ltac:(vm_compute; reflexivity))
    as (e & ph & He & Hat & _ & Hl & _).
  exists e, ph. split; [exact He|]. split; [exact Hat|]. rewrite <- Hl. reflexivity.
Defined.

End ElfSpec.
