(* ===== verification/Memory.v ===== *)
(** Process memory ([kernel/src/proc/memory.c]): the table of address spaces,
    page faults, and the operations behind [mmap], [munmap], [mprotect] and
    [msync].

    A [struct process_mm] pairs the page tables of [Vmm] with the areas of [Vma];
    a pointer to one is its index in the table. Of a [struct domain] the model
    keeps the fields this file uses, and a pointer to one is its index too. The
    file system is an interface, [FileStore]: what it does to the machine is
    part of its state change, since it allocates and frees pages. *)

From stdpp Require Import base numbers list option.
From Stdlib Require Import ZArith Lia.
From S2P Require Import Prelude Mem Pmm Iface Vma Vmm.
Import Vma Pmm Vmm.

(** ** The file system as seen by the memory code *)

(** The calls of [kernel/src/include/vfs.h]: a failing call gives [None]; a page
    read gives its 4096 bytes; [fs_write] takes the kernel address of the bytes
    and gives the count or a negative error. *)
Class FileStore (V : Type) := {
  fs_retain_node : vfs_node -> machine * V -> machine * V;
  fs_release_node : vfs_node -> machine * V -> machine * V;
  fs_note_mapping : vfs_node -> bool -> machine * V -> machine * V;
  fs_write : vfs_node -> Z -> Z -> Z -> machine * V -> Z * (machine * V);
  fs_retain_page : vfs_node -> Z -> machine * V -> option Z * (machine * V);
  fs_read_page : vfs_node -> Z -> machine * V -> option (list Z) * (machine * V);
}.

#[export] Instance world_pages (V : Type) : PageSource (machine * V) := {|
  Iface.alloc_zero_page w := let '(pa, m) := Vmm.alloc_zero_page w.1 in (pa, (m, w.2));
  Iface.free_page pa w := (Vmm.free_page pa w.1, w.2);
|}.

#[export] Instance world_refs (V : Type) `{FileStore V} : VfsRefs (machine * V) := {|
  retain_node := fs_retain_node;
  release_node := fs_release_node;
  note_shared_writable_mapping := fs_note_mapping;
|}.

Module Memory.

Definition MAP_SHARED : Z := 0x01.
Definition MAP_GROWSDOWN : Z := 0x0100.
Definition MAX_DOMAINS : Z := 1024.
Definition MAX_SNAPSHOTS : Z := 8.

(** [sizeof(struct process_mm)]: a flag and a counter in 8 bytes, 48 bytes of
    [struct user_address_space] and 1032 bytes of [struct vma_list]. *)
Definition sizeof_process_mm : Z := 1088.

Record process_mm := mk_mm {
  mm_used : bool;
  mm_refcount : Z;
  mm_as : user_address_space;
  mm_vmas : vma_list;
}.

Definition zero_as : user_address_space := mk_as 0 0 0 0 0 0.
Definition zero_mm : process_mm := mk_mm false 0 zero_as vma_list_init.

Definition set_mm_used (m : process_mm) (b : bool) : process_mm :=
  mk_mm b (mm_refcount m) (mm_as m) (mm_vmas m).
Definition set_mm_refcount (m : process_mm) (n : Z) : process_mm :=
  mk_mm (mm_used m) n (mm_as m) (mm_vmas m).
Definition set_mm_as (m : process_mm) (s : user_address_space) : process_mm :=
  mk_mm (mm_used m) (mm_refcount m) s (mm_vmas m).
Definition set_mm_vmas (m : process_mm) (l : vma_list) : process_mm :=
  mk_mm (mm_used m) (mm_refcount m) (mm_as m) l.

Record domain := mk_domain {
  d_used : bool;
  d_mm : option nat;
  minor_faults : Z;
  major_faults : Z;
}.

Definition set_d_mm (d : domain) (m : option nat) : domain :=
  mk_domain (d_used d) m (minor_faults d) (major_faults d).

Record accounting := mk_accounting {
  virtual_pages : Z;
  resident_pages : Z;
  acc_minor_faults : Z;
  acc_major_faults : Z;
}.

(** ** Checks on areas *)

Definition vma_is_shared (v : vma) : bool := used v && has (flags v) MAP_SHARED.

Definition allowed_by (v : vma) (access : vmm_access) : bool :=
  match access with
  | VMM_ACCESS_READ => has (prot v) VMM_USER_READ
  | VMM_ACCESS_WRITE => has (prot v) VMM_USER_WRITE
  | VMM_ACCESS_EXEC => has (prot v) VMM_USER_EXEC
  end.

Definition is_mappable (t : vma_type) : bool :=
  bool_decide (t = VMA_ANON) || bool_decide (t = VMA_STACK) || bool_decide (t = VMA_FILE).

Definition domain_access_allowed (v : option vma) (access : vmm_access) : bool :=
  match v with
  | None => false
  | Some v => if negb (is_mappable (type v)) then false else allowed_by v access
  end.

Definition access_allowed (v : vma) (access : vmm_access) : bool := allowed_by v access.

Definition vma_is_shared_writable_file (v : vma) : bool :=
  used v && bool_decide (type v = VMA_FILE) && has (flags v) MAP_SHARED &&
  has (prot v) VMM_USER_WRITE.

(** [for (page = start; page < end; page += PAGE_SIZE)] over any state; a body
    that returns from the function gives [inr]. *)
Definition page_step {S R} (body : Z -> S -> S + R) (exit : S -> R) (end_ : Z) (st : Z * S) : (Z * S) + R :=
  let '(page, s) := st in
  if page <? end_ then
    match body page s with inl s => inl (u64 (page + PAGE_SIZE), s) | inr r => inr r end
  else inr (exit s).

Definition page_loop {S R} (body : Z -> S -> S + R) (exit : S -> R) (start end_ : Z) (s : S) : option R :=
  iter (page_step body exit end_) (pages_fuel start end_) (start, s).

(** Copy of a local buffer into memory. *)
Fixpoint store_bytes (m : Mem.kmem) (dst : Z) (l : list Z) : Mem.kmem :=
  match l with [] => m | b :: l => store_bytes (Mem.store8 m (u64 dst) b) (dst + 1) l end.

Section Memory.
Context {V : Type} `{FileStore V}.

#[local] Notation world := (machine * V)%type (only parsing).

(** [hhdm] is the direct-map offset the VMA code was given at boot. *)
Variable hhdm : Z.

(** ** Writing shared mappings back *)

Definition flush_page (s : user_address_space) (v : vma) (page : Z) (w : world) : world + (bool * world) :=
  let file_end := u64 (file_start v + file_size v) in
  if (page <? file_start v) || (file_end <=? page) || negb (vmm_is_mapped s page w.1) then inl w else
  let pa := page_of (vmm_user_to_phys s page w.1) in
  if pa =? 0 then inl w else
  let file_off := u64 (file_offset v + (page - file_start v)) in
  let chunk := if file_end <? u64 (page + PAGE_SIZE) then file_end - page else PAGE_SIZE in
  let '(n, w) := fs_write (file_node v) file_off (u64 (hhdm_offset s + pa)) chunk w in
  if negb (n =? chunk) then inr (false, w) else inl w.

Definition flush_shared_file_vma_range (s : user_address_space) (v : vma) (start end_ : Z) (w : world) :
    option (bool * world) :=
  if negb (vma_is_shared_writable_file v) then Some (true, w) else
  let flush_start := if Vma.start v <? start then start else Vma.start v in
  let flush_end := if end_ <? Vma.end_ v then end_ else Vma.end_ v in
  page_loop (flush_page s v) (fun w => (true, w)) (page_of flush_start) flush_end w.

Fixpoint flush_from (m : process_mm) (start end_ : Z) (i n : nat) (w : world) : option (bool * world) :=
  match n with
  | O => Some (true, w)
  | S n =>
      match vma_at (mm_vmas m) i with
      | None => flush_from m start end_ (S i) n w
      | Some v =>
          if negb (used v) || (Vma.end_ v <=? start) || (end_ <=? Vma.start v)
          then flush_from m start end_ (S i) n w else
          let* (ok, w) := flush_shared_file_vma_range (mm_as m) v start end_ w in
          if negb ok then Some (false, w) else flush_from m start end_ (S i) n w
      end
  end.

Definition flush_shared_file_vmas (m : process_mm) (start end_ : Z) (w : world) : option (bool * world) :=
  if negb (mm_used m) then Some (true, w) else
  flush_from m start end_ 0 (vma_capacity (mm_vmas m)) w.

(** ** Faults on file pages *)

(** One turn of the copy loop: it leaves with true when the range is copied, with
    false when a page could not be read. *)
Definition copy_step (v : vma) (dst page copy_start copy_end : Z) (st : Z * world) :
    (Z * world) + (bool * world) :=
  let '(copied, w) := st in
  if copied <? copy_end - copy_start then
    let read_off := u64 (file_offset v + (copy_start - file_start v) + copied) in
    let file_page := page_of read_off in
    let page_off := read_off - file_page in
    let chunk := PAGE_SIZE - page_off in
    let chunk := if copy_end - copy_start - copied <? chunk then copy_end - copy_start - copied else chunk in
    let '(r, w) := fs_read_page (file_node v) file_page w in
    match r with
    | None => inr (false, w)
    | Some cached_page =>
        let bytes := take (Z.to_nat chunk) (drop (Z.to_nat page_off) cached_page) in
        let m := store_bytes (m_mem w.1) (dst + (copy_start - page) + copied) bytes in
        inl (copied + chunk, (put_mem w.1 m, w.2))
    end
  else inr (true, w).

(** A page's worth of bytes lies in at most two pages of the file. *)
Definition copy_turns : nat := 3.

Definition private_copy (s : user_address_space) (v : vma) (page page_end file_end : Z) (w : world) :
    option (bool * world) :=
  let '(pa, w) := Iface.alloc_zero_page w in
  if pa =? 0 then Some (false, w) else
  let dst := u64 (hhdm_offset s + pa) in
  let copy_start := if file_start v <? page then page else file_start v in
  let copy_end := if page_end <? file_end then page_end else file_end in
  let* (ok, w) := if copy_start <? copy_end
                  then iter (copy_step v dst page copy_start copy_end) copy_turns (0, w)
                  else Some (true, w) in
  if negb ok then Some (false, Iface.free_page pa w) else
  let '(ok, m) := vmm_map_page s page pa (prot v) w.1 in
  let w := (m, w.2) in
  if negb ok then Some (false, Iface.free_page pa w) else Some (true, w).

Definition fault_file_page (as_ : option user_address_space) (v : vma) (page : Z) (w : world) :
    option (bool * world) :=
  match as_ with
  | None => Some (false, w)
  | Some s =>
      let* readable := vmm_user_range_accessible s page 1 VMM_ACCESS_READ w.1 in
      let* present := if readable then
          (if negb (has (prot v) VMM_USER_EXEC) then Some true
           else vmm_user_range_accessible s page 1 VMM_ACCESS_EXEC w.1)
        else Some false in
      if present then Some (true, w) else
      let page_end := u64 (page + PAGE_SIZE) in
      let file_end := u64 (file_start v + file_size v) in
      if (file_start v <=? page) && (page_end <=? file_end) then
        let read_off := u64 (file_offset v + (page - file_start v)) in
        if negb (read_off .& (PAGE_SIZE - 1) =? 0) then private_copy s v page page_end file_end w else
        let '(r, w) := fs_retain_page (file_node v) read_off w in
        match r with
        | None => Some (false, w)
        | Some pa =>
            let private_writable := negb (has (flags v) MAP_SHARED) && has (prot v) VMM_USER_WRITE in
            let '(mapped, m) := if private_writable then vmm_map_page_cow s page pa (prot v) w.1
                                else vmm_map_page s page pa (prot v) w.1 in
            let w := (m, w.2) in
            if negb mapped then Some (false, Iface.free_page pa w) else Some (true, w)
        end
      else private_copy s v page page_end file_end w
  end.

(** ** The table of address spaces *)

(** The static variables of the file, the domains they are used with, and the
    domain of the running thread. *)
Record kst := mk_kst {
  k_world : world;
  process_mms : option Z;
  k_mms : list process_mm;
  k_domains : list domain;
  k_current : option nat;
}.

Definition set_world (k : kst) (w : world) : kst :=
  mk_kst w (process_mms k) (k_mms k) (k_domains k) (k_current k).
Definition set_table (k : kst) (p : option Z) (l : list process_mm) : kst :=
  mk_kst (k_world k) p l (k_domains k) (k_current k).
Definition put_mm (k : kst) (m : nat) (x : process_mm) : kst :=
  set_table k (process_mms k) (<[m := x]> (k_mms k)).
Definition put_domain (k : kst) (d : nat) (x : domain) : kst :=
  mk_kst (k_world k) (process_mms k) (k_mms k) (<[d := x]> (k_domains k)) (k_current k).

(** The kernel address of [count] zeroed elements, or [NULL]. *)
Definition alloc_table (count elem_size hhdm_offset : Z) (w : machine) : option Z * machine :=
  if (count =? 0) || (elem_size =? 0) then (None, w) else
  let bytes := u64 (count * elem_size) in
  let pages := u64 (bytes + PAGE_SIZE - 1) / PAGE_SIZE in
  let '(pa, s) := Pmm.pmm_alloc_contiguous_pages (m_pmm w) pages in
  let w := put_pmm w s in
  if pa =? 0 then (None, w) else
  let ptr := u64 (hhdm_offset + pa) in
  (Some ptr, put_mem w (Mem.kmemset (m_mem w) ptr 0 (pages * PAGE_SIZE))).

Definition cell_mm_reset (capacity hhdm_offset : Z) (k : kst) : bool * kst :=
  if (capacity =? 0) || (MAX_DOMAINS + MAX_SNAPSHOTS <? capacity) then (false, k) else
  match process_mms k with
  | Some p =>
      if Z.of_nat (length (k_mms k)) =? capacity
      then (true, set_table k (Some p) (replicate (length (k_mms k)) zero_mm))
      else
        let '(ptr, m) := alloc_table capacity sizeof_process_mm hhdm_offset (k_world k).1 in
        let k := set_world k (m, (k_world k).2) in
        match ptr with
        | None => (false, set_table k None (k_mms k))
        | Some ptr => (true, set_table k (Some ptr) (replicate (Z.to_nat capacity) zero_mm))
        end
  | None =>
      let '(ptr, m) := alloc_table capacity sizeof_process_mm hhdm_offset (k_world k).1 in
      let k := set_world k (m, (k_world k).2) in
      match ptr with
      | None => (false, k)
      | Some ptr => (true, set_table k (Some ptr) (replicate (Z.to_nat capacity) zero_mm))
      end
  end.

Definition alloc_mm (k : kst) : option nat * kst :=
  match first_from (fun i => match k_mms k !! i with Some x => negb (mm_used x) | None => false end)
          0 (length (k_mms k)) with
  | Some i => (Some i, put_mm k i (mk_mm true 1 zero_as vma_list_init))
  | None => (None, k)
  end.

(** The new entry, what the caller's two objects hold afterwards, and the state. *)
Definition cell_mm_from_owned (s : option user_address_space) (l : option vma_list) (k : kst) :
    option nat * option user_address_space * option vma_list * kst :=
  let '(mm, k) := alloc_mm k in
  match mm, s, l with
  | Some m, Some s', Some l' =>
      (Some m, Some zero_as, Some vma_list_init, put_mm k m (mk_mm true 1 s' l'))
  | Some m, _, _ => (None, s, l, put_mm k m (mk_mm false 1 zero_as vma_list_init))
  | None, _, _ => (None, s, l, k)
  end.

(** The loop that gives shared areas back their permissions. *)
Fixpoint restore_from (src dst : user_address_space) (l : vma_list) (i n : nat) (w : machine) :
    option (bool * machine) :=
  match n with
  | O => Some (true, w)
  | S n =>
      match vma_at l i with
      | None => restore_from src dst l (S i) n w
      | Some v =>
          if negb (vma_is_shared v) then restore_from src dst l (S i) n w else
          let* (ok, w) := vmm_restore_shared_range src dst (start v) (end_ v) (prot v) w in
          if negb ok then Some (false, w) else restore_from src dst l (S i) n w
      end
  end.

Definition cell_mm_clone_cow (src : option nat) (k : kst) : option (option nat * kst) :=
  match src with
  | None => Some (None, k)
  | Some src =>
      let* x := k_mms k !! src in
      if negb (mm_used x) then Some (None, k) else
      let '(mm, k) := alloc_mm k in
      match mm with
      | None => Some (None, k)
      | Some m =>
          let* (ok, dst, w) := vmm_clone_cow (mm_as x) 0 (k_world k).1 in
          let k := set_world k (w, (k_world k).2) in
          let dst := default zero_as dst in
          if negb ok then Some (None, put_mm k m (mk_mm false 1 dst vma_list_init)) else
          let* (ok, l, w) := vma_clone hhdm (mm_vmas x) (k_world k) in
          let k := set_world k w in
          if negb ok then
            let* (dst, w) := vmm_destroy dst w.1 in
            Some (None, put_mm (set_world k (w, (k_world k).2)) m (mk_mm false 1 dst l))
          else
          let* (ok, w) := restore_from (mm_as x) dst (mm_vmas x) 0 (vma_capacity (mm_vmas x)) w.1 in
          let k := set_world k (w, (k_world k).2) in
          if negb ok then
            let* (dst, w) := vmm_destroy dst w in
            let '(l, w) := vma_list_destroy l (w, (k_world k).2) in
            Some (None, put_mm (set_world k w) m (mk_mm false 1 dst l))
          else Some (Some m, put_mm k m (mk_mm true 1 dst l))
      end
  end.

Definition cell_mm_retain (m : option nat) (k : kst) : option nat * kst :=
  match m with
  | None => (None, k)
  | Some i =>
      match k_mms k !! i with
      | Some x => (m, if mm_used x then put_mm k i (set_mm_refcount x (u16 (mm_refcount x + 1))) else k)
      | None => (m, k)
      end
  end.

Definition cell_mm_release (m : option nat) (k : kst) : option kst :=
  match m with
  | None => Some k
  | Some i =>
      let* x := k_mms k !! i in
      if negb (mm_used x) || (mm_refcount x =? 0) then Some k else
      let x := set_mm_refcount x (mm_refcount x - 1) in
      if negb (mm_refcount x =? 0) then Some (put_mm k i x) else
      let* (_, w) := flush_shared_file_vmas x 0 UINT64_MAX (k_world k) in
      let* (s, m) := vmm_destroy (mm_as x) w.1 in
      let '(l, w) := vma_list_destroy (mm_vmas x) (m, w.2) in
      Some (put_mm (set_world k w) i (mk_mm false 0 s l))
  end.

Definition cell_domain_set_mm (d : option nat) (m : option nat) (k : kst) : option (bool * kst) :=
  match d, m with
  | Some d, Some m =>
      let* x := k_mms k !! m in
      if negb (mm_used x) then Some (false, k) else
      let* dom := k_domains k !! d in
      let* k := match d_mm dom with Some old => cell_mm_release (Some old) k | None => Some k end in
      let* dom := k_domains k !! d in
      Some (true, put_domain k d (set_d_mm dom (Some m)))
  | _, _ => Some (false, k)
  end.

(** [&domain->mm], [cell_domain_as] and [cell_domain_vmas]. *)
Definition domain_mm (d : option nat) (k : kst) : option nat :=
  let* i := d in let* x := k_domains k !! i in d_mm x.

Definition cell_domain_as (d : option nat) (k : kst) : option user_address_space :=
  let* m := domain_mm d k in let* x := k_mms k !! m in Some (mm_as x).

Definition cell_domain_vmas (d : option nat) (k : kst) : option vma_list :=
  let* m := domain_mm d k in let* x := k_mms k !! m in Some (mm_vmas x).

(** Store to [domain->mm->vmas]. *)
Definition put_vmas (d : option nat) (l : vma_list) (k : kst) : kst :=
  match domain_mm d k with
  | Some m => match k_mms k !! m with Some x => put_mm k m (set_mm_vmas x l) | None => k end
  | None => k
  end.

Definition note_fault (d : option nat) (major : bool) (k : kst) : kst :=
  match d with
  | None => k
  | Some i =>
      match k_domains k !! i with
      | None => k
      | Some x =>
          put_domain k i
            (if major then mk_domain (d_used x) (d_mm x) (minor_faults x) (u64 (major_faults x + 1))
             else mk_domain (d_used x) (d_mm x) (u64 (minor_faults x + 1)) (major_faults x))
      end
  end.

(** ** Growing a stack, making user ranges accessible *)

Definition cell_grow_down_vma (page required_flags : Z) (k : kst) : bool * option vma * kst :=
  let domain := k_current k in
  match cell_domain_vmas domain k with
  | None => (false, None, k)
  | Some l =>
      let '(ok, l, out) := vma_grow_down l page required_flags in
      (ok, out, if ok then put_vmas domain l k else k)
  end.

(** The area of a page: [vma_lookup], or the area grown down to it. *)
Definition area_for (l : vma_list) (page : Z) (k : kst) : option vma * kst :=
  match vma_lookup l page with
  | Some v => (Some v, k)
  | None =>
      let '(ok, grown, k) := cell_grow_down_vma page MAP_GROWSDOWN k in
      (if ok then grown else None, k)
  end.

(** The part of the loop body for a page that is not mapped. *)
Definition ensure_mapped (d : nat) (s : user_address_space) (l : vma_list) (page : Z) (access : vmm_access) (k : kst) :
    option (bool * kst) :=
  if vmm_is_mapped s page (k_world k).1 then Some (true, k) else
  let '(v, k) := area_for l page k in
  if negb (domain_access_allowed v access) then Some (false, k) else
  let* v := v in
  if bool_decide (type v = VMA_FILE) then
    let* (ok, w) := fault_file_page (Some s) v page (k_world k) in
    let k := set_world k w in
    if negb ok then Some (false, k) else Some (true, note_fault (Some d) true k)
  else
    let '(ok, m) := vmm_alloc_page s page (prot v) (k_world k).1 in
    let k := set_world k (m, (k_world k).2) in
    if negb ok then Some (false, k) else Some (true, note_fault (Some d) false k).

Definition ensure_page (d : nat) (page : Z) (access : vmm_access) (k : kst) : option (bool * kst) :=
  let* s := cell_domain_as (Some d) k in
  let* l := cell_domain_vmas (Some d) k in
  let* (ok, k) := ensure_mapped d s l page access k in
  if negb ok then Some (false, k) else
  let* fault := if bool_decide (access = VMM_ACCESS_WRITE)
                then option_map negb (vmm_user_range_accessible s page 1 VMM_ACCESS_WRITE (k_world k).1)
                else Some false in
  let '(ok, k) := if fault then
      let '(ok, m) := vmm_handle_cow_fault s page (k_world k).1 in
      let k := set_world k (m, (k_world k).2) in
      (ok, if ok then note_fault (Some d) false k else k)
    else (true, k) in
  if negb ok then Some (false, k) else
  let* ok := vmm_user_range_accessible s page 1 access (k_world k).1 in
  Some (ok, k).

Definition ensure_step (d : nat) (last : Z) (access : vmm_access) (st : Z * kst) : (Z * kst) + option (bool * kst) :=
  let '(page, k) := st in
  match ensure_page d page access k with
  | None => inr None
  | Some (false, k) => inr (Some (false, k))
  | Some (true, k) => if page =? last then inr (Some (true, k)) else inl (u64 (page + PAGE_SIZE), k)
  end.

Definition cell_domain_ensure_user_range (d : option nat) (va len : Z) (access : vmm_access) (k : kst) :
    option (bool * kst) :=
  match d with
  | None => Some (true, k)
  | Some d =>
      if len =? 0 then Some (true, k) else
      match cell_domain_as (Some d) k, cell_domain_vmas (Some d) k with
      | Some _, Some _ =>
          let end_ := u64 (va + len - 1) in
          if end_ <? va then Some (false, k) else
          let* r := iter (ensure_step d (page_of end_) access) (pages_fuel (page_of va) (page_of end_))
                      (page_of va, k) in r
      | _, _ => Some (false, k)
      end
  end.

Definition cell_ensure_user_range (va len : Z) (access : vmm_access) (k : kst) : option (bool * kst) :=
  cell_domain_ensure_user_range (k_current k) va len access k.

(** ** Fault handlers *)

Definition cell_handle_cow_fault (far : Z) (k : kst) : bool * kst :=
  let domain := k_current k in
  match cell_domain_as domain k with
  | None => (false, k)
  | Some s =>
      let '(ok, m) := vmm_handle_cow_fault s far (k_world k).1 in
      let k := set_world k (m, (k_world k).2) in
      if negb ok then (false, k) else (true, note_fault domain false k)
  end.

Definition cell_handle_translation_fault (far : Z) (access : vmm_access) (k : kst) : option (bool * kst) :=
  let domain := k_current k in
  match cell_domain_as domain k, cell_domain_vmas domain k with
  | Some s, Some l =>
      let va := page_of far in
      let '(v, k) := area_for l va k in
      match v with
      | None => Some (false, k)
      | Some v =>
          if negb (access_allowed v access) then Some (false, k) else
          let* mapped := vmm_user_range_accessible s va 1 access (k_world k).1 in
          if mapped then Some (true, k) else
          if bool_decide (type v = VMA_FILE) then
            let* (ok, w) := fault_file_page (cell_domain_as domain k) v va (k_world k) in
            let k := set_world k w in
            if negb ok then Some (false, k) else Some (true, note_fault domain true k)
          else
          if negb (bool_decide (type v = VMA_ANON)) && negb (bool_decide (type v = VMA_STACK))
          then Some (false, k) else
          let '(ok, m) := vmm_alloc_page s va (prot v) (k_world k).1 in
          let k := set_world k (m, (k_world k).2) in
          if negb ok then Some (false, k) else Some (true, note_fault domain false k)
      end
  | _, _ => Some (false, k)
  end.

Definition cell_handle_permission_fault (far : Z) (access : vmm_access) (k : kst) : option (bool * kst) :=
  let domain := k_current k in
  match cell_domain_as domain k, cell_domain_vmas domain k with
  | Some s, Some l =>
      let va := page_of far in
      match vma_lookup l va with
      | None => Some (false, k)
      | Some v =>
          if negb (access_allowed v access) || negb (vmm_is_mapped s va (k_world k).1) then Some (false, k) else
          let* m := vmm_protect_range s va (u64 (va + PAGE_SIZE)) (prot v) (k_world k).1 in
          let* ok := vmm_user_range_accessible s va 1 access m in
          Some (ok, set_world k (m, (k_world k).2))
      end
  | _, _ => Some (false, k)
  end.

(** ** The areas of the current domain *)

(** A call [f] on the areas of the current domain; false without one. *)
Definition on_vmas (f : vma_list -> world -> option (bool * vma_list * world)) (k : kst) : option (bool * kst) :=
  match cell_domain_vmas (k_current k) k with
  | None => Some (false, k)
  | Some l =>
      let* (ok, l, w) := f l (k_world k) in
      Some (ok, put_vmas (k_current k) l (set_world k w))
  end.

Definition cell_add_vma_typed (s e pr fl : Z) (ty : vma_type) (k : kst) : option (bool * kst) :=
  on_vmas (fun l w => vma_insert hhdm l s e pr fl ty w) k.

Definition cell_add_vma (s e pr fl : Z) (k : kst) : option (bool * kst) :=
  cell_add_vma_typed s e pr fl VMA_ANON k.

Definition cell_add_file_vma (s e pr fl : Z) (node : option vfs_node) (fs fo fz : Z) (k : kst) : option (bool * kst) :=
  on_vmas (fun l w => vma_insert_file hhdm l s e pr fl node fs fo fz w) k.

Definition prefault_page (d : option nat) (s : user_address_space) (pr start page : Z) (k : kst) :
    kst + option (bool * kst) :=
  if vmm_is_mapped s page (k_world k).1 then inl k else
  let '(ok, m) := vmm_alloc_page s page pr (k_world k).1 in
  if negb ok then
    inr (let* m := vmm_unmap_range s start page m in Some (false, set_world k (m, (k_world k).2)))
  else inl (note_fault d false (set_world k (m, (k_world k).2))).

Definition cell_prefault_anon_vma (start end_ : Z) (k : kst) : option (bool * kst) :=
  let domain := k_current k in
  match cell_domain_as domain k, cell_domain_vmas domain k with
  | Some s, Some l =>
      if end_ <=? start then Some (false, k) else
      match vma_lookup_range l start end_ with
      | None => Some (false, k)
      | Some v =>
          if negb (bool_decide (type v = VMA_ANON)) then Some (false, k) else
          let* r := page_loop (prefault_page domain s (prot v) start) (fun k => Some (true, k)) start end_ k in r
      end
  | _, _ => Some (false, k)
  end.

Definition cell_vma_overlaps (s e : Z) (k : kst) : bool :=
  match cell_domain_vmas (k_current k) k with None => true | Some l => vma_overlaps l s e end.

Definition cell_vma_lookup_range (s e : Z) (k : kst) : option vma :=
  let* l := cell_domain_vmas (k_current k) k in vma_lookup_range l s e.

Definition cell_remove_vma (s e : Z) (k : kst) : option (bool * kst) :=
  let domain := k_current k in
  match domain_mm domain k with
  | None => Some (false, k)
  | Some m =>
      let* x := k_mms k !! m in
      let* (ok, w) := flush_shared_file_vmas x s e (k_world k) in
      if negb ok then Some (false, set_world k w) else
      let* m' := vmm_unmap_range (mm_as x) s e w.1 in
      let* (ok, l, w) := vma_remove hhdm (mm_vmas x) s e (m', w.2) in
      Some (ok, put_vmas domain l (set_world k w))
  end.

Definition cell_sync_shared_vmas (s e : Z) (k : kst) : option (bool * kst) :=
  match domain_mm (k_current k) k with
  | None => Some (false, k)
  | Some m =>
      if e <=? s then Some (false, k) else
      let* x := k_mms k !! m in
      let* (ok, w) := flush_shared_file_vmas x s e (k_world k) in
      Some (ok, set_world k w)
  end.

Definition cell_protect_vma (s e pr : Z) (k : kst) : option (bool * kst) :=
  let domain := k_current k in
  match cell_domain_as domain k, cell_domain_vmas domain k with
  | Some sp, Some l =>
      let* (ok, l, w) := vma_protect hhdm l s e pr (k_world k) in
      let k := put_vmas domain l (set_world k w) in
      if negb ok then Some (false, k) else
      let* m := vmm_protect_range sp s e pr w.1 in
      Some (true, set_world k (m, w.2))
  | _, _ => Some (false, k)
  end.

Definition cell_resident_pages (s e : Z) (k : kst) : option Z :=
  match cell_domain_as (k_current k) k with
  | None => Some 0
  | Some sp => vmm_mapped_pages_in_range sp s e (k_world k).1
  end.

Fixpoint resident_from (sp : user_address_space) (l : vma_list) (i n : nat) (pages : Z) (w : machine) : option Z :=
  match n with
  | O => Some pages
  | S n =>
      let* v := vma_at l i in
      let* c := if used v then vmm_mapped_pages_in_range sp (start v) (end_ v) w else Some 0 in
      resident_from sp l (S i) n (u64 (pages + c)) w
  end.

Definition cell_memory_accounting (d : option nat) (k : kst) : option (option accounting) :=
  match d with
  | None => Some None
  | Some i =>
      let* x := k_domains k !! i in
      if negb (d_used x) then Some None else
      match cell_domain_as d k, cell_domain_vmas d k with
      | Some sp, Some l =>
          let* r := resident_from sp l 0 (vma_capacity l) 0 (k_world k).1 in
          Some (Some (mk_accounting (vma_virtual_pages l) r (minor_faults x) (major_faults x)))
      | _, _ => Some None
      end
  end.
End Memory.

End Memory.
