(* ===== verification/MemoryInv.v ===== *)
(** What the memory code relies on and keeps.

    [StoreLaws] states what the file system promises: it accounts for the pages
    it holds, never touches a page it does not hold, and delivers the bytes of a
    file. [Good] ties the machine, the page tables of all address spaces and the
    file system together: every reference to a page is a mapping, one of the file
    system's, or one of the [X] held by other parts of the kernel. *)

From stdpp Require Import base numbers list option gmap fin_maps.
From Stdlib Require Import ZArith Lia.
From S2P Require Import Prelude Mem Pmm PmmSpec Iface Vma VmaInv Vmm VmmInv VmmOps VmmCow VmmCopy VmmSpec Memory.
Import Vma Pmm Vmm Memory.

Definition held {V} (refs : V -> Z -> Z) (X : Z -> Z) (v : V) (q : Z) : Z := X q + refs v q.

(** ** The promises of the file system *)

(** The file system took no reference to a page that others use. *)
Definition no_grab {V} (refs : V -> Z -> Z) (L : gmap (list Z) Z) (X : Z -> Z) (v v' : V) : Prop :=
  forall q, 0 < lcount L q + X q -> refs v q = 0 -> refs v' q = 0.

Class StoreLaws (V : Type) `{FileStore V} := {
  store_ok : machine -> V -> Prop;
  store_refs : V -> Z -> Z;
  (** The byte of a file at an offset, zero past its end. *)
  file_byte : V -> vfs_node -> Z -> Z;
  store_refs_nonneg : forall v q, 0 <= store_refs v q;
  file_byte_u8 : forall v n o, is_u8 (file_byte v n o);
  store_frame : forall m m' v,
    store_ok m v -> same_cfg m m' -> (forall pa, 0 < store_refs v pa -> same_page m m' pa) -> store_ok m' v;
  retain_page_law : forall T L X m v node off r m' v',
    VmmInv.Inv m T L (held store_refs X v) -> (forall q, 0 <= X q) -> store_ok m v -> off mod PAGE_SIZE = 0 ->
    fs_retain_page node off (m, v) = (r, (m', v')) ->
    store_ok m' v' /\ keep L X m m' /\ no_grab store_refs L X v v' /\
    (forall n o, file_byte v' n o = file_byte v n o) /\
    match r with
    | None => VmmInv.Inv m' T L (held store_refs X v')
    | Some pa => pa <> 0 /\ X pa = 0 /\ VmmInv.Inv m' T L (held store_refs (fun q => X q + one pa q) v') /\
        forall j, 0 <= j < PAGE_SIZE -> page_byte m' pa j = file_byte v node (off + j)
    end;
  read_page_law : forall T L X m v node off r m' v',
    VmmInv.Inv m T L (held store_refs X v) -> (forall q, 0 <= X q) -> store_ok m v -> off mod PAGE_SIZE = 0 ->
    fs_read_page node off (m, v) = (r, (m', v')) ->
    store_ok m' v' /\ keep L X m m' /\ no_grab store_refs L X v v' /\
    (forall n o, file_byte v' n o = file_byte v n o) /\
    VmmInv.Inv m' T L (held store_refs X v') /\
    match r with
    | None => True
    | Some l => Z.of_nat (length l) = PAGE_SIZE /\
        forall j, 0 <= j < PAGE_SIZE -> nth (Z.to_nat j) l 0 = file_byte v node (off + j)
    end;
}.

Section Laws.
Context {V : Type} `{HL : StoreLaws V}.
#[local] Notation world := (machine * V)%type (only parsing).

Record Good (w : world) (T L : gmap (list Z) Z) (X : Z -> Z) : Prop := {
  g_inv : VmmInv.Inv w.1 T L (held store_refs X w.2);
  g_X : forall q, 0 <= X q;
  g_store : store_ok w.1 w.2;
}.

Lemma held_le X (v : V) q : X q <= held store_refs X v q.
Proof. unfold held. pose proof (store_refs_nonneg v q). lia. Qed.

(** An operation on the machine that keeps the pages in use. *)
Lemma good_machine w T L X m' T' L' X' :
  Good w T L X -> keep L (held store_refs X w.2) w.1 m' ->
  VmmInv.Inv m' T' L' (held store_refs X' w.2) -> (forall q, 0 <= X' q) -> Good (m', w.2) T' L' X'.
Proof.
  intros [HI HX Hs] [Hc Hk] HI' HX'. split; [done|done|]. apply (store_frame w.1); [done|done|].
  intros pa Hpa. simpl in Hpa. apply Hk. unfold held. pose proof (lcount_nonneg L pa). specialize (HX pa). lia.
Qed.

Lemma keep_held L X (v : V) w w' : keep L (held store_refs X v) w w' -> keep L X w w'.
Proof. apply keep_mono. intros pa Hpa. pose proof (held_le X v pa). lia. Qed.

Lemma held_ext X X' (v : V) w T L :
  VmmInv.Inv w T L (held store_refs X v) -> (forall q, X' q = X q) -> VmmInv.Inv w T L (held store_refs X' v).
Proof. intros HI HE. eapply inv_U_ext; [exact HI|]. intros q. unfold held. by rewrite HE. Qed.

Lemma good_ext w T L X X' : Good w T L X -> (forall q, X' q = X q) -> Good w T L X'.
Proof. intros [HI HX Hs] HE. split; [by eapply held_ext|intros q; by rewrite HE|done]. Qed.

Lemma good_alloc w T L X pa w' :
  Good w T L X -> Iface.alloc_zero_page w = (pa, w') ->
  w'.2 = w.2 /\ keep L X w.1 w'.1 /\
  (pa = 0 /\ Good w' T L X \/
   pa <> 0 /\ Good w' T L (fun q => X q + one pa q) /\ lcount L pa = 0 /\ X pa = 0 /\
   forall j, 0 <= j < PAGE_SIZE -> page_byte w'.1 pa j = 0).
Proof.
  intros HG. simpl. destruct (Vmm.alloc_zero_page w.1) as [pa1 m1] eqn:E. intros [= <- <-]. simpl. split; [done|].
  destruct (inv_alloc_cases w.1 m1 T L _ pa1 (g_inv _ _ _ _ HG) E)
    as (_ & _ & Hk & [[-> HI1]|(Hpa & HI1 & Hl & HU & _ & Hz)]); (split; [by eapply keep_held|]).
  - left. split; [done|]. apply (good_machine w T L X); [done..|apply HG].
  - right. pose proof (g_X _ _ _ _ HG) as HX. pose proof (held_le X w.2 pa1). pose proof (HX pa1). split_and!; try done.
    + apply (good_machine w T L X); [done|done| |].
      * eapply inv_U_ext; [exact HI1|]. intros q. unfold held. lia.
      * intros q. pose proof (one_range pa1 q). specialize (HX q). lia.
    + lia.
Qed.

Lemma good_free w T L X pa :
  Good w T L (fun q => X q + one pa q) -> (forall q, 0 <= X q) ->
  Good (Iface.free_page pa w) T L X /\ keep L X w.1 (Iface.free_page pa w).1.
Proof.
  intros HG HX. pose proof (g_inv _ _ _ _ HG) as HI.
  assert (1 <= held store_refs (fun q => X q + one pa q) w.2 pa) as Hpos.
  { unfold held. rewrite one_eq. pose proof (store_refs_nonneg w.2 pa). specialize (HX pa). lia. }
  assert (0 < rc w.1 pa) as Hrc.
  { rewrite (used_rc w.1 T L _ pa HI); pose proof (lcount_nonneg L pa); lia. }
  destruct (free_cases w.1 pa (inv_machine _ _ _ _ HI) Hrc) as (_ & Hc & _).
  assert (forall q, same_page w.1 (free_page pa w.1) q) as Hs.
  { intros q j Hj. unfold page_byte. destruct Hc as [-> _]. done. }
  split; [|split; [exact Hc|intros q _; apply Hs]].
  apply (good_machine w T L (fun q => X q + one pa q)); [done|split; [exact Hc|intros q _; apply Hs]| |done].
  eapply inv_U_ext; [apply inv_free; [exact HI|exact Hpos]|]. intros q. unfold held. lia.
Qed.

(** *** Mapping a page that the kernel holds *)

Lemma good_map w T L X a s cow va pa flags b m' :
  Good w T L (fun q => X q + one pa q) -> (forall q, 0 <= X q) -> as_ok w.1 T a s -> pa <> 0 -> L !! key a va = None ->
  map_page cow s va pa flags w.1 = (b, m') ->
  exists T', grows a T T' /\ keep L (fun q => X q + one pa q) w.1 m' /\
    if b then Good (m', w.2) T' (<[key a va := map_desc cow pa flags]> L) X
    else Good (m', w.2) T' L (fun q => X q + one pa q).
Proof.
  intros HG HX Has Hpa Hn E. pose proof (g_inv _ _ _ _ HG) as HI.
  destruct (inv_map_page w.1 m' T L _ a s cow va pa flags b HI Has Hpa) as (T' & Hg & Hk & Hb); [|done|].
  { unfold held. rewrite one_eq. pose proof (store_refs_nonneg w.2 pa). specialize (HX pa). lia. }
  exists T'. split; [done|]. split; [by eapply keep_held|]. destruct b; destruct Hb as [HI' _].
  - apply (good_machine w T L (fun q => X q + one pa q)); [done|done| |done].
    eapply inv_U_ext; [exact HI'|]. intros q. unfold moved, held. rewrite Hn. simpl. lia.
  - apply (good_machine w T L (fun q => X q + one pa q)); [done..|]. intros q. pose proof (one_range pa q).
    specialize (HX q). lia.
Qed.

(** A page that only [X] holds may be written. *)
Lemma good_store w T L X pa m :
  Good w T L (fun q => X q + one pa q) -> pa <> 0 -> lcount L pa = 0 -> store_refs w.2 pa = 0 -> X pa = 0 ->
  (forall x, is_u8 (m x)) ->
  (forall x, x < VmmInv.hhdm w.1 + pa \/ VmmInv.hhdm w.1 + pa + PAGE_SIZE <= x -> m x = m_mem w.1 x) ->
  Good (put_mem w.1 m, w.2) T L (fun q => X q + one pa q) /\ keep L X w.1 (put_mem w.1 m).
Proof.
  intros HG Hpa Hl Hs HX H8 Hm. pose proof HG as [HI HX' Hst]. simpl in *.
  assert (0 < rc w.1 pa) as Hrc.
  { rewrite (used_rc w.1 T L _ pa HI); unfold held; rewrite one_eq; lia. }
  destruct (rc_page w.1 pa (inv_machine _ _ _ _ HI) Hrc) as (_ & Hal & _).
  assert (Hother : forall q, 0 < rc w.1 q -> pa <> q -> same_page w.1 (put_mem w.1 m) q).
  { intros q Hq Hne. by apply (same_page_other w.1 (put_mem w.1 m) pa q (inv_machine _ _ _ _ HI) eq_refl Hm). }
  assert (Hused : forall q, 0 < lcount L q + held store_refs X w.2 q -> same_page w.1 (put_mem w.1 m) q).
  { intros q Hq. unfold held in Hq. apply Hother; [|intros <-; lia].
    pose proof (one_range pa q). rewrite (used_rc w.1 T L _ q HI); unfold held; lia. }
  split; [split; simpl; [|done|]|].
  - apply (inv_mem_change w.1); [done| |done|done|].
    + destruct (inv_machine _ _ _ _ HI). by split.
    + intros k q Hk. apply Hother; [by eapply inv_T_pos|]. intros <-.
      destruct (inv_T_rc _ _ _ _ HI _ _ Hk) as (_ & _ & _ & HU). unfold held in HU. rewrite one_eq in HU. lia.
  - apply (store_frame w.1); [done|done|]. intros q Hq. apply Hother; [|intros <-; lia].
    rewrite (used_rc w.1 T L _ q HI); unfold held; pose proof (lcount_nonneg L q); specialize (HX' q); lia.
  - split; [done|]. intros q Hq. apply Hused. pose proof (held_le X w.2 q). lia.
Qed.

(** ** Copying a file page *)

(** What the area [v] promises for the byte at [va] of a page that is not
    shared: the file's byte inside the window, zero outside. *)
Definition area_byte (st : V) (v : vma) (va : Z) : Z :=
  if bool_decide (type v = VMA_FILE) && (file_start v <=? va) && (va <? u64 (file_start v + file_size v))
  then file_byte st (file_node v) (u64 (file_offset v + (va - file_start v))) else 0.

Lemma store_bytes_spec l : forall m dst x,
  0 <= dst -> dst + Z.of_nat (length l) <= 2 ^ 64 ->
  store_bytes m dst l x =
    if (dst <=? x) && (x <? dst + Z.of_nat (length l)) then nth (Z.to_nat (x - dst)) l 0 else m x.
Proof.
  induction l as [|b l IH]; intros m dst x Hd Hl; simpl length in *; cbn [store_bytes].
  { zcases; simpl; done || lia. }
  rewrite IH, u64_small by (unfold is_u64; lia). unfold Mem.store8.
  destruct (Z.eqb_spec x dst) as [->|Hne].
  - rewrite Z.sub_diag. simpl. zcases; simpl; try lia; done.
  - destruct (Z.leb_spec (dst + 1) x); simpl.
    + replace (dst <=? x) with true by lia. simpl.
      replace (Z.to_nat (x - dst)) with (S (Z.to_nat (x - (dst + 1)))) by lia.
      replace (x <? dst + 1 + Z.of_nat (length l)) with (x <? dst + Z.of_nat (S (length l))) by (zcases; lia). done.
    + replace (dst <=? x) with false by lia. done.
Qed.

Lemma store_bytes_u8 l : forall m dst x,
  (forall y, is_u8 (m y)) -> Forall is_u8 l -> is_u8 (store_bytes m dst l x).
Proof.
  induction l as [|b l IH]; intros m dst x Hm Hl; simpl; [done|]. inversion Hl; subst.
  apply IH; [|done]. intros y. unfold Mem.store8. by case_match.
Qed.

(** The state of the copy after [copied] bytes of the window [cs, ce) of [page],
    with the new page at [pa]. *)
Record copying (w0 : world) (T L : gmap (list Z) Z) (X : Z -> Z) (v : vma) (pa page cs ce copied : Z) (w : world) :
    Prop := {
  cp_good : Good w T L (fun q => X q + one pa q);
  cp_alone : store_refs w.2 pa = 0;
  cp_keep : keep L X w0.1 w.1;
  cp_files : forall n o, file_byte w.2 n o = file_byte w0.2 n o;
  cp_range : 0 <= copied <= ce - cs;
  cp_stop : copied = 0 \/ copied = ce - cs \/ (file_offset v + (cs - file_start v) + copied) mod PAGE_SIZE = 0;
  cp_bytes : forall j, 0 <= j < PAGE_SIZE -> page_byte w.1 pa j =
    if (cs - page <=? j) && (j <? cs - page + copied)
    then file_byte w0.2 (file_node v) (u64 (file_offset v + (page + j - file_start v))) else 0;
}.

(** Bytes of one file page that follow an offset. *)
Lemma u64_in_page x k : 0 <= k < PAGE_SIZE - u64 x mod PAGE_SIZE -> u64 (x + k) = u64 x + k.
Proof. unfold u64, PAGE_SIZE. change (2 ^ 64) with 18446744073709551616. intros. dmlia. Qed.

Lemma nth_window (l : list Z) off n i :
  (i < n)%nat -> nth i (take n (drop off l)) 0 = nth (off + i) l 0.
Proof.
  intros Hi. rewrite !nth_lookup, lookup_take, lookup_drop by done.
  by rewrite decide_True by done.
Qed.

(** Writing [chunk] file bytes at [pos] of the page extends the copied window. *)
Lemma copying_store w0 T L X v pa page cs ce copied w chunk l :
  copying w0 T L X v pa page cs ce copied w -> lcount L pa = 0 -> X pa = 0 -> pa <> 0 ->
  page <= cs -> ce <= page + PAGE_SIZE -> 0 < chunk <= ce - cs - copied ->
  (copied + chunk = ce - cs \/ (file_offset v + (cs - file_start v) + copied + chunk) mod PAGE_SIZE = 0) ->
  Z.of_nat (length l) = chunk ->
  (forall i, 0 <= i < chunk -> nth (Z.to_nat i) l 0 =
     file_byte w0.2 (file_node v) (u64 (file_offset v + (cs - file_start v) + copied + i))) ->
  copying w0 T L X v pa page cs ce (copied + chunk)
    (put_mem w.1 (store_bytes (m_mem w.1) (VmmInv.hhdm w.1 + pa + (cs - page) + copied) l), w.2).
Proof.
  intros [HG Hal Hk Hf Hr Hs Hb] Hl HX Hpa Hp1 Hp2 Hc Hstop Hlen Hl'.
  pose proof (g_inv _ _ _ _ HG) as HI.
  assert (0 < rc w.1 pa) as Hrc.
  { rewrite (used_rc w.1 T L _ pa HI); unfold held; rewrite one_eq; lia. }
  destruct (rc_page w.1 pa (inv_machine _ _ _ _ HI) Hrc) as (Hpr & _ & Htop).
  destruct (m_direct w.1 (inv_machine _ _ _ _ HI)) as [Hh0 _].
  set (pos := VmmInv.hhdm w.1 + pa + (cs - page) + copied).
  assert (Hst : forall x, store_bytes (m_mem w.1) pos l x =
    if (pos <=? x) && (x <? pos + chunk) then nth (Z.to_nat (x - pos)) l 0 else m_mem w.1 x).
  { intros x. rewrite store_bytes_spec, Hlen by (unfold pos; lia). done. }
  assert (Forall is_u8 l) as H8.
  { apply Forall_lookup. intros i x Hi. pose proof (lookup_lt_Some _ _ _ Hi).
    assert (nth (Z.to_nat (Z.of_nat i)) l 0 = x) as <- by (rewrite Nat2Z.id; by apply nth_lookup_Some).
    rewrite Hl' by lia. apply file_byte_u8. }
  destruct (good_store w T L X pa (store_bytes (m_mem w.1) pos l)) as [HG' Hk']; try done.
  { intros x. apply store_bytes_u8; [apply HI|done]. }
  { intros x Hx. rewrite Hst. unfold pos in *. zcases; simpl; try done; lia. }
  split; try done; [by eapply keep_trans|lia|right; by rewrite Z.add_assoc|].
  intros j Hj. unfold page_byte at 1. change (VmmInv.hhdm (put_mem w.1 _, w.2).1) with (VmmInv.hhdm w.1).
  cbn [fst put_mem m_mem]. rewrite Hst. specialize (Hb j Hj). unfold page_byte in Hb. rewrite Hb.
  destruct (Z.leb_spec pos (VmmInv.hhdm w.1 + pa + j)) as [H1|H1], (Z.ltb_spec (VmmInv.hhdm w.1 + pa + j) (pos + chunk)) as [H2|H2];
    simpl; unfold pos in H1, H2.
  - rewrite Hl' by (unfold pos; lia). replace (cs - page <=? j) with true by lia.
    replace (j <? cs - page + (copied + chunk)) with true by lia. simpl. do 2 f_equal. unfold pos. lia.
  - replace (j <? cs - page + copied) with false by lia. replace (j <? cs - page + (copied + chunk)) with false by lia. done.
  - replace (j <? cs - page + copied) with true by lia. by replace (j <? cs - page + (copied + chunk)) with true by lia.
  - lia.
Qed.

Lemma copy_turn w0 T L X s v pa page cs ce copied w :
  hhdm_offset s = VmmInv.hhdm w0.1 -> lcount L pa = 0 -> X pa = 0 -> (forall q, 0 <= X q) -> pa <> 0 ->
  page <= cs -> ce <= page + PAGE_SIZE -> copying w0 T L X v pa page cs ce copied w -> copied < ce - cs ->
  match copy_step v (u64 (hhdm_offset s + pa)) page cs ce (copied, w) with
  | inl (copied', w') => copied < copied' /\ (copied = 0 \/ copied' = ce - cs) /\ copying w0 T L X v pa page cs ce copied' w'
  | inr (b, w') => b = false /\ Good w' T L (fun q => X q + one pa q) /\ keep L X w0.1 w'.1 /\
      forall n o, file_byte w'.2 n o = file_byte w0.2 n o
  end.
Proof.
  intros Hh Hl HX HX0 Hpa Hp1 Hp2 Hcp Hlt. pose proof Hcp as [HG Hal Hk Hf Hr Hs Hb].
  unfold copy_step. replace (copied <? ce - cs) with true by lia.
  set (x := file_offset v + (cs - file_start v) + copied) in *.
  rewrite page_of_eq by apply u64_range. set (fp := PAGE_SIZE * (u64 x / PAGE_SIZE)).
  set (po := u64 x - fp). assert (po = u64 x mod PAGE_SIZE) as Hpo by (unfold po, fp, PAGE_SIZE; dmlia).
  assert (0 <= po < PAGE_SIZE) as Hpo' by (rewrite Hpo; apply Z.mod_pos_bound; done).
  set (chunk := if ce - cs - copied <? PAGE_SIZE - po then ce - cs - copied else PAGE_SIZE - po).
  assert (chunk = Z.min (ce - cs - copied) (PAGE_SIZE - po)) as Hch by (unfold chunk; zcases; lia).
  destruct w as [m st]. destruct (fs_read_page (file_node v) fp (m, st)) as [r [m' st']] eqn:E.
  destruct (read_page_law T L (fun q => X q + one pa q) m st (file_node v) fp r m' st') as (Hok' & Hk' & Hng & Hf' & HI' & Hr');
    [apply HG|apply HG|apply HG|unfold fp, PAGE_SIZE; dmlia|done|]. simpl in *.
  assert (Hcp' : copying w0 T L X v pa page cs ce copied (m', st')).
  { split; simpl; try done.
    - split; simpl; [done|apply HG|done].
    - apply Hng; [rewrite one_eq; lia|done].
    - eapply keep_trans; [done|]. eapply keep_mono; [|done]. intros q Hq. pose proof (one_range pa q). lia.
    - intros n o. by rewrite Hf', Hf.
    - intros j Hj. destruct Hk' as [_ Hk']. rewrite (Hk' pa); [by apply Hb|rewrite one_eq; lia|done]. }
  destruct r as [l|]; [|destruct Hcp'; by split_and!]. destruct Hr' as [Hlen Hbytes].
  assert (VmmInv.hhdm m' = VmmInv.hhdm w0.1) as Hh' by (destruct (cp_keep _ _ _ _ _ _ _ _ _ _ _ Hcp') as [[? _] _]; done).
  assert (u64 (hhdm_offset s + pa) = VmmInv.hhdm m' + pa) as ->.
  { rewrite Hh, <- Hh'. apply u64_small. pose proof (g_inv _ _ _ _ (cp_good _ _ _ _ _ _ _ _ _ _ _ Hcp')) as HI2. simpl in HI2.
    destruct (rc_page m' pa (inv_machine _ _ _ _ HI2)) as (? & _ & ?).
    { rewrite (used_rc m' T L _ pa HI2); unfold held; rewrite one_eq; pose proof (store_refs_nonneg st' pa); lia. }
    destruct (m_direct m' (inv_machine _ _ _ _ HI2)). unfold is_u64. unfold PAGE_SIZE in *. lia. }
  split; [lia|]. split.
  { destruct Hs as [->|[?|Ha]]; [by left|lia|]. right. fold x in Ha.
    assert (po = 0) by (rewrite Hpo; unfold u64, PAGE_SIZE in *; change (2 ^ 64) with 18446744073709551616; dmlia). lia. }
  apply (copying_store w0 T L X v pa page cs ce copied (m', st') chunk); try done; [lia| | |].
  - destruct (Z.le_gt_cases (ce - cs - copied) (PAGE_SIZE - po)); [left; lia|right]. fold x.
    replace chunk with (PAGE_SIZE - po) by lia. rewrite Hpo. unfold u64, PAGE_SIZE.
    change (2 ^ 64) with 18446744073709551616. dmlia.
  - rewrite length_take, length_drop. lia.
  - intros i Hi. rewrite nth_window by lia. replace (Z.to_nat po + Z.to_nat i)%nat with (Z.to_nat (po + i)) by lia.
    rewrite Hbytes by lia. rewrite Hf. fold x. f_equal. rewrite u64_in_page by (rewrite <- Hpo; lia). unfold po. lia.
Qed.

(** ** Faults *)

(** What a fault at [page] of the address space [a], resolved by the area [v],
    leaves: with [b] the page is there, with the permissions and the bytes of the
    area; without, no mapping changed. No other mapping, page in use or file did. *)
Record faulted (a page : Z) (v : vma) (w : world) (T L : gmap (list Z) Z) (X : Z -> Z) (b : bool) (w' : world)
    (T' L' : gmap (list Z) Z) (X' : Z -> Z) : Prop := {
  fd_good : Good w' T' L' X';
  fd_grows : grows a T T';
  fd_keep : keep L X w.1 w'.1;
  fd_files : forall n o, file_byte w'.2 n o = file_byte w.2 n o;
  fd_held : forall q, X q <= X' q;
  fd_other : forall k, k <> key a page -> L' !! k = L !! k;
  fd_apart : forall q, 0 < X q -> lcount L q = 0 -> lcount L' q = 0;
  fd_page : if b then exists e, L' !! key a page = Some e /\ exec_bit e = has (prot v) VMM_USER_EXEC /\
                write_bit e || cow_bit e = has (prot v) VMM_USER_WRITE /\
                forall j, 0 <= j < PAGE_SIZE -> page_byte w'.1 (fr e) j = area_byte w.2 v (page + j)
            else L' !! key a page = L !! key a page;
}.

Lemma faulted_fail a page v w T L X w' T' :
  Good w' T' L X -> grows a T T' -> keep L X w.1 w'.1 -> (forall n o, file_byte w'.2 n o = file_byte w.2 n o) ->
  faulted a page v w T L X false w' T' L X.
Proof. intros. by split. Qed.

(** Mapping a page that the kernel does not hold elsewhere. *)
Lemma lcount_map_apart L X k e pa :
  L !! k = None -> fr e = pa -> X pa = 0 -> forall q, 0 < X q -> lcount L q = 0 -> lcount (<[k := e]> L) q = 0.
Proof.
  intros Hn Hf Hx q Hq Hl. rewrite lcount_insert_new, Hl by done. simpl. rewrite decide_False; [done|]. intros Hc.
  rewrite <- Hc, Hf in Hq. lia.
Qed.

(** A page the kernel holds is mapped, or given up when that fails. *)
Lemma fault_map a page v w0 T L X w s cow pa b m' :
  Good w T L (fun q => X q + one pa q) -> (forall q, 0 <= X q) -> as_ok w.1 T a s -> pa <> 0 -> L !! key a page = None ->
  keep L X w0.1 w.1 -> (forall n o, file_byte w.2 n o = file_byte w0.2 n o) ->
  (forall j, 0 <= j < PAGE_SIZE -> page_byte w.1 pa j = area_byte w0.2 v (page + j)) ->
  (cow = true -> has (prot v) VMM_USER_WRITE = true) -> X pa = 0 ->
  map_page cow s page pa (prot v) w.1 = (b, m') ->
  exists w' T' L', (if b then (m', w.2) else Iface.free_page pa (m', w.2)) = w' /\ faulted a page v w0 T L X b w' T' L' X.
Proof.
  intros HG HX Has Hpa Hn Hk Hf Hb Hcow Hxp E.
  destruct (good_map w T L X a s cow page pa (prot v) b m' HG HX Has Hpa Hn E) as (T' & Hg & Hk' & HG').
  assert (keep L X w0.1 m') as Hk2.
  { eapply keep_trans; [done|]. eapply keep_mono; [|done]. intros q Hq. pose proof (one_range pa q). lia. }
  assert (fr pa = pa) as Hfr.
  { pose proof (g_inv _ _ _ _ HG) as HI. destruct (rc_page w.1 pa (inv_machine _ _ _ _ HI)) as (? & ? & _); [|by apply fr_page].
    pose proof (lcount_nonneg L pa). pose proof (store_refs_nonneg w.2 pa). specialize (HX pa).
    rewrite (used_rc w.1 T L _ pa HI); unfold held; rewrite one_eq; lia. }
  destruct b.
  - exists (m', w.2), T', (<[key a page := map_desc cow pa (prot v)]> L). split; [done|].
    destruct (map_desc_spec cow pa (prot v)) as (_ & _ & Hd3 & Hd4 & Hd5 & Hd6).
    split; try done; [intros k Hne; by rewrite lookup_insert_ne|by apply (lcount_map_apart L X (key a page) _ pa); rewrite ?Hd3|].
    exists (map_desc cow pa (prot v)). rewrite lookup_insert_eq. split; [done|]. split; [done|]. split.
    + rewrite Hd4, Hd5. destruct cow; simpl; [by rewrite Hcow|by rewrite orb_false_r].
    + intros j Hj. rewrite Hd3, Hfr. destruct Hk' as [_ Hk']. simpl. rewrite (Hk' pa); [by apply Hb| |done].
      rewrite one_eq. pose proof (lcount_nonneg L pa). specialize (HX pa). lia.
  - destruct (good_free (m', w.2) T' L X pa HG' HX) as [HG2 Hk3]. eexists _, T', L. split; [done|].
    apply faulted_fail; [done|done| |done]. by eapply keep_trans.
Qed.

(** The copy loop ends within its turns, and then the new page has the bytes of
    the area. *)
Lemma copy_window page v w w1 T L X s pa cs ce :
  Good w1 T L (fun q => X q + one pa q) -> (forall q, 0 <= X q) -> hhdm_offset s = VmmInv.hhdm w.1 -> pa <> 0 ->
  w1.2 = w.2 -> keep L X w.1 w1.1 -> lcount L pa = 0 -> X pa = 0 -> store_refs w1.2 pa = 0 ->
  (forall j, 0 <= j < PAGE_SIZE -> page_byte w1.1 pa j = 0) -> type v = VMA_FILE -> 0 <= page ->
  cs = Z.max page (file_start v) -> ce = Z.min (page + PAGE_SIZE) (u64 (file_start v + file_size v)) ->
  exists b w2, (if cs <? ce then iter (copy_step v (u64 (hhdm_offset s + pa)) page cs ce) copy_turns (0, w1)
      else Some (true, w1)) = Some (b, w2) /\
    Good w2 T L (fun q => X q + one pa q) /\ keep L X w.1 w2.1 /\ (forall n o, file_byte w2.2 n o = file_byte w.2 n o) /\
    (b = true -> forall j, 0 <= j < PAGE_SIZE -> page_byte w2.1 pa j = area_byte w.2 v (page + j)).
Proof.
  intros HG HX Hh Hpa Hv Hk Hl Hxp Hs0 Hz Hty Hp Hcs Hce.
  assert (Harea : forall j c, 0 <= j < PAGE_SIZE -> c = ce - cs \/ ce <= cs /\ c = 0 ->
    (if (cs - page <=? j) && (j <? cs - page + c)
     then file_byte w.2 (file_node v) (u64 (file_offset v + (page + j - file_start v))) else 0) = area_byte w.2 v (page + j)).
  { intros j c Hj Hc. unfold area_byte. rewrite bool_decide_eq_true_2 by done. simpl. zcases; simpl; try done; lia. }
  destruct (Z.ltb_spec cs ce) as [Hlt|Hge].
  2:{ exists true, w1. split; [done|]. split; [done|]. split; [done|]. split; [intros n o; by rewrite Hv|].
      intros _ j Hj. rewrite Hz by done. rewrite <- (Harea j 0); [zcases; simpl; done || lia|done|by right]. }
  destruct (iter_spec (copy_step v (u64 (hhdm_offset s + pa)) page cs ce)
    (fun st => copying w T L X v pa page cs ce st.1 st.2)
    (fun st => if st.1 =? ce - cs then 0%nat else if st.1 =? 0 then 2%nat else 1%nat)
    (fun r => Good r.2 T L (fun q => X q + one pa q) /\ keep L X w.1 r.2.1 /\
       (forall n o, file_byte r.2.2 n o = file_byte w.2 n o) /\
       (r.1 = true -> forall j, 0 <= j < PAGE_SIZE -> page_byte r.2.1 pa j = area_byte w.2 v (page + j)))
    copy_turns (0, w1)) as ([b w2] & -> & HQ).
  - intros [c wc] [c' wc'] Hcp E. cbn [fst snd] in *. pose proof (cp_range _ _ _ _ _ _ _ _ _ _ _ Hcp) as Hr.
    destruct (Z.eq_dec c (ce - cs)) as [->|Hne]; [unfold copy_step in E; by rewrite Z.ltb_irrefl in E|].
    pose proof (copy_turn w T L X s v pa page cs ce c wc Hh Hl Hxp HX Hpa ltac:(lia) ltac:(lia) Hcp ltac:(lia)) as Ht.
    rewrite E in Ht. destruct Ht as (H1 & H2 & H3). split; [done|]. destruct H2 as [-> | ->]; zcases; lia.
  - intros [c wc] [b wc'] Hcp E. cbn [fst snd] in *. pose proof (cp_range _ _ _ _ _ _ _ _ _ _ _ Hcp) as Hr.
    destruct (Z.eq_dec c (ce - cs)) as [->|Hne].
    + unfold copy_step in E. rewrite Z.ltb_irrefl in E. injection E as <- <-. destruct Hcp as [G1 _ G3 G4 _ _ G7].
      split_and!; try done. intros _ j Hj. rewrite G7 by done. apply Harea; [done|by left].
    + pose proof (copy_turn w T L X s v pa page cs ce c wc Hh Hl Hxp HX Hpa ltac:(lia) ltac:(lia) Hcp ltac:(lia)) as Ht.
      rewrite E in Ht. destruct Ht as (-> & H2 & H3 & H4). by split_and!.
  - split; simpl; try done; [intros n o; by rewrite Hv|lia|by left|].
    intros j Hj. rewrite Hz by done. zcases; simpl; done || lia.
  - cbn [fst]. unfold copy_turns. repeat case_match; lia.
  - exists b, w2. split; [done|]. destruct HQ as (? & ? & ? & ?). by split_and!.
Qed.

Lemma private_copy_spec a page v w T L X s :
  Good w T L X -> as_ok w.1 T a s -> L !! key a page = None -> type v = VMA_FILE ->
  0 <= page -> page mod PAGE_SIZE = 0 ->
  exists b w' T' L', private_copy s v page (page + PAGE_SIZE) (u64 (file_start v + file_size v)) w = Some (b, w') /\
    faulted a page v w T L X b w' T' L' X.
Proof.
  intros HG Has Hn Hty Hp Hpm. unfold private_copy. pose proof (g_X _ _ _ _ HG) as HX.
  destruct (Iface.alloc_zero_page w) as [pa w1] eqn:Ea.
  destruct (good_alloc w T L X pa w1 HG Ea) as (Hv & Hk & [[-> HG1]|(Hpa & HG1 & Hl & Hxp & Hz)]).
  { simpl. exists false, w1, T, L. split; [done|]. apply faulted_fail; [done|apply grows_refl|done|]. intros n o. by rewrite Hv. }
  rewrite (proj2 (Z.eqb_neq _ _) Hpa).
  set (fe := u64 (file_start v + file_size v)).
  set (cs := if file_start v <? page then page else file_start v).
  set (ce := if page + PAGE_SIZE <? fe then page + PAGE_SIZE else fe).
  assert (Hcs : cs = Z.max page (file_start v)) by (unfold cs; zcases; lia).
  assert (Hce : ce = Z.min (page + PAGE_SIZE) fe) by (unfold ce; zcases; lia).
  assert (Hh : hhdm_offset s = VmmInv.hhdm w.1) by apply Has.
  assert (Hs0 : store_refs w1.2 pa = 0).
  { rewrite Hv. pose proof (g_inv _ _ _ _ HG) as HI. pose proof (g_inv _ _ _ _ HG1) as HI1.
    pose proof Ea as Ea'. simpl in Ea'. destruct (Vmm.alloc_zero_page w.1) as [pa2 m2] eqn:E2. injection Ea' as -> <-.
    destruct (inv_alloc_cases w.1 m2 T L _ pa HI E2) as (_ & _ & _ & [[? _]|(_ & _ & _ & HU & _)]); [done|].
    unfold held in HU. pose proof (store_refs_nonneg w.2 pa). specialize (HX pa). lia. }
  assert (Hcopy : exists b w2, (if cs <? ce then iter (copy_step v (u64 (hhdm_offset s + pa)) page cs ce) copy_turns (0, w1)
      else Some (true, w1)) = Some (b, w2) /\
    Good w2 T L (fun q => X q + one pa q) /\ keep L X w.1 w2.1 /\ (forall n o, file_byte w2.2 n o = file_byte w.2 n o) /\
    (b = true -> forall j, 0 <= j < PAGE_SIZE -> page_byte w2.1 pa j = area_byte w.2 v (page + j))).
  { by apply copy_window. }
  destruct Hcopy as (b & w2 & -> & HG2 & Hk2 & Hf2 & Hb2). simpl. destruct b; simpl.
  - specialize (Hb2 eq_refl). destruct (vmm_map_page s page pa (prot v) w2.1) as [b m'] eqn:Em.
    assert (as_ok w2.1 T a s) as Has2 by (destruct Has, Hk2 as [[] _]; split; congruence).
    destruct (fault_map a page v w T L X w2 s false pa b m' HG2 HX Has2 Hpa Hn Hk2 Hf2 Hb2 ltac:(done) Hxp Em)
      as (w' & T' & L' & Ew & Hfd).
    destruct b; simpl; eexists _, w', T', L'; (split; [by rewrite <- Ew|done]).
  - destruct (good_free w2 T L X pa HG2 HX) as [HG3 Hk3]. eexists _, _, T, L. split; [done|].
    apply faulted_fail; [done|apply grows_refl|by eapply keep_trans|done].
Qed.

Lemma accessible_page m T L U a s va access :
  VmmInv.Inv m T L U -> as_ok m T a s -> is_u64 va ->
  vmm_user_range_accessible s va 1 access m = Some (bool_decide (allows L access (key a va))).
Proof.
  intros HI Has Hva. destruct (accessible_spec m T L U a s va 1 access HI Has Hva ltac:(lia)) as (b & -> & Hb).
  f_equal. unfold is_u64 in Hva. apply eq_bool_prop_intro. rewrite !Is_true_true, Hb, bool_decide_eq_true. split.
  - intros [?|[_ Hk]]; [lia|]. rewrite <- (Z.add_0_r va). apply Hk. lia.
  - intros Hk. right. split; [lia|]. intros k Hk'. by replace (va + k) with va by lia.
Qed.

Lemma not_allowed L access k : L !! k = None -> bool_decide (allows L access k) = false.
Proof. intros Hn. apply bool_decide_eq_false. intros (e & He & _). congruence. Qed.

(** A file page is brought in. *)
Lemma fault_file_spec a page v w T L X s :
  Good w T L X -> as_ok w.1 T a s -> L !! key a page = None -> type v = VMA_FILE ->
  0 <= page -> page mod PAGE_SIZE = 0 -> page + PAGE_SIZE < 2 ^ 64 ->
  exists b w' T' L', fault_file_page (Some s) v page w = Some (b, w') /\ faulted a page v w T L X b w' T' L' X.
Proof.
  intros HG Has Hn Hty Hp Hpm Hpe. pose proof HG as [HI HX Hs]. unfold fault_file_page.
  rewrite (accessible_page w.1 T L _ a s page VMM_ACCESS_READ HI Has), not_allowed by (done || unfold is_u64, PAGE_SIZE in *; lia).
  cbn [obind]. rewrite (u64_small (page + PAGE_SIZE)) by (unfold is_u64, PAGE_SIZE in *; lia).
  pose proof (private_copy_spec a page v w T L X s HG Has Hn Hty Hp Hpm) as Hpriv.
  destruct ((file_start v <=? page) && (page + PAGE_SIZE <=? u64 (file_start v + file_size v))) eqn:Ewin; [|done].
  apply andb_true_iff in Ewin as [H1%Z.leb_le H2%Z.leb_le].
  set (x := file_offset v + (page - file_start v)).
  assert ((u64 x .& (PAGE_SIZE - 1) =? 0) = (u64 x mod PAGE_SIZE =? 0)) as ->.
  { change (PAGE_SIZE - 1) with (Z.ones 12). by rewrite Z.land_ones by lia. }
  destruct (Z.eqb_spec (u64 x mod PAGE_SIZE) 0) as [Hal|]; cbn [negb]; [|done].
  destruct w as [m st]. destruct (fs_retain_page (file_node v) (u64 x) (m, st)) as [r [m1 st1]] eqn:E. simpl in *.
  destruct (retain_page_law T L X m st (file_node v) (u64 x) r m1 st1 HI HX Hs Hal E) as (Hs1 & Hk1 & _ & Hf1 & Hr).
  destruct r as [pa|].
  2:{ exists false, (m1, st1), T, L. split; [done|]. apply faulted_fail; [by split|apply grows_refl|done|done]. }
  destruct Hr as (Hpa & Hxp & HI1 & Hbytes).
  set (cow := negb (has (flags v) MAP_SHARED) && has (prot v) VMM_USER_WRITE).
  change (if cow then vmm_map_page_cow s page pa (prot v) m1 else vmm_map_page s page pa (prot v) m1)
    with (map_page cow s page pa (prot v) m1).
  destruct (map_page cow s page pa (prot v) m1) as [b m2] eqn:Em.
  destruct (fault_map a page v (m, st) T L X (m1, st1) s cow pa b m2) as (w' & T' & L' & Ew & Hfd); try done.
  - split; simpl; [done| |done]. intros q. pose proof (one_range pa q). specialize (HX q). lia.
  - destruct Has, Hk1 as [[] _]. split; simpl; congruence.
  - intros j Hj. simpl. rewrite Hbytes by done. unfold area_byte. rewrite bool_decide_eq_true_2 by done.
    replace (file_start v <=? page + j) with true by lia. replace (page + j <? u64 (file_start v + file_size v)) with true by lia.
    simpl. f_equal. rewrite <- u64_in_page by (rewrite Hal; lia). f_equal. unfold x. lia.
  - unfold cow. intros [_ ?]%andb_true_iff. done.
  - destruct b; simpl; eexists _, w', T', L'; (split; [by rewrite <- Ew|done]).
Qed.

(** A zeroed page is brought in; when no table can be made for it, the page that
    was allocated for it stays among the pages held. *)
Lemma fault_anon_spec a page v w T L X s b m' :
  Good w T L X -> as_ok w.1 T a s -> L !! key a page = None -> type v <> VMA_FILE ->
  vmm_alloc_page s page (prot v) w.1 = (b, m') ->
  exists T' L' X', faulted a page v w T L X b (m', w.2) T' L' X'.
Proof.
  intros HG Has Hn Hty E. pose proof HG as [HI HX Hs].
  destruct (inv_alloc_page w.1 m' T L _ a s page (prot v) b HI Has Hn E) as (T' & Hg & Hk & Hb).
  assert (forall n o, file_byte (m', w.2).2 n o = file_byte w.2 n o) as Hf by done.
  pose proof (keep_held _ _ _ _ _ Hk) as Hk'. destruct b.
  - destruct Hb as (pa & Hfr & HU & _ & HI' & Hz). exists T', (<[key a page := map_desc false pa (prot v)]> L), X.
    destruct (map_desc_spec false pa (prot v)) as (_ & _ & Hd3 & Hd4 & Hd5 & Hd6).
    assert (X pa = 0) as Hxp by (pose proof (held_le X w.2 pa); specialize (HX pa); lia).
    split; try done; [by apply (good_machine w T L X)|intros k Hne; by rewrite lookup_insert_ne|
      apply (lcount_map_apart L X (key a page) _ pa); [done|congruence|done]|].
    eexists. rewrite lookup_insert_eq. split; [done|]. split; [done|]. split; [by rewrite Hd4, Hd5, orb_false_r|].
    intros j Hj. unfold area_byte. rewrite bool_decide_eq_false_2 by done. cbn [andb fst].
    rewrite Hd3, Hfr. by apply Hz.
  - destruct Hb as [[_ HI']|(pa & Hpa & _ & _ & HI')].
    + exists T', L, X. apply faulted_fail; [by apply (good_machine w T L X)|done|done|done].
    + exists T', L, (fun q => X q + one pa q). split; try done.
      * apply (good_machine w T L X); [done|done| |].
        -- eapply inv_U_ext; [exact HI'|]. intros q. unfold held. lia.
        -- intros q. pose proof (one_range pa q). specialize (HX q). lia.
      * intros q. pose proof (one_range pa q). lia.
Qed.
End Laws.
