(* ===== verification/MemoryOps.v ===== *)
(** Faults and user ranges: the handlers of [kernel/src/proc/memory.c] on a
    system of address spaces. *)

From stdpp Require Import base numbers list option gmap fin_maps.
From Stdlib Require Import ZArith Lia.
From S2P Require Import Prelude Mem Pmm PmmSpec Iface Vma VmaInv VmaOps Vmm VmmInv VmmOps VmmCow VmmCopy VmmSpec Memory MemoryInv.
Import Vma Pmm Vmm Memory.

Module MemoryOps.

#[local] Arguments fault_file_page : simpl never.

Section Ops.
Context {V : Type} `{HL : StoreLaws V}.
#[local] Notation world := (machine * V)%type (only parsing).
#[local] Notation kst := (kst (V := V)) (only parsing).

(** ** The system *)

(** Every address space in use is one of the page tables of the machine, with a
    well-formed list of areas; a domain has an address space in use. The address
    space of entry [i] has the number [i]. *)
Record Sys (k : kst) (T L : gmap (list Z) Z) (X : Z -> Z) : Prop := {
  sy_good : Good (k_world k) T L X;
  sy_mm : forall i x, k_mms k !! i = Some x -> mm_used x = true ->
    as_ok (k_world k).1 T (Z.of_nat i) (mm_as x) /\ VmaInv.Inv (mm_vmas x);
  sy_dom : forall d x m, k_domains k !! d = Some x -> d_mm x = Some m ->
    exists y, k_mms k !! m = Some y /\ mm_used y = true;
}.

(** The domain [d] has the entry [m], which holds [x]. *)
Definition owns (k : kst) (d : option nat) (m : nat) (x : process_mm) : Prop :=
  domain_mm d k = Some m /\ k_mms k !! m = Some x /\ mm_used x = true.

Lemma owns_as (k : kst) d m x : owns k d m x -> cell_domain_as d k = Some (mm_as x) /\ cell_domain_vmas d k = Some (mm_vmas x).
Proof. intros (H1 & H2 & _). unfold cell_domain_as, cell_domain_vmas. rewrite H1. simpl. by rewrite H2. Qed.

Lemma sys_owns k T L X d :
  Sys k T L X -> is_Some (domain_mm d k) -> exists m x, owns k d m x.
Proof.
  intros HS [m Hm]. unfold domain_mm in Hm. destruct d as [i|]; [|done]. simpl in Hm.
  destruct (k_domains k !! i) as [dm|] eqn:Ed; [|done]. simpl in Hm.
  destruct (sy_dom _ _ _ _ HS i dm m Ed Hm) as (y & Hy & Hu). exists m, y. split; [|done].
  unfold domain_mm. simpl. by rewrite Ed.
Qed.

(** Only the machine and the file system change. *)
Lemma sys_world k T L X w' T' L' X' a :
  Sys k T L X -> Good w' T' L' X' -> grows a T T' -> same_cfg (k_world k).1 w'.1 -> Sys (set_world k w') T' L' X'.
Proof.
  intros [HG Hmm Hd] HG' Hg Hc. split; simpl; [done| |done]. intros i x Hi Hu. destruct (Hmm i x Hi Hu) as [Ha Hv].
  split; [by eapply as_ok_grows|done].
Qed.

Lemma domain_mm_ext (k k' : kst) d :
  (forall i, d_mm <$> k_domains k' !! i = d_mm <$> k_domains k !! i) -> domain_mm d k' = domain_mm d k.
Proof.
  intros He. unfold domain_mm. destruct d as [i|]; [|done]. simpl. specialize (He i).
  destruct (k_domains k' !! i), (k_domains k !! i); simpl in *; congruence.
Qed.

Lemma note_fault_mm d b (k : kst) i :
  d_mm <$> k_domains (note_fault d b k) !! i = d_mm <$> k_domains k !! i.
Proof.
  unfold note_fault. destruct d as [j|]; [|done]. destruct (k_domains k !! j) as [x|] eqn:E; [|done]. simpl.
  destruct (decide (i = j)) as [->|Hne]; [|by rewrite list_lookup_insert_ne].
  rewrite list_lookup_insert_eq by (by eapply lookup_lt_Some). rewrite E. simpl. by destruct b.
Qed.

Lemma note_fault_same d b (k : kst) :
  k_world (note_fault d b k) = k_world k /\ k_mms (note_fault d b k) = k_mms k /\
  k_current (note_fault d b k) = k_current k.
Proof. unfold note_fault. destruct d as [j|]; [|done]. by destruct (k_domains k !! j). Qed.

Lemma sys_note d b k T L X : Sys k T L X -> Sys (note_fault d b k) T L X.
Proof.
  intros [HG Hmm Hd]. destruct (note_fault_same d b k) as (Hw & Hm & _). split; rewrite ?Hw, ?Hm; [done|done|].
  intros i x m Hi Hx. pose proof (note_fault_mm d b k i) as He. rewrite Hi in He. simpl in He.
  destruct (k_domains k !! i) as [y|] eqn:Ey; [|done]. simpl in He. apply (Hd i y m Ey). congruence.
Qed.

Lemma owns_note d b (k : kst) d' m x : owns (note_fault d b k) d' m x <-> owns k d' m x.
Proof.
  unfold owns. destruct (note_fault_same d b k) as (_ & -> & _).
  by rewrite (domain_mm_ext k (note_fault d b k)) by apply note_fault_mm.
Qed.

(** ** The area of a page *)

(** After [area_for] the areas of the current domain may have grown; nothing
    else changed, and the area found covers the page. *)
Record areas_grown (k k' : kst) (page : Z) : Prop := {
  ag_world : k_world k' = k_world k;
  ag_domains : k_domains k' = k_domains k;
  ag_current : k_current k' = k_current k;
  ag_table : process_mms k' = process_mms k;
  ag_mms : k_mms k' = k_mms k \/
    exists m x l out, owns k (k_current k) m x /\
      grown (mm_vmas x) l page MAP_GROWSDOWN out /\
      k_mms k' = <[m := set_mm_vmas x l]> (k_mms k);
}.

Lemma areas_grown_refl (k : kst) page : areas_grown k k page.
Proof. split; auto. Qed.

Lemma sys_put_vmas k T L X m x l :
  Sys k T L X -> k_mms k !! m = Some x -> VmaInv.Inv l -> Sys (put_mm k m (set_mm_vmas x l)) T L X.
Proof.
  intros [HG Hmm Hd] Hx Hl. pose proof (lookup_lt_Some _ _ _ Hx) as Hlt. split; simpl; [done| |].
  - intros i y Hi Hu. destruct (decide (i = m)) as [->|Hne].
    + rewrite list_lookup_insert_eq in Hi by done. injection Hi as <-. simpl in *. split; [by apply Hmm|done].
    + rewrite list_lookup_insert_ne in Hi by done. by apply Hmm.
  - intros d y j Hy Hj. destruct (Hd d y j Hy Hj) as (z & Hz & Hu). destruct (decide (j = m)) as [->|Hne].
    + rewrite list_lookup_insert_eq by done. exists (set_mm_vmas x l). split; [done|]. simpl. congruence.
    + rewrite list_lookup_insert_ne by done. by exists z.
Qed.

Lemma area_for_spec k T L X l page :
  Sys k T L X -> VmaInv.Inv l ->
  exists o k', area_for l page k = (o, k') /\ Sys k' T L X /\ areas_grown k k' page /\
    (forall v, vma_lookup l page = Some v -> o = Some v /\ k' = k) /\
    (vma_lookup l page = None -> cell_domain_vmas (k_current k) k = Some l -> forall v, o = Some v ->
       exists m x l', owns k (k_current k) m x /\ k_mms k' = <[m := set_mm_vmas x l']> (k_mms k) /\
         VmaInv.Inv l' /\ grown l l' page MAP_GROWSDOWN o).
Proof.
  intros HS Hl. unfold area_for. destruct (vma_lookup l page) as [v|] eqn:El.
  { exists (Some v), k. split; [done|]. split; [done|]. split; [apply areas_grown_refl|]. split; [|done].
    intros v' [= <-]. done. }
  unfold cell_grow_down_vma. destruct (cell_domain_vmas (k_current k) k) as [lc|] eqn:Ec.
  2:{ exists None, k. split; [done|]. split; [done|]. split; [apply areas_grown_refl|]. by split. }
  assert (is_Some (domain_mm (k_current k) k)) as Hm.
  { unfold cell_domain_vmas in Ec. destruct (domain_mm (k_current k) k); [by eexists|done]. }
  destruct (sys_owns k T L X _ HS Hm) as (m & x & Ho). destruct (owns_as _ _ _ _ Ho) as [_ E]. rewrite E in Ec. injection Ec as <-.
  destruct (vma_grow_down (mm_vmas x) page MAP_GROWSDOWN) as [[ok l'] out] eqn:Eg.
  destruct (sy_mm _ _ _ _ HS m x) as [_ Hx]; [apply Ho..|].
  destruct (grow_down_list _ _ _ _ _ _ Hx Eg) as [Hl' Hok]. destruct ok.
  - assert (put_vmas (k_current k) l' k = put_mm k m (set_mm_vmas x l')) as ->.
    { destruct Ho as (H1 & H2 & _). unfold put_vmas. by rewrite H1, H2. }
    exists out, (put_mm k m (set_mm_vmas x l')). split; [done|]. split; [apply sys_put_vmas; [done|apply Ho|done]|].
    split; [split; auto; right; by exists m, x, l', out|]. split; [done|].
    intros _ [= <-] v ->. by exists m, x, l'.
  - exists None, k. split; [done|]. split; [done|]. split; [apply areas_grown_refl|]. by split.
Qed.

(** The handler of translation faults in the current address space. *)
Record resolved (k : kst) (T L : gmap (list Z) Z) (X : Z -> Z) (m : nat) (page : Z) (access : vmm_access) (b : bool)
    (k' : kst) (T' L' : gmap (list Z) Z) (X' : Z -> Z) : Prop := {
  rs_sys : Sys k' T' L' X';
  rs_keep : keep L X (k_world k).1 (k_world k').1;
  rs_files : forall n o, file_byte (k_world k').2 n o = file_byte (k_world k).2 n o;
  rs_held : forall q, X q <= X' q;
  rs_other : forall j, j <> key (Z.of_nat m) page -> L' !! j = L !! j;
  rs_page : if b
    then exists x' v e, k_mms k' !! m = Some x' /\ vma_lookup (mm_vmas x') page = Some v /\ access_allowed v access = true /\
      L' !! key (Z.of_nat m) page = Some e /\ exec_bit e = has (prot v) VMM_USER_EXEC /\
      write_bit e || cow_bit e = has (prot v) VMM_USER_WRITE /\
      forall j, 0 <= j < PAGE_SIZE -> page_byte (k_world k').1 (fr e) j = area_byte (k_world k).2 v (page + j)
    else L' !! key (Z.of_nat m) page = None;
}.

Lemma resolved_fail k T L X m page access k' :
  Sys k' T L X -> areas_grown k k' page -> L !! key (Z.of_nat m) page = None ->
  resolved k T L X m page access false k' T L X.
Proof. intros HS Ha Hn. split; rewrite ?(ag_world _ _ _ Ha); auto with spore; done. Qed.

(** A fault in the machine that the area [v] resolved. *)
Lemma resolved_fault k T L X m page access k1 v b w' T' L' X' major x' :
  Sys k1 T L X -> areas_grown k k1 page -> L !! key (Z.of_nat m) page = None ->
  k_mms k1 !! m = Some x' -> vma_lookup (mm_vmas x') page = Some v -> access_allowed v access = true ->
  faulted (Z.of_nat m) page v (k_world k1) T L X b w' T' L' X' ->
  resolved k T L X m page access b
    (if b then note_fault (k_current k) major (set_world k1 w') else set_world k1 w') T' L' X'.
Proof.
  intros HS Ha Hn Hx Hl Hacc [F1 F2 F3 F4 F5 F6 _ F7].
  assert (HS' : Sys (set_world k1 w') T' L' X') by (eapply sys_world; [done..|apply F3]).
  rewrite (ag_world _ _ _ Ha) in *. destruct b.
  - destruct (note_fault_same (k_current k) major (set_world k1 w')) as (Hw & Hm & _).
    split; rewrite ?Hw, ?Hm; try done; [by apply sys_note|].
    destruct F7 as (e & H1 & H2 & H3 & H4). by exists x', v, e.
  - split; try done. simpl. congruence.
Qed.

Lemma translation_fault_spec k T L X m x far access :
  Sys k T L X -> owns k (k_current k) m x -> is_u64 far -> page_of far + PAGE_SIZE < 2 ^ 64 ->
  L !! key (Z.of_nat m) (page_of far) = None ->
  exists b k' T' L' X', cell_handle_translation_fault far access k = Some (b, k') /\
    resolved k T L X m (page_of far) access b k' T' L' X'.
Proof.
  intros HS Ho Hfar Hend Hn. unfold cell_handle_translation_fault.
  destruct (owns_as _ _ _ _ Ho) as [-> ->]. set (page := page_of far) in *.
  assert (Hpg : 0 <= page /\ page mod PAGE_SIZE = 0).
  { unfold page. rewrite page_of_eq by done. unfold is_u64, PAGE_SIZE in *. split; dmlia. }
  destruct (sy_mm _ _ _ _ HS m x) as [Has Hl]; [apply Ho..|].
  destruct (area_for_spec k T L X (mm_vmas x) page HS Hl) as (o & k1 & -> & HS1 & Hag & Hfound & Hgrow).
  destruct o as [v|]; [|exists false, k1, T, L, X; split; [done|by apply resolved_fail]].
  destruct (access_allowed v access) eqn:Hacc; simpl; [|exists false, k1, T, L, X; split; [done|by apply resolved_fail]].
  assert (Hx' : exists x', k_mms k1 !! m = Some x' /\ vma_lookup (mm_vmas x') page = Some v /\ mm_as x' = mm_as x /\ mm_used x' = true).
  { destruct (vma_lookup (mm_vmas x) page) as [u|] eqn:El.
    - destruct (Hfound u eq_refl) as [[= <-] ->]. exists x. destruct Ho as (_ & ? & ?). by split_and!.
    - destruct (Hgrow eq_refl (proj2 (owns_as _ _ _ _ Ho)) v eq_refl) as (m' & y & l' & Ho' & Hk1 & Hl' & Hg).
      assert (m' = m) as -> by (destruct Ho as (H1 & _), Ho' as (H2 & _); congruence).
      assert (y = x) as -> by (destruct Ho as (_ & H1 & _), Ho' as (_ & H2 & _); congruence).
      exists (set_mm_vmas x l'). rewrite Hk1, list_lookup_insert_eq by (destruct Ho as (_ & ? & _); by eapply lookup_lt_Some).
      split; [done|]. split; [exact (grown_lookup _ _ _ _ _ Hl Hl' Hg)|]. split; [done|apply Ho]. }
  destruct Hx' as (x' & Hx' & Hlk & Has' & Hu').
  pose proof (ag_world _ _ _ Hag) as Hw. pose proof (sy_good _ _ _ _ HS1) as HG1.
  destruct (sy_mm _ _ _ _ HS1 m x' Hx' Hu') as [Hasok _]. rewrite Has' in Hasok.
  rewrite (accessible_page _ T L _ (Z.of_nat m) _ page access (g_inv _ _ _ _ HG1) Hasok), not_allowed
    by (done || unfold is_u64, PAGE_SIZE in *; lia). cbn [obind].
  pose proof (fun b w' T' L' X' mj => resolved_fault k T L X m page access k1 v b w' T' L' X' mj x' HS1 Hag Hn Hx' Hlk Hacc) as Hres.
  destruct (bool_decide_reflect (type v = VMA_FILE)) as [Hty|Hty].
  - assert (cell_domain_as (k_current k) k1 = Some (mm_as x)) as ->.
    { destruct Ho as (H1 & _). unfold cell_domain_as.
      rewrite (domain_mm_ext k k1) by (intros i; by rewrite (ag_domains _ _ _ Hag)).
      rewrite H1. simpl. rewrite Hx'. simpl. by rewrite Has'. }
    destruct (fault_file_spec (Z.of_nat m) page v (k_world k1) T L X (mm_as x) HG1 Hasok Hn Hty) as (b & w' & T' & L' & -> & Hfd);
      [lia|lia|lia|]. simpl. specialize (Hres b w' T' L' X true Hfd).
    destruct b; simpl; eexists _, _, T', L', X; (split; [done|done]).
  - destruct (negb (bool_decide (type v = VMA_ANON)) && negb (bool_decide (type v = VMA_STACK))) eqn:Ety.
    { exfalso. by destruct (type v). }
    destruct (vmm_alloc_page (mm_as x) page (prot v) (k_world k1).1) as [b m'] eqn:Em.
    destruct (fault_anon_spec (Z.of_nat m) page v (k_world k1) T L X (mm_as x) b m' HG1 Hasok Hn Hty Em) as (T' & L' & X' & Hfd).
    specialize (Hres b _ T' L' X' false Hfd).
    destruct b; simpl; eexists _, _, T', L', X'; (split; [done|done]).
Qed.

(** ** Making user ranges accessible *)

(** A mapping that is unchanged or became private and writable. *)
Definition kept_leaf (e e' : Z) : Prop :=
  e' = e \/ cow_bit e = true /\ cow_bit e' = false /\ write_bit e' = true /\ exec_bit e' = exec_bit e.

(** A page of the area [v] at [p]: its permissions and its bytes. *)
Record area_page (st : V) (w : machine) (v : vma) (p e : Z) : Prop := {
  ap_exec : exec_bit e = has (prot v) VMM_USER_EXEC;
  ap_write : write_bit e || cow_bit e = has (prot v) VMM_USER_WRITE;
  ap_bytes : forall j, 0 <= j < PAGE_SIZE -> page_byte w (fr e) j = area_byte st v (p + j);
}.

(** From [k] to [k'] the pages [P] of the address space [m] were made present and
    private. No mapping lost its bytes, every new one shows what an area of the
    address space promises, other address spaces, files and pages held by the
    kernel are as before, and areas only grew. *)
Record ensured (k : kst) (T L : gmap (list Z) Z) (X : Z -> Z) (m : nat) (P : Z -> Prop) (k' : kst)
    (T' L' : gmap (list Z) Z) (X' : Z -> Z) : Prop := {
  es_sys : Sys k' T' L' X';
  es_cur : k_current k' = k_current k;
  es_dom : forall d, domain_mm d k' = domain_mm d k;
  es_mms : forall i, i <> m -> k_mms k' !! i = k_mms k !! i;
  es_mm : forall x, k_mms k !! m = Some x -> exists l', k_mms k' !! m = Some (set_mm_vmas x l') /\
    forall va a, Maps (mm_vmas x) va a -> Maps l' va a;
  es_files : forall n o, file_byte (k_world k').2 n o = file_byte (k_world k).2 n o;
  es_held : forall q, X q <= X' q;
  es_cfg : same_cfg (k_world k).1 (k_world k').1;
  es_keep : forall pa, 0 < X pa -> same_page (k_world k).1 (k_world k').1 pa;
  es_apart : forall q, 0 < X q -> lcount L q = 0 -> lcount L' q = 0;
  es_other : forall j, (forall p, P p -> j <> key (Z.of_nat m) p) -> L' !! j = L !! j;
  es_data : forall j e, L !! j = Some e -> exists e', L' !! j = Some e' /\ kept_leaf e e' /\
    forall i, 0 <= i < PAGE_SIZE -> page_byte (k_world k').1 (fr e') i = page_byte (k_world k).1 (fr e) i;
  es_new : forall j e', L !! j = None -> L' !! j = Some e' ->
    exists p x v, P p /\ j = key (Z.of_nat m) p /\ k_mms k' !! m = Some x /\ Maps (mm_vmas x) p (attr_of v) /\
      area_page (k_world k).2 (k_world k').1 v p e';
}.

Lemma kept_leaf_trans e e1 e2 : kept_leaf e e1 -> kept_leaf e1 e2 -> kept_leaf e e2.
Proof.
  intros [->|(H1 & H2 & H3 & H4)]; [done|]. intros [->|(H5 & _)]; [by right|congruence].
Qed.

Lemma set_vmas_same x : set_mm_vmas x (mm_vmas x) = x.
Proof. by destruct x. Qed.

Lemma ensured_refl k T L X m P : Sys k T L X -> ensured k T L X m P k T L X.
Proof.
  intros HS. split; try done.
  - intros x Hx. exists (mm_vmas x). by rewrite set_vmas_same.
  - intros j e He. exists e. split; [done|]. split; [by left|done].
  - intros j e H1 H2. congruence.
Qed.

Lemma ensured_mono k T L X m (P Q : Z -> Prop) k' T' L' X' :
  (forall p, P p -> Q p) -> ensured k T L X m P k' T' L' X' -> ensured k T L X m Q k' T' L' X'.
Proof.
  intros HPQ [E1 E2 E3 E4 E5 E6 E7 E8 E9 EA E10 E11 E12]. split; try done.
  - intros j Hj. apply E10. auto.
  - intros j e' H1 H2. destruct (E12 j e' H1 H2) as (p & x & v & Hp & ?). exists p, x, v. split; [auto|done].
Qed.

Lemma area_byte_ext st st' v va :
  (forall n o, file_byte st' n o = file_byte st n o) -> area_byte st' v va = area_byte st v va.
Proof. intros Hf. unfold area_byte. by rewrite Hf. Qed.

Lemma ensured_trans k T L X m P k1 T1 L1 X1 Q k2 T2 L2 X2 :
  ensured k T L X m P k1 T1 L1 X1 -> ensured k1 T1 L1 X1 m Q k2 T2 L2 X2 ->
  ensured k T L X m (fun p => P p \/ Q p) k2 T2 L2 X2.
Proof.
  intros [E1 E2 E3 E4 E5 E6 E7 E8 E9 EA E10 E11 E12] [F1 F2 F3 F4 F5 F6 F7 F8 F9 FA F10 F11 F12]. split.
  - done.
  - congruence.
  - intros d. by rewrite F3.
  - intros i Hi. by rewrite F4, E4.
  - intros x Hx. destruct (E5 x Hx) as (l1 & Hl1 & HM1). destruct (F5 _ Hl1) as (l2 & Hl2 & HM2).
    exists l2. split; [done|]. intros va a Ha. apply HM2. by apply HM1.
  - intros n o. by rewrite F6.
  - intros q. specialize (E7 q). specialize (F7 q). lia.
  - destruct E8, F8. split; congruence.
  - intros pa Hpa i Hi. specialize (E7 pa). rewrite (F9 pa) by (lia || done). by apply E9.
  - intros q Hq Hl. apply FA; [specialize (E7 q); lia|by apply EA].
  - intros j Hj. rewrite F10, E10; [done|..]; intros p Hp; apply Hj; auto.
  - intros j e He. destruct (E11 j e He) as (e1 & H1 & K1 & B1). destruct (F11 j e1 H1) as (e2 & H2 & K2 & B2).
    exists e2. split; [done|]. split; [by eapply kept_leaf_trans|]. intros i Hi. by rewrite B2, B1.
  - intros j e2 Hj He2. destruct (L1 !! j) as [e1|] eqn:H1.
    + destruct (E12 j e1 Hj H1) as (p & x & v & Hp & Hk & Hx & HM & [A1 A2 A3]).
      destruct (F11 j e1 H1) as (e2' & H2 & K2 & B2). rewrite He2 in H2. injection H2 as <-.
      destruct (F5 x Hx) as (l2 & Hl2 & HM2). exists p, (set_mm_vmas x l2), v. split; [by left|]. split; [done|].
      split; [done|]. split; [by apply HM2|]. split.
      * destruct K2 as [->|(_ & _ & _ & ->)]; done.
      * destruct K2 as [->|(C1 & C2 & C3 & _)]; [done|]. rewrite <- A2, C1, C2, C3. by destruct (write_bit e1).
      * intros i Hi. by rewrite B2, A3.
    + destruct (F12 j e2 H1 He2) as (p & x & v & Hp & Hk & Hx & HM & [A1 A2 A3]).
      exists p, x, v. split; [by right|]. split_and!; try done. split; [done|done|]. intros i Hi. rewrite A3 by done.
      by apply area_byte_ext.
Qed.

Lemma grown_maps l l' page fl out va a : grown l l' page fl out -> Maps l va a -> Maps l' va a.
Proof.
  intros (i & v & _ & _ & _ & _ & _ & Hno & HM) Ha. apply HM. destruct (within page (start v) va) eqn:E; [|done].
  unfold within in E. rewrite andb_true_iff, Z.leb_le, Z.ltb_lt in E. exfalso. by apply (Hno va a).
Qed.

Lemma ensured_area k T L X m x page k1 :
  Sys k T L X -> Sys k1 T L X -> owns k (k_current k) m x -> areas_grown k k1 page ->
  ensured k T L X m (fun _ => False) k1 T L X.
Proof.
  intros HS HS1 Ho [A1 A2 A3 _ A5].
  assert (Hcases : k_mms k1 = k_mms k \/
    exists l out, grown (mm_vmas x) l page MAP_GROWSDOWN out /\ k_mms k1 = <[m := set_mm_vmas x l]> (k_mms k)).
  { destruct A5 as [?|(m' & y & l & out & Ho' & Hg & Hk)]; [by left|right].
    assert (m' = m) as -> by (destruct Ho as (H1 & _), Ho' as (H2 & _); congruence).
    assert (y = x) as -> by (destruct Ho as (_ & H1 & _), Ho' as (_ & H2 & _); congruence). by exists l, out. }
  split; rewrite ?A1; try done.
  - intros d. apply domain_mm_ext. intros j. by rewrite A2.
  - intros j Hj. destruct Hcases as [->|(l & out & _ & ->)]; [done|]. by rewrite list_lookup_insert_ne.
  - intros y Hy. assert (y = x) as -> by (destruct Ho as (_ & H1 & _); congruence).
    destruct Hcases as [->|(l & out & Hg & ->)]; [exists (mm_vmas x); by rewrite set_vmas_same|].
    exists l. rewrite list_lookup_insert_eq by (by eapply lookup_lt_Some). split; [done|].
    intros va a. by eapply grown_maps.
  - intros j e He. exists e. split; [done|]. split; [by left|done].
  - intros j e H1 H2. congruence.
Qed.

(** Steps in which only the machine, the file system and the counters change. *)
Lemma ensured_world k T L X m P w' T' L' X' d mj :
  Sys k T L X -> Good w' T' L' X' -> grows (Z.of_nat m) T T' -> same_cfg (k_world k).1 w'.1 ->
  (forall n o, file_byte w'.2 n o = file_byte (k_world k).2 n o) -> (forall q, X q <= X' q) ->
  (forall pa, 0 < X pa -> same_page (k_world k).1 w'.1 pa) ->
  (forall q, 0 < X q -> lcount L q = 0 -> lcount L' q = 0) ->
  (forall j, (forall p, P p -> j <> key (Z.of_nat m) p) -> L' !! j = L !! j) ->
  (forall j e, L !! j = Some e -> exists e', L' !! j = Some e' /\ kept_leaf e e' /\
     forall i, 0 <= i < PAGE_SIZE -> page_byte w'.1 (fr e') i = page_byte (k_world k).1 (fr e) i) ->
  (forall j e', L !! j = None -> L' !! j = Some e' ->
     exists p x v, P p /\ j = key (Z.of_nat m) p /\ k_mms k !! m = Some x /\ Maps (mm_vmas x) p (attr_of v) /\
       area_page (k_world k).2 w'.1 v p e') ->
  forall k', k' = set_world k w' \/ k' = note_fault d mj (set_world k w') -> ensured k T L X m P k' T' L' X'.
Proof.
  intros HS HG Hg Hc Hf Hh Hp Hap Ho Hd Hn k' Hk'.
  assert (HS1 : Sys (set_world k w') T' L' X') by by eapply sys_world.
  assert (Hsame : k_world k' = w' /\ k_mms k' = k_mms k /\ k_current k' = k_current k /\
    (forall i, d_mm <$> k_domains k' !! i = d_mm <$> k_domains k !! i) /\ Sys k' T' L' X').
  { destruct Hk' as [-> | ->]; [done|].
    destruct (note_fault_same d mj (set_world k w')) as (-> & -> & ->). split_and!; try done.
    - intros j. by rewrite note_fault_mm.
    - by apply sys_note. }
  destruct Hsame as (Hw & Hm & Hcur & Hdm & HS'). split; rewrite ?Hw, ?Hm; try done.
  - intros d'. by apply domain_mm_ext.
  - intros x Hx. exists (mm_vmas x). by rewrite set_vmas_same.
Qed.

Lemma ensured_fault k T L X m x page v b w' T' L' X' d mj :
  Sys k T L X -> k_mms k !! m = Some x -> Maps (mm_vmas x) page (attr_of v) -> L !! key (Z.of_nat m) page = None ->
  faulted (Z.of_nat m) page v (k_world k) T L X b w' T' L' X' ->
  forall k', k' = set_world k w' \/ k' = note_fault d mj (set_world k w') -> ensured k T L X m (fun p => p = page) k' T' L' X'.
Proof.
  intros HS Hx HM Hn [F1 F2 [F3a F3b] F4 F5 F6 FA F7]. apply ensured_world; try done.
  - intros pa Hpa. apply F3b. pose proof (lcount_nonneg L pa). lia.
  - intros j Hj. apply F6. by apply Hj.
  - intros j e He. exists e. rewrite F6 by (intros ->; congruence). split; [done|]. split; [by left|].
    intros i Hi. apply F3b; [|done]. pose proof (lcount_pos L j e He).
    pose proof (g_X _ _ _ _ (sy_good _ _ _ _ HS) (fr e)). lia.
  - intros j e' Hj He'. destruct (decide (j = key (Z.of_nat m) page)) as [->|Hne]; [|rewrite F6 in He' by done; congruence].
    destruct b; [|congruence]. destruct F7 as (e & H1 & H2 & H3 & H4). rewrite He' in H1. injection H1 as <-.
    exists page, x, v. by split_and!.
Qed.

Lemma ensured_cow k T L X m x page b m' d mj :
  Sys k T L X -> k_mms k !! m = Some x -> mm_used x = true ->
  vmm_handle_cow_fault (mm_as x) page (k_world k).1 = (b, m') ->
  exists L', (b = true -> allows L' VMM_ACCESS_WRITE (key (Z.of_nat m) page)) /\
    forall k', k' = set_world k (m', (k_world k).2) \/ k' = note_fault d mj (set_world k (m', (k_world k).2)) ->
    ensured k T L X m (fun p => p = page) k' T L' X.
Proof.
  intros HS Hx Hu E. destruct (sy_mm _ _ _ _ HS m x Hx Hu) as [Has _].
  pose proof (sy_good _ _ _ _ HS) as HG. pose proof (g_inv _ _ _ _ HG) as HI.
  destruct (cow_fault_cases _ _ T L _ (Z.of_nat m) _ page b HI Has E) as [Hk Hb].
  pose proof (keep_held _ _ _ _ _ Hk) as [Hc Hk'].
  assert (Hheld : forall pa, 0 < X pa -> same_page (k_world k).1 m' pa)
    by (intros pa Hpa; apply Hk'; pose proof (lcount_nonneg L pa); lia).
  destruct b.
  - destruct Hb as (_ & e & e' & [C1 C2 C3 C4 C5 C6 C7 C8 C9]). exists (<[key (Z.of_nat m) page := e']> L). split.
    { intros _. exists e'. rewrite lookup_insert_eq. split; [done|]. cbn. by rewrite ap_rw. }
    apply ensured_world; try done.
    + apply (good_machine (k_world k) T L X); [done..|apply HG].
    + apply grows_refl.
    + intros q Hq Hl. rewrite lcount_insert, C1, !cnt_one, Hl. pose proof (lcount_pos L _ _ C1) as Hpe.
      pose proof (used_rc _ _ _ _ (fr e') C3) as Hr. pose proof (lcount_pos _ _ _ (lookup_insert_eq L (key (Z.of_nat m) page) e')).
      pose proof (held_le X (k_world k).2 (fr e')). pose proof (g_X _ _ _ _ HG (fr e')).
      unfold one. case_decide as D1; [subst q; lia|]. case_decide as D2; [subst q; lia|]. lia.
    + intros j Hj. rewrite lookup_insert_ne; [done|]. intros <-. by apply (Hj page).
    + intros j e0 He0. destruct (decide (key (Z.of_nat m) page = j)) as [<-|Hne].
      * rewrite lookup_insert_eq. rewrite C1 in He0. injection He0 as <-. exists e'. split; [done|]. split; [by right|done].
      * rewrite lookup_insert_ne by done. exists e0. split; [done|]. split; [by left|]. apply Hk'.
        pose proof (lcount_pos L j e0 He0). pose proof (g_X _ _ _ _ HG (fr e0)). lia.
    + intros j e0 Hj He0. rewrite lookup_insert_ne in He0; [congruence|]. intros <-. congruence.
  - destruct Hb as (HI' & _). exists L. split; [done|]. apply ensured_world; try done.
    + apply (good_machine (k_world k) T L X); [done..|apply HG].
    + apply grows_refl.
    + intros j e He. exists e. split; [done|]. split; [by left|]. apply Hk'.
      pose proof (lcount_pos L j e He). pose proof (g_X _ _ _ _ HG (fr e)). lia.
    + intros j e H1 H2. congruence.
Qed.

Lemma ensured_owns k T L X m P k' T' L' X' d x :
  ensured k T L X m P k' T' L' X' -> owns k d m x -> exists x', owns k' d m x' /\ mm_as x' = mm_as x.
Proof.
  intros He (H1 & H2 & H3). destruct (es_mm _ _ _ _ _ _ _ _ _ _ He x H2) as (l' & Hl' & _).
  exists (set_mm_vmas x l'). split; [|done]. split; [by rewrite (es_dom _ _ _ _ _ _ _ _ _ _ He)|by split].
Qed.

Lemma type_mappable t : is_mappable t = true.
Proof. by destruct t. Qed.

Lemma ensure_mapped_spec k T L X d m x page access :
  Sys k T L X -> k_current k = Some d -> owns k (Some d) m x ->
  0 <= page -> page mod PAGE_SIZE = 0 -> page + PAGE_SIZE < 2 ^ 64 ->
  exists b k' T' L' X', ensure_mapped d (mm_as x) (mm_vmas x) page access k = Some (b, k') /\
    ensured k T L X m (fun p => p = page) k' T' L' X'.
Proof.
  intros HS Hcur Ho Hp Hpm Hend. unfold ensure_mapped. pose proof Ho as (_ & Hx & Hu).
  destruct (sy_mm _ _ _ _ HS m x Hx Hu) as [Has Hl]. pose proof (g_inv _ _ _ _ (sy_good _ _ _ _ HS)) as HI.
  rewrite (is_mapped_spec _ T L _ HI (mm_as x) (proj1 Has) (Z.of_nat m) (proj2 Has)).
  destruct (bool_decide_reflect (is_Some (L !! key (Z.of_nat m) page))) as [|Hn].
  { exists true, k, T, L, X. split; [done|by apply ensured_refl]. }
  assert (L !! key (Z.of_nat m) page = None) as Hnone by (by apply eq_None_not_Some).
  destruct (area_for_spec k T L X (mm_vmas x) page HS Hl) as (o & k1 & -> & HS1 & Hag & Hfound & Hgrow).
  rewrite <- Hcur in Ho. pose proof (ensured_area k T L X m x page k1 HS HS1 Ho Hag) as He1.
  assert (Hmono : forall k' T' L' X', ensured k1 T L X m (fun p => p = page) k' T' L' X' ->
    ensured k T L X m (fun p => p = page) k' T' L' X').
  { intros k' T' L' X' He2. eapply ensured_mono; [|by eapply ensured_trans]. intros p [[]|?]; done. }
  destruct (domain_access_allowed o access) eqn:Hacc; simpl; [|exists false, k1, T, L, X; split; [done|]; apply Hmono; by apply ensured_refl].
  destruct o as [v|]; [|done]. simpl.
  assert (Hx1 : exists x1, k_mms k1 !! m = Some x1 /\ mm_as x1 = mm_as x /\ mm_used x1 = true /\ Maps (mm_vmas x1) page (attr_of v)).
  { destruct (vma_lookup (mm_vmas x) page) as [u|] eqn:El.
    - destruct (Hfound u eq_refl) as [[= <-] ->]. exists x. split_and!; try done.
      pose proof (lookup_ok _ page Hl) as Hlk. rewrite El in Hlk. apply Hlk.
    - destruct (Hgrow eq_refl (proj2 (owns_as _ _ _ _ Ho)) v eq_refl) as (m' & y & l' & Ho' & Hk1 & Hl' & Hg).
      assert (m' = m) as -> by (destruct Ho as (H1 & _), Ho' as (H2 & _); congruence).
      assert (y = x) as -> by (destruct Ho as (_ & H1 & _), Ho' as (_ & H2 & _); congruence).
      exists (set_mm_vmas x l'). rewrite Hk1, list_lookup_insert_eq by (by eapply lookup_lt_Some).
      split; [done|]. split; [done|]. split; [done|]. simpl. pose proof (lookup_ok _ page Hl') as Hlk.
      rewrite (grown_lookup _ _ _ _ _ Hl Hl' Hg) in Hlk. apply Hlk. }
  destruct Hx1 as (x1 & Hx1 & Has1 & Hu1 & HM1).
  destruct (sy_mm _ _ _ _ HS1 m x1 Hx1 Hu1) as [Hasok _]. rewrite Has1 in Hasok.
  pose proof (sy_good _ _ _ _ HS1) as HG1.
  destruct (bool_decide_reflect (type v = VMA_FILE)) as [Hty|Hty].
  - destruct (fault_file_spec (Z.of_nat m) page v (k_world k1) T L X (mm_as x) HG1 Hasok Hnone Hty)
      as (b & w' & T' & L' & -> & Hfd); [lia|lia|lia|]. simpl.
    pose proof (ensured_fault k1 T L X m x1 page v b w' T' L' X (Some d) true HS1 Hx1 HM1 Hnone Hfd) as Hres.
    destruct b; simpl; eexists _, _, T', L', X; (split; [done|]; apply Hmono, Hres; by auto).
  - destruct (vmm_alloc_page (mm_as x) page (prot v) (k_world k1).1) as [b m'] eqn:Em.
    destruct (fault_anon_spec (Z.of_nat m) page v (k_world k1) T L X (mm_as x) b m' HG1 Hasok Hnone Hty Em) as (T' & L' & X' & Hfd).
    pose proof (ensured_fault k1 T L X m x1 page v b _ T' L' X' (Some d) false HS1 Hx1 HM1 Hnone Hfd) as Hres.
    destruct b; simpl; eexists _, _, T', L', X'; (split; [done|]; apply Hmono, Hres; by auto).
Qed.

Lemma ensure_page_spec k T L X d m x page access :
  Sys k T L X -> k_current k = Some d -> owns k (Some d) m x ->
  0 <= page -> page mod PAGE_SIZE = 0 -> page + PAGE_SIZE < 2 ^ 64 ->
  exists b k' T' L' X', ensure_page d page access k = Some (b, k') /\
    ensured k T L X m (fun p => p = page) k' T' L' X' /\
    (b = true -> allows L' access (key (Z.of_nat m) page)).
Proof.
  intros HS Hcur Ho Hp Hpm Hend. unfold ensure_page. destruct (owns_as _ _ _ _ Ho) as [-> ->]. simpl.
  destruct (ensure_mapped_spec k T L X d m x page access HS Hcur Ho Hp Hpm Hend) as (b & k1 & T1 & L1 & X1 & -> & He1).
  simpl. destruct b; simpl; [|exists false, k1, T1, L1, X1; by split_and!].
  pose proof (es_sys _ _ _ _ _ _ _ _ _ _ He1) as HS1.
  destruct (ensured_owns _ _ _ _ _ _ _ _ _ _ _ _ He1 Ho) as (x1 & Ho1 & Has1). pose proof Ho1 as (_ & Hx1 & Hu1).
  assert (Hacc : forall k' T' L' X' a, ensured k T L X m (fun p => p = page) k' T' L' X' ->
    vmm_user_range_accessible (mm_as x) page 1 a (k_world k').1 = Some (bool_decide (allows L' a (key (Z.of_nat m) page)))).
  { intros k' T' L' X' a He. destruct (ensured_owns _ _ _ _ _ _ _ _ _ _ _ _ He Ho) as (y & (_ & Hy & Huy) & Hyas).
    pose proof (es_sys _ _ _ _ _ _ _ _ _ _ He) as HS'. destruct (sy_mm _ _ _ _ HS' m y Hy Huy) as [Hok _]. rewrite Hyas in Hok.
    apply (accessible_page _ T' L' _ (Z.of_nat m) _ page a (g_inv _ _ _ _ (sy_good _ _ _ _ HS')) Hok).
    unfold is_u64, PAGE_SIZE in *. lia. }
  assert (Hfin : forall k' T' L' X', ensured k T L X m (fun p => p = page) k' T' L' X' ->
    exists b k2 T2 L2 X2, (let* ok := vmm_user_range_accessible (mm_as x) page 1 access (k_world k').1 in Some (ok, k')) = Some (b, k2) /\
      ensured k T L X m (fun p => p = page) k2 T2 L2 X2 /\ (b = true -> allows L2 access (key (Z.of_nat m) page))).
  { intros k' T' L' X' He. rewrite (Hacc k' T' L' X' access He). simpl. eexists _, k', T', L', X'. split; [done|]. split; [done|].
    by rewrite bool_decide_eq_true. }
  destruct (bool_decide_reflect (access = VMM_ACCESS_WRITE)) as [->|_]; simpl.
  2:{ by apply (Hfin k1 T1 L1 X1). }
  rewrite (Hacc k1 T1 L1 X1 VMM_ACCESS_WRITE He1). simpl.
  destruct (bool_decide (allows L1 VMM_ACCESS_WRITE (key (Z.of_nat m) page))) eqn:Ew; simpl.
  { apply (Hfin k1 T1 L1 X1 He1). }
  destruct (vmm_handle_cow_fault (mm_as x) page (k_world k1).1) as [b m'] eqn:Ec.
  rewrite <- Has1 in Ec.
  destruct (ensured_cow k1 T1 L1 X1 m x1 page b m' (Some d) false HS1 Hx1 Hu1 Ec) as (L2 & _ & He2).
  assert (Htr : forall k', k' = set_world k1 (m', (k_world k1).2) \/ k' = note_fault (Some d) false (set_world k1 (m', (k_world k1).2)) ->
    ensured k T L X m (fun p => p = page) k' T1 L2 X1).
  { intros k' Hk'. eapply ensured_mono; [|eapply ensured_trans; [exact He1|by apply He2]]. intros p [?|?]; done. }
  destruct b; simpl.
  - apply (Hfin _ T1 L2 X1). apply Htr. by right.
  - eexists false, _, T1, L2, X1. split; [done|]. split; [apply Htr; by left|done].
Qed.

(** Access is not lost while more pages are made present. *)
Lemma ensured_allows k T L X m P k' T' L' X' access j :
  ensured k T L X m P k' T' L' X' -> allows L access j -> allows L' access j.
Proof.
  intros He (e & Hj & Ha). destruct (es_data _ _ _ _ _ _ _ _ _ _ He j e Hj) as (e' & Hj' & Hk & _).
  exists e'. split; [done|]. destruct Hk as [->|(H1 & H2 & H3 & H4)]; [done|].
  rewrite allows_bits in *. destruct access; [done|done|congruence].
Qed.

(** The pages of [va, va + len). *)
Definition range_page (va len p : Z) : Prop :=
  page_of va <= p <= page_of (va + len - 1) /\ (p - page_of va) mod PAGE_SIZE = 0.

Lemma ensure_range_spec k T L X d m x va len access :
  Sys k T L X -> k_current k = Some d -> owns k (Some d) m x -> is_u64 va -> 0 < len < 2 ^ 64 ->
  va + len + PAGE_SIZE < 2 ^ 64 ->
  exists b k' T' L' X', cell_domain_ensure_user_range (Some d) va len access k = Some (b, k') /\
    ensured k T L X m (range_page va len) k' T' L' X' /\
    (b = true -> forall i, 0 <= i < len -> allows L' access (key (Z.of_nat m) (va + i))).
Proof.
  intros HS Hcur Ho Hva Hlen Hend. unfold cell_domain_ensure_user_range.
  rewrite (proj2 (Z.eqb_neq len 0)) by lia. destruct (owns_as _ _ _ _ Ho) as [-> ->].
  unfold is_u64 in Hva. rewrite u64_small by (unfold is_u64, PAGE_SIZE in *; lia).
  replace (va + len - 1 <? va) with false by lia.
  destruct (first_last va len Hva ltac:(lia) ltac:(unfold PAGE_SIZE in *; lia)) as (Hfl & Hal & H0 & Hf & Hlst).
  set (first := page_of va) in *. set (last := page_of (va + len - 1)) in *.
  destruct (iter_pages (ensure_step d last access) fst
    (fun st => exists T' L' X', ensured k T L X m (fun p => range_page va len p /\ p < st.1) st.2 T' L' X' /\
       forall p, range_page va len p -> p < st.1 -> allows L' access (key (Z.of_nat m) p))
    (fun r => exists b k' T' L' X', r = Some (b, k') /\ ensured k T L X m (range_page va len) k' T' L' X' /\
       (b = true -> forall p, range_page va len p -> allows L' access (key (Z.of_nat m) p)))
    first last (first, k)) as (r & -> & b & k' & T' & L' & X' & -> & He & Hall); [done| |done|lia| |].
  - intros [p k1] (T1 & L1 & X1 & He1 & Ha1) Hp Hm. simpl in *. unfold ensure_step.
    assert (Hpa : 0 <= p /\ p mod PAGE_SIZE = 0 /\ p + PAGE_SIZE < 2 ^ 64) by (unfold PAGE_SIZE in *; split_and!; dmlia).
    destruct (ensured_owns _ _ _ _ _ _ _ _ _ _ _ _ He1 Ho) as (x1 & Ho1 & Has1).
    destruct (ensure_page_spec k1 T1 L1 X1 d m x1 p access) as (b & k2 & T2 & L2 & X2 & -> & He2 & Hb);
      [apply He1|by rewrite (es_cur _ _ _ _ _ _ _ _ _ _ He1)|done|lia|lia|lia|].
    assert (Hrp : range_page va len p) by done.
    assert (He3 : ensured k T L X m (fun q => (range_page va len q /\ q < p) \/ q = p) k2 T2 L2 X2) by by eapply ensured_trans.
    assert (Hnext : forall q, range_page va len q -> q < p + PAGE_SIZE -> q < p \/ q = p).
    { intros q [Hq1 Hq2] Hq. fold first in Hq1, Hq2. unfold PAGE_SIZE in *. dmlia. }
    assert (Hacc2 : b = true -> forall q, range_page va len q -> q < p + PAGE_SIZE -> allows L2 access (key (Z.of_nat m) q)).
    { intros Hb' q Hq Hlt. destruct (Hnext q Hq Hlt) as [Hlt'| ->]; [|by apply Hb].
      eapply ensured_allows; [exact He2|]. by apply Ha1. }
    destruct b.
    2:{ exists false, k2, T2, L2, X2. split; [done|]. split; [|done]. eapply ensured_mono; [|exact He3].
        intros q [[? _]| ->]; done. }
    destruct (Z.eqb_spec p last) as [Hpl|Hne].
    + exists true, k2, T2, L2, X2. split; [done|]. split; [eapply ensured_mono; [|exact He3]; intros q [[? _]| ->]; done|].
      intros _ q Hq. apply Hacc2; [done|done|]. destruct Hq as [Hq _]. fold last in Hq. unfold PAGE_SIZE. lia.
    + rewrite u64_small by (unfold is_u64, PAGE_SIZE in *; lia). split; [done|]. split; [done|]. exists T2, L2, X2. split.
      * eapply ensured_mono; [|exact He3]. intros q [[? ?]| ->]; (split; [done|]); unfold PAGE_SIZE; simpl; lia.
      * intros q Hq Hlt. by apply Hacc2.
  - exists T, L, X. split; [by apply ensured_refl|]. simpl. intros p [Hp _] Hlt. fold first in Hp. lia.
  - simpl. exists b, k', T', L', X'. split; [done|]. split; [done|]. intros Hb i Hi.
    assert (key (Z.of_nat m) (va + i) = key (Z.of_nat m) (PAGE_SIZE * ((va + i) / PAGE_SIZE))) as ->
      by (apply key_page; unfold PAGE_SIZE; dmlia).
    apply Hall; [done|]. split; [fold first last|fold first]; rewrite ?Hf, ?Hlst; unfold PAGE_SIZE in *; dmlia.
Qed.
End Ops.

End MemoryOps.
