(* ===== verification/MemorySpec.v ===== *)
(** Correctness of page faults and of the checks on user ranges
    ([kernel/src/proc/memory.c]).

    The theorems are about any file system that keeps [StoreLaws]; the last
    section has one, whose files are all zero, and a system of two processes on
    which the theorems are applied. *)

From stdpp Require Import base numbers list option gmap fin_maps.
From Stdlib Require Import ZArith Lia.
From S2P Require Import Prelude Mem Pmm PmmSpec Iface Vma VmaInv VmaOps Vmm VmmInv VmmOps VmmCow VmmCopy VmmSpec Memory MemoryInv.
From S2P Require Import MemoryOps.
Import Vma Pmm Vmm Memory MemoryOps.

Module MemorySpec.

(** ** A file system of zeros *)

Definition zeros : Type := list vfs_call.

Definition zero_bytes : list Z := replicate (Z.to_nat PAGE_SIZE) 0.

#[export] Instance zeros_store : FileStore zeros := {|
  fs_retain_node n w := (w.1, CallRetain n :: w.2);
  fs_release_node n w := (w.1, CallRelease n :: w.2);
  fs_note_mapping n b w := (w.1, CallNote n b :: w.2);
  fs_write _ _ _ len w := (len, w);
  fs_retain_page _ _ w :=
    let '(pa, m) := Vmm.alloc_zero_page w.1 in (if pa =? 0 then None else Some pa, (m, w.2));
  fs_read_page _ _ w := (Some zero_bytes, w);
|}.

#[export, refine] Instance zeros_laws : StoreLaws zeros := {|
  store_ok _ _ := True;
  store_refs _ _ := 0;
  file_byte _ _ _ := 0;
|}.
Proof.
  - done.
  - intros. unfold is_u8. lia.
  - done.
  - intros T L X m v node off r m' v' HI HX _ _ E. simpl in E.
    destruct (Vmm.alloc_zero_page m) as [pa m1] eqn:Ea.
    destruct (inv_alloc_cases m m1 T L _ pa HI Ea) as (_ & _ & Hk & Hc).
    assert (keep L X m m1) as Hk' by (eapply keep_mono; [|exact Hk]; unfold MemoryInv.held; intros; lia).
    destruct (Z.eqb_spec pa 0) as [->|Hpa]; injection E as <- <- <-; (split; [done|]; split; [done|]; split; [done|]; split; [done|]).
    + destruct Hc as [[_ ?]|[? _]]; done.
    + destruct Hc as [[? _]|(_ & HI' & _ & HU & _ & Hz)]; [done|]. split; [done|].
      split; [unfold MemoryInv.held in HU; lia|]. split; [|done].
      eapply inv_U_ext; [exact HI'|]. intros q. unfold MemoryInv.held. lia.
  - intros T L X m v node off r m' v' HI HX _ _ E. cbn in E. injection E as <- <- <-.
    split; [done|]. split; [apply keep_refl|]. split; [done|]. split; [done|]. split; [done|].
    split; [apply (f_equal Z.of_nat (length_replicate (Z.to_nat PAGE_SIZE) 0))|].
    intros j Hj. unfold zero_bytes. rewrite nth_lookup, lookup_replicate_2; [done|lia].
Defined.

(** ** Claims *)

Section Claims.
Context {V : Type} `{HL : StoreLaws V}.


(** C15: making a range of the running process accessible. The call returns, and
    when it returns true every byte of the range may be accessed as asked. Pages
    that were mapped keep their bytes, at most becoming private copies; a page
    made present shows the permissions and bytes of an area of the process; the
    areas only grow; other processes, files and pages held by the kernel are as
    before. *)
Theorem ensure_user_range_correct (k : kst (V := V)) T L X (d m : nat) (x : process_mm) (va len : Z) (access : vmm_access) :
  Sys k T L X -> k_current k = Some d -> owns k (Some d) m x -> is_u64 va -> 0 < len < 2 ^ 64 ->
  va + len + PAGE_SIZE < 2 ^ 64 ->
  exists b k' T' L' X', cell_ensure_user_range va len access k = Some (b, k') /\
    ensured k T L X m (range_page va len) k' T' L' X' /\
    (b = true -> forall i, 0 <= i < len -> allows L' access (key (Z.of_nat m) (va + i))).
Proof. intros HS Hc. unfold cell_ensure_user_range. rewrite Hc. by apply ensure_range_spec. Qed.

(** The parts of [ensure_page] after the page is present leave the table of
    address spaces alone. *)
Lemma ensure_page_mms (d : nat) (page : Z) (access : vmm_access) (k k' : kst (V := V)) s l :
  cell_domain_as (Some d) k = Some s -> cell_domain_vmas (Some d) k = Some l ->
  vmm_is_mapped s page (k_world k).1 = false -> vma_lookup l page = None ->
  ensure_page d page access k = Some (true, k') ->
  k_mms k' = k_mms (cell_grow_down_vma page MAP_GROWSDOWN k).2 /\
  vmm_user_range_accessible s page 1 access (k_world k').1 = Some true.
Proof.
  intros Hs Hl Hm Hlk. unfold ensure_page. rewrite Hs, Hl. cbn [obind]. unfold ensure_mapped, area_for. rewrite Hm, Hlk.
  destruct (cell_grow_down_vma page MAP_GROWSDOWN k) as [[ok grown] k1]. cbn [snd].
  set (o := if ok then grown else None). destruct (domain_access_allowed o access); [|done]. cbn [negb].
  destruct o as [v|]; [|done]. cbn [obind].
  assert (Hrest : forall k2, k_mms k2 = k_mms k1 ->
    (let* fault := if bool_decide (access = VMM_ACCESS_WRITE)
                   then option_map negb (vmm_user_range_accessible s page 1 VMM_ACCESS_WRITE (k_world k2).1)
                   else Some false in
     let '(ok, k3) := if fault then
         let '(ok, m) := vmm_handle_cow_fault s page (k_world k2).1 in
         let k3 := set_world k2 (m, (k_world k2).2) in
         (ok, if ok then note_fault (Some d) false k3 else k3)
       else (true, k2) in
     if negb ok then Some (false, k3) else
     let* ok := vmm_user_range_accessible s page 1 access (k_world k3).1 in Some (ok, k3)) = Some (true, k') ->
    k_mms k' = k_mms k1 /\ vmm_user_range_accessible s page 1 access (k_world k').1 = Some true).
  { intros k2 Hk2. assert (Hend : forall k3, k_mms k3 = k_mms k1 ->
      (let* ok := vmm_user_range_accessible s page 1 access (k_world k3).1 in Some (ok, k3)) = Some (true, k') ->
      k_mms k' = k_mms k1 /\ vmm_user_range_accessible s page 1 access (k_world k').1 = Some true).
    { intros k3 Hk3. destruct (vmm_user_range_accessible s page 1 access (k_world k3).1) as [b|] eqn:E; [|done].
      cbn [obind]. intros [= -> <-]. done. }
    destruct (if bool_decide _ then _ else Some false) as [f|]; [|done]. cbn [obind]. destruct f; [|by apply Hend].
    destruct (vmm_handle_cow_fault s page (k_world k2).1) as [b m]. destruct b; [|done]. cbn [negb].
    apply Hend. by destruct (note_fault_same (Some d) false (set_world k2 (m, (k_world k2).2))) as (_ & -> & _). }
  assert (Hnote : forall w mj, k_mms (note_fault (Some d) mj (set_world k1 w)) = k_mms k1)
    by (intros w mj; by destruct (note_fault_same (Some d) mj (set_world k1 w)) as (_ & -> & _)).
  destruct (bool_decide (type v = VMA_FILE)).
  - destruct (fault_file_page (Some s) v page (k_world k1)) as [[b w]|]; [|done]. cbn [obind]. destruct b; [|done]. by apply Hrest.
  - destruct (vmm_alloc_page s page (prot v) (k_world k1).1) as [b m]. destruct b; [|done]. by apply Hrest.
Qed.

(** C27: the check is made for a domain but the stack is grown for the running
    one. When the page lies in no area of [d] and below an area of the running
    process that may grow, a call that returns true has made the page accessible
    in [d], where still no area covers it, and has extended the area of the
    running process. *)
Theorem ensure_range_wrong_domain (k k' : kst (V := V)) (d : nat) (s : user_address_space) (l : vma_list)
    (c : nat) (y : process_mm) (lc : vma_list) (grown : vma) (page : Z) (access : vmm_access) :
  is_u64 page -> page mod PAGE_SIZE = 0 ->
  cell_domain_as (Some d) k = Some s -> cell_domain_vmas (Some d) k = Some l ->
  vmm_is_mapped s page (k_world k).1 = false -> vma_lookup l page = None ->
  domain_mm (Some d) k <> Some c -> owns k (k_current k) c y ->
  vma_grow_down (mm_vmas y) page MAP_GROWSDOWN = (true, lc, Some grown) ->
  cell_domain_ensure_user_range (Some d) page 1 access k = Some (true, k') ->
  vmm_user_range_accessible s page 1 access (k_world k').1 = Some true /\
  k_mms k' = <[c := set_mm_vmas y lc]> (k_mms k) /\
  (forall m, domain_mm (Some d) k = Some m -> k_mms k' !! m = k_mms k !! m).
Proof.
  intros Hu Hal Hs Hl Hm Hlk Hdc (Hc1 & Hc2 & Hc3) Hg. unfold cell_domain_ensure_user_range. rewrite Hs, Hl.
  cbn [Z.eqb]. rewrite Z.add_simpl_r, u64_small, Z.ltb_irrefl by done.
  assert (page_of page = page) as -> by (rewrite page_of_eq by done; unfold PAGE_SIZE in *; dmlia).
  unfold pages_fuel. rewrite Z.sub_diag. change (Z.to_nat (0 / PAGE_SIZE)) with 0%nat. cbn [iter ensure_step].
  rewrite Z.eqb_refl. destruct (ensure_page d page access k) as [[[] k1]|] eqn:E; simpl; [|done|done]. intros [= <-].
  destruct (ensure_page_mms d page access k k1 s l Hs Hl Hm Hlk E) as [Hmms Hacc]. split; [done|].
  assert (k_mms k1 = <[c := set_mm_vmas y lc]> (k_mms k)) as Hk1.
  { rewrite Hmms. unfold cell_grow_down_vma. assert (cell_domain_vmas (k_current k) k = Some (mm_vmas y)) as ->
      by (unfold cell_domain_vmas; rewrite Hc1; simpl; by rewrite Hc2).
    rewrite Hg. simpl. unfold put_vmas. by rewrite Hc1, Hc2. }
  split; [done|]. intros m Hdm. rewrite Hk1, list_lookup_insert_ne; [done|]. intros ->. by apply Hdc.
Qed.

(** C25: the handler of permission faults gives the protection of the area to a
    page in place. A write fault on a copy-on-write page gets here when the copy
    could not be made for lack of memory; the handler then returns true, and the
    process may write the physical page that another mapping still shares. *)
Theorem permission_fault_breaks_cow (k : kst (V := V)) T L X (m : nat) (x : process_mm) (far : Z) (v : vma) (e : Z)
    (k2 : list Z) (e2 : Z) :
  Sys k T L X -> owns k (k_current k) m x -> is_u64 far -> page_of far + 2 * PAGE_SIZE <= 2 ^ 64 ->
  vma_lookup (mm_vmas x) (page_of far) = Some v -> has (prot v) VMM_USER_WRITE = true ->
  L !! key (Z.of_nat m) (page_of far) = Some e -> cow_bit e = true ->
  k2 <> key (Z.of_nat m) (page_of far) -> L !! k2 = Some e2 -> fr e2 = fr e ->
  exists k' L', cell_handle_permission_fault far VMM_ACCESS_WRITE k = Some (true, k') /\ Sys k' T L' X /\
    user_to_phys_checked (mm_as x) (page_of far) VMM_ACCESS_WRITE (k_world k').1 = fr e /\
    L' !! k2 = Some e2 /\ 1 < pmm_refcount (m_pmm (k_world k').1) (fr e).
Proof.
  intros HS Ho Hu Hend Hv Hw Hl Hc Hne Hl2 Hfr. pose proof Ho as (_ & Hx & Hux).
  destruct (sy_mm _ _ _ _ HS m x Hx Hux) as [Has _]. pose proof (sy_good _ _ _ _ HS) as HG. pose proof (g_inv _ _ _ _ HG) as HI.
  assert (Hpg : 0 <= page_of far /\ page_of far mod PAGE_SIZE = 0).
  { rewrite page_of_eq by done. unfold is_u64, PAGE_SIZE in *. split; dmlia. }
  unfold cell_handle_permission_fault. destruct (owns_as _ _ _ _ Ho) as [-> ->]. rewrite Hv.
  unfold access_allowed, allowed_by. rewrite Hw.
  rewrite (is_mapped_spec _ T L _ HI (mm_as x) (proj1 Has) (Z.of_nat m) (proj2 Has)), bool_decide_eq_true_2 by by exists e.
  cbn [negb orb]. rewrite u64_small by (unfold is_u64, PAGE_SIZE in *; lia).
  destruct (protect_exposes_cow _ T L _ (Z.of_nat m) (mm_as x) (page_of far) (prot v) e k2 e2 HI Has ltac:(lia) Hend Hw Hl Hc Hne Hl2 Hfr)
    as (m' & L' & E & HI' & Hphys & Hl2' & Hrc).
  pose proof (vmm_protect_range_keep _ T L _ (Z.of_nat m) (mm_as x) (page_of far) (page_of far + PAGE_SIZE) (prot v) m' HI Has ltac:(lia)
    ltac:(unfold PAGE_SIZE in *; lia) ltac:(unfold PAGE_SIZE; lia) E) as Hk.
  rewrite E. cbn [obind]. assert (as_ok m' T (Z.of_nat m) (mm_as x)) as Has' by (destruct Has, Hk as [[] _]; split; congruence).
  assert (HG' : Good (m', (k_world k).2) T L' X) by (apply (good_machine (k_world k) T L X); [done..|apply HG]).
  assert (HS' : Sys (set_world k (m', (k_world k).2)) T L' X) by (eapply (sys_world k T L X); [done|done|apply (grows_refl 0)|apply Hk]).
  rewrite (accessible_page m' T L' _ (Z.of_nat m) (mm_as x) (page_of far) VMM_ACCESS_WRITE HI' Has')
    by (unfold is_u64, PAGE_SIZE in *; lia). cbn [obind].
  destruct (fr_range e) as [Hr _]. pose proof (leaf_nonzero _ _ _ _ _ _ HI Hl) as Hnz.
  rewrite (proj2 Hpg), Z.add_0_r in Hphys.
  assert (allows L' VMM_ACCESS_WRITE (key (Z.of_nat m) (page_of far))) as Hal.
  { apply dec_stable. intros Hno. apply (to_phys_zero m' T L' _ (Z.of_nat m) (mm_as x) (page_of far) VMM_ACCESS_WRITE HI' Has') in Hno; lia. }
  rewrite bool_decide_eq_true_2 by done. eexists _, L'. split; [done|]. by split_and!.
Qed.
End Claims.

(** ** Two processes *)

(** Process 0 has the areas [l] and runs; process 1 has none. *)
Definition processes (w : machine) (a1 a2 : user_address_space) (l : vma_list) : kst (V := zeros) :=
  mk_kst (w, []) (Some 0) [zero_mm; mk_mm true 1 a1 l; mk_mm true 1 a2 vma_list_init]
    [mk_domain true (Some 1%nat) 0 0; mk_domain true (Some 2%nat) 0 0] (Some 0%nat).

Definition two_processes : vma_list -> kst (V := zeros) := processes m6 as1 as2.

Lemma processes_sys w a1 a2 l T L U :
  VmmInv.Inv w T L U -> as_ok w T 1 a1 -> as_ok w T 2 a2 -> VmaInv.Inv l -> Sys (processes w a1 a2 l) T L U.
Proof.
  intros HI A1 A2 Hl. split.
  - split; simpl; [|apply HI|done]. eapply inv_U_ext; [exact HI|]. intros q. unfold MemoryInv.held. simpl. lia.
  - intros i x Hi Hu. destruct i as [|[|[|i]]]; simpl in Hi; [by injection Hi as <-|injection Hi as <-|injection Hi as <-|done].
    + by split.
    + split; [done|apply init_Inv].
  - intros d x m Hd Hm. destruct d as [|[|d]]; simpl in Hd; [injection Hd as <-|injection Hd as <-|done];
      simpl in Hm; injection Hm as <-; eexists; by split.
Qed.

Lemma two_processes_sys l : VmaInv.Inv l -> exists T L X,
  Sys (two_processes l) T L X /\ (forall p, vpn p <> vpn uva -> L !! key 1 p = None).
Proof.
  intros Hl. destruct sample_inv as (T & L & U & HI & A1 & A2 & _ & _ & _ & _ & Hno). exists T, L, U.
  split; [exact (processes_sys m6 as1 as2 l T L U HI A1 A2 Hl)|].
  intros p Hp. apply Hno; intros E; apply key_eq in E as [H1 H2]; [exact (Hp H2)|discriminate H1].
Qed.

(** The result of a call on the sample. *)
Definition returned {A} (r : option (bool * A)) : bool := match r with Some (b, _) => b | None => false end.


Lemma ensure_user_range_correct_witness :
  on_sample False (fun l _ => exists b k' T L X T' L' X',
    cell_ensure_user_range 0x1ff0 0x20 VMM_ACCESS_WRITE (two_processes l) = Some (b, k') /\
    ensured (two_processes l) T L X 1 (range_page 0x1ff0 0x20) k' T' L' X') /\
  on_sample false (fun l _ => returned (cell_ensure_user_range 0x1ff0 0x20 VMM_ACCESS_WRITE (two_processes l))) = true.
Proof.
  split; [|vm_compute; reflexivity]. apply on_sample_ok. intros l w HI _.
  destruct (two_processes_sys l HI) as (T & L & X & HS & Hno).
  assert (owns (two_processes l) (Some 0%nat) 1 (mk_mm true 1 as1 l)) as Ho
    by (split; [reflexivity|split; reflexivity]).
  destruct (ensure_user_range_correct (two_processes l) T L X 0 1 (mk_mm true 1 as1 l) 0x1ff0 0x20 VMM_ACCESS_WRITE HS eq_refl Ho
    ltac:(split; [discriminate|reflexivity]) ltac:(split; reflexivity) ltac:(reflexivity)) as (b & k' & T' & L' & X' & E & Hr & _).
  exists b, k', T, L, X, T', L', X'. exact (conj E Hr).
Defined.

Lemma ensure_range_wrong_domain_witness :
  on_sample False (fun l _ => exists k',
    cell_domain_ensure_user_range (Some 1%nat) 0x7ffee000 1 VMM_ACCESS_WRITE (two_processes l) = Some (true, k') /\
    vmm_user_range_accessible as2 0x7ffee000 1 VMM_ACCESS_WRITE (k_world k').1 = Some true /\
    k_mms k' !! 2%nat = Some (mk_mm true 1 as2 vma_list_init)).
Proof.
  apply (on_sample_if (fun l _ =>
    returned (cell_domain_ensure_user_range (Some 1%nat) 0x7ffee000 1 VMM_ACCESS_WRITE (two_processes l)) &&
    (vma_grow_down l 0x7ffee000 MAP_GROWSDOWN).1.1 &&
    match (vma_grow_down l 0x7ffee000 MAP_GROWSDOWN).2 with Some _ => true | None => false end));
    [vm_compute; reflexivity|].
  intros l w HI _ Hc. destruct (andb_prop _ _ Hc) as [Hc' Hout]. destruct (andb_prop _ _ Hc') as [Hr Hg]. clear Hc Hc'.
  destruct (cell_domain_ensure_user_range (Some 1%nat) 0x7ffee000 1 VMM_ACCESS_WRITE (two_processes l)) as [[b k']|] eqn:E;
    [|discriminate Hr]. simpl in Hr. subst b.
  destruct (vma_grow_down l 0x7ffee000 MAP_GROWSDOWN) as [[ok lc] [grown|]] eqn:Eg; [|discriminate Hout]. simpl in Hg. subst ok.
  assert (owns (two_processes l) (k_current (two_processes l)) 1 (mk_mm true 1 as1 l)) as Ho
    by (split; [reflexivity|split; reflexivity]).
  destruct (ensure_range_wrong_domain (two_processes l) k' 1 as2 vma_list_init 1 (mk_mm true 1 as1 l) lc grown 0x7ffee000
    VMM_ACCESS_WRITE ltac:(split; [discriminate|reflexivity]) ltac:(reflexivity) ltac:(reflexivity) ltac:(reflexivity)
    ltac:(vm_compute; reflexivity) ltac:(reflexivity) ltac:(discriminate) Ho Eg E) as (Hacc & _ & Hm).
  exists k'. split; [reflexivity|]. split; [exact Hacc|]. rewrite (Hm 2%nat ltac:(reflexivity)). reflexivity.
Defined.

(** The sample's areas with one more over the page both processes share. *)
Definition with_shared (l : vma_list) (w : kernel) : option (bool * vma_list * kernel) :=
  vma_insert VmaOps.sample_hhdm l uva (uva + PAGE_SIZE) 3 0x22 VMA_ANON w.

Lemma permission_fault_breaks_cow_witness :
  on_sample False (fun l w => exists l' k',
    cell_handle_permission_fault uva VMM_ACCESS_WRITE (two_processes l') = Some (true, k') /\
    1 < pmm_refcount (m_pmm (k_world k').1) (fr (map_desc true page rw))).
Proof.
  apply (on_sample_if (fun l w => default false (r ← with_shared l w; v ← vma_lookup r.1.2 uva;
    Some (has (prot v) VMM_USER_WRITE)))); [vm_compute; reflexivity|].
  intros l w HI HR Hc.
  destruct (insert_ok VmaOps.sample_hhdm _ l uva (uva + PAGE_SIZE) 3 0x22 VMA_ANON w HI HR ltac:(discriminate)) as (b & l' & w' & E & HI' & _).
  unfold with_shared in Hc. rewrite E in Hc. cbn in Hc. exists l'.
  destruct (vma_lookup l' uva) as [v|] eqn:Ev; [|discriminate Hc].
  destruct sample_inv as (T & L & U & HI6 & A1 & A2 & _ & L1 & L2 & _).
  assert (owns (two_processes l') (k_current (two_processes l')) 1 (mk_mm true 1 as1 l')) as Ho
    by (split; [reflexivity|split; reflexivity]).
  assert (key 2 uva <> key 1 uva) as Hk by (intros Ek; apply key_eq in Ek as [Ek _]; discriminate Ek).
  assert (cow_bit (map_desc true page rw) = true) as Hcow by (destruct (map_desc_spec true page rw) as (_ & _ & _ & Hb & _); exact Hb).
  destruct (permission_fault_breaks_cow (two_processes l') T L U 1 (mk_mm true 1 as1 l') uva v (map_desc true page rw) (key 2 uva)
    (map_desc true page rw) (processes_sys m6 as1 as2 l' T L U HI6 A1 A2 HI') Ho ltac:(split; [discriminate|reflexivity])
    ltac:(discriminate) Ev Hc L1 Hcow Hk L2 eq_refl) as (k' & L' & E' & _ & _ & _ & Hrc).
  exists k'. exact (conj E' Hrc).
Defined.
End MemorySpec.
