(* ===== verification/Thread.v ===== *)
(** Threads and processors: the data of [kernel/src/include/cell.h] and the
    bookkeeping of [kernel/src/proc/thread.c] that does not switch threads.

    A pointer to a thread or a domain is its index in its table. The domain of
    [Memory] has the fields the memory code uses; the others are in [proc]. Of
    [struct thread] the fields of terminals and polling are left out, because the
    code that uses them is not modelled. The files, pipes and other tables of
    the kernel are a value of an arbitrary type [A]. *)

From stdpp Require Import base numbers list option strings.
From Stdlib Require Import ZArith Lia.
From S2P Require Import Prelude Mem Pmm Iface Vma Vmm Policy Memory.
Import Vma Pmm Vmm Memory.

Module Thread.

Definition EINVAL : Z := 22.
Definition MAX_THREADS : Z := 2048.
Definition CELL_SWITCHED : Z := - 0x40000000.

(** [sizeof(struct thread)]. *)
Definition sizeof_thread : Z := 1104.

Inductive thread_state := THREAD_UNUSED | THREAD_RUNNABLE | THREAD_BLOCKED | THREAD_ZOMBIE.

#[export] Instance thread_state_eq_dec : EqDecision thread_state.
Proof. solve_decision. Defined.

Inductive wait_reason :=
| WAIT_NONE | WAIT_CHILD | WAIT_STDIN | WAIT_SOCKET | WAIT_THREAD | WAIT_FUTEX | WAIT_POLL
| WAIT_SLEEP | WAIT_VFORK | WAIT_PIPE | WAIT_EPOLL | WAIT_INOTIFY | WAIT_PTY.

#[export] Instance wait_reason_eq_dec : EqDecision wait_reason.
Proof. solve_decision. Defined.

(** The registers saved on entry to the kernel. *)
Record trap_frame := mk_frame {
  x : list Z;
  sp_el0 : Z;
  elr_el1 : Z;
  spsr_el1 : Z;
  esr_el1 : Z;
  pad : Z;
}.

Definition set_x (r : trap_frame) (v : list Z) : trap_frame :=
  mk_frame v (sp_el0 r) (elr_el1 r) (spsr_el1 r) (esr_el1 r) (pad r).
Definition set_sp_el0 (r : trap_frame) (v : Z) : trap_frame :=
  mk_frame (x r) v (elr_el1 r) (spsr_el1 r) (esr_el1 r) (pad r).

Definition zero_frame : trap_frame := mk_frame (replicate 31 0) 0 0 0 0 0.

(** [frame->x[i]]. *)
Definition get_x (f : trap_frame) (i : nat) : Z := nth i (x f) 0.
Definition put_x (f : trap_frame) (i : nat) (v : Z) : trap_frame := set_x f (<[i := v]> (x f)).

Record fp_state := mk_fp { q : list Z; fpcr : Z; fpsr : Z }.

Definition zero_fp : fp_state := mk_fp (replicate 512 0) 0 0.

(** The fields a wait on a socket fills in. *)
Record socket_wait := mk_socket_wait {
  socket_addr : Z;
  socket_addrlen : Z;
  socket_accept_flags : Z;
  socket_write : bool;
  socket_msg : bool;
  socket_msg_addr : Z;
  socket_iov : Z;
  socket_iovlen : Z;
  socket_flags : Z;
  socket_has_deadline : bool;
  socket_deadline_tick : Z;
}.

Definition no_socket_wait : socket_wait := mk_socket_wait 0 0 0 false false 0 0 0 0 false 0.

(** The signal fields of a thread. *)
Record thread_signals := mk_signals {
  signal_mask : Z;
  pending_signals : Z;
  sigaltstack_sp : Z;
  sigaltstack_size : Z;
  sigaltstack_flags : Z;
}.

Record thread := mk_thread {
  tid : Z;
  running_cpu : Z;
  t_domain : option nat;
  state : thread_state;
  tf : trap_frame;
  fp : fp_state;
  tpidr_el0 : Z;
  reason : wait_reason;
  wait_target : Z;
  pipe_buf : Z;
  pipe_len : Z;
  sock : socket_wait;
  sig : thread_signals;
  pipe_write : bool;
  sleep_deadline_tick : Z;
  clear_child_tid : Z;
  robust_list : Z;
  futex_addr : Z;
}.

Definition set_running_cpu (r : thread) (v : Z) : thread :=
  mk_thread (tid r) v (t_domain r) (state r) (tf r) (fp r) (tpidr_el0 r) (reason r) (wait_target r)
    (pipe_buf r) (pipe_len r) (sock r) (sig r) (pipe_write r) (sleep_deadline_tick r) (clear_child_tid r)
    (robust_list r) (futex_addr r).
Definition set_t_domain (r : thread) (v : option nat) : thread :=
  mk_thread (tid r) (running_cpu r) v (state r) (tf r) (fp r) (tpidr_el0 r) (reason r) (wait_target r)
    (pipe_buf r) (pipe_len r) (sock r) (sig r) (pipe_write r) (sleep_deadline_tick r) (clear_child_tid r)
    (robust_list r) (futex_addr r).
Definition set_state (r : thread) (v : thread_state) : thread :=
  mk_thread (tid r) (running_cpu r) (t_domain r) v (tf r) (fp r) (tpidr_el0 r) (reason r) (wait_target r)
    (pipe_buf r) (pipe_len r) (sock r) (sig r) (pipe_write r) (sleep_deadline_tick r) (clear_child_tid r)
    (robust_list r) (futex_addr r).
Definition set_tf (r : thread) (v : trap_frame) : thread :=
  mk_thread (tid r) (running_cpu r) (t_domain r) (state r) v (fp r) (tpidr_el0 r) (reason r) (wait_target r)
    (pipe_buf r) (pipe_len r) (sock r) (sig r) (pipe_write r) (sleep_deadline_tick r) (clear_child_tid r)
    (robust_list r) (futex_addr r).
Definition set_fp (r : thread) (v : fp_state) : thread :=
  mk_thread (tid r) (running_cpu r) (t_domain r) (state r) (tf r) v (tpidr_el0 r) (reason r) (wait_target r)
    (pipe_buf r) (pipe_len r) (sock r) (sig r) (pipe_write r) (sleep_deadline_tick r) (clear_child_tid r)
    (robust_list r) (futex_addr r).
Definition set_tpidr_el0 (r : thread) (v : Z) : thread :=
  mk_thread (tid r) (running_cpu r) (t_domain r) (state r) (tf r) (fp r) v (reason r) (wait_target r)
    (pipe_buf r) (pipe_len r) (sock r) (sig r) (pipe_write r) (sleep_deadline_tick r) (clear_child_tid r)
    (robust_list r) (futex_addr r).
Definition set_reason (r : thread) (v : wait_reason) : thread :=
  mk_thread (tid r) (running_cpu r) (t_domain r) (state r) (tf r) (fp r) (tpidr_el0 r) v (wait_target r)
    (pipe_buf r) (pipe_len r) (sock r) (sig r) (pipe_write r) (sleep_deadline_tick r) (clear_child_tid r)
    (robust_list r) (futex_addr r).
Definition set_wait_target (r : thread) (v : Z) : thread :=
  mk_thread (tid r) (running_cpu r) (t_domain r) (state r) (tf r) (fp r) (tpidr_el0 r) (reason r) v
    (pipe_buf r) (pipe_len r) (sock r) (sig r) (pipe_write r) (sleep_deadline_tick r) (clear_child_tid r)
    (robust_list r) (futex_addr r).
Definition set_pipe_buf (r : thread) (v : Z) : thread :=
  mk_thread (tid r) (running_cpu r) (t_domain r) (state r) (tf r) (fp r) (tpidr_el0 r) (reason r)
    (wait_target r) v (pipe_len r) (sock r) (sig r) (pipe_write r) (sleep_deadline_tick r)
    (clear_child_tid r) (robust_list r) (futex_addr r).
Definition set_pipe_len (r : thread) (v : Z) : thread :=
  mk_thread (tid r) (running_cpu r) (t_domain r) (state r) (tf r) (fp r) (tpidr_el0 r) (reason r)
    (wait_target r) (pipe_buf r) v (sock r) (sig r) (pipe_write r) (sleep_deadline_tick r)
    (clear_child_tid r) (robust_list r) (futex_addr r).
Definition set_sock (r : thread) (v : socket_wait) : thread :=
  mk_thread (tid r) (running_cpu r) (t_domain r) (state r) (tf r) (fp r) (tpidr_el0 r) (reason r)
    (wait_target r) (pipe_buf r) (pipe_len r) v (sig r) (pipe_write r) (sleep_deadline_tick r)
    (clear_child_tid r) (robust_list r) (futex_addr r).
Definition set_sig (r : thread) (v : thread_signals) : thread :=
  mk_thread (tid r) (running_cpu r) (t_domain r) (state r) (tf r) (fp r) (tpidr_el0 r) (reason r)
    (wait_target r) (pipe_buf r) (pipe_len r) (sock r) v (pipe_write r) (sleep_deadline_tick r)
    (clear_child_tid r) (robust_list r) (futex_addr r).
Definition set_pipe_write (r : thread) (v : bool) : thread :=
  mk_thread (tid r) (running_cpu r) (t_domain r) (state r) (tf r) (fp r) (tpidr_el0 r) (reason r)
    (wait_target r) (pipe_buf r) (pipe_len r) (sock r) (sig r) v (sleep_deadline_tick r) (clear_child_tid r)
    (robust_list r) (futex_addr r).
Definition set_sleep_deadline_tick (r : thread) (v : Z) : thread :=
  mk_thread (tid r) (running_cpu r) (t_domain r) (state r) (tf r) (fp r) (tpidr_el0 r) (reason r)
    (wait_target r) (pipe_buf r) (pipe_len r) (sock r) (sig r) (pipe_write r) v (clear_child_tid r)
    (robust_list r) (futex_addr r).
Definition set_clear_child_tid (r : thread) (v : Z) : thread :=
  mk_thread (tid r) (running_cpu r) (t_domain r) (state r) (tf r) (fp r) (tpidr_el0 r) (reason r)
    (wait_target r) (pipe_buf r) (pipe_len r) (sock r) (sig r) (pipe_write r) (sleep_deadline_tick r) v
    (robust_list r) (futex_addr r).
Definition set_robust_list (r : thread) (v : Z) : thread :=
  mk_thread (tid r) (running_cpu r) (t_domain r) (state r) (tf r) (fp r) (tpidr_el0 r) (reason r)
    (wait_target r) (pipe_buf r) (pipe_len r) (sock r) (sig r) (pipe_write r) (sleep_deadline_tick r)
    (clear_child_tid r) v (futex_addr r).
Definition set_futex_addr (r : thread) (v : Z) : thread :=
  mk_thread (tid r) (running_cpu r) (t_domain r) (state r) (tf r) (fp r) (tpidr_el0 r) (reason r)
    (wait_target r) (pipe_buf r) (pipe_len r) (sock r) (sig r) (pipe_write r) (sleep_deadline_tick r)
    (clear_child_tid r) (robust_list r) v.

Definition zero_thread : thread :=
  mk_thread 0 0 None THREAD_UNUSED zero_frame zero_fp 0 WAIT_NONE 0 0 0 no_socket_wait (mk_signals 0 0 0 0 0)
    false 0 0 0 0.

Definition set_result (t : thread) (v : Z) : thread := set_tf t (put_x (tf t) 0 v).

(** A thread blocked for the reason [r]. *)
Definition blocked_on (r : wait_reason) (t : thread) : bool :=
  bool_decide (state t = THREAD_BLOCKED) && bool_decide (reason t = r).

(** The fields of [struct domain] the memory code does not use; its descriptors
    are among the other tables. *)
Record signal_action := mk_action { handler : Z; sa_flags : Z; restorer : Z; sa_mask : Z }.

Record proc := mk_proc {
  id : Z;
  parent_id : Z;
  pgrp_id : Z;
  session_id : Z;
  refcount : Z;
  zombie : bool;
  exit_status : Z;
  term_signal : Z;
  uid : Z;
  euid : Z;
  gid : Z;
  egid : Z;
  start_ticks : Z;
  cpu_ticks : Z;
  name : string;
  exec_path : string;
  argv0 : string;
  cmdline : string;
  cwd : string;
  fs_root : string;
  chroot : string;
  caps : Policy.capability_set;
  budget : Policy.cpu_budget;
  signal_actions : list signal_action;
}.

Definition set_parent_id (r : proc) (v : Z) : proc :=
  mk_proc (id r) v (pgrp_id r) (session_id r) (refcount r) (zombie r) (exit_status r) (term_signal r)
    (uid r) (euid r) (gid r) (egid r) (start_ticks r) (cpu_ticks r) (name r) (exec_path r) (argv0 r)
    (cmdline r) (cwd r) (fs_root r) (chroot r) (caps r) (budget r) (signal_actions r).
Definition set_pgrp_id (r : proc) (v : Z) : proc :=
  mk_proc (id r) (parent_id r) v (session_id r) (refcount r) (zombie r) (exit_status r) (term_signal r)
    (uid r) (euid r) (gid r) (egid r) (start_ticks r) (cpu_ticks r) (name r) (exec_path r) (argv0 r)
    (cmdline r) (cwd r) (fs_root r) (chroot r) (caps r) (budget r) (signal_actions r).
Definition set_session_id (r : proc) (v : Z) : proc :=
  mk_proc (id r) (parent_id r) (pgrp_id r) v (refcount r) (zombie r) (exit_status r) (term_signal r) (uid r)
    (euid r) (gid r) (egid r) (start_ticks r) (cpu_ticks r) (name r) (exec_path r) (argv0 r) (cmdline r)
    (cwd r) (fs_root r) (chroot r) (caps r) (budget r) (signal_actions r).
Definition set_refcount (r : proc) (v : Z) : proc :=
  mk_proc (id r) (parent_id r) (pgrp_id r) (session_id r) v (zombie r) (exit_status r) (term_signal r)
    (uid r) (euid r) (gid r) (egid r) (start_ticks r) (cpu_ticks r) (name r) (exec_path r) (argv0 r)
    (cmdline r) (cwd r) (fs_root r) (chroot r) (caps r) (budget r) (signal_actions r).
Definition set_zombie (r : proc) (v : bool) : proc :=
  mk_proc (id r) (parent_id r) (pgrp_id r) (session_id r) (refcount r) v (exit_status r) (term_signal r)
    (uid r) (euid r) (gid r) (egid r) (start_ticks r) (cpu_ticks r) (name r) (exec_path r) (argv0 r)
    (cmdline r) (cwd r) (fs_root r) (chroot r) (caps r) (budget r) (signal_actions r).
Definition set_exit_status (r : proc) (v : Z) : proc :=
  mk_proc (id r) (parent_id r) (pgrp_id r) (session_id r) (refcount r) (zombie r) v (term_signal r) (uid r)
    (euid r) (gid r) (egid r) (start_ticks r) (cpu_ticks r) (name r) (exec_path r) (argv0 r) (cmdline r)
    (cwd r) (fs_root r) (chroot r) (caps r) (budget r) (signal_actions r).
Definition set_term_signal (r : proc) (v : Z) : proc :=
  mk_proc (id r) (parent_id r) (pgrp_id r) (session_id r) (refcount r) (zombie r) (exit_status r) v (uid r)
    (euid r) (gid r) (egid r) (start_ticks r) (cpu_ticks r) (name r) (exec_path r) (argv0 r) (cmdline r)
    (cwd r) (fs_root r) (chroot r) (caps r) (budget r) (signal_actions r).
Definition set_uid (r : proc) (v : Z) : proc :=
  mk_proc (id r) (parent_id r) (pgrp_id r) (session_id r) (refcount r) (zombie r) (exit_status r)
    (term_signal r) v (euid r) (gid r) (egid r) (start_ticks r) (cpu_ticks r) (name r) (exec_path r)
    (argv0 r) (cmdline r) (cwd r) (fs_root r) (chroot r) (caps r) (budget r) (signal_actions r).
Definition set_euid (r : proc) (v : Z) : proc :=
  mk_proc (id r) (parent_id r) (pgrp_id r) (session_id r) (refcount r) (zombie r) (exit_status r)
    (term_signal r) (uid r) v (gid r) (egid r) (start_ticks r) (cpu_ticks r) (name r) (exec_path r)
    (argv0 r) (cmdline r) (cwd r) (fs_root r) (chroot r) (caps r) (budget r) (signal_actions r).
Definition set_gid (r : proc) (v : Z) : proc :=
  mk_proc (id r) (parent_id r) (pgrp_id r) (session_id r) (refcount r) (zombie r) (exit_status r)
    (term_signal r) (uid r) (euid r) v (egid r) (start_ticks r) (cpu_ticks r) (name r) (exec_path r)
    (argv0 r) (cmdline r) (cwd r) (fs_root r) (chroot r) (caps r) (budget r) (signal_actions r).
Definition set_egid (r : proc) (v : Z) : proc :=
  mk_proc (id r) (parent_id r) (pgrp_id r) (session_id r) (refcount r) (zombie r) (exit_status r)
    (term_signal r) (uid r) (euid r) (gid r) v (start_ticks r) (cpu_ticks r) (name r) (exec_path r)
    (argv0 r) (cmdline r) (cwd r) (fs_root r) (chroot r) (caps r) (budget r) (signal_actions r).
Definition set_start_ticks (r : proc) (v : Z) : proc :=
  mk_proc (id r) (parent_id r) (pgrp_id r) (session_id r) (refcount r) (zombie r) (exit_status r)
    (term_signal r) (uid r) (euid r) (gid r) (egid r) v (cpu_ticks r) (name r) (exec_path r) (argv0 r)
    (cmdline r) (cwd r) (fs_root r) (chroot r) (caps r) (budget r) (signal_actions r).
Definition set_name (r : proc) (v : string) : proc :=
  mk_proc (id r) (parent_id r) (pgrp_id r) (session_id r) (refcount r) (zombie r) (exit_status r)
    (term_signal r) (uid r) (euid r) (gid r) (egid r) (start_ticks r) (cpu_ticks r) v (exec_path r)
    (argv0 r) (cmdline r) (cwd r) (fs_root r) (chroot r) (caps r) (budget r) (signal_actions r).
Definition set_exec_path (r : proc) (v : string) : proc :=
  mk_proc (id r) (parent_id r) (pgrp_id r) (session_id r) (refcount r) (zombie r) (exit_status r)
    (term_signal r) (uid r) (euid r) (gid r) (egid r) (start_ticks r) (cpu_ticks r) (name r) v (argv0 r)
    (cmdline r) (cwd r) (fs_root r) (chroot r) (caps r) (budget r) (signal_actions r).
Definition set_argv0 (r : proc) (v : string) : proc :=
  mk_proc (id r) (parent_id r) (pgrp_id r) (session_id r) (refcount r) (zombie r) (exit_status r)
    (term_signal r) (uid r) (euid r) (gid r) (egid r) (start_ticks r) (cpu_ticks r) (name r) (exec_path r) v
    (cmdline r) (cwd r) (fs_root r) (chroot r) (caps r) (budget r) (signal_actions r).
Definition set_cmdline (r : proc) (v : string) : proc :=
  mk_proc (id r) (parent_id r) (pgrp_id r) (session_id r) (refcount r) (zombie r) (exit_status r)
    (term_signal r) (uid r) (euid r) (gid r) (egid r) (start_ticks r) (cpu_ticks r) (name r) (exec_path r)
    (argv0 r) v (cwd r) (fs_root r) (chroot r) (caps r) (budget r) (signal_actions r).
Definition set_cwd (r : proc) (v : string) : proc :=
  mk_proc (id r) (parent_id r) (pgrp_id r) (session_id r) (refcount r) (zombie r) (exit_status r)
    (term_signal r) (uid r) (euid r) (gid r) (egid r) (start_ticks r) (cpu_ticks r) (name r) (exec_path r)
    (argv0 r) (cmdline r) v (fs_root r) (chroot r) (caps r) (budget r) (signal_actions r).
Definition set_fs_root (r : proc) (v : string) : proc :=
  mk_proc (id r) (parent_id r) (pgrp_id r) (session_id r) (refcount r) (zombie r) (exit_status r)
    (term_signal r) (uid r) (euid r) (gid r) (egid r) (start_ticks r) (cpu_ticks r) (name r) (exec_path r)
    (argv0 r) (cmdline r) (cwd r) v (chroot r) (caps r) (budget r) (signal_actions r).
Definition set_chroot (r : proc) (v : string) : proc :=
  mk_proc (id r) (parent_id r) (pgrp_id r) (session_id r) (refcount r) (zombie r) (exit_status r)
    (term_signal r) (uid r) (euid r) (gid r) (egid r) (start_ticks r) (cpu_ticks r) (name r) (exec_path r)
    (argv0 r) (cmdline r) (cwd r) (fs_root r) v (caps r) (budget r) (signal_actions r).
Definition set_budget (r : proc) (v : Policy.cpu_budget) : proc :=
  mk_proc (id r) (parent_id r) (pgrp_id r) (session_id r) (refcount r) (zombie r) (exit_status r)
    (term_signal r) (uid r) (euid r) (gid r) (egid r) (start_ticks r) (cpu_ticks r) (name r) (exec_path r)
    (argv0 r) (cmdline r) (cwd r) (fs_root r) (chroot r) (caps r) v (signal_actions r).
Definition set_signal_actions (r : proc) (v : list signal_action) : proc :=
  mk_proc (id r) (parent_id r) (pgrp_id r) (session_id r) (refcount r) (zombie r) (exit_status r)
    (term_signal r) (uid r) (euid r) (gid r) (egid r) (start_ticks r) (cpu_ticks r) (name r) (exec_path r)
    (argv0 r) (cmdline r) (cwd r) (fs_root r) (chroot r) (caps r) (budget r) v.

Definition zero_proc : proc :=
  mk_proc 0 0 0 0 0 false 0 0 0 0 0 0 0 0 EmptyString EmptyString EmptyString EmptyString EmptyString EmptyString
    EmptyString Policy.zero_caps (Policy.mk_budget 0 0) (replicate 65 (mk_action 0 0 0 0)).

(** The fields of [struct smp_cpu] the scheduler uses, and the registers of the
    processor that a switch of threads saves and loads. *)
Record cpu := mk_cpu {
  current_thread : option nat;
  scheduler_waiting : bool;
  cpu_fp : fp_state;
  cpu_tpidr : Z;
}.

Definition set_current_thread (r : cpu) (v : option nat) : cpu :=
  mk_cpu v (scheduler_waiting r) (cpu_fp r) (cpu_tpidr r).
Definition set_scheduler_waiting (r : cpu) (v : bool) : cpu :=
  mk_cpu (current_thread r) v (cpu_fp r) (cpu_tpidr r).
Definition set_cpu_fp (r : cpu) (v : fp_state) : cpu :=
  mk_cpu (current_thread r) (scheduler_waiting r) v (cpu_tpidr r).
Definition set_cpu_tpidr (r : cpu) (v : Z) : cpu :=
  mk_cpu (current_thread r) (scheduler_waiting r) (cpu_fp r) v.

Section Thread.
Context {V : Type} `{FileStore V} {A : Type}.

(** The whole state. [y_cpu] is the processor that holds the kernel lock. *)
Record sys := mk_sys {
  y_k : kst (V := V);
  y_procs : list proc;
  y_domtable : option Z;
  next_domain_id : Z;
  y_table : option Z;
  y_threads : list thread;
  next_thread_id : Z;
  y_cpus : list cpu;
  y_cpu : nat;
  y_ticks : Z;
  y_rest : A;
}.

Definition set_y_k (r : sys) (v : kst (V := V)) : sys :=
  mk_sys v (y_procs r) (y_domtable r) (next_domain_id r) (y_table r) (y_threads r) (next_thread_id r)
    (y_cpus r) (y_cpu r) (y_ticks r) (y_rest r).
Definition set_y_procs (r : sys) (v : list proc) : sys :=
  mk_sys (y_k r) v (y_domtable r) (next_domain_id r) (y_table r) (y_threads r) (next_thread_id r) (y_cpus r)
    (y_cpu r) (y_ticks r) (y_rest r).
Definition set_y_domtable (r : sys) (v : option Z) : sys :=
  mk_sys (y_k r) (y_procs r) v (next_domain_id r) (y_table r) (y_threads r) (next_thread_id r) (y_cpus r)
    (y_cpu r) (y_ticks r) (y_rest r).
Definition set_next_domain_id (r : sys) (v : Z) : sys :=
  mk_sys (y_k r) (y_procs r) (y_domtable r) v (y_table r) (y_threads r) (next_thread_id r) (y_cpus r)
    (y_cpu r) (y_ticks r) (y_rest r).
Definition set_y_table (r : sys) (v : option Z) : sys :=
  mk_sys (y_k r) (y_procs r) (y_domtable r) (next_domain_id r) v (y_threads r) (next_thread_id r) (y_cpus r)
    (y_cpu r) (y_ticks r) (y_rest r).
Definition set_y_threads (r : sys) (v : list thread) : sys :=
  mk_sys (y_k r) (y_procs r) (y_domtable r) (next_domain_id r) (y_table r) v (next_thread_id r) (y_cpus r)
    (y_cpu r) (y_ticks r) (y_rest r).
Definition set_next_thread_id (r : sys) (v : Z) : sys :=
  mk_sys (y_k r) (y_procs r) (y_domtable r) (next_domain_id r) (y_table r) (y_threads r) v (y_cpus r)
    (y_cpu r) (y_ticks r) (y_rest r).
Definition set_y_cpus (r : sys) (v : list cpu) : sys :=
  mk_sys (y_k r) (y_procs r) (y_domtable r) (next_domain_id r) (y_table r) (y_threads r) (next_thread_id r)
    v (y_cpu r) (y_ticks r) (y_rest r).
Definition set_y_cpu (r : sys) (v : nat) : sys :=
  mk_sys (y_k r) (y_procs r) (y_domtable r) (next_domain_id r) (y_table r) (y_threads r) (next_thread_id r)
    (y_cpus r) v (y_ticks r) (y_rest r).
Definition set_y_rest (r : sys) (v : A) : sys :=
  mk_sys (y_k r) (y_procs r) (y_domtable r) (next_domain_id r) (y_table r) (y_threads r) (next_thread_id r)
    (y_cpus r) (y_cpu r) (y_ticks r) v.

Definition put_thread (s : sys) (i : nat) (t : thread) : sys := set_y_threads s (<[i := t]> (y_threads s)).
Definition put_proc (s : sys) (d : nat) (p : proc) : sys := set_y_procs s (<[d := p]> (y_procs s)).
Definition put_cpu (s : sys) (c : nat) (p : cpu) : sys := set_y_cpus s (<[c := p]> (y_cpus s)).
Definition on_thread (i : nat) (f : thread -> thread) (s : sys) : sys := set_y_threads s (alter f i (y_threads s)).
Definition on_proc (d : nat) (f : proc -> proc) (s : sys) : sys := set_y_procs s (alter f d (y_procs s)).
Definition on_cpu (c : nat) (f : cpu -> cpu) (s : sys) : sys := set_y_cpus s (alter f c (y_cpus s)).

Definition s_world (s : sys) : machine * V := k_world (y_k s).
Definition set_s_world (s : sys) (w : machine * V) : sys := set_y_k s (set_world (y_k s) w).
Definition set_machine (s : sys) (m : machine) : sys := set_s_world s (m, (s_world s).2).

(** ** The table *)

Definition thread_capacity (s : sys) : nat := length (y_threads s).

Definition cell_thread_reset (capacity hhdm_offset : Z) (s : sys) : bool * sys :=
  if (capacity =? 0) || (MAX_THREADS <? capacity) then (false, s) else
  match y_table s with
  | Some _ =>
      if Z.of_nat (thread_capacity s) =? capacity
      then (true, set_next_thread_id (set_y_threads s (replicate (thread_capacity s) zero_thread)) 1)
      else
        let '(ptr, m) := alloc_table capacity sizeof_thread hhdm_offset (s_world s).1 in
        let s := set_y_table (set_machine s m) ptr in
        match ptr with
        | None => (false, s)
        | Some _ => (true, set_next_thread_id (set_y_threads s (replicate (Z.to_nat capacity) zero_thread)) 1)
        end
  | None =>
      let '(ptr, m) := alloc_table capacity sizeof_thread hhdm_offset (s_world s).1 in
      let s := set_y_table (set_machine s m) ptr in
      match ptr with
      | None => (false, s)
      | Some _ => (true, set_next_thread_id (set_y_threads s (replicate (Z.to_nat capacity) zero_thread)) 1)
      end
  end.

Definition smp_current_thread_slot (c : nat) (s : sys) : option nat :=
  let* p := y_cpus s !! c in current_thread p.

Definition smp_set_current_thread_slot (c : nat) (t : option nat) (s : sys) : sys :=
  on_cpu c (fun p => set_current_thread p t) s.

Definition smp_clear_current_thread_if (t : nat) (p : cpu) : cpu :=
  if bool_decide (current_thread p = Some t) then set_current_thread p None else p.

Definition smp_set_scheduler_waiting (c : nat) (b : bool) (s : sys) : sys :=
  on_cpu c (fun p => set_scheduler_waiting p b) s.

Definition cell_current_thread_internal (s : sys) : option nat := smp_current_thread_slot (y_cpu s) s.

Definition cell_current_domain_internal (s : sys) : option nat :=
  let* i := cell_current_thread_internal s in
  let* t := y_threads s !! i in
  t_domain t.

Definition cell_set_current_thread (t : option nat) (s : sys) : sys :=
  let s := smp_set_current_thread_slot (y_cpu s) t s in
  match t with
  | Some i => on_thread i (fun t => set_running_cpu t (Z.of_nat (y_cpu s))) s
  | None => s
  end.

Definition cell_scheduler_waiting_for_interrupt (s : sys) : bool :=
  match y_cpus s !! y_cpu s with Some p => scheduler_waiting p | None => false end.

Definition thread_is (p : thread -> bool) (s : sys) (i : nat) : bool :=
  match y_threads s !! i with Some t => p t | None => false end.

Definition cell_alloc_thread (d : nat) (s : sys) : option nat * sys :=
  match first_from (thread_is (fun t => bool_decide (state t = THREAD_UNUSED)) s) 0 (thread_capacity s) with
  | None => (None, s)
  | Some i =>
      let t := mk_thread (next_thread_id s) (-1) (Some d) THREAD_UNUSED zero_frame zero_fp 0 WAIT_NONE (-1) 0 0
                 no_socket_wait (mk_signals 0 0 0 0 2) false 0 0 0 0 in
      let s := set_next_thread_id (put_thread s i t) (next_thread_id s + 1) in
      (Some i, on_proc d (fun p => set_refcount p (u16 (refcount p + 1))) s)
  end.

Definition drop_refcount (p : proc) : proc := if 0 <? refcount p then set_refcount p (refcount p - 1) else p.

Definition cell_release_thread (t : option nat) (s : sys) : sys :=
  match t with
  | None => s
  | Some i =>
      match y_threads s !! i with
      | None => s
      | Some th =>
          match t_domain th with
          | None => s
          | Some d =>
              let s := on_proc d drop_refcount s in
              let s := put_thread s i (set_t_domain (set_running_cpu (set_state th THREAD_UNUSED) (-1)) None) in
              set_y_cpus s (smp_clear_current_thread_if i <$> y_cpus s)
          end
      end
  end.

Definition of_domain (d : nat) (t : thread) : bool := bool_decide (t_domain t = Some d).

Definition cell_thread_for_domain (d : nat) (s : sys) : option nat :=
  first_from (thread_is (fun t => negb (bool_decide (state t = THREAD_UNUSED)) && of_domain d t) s)
    0 (thread_capacity s).

Definition runnable_or_blocked (t : thread) : bool :=
  bool_decide (state t = THREAD_RUNNABLE) || bool_decide (state t = THREAD_BLOCKED).

Definition cell_runnable_or_blocked_threads_in_domain (d : nat) (s : sys) : nat :=
  length (filter (fun t => of_domain d t && runnable_or_blocked t = true) (y_threads s)).

(** ** Waking *)

Definition wake (t : thread) : thread := set_reason (set_state t THREAD_RUNNABLE) WAIT_NONE.

Definition wake_vfork (child_id : Z) (t : thread) : thread :=
  if blocked_on WAIT_VFORK t && (wait_target t =? child_id) then set_wait_target (wake t) (-1) else t.

Definition cell_wake_vfork_parent_of (child_id : Z) (s : sys) : sys :=
  set_y_threads s (wake_vfork child_id <$> y_threads s).

Definition wake_sleep (scheduler_ticks : Z) (t : thread) : thread :=
  if negb (blocked_on WAIT_SLEEP t) then t else
  if scheduler_ticks <? sleep_deadline_tick t then t else
  set_sleep_deadline_tick (wake (set_result t 0)) 0.

Definition cell_wake_sleep_waiters (scheduler_ticks : Z) (s : sys) : sys :=
  set_y_threads s (wake_sleep scheduler_ticks <$> y_threads s).

(** ** The context of a thread *)

(** [arch_fp_save] and [arch_fp_restore] copy the registers of the processor. *)
Definition cell_save_current (frame : trap_frame) (s : sys) : sys :=
  match cell_current_thread_internal s, y_cpus s !! y_cpu s with
  | Some i, Some p => on_thread i (fun t => set_tpidr_el0 (set_fp (set_tf t frame) (cpu_fp p)) (cpu_tpidr p)) s
  | _, _ => s
  end.

Definition load_cpu (t : thread) (p : cpu) : cpu := set_cpu_tpidr (set_cpu_fp p (fp t)) (tpidr_el0 t).

(** The address space of the domain is installed, the registers are loaded and
    the frame is the saved one. A thread without an address space is outside the
    model. *)
Definition restore_thread (i : nat) (s : sys) : option (trap_frame * sys) :=
  let* t := y_threads s !! i in
  let* as_ := cell_domain_as (t_domain t) (y_k s) in
  let s := set_machine s (vmm_install_user as_ (s_world s).1) in
  Some (tf t, on_cpu (y_cpu s) (load_cpu t) s).

Definition cell_restore_current (frame : trap_frame) (s : sys) : option (trap_frame * sys) :=
  match cell_current_thread_internal s with
  | None => Some (frame, s)
  | Some i => restore_thread i s
  end.
End Thread.

End Thread.
