(* ===== verification/Domain.v ===== *)
(** Domains ([kernel/src/proc/domain.c]): the table of processes, their
    identifiers and credentials. The destruction of a domain is in [Reap].

    The descriptors of a domain are among the other tables [A]; clearing a domain
    clears them through [Descriptors]. *)

From Stdlib Require Import ZArith Lia Ascii String.
From stdpp Require Import base numbers list option strings.
From S2P Require Import Prelude Mem Pmm Iface Vma Vmm Policy Memory Thread.
Import Kstr Vma Pmm Vmm Memory Thread.

(** [fds] and [fd_flags] of domain [d], and of a new table. *)
Class Descriptors (A : Type) := {
  clear_fds : nat -> A -> A;
  init_fds : nat -> A -> A;
}.

Module Domain.

#[local] Open Scope Z_scope.
#[local] Open Scope c_scope.

Definition EPERM : Z := 1.
Definition ESRCH : Z := 3.
Definition EINVAL : Z := 22.

(** [sizeof(struct domain)]. *)
Definition sizeof_domain : Z := 6240.

Section Domain.
Context {V : Type} `{FileStore V} {A : Type} `{Descriptors A}.
#[local] Notation sys := (sys (V := V) (A := A)).

Definition zero_domain : domain := mk_domain false None 0 0.

Definition domain_capacity (s : sys) : nat := List.length (k_domains (y_k s)).

Definition set_domains (k : kst (V := V)) (l : list domain) : kst :=
  mk_kst (k_world k) (process_mms k) (k_mms k) l (k_current k).

(** A table of [n] zeroed domains. *)
Definition zero_domains (n : nat) (s : sys) : sys :=
  let s := set_y_procs (set_y_k s (set_domains (y_k s) (replicate n zero_domain))) (replicate n zero_proc) in
  set_next_domain_id (set_y_rest s (init_fds n (y_rest s))) 1.

Definition cell_domain_reset (capacity hhdm_offset : Z) (s : sys) : bool * sys :=
  if (capacity =? 0) || (MAX_DOMAINS <? capacity) then (false, s) else
  if bool_decide (y_domtable s = None) || negb (Z.of_nat (domain_capacity s) =? capacity) then
    let '(ptr, m) := alloc_table capacity sizeof_domain hhdm_offset (s_world s).1 in
    let s := set_y_domtable (set_machine s m) ptr in
    match ptr with None => (false, s) | Some _ => (true, zero_domains (Z.to_nat capacity) s) end
  else (true, zero_domains (domain_capacity s) s).

Definition cell_domain_last_id (s : sys) : Z := u32 (next_domain_id s - 1).

Definition domain_used (s : sys) (d : nat) : bool :=
  match k_domains (y_k s) !! d with Some x => d_used x | None => false end.

Definition get_proc (s : sys) (d : nat) : proc := default zero_proc (y_procs s !! d).

Definition cell_find_domain (i : Z) (s : sys) : option nat :=
  first_from (fun d => domain_used s d && (id (get_proc s d) =? i)) 0 (domain_capacity s).

Definition put_used (s : sys) (d : nat) (b : bool) : sys :=
  set_y_k s (set_domains (y_k s)
    (alter (fun x => mk_domain b (d_mm x) (minor_faults x) (major_faults x)) d (k_domains (y_k s)))).

Definition cell_alloc_domain (s : sys) : option nat * sys :=
  match first_from (fun d => negb (domain_used s d)) 0 (domain_capacity s) with
  | None => (None, s)
  | Some d =>
      let n := next_domain_id s in
      let p := mk_proc n 0 n n 0 false 0 0 0 0 0 0 (y_ticks s) 0 (copy_cstr EmptyString 32 (Some "?"%string))
                 (copy_cstr EmptyString 256 (Some EmptyString)) (copy_cstr EmptyString 64 (Some EmptyString))
                 (copy_cstr EmptyString 160 (Some EmptyString)) "/" "/" "/" Policy.zero_caps (Policy.mk_budget 0 0)
                 (replicate 65 (mk_action 0 0 0 0)) in
      let s := put_proc (set_next_domain_id s (n + 1)) d p in
      let s := set_y_k s (put_domain (y_k s) d (mk_domain true None 0 0)) in
      (Some d, set_y_rest s (clear_fds d (y_rest s)))
  end.

Definition copied_metadata (ticks : Z) (dst src : proc) : proc :=
  mk_proc (id dst) (parent_id dst) (pgrp_id src) (session_id src) (refcount dst) (zombie dst) (exit_status dst)
    (term_signal dst) (uid src) (euid src) (gid src) (egid src) ticks 0 (name src) (exec_path src) (argv0 src)
    (cmdline src) (cwd src) (fs_root src) (chroot src) (caps src) (budget src) (signal_actions src).

Definition cell_copy_domain_metadata (dst src : nat) (s : sys) : sys :=
  on_proc dst (fun p => copied_metadata (y_ticks s) p (get_proc s src)) s.

(** ** Identity *)

(** [cmdline[len++] = c] when there is room for it and the terminator. *)
Definition push_char (line : string) (c : Ascii.ascii) : string :=
  if (String.length line + 1 <? 160)%nat then (line ++ String c EmptyString)%string else line.

Fixpoint push_string (line arg : string) : string :=
  match arg with
  | EmptyString => line
  | String c arg => if (String.length line + 1 <? 160)%nat then push_string (push_char line c) arg else line
  end.

Fixpoint push_args (line : string) (i : nat) (argv : list string) : string :=
  match argv with
  | [] => line
  | arg :: argv => push_args (push_string (if (i =? 0)%nat then line else push_char line " "%char) arg) (S i) argv
  end.

(** [argv] is the list of the strings before the first null pointer, at most
    [argc] of them. *)
Definition cell_set_domain_identity (d : option nat) (path : option string) (argv : list string) (s : sys) : sys :=
  match d with
  | None => s
  | Some d =>
      let first := match argv with a :: _ => if nonempty a then Some a else path | [] => path end in
      let base := match first with None => path | Some a => if nonempty a then first else path end in
      let line := push_args EmptyString 0 argv in
      on_proc d (fun p =>
        let p := set_exec_path p (copy_cstr (exec_path p) 256 (Some (default EmptyString path))) in
        let p := set_argv0 p (copy_cstr (argv0 p) 64 (Some (default EmptyString first))) in
        let p := set_name p (copy_cstr (name p) 32 (Some (base_name base))) in
        set_cmdline p (if (String.length line =? 0)%nat then copy_cstr EmptyString 160 (Some (argv0 p)) else line)) s
  end.

(** ** The running domain *)

Definition current_proc (s : sys) : option (nat * proc) :=
  let* d := cell_current_domain_internal s in Some (d, get_proc s d).

Definition cell_current_as (s : sys) : option user_address_space := cell_domain_as (cell_current_domain_internal s) (y_k s).

Definition cell_current_pid (s : sys) : Z := match current_proc s with Some (_, p) => id p | None => 0 end.

Definition cell_current_tid (s : sys) : Z :=
  match (let* i := cell_current_thread_internal s in y_threads s !! i) with Some t => tid t | None => 0 end.

Definition cell_current_ppid (s : sys) : Z := match current_proc s with Some (_, p) => parent_id p | None => 0 end.

Definition cell_current_name (s : sys) : string := match current_proc s with Some (_, p) => name p | None => "-" end.

Definition cell_set_current_name (n : option string) (s : sys) : sys :=
  match cell_current_domain_internal s with
  | Some d => on_proc d (fun p => set_name p (copy_cstr (name p) 32 n)) s
  | None => s
  end.

(** ** Groups and sessions *)

Definition cell_getpgid (pid : Z) (s : sys) : Z :=
  match (if pid =? 0 then cell_current_domain_internal s else cell_find_domain pid s) with
  | None => - ESRCH
  | Some d => pgrp_id (get_proc s d)
  end.

Definition cell_setpgid (pid pgid : Z) (s : sys) : Z * sys :=
  match cell_current_domain_internal s with
  | None => (- ESRCH, s)
  | Some current =>
      match (if pid =? 0 then Some current else cell_find_domain pid s) with
      | None => (- ESRCH, s)
      | Some target =>
          if negb (target =? current)%nat && negb (parent_id (get_proc s target) =? id (get_proc s current))
          then (- EPERM, s) else
          let pgid := if pgid =? 0 then id (get_proc s target) else pgid in
          if pgid <? 0 then (- EINVAL, s) else
          (0, on_proc target (fun p => set_pgrp_id p pgid) s)
      end
  end.

Definition cell_getsid (pid : Z) (s : sys) : Z :=
  match (if pid =? 0 then cell_current_domain_internal s else cell_find_domain pid s) with
  | None => - ESRCH
  | Some d => session_id (get_proc s d)
  end.

Definition cell_setsid_current (s : sys) : Z * sys :=
  match current_proc s with
  | None => (- ESRCH, s)
  | Some (d, p) =>
      if pgrp_id p =? id p then (- EPERM, s) else
      (id p, on_proc d (fun p => set_pgrp_id (set_session_id p (id p)) (id p)) s)
  end.

(** ** Credentials *)

Definition cell_current_uid (s : sys) : Z := match current_proc s with Some (_, p) => uid p | None => 0 end.
Definition cell_current_euid (s : sys) : Z := match current_proc s with Some (_, p) => euid p | None => 0 end.
Definition cell_current_gid (s : sys) : Z := match current_proc s with Some (_, p) => gid p | None => 0 end.
Definition cell_current_egid (s : sys) : Z := match current_proc s with Some (_, p) => egid p | None => 0 end.

Definition cell_setuid_current (u : Z) (s : sys) : Z * sys :=
  match current_proc s with
  | None => (-1, s)
  | Some (d, p) =>
      if negb (euid p =? 0) && negb (u =? uid p) then (-1, s) else
      (0, on_proc d (fun p => set_euid (set_uid p u) u) s)
  end.

Definition cell_setgid_current (g : Z) (s : sys) : Z * sys :=
  match current_proc s with
  | None => (-1, s)
  | Some (d, p) =>
      if negb (euid p =? 0) && negb (g =? gid p) then (-1, s) else
      (0, on_proc d (fun p => set_egid (set_gid p g) g) s)
  end.

Definition cell_apply_exec_creds (mode u g : Z) (s : sys) : sys :=
  match cell_current_domain_internal s with
  | None => s
  | Some d =>
      on_proc d (fun p =>
        let p := if negb (mode .& 2048 =? 0) then set_euid p u else p in
        if negb (mode .& 1024 =? 0) then set_egid p g else p) s
  end.

(** ** Directories *)

Definition cell_current_cwd (s : sys) : string := match current_proc s with Some (_, p) => cwd p | None => "/" end.
Definition cell_current_fs_root (s : sys) : string := match current_proc s with Some (_, p) => fs_root p | None => "/" end.
Definition cell_current_chroot (s : sys) : string := match current_proc s with Some (_, p) => chroot p | None => "/" end.

Definition absolute (path : string) : bool := match path with String c _ => Ascii.eqb c "/"%char | EmptyString => false end.

Definition cell_set_cwd (path : option string) (s : sys) : bool * sys :=
  match cell_current_domain_internal s, path with
  | Some d, Some path =>
      if negb (absolute path) then (false, s) else
      if (256 <=? kstrlen path)%nat then (false, s) else (true, on_proc d (fun p => set_cwd p path) s)
  | _, _ => (false, s)
  end.

Definition cell_set_chroot (path : option string) (s : sys) : bool * sys :=
  match cell_current_domain_internal s, path with
  | Some d, Some path =>
      if negb (absolute path) then (false, s) else
      if (256 <=? kstrlen path)%nat then (false, s) else (true, on_proc d (fun p => set_chroot p path) s)
  | _, _ => (false, s)
  end.
End Domain.

End Domain.
