(* ===== verification/Reap.v ===== *)
(** The end of a domain: [cell_destroy_domain] of [kernel/src/proc/domain.c] and
    [cell_wake_parent_of] of [kernel/src/proc/process.c], which call each other.

    Destroying a domain gives its children to domain 1; a child that is a zombie
    may then be reaped, which destroys it in turn. [fuel] bounds the depth of
    these calls. *)

From Stdlib Require Import ZArith Lia.
From stdpp Require Import base numbers list option.
From S2P Require Import Prelude Mem Pmm Iface Vma Vmm Memory Thread Domain.
Import Vma Pmm Vmm Memory Thread Domain.

#[local] Open Scope Z_scope.
#[local] Open Scope c_scope.

(** The address of the local variable that is copied to or from user memory. *)
Class LocalBuffer := { stack_buffer : Z }.

(** What the process code uses of the descriptors ([kernel/src/proc/fd.c]), which
    may wake threads that wait on a pipe. *)
Class Host (V A : Type) `{FileStore V} `{LocalBuffer} := {
  close_all_fds : nat -> sys (V := V) (A := A) -> option (sys (V := V) (A := A));
  copy_fd_table : nat -> nat -> sys (V := V) (A := A) -> sys (V := V) (A := A);
  close_on_exec : nat -> sys (V := V) (A := A) -> option (sys (V := V) (A := A));
}.

Module Reap.

Section Reap.
Context {V A : Type} `{Host V A} `{Descriptors A}.
#[local] Notation sys := (sys (V := V) (A := A)).

(** The state as the memory code sees it. *)
Definition k_now (s : sys) : kst (V := V) :=
  let k := y_k s in mk_kst (k_world k) (process_mms k) (k_mms k) (k_domains k) (cell_current_domain_internal s).

(** [vmm_copy_to_user(as, va, &v, n)] and [vmm_copy_from_user(as, &v, va, n)] for
    a local variable [v] of [n] bytes. *)
Definition copy_value_out (as_ : user_address_space) (va v : Z) (n : nat) (s : sys) : option (bool * sys) :=
  let m := (s_world s).1 in
  let m := put_mem m (Mem.store_le (m_mem m) stack_buffer v n) in
  let* (ok, m) := vmm_copy_to_user as_ va stack_buffer (Z.of_nat n) m in
  Some (ok, set_machine s m).

Definition copy_value_in (as_ : user_address_space) (va : Z) (n : nat) (s : sys) : option (bool * Z * sys) :=
  let* (ok, m) := vmm_copy_from_user as_ stack_buffer va (Z.of_nat n) (s_world s).1 in
  Some (ok, Mem.load_le (m_mem m) stack_buffer n, set_machine s m).

Definition domain_has_running_thread (d : nat) (s : sys) : bool :=
  existsb (fun t => of_domain d t && (0 <=? running_cpu t)) (y_threads s).

(** The status word a parent receives. *)
Definition wait_status (p : proc) : Z :=
  if negb (term_signal p =? 0) then u32 (term_signal p) else u32 (Z.shiftl (exit_status p) 8).

(** A parent that waits for any child, or for this one. *)
Definition waits_for (child_id : Z) (t : thread) : bool :=
  blocked_on WAIT_CHILD t && ((wait_target t <? 0) || (wait_target t =? child_id)).

Section Wake.
Variable destroy : nat -> sys -> option sys.

Definition wake_parent_of (child : nat) (s : sys) : option sys :=
  let c := get_proc s child in
  let s := cell_wake_vfork_parent_of (id c) s in
  match cell_find_domain (parent_id c) s with
  | None => Some s
  | Some parent_domain =>
      match (let* i := cell_thread_for_domain parent_domain s in let* t := y_threads s !! i in Some (i, t)) with
      | None => Some s
      | Some (i, parent) =>
          if negb (waits_for (id c) parent) then Some s else
          let child_is_current := bool_decide (cell_current_domain_internal s = Some child) in
          let child_is_running := domain_has_running_thread child s in
          let status_addr := get_x (tf parent) 1 in
          let* s := match cell_domain_as (Some parent_domain) (y_k s) with
                    | Some as_ =>
                        if negb (status_addr =? 0)
                        then let* (_, s) := copy_value_out as_ status_addr (wait_status c) 4 s in Some s
                        else Some s
                    | None => Some s
                    end in
          let s := on_thread i (fun t => set_result t (u64 (id c))) s in
          let keep := child_is_current || child_is_running in
          let s := match cell_thread_for_domain child s with
                   | Some j => on_thread j (fun t => set_state t (if keep then THREAD_ZOMBIE else THREAD_UNUSED)) s
                   | None => s
                   end in
          let* s := if keep then Some (on_proc child (fun p => set_parent_id p 0) s) else destroy child s in
          Some (on_thread i (fun t => set_wait_target (wake t) (-1)) s)
      end
  end.

(** The loop over the children, [n] slots from [i] on. *)
Fixpoint reparent_from (d_id reparent_to : Z) (i n : nat) (s : sys) : option sys :=
  match n with
  | O => Some s
  | S n =>
      if negb (domain_used s i) || negb (parent_id (get_proc s i) =? d_id)
      then reparent_from d_id reparent_to (S i) n s
      else
        let s := on_proc i (fun p => set_parent_id p reparent_to) s in
        let* s := if zombie (get_proc s i) && negb (reparent_to =? 0) then wake_parent_of i s else Some s in
        reparent_from d_id reparent_to (S i) n s
  end.
End Wake.

Definition unhook (d : nat) (t : thread) : thread :=
  if of_domain d t then set_t_domain (set_running_cpu (set_state t THREAD_UNUSED) (-1)) None else t.

Definition drop_mm (d : nat) (s : sys) : option sys :=
  let* k := cell_mm_release (domain_mm (Some d) (y_k s)) (k_now s) in
  let k := set_domains k (alter (fun x => set_d_mm x None) d (k_domains k)) in
  Some (set_y_k s k).

Fixpoint destroy_domain (fuel : nat) (d : nat) (s : sys) : option sys :=
  match fuel with
  | O => None
  | S fuel =>
      let d_id := id (get_proc s d) in
      let reparent_to := if negb (d_id =? 1) && negb (bool_decide (cell_find_domain 1 s = None)) then 1 else 0 in
      let* s := reparent_from (destroy_domain fuel) d_id reparent_to 0 (domain_capacity s) s in
      let s := set_y_threads s (unhook d <$> y_threads s) in
      let* s := close_all_fds d s in
      let* s := drop_mm d s in
      Some (on_proc d (fun p => set_refcount (set_zombie p false) 0) (put_used s d false))
  end.

(** Every call below another one is for a child that was given to domain 1. *)
Definition reap_fuel (s : sys) : nat := S (length (y_procs s)).

Definition cell_destroy_domain (d : nat) (s : sys) : option sys := destroy_domain (reap_fuel s) d s.
Definition cell_wake_parent_of (child : nat) (s : sys) : option sys :=
  wake_parent_of (destroy_domain (reap_fuel s)) child s.
End Reap.

End Reap.
