(* ===== verification/Sched.v ===== *)
(** The scheduler ([cell_schedule] and the blocking calls of
    [kernel/src/proc/thread.c]).

    A turn of the loop of [cell_schedule] either switches to a thread, waits for
    an interrupt with the kernel lock released, or stops the machine. While a
    processor waits its local variables are kept in [idle]; the next turn takes
    them up again. *)

From Stdlib Require Import ZArith Lia.
From stdpp Require Import base numbers list option.
From S2P Require Import Prelude Mem Pmm Iface Vma Vmm Memory Thread Domain Reap.
Import Vma Pmm Vmm Memory Thread Domain Reap.

#[local] Open Scope Z_scope.
#[local] Open Scope c_scope.

Module Sched.

(** The local variables [current_thread], [old_domain] and [start]. *)
Record idle := mk_idle { i_current : option nat; i_old_domain : option nat; i_start : nat }.

Section Sched.
Context {V A : Type} `{Host V A} `{Descriptors A}.
#[local] Notation sys := (sys (V := V) (A := A)).

(** How a call that may switch threads ends: without a switch and with a result,
    in another thread with its frame, waiting, or with the machine off. *)
Inductive switch :=
| Stay (rc : Z) (frame : trap_frame) (s : sys)
| Switched (frame : trap_frame) (s : sys)
| Waiting (l : idle) (s : sys)
| Halted (s : sys).

Definition cleanup_reaped_current_domain (old_domain : option nat) (next : nat) (s : sys) : option sys :=
  match old_domain with
  | None => Some s
  | Some d =>
      if bool_decide ((let* t := y_threads s !! next in t_domain t) = Some d) || negb (zombie (get_proc s d)) ||
         negb (parent_id (get_proc s d) =? 0) then Some s else
      if domain_has_running_thread d s then Some s else cell_destroy_domain d s
  end.

(** The first of the slots [start], [start + 1], ... round the table that [p]
    accepts. *)
Definition scan (p : thread -> bool) (start : nat) (s : sys) : option nat :=
  let* n := first_from (fun n => thread_is p s ((start + n) mod thread_capacity s)) 0 (thread_capacity s) in
  Some ((start + n) mod thread_capacity s)%nat.

Definition free_runnable (t : thread) : bool := bool_decide (state t = THREAD_RUNNABLE) && (running_cpu t <? 0).
Definition own_runnable (c : Z) (t : thread) : bool :=
  bool_decide (state t = THREAD_RUNNABLE) && ((running_cpu t <? 0) || (running_cpu t =? c)).

Definition runs_on (c : Z) (s : sys) (i : nat) : bool := thread_is (fun t => running_cpu t =? c) s i.

(** The switch to [candidate]. *)
Definition take (old_domain : option nat) (candidate : nat) (s : sys) : option switch :=
  let s := smp_set_current_thread_slot (y_cpu s) (Some candidate) s in
  let s := on_thread candidate (fun t => set_running_cpu t (Z.of_nat (y_cpu s))) s in
  let* s := cleanup_reaped_current_domain old_domain candidate s in
  let* (frame, s) := restore_thread candidate s in
  Some (Switched frame s).

Definition leave (i : nat) (s : sys) : sys := on_thread i (fun t => set_running_cpu t (-1)) s.

Definition elsewhere (c : Z) (t : thread) : bool :=
  bool_decide (state t = THREAD_RUNNABLE) && (0 <=? running_cpu t) && negb (running_cpu t =? c).

Definition wait_or_halt (l : idle) (s : sys) : switch :=
  let has_blocked := existsb (fun t => bool_decide (state t = THREAD_BLOCKED)) (y_threads s) in
  let has_running_elsewhere := existsb (elsewhere (Z.of_nat (y_cpu s))) (y_threads s) in
  if has_blocked || has_running_elsewhere then Waiting l (smp_set_scheduler_waiting (y_cpu s) true s) else Halted s.

(** One turn of the loop. *)
Definition schedule_turn (l : idle) (s : sys) : option switch :=
  let c := Z.of_nat (y_cpu s) in
  let first :=
    match i_current l with
    | Some i => if thread_is (fun t => bool_decide (state t = THREAD_RUNNABLE)) s i
                then scan (own_runnable c) (i_start l) s else None
    | None => None
    end in
  match first with
  | Some candidate =>
      let s := match i_current l with
               | Some i => if negb (i =? candidate)%nat && runs_on c s i then leave i s else s
               | None => s
               end in
      take (i_old_domain l) candidate s
  | None =>
      match scan free_runnable (i_start l) s with
      | Some candidate =>
          let s := match i_current l with Some i => if runs_on c s i then leave i s else s | None => s end in
          take (i_old_domain l) candidate s
      | None => Some (wait_or_halt l s)
      end
  end.

Definition cell_schedule (frame : trap_frame) (s : sys) : option switch :=
  let cur := cell_current_thread_internal s in
  let old_domain := cell_current_domain_internal s in
  let s := cell_save_current frame s in
  let start := match cur with None => O | Some i => S i end in
  schedule_turn (mk_idle cur old_domain start) s.

(** After the interrupt: the processor holds the lock again and takes a turn. *)
Definition schedule_resume (l : idle) (s : sys) : option switch :=
  schedule_turn l (smp_set_scheduler_waiting (y_cpu s) false s).

(** ** Blocking *)

(** The running thread is saved, changed by [f] and leaves its processor. *)
Definition block_current (f : thread -> thread) (frame : trap_frame) (s : sys) : option switch :=
  let* i := cell_current_thread_internal s in
  let s := cell_save_current frame s in
  cell_schedule frame (on_thread i (fun t => f (set_state (set_running_cpu t (-1)) THREAD_BLOCKED)) s).

Definition cell_block_current_on_pipe (fd buf len : Z) (write : bool) : trap_frame -> sys -> option switch :=
  block_current (fun t =>
    set_pipe_write (set_pipe_len (set_pipe_buf (set_wait_target (set_reason t WAIT_PIPE) fd) buf) len) write).

Definition cell_block_current_on_sleep (deadline_tick : Z) : trap_frame -> sys -> option switch :=
  block_current (fun t => set_sleep_deadline_tick (set_reason t WAIT_SLEEP) deadline_tick).

Definition cell_sleep_current (timeout_ticks : Z) (frame : trap_frame) (s : sys) : option switch :=
  match cell_current_thread_internal s, cell_current_domain_internal s with
  | Some _, Some _ =>
      if timeout_ticks =? 0 then Some (Stay 0 frame s) else
      cell_block_current_on_sleep (u64 (y_ticks s + timeout_ticks)) frame s
  | _, _ => Some (Stay (- EINVAL) frame s)
  end.

Definition deadline (timeout_ticks : Z) (s : sys) : Z :=
  if timeout_ticks =? 0 then 0 else u64 (y_ticks s + timeout_ticks).

(** A wait on the socket [fd]; [w] receives the field the calls leave alone. *)
Definition wait_socket (fd buf len : Z) (w : Z -> socket_wait) (t : thread) : thread :=
  let t := set_pipe_len (set_pipe_buf (set_wait_target (set_reason t WAIT_SOCKET) fd) buf) len in
  set_pipe_write (set_sock t (w (socket_accept_flags (sock t)))) false.

Definition cell_block_current_on_socket_flags_timeout (fd buf len addr addrlen flags timeout_ticks : Z)
    (frame : trap_frame) (s : sys) : option switch :=
  block_current (wait_socket fd buf len (fun accept =>
    mk_socket_wait addr addrlen accept false false 0 0 0 flags (negb (timeout_ticks =? 0)) (deadline timeout_ticks s)))
    frame s.

Definition cell_block_current_on_socket_timeout (fd buf len addr addrlen timeout_ticks : Z) :
    trap_frame -> sys -> option switch :=
  cell_block_current_on_socket_flags_timeout fd buf len addr addrlen 0 timeout_ticks.

Definition cell_block_current_on_socket (fd buf len addr addrlen : Z) : trap_frame -> sys -> option switch :=
  cell_block_current_on_socket_timeout fd buf len addr addrlen 0.

Definition cell_block_current_on_socket_write_timeout (fd buf len timeout_ticks : Z)
    (frame : trap_frame) (s : sys) : option switch :=
  block_current (wait_socket fd buf len (fun accept =>
    mk_socket_wait 0 0 accept true false 0 0 0 0 (negb (timeout_ticks =? 0)) (deadline timeout_ticks s))) frame s.

Definition cell_block_current_on_socket_sendmsg_timeout (fd msg_addr timeout_ticks : Z)
    (frame : trap_frame) (s : sys) : option switch :=
  block_current (wait_socket fd 0 0 (fun accept =>
    mk_socket_wait 0 0 accept true true msg_addr 0 0 0 (negb (timeout_ticks =? 0)) (deadline timeout_ticks s))) frame s.

Definition cell_block_current_on_socket_msg_timeout (fd msg_addr iov iovlen addr addrlen flags timeout_ticks : Z)
    (frame : trap_frame) (s : sys) : option switch :=
  block_current (wait_socket fd 0 0 (fun accept =>
    mk_socket_wait addr addrlen accept false true msg_addr iov iovlen flags (negb (timeout_ticks =? 0))
      (deadline timeout_ticks s))) frame s.

Definition cell_block_current_on_socket_msg (fd msg_addr iov iovlen addr addrlen flags : Z) :
    trap_frame -> sys -> option switch :=
  cell_block_current_on_socket_msg_timeout fd msg_addr iov iovlen addr addrlen flags 0.
End Sched.

End Sched.
