(* ===== verification/Futex.v ===== *)
(** Futexes ([kernel/src/proc/futex.c]). *)

From Stdlib Require Import ZArith Lia.
From stdpp Require Import base numbers list option.
From S2P Require Import Prelude Mem Pmm Iface Vma Vmm Memory Thread Domain Reap Sched.
Import Vma Pmm Vmm Memory Thread Domain Reap Sched.

#[local] Open Scope Z_scope.
#[local] Open Scope c_scope.

Module Futex.

Definition EAGAIN : Z := 11.
Definition EFAULT : Z := 14.
Definition EINVAL : Z := 22.
Definition ROBUST_LIST_LIMIT : nat := 16.
Definition FUTEX_OWNER_DIED : Z := 0x40000000.

Section Futex.
Context {V A : Type} `{Host V A} `{Descriptors A}.
#[local] Notation sys := (sys (V := V) (A := A)).
#[local] Notation switch := (switch (V := V) (A := A)).

(** A thread of the domain that waits on the address. *)
Definition waiter (d : nat) (uaddr : Z) (t : thread) : bool :=
  of_domain d t && blocked_on WAIT_FUTEX t && (futex_addr t =? uaddr).

Definition woken (t : thread) : thread := set_result (set_futex_addr (wake t) 0) 0.

(** The loop over the threads: at most [count - woke] more are woken. *)
Fixpoint wake_waiters (d : nat) (uaddr count woke : Z) (l : list thread) : Z * list thread :=
  match l with
  | [] => (woke, [])
  | t :: rest =>
      if negb (woke <? count) then (woke, t :: rest) else
      if waiter d uaddr t then
        let '(n, rest) := wake_waiters d uaddr count (woke + 1) rest in (n, woken t :: rest)
      else let '(n, rest) := wake_waiters d uaddr count woke rest in (n, t :: rest)
  end.

Definition cell_futex_wake_domain (d : nat) (uaddr count : Z) (s : sys) : Z * sys :=
  let '(n, l) := wake_waiters d uaddr count 0 (y_threads s) in (n, set_y_threads s l).

(** [cell_ensure_user_range] for the running domain. *)
Definition ensure_range (va len : Z) (access : vmm_access) (s : sys) : option (bool * sys) :=
  let* (ok, k) := cell_ensure_user_range va len access (k_now s) in Some (ok, set_y_k s k).

(** ** Robust lists *)

Definition robust_wake_entry (d : nat) (entry futex_offset : Z) (s : sys) : option sys :=
  let addr := u64 (entry + futex_offset) in
  if negb (addr .& 3 =? 0) then Some s else
  let* (ok, s) := ensure_range addr 4 VMM_ACCESS_WRITE s in
  if negb ok then Some s else
  let* as_ := cell_domain_as (Some d) (y_k s) in
  let* (ok, word, s) := copy_value_in as_ addr 4 s in
  if negb ok then Some s else
  let* (_, s) := copy_value_out as_ addr (word .| FUTEX_OWNER_DIED) 4 s in
  Some (cell_futex_wake_domain d addr 1 s).2.

(** The walk over the list of [head], [n] more entries at most. *)
Fixpoint robust_walk (d : nat) (list_head futex_offset node : Z) (n : nat) (s : sys) : option sys :=
  match n with
  | O => Some s
  | S n =>
      if (node =? 0) || (node =? list_head) then Some s else
      let* (ok, s) := ensure_range node 8 VMM_ACCESS_READ s in
      if negb ok then Some s else
      let* as_ := cell_domain_as (Some d) (y_k s) in
      let* (ok, next, s) := copy_value_in as_ node 8 s in
      if negb ok then Some s else
      let* s := robust_wake_entry d node futex_offset s in
      robust_walk d list_head futex_offset next n s
  end.

(** The three words of [struct robust_list_head64] are read with one copy. *)
Definition cell_futex_cleanup_robust_list (i : nat) (s : sys) : option sys :=
  let* t := y_threads s !! i in
  match t_domain t with
  | None => Some s
  | Some d =>
      let list_head := robust_list t in
      if list_head =? 0 then Some s else
      let* (ok, s) := ensure_range list_head 24 VMM_ACCESS_READ s in
      if negb ok then Some s else
      let* as_ := cell_domain_as (Some d) (y_k s) in
      let* (ok, m) := vmm_copy_from_user as_ stack_buffer list_head 24 (s_world s).1 in
      let s := set_machine s m in
      if negb ok then Some s else
      let next := Mem.load64 (m_mem m) stack_buffer in
      let futex_offset := Mem.load64 (m_mem m) (stack_buffer + 8) in
      let pending := Mem.load64 (m_mem m) (stack_buffer + 16) in
      let* s := if negb (pending =? 0) then robust_wake_entry d pending futex_offset s else Some s in
      robust_walk d list_head futex_offset next ROBUST_LIST_LIMIT s
  end.

Definition cell_set_robust_list_current (addr : Z) (s : sys) : Z * sys :=
  match cell_current_thread_internal s with
  | None => (- EINVAL, s)
  | Some i => (0, on_thread i (fun t => set_robust_list t addr) s)
  end.

(** ** Waiting *)

Definition cell_futex_wait_current (uaddr expected : Z) (frame : trap_frame) (s : sys) : option switch :=
  match cell_current_domain_internal s, cell_current_thread_internal s with
  | Some d, Some i =>
      if negb (uaddr .& 3 =? 0) then Some (Stay (- EINVAL) frame s) else
      let* (ok, s) := ensure_range uaddr 4 VMM_ACCESS_READ s in
      if negb ok then Some (Stay (- EFAULT) frame s) else
      let* as_ := cell_domain_as (Some d) (y_k s) in
      let* (ok, actual, s) := copy_value_in as_ uaddr 4 s in
      if negb ok then Some (Stay (- EFAULT) frame s) else
      if negb (actual =? expected) then Some (Stay (- EAGAIN) frame s) else
      block_current (fun t => set_futex_addr (set_reason t WAIT_FUTEX) uaddr) frame s
  | _, _ => Some (Stay (- EINVAL) frame s)
  end.

Definition cell_futex_wake_current (uaddr count : Z) (s : sys) : Z * sys :=
  match cell_current_domain_internal s with
  | None => (- EINVAL, s)
  | Some d =>
      if negb (uaddr .& 3 =? 0) then (- EINVAL, s) else
      if count =? 0 then (0, s) else cell_futex_wake_domain d uaddr count s
  end.
End Futex.

End Futex.
