(* ===== verification/Process.v ===== *)
(** Processes ([kernel/src/proc/process.c]): exit, fork, clone, wait and the
    replacement of a program. *)

From Stdlib Require Import ZArith Lia Ascii String.
From stdpp Require Import base numbers list option.
From S2P Require Import Prelude Mem Pmm Iface Vma Vmm Policy Memory Thread Domain Reap Sched Futex.
Import Kstr Vma Pmm Vmm Memory Thread Domain Reap Sched Futex.

#[local] Open Scope Z_scope.
#[local] Open Scope c_scope.

Module Process.

Definition ECHILD : Z := 10.
Definition ENOMEM : Z := 12.
Definition WNOHANG : Z := 1.
Definition CLONE_SETTLS : Z := 0x00080000.
Definition CLONE_PARENT_SETTID : Z := 0x00100000.
Definition CLONE_CHILD_CLEARTID : Z := 0x00200000.
Definition CLONE_CHILD_SETTID : Z := 0x01000000.

Section Process.
Context {V A : Type} `{Host V A} `{Descriptors A}.
#[local] Notation sys := (sys (V := V) (A := A)).
#[local] Notation switch := (switch (V := V) (A := A)).

(** ** Exit *)

(** [clear_child_tid]: the word is cleared and a waiter on it woken. *)
Definition clear_tid (d i : nat) (s : sys) : option sys :=
  let* t := y_threads s !! i in
  if clear_child_tid t =? 0 then Some s else
  let* s := match cell_domain_as (Some d) (y_k s) with
            | Some as_ => let* (_, s) := copy_value_out as_ (clear_child_tid t) 0 4 s in Some s
            | None => Some s
            end in
  Some (cell_futex_wake_domain d (clear_child_tid t) 1 s).2.

Definition mark_exited (status : Z) (p : proc) : proc := set_zombie (set_term_signal (set_exit_status p status) 0) true.

Definition cell_exit_thread_current (status : Z) (frame : trap_frame) (s : sys) : option switch :=
  match cell_current_thread_internal s with
  | None => Some (Stay 0 frame s)
  | Some i =>
      let* t := y_threads s !! i in
      let* d := t_domain t in
      let* s := cell_futex_cleanup_robust_list i s in
      let* s := clear_tid d i s in
      if (cell_runnable_or_blocked_threads_in_domain d s <=? 1)%nat then
        let* s := close_all_fds d (on_proc d (mark_exited status) s) in
        let s := on_thread i (fun t => set_running_cpu (set_state t THREAD_ZOMBIE) (-1)) s in
        let* s := cell_wake_parent_of d s in
        cell_schedule frame s
      else cell_schedule frame (cell_release_thread (Some i) s)
  end.

(** A thread of the domain other than the current one, on exit of the group. *)
Definition end_thread (d : nat) (current : nat) (i : nat) (s : sys) : sys :=
  match y_threads s !! i with
  | None => s
  | Some t =>
      if (i =? current)%nat || negb (of_domain d t) then s else
      if 0 <=? running_cpu t then put_thread s i (set_state t THREAD_ZOMBIE) else
      on_proc d drop_refcount (put_thread s i (set_t_domain (set_running_cpu (set_state t THREAD_UNUSED) (-1)) None))
  end.

Fixpoint on_slots (f : nat -> sys -> sys) (i n : nat) (s : sys) : sys :=
  match n with O => s | S n => on_slots f (S i) n (f i s) end.

Definition cell_exit_group_current (status : Z) (frame : trap_frame) (s : sys) : option switch :=
  match cell_current_thread_internal s with
  | None => Some (Stay 0 frame s)
  | Some i =>
      let* t := y_threads s !! i in
      let* d := t_domain t in
      let* s := clear_tid d i s in
      let* s := close_all_fds d (on_proc d (mark_exited status) s) in
      let s := on_slots (end_thread d i) 0 (thread_capacity s) s in
      let s := on_thread i (fun t => set_running_cpu (set_state t THREAD_ZOMBIE) (-1)) s in
      let* s := cell_wake_parent_of d s in
      cell_schedule frame s
  end.

(** ** New processes and threads *)

(** What a new thread takes over from the running one. *)
Definition child_context (stack : Z) (sp size flags : Z) (parent t : thread) : thread :=
  let t := set_fp (set_tf (set_state t THREAD_RUNNABLE) (tf parent)) (fp parent) in
  let t := set_sig t (mk_signals (signal_mask (sig parent)) 0 sp size flags) in
  let t := set_result t 0 in
  if negb (stack =? 0) then set_tf t (set_sp_el0 (tf t) stack) else t.

Definition inherit (stack : Z) (parent t : thread) : thread :=
  child_context stack (sigaltstack_sp (sig parent)) (sigaltstack_size (sig parent)) (sigaltstack_flags (sig parent))
    parent t.

(** The running thread, read again after each change of the table. *)
Definition current (s : sys) : option (nat * thread) :=
  let* i := cell_current_thread_internal s in let* t := y_threads s !! i in Some (i, t).

Definition cell_fork_current (vma_hhdm_offset : Z) (frame : trap_frame) (s : sys) : option (Z * sys) :=
  let parent := cell_current_domain_internal s in
  let '(child, s) := cell_alloc_domain s in
  match parent, domain_mm parent (y_k s) with
  | Some p, Some mm =>
      match child with
      | None => Some (- EAGAIN, s)
      | Some c =>
          let '(th, s) := cell_alloc_thread c s in
          match th with
          | None => Some (- EAGAIN, put_used s c false)
          | Some j =>
              let s := cell_save_current frame s in
              let* (child_mm, k) := cell_mm_clone_cow vma_hhdm_offset (Some mm) (k_now s) in
              let* (ok, k) := match child_mm with
                              | None => Some (false, k)
                              | Some _ => cell_domain_set_mm (Some c) child_mm k
                              end in
              if negb ok then
                let* k := match child_mm with Some _ => cell_mm_release child_mm k | None => Some k end in
                let s := on_thread j (fun t => set_state t THREAD_UNUSED) (set_y_k s k) in
                Some (- ENOMEM, put_used s c false)
              else
                let s := set_y_k s k in
                let s := copy_fd_table c p (cell_copy_domain_metadata c p s) in
                let s := on_proc c (fun q => set_parent_id q (id (get_proc s p))) s in
                let* (i, t) := current s in
                let s := on_thread j (fun u => set_tpidr_el0 (inherit 0 t u) (tpidr_el0 t)) s in
                let child_id := id (get_proc s c) in
                let s := on_thread i (fun t => set_result t (u64 child_id)) s in
                let s := on_proc c (fun q => set_name q (copy_cstr (name q) 32 (Some (name (get_proc s p))))) s in
                Some (child_id, s)
          end
      end
  | _, _ => Some (- ENOMEM, s)
  end.

(** [CLONE_PARENT_SETTID] and [CLONE_CHILD_SETTID]: [false] when the word could not
    be written. *)
Definition set_tid_word (flags flag addr v : Z) (as_ : option user_address_space) (s : sys) : option (bool * sys) :=
  if negb (flags .& flag =? 0) && negb (addr =? 0) then
    match as_ with None => Some (false, s) | Some as_ => copy_value_out as_ addr (u32 v) 4 s end
  else Some (true, s).

Definition abandon (j c : nat) (s : sys) : option sys := cell_destroy_domain c (cell_release_thread (Some j) s).

(** The child [c] with the thread [j] is complete: the words are written, and the
    thread [i] of the parent [p] waits until the child leaves its address space. *)
Definition vfork_switch (frame : trap_frame) (p c i j : nat) (flags parent_tid child_tid : Z) (s : sys) :
    option switch :=
  let child_id := id (get_proc s c) in
  let* (ok, s) := set_tid_word flags CLONE_PARENT_SETTID parent_tid child_id (cell_domain_as (Some p) (y_k s)) s in
  if negb ok then let* s := abandon j c s in Some (Stay (- EFAULT) frame s) else
  let* (ok, s) := set_tid_word flags CLONE_CHILD_SETTID child_tid child_id (cell_domain_as (Some c) (y_k s)) s in
  if negb ok then let* s := abandon j c s in Some (Stay (- EFAULT) frame s) else
  let s := on_thread i (fun t => set_result t (u64 child_id)) s in
  let frame := put_x frame 0 (u64 child_id) in
  let s := on_proc c (fun q => set_name q (copy_cstr (name q) 32 (Some (name (get_proc s p))))) s in
  let s := on_thread i (fun t =>
    set_wait_target (set_reason (set_running_cpu (set_state t THREAD_BLOCKED) (-1)) WAIT_VFORK) child_id) s in
  cell_schedule frame s.

Definition cell_vfork_current (frame : trap_frame) (newsp flags parent_tid tls child_tid : Z) (s : sys) :
    option switch :=
  match cell_current_domain_internal s, domain_mm (cell_current_domain_internal s) (y_k s) with
  | Some p, Some mm =>
      let '(child, s) := cell_alloc_domain s in
      match child with
      | None => Some (Stay (- EAGAIN) frame s)
      | Some c =>
          let '(th, s) := cell_alloc_thread c s in
          match th with
          | None => Some (Stay (- EAGAIN) frame (put_used s c false))
          | Some j =>
              let s := cell_save_current frame s in
              let '(m, k) := cell_mm_retain (Some mm) (k_now s) in
              let* (ok, k) := cell_domain_set_mm (Some c) m k in
              let s := set_y_k s k in
              if negb ok then
                Some (Stay (- ENOMEM) frame (put_used (on_thread j (fun t => set_state t THREAD_UNUSED) s) c false))
              else
                let s := copy_fd_table c p (cell_copy_domain_metadata c p s) in
                let s := on_proc c (fun q => set_parent_id q (id (get_proc s p))) s in
                let* (i, t) := current s in
                let s := on_thread j (fun u =>
                  let u := set_tpidr_el0 (inherit newsp t u)
                             (if negb (flags .& CLONE_SETTLS =? 0) then tls else tpidr_el0 t) in
                  set_clear_child_tid u (if negb (flags .& CLONE_CHILD_CLEARTID =? 0) then child_tid else 0)) s in
                vfork_switch frame p c i j flags parent_tid child_tid s
          end
      end
  | _, _ => Some (Stay (- ENOMEM) frame s)
  end.

Definition cell_clone_thread_current (frame : trap_frame) (flags newsp parent_tid tls child_tid : Z) (s : sys) :
    option (Z * sys) :=
  match cell_current_domain_internal s, cell_current_thread_internal s with
  | Some d, Some _ =>
      if newsp =? 0 then Some (-22, s) else
      let '(th, s) := cell_alloc_thread d s in
      match th with
      | None => Some (- EAGAIN, s)
      | Some j =>
          let s := cell_save_current frame s in
          let* (i, t) := current s in
          let s := on_thread j (fun u =>
            let u := set_tpidr_el0 (child_context newsp 0 0 2 t u)
                       (if negb (flags .& CLONE_SETTLS =? 0) then tls else tpidr_el0 t) in
            set_clear_child_tid u (if negb (flags .& CLONE_CHILD_CLEARTID =? 0) then child_tid else 0)) s in
          let* u := y_threads s !! j in
          let as_ := cell_domain_as (Some d) (y_k s) in
          let* (_, s) := set_tid_word flags CLONE_PARENT_SETTID parent_tid (tid u) as_ s in
          let* (_, s) := set_tid_word flags CLONE_CHILD_SETTID child_tid (tid u) as_ s in
          Some (tid u, on_thread i (fun t => set_result t (u64 (tid u))) s)
      end
  | _, _ => Some (-22, s)
  end.

Definition cell_set_tid_address_current (addr : Z) (s : sys) : Z * sys :=
  match current s with
  | None => (0, s)
  | Some (i, t) => (tid t, on_thread i (fun t => set_clear_child_tid t addr) s)
  end.

(** ** Wait *)

Definition child_of (parent pid : Z) (s : sys) (d : nat) : bool :=
  domain_used s d && (parent_id (get_proc s d) =? parent) && ((pid <=? 0) || (id (get_proc s d) =? pid)).

Definition find_waitable_child (parent pid : Z) (s : sys) : option nat :=
  first_from (fun d => zombie (get_proc s d) && child_of parent pid s d) 0 (domain_capacity s).

Definition has_child (parent pid : Z) (s : sys) : bool :=
  existsb (child_of parent pid s) (seq 0 (domain_capacity s)).

(** The zombie [child] is collected by the running thread. *)
Definition reap_child (child : nat) (s : sys) : option sys :=
  let th := cell_thread_for_domain child s in
  let mark st := match th with Some j => on_thread j (fun t => set_state t st) s | None => s end in
  if domain_has_running_thread child s
  then Some (on_proc child (fun p => set_parent_id p 0) (mark THREAD_ZOMBIE))
  else cell_destroy_domain child (mark THREAD_UNUSED).

Definition cell_wait4_options (pid status_addr options : Z) (frame : trap_frame) (s : sys) : option switch :=
  match cell_current_domain_internal s with
  | None => Some (Stay (- ECHILD) frame s)
  | Some d =>
      let parent := id (get_proc s d) in
      match find_waitable_child parent pid s with
      | None =>
          if negb (has_child parent pid s) then Some (Stay (- ECHILD) frame s) else
          if negb (options .& WNOHANG =? 0) then Some (Stay 0 frame s) else
          block_current (fun t => set_wait_target (set_reason t WAIT_CHILD) pid) frame s
      | Some child =>
          let c := get_proc s child in
          let* (ok, s) := if negb (status_addr =? 0) then
              match cell_domain_as (Some d) (y_k s) with
              | None => Some (false, s)
              | Some as_ => copy_value_out as_ status_addr (wait_status c) 4 s
              end
            else Some (true, s) in
          if negb ok then Some (Stay (-14) frame s) else
          let* s := reap_child child s in
          let s := match cell_current_thread_internal s with
                   | Some i => on_thread i (fun t => set_reason (set_wait_target t (-1)) WAIT_NONE) s
                   | None => s
                   end in
          Some (Stay (id c) frame s)
      end
  end.

Definition cell_wait4 (pid status_addr : Z) : trap_frame -> sys -> option switch := cell_wait4_options pid status_addr 0.

(** ** A new program *)

(** A thread of the domain other than the current one, when the program is
    replaced. *)
Definition drop_thread (d : nat) (current : nat) (i : nat) (s : sys) : sys :=
  match y_threads s !! i with
  | None => s
  | Some t =>
      if (i =? current)%nat || negb (of_domain d t) then s else
      on_proc d drop_refcount (put_thread s i (set_t_domain (set_state t THREAD_UNUSED) None))
  end.

Definition entry_frame (entry sp : Z) : trap_frame := mk_frame (replicate 31 0) sp entry 0x340 0 0.

Definition cell_exec_replace (as_ : option user_address_space) (vmas : option vma_list) (entry sp : Z)
    (frame : trap_frame) (path : option string) (argv : list string) (s : sys) : option (bool * trap_frame * sys) :=
  match cell_current_domain_internal s, cell_current_thread_internal s with
  | Some d, Some i =>
      let '(new_mm, _, _, k) := cell_mm_from_owned as_ vmas (k_now s) in
      let s := set_y_k s k in
      match new_mm with
      | None => Some (false, frame, s)
      | Some _ =>
          let s := on_slots (drop_thread d i) 0 (thread_capacity s) s in
          let* s := close_on_exec d s in
          let* (_, k) := cell_domain_set_mm (Some d) new_mm (k_now s) in
          let s := on_proc d (fun p => set_signal_actions p (replicate 65 (mk_action 0 0 0 0))) (set_y_k s k) in
          let s := cell_set_domain_identity (Some d) path argv s in
          let* installed := cell_domain_as (Some d) (y_k s) in
          let s := set_machine s (vmm_install_user installed (s_world s).1) in
          let frame := entry_frame entry sp in
          let s := on_thread i (fun t => set_tpidr_el0 (set_fp (set_tf t frame) zero_fp) 0) s in
          let s := on_cpu (y_cpu s) (fun p => set_cpu_tpidr (set_cpu_fp p zero_fp) 0) s in
          Some (true, frame, cell_wake_vfork_parent_of (id (get_proc s d)) s)
      end
  | _, _ => Some (false, frame, s)
  end.

Definition cell_set_budget (domain_id ticks : Z) (s : sys) : Z * sys :=
  match (if domain_id =? 0 then cell_current_domain_internal s else cell_find_domain domain_id s) with
  | None => (-3, s)
  | Some d => (0, on_proc d (fun p => set_budget p (Policy.mk_budget ticks ticks)) s)
  end.
End Process.

End Process.
