(* ===== verification/SchedInv.v ===== *)
(** What the process code may do to the running threads.

    [mild c s s'] is the change a handler on processor [c] makes before it
    switches: no thread starts to run, and no thread of another processor stops
    or loses its slot. Every operation of [Thread], [Domain],
    [Reap], [Futex] and [Process] is shown to be mild; [c] is [-1] for the
    operations after which the running thread goes on. *)

From Stdlib Require Import ZArith Lia.
From stdpp Require Import base numbers list option.
From S2P Require Import Prelude Mem Pmm Iface Vma Vmm Memory Thread Domain Reap Sched Futex Process.
Import Vma Pmm Vmm Memory Thread Domain Reap Sched Futex Process.

#[local] Open Scope Z_scope.
#[local] Open Scope c_scope.

(** The processor on which a thread runs; the slots of a fresh table say
    processor 0. *)
Definition cpu_of (t : thread) : Z := if bool_decide (state t = THREAD_UNUSED) then -1 else running_cpu t.

Lemma cpu_of_runs t : 0 <= cpu_of t -> state t <> THREAD_UNUSED /\ running_cpu t = cpu_of t.
Proof. unfold cpu_of. case_bool_decide; [lia|done]. Qed.

Lemma cpu_of_used t : state t <> THREAD_UNUSED -> cpu_of t = running_cpu t.
Proof. intros Hs. unfold cpu_of. by rewrite bool_decide_false. Qed.

Record tmild (c : Z) (t t' : thread) : Prop := {
  tm_runs : 0 <= running_cpu t' ->
    running_cpu t' = running_cpu t /\ (t_domain t' = t_domain t \/ t_domain t' = None);
  tm_stops : 0 <= cpu_of t -> cpu_of t' = cpu_of t \/ cpu_of t = c;
}.

Lemma tmild_refl c t : tmild c t t.
Proof. split; auto. Qed.

Lemma tmild_trans c t t1 t2 : tmild c t t1 -> tmild c t1 t2 -> tmild c t t2.
Proof.
  intros [A1 A2] [B1 B2]. split.
  - intros Hr. destruct (B1 Hr) as [E D]. destruct (A1 ltac:(lia)) as [E' D']. split; [lia|].
    destruct D as [-> | ->]; auto.
  - intros Hr. destruct (A2 Hr) as [E|E]; [|by right]. destruct (B2 ltac:(lia)) as [E'|E']; [left; lia|right; lia].
Qed.

Lemma tmild_weaken c t t' : tmild (-1) t t' -> tmild c t t'.
Proof. intros [A1 A2]. split; [done|]. intros Hr. destruct (A2 Hr); [by left|lia]. Qed.

(** The thread keeps its processor, and its slot unless it is free. *)
Lemma tmild_same c t t' :
  running_cpu t' = running_cpu t -> t_domain t' = t_domain t ->
  (state t' = THREAD_UNUSED -> state t = THREAD_UNUSED) -> tmild c t t'.
Proof.
  intros E D Hs. split; rewrite ?E; auto. intros Hr. apply cpu_of_runs in Hr as [Hu Hr]. left. rewrite cpu_of_used by auto. congruence.
Qed.

(** The thread does not run. *)
Lemma tmild_off c t t' : running_cpu t < 0 -> running_cpu t' < 0 -> tmild c t t'.
Proof. intros H1 H2. split; [lia|]. intros Hr. pose proof (cpu_of_runs _ Hr). lia. Qed.

(** The slot was free. *)
Lemma tmild_fresh c t t' : state t = THREAD_UNUSED -> running_cpu t' < 0 -> tmild c t t'.
Proof. intros H1 H2. split; [lia|]. intros [Hr _]%cpu_of_runs. done. Qed.

Section Mild.
Context {V A : Type} `{HH : Host V A} `{HD : Descriptors A}.
#[local] Notation sys := (sys (V := V) (A := A)).

Record mild (c : Z) (s s' : sys) : Prop := {
  mi_cpu : y_cpu s' = y_cpu s;
  mi_threads : Forall2 (tmild c) (y_threads s) (y_threads s');
  mi_slots : forall p, smp_current_thread_slot p s' = smp_current_thread_slot p s;
}.

Lemma mild_refl c s : mild c s s.
Proof. split; auto. apply Forall_Forall2_diag, Forall_forall. intros. apply tmild_refl. Qed.

Lemma mild_trans c s s1 s2 : mild c s s1 -> mild c s1 s2 -> mild c s s2.
Proof.
  intros [A1 A2 A3] [B1 B2 B3]. split; [congruence| |].
  - revert B2. generalize (y_threads s2). induction A2 as [|t t1 l l1 Ht Hl IH]; intros l2 B; inversion B; subst; constructor.
    + by eapply tmild_trans.
    + by apply IH.
  - intros p. by rewrite B3.
Qed.

Lemma mild_weaken c s s' : mild (-1) s s' -> mild c s s'.
Proof. intros [A1 A2 A3]. split; [done| |done]. eapply Forall2_impl; [|exact A2]. intros. by apply tmild_weaken. Qed.

Lemma mild_lookup c s s' i t' :
  mild c s s' -> y_threads s' !! i = Some t' -> exists t, y_threads s !! i = Some t /\ tmild c t t'.
Proof. intros Hm Ht. by eapply Forall2_lookup_r in Ht; [|apply Hm]. Qed.

Lemma mild_capacity c s s' : mild c s s' -> thread_capacity s' = thread_capacity s.
Proof. intros Hm. symmetry. by eapply Forall2_length, Hm. Qed.

(** A change of the threads alone. *)
Lemma mild_threads c s l : Forall2 (tmild c) (y_threads s) l -> mild c s (set_y_threads s l).
Proof. intros Hl. split; auto. Qed.

Lemma mild_map c s f : (forall t, tmild c t (f t)) -> mild c s (set_y_threads s (f <$> y_threads s)).
Proof. intros Hf. apply mild_threads. apply Forall2_fmap_r, Forall_Forall2_diag, Forall_forall. auto. Qed.

Lemma mild_on_thread c s i f :
  (forall t, y_threads s !! i = Some t -> tmild c t (f t)) -> mild c s (on_thread i f s).
Proof.
  intros Hf. apply mild_threads. apply Forall2_same_length_lookup. split; [by rewrite length_alter|].
  intros j t t' Ht Ht'. destruct (decide (i = j)) as [<-|Hne].
  - rewrite list_lookup_alter_eq, Ht in Ht'. simplify_eq/=. auto.
  - rewrite list_lookup_alter_ne in Ht' by done. simplify_eq. apply tmild_refl.
Qed.

Lemma mild_put_thread c s i t t' :
  y_threads s !! i = Some t -> tmild c t t' -> mild c s (put_thread s i t').
Proof.
  intros Hi Ht. apply mild_threads, Forall2_same_length_lookup. split; [by rewrite length_insert|].
  intros j u u' Hu Hu'. destruct (decide (i = j)) as [<-|Hne].
  - rewrite list_lookup_insert_eq in Hu' by (by eapply lookup_lt_Some). by simplify_eq.
  - rewrite list_lookup_insert_ne in Hu' by done. simplify_eq. apply tmild_refl.
Qed.

(** A change of other parts of the state. *)
Lemma mild_frame c s s' :
  y_cpu s' = y_cpu s -> y_threads s' = y_threads s -> y_cpus s' = y_cpus s -> mild c s s'.
Proof.
  intros E1 E2 E3. destruct (mild_refl c s) as [M1 M2 M3]. split; [done|by rewrite E2|].
  intros p. unfold smp_current_thread_slot. by rewrite E3.
Qed.

(** ** Domains without a running thread *)

Definition no_run (d : nat) (s : sys) : Prop := domain_has_running_thread d s = false.

Lemma no_run_spec d s :
  no_run d s <-> forall i t, y_threads s !! i = Some t -> t_domain t = Some d -> running_cpu t < 0.
Proof.
  unfold no_run, domain_has_running_thread. rewrite <- not_true_iff_false, existsb_exists. split.
  - intros Hn i t Ht Hd. destruct (Z.lt_ge_cases (running_cpu t) 0) as [?|Hge]; [done|]. exfalso. apply Hn.
    exists t. split; [by eapply list_elem_of_In, list_elem_of_lookup_2|]. unfold of_domain.
    rewrite bool_decide_true by done. simpl. lia.
  - intros Hall (t & Ht & Hb). apply list_elem_of_In, list_elem_of_lookup_1 in Ht as [i Hi].
    apply andb_prop in Hb as [Hd%bool_decide_eq_true Hr]. specialize (Hall i t Hi Hd). lia.
Qed.

Lemma no_run_mild c d s s' : mild c s s' -> no_run d s -> no_run d s'.
Proof.
  intros Hm Hn. apply no_run_spec. intros i t' Ht' Hd'. destruct (mild_lookup _ _ _ _ _ Hm Ht') as (t & Ht & Hmt).
  destruct (Z.lt_ge_cases (running_cpu t') 0) as [?|Hge]; [done|]. destruct (tm_runs _ _ _ Hmt Hge) as [E [Ed|Ed]]; [|congruence].
  rewrite no_run_spec in Hn. specialize (Hn i t Ht ltac:(congruence)). lia.
Qed.

(** ** Waking and local copies *)

Lemma blocked_state r t : blocked_on r t = true -> state t = THREAD_BLOCKED /\ reason t = r.
Proof. intros [Hs%bool_decide_eq_true Hr%bool_decide_eq_true]%andb_prop. done. Qed.

Lemma tmild_wake c t t' :
  running_cpu t' = running_cpu t -> t_domain t' = t_domain t -> state t' <> THREAD_UNUSED -> tmild c t t'.
Proof. intros E D Hs. by apply tmild_same. Qed.

Lemma mild_wake_vfork c n (s : sys) : mild c s (cell_wake_vfork_parent_of n s).
Proof.
  apply mild_map. intros t. unfold wake_vfork. destruct (_ && _); [|apply tmild_refl]. by apply tmild_wake.
Qed.

Lemma mild_wake_sleep c n (s : sys) : mild c s (cell_wake_sleep_waiters n s).
Proof.
  apply mild_map. intros t. unfold wake_sleep. destruct (negb _); [apply tmild_refl|].
  destruct (_ <? _); [apply tmild_refl|]. by apply tmild_wake.
Qed.

Lemma copy_value_out_frame as_ va v n (s : sys) ok s' :
  copy_value_out as_ va v n s = Some (ok, s') -> exists m, s' = set_machine s m.
Proof.
  unfold copy_value_out. destruct (vmm_copy_to_user _ _ _ _ _) as [[b m]|]; simpl; [|done]. intros [= <- <-]. by exists m.
Qed.

Lemma copy_value_in_frame as_ va n (s : sys) ok v s' :
  copy_value_in as_ va n s = Some (ok, v, s') -> exists m, s' = set_machine s m.
Proof.
  unfold copy_value_in. destruct (vmm_copy_from_user _ _ _ _ _) as [[b m]|]; simpl; [|done]. intros [= <- <- <-]. by exists m.
Qed.

Lemma ensure_range_frame va len access (s : sys) ok s' :
  ensure_range va len access s = Some (ok, s') -> exists k, s' = set_y_k s k.
Proof.
  unfold ensure_range. destruct (cell_ensure_user_range _ _ _ _) as [[b k]|]; simpl; [|done]. intros [= <- <-]. by exists k.
Qed.

Lemma mild_wake_waiters c d uaddr count woke l : Forall2 (tmild c) l (wake_waiters d uaddr count woke l).2.
Proof.
  revert woke. induction l as [|t l IH]; intros woke; simpl; [constructor|].
  destruct (negb _).
  - simpl. apply Forall_Forall2_diag, Forall_forall. intros. apply tmild_refl.
  - destruct (waiter d uaddr t).
    + specialize (IH (woke + 1)). destruct (wake_waiters _ _ _ _ _) as [n r]. constructor; [|done]. by apply tmild_wake.
    + specialize (IH woke). destruct (wake_waiters _ _ _ _ _) as [n r]. constructor; [apply tmild_refl|done].
Qed.

Lemma mild_futex_wake c d uaddr count (s : sys) : mild c s (cell_futex_wake_domain d uaddr count s).2.
Proof.
  unfold cell_futex_wake_domain. pose proof (mild_wake_waiters c d uaddr count 0 (y_threads s)) as Hm.
  destruct (wake_waiters _ _ _ _ _) as [n l]. by apply mild_threads.
Qed.
End Mild.
