(* ===== verification/ReapInv.v ===== *)
(** Destroying domains: the calls of [Reap] do not disturb running threads, and
    their depth is bounded. *)

From Stdlib Require Import ZArith Lia.
From stdpp Require Import base numbers list option.
From S2P Require Import Prelude Mem Pmm Iface Vma Vmm Memory Thread Domain Reap Sched Futex Process SchedInv.
Import Vma Pmm Vmm Memory Thread Domain Reap Sched Futex Process.

#[local] Open Scope Z_scope.
#[local] Open Scope c_scope.

(** The code of descriptors leaves processors and domains alone; it may wake
    threads. *)
Record quiet {V A : Type} `{FileStore V} (s s' : sys (V := V) (A := A)) : Prop := {
  q_cpu : y_cpu s' = y_cpu s;
  q_cpus : y_cpus s' = y_cpus s;
  q_procs : y_procs s' = y_procs s;
  q_threads : Forall2 (fun t t' => running_cpu t' = running_cpu t /\ t_domain t' = t_domain t /\
    (state t' = state t \/ state t = THREAD_BLOCKED /\ state t' = THREAD_RUNNABLE)) (y_threads s) (y_threads s');
}.

Class HostLaws (V A : Type) `{Host V A} := {
  close_all_fds_law : forall d s s', close_all_fds d s = Some s' -> quiet s s';
  copy_fd_table_law : forall d d' s, quiet s (copy_fd_table d d' s);
  close_on_exec_law : forall d s s', close_on_exec d s = Some s' -> quiet s s';
}.

Section Reap.
Context {V A : Type} `{HL : HostLaws V A} `{HD : Descriptors A}.
#[local] Notation sys := (sys (V := V) (A := A)).

Lemma quiet_mild c (s s' : sys) : quiet s s' -> mild c s s'.
Proof.
  intros [E1 E2 E3 E4]. split; [done| |].
  - eapply Forall2_impl; [|exact E4]. intros t t' (R & D & S). apply tmild_same; [done|done|].
    intros Hu. destruct S as [<-|[_ Hr]]; [done|congruence].
  - intros p. unfold smp_current_thread_slot. by rewrite E2.
Qed.

(** ** The threads *)

Lemma mild_unhook d (s : sys) : no_run d s -> mild (-1) s (set_y_threads s (unhook d <$> y_threads s)).
Proof.
  intros Hn. apply mild_threads. rewrite no_run_spec in Hn. apply Forall2_fmap_r, Forall_Forall2_diag, Forall_lookup.
  intros i t Ht. change (tmild (-1) t (unhook d t)). unfold unhook. destruct (of_domain d t) eqn:E; [|apply tmild_refl].
  apply bool_decide_eq_true in E. apply tmild_off; [by eapply Hn|done].
Qed.

Lemma drop_mm_frame d (s s' : sys) : drop_mm d s = Some s' -> exists k, s' = set_y_k s k.
Proof. unfold drop_mm. intros Hd. obinds Hd. injection Hd as <-. eauto. Qed.

Definition destroys (destroy : nat -> sys -> option sys) : Prop :=
  forall d s s', no_run d s -> destroy d s = Some s' -> mild (-1) s s'.

(** The thread found for a domain is one of its threads. *)
Lemma thread_for_domain_spec d (s : sys) j :
  cell_thread_for_domain d s = Some j -> exists t, y_threads s !! j = Some t /\ t_domain t = Some d /\ state t <> THREAD_UNUSED.
Proof.
  intros (_ & Hp & _)%first_from_Some. unfold thread_is in Hp. destruct (y_threads s !! j) as [t|]; [|done].
  apply andb_prop in Hp as [Hu Hd]. exists t. unfold of_domain in Hd. split; [done|].
  apply negb_true_iff, bool_decide_eq_false in Hu. by apply bool_decide_eq_true in Hd.
Qed.

Lemma mild_mark d (s : sys) st :
  (st = THREAD_UNUSED -> no_run d s) ->
  mild (-1) s match cell_thread_for_domain d s with Some j => on_thread j (fun t => set_state t st) s | None => s end.
Proof.
  intros Hst. destruct (cell_thread_for_domain d s) as [j|] eqn:E; [|apply mild_refl].
  apply thread_for_domain_spec in E as (t & Ht & Hd & _). apply mild_on_thread. intros u Hu. simplify_eq.
  destruct (decide (st = THREAD_UNUSED)) as [Hs|Hs].
  - specialize (Hst Hs). rewrite no_run_spec in Hst. apply tmild_off; [by eapply Hst|]. simpl. by eapply Hst.
  - by apply tmild_wake.
Qed.

Lemma mild_status as_ addr v (s s' : sys) :
  match as_ with
  | Some a => if negb (addr =? 0) then let* (_, s) := copy_value_out a addr v 4 s in Some s else Some s
  | None => Some s
  end = Some s' -> exists m, s' = set_machine s m.
Proof.
  assert (Hs : exists m, s = set_machine s m) by (exists (k_world (y_k s)).1; destruct s as [[[] ] ]; done).
  destruct as_ as [a|]; [|by intros [= <-]]. destruct (negb _); [|by intros [= <-]].
  destruct (copy_value_out a addr v 4 s) as [[b s1]|] eqn:E; simpl; [|done]. intros [= <-]. by eapply copy_value_out_frame.
Qed.

Lemma mild_wake_parent destroy child (s s' : sys) :
  destroys destroy -> wake_parent_of destroy child s = Some s' -> mild (-1) s s'.
Proof.
  intros Hd. unfold wake_parent_of. set (c := get_proc s child). pose proof (mild_wake_vfork (-1) (id c) s) as M0.
  set (s0 := cell_wake_vfork_parent_of (id c) s) in *. destruct (cell_find_domain (parent_id c) s0) as [pd|]; [|by intros [= <-]].
  destruct (let* i := cell_thread_for_domain pd s0 in _) as [[i parent]|]; [|by intros [= <-]].
  destruct (negb (waits_for (id c) parent)); [by intros [= <-]|]. cbv zeta.
  set (keep := bool_decide _ || _). intros Hw. unfold obind at 1 in Hw.
  destruct (match cell_domain_as (Some pd) (y_k s0) with Some _ => _ | None => _ end) as [s1|] eqn:E1; [|done].
  apply mild_status in E1 as [m ->].
  assert (M1 : mild (-1) s (on_thread i (fun t => set_result t (u64 (id c))) (set_machine s0 m))).
  { eapply mild_trans; [exact M0|]. apply (mild_trans _ _ (set_machine s0 m)); [by apply mild_frame|]. apply mild_on_thread.
    intros t _. by apply tmild_same. }
  set (s2 := on_thread i _ (set_machine s0 m)) in *.
  assert (Hn : keep = false -> no_run child s2).
  { intros [_ Hk]%orb_false_iff. apply (no_run_mild (-1) child s0); [|done]. apply (mild_trans _ _ (set_machine s0 m)); [by apply mild_frame|].
    apply mild_on_thread. intros t _. by apply tmild_same. }
  pose proof (mild_mark child s2 (if keep then THREAD_ZOMBIE else THREAD_UNUSED)) as M2.
  set (s3 := match cell_thread_for_domain child s2 with Some _ => _ | None => _ end) in *.
  assert (M3 : mild (-1) s2 s3) by (apply M2; destruct keep; [done|auto]).
  unfold obind in Hw. destruct (if keep then Some _ else _) as [s4|] eqn:E4; [|done]. injection Hw as <-.
  assert (M4 : mild (-1) s3 s4).
  { destruct keep; [injection E4 as <-; by apply mild_frame|]. apply (Hd child); [|done]. by eapply no_run_mild, Hn. }
  eapply mild_trans; [exact M1|]. eapply mild_trans; [exact M3|]. eapply mild_trans; [exact M4|].
  apply mild_on_thread. intros t _. by apply tmild_wake.
Qed.

Lemma mild_reparent destroy d_id to i n (s s' : sys) :
  destroys destroy -> reparent_from destroy d_id to i n s = Some s' -> mild (-1) s s'.
Proof.
  intros Hd. revert i s. induction n as [|n IH]; intros i s; cbn [reparent_from]; [intros [= <-]; apply mild_refl|].
  destruct (_ || _); [apply IH|]. cbv zeta. set (s1 := on_proc i _ s).
  assert (M1 : mild (-1) s s1) by by apply mild_frame.
  unfold obind. destruct (if _ && _ then _ else _) as [s2|] eqn:E; [|done]. intros Hr.
  eapply mild_trans; [exact M1|]. eapply mild_trans; [|by apply (IH _ _ Hr)].
  destruct (_ && _); [by eapply mild_wake_parent|]. injection E as <-. apply mild_refl.
Qed.

Lemma mild_destroy fuel : destroys (destroy_domain fuel).
Proof.
  induction fuel as [|fuel IH]; intros d s s' Hn; cbn [destroy_domain]; [done|]. cbv zeta. unfold obind.
  destruct (reparent_from _ _ _ _ _ _) as [s1|] eqn:E1; [|done]. pose proof (mild_reparent _ _ _ _ _ _ _ IH E1) as M1.
  pose proof (mild_unhook d s1 (no_run_mild _ _ _ _ M1 Hn)) as M2. set (s2 := set_y_threads s1 _) in *.
  destruct (close_all_fds d s2) as [s3|] eqn:E3; [|done]. pose proof (quiet_mild (-1) _ _ (close_all_fds_law _ _ _ E3)) as M3.
  destruct (drop_mm d s3) as [s4|] eqn:E4; [|done]. apply drop_mm_frame in E4 as [k ->]. intros [= <-].
  eapply mild_trans; [exact M1|]. eapply mild_trans; [exact M2|]. eapply mild_trans; [exact M3|]. by apply mild_frame.
Qed.

(** ** The depth of the calls

    A domain whose parent is neither 0 nor 1 is an orphan to be; every call below
    another one has one of them less. *)

Definition settled (p : proc) : Prop := parent_id p = 0 \/ parent_id p = 1.

#[local] Instance settled_dec p : Decision (settled p).
Proof. unfold settled. apply _. Defined.

Definition unsettled (l : list proc) : nat := length (filter (fun p => ~ settled p) l).

(** The process keeps its identifier; it does not become a zombie or a child of
    another domain than 0 and 1. *)
Definition reaped (p p' : proc) : Prop :=
  id p' = id p /\ (zombie p' = true -> zombie p = true) /\ (parent_id p' = parent_id p \/ settled p').

Lemma reaped_refl p : reaped p p.
Proof. unfold reaped. auto. Qed.

Lemma reaped_all_refl l : Forall2 reaped l l.
Proof. apply Forall_Forall2_diag, Forall_forall. intros. apply reaped_refl. Qed.

Lemma reaped_trans l l1 l2 : Forall2 reaped l l1 -> Forall2 reaped l1 l2 -> Forall2 reaped l l2.
Proof.
  intros R1. revert l2. induction R1 as [|p p1 l l1 (A1 & A2 & A3) _ IH]; intros l2 R2; inversion R2 as [|? p2 ? l2' (B1 & B2 & B3)]; subst; constructor.
  - split; [congruence|]. split; [auto|]. destruct B3 as [B3|B3]; [|by right]. destruct A3 as [A3|A3]; [left; congruence|].
    right. unfold settled in *. by rewrite B3.
  - by apply IH.
Qed.

Lemma unsettled_reaped l l' : Forall2 reaped l l' -> (unsettled l' <= unsettled l)%nat.
Proof.
  unfold unsettled. induction 1 as [|p p' l l' (_ & _ & Hp) _ IH]; [done|]. rewrite !filter_cons.
  destruct (decide (~ settled p')) as [Hn|Hn], (decide (~ settled p)) as [Ho|Ho]; simpl; try lia.
  exfalso. destruct Hp as [Hp|Hp]; [|done]. apply Hn. apply dec_stable in Ho. unfold settled in *. by rewrite Hp.
Qed.

(** A domain given to 0 or 1. *)
Lemma unsettled_alter l i p to :
  l !! i = Some p -> ~ settled p -> to = 0 \/ to = 1 ->
  (S (unsettled (alter (fun p => set_parent_id p to) i l)) = unsettled l)%nat.
Proof.
  unfold unsettled. revert i. induction l as [|q l IH]; intros [|i] Hp Hn Hto; simplify_eq/=.
  - rewrite !filter_cons, (decide_True _ _ Hn). rewrite decide_False by (intros Hs; apply Hs; exact Hto). done.
  - rewrite !filter_cons. specialize (IH i Hp Hn Hto).
    destruct (decide (~ settled q)); simpl; lia.
Qed.

Lemma reaped_alter l i to :
  to = 0 \/ to = 1 -> Forall2 reaped l (alter (fun p => set_parent_id p to) i l).
Proof.
  intros Hto. apply Forall2_same_length_lookup. split; [by rewrite length_alter|]. intros j p p' Hp Hp'.
  destruct (decide (i = j)) as [<-|Hne].
  - rewrite list_lookup_alter_eq, Hp in Hp'. simplify_eq/=. split; [done|]. split; [done|]. right. exact Hto.
  - rewrite list_lookup_alter_ne in Hp' by done. simplify_eq. apply reaped_refl.
Qed.

Definition zombies_named (l : list proc) : Prop := Forall (fun p => zombie p = true -> 0 < id p) l.

Lemma zombies_named_reaped l l' : Forall2 reaped l l' -> zombies_named l -> zombies_named l'.
Proof.
  unfold zombies_named. induction 1 as [|p p' l l' (E & Z & _) _ IH]; [done|]. intros Hn. inversion Hn; subst.
  constructor; [|by apply IH]. rewrite E. auto.
Qed.

Definition reaps (destroy : nat -> sys -> option sys) : Prop :=
  forall d s s', destroy d s = Some s' -> Forall2 reaped (y_procs s) (y_procs s').

(** [wake_parent_of] calls [destroy] at most once, on the child and with the
    processes it was given. *)
Lemma wake_parent_procs destroy child (s s' : sys) :
  reaps destroy -> wake_parent_of destroy child s = Some s' -> Forall2 reaped (y_procs s) (y_procs s').
Proof.
  intros Hd. unfold wake_parent_of. set (c := get_proc s child). set (s0 := cell_wake_vfork_parent_of (id c) s).
  assert (E0 : Forall2 reaped (y_procs s) (y_procs s0)) by apply reaped_all_refl.
  destruct (cell_find_domain _ s0) as [pd|]; [|by intros [= <-]]. destruct (let* i := _ in _) as [[i parent]|]; [|by intros [= <-]].
  destruct (negb _); [by intros [= <-]|]. cbv zeta. set (keep := bool_decide _ || _). intros Hw. unfold obind at 1 in Hw.
  destruct (match cell_domain_as (Some pd) (y_k s0) with Some _ => _ | None => _ end) as [s1|] eqn:E1; [|done].
  apply mild_status in E1 as [m ->]. set (s2 := on_thread i _ (set_machine s0 m)) in *.
  set (s3 := match cell_thread_for_domain child s2 with Some _ => _ | None => _ end) in *.
  assert (E3 : y_procs s3 = y_procs s) by (subst s3; by destruct (cell_thread_for_domain child s2)).
  unfold obind in Hw. destruct (if keep then Some _ else _) as [s4|] eqn:E4; [|done]. injection Hw as <-.
  rewrite <- E3. change (y_procs (on_thread i _ s4)) with (y_procs s4). destruct keep; [|by eapply Hd].
  injection E4 as <-. apply reaped_alter. by left.
Qed.

Lemma wake_parent_ext destroy destroy' child (s : sys) :
  (forall s2, y_procs s2 = y_procs s -> destroy child s2 = destroy' child s2) ->
  wake_parent_of destroy child s = wake_parent_of destroy' child s.
Proof.
  intros Hd. unfold wake_parent_of. set (c := get_proc s child). set (s0 := cell_wake_vfork_parent_of (id c) s).
  destruct (cell_find_domain _ s0) as [pd|]; [|done]. destruct (let* i := _ in _) as [[i parent]|]; [|done].
  destruct (negb _); [done|]. cbv zeta. set (keep := bool_decide _ || _). unfold obind at 1 3.
  destruct (match cell_domain_as (Some pd) (y_k s0) with Some _ => _ | None => _ end) as [s1|] eqn:E1; [|done].
  apply mild_status in E1 as [m ->]. set (s2 := on_thread i _ (set_machine s0 m)) in *.
  destruct keep; [done|]. rewrite Hd; [done|]. by destruct (cell_thread_for_domain child s2).
Qed.

Lemma reparent_procs destroy d_id to i n (s s' : sys) :
  reaps destroy -> to = 0 \/ to = 1 -> reparent_from destroy d_id to i n s = Some s' ->
  Forall2 reaped (y_procs s) (y_procs s').
Proof.
  intros Hd Hto. revert i s. induction n as [|n IH]; intros i s; cbn [reparent_from]; [intros [= <-]; apply reaped_all_refl|].
  destruct (_ || _); [apply IH|]. cbv zeta. set (s1 := on_proc i _ s).
  pose proof (reaped_alter (y_procs s) i to Hto) as R1. unfold obind. destruct (if _ && _ then _ else _) as [s2|] eqn:E; [|done].
  intros Hr. eapply reaped_trans; [exact R1|]. apply (reaped_trans _ (y_procs s2)); [|by apply (IH _ _ Hr)].
  destruct (_ && _); [by apply (wake_parent_procs _ _ _ _ Hd) in E|]. injection E as <-. apply reaped_all_refl.
Qed.

Lemma destroy_procs fuel : reaps (destroy_domain fuel).
Proof.
  induction fuel as [|fuel IH]; intros d s s'; cbn [destroy_domain]; [done|]. cbv zeta. unfold obind.
  set (to := if negb _ && _ then 1 else 0). assert (to = 0 \/ to = 1) as Hto by (subst to; destruct (_ && _); auto).
  destruct (reparent_from _ _ _ _ _ _) as [s1|] eqn:E1; [|done]. apply (reparent_procs _ _ _ _ _ _ _ IH Hto) in E1.
  set (s2 := set_y_threads s1 _) in *. destruct (close_all_fds d s2) as [s3|] eqn:E3; [|done].
  destruct (drop_mm d s3) as [s4|] eqn:E4; [|done]. apply drop_mm_frame in E4 as [k ->]. intros [= <-].
  eapply reaped_trans; [exact E1|]. change (y_procs s1) with (y_procs s2).
  rewrite <- (q_procs _ _ (close_all_fds_law _ _ _ E3)). simpl.
  apply Forall2_same_length_lookup. split; [by rewrite length_alter|]. intros j p p' Hp Hp'.
  destruct (decide (d = j)) as [<-|Hne].
  - rewrite list_lookup_alter_eq, Hp in Hp'. simplify_eq/=. split; [done|]. split; [done|]. by left.
  - rewrite list_lookup_alter_ne in Hp' by done. simplify_eq. apply reaped_refl.
Qed.

Lemma get_proc_lookup (s : sys) i : zombie (get_proc s i) = true -> y_procs s !! i = Some (get_proc s i).
Proof. unfold get_proc. by destruct (y_procs s !! i). Qed.

Lemma reparent_fuel fuel d_id to i n (s : sys) :
  (forall d s2, zombies_named (y_procs s2) -> 0 < id (get_proc s2 d) -> (unsettled (y_procs s2) < fuel)%nat ->
     destroy_domain fuel d s2 = destroy_domain (S fuel) d s2) ->
  0 < d_id -> to = (if d_id =? 1 then 0 else to) -> to = 0 \/ to = 1 ->
  zombies_named (y_procs s) -> (unsettled (y_procs s) <= fuel)%nat ->
  reparent_from (destroy_domain fuel) d_id to i n s = reparent_from (destroy_domain (S fuel)) d_id to i n s.
Proof.
  intros IHf Hid Hf1 Hto. revert i s. induction n as [|n IH]; intros i s Hz Hu; cbn [reparent_from]; [done|].
  destruct (domain_used s i); simpl; [|by apply IH]. destruct (Z.eqb_spec (parent_id (get_proc s i)) d_id) as [Hp|Hp]; simpl; [|by apply IH].
  set (s1 := on_proc i _ s). pose proof (reaped_alter (y_procs s) i to Hto) as R1.
  pose proof (zombies_named_reaped _ _ R1 Hz) as Hz1. pose proof (unsettled_reaped _ _ R1) as Hu1.
  change (alter _ i (y_procs s)) with (y_procs s1) in R1, Hz1, Hu1.
  destruct (zombie (get_proc s1 i) && negb (to =? 0)) eqn:Ez; [|apply IH; [done|lia]].
  apply andb_prop in Ez as [Ez Ht%negb_true_iff%Z.eqb_neq]. pose proof (get_proc_lookup _ _ Ez) as Hi.
  rewrite (wake_parent_ext (destroy_domain fuel) (destroy_domain (S fuel))).
  - unfold obind. destruct (wake_parent_of _ i s1) as [s2|] eqn:E2; [|done].
    apply (wake_parent_procs _ _ _ _ (destroy_procs _)) in E2. apply IH; [by eapply zombies_named_reaped|].
    pose proof (unsettled_reaped _ _ E2). lia.
  - intros s2 E. unfold s1 in Hi. simpl in Hi. rewrite list_lookup_alter_eq in Hi.
    destruct (y_procs s !! i) as [p|] eqn:Ep; [|done]. apply IHf; [by rewrite E| |rewrite E].
    + unfold get_proc. rewrite E. apply (Forall_lookup_1 _ _ i (get_proc s1 i) Hz1); [|done]. by apply get_proc_lookup.
    + assert (parent_id p = d_id) as Hpp by (unfold get_proc in Hp; by rewrite Ep in Hp).
      assert (d_id <> 1) by (intros ->; done).
      pose proof (unsettled_alter (y_procs s) i p to Ep ltac:(unfold settled; lia) Hto). unfold s1. simpl. lia.
Qed.

Lemma destroy_fuel_S fuel d (s : sys) :
  zombies_named (y_procs s) -> 0 < id (get_proc s d) -> (unsettled (y_procs s) < fuel)%nat ->
  destroy_domain fuel d s = destroy_domain (S fuel) d s.
Proof.
  revert d s. induction fuel as [|fuel IH]; intros d s Hz Hid Hu; [lia|].
  cbn [destroy_domain] in IH |- *. cbv zeta.
  set (to := if negb _ && _ then 1 else 0).
  rewrite (reparent_fuel fuel); [done| |done| | |done|lia].
  - intros. by apply IH.
  - subst to. destruct (_ =? 1); done.
  - subst to. destruct (_ && _); auto.
Qed.

Lemma destroy_fuel_add n fuel d (s : sys) :
  zombies_named (y_procs s) -> 0 < id (get_proc s d) -> (unsettled (y_procs s) < fuel)%nat ->
  destroy_domain (fuel + n) d s = destroy_domain fuel d s.
Proof.
  intros Hz Hid Hu. induction n as [|n IH]; [by rewrite Nat.add_0_r|].
  rewrite <- IH, <- plus_n_Sm. symmetry. apply destroy_fuel_S; [done|done|lia].
Qed.

Lemma unsettled_length l : (unsettled l <= length l)%nat.
Proof. apply length_filter. Qed.
End Reap.
