(* ===== verification/SchedSample.v ===== *)
(** A small system: four threads of two domains on two processors, with files
    left out. The theorems about scheduling and processes are applied to it. *)

From Stdlib Require Import ZArith Lia.
From stdpp Require Import base numbers list option strings.
From S2P Require Import Prelude Mem Pmm Iface Vma Vmm Policy Memory MemorySpec Thread Domain Reap Sched Futex Process SchedInv ReapInv.
Import Vma Pmm Vmm Memory MemorySpec Thread Domain Reap Sched Futex Process.

#[local] Open Scope Z_scope.
#[local] Open Scope c_scope.

Module SchedSample.

#[export] Instance no_descriptors : Descriptors unit := {|
  clear_fds _ a := a;
  init_fds _ a := a;
|}.

#[export] Instance sample_buffer : LocalBuffer := {| stack_buffer := 0x1000 |}.

#[export] Instance no_files : Host zeros unit := {|
  close_all_fds _ s := Some s;
  copy_fd_table _ _ s := s;
  close_on_exec _ s := Some s;
|}.

Lemma sample_quiet_refl (s : sys (V := zeros) (A := unit)) : quiet s s.
Proof. split; try done. apply Forall_Forall2_diag, Forall_forall. auto. Qed.

#[export] Instance no_files_laws : HostLaws zeros unit.
Proof.
  split.
  - intros d s s' [= <-]. apply sample_quiet_refl.
  - intros d d' s. apply sample_quiet_refl.
  - intros d s s' [= <-]. apply sample_quiet_refl.
Qed.

Definition empty_machine : machine :=
  mk_machine (mk_pmm 0 None None 0 0 0 0 0 0 0 (mk_stats 0 0 0 0)) (fun _ => 0) [].

(** Two address spaces, each of one domain. *)
Definition two_domains : kst (V := zeros) :=
  mk_kst (empty_machine, []) (Some 0x100000)
    [mk_mm true 1 (mk_as 0x5000 0 0 0 0 1) vma_list_init; mk_mm true 1 (mk_as 0x6000 0 0 0 0 2) vma_list_init]
    [mk_domain true (Some 0%nat) 0 0; mk_domain true (Some 1%nat) 0 0; mk_domain false None 0 0] (Some 0%nat).

Definition domain_entry (i parent : Z) (z : bool) : proc :=
  mk_proc i parent i i 1 z 0 0 0 0 0 0 0 0 "init" "/bin/init" "init" "init" "/" "/" "/" Policy.zero_caps
    (Policy.mk_budget 0 0) (replicate 65 (mk_action 0 0 0 0)).

(** A thread of domain [d] on processor [c] ([-1] for none). *)
Definition thread_entry (n c : Z) (d : nat) (st : thread_state) (r : wait_reason) (target addr : Z) : thread :=
  mk_thread n c (Some d) st (mk_frame (replicate 31 n) 0 0 0 0 0) zero_fp n r target 0 0 no_socket_wait
    (mk_signals 0 0 0 0 2) false 0 0 0 addr.

Definition runnable (n c : Z) (d : nat) : thread := thread_entry n c d THREAD_RUNNABLE WAIT_NONE (-1) 0.

Definition system (z : bool) (l : list thread) (c0 c1 : option nat) : sys (V := zeros) (A := unit) :=
  mk_sys two_domains [domain_entry 1 0 false; domain_entry 2 1 z; zero_proc] (Some 0x200000) 3 (Some 0x300000) l 5
    [mk_cpu c0 false zero_fp 0; mk_cpu c1 false zero_fp 0] 0 100 tt.

Definition user_frame : trap_frame := mk_frame (replicate 31 7) 0x8000 0x400000 0 0 0.

End SchedSample.
