(* ===== verification/SchedOps.v ===== *)
(** The operations of the process code and the processors: every call leaves the
    threads of other processors running, and ends with the processor idle or
    with a thread of its own. *)

From Stdlib Require Import ZArith Lia.
From stdpp Require Import base numbers list option.
From S2P Require Import Prelude Mem Pmm Iface Vma Vmm Memory Thread Domain Reap Sched Futex Process SchedInv ReapInv.
Import Vma Pmm Vmm Memory Thread Domain Reap Sched Futex Process.

#[local] Open Scope Z_scope.
#[local] Open Scope c_scope.

Section Ops.
Context {V A : Type} `{HL : HostLaws V A} `{HD : Descriptors A}.
#[local] Notation sys := (sys (V := V) (A := A)).
#[local] Notation switch := (switch (V := V) (A := A)).

(** The thread in the slot of processor [c] runs on it. *)
Definition own (c : nat) (s : sys) : Prop :=
  forall i, smp_current_thread_slot c s = Some i ->
    exists t, y_threads s !! i = Some t /\ cpu_of t = Z.of_nat c.

(** What holds while processor [c] is in the kernel and the processors [B] run
    threads. *)
Record in_kernel (c : nat) (B : nat -> Prop) (s : sys) : Prop := {
  ik_cpu : y_cpu s = c;
  ik_others : forall c', c' <> c -> B c' -> own c' s;
}.

Lemma own_mild k c (s s' : sys) : mild k s s' -> k <> Z.of_nat c -> own c s -> own c s'.
Proof.
  intros Hm Hk Ho i Hi. rewrite (mi_slots _ _ _ Hm c) in Hi.
  destruct (Ho i Hi) as (t & Ht & Hr). destruct (Forall2_lookup_l _ _ _ _ _ (mi_threads _ _ _ Hm) Ht) as (t' & Ht' & Hmt).
  exists t'. split; [done|]. destruct (tm_stops _ _ _ Hmt ltac:(lia)); lia.
Qed.

Lemma in_kernel_mild c B (s s' : sys) : mild (Z.of_nat c) s s' -> in_kernel c B s -> in_kernel c B s'.
Proof.
  intros Hm [K1 K2]. split; [by rewrite (mi_cpu _ _ _ Hm)|]. intros c' Hne Hb. eapply own_mild; [exact Hm|lia|auto].
Qed.

(** How a call may end. *)
Definition ends (c : nat) (B : nat -> Prop) (r : switch) : Prop :=
  match r with
  | Stay _ _ s | Switched _ s => in_kernel c B s /\ own c s
  | Waiting _ s | Halted s => in_kernel c B s
  end.

Lemma ends_stay c B rc frame (s s' : sys) : in_kernel c B s -> own c s -> mild (-1) s s' -> ends c B (Stay rc frame s').
Proof.
  intros Hk Ho Hm. split; [|eapply own_mild; [exact Hm|lia|done]]. eapply in_kernel_mild; [|done]. by apply mild_weaken.
Qed.

(** ** Switching *)

Lemma slot_on_cpu p q f (s : sys) :
  (forall x, current_thread (f x) = current_thread x) -> smp_current_thread_slot p (on_cpu q f s) = smp_current_thread_slot p s.
Proof.
  intros Hf. unfold smp_current_thread_slot, on_cpu. cbn [y_cpus set_y_cpus]. destruct (decide (q = p)) as [->|Hne].
  - rewrite list_lookup_alter_eq. destruct (y_cpus s !! p); simpl; [apply Hf|done].
  - by rewrite list_lookup_alter_ne.
Qed.

Lemma mild_on_cpu k c f (s : sys) : (forall x, current_thread (f x) = current_thread x) -> mild k s (on_cpu c f s).
Proof.
  intros Hf. destruct (mild_refl k s) as [M1 M2 M3]. split; [done|done|]. intros p. by apply slot_on_cpu.
Qed.

Lemma mild_leave c i (s : sys) : runs_on (Z.of_nat c) s i = true -> mild (Z.of_nat c) s (leave i s).
Proof.
  intros Hr. apply mild_on_thread. intros t Ht. unfold runs_on, thread_is in Hr. rewrite Ht in Hr. apply Z.eqb_eq in Hr.
  split; simpl; [lia|]. intros Hc. pose proof (cpu_of_runs _ Hc). right. lia.
Qed.

Lemma mild_cleanup old next (s s' : sys) : cleanup_reaped_current_domain old next s = Some s' -> mild (-1) s s'.
Proof.
  unfold cleanup_reaped_current_domain. destruct old as [d|]; [|intros [= <-]; apply mild_refl].
  destruct (_ || _); [intros [= <-]; apply mild_refl|].
  destruct (domain_has_running_thread d s) eqn:E; [intros [= <-]; apply mild_refl|]. by apply mild_destroy.
Qed.

Lemma restore_mild k i frame (s s' : sys) : restore_thread i s = Some (frame, s') -> mild k s s'.
Proof.
  unfold restore_thread. destruct (y_threads s !! i) as [t|]; [|done]. simpl. destruct (cell_domain_as _ _) as [a|]; [|done].
  simpl. intros [= <- <-]. apply (mild_trans _ _ (set_machine s (vmm_install_user a (s_world s).1))); [by apply mild_frame|].
  by apply mild_on_cpu.
Qed.

Lemma take_ends c B old j (s : sys) t r :
  in_kernel c B s -> y_threads s !! j = Some t -> running_cpu t < 0 \/ running_cpu t = Z.of_nat c ->
  state t = THREAD_RUNNABLE -> take old j s = Some r -> ends c B r.
Proof.
  intros [K1 K2] Hj Hrun Hst. unfold take. cbv zeta.
  set (s1 := on_thread j _ (smp_set_current_thread_slot (y_cpu s) (Some j) s)).
  assert (Hjs : y_threads s1 !! j = Some (set_running_cpu t (Z.of_nat c))).
  { unfold s1. cbn. rewrite list_lookup_alter_eq, Hj. cbn. by rewrite K1. }
  assert (in_kernel c B s1 /\ own c s1) as [Hk1 Ho1].
  { split; [split; [done|]|].
    - intros c' Hne Hb i Hi. assert (Hi' : smp_current_thread_slot c' s = Some i).
      { unfold s1, smp_current_thread_slot in Hi |- *. cbn in Hi. by rewrite list_lookup_alter_ne in Hi by congruence. }
      destruct (K2 c' Hne Hb i Hi') as (u & Hu & Hr). exists u. split; [|done]. unfold s1. cbn.
      rewrite list_lookup_alter_ne; [done|]. intros ->. simplify_eq. rewrite cpu_of_used in Hr by congruence. lia.
    - intros i Hi. unfold s1, smp_current_thread_slot in Hi. cbn in Hi. rewrite K1, list_lookup_alter_eq in Hi.
      destruct (y_cpus s !! c); [|done]. cbn in Hi. simplify_eq. eexists. split; [exact Hjs|]. rewrite cpu_of_used; [done|]. cbn. congruence. }
  unfold obind. destruct (cleanup_reaped_current_domain old j s1) as [s2|] eqn:E2; [|done]. apply mild_cleanup in E2.
  destruct (restore_thread j s2) as [[f s3]|] eqn:E3; [|done]. apply (restore_mild (-1)) in E3. intros [= <-].
  apply (ends_stay c B 0 f s1 s3); [done|done|by eapply mild_trans].
Qed.

Lemma scan_spec p start (s : sys) j :
  scan p start s = Some j -> exists t, y_threads s !! j = Some t /\ p t = true.
Proof.
  unfold scan, obind. destruct (first_from _ _ _) as [n|] eqn:E; [|done]. intros [= <-].
  apply first_from_Some in E as (_ & Hp & _). unfold thread_is in Hp. destruct (y_threads s !! _) as [t|]; [eauto|done].
Qed.

Lemma leave_ne i j (s : sys) : i <> j -> y_threads (leave i s) !! j = y_threads s !! j.
Proof. intros Hne. unfold leave. cbn. by rewrite list_lookup_alter_ne. Qed.

Lemma wait_or_halt_ends c B l (s : sys) : in_kernel c B s -> ends c B (wait_or_halt l s).
Proof.
  intros Hk. unfold wait_or_halt. destruct (_ || _); [|done]. simpl.
  eapply in_kernel_mild; [|done]. by apply mild_on_cpu.
Qed.

Lemma schedule_turn_ends c B l (s : sys) r : in_kernel c B s -> schedule_turn l s = Some r -> ends c B r.
Proof.
  intros Hk. pose proof (ik_cpu _ _ _ Hk) as Hc. unfold schedule_turn. rewrite Hc.
  set (first := match i_current l with Some _ => _ | None => _ end). destruct first as [j|] eqn:Ef.
  - assert (exists t, y_threads s !! j = Some t /\ own_runnable (Z.of_nat c) t = true) as (t & Ht & Hp).
    { subst first. destruct (i_current l); [|done]. destruct (thread_is _ s n); [|done]. by eapply scan_spec. }
    apply andb_prop in Hp as [Hs%bool_decide_eq_true Hr]. apply orb_prop in Hr.
    destruct (i_current l) as [i|]; [|done]. destruct (negb (i =? j)%nat && runs_on (Z.of_nat c) s i) eqn:El.
    + apply andb_prop in El as [Hne Hro]. apply negb_true_iff, Nat.eqb_neq in Hne.
      apply (take_ends c B _ j _ t); [by eapply in_kernel_mild, Hk; apply mild_leave|by rewrite leave_ne|lia|done].
    + apply (take_ends c B _ j _ t); [done|done|lia|done].
  - destruct (scan free_runnable (i_start l) s) as [j|] eqn:E2.
    + apply scan_spec in E2 as (t & Ht & [Hs%bool_decide_eq_true Hr]%andb_prop).
      assert (Hk1 : forall s1, mild (Z.of_nat c) s s1 -> y_threads s1 !! j = Some t -> take (i_old_domain l) j s1 = Some r -> ends c B r).
      { intros s1 Hm Ht1. apply (take_ends c B _ j _ t); [by eapply in_kernel_mild, Hk|done|lia|done]. }
      destruct (i_current l) as [i|]; [|apply Hk1; [apply mild_refl|done]].
      destruct (runs_on (Z.of_nat c) s i) eqn:El; [|apply Hk1; [apply mild_refl|done]].
      apply Hk1; [by apply mild_leave|]. rewrite leave_ne; [done|]. intros ->. unfold runs_on, thread_is in El.
      rewrite Ht in El. lia.
    + intros [= <-]. by apply wait_or_halt_ends.
Qed.

Lemma mild_save k frame (s : sys) : mild k s (cell_save_current frame s).
Proof.
  unfold cell_save_current. destruct (cell_current_thread_internal s) as [i|]; [|apply mild_refl].
  destruct (y_cpus s !! y_cpu s); [|apply mild_refl]. apply mild_on_thread. intros t _. by apply tmild_same.
Qed.

Lemma schedule_ends c B frame (s : sys) r : in_kernel c B s -> cell_schedule frame s = Some r -> ends c B r.
Proof.
  intros Hk. unfold cell_schedule. apply schedule_turn_ends. eapply in_kernel_mild; [|done]. apply mild_save.
Qed.

Lemma resume_ends c B l (s : sys) r : in_kernel c B s -> schedule_resume l s = Some r -> ends c B r.
Proof.
  intros Hk. unfold schedule_resume. apply schedule_turn_ends. eapply in_kernel_mild; [|done]. by apply mild_on_cpu.
Qed.

(** The running thread stops. *)
Lemma mild_stop c i f (s : sys) :
  own c s -> y_cpu s = c -> cell_current_thread_internal s = Some i ->
  (forall t, running_cpu (f t) = -1) -> mild (Z.of_nat c) s (on_thread i f s).
Proof.
  intros Ho Hc Hi Hf. apply mild_on_thread. intros t Ht. unfold cell_current_thread_internal in Hi. rewrite Hc in Hi.
  destruct (Ho i Hi) as (t' & Ht' & Hr). simplify_eq. split; [rewrite Hf; lia|by right].
Qed.

Lemma current_save frame (s : sys) : cell_current_thread_internal (cell_save_current frame s) = cell_current_thread_internal s.
Proof.
  unfold cell_save_current. destruct (cell_current_thread_internal s) as [i|] eqn:E; [|done]. by destruct (y_cpus s !! y_cpu s).
Qed.

Lemma block_ends c B f frame (s : sys) r :
  in_kernel c B s -> own c s -> (forall t, running_cpu (f t) = running_cpu t) ->
  block_current f frame s = Some r -> ends c B r.
Proof.
  intros Hk Ho Hf. unfold block_current, obind. destruct (cell_current_thread_internal s) as [i|] eqn:Ei; [|done].
  apply schedule_ends. eapply in_kernel_mild; [|exact Hk].
  eapply mild_trans; [apply (mild_save _ frame)|]. apply mild_stop.
  - eapply own_mild; [apply (mild_save (-1) frame)|lia|done].
  - rewrite (mi_cpu _ _ _ (mild_save (-1) frame s)). apply Hk.
  - by rewrite current_save.
  - intros t. by rewrite Hf.
Qed.
End Ops.
