(* ===== verification/ProcessOps.v ===== *)
(** The calls of [Futex] and [Process] and the processors. *)

From Stdlib Require Import ZArith Lia.
From stdpp Require Import base numbers list option.
From S2P Require Import Prelude Mem Pmm Iface Vma Vmm Memory Thread Domain Reap Sched Futex Process SchedInv ReapInv SchedOps.
Import Vma Pmm Vmm Memory Thread Domain Reap Sched Futex Process.

#[local] Open Scope Z_scope.
#[local] Open Scope c_scope.

Section Ops.
Context {V A : Type} `{HL : HostLaws V A} `{HD : Descriptors A}.
#[local] Notation sys := (sys (V := V) (A := A)).
#[local] Notation switch := (switch (V := V) (A := A)).

(** ** Futexes *)

Lemma mild_set_machine c m (s : sys) : mild c s (set_machine s m).
Proof. by apply mild_frame. Qed.

Lemma mild_set_k c k (s : sys) : mild c s (set_y_k s k).
Proof. by apply mild_frame. Qed.

Lemma mild_on_proc c d f (s : sys) : mild c s (on_proc d f s).
Proof. by apply mild_frame. Qed.

Lemma mild_ensure c va len access (s s' : sys) ok : ensure_range va len access s = Some (ok, s') -> mild c s s'.
Proof. intros [k ->]%ensure_range_frame. apply mild_set_k. Qed.

Lemma mild_value_in c as_ va n (s s' : sys) ok v : copy_value_in as_ va n s = Some (ok, v, s') -> mild c s s'.
Proof. intros [m ->]%copy_value_in_frame. apply mild_set_machine. Qed.

Lemma mild_value_out c as_ va v n (s s' : sys) ok : copy_value_out as_ va v n s = Some (ok, s') -> mild c s s'.
Proof. intros [m ->]%copy_value_out_frame. apply mild_set_machine. Qed.

Lemma mild_robust_entry c d entry off (s s' : sys) : robust_wake_entry d entry off s = Some s' -> mild c s s'.
Proof.
  unfold robust_wake_entry. destruct (negb _); [intros [= <-]; apply mild_refl|]. unfold obind at 1.
  destruct (ensure_range _ _ _ _) as [[ok s1]|] eqn:E1; [|done]. apply (mild_ensure c) in E1.
  destruct ok; [|by intros [= <-]]. cbn [negb]. unfold obind. destruct (cell_domain_as _ _) as [a|]; [|done].
  destruct (copy_value_in _ _ _ _) as [[[ok v] s2]|] eqn:E2; [|done]. apply (mild_value_in c) in E2.
  destruct ok; cbn [negb]; [|intros [= <-]; by eapply mild_trans].
  destruct (copy_value_out _ _ _ _ _) as [[ok s3]|] eqn:E3; [|done]. apply (mild_value_out c) in E3. intros [= <-].
  eapply mild_trans; [exact E1|]. eapply mild_trans; [exact E2|]. eapply mild_trans; [exact E3|]. apply mild_futex_wake.
Qed.

Lemma mild_robust_walk c d hd off node n (s s' : sys) : robust_walk d hd off node n s = Some s' -> mild c s s'.
Proof.
  revert node s. induction n as [|n IH]; intros node s; cbn [robust_walk]; [intros [= <-]; apply mild_refl|].
  destruct (_ || _); [intros [= <-]; apply mild_refl|]. unfold obind at 1.
  destruct (ensure_range _ _ _ _) as [[ok s1]|] eqn:E1; [|done]. apply (mild_ensure c) in E1.
  destruct ok; [|by intros [= <-]]. cbn [negb]. unfold obind. destruct (cell_domain_as _ _) as [a|]; [|done].
  destruct (copy_value_in _ _ _ _) as [[[ok v] s2]|] eqn:E2; [|done]. apply (mild_value_in c) in E2.
  destruct ok; cbn [negb]; [|intros [= <-]; by eapply mild_trans].
  destruct (robust_wake_entry _ _ _ _) as [s3|] eqn:E3; [|done]. apply (mild_robust_entry c) in E3. intros Hr.
  eapply mild_trans; [exact E1|]. eapply mild_trans; [exact E2|]. eapply mild_trans; [exact E3|]. by apply IH in Hr.
Qed.

Lemma mild_robust_list c i (s s' : sys) : cell_futex_cleanup_robust_list i s = Some s' -> mild c s s'.
Proof.
  unfold cell_futex_cleanup_robust_list, obind at 1. destruct (y_threads s !! i) as [t|]; [|done].
  destruct (t_domain t) as [d|]; [|intros [= <-]; apply mild_refl]. destruct (_ =? 0); [intros [= <-]; apply mild_refl|].
  unfold obind at 1. destruct (ensure_range _ _ _ _) as [[ok s1]|] eqn:E1; [|done]. apply (mild_ensure c) in E1.
  destruct ok; [|by intros [= <-]]. cbn [negb]. unfold obind. destruct (cell_domain_as _ _) as [a|]; [|done].
  destruct (vmm_copy_from_user _ _ _ _ _) as [[ok m]|]; [|done].
  pose proof (mild_trans _ _ _ _ E1 (mild_set_machine c m s1)) as E2. destruct ok; cbn [negb]; [|by intros [= <-]].
  destruct (if negb _ then _ else _) as [s3|] eqn:E3; [|done].
  assert (mild c (set_machine s1 m) s3).
  { destruct (negb _); [by eapply mild_robust_entry|injection E3 as <-; apply mild_refl]. }
  intros Hr. apply (mild_robust_walk c) in Hr. eapply mild_trans; [exact E2|]. by eapply mild_trans.
Qed.

Lemma mild_clear_tid c d i (s s' : sys) : clear_tid d i s = Some s' -> mild c s s'.
Proof.
  unfold clear_tid, obind at 1. destruct (y_threads s !! i) as [t|]; [|done]. destruct (_ =? 0); [intros [= <-]; apply mild_refl|].
  unfold obind at 1. destruct (match cell_domain_as _ _ with Some _ => _ | None => _ end) as [s1|] eqn:E1; [|done].
  intros [= <-]. apply (mild_trans _ _ s1); [|apply mild_futex_wake]. destruct (cell_domain_as _ _) as [a|].
  - unfold obind in E1. destruct (copy_value_out _ _ _ _ _) as [[ok s2]|] eqn:E2; [|done]. injection E1 as <-. by eapply mild_value_out.
  - injection E1 as <-. apply mild_refl.
Qed.

Lemma futex_wait_ends c B uaddr expected frame (s : sys) r :
  in_kernel c B s -> own c s -> cell_futex_wait_current uaddr expected frame s = Some r -> ends c B r.
Proof.
  intros Hk Ho. unfold cell_futex_wait_current. destruct (cell_current_domain_internal s) as [d|]; [|intros [= <-]; done].
  destruct (cell_current_thread_internal s) as [i|]; [|intros [= <-]; done]. destruct (negb _); [intros [= <-]; done|].
  unfold obind at 1. destruct (ensure_range _ _ _ _) as [[ok s1]|] eqn:E1; [|done]. apply (mild_ensure (-1)) in E1.
  destruct ok; [|intros [= <-]; by eapply ends_stay]. cbn [negb]. unfold obind. destruct (cell_domain_as _ _) as [a|]; [|done].
  destruct (copy_value_in _ _ _ _) as [[[ok v] s2]|] eqn:E2; [|done]. apply (mild_value_in (-1)) in E2.
  pose proof (mild_trans _ _ _ _ E1 E2) as Hm. pose proof (ends_stay c B 0 frame s s2 Hk Ho Hm) as [Hk2 Ho2].
  destruct ok; cbn [negb]; [|by intros [= <-]]. destruct (negb _); [by intros [= <-]|]. by apply block_ends.
Qed.

(** ** Exit *)

Lemma mild_on_slots c (f : nat -> sys -> sys) i n (s : sys) :
  (forall i s, mild c s (f i s)) -> mild c s (on_slots f i n s).
Proof.
  intros Hf. revert i s. induction n as [|n IH]; intros i s; [apply mild_refl|]. cbn [on_slots].
  eapply mild_trans; [apply Hf|apply IH].
Qed.

Lemma mild_end_thread c d cur i (s : sys) : mild c s (end_thread d cur i s).
Proof.
  unfold end_thread. destruct (y_threads s !! i) as [t|] eqn:Ht; [|apply mild_refl]. destruct (_ || _); [apply mild_refl|].
  destruct (Z.leb_spec 0 (running_cpu t)) as [Hr|Hr].
  - apply (mild_put_thread _ _ _ t); [done|]. by apply tmild_wake.
  - eapply mild_trans; [|apply mild_on_proc]. apply (mild_put_thread _ _ _ t); [done|]. by apply tmild_off.
Qed.

(** The slots of a thread that gives up its place are cleared. *)
Lemma clear_slots c B i (s : sys) :
  in_kernel c B s ->
  let s' := set_y_cpus s (smp_clear_current_thread_if i <$> y_cpus s) in in_kernel c B s' /\ (own c s -> own c s').
Proof.
  intros [K1 K2]. cbv zeta. set (s' := set_y_cpus s _).
  assert (Ho : forall p, own p s -> own p s').
  { intros p Hp j Hj. apply Hp. unfold smp_current_thread_slot in Hj |- *. simpl in Hj. rewrite list_lookup_fmap in Hj.
    destruct (y_cpus s !! p) as [q|]; [|done]. simpl in Hj |- *. unfold smp_clear_current_thread_if in Hj. by case_bool_decide. }
  split; [split; [done|auto]|auto].
Qed.

Lemma release_in_kernel c B i (s : sys) k :
  in_kernel c B s -> k = Z.of_nat c \/ k = -1 ->
  (forall t, y_threads s !! i = Some t -> running_cpu t < 0 \/ cpu_of t = k) ->
  in_kernel c B (cell_release_thread (Some i) s) /\ (k = -1 -> own c s -> own c (cell_release_thread (Some i) s)).
Proof.
  intros Hk Hkc Hr. unfold cell_release_thread. destruct (y_threads s !! i) as [t|] eqn:Ht; [|auto].
  destruct (t_domain t) as [d|]; [|auto]. specialize (Hr t eq_refl).
  set (s1 := put_thread _ i _). assert (Hm : mild k s s1).
  { eapply mild_trans; [apply (mild_on_proc k d drop_refcount)|]. apply (mild_put_thread _ _ _ t); [done|].
    split; simpl; [lia|]. intros Hc. destruct Hr; [pose proof (cpu_of_runs _ Hc); lia|by right]. }
  assert (Hk1 : in_kernel c B s1).
  { eapply in_kernel_mild; [|exact Hk]. destruct Hkc as [-> | ->]; [done|by apply mild_weaken]. }
  destruct (clear_slots c B i s1 Hk1) as [Hk2 Ho2]. split; [exact Hk2|]. intros -> Ho. apply Ho2. eapply own_mild; [exact Hm|lia|done].
Qed.

(** The end of the last thread of a domain. *)
Lemma last_exit_ends c B d i frame (s : sys) r :
  in_kernel c B s -> own c s -> cell_current_thread_internal s = Some i ->
  (let* s := cell_wake_parent_of d (on_thread i (fun t => set_running_cpu (set_state t THREAD_ZOMBIE) (-1)) s) in
   cell_schedule frame s) = Some r -> ends c B r.
Proof.
  intros Hk Ho Hi. unfold obind. destruct (cell_wake_parent_of _ _) as [s1|] eqn:E; [|done].
  apply (mild_wake_parent _ _ _ _ (mild_destroy _)) in E. apply schedule_ends.
  eapply in_kernel_mild; [by apply mild_weaken, E|]. eapply in_kernel_mild; [|exact Hk]. apply mild_stop; [done|apply Hk|done|done].
Qed.

Lemma mild_current c (s s' : sys) : mild c s s' -> cell_current_thread_internal s' = cell_current_thread_internal s.
Proof. intros Hm. unfold cell_current_thread_internal. by rewrite (mi_cpu _ _ _ Hm), (mi_slots _ _ _ Hm). Qed.

Lemma exit_thread_ends c B status frame (s : sys) r :
  in_kernel c B s -> own c s -> cell_exit_thread_current status frame s = Some r -> ends c B r.
Proof.
  intros Hk Ho. unfold cell_exit_thread_current. destruct (cell_current_thread_internal s) as [i|] eqn:Hi; [|by intros [= <-]].
  unfold obind at 1 2 3 4. destruct (y_threads s !! i) as [t|]; [|done]. destruct (t_domain t) as [d|]; [|done].
  destruct (cell_futex_cleanup_robust_list i s) as [s1|] eqn:E1; [|done]. apply (mild_robust_list (-1)) in E1.
  destruct (clear_tid d i s1) as [s2|] eqn:E2; [|done]. apply (mild_clear_tid (-1)) in E2.
  pose proof (mild_trans _ _ _ _ E1 E2) as M2. destruct (ends_stay c B 0 frame s s2 Hk Ho M2) as [Hk2 Ho2].
  destruct (_ <=? 1)%nat.
  - unfold obind at 1. destruct (close_all_fds _ _) as [s3|] eqn:E3; [|done]. apply close_all_fds_law, (quiet_mild (-1)) in E3.
    pose proof (mild_trans _ _ _ _ M2 (mild_trans _ _ _ _ (mild_on_proc (-1) d (mark_exited status) s2) E3)) as M3.
    destruct (ends_stay c B 0 frame s s3 Hk Ho M3) as [Hk3 Ho3]. apply last_exit_ends; [done|done|].
    by rewrite (mild_current _ _ _ M3).
  - apply schedule_ends. apply (release_in_kernel c B i s2 (Z.of_nat c)); [done|by left|]. intros u Hu. right.
    destruct (Ho2 i) as (u' & Hu' & Hr); [|congruence].
    pose proof (mild_current _ _ _ M2) as Hc. unfold cell_current_thread_internal in Hc, Hi. by rewrite <- (ik_cpu _ _ _ Hk2), Hc.
Qed.

Lemma exit_group_ends c B status frame (s : sys) r :
  in_kernel c B s -> own c s -> cell_exit_group_current status frame s = Some r -> ends c B r.
Proof.
  intros Hk Ho. unfold cell_exit_group_current. destruct (cell_current_thread_internal s) as [i|] eqn:Hi; [|by intros [= <-]].
  unfold obind at 1 2 3 4. destruct (y_threads s !! i) as [t|]; [|done]. destruct (t_domain t) as [d|]; [|done].
  destruct (clear_tid d i s) as [s2|] eqn:E2; [|done]. apply (mild_clear_tid (-1)) in E2.
  destruct (close_all_fds _ _) as [s3|] eqn:E3; [|done]. apply close_all_fds_law, (quiet_mild (-1)) in E3. cbv zeta.
  set (s4 := on_slots _ _ _ s3). assert (M4 : mild (-1) s s4).
  { eapply mild_trans; [exact E2|]. eapply mild_trans; [apply (mild_on_proc _ d (mark_exited status))|].
    eapply mild_trans; [exact E3|]. apply mild_on_slots. intros. apply mild_end_thread. }
  destruct (ends_stay c B 0 frame s s4 Hk Ho M4) as [Hk4 Ho4]. apply last_exit_ends; [done|done|].
  by rewrite (mild_current _ _ _ M4).
Qed.

(** ** New threads *)

Lemma alloc_thread_spec d (s : sys) j s' :
  cell_alloc_thread d s = (Some j, s') ->
  mild (-1) s s' /\ exists t, y_threads s' !! j = Some t /\ running_cpu t < 0.
Proof.
  unfold cell_alloc_thread. destruct (first_from _ _ _) as [i|] eqn:E; [|done].
  apply first_from_Some in E as (_ & Hp & _). unfold thread_is in Hp. destruct (y_threads s !! i) as [t|] eqn:Ht; [|done].
  apply bool_decide_eq_true in Hp. cbv zeta. set (t' := mk_thread _ _ _ _ _ _ _ _ _ _ _ _ _ _ _ _ _ _). intros [= <- <-]. split.
  - eapply mild_trans; [|apply mild_on_proc]. apply (mild_trans _ _ (put_thread s i t')); [|by apply mild_frame].
    apply (mild_put_thread _ _ _ t); [done|]. by apply tmild_fresh.
  - exists t'. split; [|done]. simpl. rewrite list_lookup_insert_eq; [done|by eapply lookup_lt_Some].
Qed.

Lemma alloc_thread_none d (s s' : sys) : cell_alloc_thread d s = (None, s') -> s' = s.
Proof. unfold cell_alloc_thread. destruct (first_from _ _ _); [done|]. by intros [= <-]. Qed.

Lemma mild_alloc_domain c (s : sys) : mild c s (cell_alloc_domain s).2.
Proof. unfold cell_alloc_domain. destruct (first_from _ _ _); [by apply mild_frame|apply mild_refl]. Qed.

Lemma mild_set_result c i v (s : sys) : mild c s (on_thread i (fun t => set_result t v) s).
Proof. apply mild_on_thread. intros t _. by apply tmild_same. Qed.

(** The thread stays off through a mild change. *)
Lemma off_mild (s s' : sys) j t :
  mild (-1) s s' -> y_threads s !! j = Some t -> running_cpu t < 0 ->
  exists t', y_threads s' !! j = Some t' /\ running_cpu t' < 0.
Proof.
  intros Hm Ht Hr. destruct (Forall2_lookup_l _ _ _ _ _ (mi_threads _ _ _ Hm) Ht) as (t' & Ht' & Hmt). exists t'. split; [done|].
  destruct (Z.lt_ge_cases (running_cpu t') 0); [done|]. destruct (tm_runs _ _ _ Hmt ltac:(lia)). lia.
Qed.

Lemma mild_tid_word c flags flag addr v as_ (s s' : sys) ok :
  set_tid_word flags flag addr v as_ s = Some (ok, s') -> mild c s s'.
Proof.
  unfold set_tid_word. destruct (_ && _); [|intros [= <- <-]; apply mild_refl].
  destruct as_; [|intros [= <- <-]; apply mild_refl]. apply mild_value_out.
Qed.

(** A thread that is not running, changed in any way. *)
Lemma mild_off_set c j f (s : sys) t :
  y_threads s !! j = Some t -> running_cpu t < 0 -> (forall u, running_cpu (f u) = running_cpu u) -> mild c s (on_thread j f s).
Proof. intros Hj Hr Hf. apply mild_on_thread. intros u Hu. simplify_eq. apply tmild_off; rewrite ?Hf; lia. Qed.

Lemma running_inherit stack p u : running_cpu (inherit stack p u) = running_cpu u.
Proof. unfold inherit, child_context. by destruct (negb _). Qed.

Lemma running_context stack sp size flags p u : running_cpu (child_context stack sp size flags p u) = running_cpu u.
Proof. unfold child_context. by destruct (negb _). Qed.

Lemma mild_fork hh frame (s s' : sys) rc : cell_fork_current hh frame s = Some (rc, s') -> mild (-1) s s'.
Proof.
  unfold cell_fork_current. pose proof (mild_alloc_domain (-1) s) as M0.
  destruct (cell_alloc_domain s) as [child s0]. cbn [snd] in M0. destruct (cell_current_domain_internal s) as [p|]; [|by intros [= <- <-]].
  destruct (domain_mm (Some p) (y_k s0)) as [mm|]; [|by intros [= <- <-]]. destruct child as [c|]; [|by intros [= <- <-]].
  destruct (cell_alloc_thread c s0) as [[j|] s1] eqn:E1.
  2: { apply alloc_thread_none in E1 as ->. intros [= <- <-]. eapply mild_trans; [exact M0|by apply mild_frame]. }
  destruct (alloc_thread_spec c s0 j s1 E1) as (M1 & t & Ht & Hr). cbv zeta.
  set (s2 := cell_save_current frame s1). pose proof (mild_save (-1) frame s1) as M2. change (cell_save_current frame s1) with s2 in M2.
  pose proof (mild_trans _ _ _ _ M0 (mild_trans _ _ _ _ M1 M2)) as M. destruct (off_mild _ _ _ _ M2 Ht Hr) as (t2 & Ht2 & Hr2).
  unfold obind at 1 2. destruct (cell_mm_clone_cow _ _ _) as [[child_mm k]|]; [|done].
  destruct (match child_mm with Some _ => _ | None => _ end) as [[[] k1]|]; [cbn [negb]|cbn [negb]|done].
  - set (s3 := cell_copy_domain_metadata c p (set_y_k s2 k1)). set (s4 := copy_fd_table c p s3).
    assert (M4 : mild (-1) s2 s4).
    { apply (mild_trans _ _ s3); [by apply mild_frame|]. apply quiet_mild, copy_fd_table_law. }
    destruct (off_mild _ _ _ _ M4 Ht2 Hr2) as (t4 & Ht4 & Hr4).
    unfold obind. destruct (current _) as [[i u]|]; [|done]. intros [= <- <-].
    eapply mild_trans; [exact M|]. eapply mild_trans; [exact M4|].
    eapply mild_trans; [|apply mild_on_proc]. eapply mild_trans; [|apply mild_set_result].
    eapply mild_trans; [apply (mild_on_proc _ c (fun q => set_parent_id q (id (get_proc s4 p))))|].
    by apply (mild_off_set _ _ _ _ t4).
  - unfold obind. destruct (match child_mm with Some _ => _ | None => _ end) as [k2|]; [|done]. intros [= <- <-].
    eapply mild_trans; [exact M|]. apply (mild_trans _ _ (on_thread j (fun t => set_state t THREAD_UNUSED) (set_y_k s2 k2))); [|by apply mild_frame].
    eapply mild_trans; [apply (mild_set_k _ k2)|]. by apply (mild_off_set _ _ _ _ t2).
Qed.

Lemma mild_clone frame flags newsp ptid tls ctid (s s' : sys) rc :
  cell_clone_thread_current frame flags newsp ptid tls ctid s = Some (rc, s') -> mild (-1) s s'.
Proof.
  unfold cell_clone_thread_current. destruct (cell_current_domain_internal s) as [d|]; [|intros [= <- <-]; apply mild_refl].
  destruct (cell_current_thread_internal s); [|intros [= <- <-]; apply mild_refl]. destruct (_ =? 0); [intros [= <- <-]; apply mild_refl|].
  destruct (cell_alloc_thread d s) as [[j|] s1] eqn:E1; [|apply alloc_thread_none in E1 as ->; intros [= <- <-]; apply mild_refl].
  destruct (alloc_thread_spec d s j s1 E1) as (M1 & t & Ht & Hr). cbv zeta. pose proof (mild_save (-1) frame s1) as M2.
  set (s2 := cell_save_current frame s1) in *. destruct (off_mild _ _ _ _ M2 Ht Hr) as (t2 & Ht2 & Hr2).
  unfold obind. destruct (current s2) as [[i u]|]; [|done]. set (s3 := on_thread j _ s2).
  assert (M3 : mild (-1) s2 s3) by (apply (mild_off_set _ _ _ _ t2); [done|done|]; intros v; apply running_context).
  destruct (y_threads s3 !! j) as [v|]; [|done].
  destruct (set_tid_word _ _ _ _ _ s3) as [[b4 s4]|] eqn:E4; [|done]. apply (mild_tid_word (-1)) in E4.
  destruct (set_tid_word _ _ _ _ _ s4) as [[b5 s5]|] eqn:E5; [|done]. apply (mild_tid_word (-1)) in E5. intros [= <- <-].
  eapply mild_trans; [exact M1|]. eapply mild_trans; [exact M2|]. eapply mild_trans; [exact M3|]. eapply mild_trans; [exact E4|].
  eapply mild_trans; [exact E5|]. apply mild_set_result.
Qed.
End Ops.
