(* ===== verification/ProcessRun.v ===== *)
(** Runs of the process code on several processors.

    The kernel runs under one lock: a processor enters it on a system call or an
    interrupt, makes one call, and leaves it in a thread or waits for an
    interrupt inside [cell_schedule]. A step of the machine is one such stay.
    [running_thread_exclusive] states that two processors never run the same
    thread. *)

From Stdlib Require Import ZArith Lia Ascii String.
From stdpp Require Import base numbers list option relations.
From S2P Require Import Prelude Mem Pmm Iface Vma Vmm Memory Thread Domain Reap Sched Futex Process SchedInv ReapInv SchedOps ProcessOps.
Import Vma Pmm Vmm Memory Thread Domain Reap Sched Futex Process.

#[local] Open Scope Z_scope.
#[local] Open Scope c_scope.

Section Run.
Context {V A : Type} `{HL : HostLaws V A} `{HD : Descriptors A}.
#[local] Notation sys := (sys (V := V) (A := A)).
#[local] Notation switch := (switch (V := V) (A := A)).

(** ** [vfork] *)

Lemma no_run_release d i (s : sys) : no_run d s -> no_run d (cell_release_thread (Some i) s).
Proof.
  rewrite !no_run_spec. intros Hn j t. unfold cell_release_thread. destruct (y_threads s !! i) as [u|] eqn:Hu; [|apply Hn].
  destruct (t_domain u) as [d'|]; [|apply Hn]. simpl. destruct (decide (i = j)) as [<-|Hne].
  - rewrite list_lookup_insert_eq by (by eapply lookup_lt_Some). intros [= <-]. done.
  - rewrite list_lookup_insert_ne by done. apply Hn.
Qed.

Lemma abandon_ends c B rc frame j d (s s' : sys) t :
  in_kernel c B s -> own c s -> y_threads s !! j = Some t -> running_cpu t < 0 -> no_run d s ->
  abandon j d s = Some s' -> ends c B (Stay rc frame s').
Proof.
  intros Hk Ho Hj Hr Hn Ha. unfold abandon, cell_destroy_domain in Ha.
  destruct (release_in_kernel c B j s (-1) Hk ltac:(by right)) as [Hk1 Ho1]; [intros u Hu; simplify_eq; by left|].
  pose proof (mild_destroy _ _ _ _ (no_run_release d j s Hn) Ha) as Hm. eapply ends_stay; [exact Hk1|by apply Ho1|exact Hm].
Qed.

(** No thread runs in a slot of the table of domains that is not in use. *)
Definition unused_idle (s : sys) : Prop := forall d, domain_used s d = false -> no_run d s.

Lemma vfork_switch_ends c B frame p d i j flags ptid ctid (s : sys) t r :
  in_kernel c B s -> own c s -> no_run d s -> y_threads s !! j = Some t -> running_cpu t < 0 ->
  cell_current_thread_internal s = Some i ->
  vfork_switch frame p d i j flags ptid ctid s = Some r -> ends c B r.
Proof.
  intros Hk Ho Hn Hj Hr Hi. unfold vfork_switch. cbv zeta. unfold obind at 1.
  destruct (set_tid_word _ _ _ _ _ s) as [[ok s1]|] eqn:E1; [|done]. apply (mild_tid_word (-1)) in E1.
  destruct (off_mild _ _ _ _ E1 Hj Hr) as (t1 & Ht1 & Hr1). destruct (ends_stay c B 0 frame s s1 Hk Ho E1) as [Hk1 Ho1].
  destruct ok; cbn [negb].
  2: { unfold obind. destruct (abandon j d s1) as [s2|] eqn:E2; [|done]. intros [= <-].
       eapply (abandon_ends c B _ _ j d s1); [done|done|done|done|by eapply no_run_mild|done]. }
  unfold obind at 1. destruct (set_tid_word _ _ _ _ _ s1) as [[ok s2]|] eqn:E2; [|done]. apply (mild_tid_word (-1)) in E2.
  destruct (off_mild _ _ _ _ E2 Ht1 Hr1) as (t2 & Ht2 & Hr2). destruct (ends_stay c B 0 frame s1 s2 Hk1 Ho1 E2) as [Hk2 Ho2].
  destruct ok; cbn [negb].
  2: { unfold obind. destruct (abandon j d s2) as [s3|] eqn:E3; [|done]. intros [= <-].
       eapply (abandon_ends c B _ _ j d s2); [done|done|done|done|by eapply no_run_mild, no_run_mild|done]. }
  apply schedule_ends. set (s3 := on_proc d _ (on_thread i (fun t => set_result t _) s2)).
  assert (M3 : mild (-1) s2 s3) by (eapply mild_trans; [|apply mild_on_proc]; apply mild_set_result).
  destruct (ends_stay c B 0 frame s2 s3 Hk2 Ho2 M3) as [Hk3 Ho3]. eapply in_kernel_mild; [|exact Hk3].
  apply mild_stop; [done|apply Hk3| |done]. by rewrite (mild_current _ _ _ M3), (mild_current _ _ _ E2), (mild_current _ _ _ E1).
Qed.

Lemma alloc_domain_unused (s : sys) d s' : cell_alloc_domain s = (Some d, s') -> domain_used s d = false.
Proof.
  unfold cell_alloc_domain. destruct (first_from _ _ _) as [d'|] eqn:Ed; [|done].
  apply first_from_Some in Ed as (_ & Hd & _). intros [= <- _]. by apply negb_true_iff.
Qed.

Lemma current_spec (s : sys) i u : current s = Some (i, u) -> cell_current_thread_internal s = Some i.
Proof. unfold current, obind. destruct (cell_current_thread_internal s); [|done]. destruct (_ !! _); [|done]. congruence. Qed.

Lemma vfork_ends c B frame newsp flags ptid tls ctid (s : sys) r :
  in_kernel c B s -> own c s -> unused_idle s ->
  cell_vfork_current frame newsp flags ptid tls ctid s = Some r -> ends c B r.
Proof.
  intros Hk Ho Hun. unfold cell_vfork_current. destruct (cell_current_domain_internal s) as [p|]; [|by intros [= <-]].
  destruct (domain_mm (Some p) (y_k s)) as [mm|]; [|by intros [= <-]]. pose proof (mild_alloc_domain (-1) s) as M0.
  destruct (cell_alloc_domain s) as [child s0] eqn:E0. cbn [snd] in M0. destruct child as [d|]; [|intros [= <-]; by eapply ends_stay].
  pose proof (Hun _ (alloc_domain_unused _ _ _ E0)) as Hnr. destruct (cell_alloc_thread d s0) as [[j|] s1] eqn:E1.
  2: { apply alloc_thread_none in E1 as ->. intros [= <-]. eapply ends_stay; [done|done|].
       eapply mild_trans; [exact M0|by apply mild_frame]. }
  destruct (alloc_thread_spec d s0 j s1 E1) as (M1 & t & Ht & Hr). cbv zeta.
  pose proof (mild_save (-1) frame s1) as M2. set (s2 := cell_save_current frame s1) in *.
  pose proof (mild_trans _ _ _ _ M0 (mild_trans _ _ _ _ M1 M2)) as M. destruct (off_mild _ _ _ _ M2 Ht Hr) as (t2 & Ht2 & Hr2).
  destruct (cell_mm_retain (Some mm) (k_now s2)) as [m k]. unfold obind at 1.
  destruct (cell_domain_set_mm (Some d) m k) as [[[] k1]|]; [cbn [negb]|cbn [negb]|done].
  2: { intros [= <-]. eapply ends_stay; [done|done|]. eapply mild_trans; [exact M|].
       apply (mild_trans _ _ (on_thread j (fun t => set_state t THREAD_UNUSED) (set_y_k s2 k1))); [|by apply mild_frame].
       eapply mild_trans; [apply (mild_set_k _ k1)|]. by apply (mild_off_set _ _ _ _ t2). }
  set (s3 := cell_copy_domain_metadata d p (set_y_k s2 k1)). set (s4 := copy_fd_table d p s3).
  assert (M4 : mild (-1) s2 s4) by (apply (mild_trans _ _ s3); [by apply mild_frame|]; apply quiet_mild, copy_fd_table_law).
  destruct (off_mild _ _ _ _ M4 Ht2 Hr2) as (t4 & Ht4 & Hr4). unfold obind at 1.
  destruct (current _) as [[i u]|] eqn:Ec; [|done]. apply current_spec in Ec. set (s5 := on_thread j _ _).
  assert (M5 : mild (-1) s4 s5).
  { eapply mild_trans; [apply (mild_on_proc _ d (fun q => set_parent_id q (id (get_proc s4 p))))|].
    apply (mild_off_set _ _ _ _ t4); [done|done|]. intros v. simpl. apply running_inherit. }
  destruct (off_mild _ _ _ _ M5 Ht4 Hr4) as (t5 & Ht5 & Hr5). pose proof (mild_trans _ _ _ _ M (mild_trans _ _ _ _ M4 M5)) as MM.
  destruct (ends_stay c B 0 frame s s5 Hk Ho MM) as [Hk5 Ho5].
  apply (vfork_switch_ends c B _ _ _ _ _ _ _ _ _ t5 r Hk5 Ho5); [by eapply no_run_mild|done|done|].
  by rewrite (mild_current _ _ _ M5).
Qed.

(** ** [wait4] and [exec] *)

Lemma mild_reap_child d (s s' : sys) : reap_child d s = Some s' -> mild (-1) s s'.
Proof.
  unfold reap_child. destruct (domain_has_running_thread d s) eqn:Hn.
  - intros [= <-]. eapply mild_trans; [|apply mild_on_proc]. by apply mild_mark.
  - intros Hd. pose proof (mild_mark d s THREAD_UNUSED ltac:(done)) as M1. eapply mild_trans; [exact M1|].
    unfold cell_destroy_domain in Hd. apply (mild_destroy _ _ _ _ (no_run_mild _ _ _ _ M1 Hn) Hd).
Qed.

Lemma wait4_ends c B pid addr options frame (s : sys) r :
  in_kernel c B s -> own c s -> cell_wait4_options pid addr options frame s = Some r -> ends c B r.
Proof.
  intros Hk Ho. unfold cell_wait4_options. destruct (cell_current_domain_internal s) as [d|]; [|by intros [= <-]]. cbv zeta.
  destruct (find_waitable_child _ _ s) as [child|].
  - unfold obind at 1. destruct (if negb _ then _ else _) as [[ok s1]|] eqn:E1; [|done].
    assert (M1 : mild (-1) s s1).
    { destruct (negb _); [|injection E1 as <- <-; apply mild_refl]. destruct (cell_domain_as _ _); [by eapply mild_value_out|].
      injection E1 as <- <-. apply mild_refl. }
    destruct ok; cbn [negb]; [|intros [= <-]; by eapply ends_stay]. unfold obind.
    destruct (reap_child child s1) as [s2|] eqn:E2; [|done]. apply mild_reap_child in E2. intros [= <-].
    eapply ends_stay; [done|done|]. eapply mild_trans; [exact M1|]. eapply mild_trans; [exact E2|].
    destruct (cell_current_thread_internal s2); [|apply mild_refl]. apply mild_on_thread. intros t _. by apply tmild_same.
  - destruct (negb _); [by intros [= <-]|]. destruct (negb _); [by intros [= <-]|]. by apply block_ends.
Qed.

(** The other threads of the domain [d] do not run. *)
Definition alone (d i : nat) (s : sys) : Prop :=
  forall j t, j <> i -> y_threads s !! j = Some t -> t_domain t = Some d -> running_cpu t < 0.

Lemma mild_drop_threads d i k n (s : sys) : alone d i s -> mild (-1) s (on_slots (drop_thread d i) k n s).
Proof.
  revert k s. induction n as [|n IH]; intros k s Ha; [apply mild_refl|]. cbn [on_slots].
  assert (M : mild (-1) s (drop_thread d i k s)).
  { unfold drop_thread. destruct (y_threads s !! k) as [t|] eqn:Ht; [|apply mild_refl].
    destruct (Nat.eqb_spec k i) as [->|Hne]; simpl; [apply mild_refl|]. destruct (of_domain d t) eqn:Hd; simpl; [|apply mild_refl].
    eapply mild_trans; [|apply mild_on_proc]. apply bool_decide_eq_true in Hd. pose proof (Ha k t Hne Ht Hd).
    by apply (mild_put_thread _ _ _ t), tmild_off. }
  eapply mild_trans; [exact M|]. apply IH. intros j t' Hj Ht' Hd. destruct (mild_lookup _ _ _ _ _ M Ht') as (t & Ht & Hmt).
  destruct (Z.lt_ge_cases (running_cpu t') 0) as [?|Hr]; [done|]. destruct (tm_runs _ _ _ Hmt Hr) as [E [Ed|Ed]]; [|congruence].
  specialize (Ha j t Hj Ht ltac:(congruence)). lia.
Qed.

Lemma exec_ends c B as_ vmas entry sp frame path argv (s : sys) ok frame' s' :
  in_kernel c B s -> own c s ->
  (forall d i, cell_current_domain_internal s = Some d -> cell_current_thread_internal s = Some i -> alone d i s) ->
  cell_exec_replace as_ vmas entry sp frame path argv s = Some (ok, frame', s') -> ends c B (Stay (Z.b2z ok) frame' s').
Proof.
  intros Hk Ho Hal. unfold cell_exec_replace. destruct (cell_current_domain_internal s) as [d|]; [|intros [= <- <- <-]; done].
  destruct (cell_current_thread_internal s) as [i|]; [|intros [= <- <- <-]; done].
  destruct (cell_mm_from_owned _ _ _) as [[[new_mm ?] ?] k]. cbv zeta.
  destruct new_mm as [m|]; [|intros [= <- <- <-]; eapply ends_stay; [done|done|apply mild_set_k]].
  set (s1 := on_slots _ _ _ (set_y_k s k)). assert (M1 : mild (-1) s s1).
  { eapply mild_trans; [apply (mild_set_k _ k)|]. apply mild_drop_threads. by apply Hal. }
  unfold obind. destruct (close_on_exec d s1) as [s2|] eqn:E2; [|done]. apply close_on_exec_law, (quiet_mild (-1)) in E2.
  destruct (cell_domain_set_mm _ _ _) as [[b k2]|]; [|done]. set (s3 := cell_set_domain_identity _ _ _ _).
  assert (M3 : mild (-1) s2 s3) by by apply mild_frame. destruct (cell_domain_as _ _) as [a|]; [|done]. intros [= <- <- <-].
  eapply ends_stay; [done|done|]. eapply mild_trans; [exact M1|]. eapply mild_trans; [exact E2|]. eapply mild_trans; [exact M3|].
  eapply mild_trans; [|apply mild_wake_vfork]. eapply mild_trans; [|by apply mild_on_cpu].
  eapply mild_trans; [apply (mild_set_machine _ (vmm_install_user a (s_world s3).1))|]. apply mild_on_thread.
  intros t _. by apply tmild_same.
Qed.
End Run.
