(* ===== verification/SchedSpec.v ===== *)
(** What the scheduler promises: the thread it picks, the context it loads, and
    how long a thread that can run may be passed over. *)

From Stdlib Require Import ZArith Lia.
From stdpp Require Import base numbers list option.
From S2P Require Import Prelude Mem Pmm Iface Vma Vmm Memory MemorySpec Thread Domain Reap Sched Futex Process SchedInv ReapInv SchedSample SchedOps ProcessOps.
Import Vma Pmm Vmm Memory MemorySpec Thread Domain Reap Sched Futex Process SchedSample.

#[local] Open Scope Z_scope.
#[local] Open Scope c_scope.

Module SchedSpec.

Section Spec.
Context {V A : Type} `{HL : HostLaws V A} `{HD : Descriptors A}.
#[local] Notation sys := (sys (V := V) (A := A)).
#[local] Notation switch := (switch (V := V) (A := A)).

(** ** The scan round the table *)

(** The slot [d] places behind the one after [i]. *)
Definition behind (n i d : nat) : nat := (S i + d) mod n.

Lemma behind_exists n i j : (i < n)%nat -> (j < n)%nat -> exists d, (d < n)%nat /\ j = behind n i d.
Proof.
  intros Hi Hj. unfold behind. destruct (decide (i < j)%nat) as [Hlt|Hge].
  - exists (j - i - 1)%nat. split; [lia|]. rewrite Nat.mod_small; lia.
  - exists (n + j - i - 1)%nat. split; [lia|]. replace (S i + (n + j - i - 1))%nat with (j + 1 * n)%nat by lia.
    rewrite Nat.Div0.mod_add, Nat.mod_small; lia.
Qed.

Lemma behind_step n i m d : (0 < n)%nat -> (m < d)%nat -> behind n (behind n i m) (d - m - 1) = behind n i d.
Proof.
  intros Hn Hm. unfold behind. rewrite <- (Nat.add_1_l ((S i + m) mod n)), <- Nat.add_assoc, (Nat.add_comm 1).
  rewrite <- Nat.add_assoc, Nat.Div0.add_mod_idemp_l. f_equal. lia.
Qed.

(** The scan finds an accepted slot, and none nearer. *)
Lemma scan_first p i (s : sys) d t :
  (d < thread_capacity s)%nat -> y_threads s !! behind (thread_capacity s) i d = Some t -> p t = true ->
  exists m u, (m <= d)%nat /\ scan p (S i) s = Some (behind (thread_capacity s) i m) /\
    y_threads s !! behind (thread_capacity s) i m = Some u /\ p u = true.
Proof.
  intros Hd Ht Hp. unfold scan, obind. set (f := fun n => thread_is p s _).
  assert (Hf : f d = true) by (unfold f, thread_is; fold (behind (thread_capacity s) i d); by rewrite Ht).
  destruct (first_from f 0 (thread_capacity s)) as [m|] eqn:E.
  - apply first_from_Some in E as (Hr & Hm & Hmin). unfold f, thread_is in Hm. fold (behind (thread_capacity s) i m) in Hm.
    destruct (y_threads s !! behind (thread_capacity s) i m) as [u|] eqn:Eu; [|done].
    exists m, u. split; [|done]. destruct (Nat.le_gt_cases m d) as [?|Hgt]; [done|]. rewrite (Hmin d) in Hf by lia. done.
  - exfalso. rewrite first_from_None in E. rewrite E in Hf by lia. done.
Qed.

(** ** One switch *)

Definition scheduled (c : nat) (s : sys) : option nat := smp_current_thread_slot c s.

Lemma leave_frame i (s : sys) : y_cpu (leave i s) = y_cpu s /\ y_cpus (leave i s) = y_cpus s.
Proof. done. Qed.

Lemma take_slot old j (s : sys) r :
  is_Some (y_cpus s !! y_cpu s) -> take old j s = Some r ->
  exists f s', r = Switched f s' /\ scheduled (y_cpu s) s' = Some j /\ thread_capacity s' = thread_capacity s.
Proof.
  intros [p Hp]. unfold take. cbv zeta. set (s1 := on_thread j _ _). unfold obind.
  destruct (cleanup_reaped_current_domain old j s1) as [s2|] eqn:E2; [|done]. apply mild_cleanup in E2.
  destruct (restore_thread j s2) as [[f s3]|] eqn:E3; [|done]. apply (restore_mild (-1)) in E3. intros [= <-].
  exists f, s3. split; [done|]. pose proof (mild_trans _ _ _ _ E2 E3) as M. split.
  - unfold scheduled. rewrite (mi_slots _ _ _ M). unfold s1, smp_current_thread_slot. simpl.
    rewrite list_lookup_alter_eq, Hp. done.
  - rewrite (mild_capacity _ _ _ M). unfold s1, thread_capacity. simpl. by rewrite length_alter.
Qed.

(** The shape of a turn that switches: a candidate, and the running thread given
    up unless it is the candidate. *)
Lemma turn_cases l (s : sys) r :
  schedule_turn l s = Some r ->
  r = wait_or_halt l s /\ scan free_runnable (i_start l) s = None \/
  exists j u s1, y_threads s !! j = Some u /\ take (i_old_domain l) j s1 = Some r /\
    (s1 = s \/ exists i, i_current l = Some i /\ i <> j /\ s1 = leave i s /\ runs_on (Z.of_nat (y_cpu s)) s i = true) /\
    (scan (own_runnable (Z.of_nat (y_cpu s))) (i_start l) s = Some j /\ own_runnable (Z.of_nat (y_cpu s)) u = true \/
     scan free_runnable (i_start l) s = Some j /\ free_runnable u = true) /\
    (forall i, i_current l = Some i -> i <> j -> runs_on (Z.of_nat (y_cpu s)) s i = true -> s1 = leave i s).
Proof.
  unfold schedule_turn. set (c := Z.of_nat (y_cpu s)). set (first := match i_current l with Some _ => _ | None => _ end).
  destruct first as [j|] eqn:Ef.
  - assert (Hs : scan (own_runnable c) (i_start l) s = Some j).
    { subst first. destruct (i_current l); [|done]. by destruct (thread_is _ s n). }
    destruct (scan_spec _ _ _ _ Hs) as (u & Hu & Hp). intros Ht. right.
    destruct (i_current l) as [i|] eqn:Ei; [|done]. destruct (negb (i =? j)%nat && runs_on c s i) eqn:El; exists j, u; eexists; (split; [done|]); (split; [exact Ht|]).
    + apply andb_prop in El as [Hne%negb_true_iff%Nat.eqb_neq Hr]. split; [right; by exists i|]. split; [by left|]. congruence.
    + split; [by left|]. split; [by left|]. intros i' [= <-] Hne Hr. apply Nat.eqb_neq in Hne. by rewrite Hne, Hr in El.
  - destruct (scan free_runnable (i_start l) s) as [j|] eqn:E2; [|intros [= <-]; by left].
    destruct (scan_spec _ _ _ _ E2) as (u & Hu & Hp). intros Ht. right. apply andb_prop in Hp as Hp'.
    destruct (i_current l) as [i|] eqn:Ei; [destruct (runs_on c s i) eqn:El|]; exists j, u; eexists; (split; [done|]); (split; [exact Ht|]).
    + split; [right; exists i; split; [done|]|split; [by right|congruence]]. split; [|done]. intros ->.
      unfold runs_on, thread_is in El. rewrite Hu in El. destruct Hp' as [_ Hn]. subst c. simpl in El. zbool. lia.
    + split; [by left|]. split; [by right|]. congruence.
    + split; [by left|]. split; [by right|]. done.
Qed.

Definition waiting (j : nat) (s : sys) : Prop := exists t, y_threads s !! j = Some t /\ free_runnable t = true.

Lemma save_lookup frame (s : sys) k t :
  y_threads s !! k = Some t -> exists t', y_threads (cell_save_current frame s) !! k = Some t' /\
    state t' = state t /\ running_cpu t' = running_cpu t /\ t_domain t' = t_domain t /\
    (cell_current_thread_internal s <> Some k -> t' = t).
Proof.
  intros Ht. unfold cell_save_current. destruct (cell_current_thread_internal s) as [i|]; [|exists t; auto].
  destruct (y_cpus s !! y_cpu s) as [p|]; [|exists t; auto]. simpl. destruct (decide (i = k)) as [<-|Hne].
  - rewrite list_lookup_alter_eq, Ht. simpl. eexists. split; [done|]. split_and!; done.
  - rewrite list_lookup_alter_ne by done. exists t. auto.
Qed.

Lemma save_frame frame (s : sys) :
  y_cpu (cell_save_current frame s) = y_cpu s /\ y_cpus (cell_save_current frame s) = y_cpus s /\
  thread_capacity (cell_save_current frame s) = thread_capacity s.
Proof.
  unfold cell_save_current. destruct (cell_current_thread_internal s) as [i|]; [|done].
  destruct (y_cpus s !! y_cpu s); [|done]. unfold thread_capacity. simpl. by rewrite length_alter.
Qed.

(** While a thread waits for a processor, a call of the scheduler switches to a
    thread no farther from the running one. *)
Lemma schedule_pick i d frame (s : sys) r :
  cell_current_thread_internal s = Some i -> (d < thread_capacity s)%nat -> waiting (behind (thread_capacity s) i d) s ->
  cell_schedule frame s = Some r ->
  exists m f s', (m <= d)%nat /\ r = Switched f s' /\ scheduled (y_cpu s) s' = Some (behind (thread_capacity s) i m) /\
    thread_capacity s' = thread_capacity s.
Proof.
  intros Hi Hd (t & Ht & Hf). unfold cell_schedule. rewrite Hi. set (s0 := cell_save_current frame s).
  destruct (save_frame frame s) as (F1 & F2 & F3). fold s0 in F1, F2, F3.
  destruct (save_lookup frame s _ _ Ht) as (t0 & Ht0 & Hs0 & Hr0 & _). fold s0 in Ht0.
  assert (Hf0 : free_runnable t0 = true) by (unfold free_runnable in *; by rewrite Hs0, Hr0).
  assert (Ho0 : own_runnable (Z.of_nat (y_cpu s0)) t0 = true).
  { unfold own_runnable. apply andb_prop in Hf0 as [-> ->]. done. }
  rewrite <- F3 in Hd, Ht0 |- *. intros Hr. apply turn_cases in Hr. cbn [i_start i_current i_old_domain] in Hr.
  destruct (scan_first _ i s0 d t0 Hd Ht0 Hf0) as (m2 & u2 & Hm2 & Hsc2 & _).
  destruct (scan_first _ i s0 d t0 Hd Ht0 Ho0) as (m1 & u1 & Hm1 & Hsc1 & _).
  destruct Hr as [[_ Hn]|(j & u & s1 & Hu & Htk & Hs1 & Hsc & _)]; [congruence|].
  assert (y_cpu s1 = y_cpu s /\ y_cpus s1 = y_cpus s /\ thread_capacity s1 = thread_capacity s0) as (C1 & C2 & C3).
  { destruct Hs1 as [-> |(k & _ & _ & -> & _)]; [done|]. unfold thread_capacity. simpl. by rewrite length_alter. }
  apply take_slot in Htk as (f & s' & -> & Hsl & Hcap).
  2: { rewrite C1, C2. unfold cell_current_thread_internal, smp_current_thread_slot in Hi. by destruct (y_cpus s !! y_cpu s). }
  rewrite C1 in Hsl. rewrite C3 in Hcap. destruct Hsc as [[Hsc _]|[Hsc _]].
  - exists m1, f, s'. split; [done|]. split; [done|]. split; [congruence|done].
  - exists m2, f, s'. split; [done|]. split; [done|]. split; [congruence|done].
Qed.

(** ** Fairness *)

(** [n] times in a row processor [c] switches, each time to another thread than
    [j], while [j] waits. Between two calls anything may happen that leaves the
    slot of [c] and the size of the table alone. *)
Inductive overlooked (c j : nat) : nat -> sys -> sys -> Prop :=
| overlooked_O s : y_cpu s = c -> waiting j s -> overlooked c j 0 s s
| overlooked_S n s s1 frame frame' s2 s3 :
    overlooked c j n s s1 ->
    cell_schedule frame s1 = Some (Switched frame' s2) ->
    scheduled c s2 <> Some j ->
    y_cpu s3 = c -> scheduled c s3 = scheduled c s2 -> thread_capacity s3 = thread_capacity s2 -> waiting j s3 ->
    overlooked c j (S n) s s3.

Lemma overlooked_closer c j n (s s' : sys) i d :
  overlooked c j n s s' -> scheduled c s = Some i -> (d < thread_capacity s)%nat -> j = behind (thread_capacity s) i d ->
  y_cpu s' = c /\ waiting j s' /\ thread_capacity s' = thread_capacity s /\
  exists i' d', scheduled c s' = Some i' /\ j = behind (thread_capacity s) i' d' /\ (n + d' <= d)%nat.
Proof.
  intros Ho Hi Hd Hj. induction Ho as [s Hc Hw|n s s1 frame frame' s2 s3 Ho IH Hs Hne Hc Hsl Hcap Hw].
  - split; [done|]. split; [done|]. split; [done|]. exists i, d. auto.
  - destruct (IH Hi Hd Hj) as (Hc1 & Hw1 & Hcap1 & i1 & d1 & Hi1 & Hj1 & Hn1).
    destruct (schedule_pick i1 d1 frame s1 (Switched frame' s2)) as (m & f & s2' & Hm & [= <- <-] & Hp & Hcap2);
      [by unfold cell_current_thread_internal; rewrite Hc1|lia|by rewrite Hcap1, <- Hj1|done|].
    rewrite Hc1 in Hp. rewrite Hcap1 in Hp, Hcap2.
    assert (m <> d1) by (intros ->; rewrite <- Hj1 in Hp; done).
    split; [done|]. split; [done|]. split; [congruence|].
    exists (behind (thread_capacity s) i1 m), (d1 - m - 1)%nat. split; [congruence|].
    rewrite behind_step by lia. split; [done|lia].
Qed.

(** ** The context of a thread *)

(** The thread with the registers of the processor in it. *)
Definition saved (frame : trap_frame) (p : cpu) (t : thread) : thread :=
  set_tpidr_el0 (set_fp (set_tf t frame) (cpu_fp p)) (cpu_tpidr p).

(** The domain is not left for the scheduler to destroy. *)
Definition lasting (d : option nat) (s : sys) : Prop :=
  forall i, d = Some i -> zombie (get_proc s i) = false \/ parent_id (get_proc s i) <> 0.

Lemma cleanup_lasting d j (s : sys) : lasting d s -> cleanup_reaped_current_domain d j s = Some s.
Proof.
  intros Hl. unfold cleanup_reaped_current_domain. destruct d as [i|]; [|done]. destruct (Hl i eq_refl) as [-> |Hp].
  - rewrite orb_true_r. done.
  - apply Z.eqb_neq in Hp. by rewrite Hp, !orb_true_r.
Qed.

Lemma take_lasting old j (s : sys) t a :
  lasting old s -> y_threads s !! j = Some t -> cell_domain_as (t_domain t) (y_k s) = Some a ->
  take old j s = Some (Switched (tf t)
    (set_y_cpus
      (set_y_threads (set_machine s (vmm_install_user a (s_world s).1))
        (alter (fun t => set_running_cpu t (Z.of_nat (y_cpu s))) j (y_threads s)))
      (alter (load_cpu (set_running_cpu t (Z.of_nat (y_cpu s)))) (y_cpu s)
        (alter (fun p => set_current_thread p (Some j)) (y_cpu s) (y_cpus s))))).
Proof.
  intros Hl Ht Ha. unfold take. cbv zeta. rewrite cleanup_lasting by done. cbn [obind]. unfold restore_thread.
  cbn [on_thread set_y_threads y_threads smp_set_current_thread_slot on_cpu set_y_cpus y_cpu y_k]. rewrite list_lookup_alter_eq, Ht.
  cbn [fmap option_fmap option_map obind]. cbn [set_running_cpu t_domain]. rewrite Ha. done.
Qed.

(** What a switch to [j] makes of a thread [k] of processor [c]; [i] was running. *)
Definition after_switch (c : Z) (i j k : nat) (t : thread) : thread :=
  if (k =? j)%nat then set_running_cpu t c
  else if (k =? i)%nat && (running_cpu t =? c) then set_running_cpu t (-1) else t.

Record switched (i j : nat) (t : thread) (a : user_address_space) (s : sys) (frame' : trap_frame) (s' : sys) : Prop := {
  sw_frame : frame' = tf t;
  sw_cpu : exists p, y_cpus s !! y_cpu s = Some p /\ y_cpus s' !! y_cpu s = Some (load_cpu t (set_current_thread p (Some j)));
  sw_mmu : m_mmu (s_world s').1 = TlbiAll :: SetTtbr0 (root_pa a .| u64 (Z.shiftl (asid a) 48)) :: m_mmu (s_world s).1;
  sw_threads : forall k, y_threads s' !! k = after_switch (Z.of_nat (y_cpu s)) i j k <$> y_threads s !! k;
}.

(** Every thread that can run has an address space. *)
Definition spaced (s : sys) : Prop :=
  forall k t, y_threads s !! k = Some t -> state t = THREAD_RUNNABLE -> is_Some (cell_domain_as (t_domain t) (y_k s)).

Lemma take_switched i j old (s : sys) t :
  lasting old s -> spaced s -> y_threads s !! j = Some t -> state t = THREAD_RUNNABLE -> is_Some (y_cpus s !! y_cpu s) ->
  let s1 := if negb (i =? j)%nat && runs_on (Z.of_nat (y_cpu s)) s i then leave i s else s in
  exists frame' s' a, take old j s1 = Some (Switched frame' s') /\ cell_domain_as (t_domain t) (y_k s) = Some a /\
    switched i j t a s frame' s'.
Proof.
  intros Hl Hsp Hj Hst [p Hp]. cbv zeta. destruct (Hsp j t Hj Hst) as [a Ha]. set (s1 := if _ && _ then _ else _).
  assert (Hs1 : y_k s1 = y_k s /\ y_cpu s1 = y_cpu s /\ y_cpus s1 = y_cpus s /\ y_procs s1 = y_procs s /\
    y_threads s1 !! j = Some t /\ forall k, y_threads s1 !! k = (fun u => if negb (k =? j)%nat && (k =? i)%nat &&
      (running_cpu u =? Z.of_nat (y_cpu s)) then set_running_cpu u (-1) else u) <$> y_threads s !! k).
  { subst s1. destruct (negb (i =? j)%nat) eqn:Hij, (runs_on (Z.of_nat (y_cpu s)) s i) eqn:Hr; cbn [andb].
    1: { apply negb_true_iff, Nat.eqb_neq in Hij. split_and!; try done; [by rewrite leave_ne|]. intros k. unfold leave. cbn.
      destruct (decide (i = k)) as [<-|Hne].
      - rewrite list_lookup_alter_eq. apply Nat.eqb_neq in Hij. rewrite Hij, Nat.eqb_refl. unfold runs_on, thread_is in Hr.
        destruct (y_threads s !! i) as [u|]; [|done]. cbn. by rewrite Hr.
      - rewrite list_lookup_alter_ne by done. rewrite (proj2 (Nat.eqb_neq k i)) by done. rewrite andb_false_r.
        by destruct (y_threads s !! k). }
    all: split_and!; try done; intros k; destruct (y_threads s !! k) as [u|] eqn:Hu; cbn; [|done]; f_equal.
    all: destruct (Nat.eqb_spec k i) as [->|]; rewrite ?andb_false_r; [|done]; rewrite ?Hij; try done.
    unfold runs_on, thread_is in Hr. rewrite Hu in Hr. cbn. by rewrite Hr. }
  destruct Hs1 as (K1 & K2 & K3 & K4 & Hj1 & Hth). do 3 eexists. split; [|split; [exact Ha|]].
  - apply (take_lasting old j s1 t a); [|done|by rewrite K1]. intros d Hd. unfold get_proc. rewrite K4. by apply Hl.
  - split.
    + done.
    + exists p. split; [done|]. cbn. rewrite K2, K3, list_lookup_alter_eq, list_lookup_alter_eq, Hp. done.
    + unfold s_world. cbn. unfold s_world. by rewrite K1.
    + intros k. cbn. rewrite K2. unfold after_switch. destruct (decide (j = k)) as [<-|Hne].
      * rewrite list_lookup_alter_eq, Hj1, Hj, Nat.eqb_refl. done.
      * rewrite list_lookup_alter_ne, Hth by done. rewrite (proj2 (Nat.eqb_neq k j)) by done. done.
Qed.

Lemma save_threads frame (s : sys) i p :
  cell_current_thread_internal s = Some i -> y_cpus s !! y_cpu s = Some p ->
  y_threads (cell_save_current frame s) = alter (saved frame p) i (y_threads s).
Proof. intros Hi Hp. unfold cell_save_current. by rewrite Hi, Hp. Qed.

Lemma save_rest frame (s : sys) :
  y_k (cell_save_current frame s) = y_k s /\ y_procs (cell_save_current frame s) = y_procs s.
Proof.
  unfold cell_save_current. destruct (cell_current_thread_internal s); [|done]. by destruct (y_cpus s !! y_cpu s).
Qed.

(** A turn with a candidate switches to it. *)
Lemma turn_switched i start old (s : sys) :
  lasting old s -> spaced s -> is_Some (y_cpus s !! y_cpu s) -> is_Some (y_threads s !! i) -> (0 < thread_capacity s)%nat ->
  is_Some (scan free_runnable start s) \/
    (exists t, y_threads s !! i = Some t /\ own_runnable (Z.of_nat (y_cpu s)) t = true) /\ start = S i ->
  exists j t a frame' s', schedule_turn (mk_idle (Some i) old start) s = Some (Switched frame' s') /\
    y_threads s !! j = Some t /\ state t = THREAD_RUNNABLE /\ cell_domain_as (t_domain t) (y_k s) = Some a /\
    switched i j t a s frame' s'.
Proof.
  intros Hl Hsp Hcpu [ti Hti] Hcap Hc. set (c := Z.of_nat (y_cpu s)).
  assert (Hgo : forall j t, y_threads s !! j = Some t -> state t = THREAD_RUNNABLE ->
    schedule_turn (mk_idle (Some i) old start) s = take old j (if negb (i =? j)%nat && runs_on c s i then leave i s else s) ->
    exists j t a frame' s', schedule_turn (mk_idle (Some i) old start) s = Some (Switched frame' s') /\
      y_threads s !! j = Some t /\ state t = THREAD_RUNNABLE /\ cell_domain_as (t_domain t) (y_k s) = Some a /\
      switched i j t a s frame' s').
  { intros j t Hj Hst E. destruct (take_switched i j old s t Hl Hsp Hj Hst Hcpu) as (f & s' & a & Et & Ha & Hsw).
    exists j, t, a, f, s'. rewrite E. done. }
  unfold schedule_turn in Hgo |- *. cbn [i_current i_start i_old_domain] in Hgo |- *. fold c in Hgo |- *.
  destruct (thread_is (fun t => bool_decide (state t = THREAD_RUNNABLE)) s i) eqn:Hr.
  - destruct (scan (own_runnable c) start s) as [j|] eqn:Ej.
    { destruct (scan_spec _ _ _ _ Ej) as (t & Ht & Hp). apply andb_prop in Hp as [Hs%bool_decide_eq_true _]. by apply (Hgo j t). }
    exfalso. unfold scan, obind in Ej. destruct (first_from _ _ _) as [m|] eqn:Ef; [done|]. rewrite first_from_None in Ef.
    destruct Hc as [[j Hj]|[(t & Ht & Hp) ->]].
    + unfold scan, obind in Hj. destruct (first_from (fun n => thread_is free_runnable _ _) _ _) as [m|] eqn:Em; [|done].
      apply first_from_Some in Em as (Hm & Hf & _). specialize (Ef m Hm). unfold thread_is in Ef, Hf.
      destruct (y_threads s !! ((start + m) mod thread_capacity s)%nat) as [u|]; [|done]. unfold own_runnable in Ef. apply andb_prop in Hf as [F1 F2]. by rewrite F1, F2 in Ef.
    + destruct (behind_exists (thread_capacity s) i i) as (m & Hm & Ei); [by eapply lookup_lt_Some..|].
      specialize (Ef m ltac:(lia)). unfold thread_is in Ef. fold (behind (thread_capacity s) i m) in Ef.
      rewrite <- Ei, Ht in Ef. fold c in Hp. congruence.
  - destruct (scan free_runnable start s) as [j|] eqn:Ej.
    + destruct (scan_spec _ _ _ _ Ej) as (t & Ht & Hp). apply andb_prop in Hp as [Hs%bool_decide_eq_true Hn]. apply (Hgo j t Ht Hs).
      destruct (Nat.eqb_spec i j) as [<-|Hne]; [|done]. simpl. destruct (runs_on c s i) eqn:Ho; [|done].
      unfold runs_on, thread_is in Ho. rewrite Ht in Ho. subst c. simpl in Ho. zbool. lia.
    + exfalso. destruct Hc as [[? ?]|[(t & Ht & Hp) _]]; [done|]. apply andb_prop in Hp as [Hs _]. unfold thread_is in Hr.
      rewrite Ht in Hr. congruence.
Qed.

Lemma spaced_save frame (s : sys) : spaced s -> spaced (cell_save_current frame s).
Proof.
  intros Hs k t' Ht' Hr. rewrite (proj1 (save_rest frame s)).
  pose proof (mild_save (-1) frame s) as M. destruct (mild_lookup _ _ _ _ _ M Ht') as (t & Ht & _).
  destruct (save_lookup frame s k t Ht) as (t2 & Ht2 & Hs2 & _ & Hd2 & _). simplify_eq. rewrite Hd2. apply (Hs k t Ht). congruence.
Qed.


End Spec.

(** ** Witnesses *)

(** Thread 0 runs on processor 0; threads 1 and 2 wait for a processor. *)
Definition busy : sys (V := zeros) (A := unit) := system false [runnable 1 0 0; runnable 2 (-1) 1; runnable 3 (-1) 1; zero_thread] (Some 0%nat) None.

Lemma busy_lasting : lasting (Some 0%nat) busy.
Proof. intros i [= <-]. by left. Qed.

Lemma busy_spaced : spaced busy.
Proof.
  intros k t Hk Hs. do 4 (destruct k as [|k]; [injection Hk as <-; first [discriminate Hs|eexists; reflexivity]|]). done.
Qed.


(** The state after the switch of processor 0. *)
Definition busy' : sys (V := zeros) (A := unit) := match cell_schedule user_frame busy with Some (Switched _ s) => s | _ => busy end.

Lemma busy_overlooked : overlooked 0 2 1 busy busy'.
Proof.
  assert (Hw : forall s : sys (V := zeros) (A := unit), y_threads s !! 2%nat = Some (runnable 3 (-1) 1) -> waiting 2 s).
  { intros s Hs. exists (runnable 3 (-1) 1). split; [exact Hs|reflexivity]. }
  apply (overlooked_S 0 2 0 busy busy user_frame (tf (runnable 2 (-1) 1)) busy' busy').
  - apply overlooked_O; [reflexivity|]. apply Hw. reflexivity.
  - vm_compute. reflexivity.
  - vm_compute. discriminate.
  - vm_compute. reflexivity.
  - reflexivity.
  - reflexivity.
  - apply Hw. vm_compute. reflexivity.
Qed.


End SchedSpec.
