(* ===== verification/ProcessSpec.v ===== *)
(** What the process code promises, and where it does not keep it. *)

From Stdlib Require Import ZArith Lia Ascii String.
From stdpp Require Import base numbers list option relations.
From S2P Require Import Prelude Mem Pmm Iface Vma Vmm Memory MemorySpec Thread Domain Reap Sched Futex Process SchedInv ReapInv SchedSample SchedOps ProcessOps ProcessRun SchedSpec.
Import Vma Pmm Vmm Memory MemorySpec Thread Domain Reap Sched Futex Process SchedSample SchedSpec.

#[local] Open Scope Z_scope.
#[local] Open Scope c_scope.

Module ProcessSpec.

Section Spec.
Context {V A : Type} `{HL : HostLaws V A} `{HD : Descriptors A}.
#[local] Notation sys := (sys (V := V) (A := A)).
#[local] Notation switch := (switch (V := V) (A := A)).

(** ** Several processors *)

(** The calls a processor makes in the kernel. *)
Inductive call :=
| Tick
| Wake_sleepers (ticks : Z)
| Sleep (ticks : Z)
| Wait_pipe (fd buf len : Z) (write : bool)
| Wait_socket (fd buf len addr addrlen flags ticks : Z)
| Wait_socket_write (fd buf len ticks : Z)
| Wait_sendmsg (fd addr ticks : Z)
| Wait_recvmsg (fd addr iov iovlen name namelen flags ticks : Z)
| Futex_wait (uaddr expected : Z)
| Futex_wake (uaddr count : Z)
| Set_robust_list (addr : Z)
| Set_tid_address (addr : Z)
| Exit_thread (status : Z)
| Exit_group (status : Z)
| Fork (vma_hhdm : Z)
| Vfork (newsp flags ptid tls ctid : Z)
| Clone (flags newsp ptid tls ctid : Z)
| Wait4 (pid addr options : Z)
| Exec (as_ : option user_address_space) (vmas : option vma_list) (entry sp : Z) (path : option string) (argv : list string).

Definition stay (frame : trap_frame) (r : Z * sys) : switch := Stay r.1 frame r.2.

Definition perform (k : call) (frame : trap_frame) (s : sys) : option switch :=
  match k with
  | Tick => cell_schedule frame s
  | Wake_sleepers n => Some (Stay 0 frame (cell_wake_sleep_waiters n s))
  | Sleep n => cell_sleep_current n frame s
  | Wait_pipe fd buf len write => cell_block_current_on_pipe fd buf len write frame s
  | Wait_socket fd buf len addr addrlen flags n =>
      cell_block_current_on_socket_flags_timeout fd buf len addr addrlen flags n frame s
  | Wait_socket_write fd buf len n => cell_block_current_on_socket_write_timeout fd buf len n frame s
  | Wait_sendmsg fd addr n => cell_block_current_on_socket_sendmsg_timeout fd addr n frame s
  | Wait_recvmsg fd addr iov iovlen name namelen flags n =>
      cell_block_current_on_socket_msg_timeout fd addr iov iovlen name namelen flags n frame s
  | Futex_wait uaddr expected => cell_futex_wait_current uaddr expected frame s
  | Futex_wake uaddr count => Some (stay frame (cell_futex_wake_current uaddr count s))
  | Set_robust_list addr => Some (stay frame (cell_set_robust_list_current addr s))
  | Set_tid_address addr => Some (stay frame (cell_set_tid_address_current addr s))
  | Exit_thread status => cell_exit_thread_current status frame s
  | Exit_group status => cell_exit_group_current status frame s
  | Fork hh => let* r := cell_fork_current hh frame s in Some (stay frame r)
  | Vfork newsp flags ptid tls ctid => cell_vfork_current frame newsp flags ptid tls ctid s
  | Clone flags newsp ptid tls ctid =>
      let* r := cell_clone_thread_current frame flags newsp ptid tls ctid s in Some (stay frame r)
  | Wait4 pid addr options => cell_wait4_options pid addr options frame s
  | Exec as_ vmas entry sp path argv =>
      let* (ok, frame, s) := cell_exec_replace as_ vmas entry sp frame path argv s in Some (Stay (Z.b2z ok) frame s)
  end.

(** Two calls are safe only under a condition the code does not establish:
    replacing the program while no other thread of the process runs, and a
    [vfork] that may have to destroy its child while no thread runs in an unused
    slot. *)
Definition permitted (k : call) (s : sys) : Prop :=
  match k with
  | Exec _ _ _ _ _ _ => forall d i, cell_current_domain_internal s = Some d -> cell_current_thread_internal s = Some i -> alone d i s
  | Vfork _ _ _ _ _ => unused_idle s
  | _ => True
  end.

Lemma perform_ends c B k frame (s : sys) r :
  in_kernel c B s -> own c s -> permitted k s -> perform k frame s = Some r -> ends c B r.
Proof.
  intros Hk Ho Hp. destruct k; cbn [perform permitted] in *; try (by apply block_ends).
  - by apply schedule_ends.
  - intros [= <-]. eapply ends_stay; [done|done|apply mild_wake_sleep].
  - unfold cell_sleep_current. destruct (cell_current_thread_internal s); [|by intros [= <-]].
    destruct (cell_current_domain_internal s); [|by intros [= <-]]. destruct (_ =? 0); [by intros [= <-]|]. by apply block_ends.
  - by apply futex_wait_ends.
  - intros [= <-]. eapply ends_stay; [done|done|]. unfold cell_futex_wake_current.
    destruct (cell_current_domain_internal s); [|apply mild_refl]. destruct (negb _); [apply mild_refl|].
    destruct (_ =? 0); [apply mild_refl|apply mild_futex_wake].
  - intros [= <-]. eapply ends_stay; [done|done|]. unfold cell_set_robust_list_current.
    destruct (cell_current_thread_internal s); [|apply mild_refl]. apply mild_on_thread. intros t _. by apply tmild_same.
  - intros [= <-]. eapply ends_stay; [done|done|]. unfold cell_set_tid_address_current.
    destruct (current s) as [[i t]|]; [|apply mild_refl]. apply mild_on_thread. intros u _. by apply tmild_same.
  - by apply exit_thread_ends.
  - by apply exit_group_ends.
  - unfold obind. destruct (cell_fork_current _ _ _) as [[rc s']|] eqn:E; [|done]. intros [= <-]. eapply ends_stay; [done|done|].
    eapply mild_fork, E.
  - by apply vfork_ends.
  - unfold obind. destruct (cell_clone_thread_current _ _ _ _ _ _ _) as [[rc s']|] eqn:E; [|done]. intros [= <-].
    eapply ends_stay; [done|done|]. eapply mild_clone, E.
  - by apply wait4_ends.
  - unfold obind. destruct (cell_exec_replace _ _ _ _ _ _ _ _) as [[[ok f] s']|] eqn:E; [|done]. intros [= <-]. by eapply exec_ends.
Qed.

(** A processor runs a thread, waits inside the scheduler, or is off. *)
Inductive mode := Busy | Idle (l : idle) | Off.

Record computer := mk_computer { kernel : sys; modes : nat -> mode }.

Definition leaves (c : nat) (r : switch) (m : nat -> mode) : computer :=
  let set x := fun k => if (k =? c)%nat then x else m k in
  match r with
  | Stay _ _ s | Switched _ s => mk_computer s (set Busy)
  | Waiting l s => mk_computer s (set (Idle l))
  | Halted s => mk_computer s (set Off)
  end.

(** A stay of processor [c] in the kernel. *)
Inductive step : computer -> computer -> Prop :=
| step_call x c k frame r :
    modes x c = Busy -> permitted k (set_y_cpu (kernel x) c) -> perform k frame (set_y_cpu (kernel x) c) = Some r ->
    step x (leaves c r (modes x))
| step_resume x c l r :
    modes x c = Idle l -> schedule_resume l (set_y_cpu (kernel x) c) = Some r -> step x (leaves c r (modes x))
| step_files x c s : modes x c = Busy -> quiet (set_y_cpu (kernel x) c) s -> step x (mk_computer s (modes x)).

Definition busy_in (m : nat -> mode) (c : nat) : Prop := m c = Busy.

(** The thread in the slot of each processor that runs one is marked as running
    there. *)
Definition ordered (x : computer) : Prop := forall c, modes x c = Busy -> own c (kernel x).

Lemma enter_kernel x c : ordered x -> in_kernel c (busy_in (modes x)) (set_y_cpu (kernel x) c).
Proof. intros Hx. split; [done|]. intros c' _ Hb. by apply (Hx c'). Qed.

Lemma leave_ordered c r x : ends c (busy_in (modes x)) r -> ordered (leaves c r (modes x)).
Proof.
  assert (Hgo : forall s m, in_kernel c (busy_in (modes x)) s -> (m = Busy -> own c s) ->
    ordered (mk_computer s (fun k => if (k =? c)%nat then m else modes x k))).
  { intros s m [K1 K2] Ho c'. cbn. destruct (Nat.eqb_spec c' c) as [->|Hne]; [exact Ho|]. by apply K2. }
  destruct r as [rc f s|f s|l s|s]; cbn; [intros [Hk Ho]; by apply Hgo..|intros Hk; by apply Hgo|intros Hk; by apply Hgo].
Qed.

Lemma step_ordered x y : ordered x -> step x y -> ordered y.
Proof.
  intros Hx Hs. destruct Hs as [x c k frame r Hb Hp Hr|x c l r Hi Hr|x c s Hb Hq].
  - apply leave_ordered. eapply perform_ends; [by apply enter_kernel| |done|done]. by apply (Hx c).
  - apply leave_ordered. eapply resume_ends; [by apply enter_kernel|done].
  - apply (quiet_mild (-1)) in Hq. intros c' Hc. eapply own_mild; [exact Hq|lia|]. by apply (Hx c').
Qed.

Lemma run_ordered x y : rtc step x y -> ordered x -> ordered y.
Proof. induction 1 as [|x y z Hs _ IH]; [done|]. intros Hx. by eapply IH, step_ordered. Qed.



(** ** Futexes *)

Definition waiters (d : nat) (uaddr : Z) (l : list thread) : Z := Z.of_nat (length (filter (fun t => waiter d uaddr t = true) l)).

Lemma waiters_cons d uaddr t l : waiters d uaddr (t :: l) = (if waiter d uaddr t then 1 else 0) + waiters d uaddr l.
Proof.
  unfold waiters. rewrite filter_cons. destruct (waiter d uaddr t); [rewrite decide_True by done; simpl; lia|].
  rewrite decide_False by done. lia.
Qed.

Lemma waiters_nonneg d uaddr l : 0 <= waiters d uaddr l.
Proof. unfold waiters. lia. Qed.

(** What a call that may wake [count] waiters makes of the thread [k]. *)
Definition futex_woken (d : nat) (uaddr count : Z) (l : list thread) (k : nat) (t : thread) : thread :=
  if waiter d uaddr t && (waiters d uaddr (firstn k l) <? count) then woken t else t.

Lemma wake_waiters_spec d uaddr count woke l n l' :
  wake_waiters d uaddr count woke l = (n, l') -> woke <= count ->
  n = Z.min count (woke + waiters d uaddr l) /\ forall k, l' !! k = futex_woken d uaddr (count - woke) l k <$> l !! k.
Proof.
  revert woke n l'. induction l as [|t l IH]; intros woke n l'; cbn [wake_waiters].
  { intros [= <- <-] Hle. unfold waiters. simpl. split; [lia|]. intros k. by rewrite lookup_nil. }
  rewrite waiters_cons. pose proof (waiters_nonneg d uaddr l) as Hnn. destruct (Z.ltb_spec woke count) as [Hlt|Hge]; cbn [negb].
  2: { intros [= <- <-] Hle. split; [destruct (waiter d uaddr t); lia|]. intros k. destruct ((t :: l) !! k) as [u|] eqn:Hu; [|done].
       cbn. f_equal. unfold futex_woken. pose proof (waiters_nonneg d uaddr (firstn k (t :: l))).
       replace (_ <? _) with false by lia. by rewrite andb_false_r. }
  destruct (waiter d uaddr t) eqn:Hw.
  - destruct (wake_waiters d uaddr count (woke + 1) l) as [n1 l1] eqn:E. intros [= <- <-] _.
    destruct (IH _ _ _ E ltac:(lia)) as [-> Hk]. split; [lia|]. intros [|k].
    + cbn. unfold futex_woken. rewrite Hw. cbn. replace (0 <? _) with true by lia. done.
    + cbn. rewrite Hk. destruct (l !! k) as [u|]; [|done]. cbn. f_equal. unfold futex_woken. cbn [firstn]. rewrite waiters_cons, Hw.
      replace (1 + waiters d uaddr (firstn k l) <? count - woke) with (waiters d uaddr (firstn k l) <? count - (woke + 1)); [done|].
      apply eq_true_iff_eq. rewrite !Z.ltb_lt. lia.
  - destruct (wake_waiters d uaddr count woke l) as [n1 l1] eqn:E. intros [= <- <-] _.
    destruct (IH _ _ _ E ltac:(lia)) as [-> Hk]. split; [lia|]. intros [|k].
    + cbn. unfold futex_woken. rewrite Hw. done.
    + cbn. rewrite Hk. destruct (l !! k) as [u|]; [|done]. cbn. f_equal. unfold futex_woken. cbn [firstn]. by rewrite waiters_cons, Hw.
Qed.

(** [cell_futex_wake_domain] wakes exactly the first [count] threads of the
    table that wait on the address in the domain, returns their number, and
    changes nothing else. *)
Theorem futex_wake_exact (d : nat) (uaddr count : Z) (s : sys) (n : Z) (s' : sys) :
  0 <= count -> cell_futex_wake_domain d uaddr count s = (n, s') ->
  n = Z.min count (waiters d uaddr (y_threads s)) /\ s' = set_y_threads s (y_threads s') /\
  forall k, y_threads s' !! k = futex_woken d uaddr count (y_threads s) k <$> y_threads s !! k.
Proof.
  intros Hc. unfold cell_futex_wake_domain. destruct (wake_waiters _ _ _ _ _) as [n' l] eqn:E. intros [= <- <-].
  destruct (wake_waiters_spec _ _ _ _ _ _ _ E Hc) as [-> Hk]. split; [lia|]. split; [done|]. intros k. cbn. rewrite Hk.
  by rewrite Z.sub_0_r.
Qed.

(** A thread that is not running is not touched by the scheduler. *)
Lemma take_lasting_inv old j (s : sys) r :
  lasting old s -> take old j s = Some r ->
  exists f s', r = Switched f s' /\ forall k, k <> j -> y_threads s' !! k = y_threads s !! k.
Proof.
  intros Hl. unfold take. cbv zeta. rewrite cleanup_lasting by done. cbn [obind]. unfold restore_thread, obind.
  destruct (_ !! j) as [t|]; [|done]. destruct (cell_domain_as _ _) as [a|]; [|done]. intros [= <-]. do 2 eexists. split; [done|].
  intros k Hk. cbn. by rewrite list_lookup_alter_ne.
Qed.

Definition state_of (r : switch) : sys := match r with Stay _ _ s | Switched _ s | Waiting _ s | Halted s => s end.

Lemma schedule_blocked frame (s : sys) r k t :
  lasting (cell_current_domain_internal s) s -> y_threads s !! k = Some t -> state t = THREAD_BLOCKED -> running_cpu t < 0 ->
  cell_schedule frame s = Some r -> y_threads (state_of r) !! k = y_threads (cell_save_current frame s) !! k.
Proof.
  intros Hl Hk Hs Hrun. unfold cell_schedule. set (s0 := cell_save_current frame s). intros Ht. apply turn_cases in Ht.
  cbn [i_old_domain i_start i_current] in Ht. destruct (save_lookup frame s k t Hk) as (t0 & Ht0 & Hs0 & Hr0 & _). fold s0 in Ht0.
  destruct Ht as [[-> _]|(j & u & s1 & Hu & Htk & Hs1 & Hsc & _)].
  - unfold wait_or_halt. by destruct (_ || _).
  - assert (k <> j) as Hne.
    { intros ->. simplify_eq. destruct Hsc as [[_ Hp]|[_ Hp]]; apply andb_prop in Hp as [Hp%bool_decide_eq_true _]; congruence. }
    apply take_lasting_inv in Htk as (f & s' & -> & Hth).
    + cbn. rewrite Hth by done. destruct Hs1 as [-> |(i & _ & _ & -> & Hr)]; [done|]. rewrite leave_ne; [done|]. intros ->.
      unfold runs_on, thread_is in Hr. rewrite Ht0 in Hr. zbool. lia.
    + destruct (save_rest frame s) as [_ Rp]. fold s0 in Rp. intros d Hd. unfold get_proc.
      assert (y_procs s1 = y_procs s) as -> by (destruct Hs1 as [-> |(i & _ & _ & -> & _)]; done). by apply Hl.
Qed.

Lemma waiters_before d uaddr l i t :
  l !! i = Some t -> waiter d uaddr t = true -> waiters d uaddr (firstn i l) < waiters d uaddr l.
Proof.
  revert i. induction l as [|u l IH]; intros [|i] Hi Hw; simplify_eq/=.
  - rewrite waiters_cons, Hw. pose proof (waiters_nonneg d uaddr l). unfold waiters at 1. simpl. lia.
  - rewrite !waiters_cons. specialize (IH i Hi Hw). lia.
Qed.

(** The thread that blocks, in the state that follows: [f] says what it waits for. *)
Lemma block_current_blocked f frame (s : sys) i d t r :
  cell_current_thread_internal s = Some i -> y_threads s !! i = Some t -> t_domain t = Some d -> zombie (get_proc s d) = false ->
  (forall t, state (f t) = state t /\ running_cpu (f t) = running_cpu t /\ t_domain (f t) = t_domain t) ->
  block_current f frame s = Some r ->
  exists u u', y_threads (state_of r) !! i = Some u' /\ state (f u) = THREAD_BLOCKED /\ t_domain (f u) = Some d /\
    (u' = f u \/ exists p, u' = saved frame p (f u)).
Proof.
  intros Hi Ht Hd Hz Hf. unfold block_current, obind. rewrite Hi. set (s0 := cell_save_current frame s). set (s1 := on_thread i _ s0).
  destruct (save_lookup frame s i t Ht) as (t0 & Ht0 & _ & _ & Hd0 & _). fold s0 in Ht0.
  set (t1 := f (set_state (set_running_cpu t0 (-1)) THREAD_BLOCKED)).
  destruct (Hf (set_state (set_running_cpu t0 (-1)) THREAD_BLOCKED)) as (F1 & F2 & F3). fold t1 in F1, F2, F3. cbn in F1, F2, F3.
  assert (Ht1 : y_threads s1 !! i = Some t1) by (unfold s1; cbn; by rewrite list_lookup_alter_eq, Ht0).
  assert (Hi1 : cell_current_thread_internal s1 = Some i) by (rewrite <- Hi, <- (current_save frame s); done).
  destruct (save_rest frame s) as [_ Rp]. intros Hs. apply (schedule_blocked frame s1 r i t1) in Hs; [|intros d'|done|done|lia].
  - exists (set_state (set_running_cpu t0 (-1)) THREAD_BLOCKED). fold t1. rewrite Hs. destruct (y_cpus s1 !! y_cpu s1) as [p|] eqn:Hp.
    + rewrite (save_threads frame s1 i p Hi1 Hp), list_lookup_alter_eq, Ht1. eexists. split; [done|]. split_and!; [done|congruence|by right; exists p].
    + unfold cell_save_current. rewrite Hi1, Hp, Ht1. eexists. split; [done|]. split_and!; [done|congruence|by left].
  - unfold cell_current_domain_internal. rewrite Hi1. cbn [obind]. rewrite Ht1. cbn [obind]. rewrite F3, Hd0, Hd. intros [= <-]. left.
    unfold get_proc in Hz |- *. change (y_procs s1) with (y_procs (cell_save_current frame s)). by rewrite Rp.
Qed.

(** C11: no wake-up is lost. When [cell_futex_wait_current] blocks, its thread is
    found by the next call of [cell_futex_wake_domain] for the address that may
    wake enough threads, and is then runnable with the result 0. *)
Theorem futex_wait_then_wake (uaddr expected : Z) (frame : trap_frame) (s : sys) (i d : nat) (t : thread) (r : switch)
    (count n : Z) (s2 : sys) :
  cell_current_thread_internal s = Some i -> y_threads s !! i = Some t -> t_domain t = Some d -> zombie (get_proc s d) = false ->
  cell_futex_wait_current uaddr expected frame s = Some r -> (forall rc f s', r <> Stay rc f s') ->
  waiters d uaddr (y_threads (state_of r)) <= count ->
  cell_futex_wake_domain d uaddr count (state_of r) = (n, s2) ->
  1 <= n /\ exists t2, y_threads s2 !! i = Some t2 /\ state t2 = THREAD_RUNNABLE /\ reason t2 = WAIT_NONE /\ get_x (tf t2) 0 = 0.
Proof.
  intros Hi Ht Hd Hz. unfold cell_futex_wait_current. unfold cell_current_domain_internal. rewrite Hi. cbn [obind]. rewrite Ht. cbn [obind].
  rewrite Hd. intros Hw Hns Hc Hwk. destruct (negb _); [injection Hw as <-; by destruct (Hns (- EINVAL) frame s)|].
  unfold obind in Hw. destruct (ensure_range _ _ _ _) as [[ok s1]|] eqn:E1; [|done]. apply ensure_range_frame in E1 as [k ->].
  destruct ok; cbn [negb] in Hw; [|injection Hw as <-; by edestruct Hns].
  destruct (cell_domain_as _ _) as [a|]; [|done].
  destruct (copy_value_in _ _ _ _) as [[[ok v] s1]|] eqn:E2; [|done]. apply copy_value_in_frame in E2 as [m ->].
  destruct ok; cbn [negb] in Hw; [|injection Hw as <-; by edestruct Hns]. destruct (negb _); [injection Hw as <-; by edestruct Hns|].
  apply (block_current_blocked _ frame _ i d t) in Hw as (u & t1 & Ht1 & Hbs & Hbd & Hu); [|done..].
  assert (Hw1 : waiter d uaddr t1 = true).
  { unfold waiter, of_domain, blocked_on. cbn in Hbs, Hbd.
    destruct Hu as [-> |[p ->]]; cbn; rewrite Hbs, Hbd, Z.eqb_refl; by rewrite !bool_decide_true. }
  pose proof (waiters_before _ _ _ _ _ Ht1 Hw1) as Hlt. pose proof (waiters_nonneg d uaddr (firstn i (y_threads (state_of r)))) as Hnn.
  unfold cell_futex_wake_domain in Hwk. destruct (wake_waiters _ _ _ _ _) as [n' l] eqn:E. injection Hwk as <- <-.
  destruct (wake_waiters_spec _ _ _ _ _ _ _ E ltac:(lia)) as [-> Hk]. split; [lia|]. cbn. rewrite Hk, Ht1. cbn. eexists. split; [done|].
  unfold futex_woken. rewrite Hw1. replace (_ <? _) with true by lia. cbn. split_and!; try done. unfold get_x. cbn.
  by destruct (x (tf t1)).
Qed.

(** ** Parents and children *)

Lemma wake_vfork_lookup n (s : sys) k : y_threads (cell_wake_vfork_parent_of n s) !! k = wake_vfork n <$> y_threads s !! k.
Proof. unfold cell_wake_vfork_parent_of. cbn. apply list_lookup_fmap. Qed.

Lemma wake_vfork_other n t : reason t <> WAIT_VFORK -> wake_vfork n t = t.
Proof. intros Hr. unfold wake_vfork, blocked_on. rewrite (bool_decide_false (reason t = _)) by done. by rewrite andb_false_r. Qed.

(** The tables of domains and their threads are as before a wake-up of a parent in
    [vfork]. *)
Lemma vfork_find n i (s : sys) : cell_find_domain i (cell_wake_vfork_parent_of n s) = cell_find_domain i s.
Proof. done. Qed.

Lemma vfork_thread_for n d (s : sys) : cell_thread_for_domain d (cell_wake_vfork_parent_of n s) = cell_thread_for_domain d s.
Proof.
  unfold cell_thread_for_domain, thread_capacity. cbn. rewrite length_fmap. apply first_from_ext. intros j _. unfold thread_is.
  rewrite wake_vfork_lookup. destruct (y_threads s !! j) as [t|]; [|done]. cbn. unfold wake_vfork.
  destruct (blocked_on WAIT_VFORK t && (wait_target t =? n)) eqn:E; [|done]. apply andb_prop in E as [E _].
  apply blocked_state in E as [E _]. unfold of_domain. cbn. by rewrite E.
Qed.

(** C29: a thread that calls [wait4] for any child of its group, with the argument 0,
    is never woken. It blocks with the target 0; the exit of a child of its
    process, which [wait4] would have collected, does not match this target, and
    the thread stays blocked. *)
Theorem wait_for_group_lost (s : sys) (i d : nat) (t : thread) (addr : Z) (frame : trap_frame) (r : switch) :
  cell_current_thread_internal s = Some i -> y_threads s !! i = Some t -> t_domain t = Some d -> zombie (get_proc s d) = false ->
  cell_wait4_options 0 addr 0 frame s = Some r -> (forall rc f s', r <> Stay rc f s') ->
  exists t1, y_threads (state_of r) !! i = Some t1 /\ blocked_on WAIT_CHILD t1 = true /\
    forall s1 child s2, y_threads s1 !! i = Some t1 -> 0 < id (get_proc s1 child) ->
      cell_find_domain (parent_id (get_proc s1 child)) s1 = Some d -> cell_thread_for_domain d s1 = Some i ->
      cell_wake_parent_of child s1 = Some s2 -> y_threads s2 !! i = Some t1.
Proof.
  intros Hi Ht Hd Hz. unfold cell_wait4_options, cell_current_domain_internal. rewrite Hi. cbn [obind]. rewrite Ht. cbn [obind]. rewrite Hd.
  cbv zeta. intros Hw Hns. destruct (find_waitable_child _ _ s) as [child|].
  { exfalso. unfold obind in Hw. destruct (if negb _ then _ else _) as [[ok s1]|]; [|done]. destruct ok; cbn [negb] in Hw.
    - destruct (reap_child child s1); [|done]. injection Hw as <-. by edestruct Hns.
    - injection Hw as <-. by edestruct Hns. }
  destruct (negb _); [injection Hw as <-; by edestruct Hns|]. cbn [negb] in Hw.
  apply (block_current_blocked _ frame _ i d t) in Hw as (u & t1 & Ht1 & Hbs & _ & Hu); [|done..].
  assert (state t1 = THREAD_BLOCKED /\ reason t1 = WAIT_CHILD /\ wait_target t1 = 0) as (E1 & E2 & E3) by (destruct Hu as [-> |[p ->]]; done).
  exists t1. split; [done|]. split; [unfold blocked_on; rewrite E1, E2; done|].
  intros s1 child s2 Hs1 Hid Hfd Hth. unfold cell_wake_parent_of, wake_parent_of. cbv zeta. rewrite vfork_find, Hfd, vfork_thread_for, Hth.
  cbn [obind]. rewrite wake_vfork_lookup, Hs1. cbn [fmap option_fmap option_map obind]. rewrite wake_vfork_other by congruence.
  unfold waits_for. rewrite E3. replace (0 =? id (get_proc s1 child)) with false by lia. rewrite andb_false_r. cbn [negb].
  intros [= <-]. rewrite wake_vfork_lookup, Hs1. cbn. by rewrite wake_vfork_other by congruence.
Qed.


(** ** A new program *)

Definition dropped_thread (t : thread) : thread := set_t_domain (set_state t THREAD_UNUSED) None.

Lemma drop_lookup d i k (s : sys) j :
  y_threads (drop_thread d i k s) !! j =
    (fun t => if (j =? k)%nat && negb (j =? i)%nat && of_domain d t then dropped_thread t else t) <$> y_threads s !! j.
Proof.
  unfold drop_thread. destruct (y_threads s !! k) as [t|] eqn:Ht.
  - destruct (Nat.eqb_spec j k) as [->|Hne]; cbn [andb].
    + rewrite Ht. cbn. destruct (Nat.eqb_spec k i); cbn; [by rewrite Ht|]. destruct (of_domain d t); cbn; [|by rewrite Ht].
      rewrite list_lookup_insert_eq; [done|]. by eapply lookup_lt_Some.
    + destruct (_ || _); [by destruct (y_threads s !! j)|]. cbn. rewrite list_lookup_insert_ne by done. by destruct (y_threads s !! j).
  - destruct (Nat.eqb_spec j k) as [->|Hne]; [by rewrite Ht|]. by destruct (y_threads s !! j).
Qed.

Lemma drop_slots_lookup d i k n (s : sys) j t :
  y_threads s !! j = Some t -> (k <= j < k + n)%nat -> j <> i -> t_domain t = Some d ->
  y_threads (on_slots (drop_thread d i) k n s) !! j = Some (dropped_thread t).
Proof.
  revert k s. assert (Hkeep : forall n k (s : sys) u, y_threads s !! j = Some u -> of_domain d u = false ->
    y_threads (on_slots (drop_thread d i) k n s) !! j = Some u).
  { clear. induction n as [|n IH]; intros k s u Hu Hd; [done|]. cbn [on_slots]. apply IH; [|done]. rewrite drop_lookup, Hu. cbn.
    by rewrite Hd, andb_false_r. }
  induction n as [|n IH]; intros k s Ht Hk Hji Hd; [lia|]. cbn [on_slots]. destruct (decide (j = k)) as [->|Hne].
  - apply Hkeep; [|done]. rewrite drop_lookup, Ht. cbn. rewrite Nat.eqb_refl, (proj2 (Nat.eqb_neq k i)) by done.
    unfold of_domain. rewrite bool_decide_true by done. done.
  - apply IH; [|lia|done|done]. rewrite drop_lookup, Ht. cbn. by rewrite (proj2 (Nat.eqb_neq j k)).
Qed.

Lemma drop_slots_cpus d i k n (s : sys) : y_cpus (on_slots (drop_thread d i) k n s) = y_cpus s.
Proof.
  revert k s. induction n as [|n IH]; intros k s; [done|]. cbn [on_slots]. rewrite IH. unfold drop_thread.
  destruct (y_threads s !! k) as [t|]; [|done]. by destruct (_ || _).
Qed.

Lemma first_from_first p n j : (j < n)%nat -> p j = true -> (forall k, (k < j)%nat -> p k = false) -> first_from p 0 n = Some j.
Proof.
  intros Hj Hp Hlow. destruct (first_from p 0 n) as [k|] eqn:E.
  - apply first_from_Some in E as (_ & Hk & Hb). destruct (Nat.lt_trichotomy j k) as [Hlt|[-> |Hlt]]; [|done|].
    + rewrite Hb in Hp; [done|lia].
    + by rewrite Hlow in Hk.
  - rewrite first_from_None in E. rewrite E in Hp; [done|lia].
Qed.

(** What [cell_exec_replace] does after it freed the other threads leaves their
    slots free. *)
Lemma exec_slots as_ vmas entry sp frame path argv (s : sys) d i f s' :
  cell_current_domain_internal s = Some d -> cell_current_thread_internal s = Some i ->
  cell_exec_replace as_ vmas entry sp frame path argv s = Some (true, f, s') ->
  exists k, let s1 := on_slots (drop_thread d i) 0 (thread_capacity s) (set_y_k s k) in
    (forall j t, j <> i -> y_threads s1 !! j = Some t -> state t = THREAD_UNUSED ->
      exists t', y_threads s' !! j = Some t' /\ state t' = THREAD_UNUSED /\ running_cpu t' = running_cpu t) /\
    (forall c, smp_current_thread_slot c s' = smp_current_thread_slot c s).
Proof.
  intros Hd Hi. unfold cell_exec_replace. rewrite Hd, Hi. destruct (cell_mm_from_owned _ _ _) as [[[new_mm ?] ?] k]. cbv zeta.
  destruct new_mm as [m|]; [|done]. change (thread_capacity (set_y_k s k)) with (thread_capacity s). intros He. exists k.
  set (s1 := on_slots _ _ _ (set_y_k s k)) in *. unfold obind in He. destruct (close_on_exec d s1) as [s2|] eqn:E2; [|done].
  destruct (cell_domain_set_mm _ _ _) as [[b k2]|]; [|done]. set (s3 := cell_set_domain_identity _ _ _ _) in He.
  destruct (cell_domain_as _ _) as [a|]; [|done]. injection He as <- <-. apply close_on_exec_law in E2 as [_ Q2 _ Q4]. split.
  - intros j t Hji Ht Hu. destruct (Forall2_lookup_l _ _ _ _ _ Q4 Ht) as (t2 & Ht2 & Hr & _ & Hs). rewrite wake_vfork_lookup. exists t2.
    assert (Hu2 : state t2 = THREAD_UNUSED) by (destruct Hs as [-> |[Hb _]]; congruence). split; [|done].
    transitivity (wake_vfork (id (get_proc s3 d)) <$> y_threads s2 !! j); [cbn; by rewrite list_lookup_alter_ne|].
    rewrite Ht2. cbn. unfold wake_vfork, blocked_on. by rewrite Hu2.
  - intros c. transitivity (smp_current_thread_slot c s2).
    + apply (mi_slots (-1)). eapply mild_trans; [|apply mild_wake_vfork]. eapply mild_trans; [|by apply mild_on_cpu].
      eapply mild_trans; [|apply mild_on_thread; intros t _; by apply tmild_same].
      eapply mild_trans; [|apply mild_set_machine]. by apply mild_frame.
    + unfold smp_current_thread_slot. rewrite Q2. unfold s1. by rewrite drop_slots_cpus.
Qed.

(** C28: replacing the program of a process frees the slot of a thread that runs on
    another processor. After [cell_exec_replace] the slot is unused although
    processor [c] still runs the thread in it and will save its registers there,
    and the next thread created may be given the same slot. *)
Theorem exec_frees_running_thread (s s' : sys) (i j c d : nat) (ti tj : thread) (as_ : option user_address_space)
    (vmas : option vma_list) (entry sp : Z) (frame f : trap_frame) (path : option string) (argv : list string) :
  cell_current_thread_internal s = Some i -> y_threads s !! i = Some ti -> t_domain ti = Some d ->
  y_threads s !! j = Some tj -> j <> i -> t_domain tj = Some d -> running_cpu tj = Z.of_nat c ->
  smp_current_thread_slot c s = Some j ->
  cell_exec_replace as_ vmas entry sp frame path argv s = Some (true, f, s') ->
  (exists t', y_threads s' !! j = Some t' /\ state t' = THREAD_UNUSED /\ running_cpu t' = Z.of_nat c) /\
  smp_current_thread_slot c s' = Some j /\
  ((forall k t, (k < j)%nat -> y_threads s' !! k = Some t -> state t <> THREAD_UNUSED) -> forall e, (cell_alloc_thread e s').1 = Some j).
Proof.
  intros Hi Hti Hdi Htj Hne Hdj Hr Hs He. assert (Hd : cell_current_domain_internal s = Some d)
    by (unfold cell_current_domain_internal; rewrite Hi; cbn; by rewrite Hti).
  destruct (exec_slots _ _ _ _ _ _ _ _ _ _ _ _ Hd Hi He) as (k & Ht & Hslots).
  destruct (Ht j (dropped_thread tj) Hne) as (t' & Ht' & Hu & Hr'); [|done|].
  { apply drop_slots_lookup; try done. apply lookup_lt_Some in Htj. unfold thread_capacity. lia. }
  split; [|split].
  - exists t'. split; [done|]. split; [done|]. by rewrite Hr'.
  - by rewrite Hslots.
  - intros Hlow e. unfold cell_alloc_thread. rewrite (first_from_first _ _ j); [done|..].
    + apply lookup_lt_Some in Ht'. unfold thread_capacity. lia.
    + unfold thread_is. rewrite Ht'. by apply bool_decide_eq_true.
    + intros l Hl. unfold thread_is. destruct (y_threads s' !! l) as [t|] eqn:El; [|done]. apply bool_decide_eq_false. eapply Hlow; [|done]. lia.
Qed.
End Spec.

(** ** Witnesses *)

(** Both processors run threads of domain 0. *)
Definition shared : sys (V := zeros) (A := unit) :=
  system false [runnable 1 0 0; runnable 2 1 0; runnable 3 (-1) 1; zero_thread] (Some 0%nat) (Some 1%nat).

Definition both : computer (V := zeros) (A := unit) := mk_computer shared (fun c => if (c <? 2)%nat then Busy else Off).

Lemma both_ordered : ordered both.
Proof.
  intros c Hc i Hi. destruct c as [|[|c]]; [injection Hi as <-; eexists; split; reflexivity..|discriminate Hc].
Qed.

(** Processor 0 is interrupted and schedules. *)
Definition switched_away : computer (V := zeros) (A := unit) :=
  match perform Tick user_frame (set_y_cpu shared 0) with Some r => leaves 0 r (modes both) | None => both end.

Lemma switched_step : step both switched_away.
Proof.
  unfold switched_away. destruct (perform Tick user_frame (set_y_cpu shared 0)) as [r|] eqn:E; [|by vm_compute in E].
  by apply (step_call both 0 Tick user_frame r).
Qed.


(** Domain 1 is a zombie. *)
Definition orphaned : sys (V := zeros) (A := unit) := system true [runnable 1 0 0; runnable 2 (-1) 1; zero_thread] (Some 0%nat) None.


(** Two threads wait on the word at [0x400000]. *)
Definition sleeper (n : Z) : thread := thread_entry n (-1) 0 THREAD_BLOCKED WAIT_FUTEX (-1) 0x400000.
Definition sleeping : sys (V := zeros) (A := unit) := system false [runnable 1 0 0; sleeper 2; sleeper 3; zero_thread] (Some 0%nat) None.

Lemma futex_wake_exact_witness :
  (cell_futex_wake_domain 0 0x400000 1 sleeping).1 = 1 /\
  y_threads (cell_futex_wake_domain 0 0x400000 1 sleeping).2 !! 2%nat = Some (sleeper 3).
Proof.
  destruct (futex_wake_exact 0 0x400000 1 sleeping _ _ ltac:(lia) (surjective_pairing _)) as (E & _ & Hk).
  split; [rewrite E; vm_compute; reflexivity|]. rewrite Hk. vm_compute. reflexivity.
Defined.

(** A page of user memory at [0x400000] of the address space with root [0x5000]. *)
Definition user_page : Mem.kmem :=
  Mem.store64 (Mem.store64 (Mem.store64 (Mem.store64 (fun _ => 0) 0x5000 0x7003) 0x7000 0x8003) 0x8010 0x9003) 0x9000
    (0xa000 .| PTE_VALID .| PTE_TABLE .| PTE_AF .| PTE_AP_USER_RW).

Definition waits_word : sys (V := zeros) (A := unit) :=
  set_machine (system false [runnable 1 0 0; runnable 2 (-1) 1; zero_thread] (Some 0%nat) None)
    (mk_machine (m_pmm empty_machine) user_page []).

Definition left_by (r : option (switch (V := zeros) (A := unit))) : bool :=
  match r with Some (Stay _ _ _) | None => false | Some _ => true end.

Lemma left_by_spec r : left_by r = true -> exists r', r = Some r' /\ forall rc f s, r' <> Stay rc f s.
Proof. destruct r as [[]|]; intros E; try discriminate E; eexists; split; try reflexivity; intros; discriminate. Qed.

Definition state_after (r : option (switch (V := zeros) (A := unit))) (s : sys (V := zeros) (A := unit)) : sys (V := zeros) (A := unit) :=
  match r with Some r => state_of r | None => s end.

Lemma futex_wait_then_wake_witness :
  let s := state_after (cell_futex_wait_current 0x400000 0 user_frame waits_word) waits_word in
  1 <= (cell_futex_wake_domain 0 0x400000 1 s).1 /\
  exists t, y_threads (cell_futex_wake_domain 0 0x400000 1 s).2 !! 0%nat = Some t /\ state t = THREAD_RUNNABLE /\ reason t = WAIT_NONE /\
    get_x (tf t) 0 = 0.
Proof.
  intros s. assert (Hw : waiters 0 0x400000 (y_threads s) <= 1) by (vm_compute; discriminate).
  destruct (left_by_spec (cell_futex_wait_current 0x400000 0 user_frame waits_word)) as (r & E & Hr); [vm_compute; reflexivity|].
  unfold s in Hw |- *. rewrite E in Hw |- *. cbn [state_after] in Hw |- *.
  exact (futex_wait_then_wake 0x400000 0 user_frame waits_word 0 0 (runnable 1 0 0) r 1 _ _ eq_refl eq_refl eq_refl eq_refl E Hr Hw
    (surjective_pairing _)).
Defined.

(** The only thread of domain 0 waits for its children; its child is domain 1. *)
Definition parent : sys (V := zeros) (A := unit) := system false [runnable 1 0 0; runnable 2 (-1) 1; zero_thread] (Some 0%nat) None.

Lemma wait_for_group_lost_witness :
  let s := state_after (cell_wait4_options 0 0 0 user_frame parent) parent in
  exists t s', y_threads s !! 0%nat = Some t /\ blocked_on WAIT_CHILD t = true /\ cell_wake_parent_of 1 s = Some s' /\
    y_threads s' !! 0%nat = Some t.
Proof.
  intros s. destruct (left_by_spec (cell_wait4_options 0 0 0 user_frame parent)) as (r & E & Hr); [vm_compute; reflexivity|].
  destruct (wait_for_group_lost parent 0 0 (runnable 1 0 0) 0 user_frame r eq_refl eq_refl eq_refl eq_refl E Hr) as (t & Ht & Hb & Hlost).
  assert (Hs : state_of r = s) by (unfold s; rewrite E; reflexivity). rewrite Hs in Ht.
  destruct (cell_wake_parent_of 1 s) as [s'|] eqn:Ew; [|exfalso; vm_compute in Ew; discriminate Ew].
  exists t, s'. split; [exact Ht|]. split; [exact Hb|]. split; [reflexivity|].
  apply (Hlost s 1%nat s' Ht); [vm_compute; reflexivity..|exact Ew].
Defined.

(** Domain 1 exits while the thread of domain 0 waits for any child. *)
Definition exiting : sys (V := zeros) (A := unit) :=
  system true [thread_entry 1 (-1) 0 THREAD_BLOCKED WAIT_CHILD (-1) 0; runnable 2 0 1; zero_thread] (Some 1%nat) None.


(** Threads 0 and 1 of domain 0 run on both processors; a third address space is free. *)
Definition replaced : sys (V := zeros) (A := unit) :=
  set_y_k (system false [runnable 1 0 0; runnable 2 1 0; zero_thread] (Some 0%nat) (Some 1%nat))
    (mk_kst (empty_machine, []) (Some 0x100000)
      [mk_mm true 2 (mk_as 0x5000 0 0 0 0 1) vma_list_init; mk_mm true 1 (mk_as 0x6000 0 0 0 0 2) vma_list_init;
       mk_mm false 0 (mk_as 0 0 0 0 0 0) vma_list_init] (k_domains two_domains) (Some 0%nat)).

#[local] Notation exec_replaced :=
  (cell_exec_replace (Some (mk_as 0xb000 0 0 0 0 3)) (Some vma_list_init) 0x400000 0x8000 user_frame None [] replaced).

Lemma exec_replaced_first :
  match exec_replaced with Some (true, _, s) => state <$> y_threads s !! 0%nat | _ => None end = Some THREAD_RUNNABLE.
Proof. vm_compute. reflexivity. Qed.

Lemma exec_replaced_ok : exists f s', exec_replaced = Some (true, f, s') /\ state <$> y_threads s' !! 0%nat = Some THREAD_RUNNABLE.
Proof.
  pose proof exec_replaced_first as E. destruct exec_replaced as [[[[] f] s']|]; [|discriminate E..].
  exists f, s'. split; [reflexivity|exact E].
Qed.

Lemma exec_frees_running_thread_witness :
  exists f s', exec_replaced = Some (true, f, s') /\ smp_current_thread_slot 1 s' = Some 1%nat /\ (cell_alloc_thread 1 s').1 = Some 1%nat.
Proof.
  destruct exec_replaced_ok as (f & s' & E & E').
  destruct (exec_frees_running_thread replaced s' 0 1 1 0 (runnable 1 0 0) (runnable 2 1 0)
    (Some (mk_as 0xb000 0 0 0 0 3)) (Some vma_list_init) 0x400000 0x8000 user_frame f None []
    eq_refl eq_refl eq_refl eq_refl ltac:(discriminate) eq_refl eq_refl eq_refl E) as (_ & Hs & Ha).
  exists f, s'. split; [exact E|]. split; [exact Hs|]. apply Ha. intros k t Hk Ht Hu.
  assert (k = 0%nat) as -> by lia. rewrite Ht in E'. cbn in E'. rewrite Hu in E'. discriminate E'.
Defined.

End ProcessSpec.
