(* ===== verification/Files.v ===== *)
(** Open files, pipes and descriptors: the data of [struct open_file] and of the
    descriptor tables ([kernel/src/include/cell.h]) and of [struct pipe_obj]
    ([kernel/src/proc/pipe.c]).

    They are the tables [A] of the process code. A pointer to an open file or to
    a pipe is its index in its table. The fields of [struct open_file] for
    sockets, Unix addresses and [epoll], and the tables of the code that is not
    modelled, are a value of an arbitrary type [B]. *)

From Stdlib Require Import ZArith Lia.
From stdpp Require Import base numbers list option strings.
From S2P Require Import Prelude Mem Pmm Iface Vma Vmm Policy Memory Thread Domain.
Import Vma Pmm Vmm Memory Thread Domain.

#[local] Open Scope Z_scope.
#[local] Open Scope c_scope.

Module Files.

Definition MAX_FDS : nat := 64.
Definition MAX_OPEN_FILES : Z := 4096.
Definition CELL_INOTIFY_WATCH_CAP : nat := 16.

(** ** Pipes *)

Definition PIPE_CAP : Z := 65536.
Definition PIPE_PAGES : nat := 16.
Definition PIPE_COUNT : nat := 16.

Record pipe_obj := mk_pipe {
  p_used : bool;
  had_writer : bool;
  readers : Z;
  writers : Z;
  fifo_ino : Z;
  pages : list Z;
  head : Z;
  len : Z;
  read_offset : Z;
  write_offset : Z;
}.

Definition set_had_writer (r : pipe_obj) (v : bool) : pipe_obj :=
  mk_pipe (p_used r) v (readers r) (writers r) (fifo_ino r) (pages r) (head r) (len r) (read_offset r)
    (write_offset r).
Definition set_readers (r : pipe_obj) (v : Z) : pipe_obj :=
  mk_pipe (p_used r) (had_writer r) v (writers r) (fifo_ino r) (pages r) (head r) (len r) (read_offset r)
    (write_offset r).
Definition set_writers (r : pipe_obj) (v : Z) : pipe_obj :=
  mk_pipe (p_used r) (had_writer r) (readers r) v (fifo_ino r) (pages r) (head r) (len r) (read_offset r)
    (write_offset r).
Definition set_pages (r : pipe_obj) (v : list Z) : pipe_obj :=
  mk_pipe (p_used r) (had_writer r) (readers r) (writers r) (fifo_ino r) v (head r) (len r) (read_offset r)
    (write_offset r).
Definition set_head (r : pipe_obj) (v : Z) : pipe_obj :=
  mk_pipe (p_used r) (had_writer r) (readers r) (writers r) (fifo_ino r) (pages r) v (len r) (read_offset r)
    (write_offset r).
Definition set_len (r : pipe_obj) (v : Z) : pipe_obj :=
  mk_pipe (p_used r) (had_writer r) (readers r) (writers r) (fifo_ino r) (pages r) (head r) v
    (read_offset r) (write_offset r).
Definition set_read_offset (r : pipe_obj) (v : Z) : pipe_obj :=
  mk_pipe (p_used r) (had_writer r) (readers r) (writers r) (fifo_ino r) (pages r) (head r) (len r) v
    (write_offset r).
Definition set_write_offset (r : pipe_obj) (v : Z) : pipe_obj :=
  mk_pipe (p_used r) (had_writer r) (readers r) (writers r) (fifo_ino r) (pages r) (head r) (len r)
    (read_offset r) v.

Definition zero_pipe : pipe_obj := mk_pipe false false 0 0 0 (replicate PIPE_PAGES 0) 0 0 0 0.

(** ** Open files *)

Inductive open_file_type :=
| OPEN_NONE | OPEN_STDIN | OPEN_STDOUT | OPEN_RAMFS | OPEN_SOCKET | OPEN_PIPE | OPEN_UNIX_STREAM
| OPEN_UNIX_LISTENER | OPEN_EPOLL | OPEN_EVENTFD | OPEN_INOTIFY | OPEN_PTY.

#[export] Instance open_file_type_eq_dec : EqDecision open_file_type.
Proof. solve_decision. Defined.

Record inotify_watch := mk_watch { w_used : bool; wd : Z; w_mask : Z; w_path : string }.

Definition zero_watch : inotify_watch := mk_watch false 0 0 EmptyString.

Record open_file := mk_file {
  f_used : bool;
  f_refcount : Z;
  f_type : open_file_type;
  f_offset : Z;
  f_flags : Z;
  pipe_id : Z;
  pipe_write_end : bool;
  pty_id : Z;
  pty_master : bool;
  unix_connected : bool;
  unix_rx_pipe : Z;
  unix_tx_pipe : Z;
  f_path : string;
  f_node : vfs_node;
  eventfd_value : Z;
  eventfd_semaphore : bool;
  inotify_next_wd : Z;
  inotify_watches : list inotify_watch;
}.

Definition set_f_used (r : open_file) (v : bool) : open_file :=
  mk_file v (f_refcount r) (f_type r) (f_offset r) (f_flags r) (pipe_id r) (pipe_write_end r) (pty_id r)
    (pty_master r) (unix_connected r) (unix_rx_pipe r) (unix_tx_pipe r) (f_path r) (f_node r)
    (eventfd_value r) (eventfd_semaphore r) (inotify_next_wd r) (inotify_watches r).
Definition set_f_refcount (r : open_file) (v : Z) : open_file :=
  mk_file (f_used r) v (f_type r) (f_offset r) (f_flags r) (pipe_id r) (pipe_write_end r) (pty_id r)
    (pty_master r) (unix_connected r) (unix_rx_pipe r) (unix_tx_pipe r) (f_path r) (f_node r)
    (eventfd_value r) (eventfd_semaphore r) (inotify_next_wd r) (inotify_watches r).
Definition set_f_type (r : open_file) (v : open_file_type) : open_file :=
  mk_file (f_used r) (f_refcount r) v (f_offset r) (f_flags r) (pipe_id r) (pipe_write_end r) (pty_id r)
    (pty_master r) (unix_connected r) (unix_rx_pipe r) (unix_tx_pipe r) (f_path r) (f_node r)
    (eventfd_value r) (eventfd_semaphore r) (inotify_next_wd r) (inotify_watches r).
Definition set_f_offset (r : open_file) (v : Z) : open_file :=
  mk_file (f_used r) (f_refcount r) (f_type r) v (f_flags r) (pipe_id r) (pipe_write_end r) (pty_id r)
    (pty_master r) (unix_connected r) (unix_rx_pipe r) (unix_tx_pipe r) (f_path r) (f_node r)
    (eventfd_value r) (eventfd_semaphore r) (inotify_next_wd r) (inotify_watches r).
Definition set_f_flags (r : open_file) (v : Z) : open_file :=
  mk_file (f_used r) (f_refcount r) (f_type r) (f_offset r) v (pipe_id r) (pipe_write_end r) (pty_id r)
    (pty_master r) (unix_connected r) (unix_rx_pipe r) (unix_tx_pipe r) (f_path r) (f_node r)
    (eventfd_value r) (eventfd_semaphore r) (inotify_next_wd r) (inotify_watches r).
Definition set_pipe_id (r : open_file) (v : Z) : open_file :=
  mk_file (f_used r) (f_refcount r) (f_type r) (f_offset r) (f_flags r) v (pipe_write_end r) (pty_id r)
    (pty_master r) (unix_connected r) (unix_rx_pipe r) (unix_tx_pipe r) (f_path r) (f_node r)
    (eventfd_value r) (eventfd_semaphore r) (inotify_next_wd r) (inotify_watches r).
Definition set_pipe_write_end (r : open_file) (v : bool) : open_file :=
  mk_file (f_used r) (f_refcount r) (f_type r) (f_offset r) (f_flags r) (pipe_id r) v (pty_id r)
    (pty_master r) (unix_connected r) (unix_rx_pipe r) (unix_tx_pipe r) (f_path r) (f_node r)
    (eventfd_value r) (eventfd_semaphore r) (inotify_next_wd r) (inotify_watches r).
Definition set_f_path (r : open_file) (v : string) : open_file :=
  mk_file (f_used r) (f_refcount r) (f_type r) (f_offset r) (f_flags r) (pipe_id r) (pipe_write_end r)
    (pty_id r) (pty_master r) (unix_connected r) (unix_rx_pipe r) (unix_tx_pipe r) v (f_node r)
    (eventfd_value r) (eventfd_semaphore r) (inotify_next_wd r) (inotify_watches r).
Definition set_f_node (r : open_file) (v : vfs_node) : open_file :=
  mk_file (f_used r) (f_refcount r) (f_type r) (f_offset r) (f_flags r) (pipe_id r) (pipe_write_end r)
    (pty_id r) (pty_master r) (unix_connected r) (unix_rx_pipe r) (unix_tx_pipe r) (f_path r) v
    (eventfd_value r) (eventfd_semaphore r) (inotify_next_wd r) (inotify_watches r).
Definition set_eventfd_value (r : open_file) (v : Z) : open_file :=
  mk_file (f_used r) (f_refcount r) (f_type r) (f_offset r) (f_flags r) (pipe_id r) (pipe_write_end r)
    (pty_id r) (pty_master r) (unix_connected r) (unix_rx_pipe r) (unix_tx_pipe r) (f_path r) (f_node r) v
    (eventfd_semaphore r) (inotify_next_wd r) (inotify_watches r).
Definition set_eventfd_semaphore (r : open_file) (v : bool) : open_file :=
  mk_file (f_used r) (f_refcount r) (f_type r) (f_offset r) (f_flags r) (pipe_id r) (pipe_write_end r)
    (pty_id r) (pty_master r) (unix_connected r) (unix_rx_pipe r) (unix_tx_pipe r) (f_path r) (f_node r)
    (eventfd_value r) v (inotify_next_wd r) (inotify_watches r).
Definition set_inotify_next_wd (r : open_file) (v : Z) : open_file :=
  mk_file (f_used r) (f_refcount r) (f_type r) (f_offset r) (f_flags r) (pipe_id r) (pipe_write_end r)
    (pty_id r) (pty_master r) (unix_connected r) (unix_rx_pipe r) (unix_tx_pipe r) (f_path r) (f_node r)
    (eventfd_value r) (eventfd_semaphore r) v (inotify_watches r).
Definition set_inotify_watches (r : open_file) (v : list inotify_watch) : open_file :=
  mk_file (f_used r) (f_refcount r) (f_type r) (f_offset r) (f_flags r) (pipe_id r) (pipe_write_end r)
    (pty_id r) (pty_master r) (unix_connected r) (unix_rx_pipe r) (unix_tx_pipe r) (f_path r) (f_node r)
    (eventfd_value r) (eventfd_semaphore r) (inotify_next_wd r) v.

Definition zero_file : open_file :=
  mk_file false 0 OPEN_NONE 0 0 0 false 0 false false 0 0 EmptyString zero_node 0 false 0
    (replicate CELL_INOTIFY_WATCH_CAP zero_watch).

(** ** Tables *)

(** [fds] and [fd_flags] of a domain. *)
Record fd_table := mk_fds { fds : list (option nat); fd_flags : list Z }.

Definition zero_fds : fd_table := mk_fds (replicate MAX_FDS None) (replicate MAX_FDS 0).

Section Tables.
Context {B : Type}.

Record tables := mk_tables {
  pipes : list pipe_obj;
  pipe_waking : bool;
  file_table : option Z;
  open_files : list open_file;
  fd_tables : list fd_table;
  others : B;
}.

Definition set_pipes (r : tables) (v : list pipe_obj) : tables :=
  mk_tables v (pipe_waking r) (file_table r) (open_files r) (fd_tables r) (others r).
Definition set_pipe_waking (r : tables) (v : bool) : tables :=
  mk_tables (pipes r) v (file_table r) (open_files r) (fd_tables r) (others r).
Definition set_file_table (r : tables) (v : option Z) : tables :=
  mk_tables (pipes r) (pipe_waking r) v (open_files r) (fd_tables r) (others r).
Definition set_open_files (r : tables) (v : list open_file) : tables :=
  mk_tables (pipes r) (pipe_waking r) (file_table r) v (fd_tables r) (others r).
Definition set_fd_tables (r : tables) (v : list fd_table) : tables :=
  mk_tables (pipes r) (pipe_waking r) (file_table r) (open_files r) v (others r).
Definition set_others (r : tables) (v : B) : tables :=
  mk_tables (pipes r) (pipe_waking r) (file_table r) (open_files r) (fd_tables r) v.
End Tables.
#[global] Arguments tables : clear implicits.

#[export] Instance file_descriptors (B : Type) : Descriptors (tables B) := {|
  clear_fds d a := set_fd_tables a (<[d := zero_fds]> (fd_tables a));
  init_fds n a := set_fd_tables a (replicate n zero_fds);
|}.

Section Access.
Context {V : Type} `{FileStore V} {B : Type}.
#[local] Notation sys := (sys (V := V) (A := tables B)).

Definition on_tables (f : tables B -> tables B) (s : sys) : sys := set_y_rest s (f (y_rest s)).

Definition get_pipe (s : sys) (i : nat) : option pipe_obj := pipes (y_rest s) !! i.
Definition put_pipe (s : sys) (i : nat) (p : pipe_obj) : sys := on_tables (fun a => set_pipes a (<[i := p]> (pipes a))) s.

Definition get_file (s : sys) (i : nat) : option open_file := open_files (y_rest s) !! i.
Definition on_file (i : nat) (f : open_file -> open_file) (s : sys) : sys :=
  on_tables (fun a => set_open_files a (alter f i (open_files a))) s.

(** [domain->fds[fd]]. *)
Definition fd_file (d fd : nat) (s : sys) : option nat :=
  let* t := fd_tables (y_rest s) !! d in let* slot := fds t !! fd in slot.
Definition fd_flag (d fd : nat) (s : sys) : Z :=
  match fd_tables (y_rest s) !! d with Some t => nth fd (fd_flags t) 0 | None => 0 end.
Definition put_fd (d fd : nat) (f : option nat) (flags : Z) (s : sys) : sys :=
  on_tables (fun a => set_fd_tables a
    (alter (fun t => mk_fds (<[fd := f]> (fds t)) (<[fd := flags]> (fd_flags t))) d (fd_tables a))) s.
End Access.

End Files.
