(* ===== verification/Pipe.v ===== *)
(** Pipes ([kernel/src/proc/pipe.c]).

    A pipe is a ring of sixteen pages. Its data moves between kernel pages and
    user memory with the copy routines of [Vmm], after [Memory] made the range
    accessible. Polling ([kernel/src/proc/poll.c]), the rights attached to Unix
    sockets ([kernel/src/proc/socket.c]) and terminals ([kernel/src/proc/pty.c])
    are other components, given by [FileHost]. *)

From Stdlib Require Import ZArith Lia.
From stdpp Require Import base numbers list option strings.
From S2P Require Import Prelude Mem Pmm Iface Vma Vmm Policy Memory Thread Domain Reap Files.
Import Vma Pmm Vmm Memory Thread Domain Reap Files.

#[local] Open Scope Z_scope.
#[local] Open Scope c_scope.

(** What the code of pipes and descriptors calls in other components. [file] is
    the index of an open file; [clear_file] zeroes the fields of an open file
    that are kept in [B]. *)
Class FileHost (V B : Type) `{FileStore V} := {
  release_rights : Z -> sys (V := V) (A := tables B) -> sys (V := V) (A := tables B);
  wake_poll_waiters : sys (V := V) (A := tables B) -> sys (V := V) (A := tables B);
  socket_wake_file : nat -> sys (V := V) (A := tables B) -> sys (V := V) (A := tables B);
  socket_release_listener : nat -> sys (V := V) (A := tables B) -> sys (V := V) (A := tables B);
  socket_release_file : nat -> sys (V := V) (A := tables B) -> sys (V := V) (A := tables B);
  pty_release_file : nat -> sys (V := V) (A := tables B) -> sys (V := V) (A := tables B);
  clear_file : nat -> B -> B;
}.

Module Pipe.

Definition EAGAIN : Z := 11.
Definition EFAULT : Z := 14.
Definition EPIPE : Z := 32.
Definition PIPE_BUF : Z := 4096.

Section Pipe.
Context {V B : Type} `{FileHost V B}.
#[local] Notation sys := (sys (V := V) (A := tables B)).

(** ** The table of pipes *)

Definition pipe_for_id (n : Z) (s : sys) : option (nat * pipe_obj) :=
  if Z.of_nat PIPE_COUNT <=? n then None else
  let* p := get_pipe s (Z.to_nat n) in
  if p_used p then Some (Z.to_nat n, p) else None.

Definition pipe_for_file (file : option open_file) (s : sys) : option (nat * pipe_obj) :=
  let* f := file in
  if bool_decide (f_type f = OPEN_PIPE) then pipe_for_id (pipe_id f) s else None.

(** The loop frees and clears the pages in turn. *)
Fixpoint free_pages (l : list Z) (m : machine) : list Z * machine :=
  match l with
  | [] => ([], m)
  | pa :: l =>
      let m := if negb (pa =? 0) then free_page pa m else m in
      let '(l, m) := free_pages l m in (0 :: l, m)
  end.

Definition pipe_free_storage (p : pipe_obj) (m : machine) : pipe_obj * machine :=
  let '(l, m) := free_pages (pages p) m in (set_pages p l, m).

(** [n] pages remain to be allocated, for [pages[i]] and those behind it. *)
Fixpoint alloc_storage (p : pipe_obj) (i n : nat) (m : machine) : bool * pipe_obj * machine :=
  match n with
  | O => (true, p, m)
  | S n =>
      let '(pa, m) := alloc_zero_page m in
      let p := set_pages p (<[i := pa]> (pages p)) in
      if pa =? 0 then let '(p, m) := pipe_free_storage p m in (false, p, m)
      else alloc_storage p (S i) n m
  end.

Definition pipe_alloc_storage (p : pipe_obj) (m : machine) : bool * pipe_obj * machine :=
  alloc_storage p 0 PIPE_PAGES m.

Definition pipe_destroy (i : nat) (s : sys) : sys :=
  let s := release_rights (Z.of_nat i) s in
  match get_pipe s i with
  | None => s
  | Some p =>
      let '(_, m) := pipe_free_storage p (s_world s).1 in
      put_pipe (set_machine s m) i zero_pipe
  end.

(** The kernel address of a position of the ring. *)
Definition pipe_data_ptr (p : pipe_obj) (d : option nat) (pos : Z) (s : sys) : option Z :=
  if PIPE_CAP <=? pos then None else
  let* _ := d in
  let page := pos / PAGE_SIZE in
  let off := pos mod PAGE_SIZE in
  let* pa := pages p !! Z.to_nat page in
  if pa =? 0 then None else
  let* as_ := cell_domain_as d (y_k s) in
  Some (u64 (hhdm_offset as_ + pa + off)).

Definition pipe_is (q : pipe_obj -> bool) (s : sys) (i : nat) : bool :=
  match get_pipe s i with Some p => q p | None => false end.

Definition cell_alloc_pipe_obj (ino : Z) (s : sys) : Z * sys :=
  match first_from (pipe_is (fun p => negb (p_used p)) s) 0 PIPE_COUNT with
  | None => (-1, s)
  | Some i =>
      let '(ok, p, m) := pipe_alloc_storage zero_pipe (s_world s).1 in
      let s := set_machine s m in
      if negb ok then (-1, put_pipe s i p) else
      (Z.of_nat i, put_pipe s i (mk_pipe true (ino =? 0) 0 0 ino (pages p) 0 0 0 0))
  end.

Definition cell_pipe_free (n : Z) (s : sys) : sys :=
  if n <? Z.of_nat PIPE_COUNT then pipe_destroy (Z.to_nat n) s else s.

Fixpoint reset_from (i n : nat) (s : sys) : sys :=
  match n with O => s | S n => reset_from (S i) n (pipe_destroy i s) end.

Definition cell_pipe_reset (s : sys) : sys := reset_from 0 PIPE_COUNT s.

Definition cell_fifo_pipe_for_ino (ino : Z) (create : bool) (s : sys) : Z * sys :=
  if ino =? 0 then (-1, s) else
  match first_from (pipe_is (fun p => p_used p && (fifo_ino p =? ino)) s) 0 PIPE_COUNT with
  | Some i => (Z.of_nat i, s)
  | None => if create then cell_alloc_pipe_obj ino s else (-1, s)
  end.

(** ** Ends *)

Definition cell_pipe_has_readers (n : Z) (s : sys) : bool :=
  match pipe_for_id n s with Some (_, p) => negb (readers p =? 0) | None => false end.

Definition cell_pipe_add_reader (n : Z) (s : sys) : sys :=
  match pipe_for_id n s with
  | Some (i, p) => put_pipe s i (set_readers p (u16 (readers p + 1)))
  | None => s
  end.

Definition cell_pipe_add_writer (n : Z) (s : sys) : sys :=
  match pipe_for_id n s with
  | Some (i, p) => put_pipe s i (set_had_writer (set_writers p (u16 (writers p + 1))) true)
  | None => s
  end.

(** A pipe without ends is destroyed. *)
Definition settle (i : nat) (p : pipe_obj) (s : sys) : sys :=
  let s := put_pipe s i p in
  if (readers p =? 0) && (writers p =? 0) then pipe_destroy i s else s.

Definition dropped (n : Z) : Z := if 0 <? n then n - 1 else n.

Definition cell_pipe_drop_reader (n : Z) (s : sys) : sys :=
  match pipe_for_id n s with
  | Some (i, p) => settle i (set_readers p (dropped (readers p))) s
  | None => s
  end.

Definition cell_pipe_drop_writer (n : Z) (s : sys) : sys :=
  match pipe_for_id n s with
  | Some (i, p) => settle i (set_writers p (dropped (writers p))) s
  | None => s
  end.

Definition cell_pipe_release_file (file : option open_file) (s : sys) : bool * sys :=
  match file, pipe_for_file file s with
  | Some f, Some (i, p) =>
      (true, settle i (if pipe_write_end f then set_writers p (dropped (writers p))
                       else set_readers p (dropped (readers p))) s)
  | _, _ => (false, s)
  end.

(** ** Readiness *)

Definition cell_pipe_file_readable (file : option open_file) (s : sys) : bool :=
  match file, pipe_for_file file s with
  | Some f, Some (_, p) => negb (pipe_write_end f) && (negb (len p =? 0) || (writers p =? 0))
  | _, _ => false
  end.

Definition cell_pipe_file_writable (file : option open_file) (s : sys) : bool :=
  match file, pipe_for_file file s with
  | Some f, Some (_, p) => pipe_write_end f && negb (readers p =? 0) && (len p <? PIPE_CAP)
  | _, _ => false
  end.

Definition cell_pipe_file_hup (file : option open_file) (s : sys) : bool :=
  match file, pipe_for_file file s with
  | Some f, Some (_, p) => negb (pipe_write_end f) && (writers p =? 0)
  | _, _ => false
  end.

Definition cell_pipe_id_readable (n : Z) (s : sys) : bool :=
  match pipe_for_id n s with Some (_, p) => negb (len p =? 0) || (writers p =? 0) | None => false end.

Definition cell_pipe_id_writable (n : Z) (s : sys) : bool :=
  match pipe_for_id n s with Some (_, p) => negb (readers p =? 0) && (len p <? PIPE_CAP) | None => false end.

Definition cell_pipe_id_hup (n : Z) (s : sys) : bool :=
  match pipe_for_id n s with Some (_, p) => writers p =? 0 | None => false end.

Definition cell_pipe_id_read_offset (n : Z) (s : sys) : option Z :=
  let* (_, p) := pipe_for_id n s in Some (read_offset p).

Definition cell_pipe_id_write_offset (n : Z) (s : sys) : option Z :=
  let* (_, p) := pipe_for_id n s in Some (write_offset p).

(** ** Data

    The loops copy at most to the end of a page of the ring. [notify] is the call
    of [cell_pipe_notify] at the end of a transfer. *)

Definition ring_chunk (pos target done : Z) : Z :=
  let chunk := PIPE_CAP - pos in
  let page_room := PAGE_SIZE - pos mod PAGE_SIZE in
  let chunk := if page_room <? chunk then page_room else chunk in
  if target - done <? chunk then target - done else chunk.

Definition write_step (d : option nat) (i : nat) (buf target : Z) (st : Z * sys) : (Z * sys) + option (bool * sys) :=
  let '(done, s) := st in
  if done <? target then
    match get_pipe s i with
    | None => inr None
    | Some p =>
        let tail := (head p + len p) mod PIPE_CAP in
        let chunk := ring_chunk tail target done in
        match pipe_data_ptr p d tail s, cell_domain_as d (y_k s) with
        | Some dst, Some as_ =>
            match vmm_copy_from_user as_ dst (u64 (buf + done)) chunk (s_world s).1 with
            | None => inr None
            | Some (false, m) => inr (Some (false, set_machine s m))
            | Some (true, m) => inl (done + chunk, put_pipe (set_machine s m) i (set_len p (len p + chunk)))
            end
        | _, _ => inr (Some (false, s))
        end
    end
  else inr (Some (true, s)).

Definition read_step (d : option nat) (i : nat) (buf target : Z) (st : Z * sys) : (Z * sys) + option (bool * sys) :=
  let '(done, s) := st in
  if done <? target then
    match get_pipe s i with
    | None => inr None
    | Some p =>
        let chunk := ring_chunk (head p) target done in
        match pipe_data_ptr p d (head p) s, cell_domain_as d (y_k s) with
        | Some src, Some as_ =>
            match vmm_copy_to_user as_ (u64 (buf + done)) src chunk (s_world s).1 with
            | None => inr None
            | Some (false, m) => inr (Some (false, set_machine s m))
            | Some (true, m) =>
                inl (done + chunk, put_pipe (set_machine s m) i
                       (set_len (set_head p ((head p + chunk) mod PIPE_CAP)) (len p - chunk)))
            end
        | _, _ => inr (Some (false, s))
        end
    end
  else inr (Some (true, s)).

Section Transfer.
Variable notify : sys -> option sys.

Definition write_id (d : option nat) (n buf count : Z) (s : sys) : option (Z * sys) :=
  if count =? 0 then Some (0, s) else
  match pipe_for_id n s with
  | None => Some (-9, s)
  | Some (i, p) =>
      if readers p =? 0 then Some (- EPIPE, s) else
      let room := PIPE_CAP - len p in
      if (room =? 0) || ((count <=? PIPE_BUF) && (room <? count)) then Some (- EAGAIN, s) else
      let target := if count <? room then count else room in
      let* (ok, k) := cell_domain_ensure_user_range d buf target VMM_ACCESS_READ (k_now s) in
      let s := set_y_k s k in
      if negb ok then Some (- EFAULT, s) else
      let* r := iter (write_step d i buf target) (copy_fuel target) (0, s) in
      let* (ok, s) := r in
      if negb ok then Some (- EFAULT, s) else
      if negb (target =? 0) then
        let* p := get_pipe s i in
        let* s := notify (put_pipe s i (set_write_offset p (u64 (write_offset p + target)))) in
        Some (target, s)
      else Some (- EAGAIN, s)
  end.

Definition read_id (d : option nat) (n buf count : Z) (s : sys) : option (Z * sys) :=
  if count =? 0 then Some (0, s) else
  match pipe_for_id n s with
  | None => Some (-9, s)
  | Some (i, p) =>
      let target := if count <? len p then count else len p in
      let* (ok, k) := if negb (target =? 0)
                      then cell_domain_ensure_user_range d buf target VMM_ACCESS_WRITE (k_now s)
                      else Some (true, y_k s) in
      let s := set_y_k s k in
      if negb ok then Some (- EFAULT, s) else
      let* r := iter (read_step d i buf target) (copy_fuel target) (0, s) in
      let* (ok, s) := r in
      if negb ok then Some (- EFAULT, s) else
      let* p := get_pipe s i in
      if negb (target =? 0) then
        let* s := notify (put_pipe s i (set_read_offset p (u64 (read_offset p + target)))) in
        Some (target, s)
      else Some (if (writers p =? 0) && ((fifo_ino p =? 0) || had_writer p) then 0 else - EAGAIN, s)
  end.

Definition write_file (d : option nat) (file : option open_file) (buf count : Z) (s : sys) : option (Z * sys) :=
  match file with
  | Some f =>
      if negb (bool_decide (f_type f = OPEN_PIPE)) || negb (pipe_write_end f) then Some (-9, s)
      else write_id d (pipe_id f) buf count s
  | None => Some (-9, s)
  end.

Definition read_file (d : option nat) (file : option open_file) (buf count : Z) (s : sys) : option (Z * sys) :=
  match file with
  | Some f =>
      if negb (bool_decide (f_type f = OPEN_PIPE)) || pipe_write_end f then Some (-9, s)
      else read_id d (pipe_id f) buf count s
  | None => Some (-9, s)
  end.
End Transfer.

(** ** Waking *)

Definition clear_pipe_wait (t : thread) : thread :=
  set_pipe_write (set_sock (set_pipe_len (set_pipe_buf (set_wait_target t (-1)) 0) 0) no_socket_wait) false.

(** [cell_pipe_notify] while the waiters are being woken: [wake_pipe_waiters]
    returns at once because [pipe_waking] is set. A state without the flag is
    outside the model. *)
Definition nested_notify (s : sys) : option sys :=
  if pipe_waking (y_rest s) then Some (wake_poll_waiters s) else None.

(** The operation a waiting thread of domain [d] retries. *)
Definition retry (d : nat) (t : thread) (f : open_file) (s : sys) : option (Z * sys) :=
  if bool_decide (f_type f = OPEN_UNIX_STREAM) then
    (if pipe_write t then write_id nested_notify (Some d) (unix_tx_pipe f) (pipe_buf t) (pipe_len t) s
     else read_id nested_notify (Some d) (unix_rx_pipe f) (pipe_buf t) (pipe_len t) s)
  else
    (if pipe_write t then write_file nested_notify (Some d) (Some f) (pipe_buf t) (pipe_len t) s
     else read_file nested_notify (Some d) (Some f) (pipe_buf t) (pipe_len t) s).

Definition resume (i : nat) (rc : Z) (s : sys) : sys :=
  on_thread i (fun t => clear_pipe_wait (wake (set_result t (u64 rc)))) s.

Definition wake_one (i : nat) (s : sys) : option sys :=
  match y_threads s !! i with
  | None => Some s
  | Some t =>
      match t_domain t with
      | None => Some s
      | Some d =>
          if negb (blocked_on WAIT_PIPE t) then Some s else
          let fd := wait_target t in
          if (fd <? 0) || (Z.of_nat MAX_FDS <=? fd) then Some (resume i (-9) s) else
          match fd_file d (Z.to_nat fd) s with
          | None => Some (resume i (-9) s)
          | Some j =>
              let* f := get_file s j in
              let* (rc, s) := retry d t f s in
              if rc =? - EAGAIN then Some s else Some (resume i rc s)
          end
      end
  end.

Fixpoint wake_from (i n : nat) (s : sys) : option sys :=
  match n with
  | O => Some s
  | S n => let* s := wake_one i s in wake_from (S i) n s
  end.

Definition set_waking (b : bool) (s : sys) : sys := on_tables (fun a => set_pipe_waking a b) s.

Definition wake_pipe_waiters (s : sys) : option sys :=
  if pipe_waking (y_rest s) then Some s else
  let* s := wake_from 0 (thread_capacity s) (set_waking true s) in
  Some (set_waking false s).

Definition cell_pipe_notify (s : sys) : option sys :=
  let* s := wake_pipe_waiters s in Some (wake_poll_waiters s).

Definition cell_pipe_write_id_from_domain : option nat -> Z -> Z -> Z -> sys -> option (Z * sys) := write_id cell_pipe_notify.
Definition cell_pipe_read_id_to_domain : option nat -> Z -> Z -> Z -> sys -> option (Z * sys) := read_id cell_pipe_notify.
Definition cell_pipe_write_from_domain : option nat -> option open_file -> Z -> Z -> sys -> option (Z * sys) :=
  write_file cell_pipe_notify.
Definition cell_pipe_read_to_domain : option nat -> option open_file -> Z -> Z -> sys -> option (Z * sys) :=
  read_file cell_pipe_notify.
End Pipe.

End Pipe.
