(* ===== verification/Fd.v ===== *)
(** Descriptors ([kernel/src/proc/fd.c]): open files with their reference counts,
    the descriptor table of a domain, and the calls behind [pipe2], [dup],
    [eventfd], [inotify] and [close].

    [fd_host] gives the process code its interface [Host] from these definitions. *)

From Stdlib Require Import ZArith Lia Ascii String.
From stdpp Require Import base numbers list option strings.
From S2P Require Import Prelude Mem Pmm Iface Vma Vmm Policy Memory Thread Domain Reap Files Pipe.
Import Kstr Vma Pmm Vmm Memory Thread Domain Reap Files Pipe.

#[local] Open Scope Z_scope.
#[local] Open Scope c_scope.

(** The terminals a device node may open ([kernel/src/proc/pty.c]), and the size
    of a file as the file system knows it. *)
Class NodeHost (V B : Type) `{FileStore V} := {
  pty_open_master : Z -> option string -> sys (V := V) (A := tables B) -> Z * sys (V := V) (A := tables B);
  pty_id_from_path : option string -> Z;
  pty_open_slave : Z -> Z -> option string -> sys (V := V) (A := tables B) -> Z * sys (V := V) (A := tables B);
  vfs_refresh : vfs_node -> machine * V -> option vfs_node;
}.

Module Fd.

Definition CELL_O_ACCMODE : Z := 3.
Definition CELL_O_WRONLY : Z := 1.
Definition CELL_O_NONBLOCK : Z := 0x800.
Definition CELL_O_APPEND : Z := 0x400.
Definition CELL_O_CLOEXEC : Z := 0x80000.
Definition EFD_SEMAPHORE : Z := 1.
Definition IN_NONBLOCK : Z := 0x800.
Definition IN_CLOEXEC : Z := 0x80000.
Definition EINVAL : Z := 22.
Definition ENOSPC : Z := 28.
Definition ENXIO : Z := 6.
Definition CELL_S_IFMT : Z := 0xf000.
Definition CELL_S_IFIFO : Z := 0x1000.
Definition RAMFS_DEV_CONSOLE : Z := 6.
Definition RAMFS_DEV_TTY : Z := 7.
Definition RAMFS_DEV_PTMX : Z := 8.
Definition RAMFS_DEV_PTS : Z := 9.

(** [sizeof(struct open_file)]. *)
Definition sizeof_open_file : Z := 5704.

Section Fd.
Context {V B : Type} `{FileHost V B} `{LocalBuffer}.
#[local] Notation sys := (sys (V := V) (A := tables B)).

(** ** Open files *)

Definition open_file_capacity (s : sys) : nat := List.length (open_files (y_rest s)).

Definition zero_files (n : nat) (s : sys) : sys :=
  let s := on_tables (fun a => set_open_files a (replicate n zero_file)) s in
  on_tables (fun a => set_others a (fold_left (fun b i => clear_file i b) (seq 0 n) (others a))) s.

Definition cell_fd_table_reset (capacity hhdm_offset : Z) (s : sys) : bool * sys :=
  if (capacity =? 0) || (MAX_OPEN_FILES <? capacity) then (false, s) else
  if bool_decide (file_table (y_rest s) = None) || negb (Z.of_nat (open_file_capacity s) =? capacity) then
    let '(ptr, m) := alloc_table capacity sizeof_open_file hhdm_offset (s_world s).1 in
    let s := on_tables (fun a => set_file_table a ptr) (set_machine s m) in
    match ptr with None => (false, s) | Some _ => (true, zero_files (Z.to_nat capacity) s) end
  else (true, zero_files (open_file_capacity s) s).

Definition file_is (q : open_file -> bool) (s : sys) (i : nat) : bool :=
  match get_file s i with Some f => q f | None => false end.

Definition cell_alloc_open_file (s : sys) : option nat * sys :=
  match first_from (file_is (fun f => negb (f_used f)) s) 0 (open_file_capacity s) with
  | None => (None, s)
  | Some i =>
      let s := on_tables (fun a => set_others a (clear_file i (others a))) s in
      (Some i, on_file i (fun _ => set_f_refcount (set_f_used zero_file true) 1) s)
  end.

Definition cell_retain_open_file (file : option nat) (s : sys) : sys :=
  match file with Some i => on_file i (fun f => set_f_refcount f (u16 (f_refcount f + 1))) s | None => s end.

(** What the last reference gives back. *)
Definition release_kind (i : nat) (f : open_file) (s : sys) : option sys :=
  let '(was_pipe, s) := cell_pipe_release_file (Some f) s in
  if was_pipe then cell_pipe_notify s else
  match f_type f with
  | OPEN_UNIX_STREAM =>
      if unix_connected f then
        let s := cell_pipe_drop_writer (unix_tx_pipe f) (cell_pipe_drop_reader (unix_rx_pipe f) s) in
        let* s := cell_pipe_notify s in
        Some (socket_wake_file i s)
      else Some s
  | OPEN_UNIX_LISTENER => Some (socket_release_listener i s)
  | OPEN_SOCKET => Some (socket_release_file i s)
  | OPEN_PTY => Some (pty_release_file i s)
  | _ => Some s
  end.

Definition has_node (f : open_file) : bool := bool_decide (f_type f = OPEN_RAMFS) || bool_decide (f_type f = OPEN_PIPE).

Definition cell_release_open_file (file : option nat) (s : sys) : option sys :=
  match file with
  | None => Some s
  | Some i =>
      let* f := get_file s i in
      if f_refcount f =? 0 then Some s else
      let f := set_f_refcount f (f_refcount f - 1) in
      let s := on_file i (fun _ => f) s in
      if negb (f_refcount f =? 0) then Some s else
      let* s := release_kind i f s in
      let* f := get_file s i in
      let s := if has_node f then set_s_world s (fs_release_node (f_node f) (s_world s)) else s in
      Some (on_file i (fun f => set_f_used f false) s)
  end.

(** ** Tables of domains *)

Fixpoint close_from (d fd n : nat) (s : sys) : option sys :=
  match n with
  | O => Some s
  | S n => let* s := cell_release_open_file (fd_file d fd s) s in close_from d (S fd) n (put_fd d fd None 0 s)
  end.

Definition cell_close_all_fds (d : nat) (s : sys) : option sys := close_from d 0 MAX_FDS s.

(** The loop of [cell_exec_replace] over the descriptors with a flag. *)
Fixpoint close_flagged (d fd n : nat) (s : sys) : option sys :=
  match n with
  | O => Some s
  | S n =>
      if bool_decide (fd_file d fd s = None) || (fd_flag d fd s =? 0) then close_flagged d (S fd) n s else
      let* s := cell_release_open_file (fd_file d fd s) s in close_flagged d (S fd) n (put_fd d fd None 0 s)
  end.

Fixpoint copy_from (dst src fd n : nat) (s : sys) : sys :=
  match n with
  | O => s
  | S n =>
      let s := put_fd dst fd (fd_file src fd s) (fd_flag src fd s) s in
      copy_from dst src (S fd) n (cell_retain_open_file (fd_file dst fd s) s)
  end.

Definition cell_copy_fd_table (dst src : nat) (s : sys) : sys := copy_from dst src 0 MAX_FDS s.

(** [-1] when no descriptor from [start] on is free. *)
Definition cell_find_free_fd (d start : nat) (s : sys) : Z :=
  match first_from (fun fd => bool_decide (fd_file d fd s = None)) start (MAX_FDS - start) with
  | Some fd => Z.of_nat fd
  | None => -1
  end.

Definition cell_copy_open_path (path : option string) (f : open_file) : open_file :=
  match path with
  | None => f
  | Some p => set_f_path f (if (256 <=? String.length p)%nat then String.substring 0 255 p else p)
  end.

Definition cell_init_stdio (d : nat) (s : sys) : option (bool * sys) :=
  let '(in_, s) := cell_alloc_open_file s in
  let '(out, s) := cell_alloc_open_file s in
  let '(err, s) := cell_alloc_open_file s in
  match in_, out, err with
  | Some i, Some o, Some e =>
      let console ty := fun f => cell_copy_open_path (Some "/dev/console"%string) (set_f_type f ty) in
      let s := on_file e (console OPEN_STDOUT) (on_file o (console OPEN_STDOUT) (on_file i (console OPEN_STDIN) s)) in
      Some (true, put_fd d 2 (Some e) 0 (put_fd d 1 (Some o) 0 (put_fd d 0 (Some i) 0 s)))
  | _, _, _ =>
      let* s := cell_release_open_file in_ s in
      let* s := cell_release_open_file out s in
      let* s := cell_release_open_file err s in
      Some (false, s)
  end.

(** The file of a descriptor of the running domain; [None] for [-EBADF]. *)
Definition current_fd (fd : Z) (s : sys) : option (nat * nat) :=
  let* d := cell_current_domain_internal s in
  if (fd <? 0) || (Z.of_nat MAX_FDS <=? fd) then None else
  let* i := fd_file d (Z.to_nat fd) s in
  Some (d, i).

Definition cloexec_flag (flags : Z) : Z := if negb (flags .& CELL_O_CLOEXEC =? 0) then 1 else 0.

(** ** Events *)

Definition cell_eventfd_write_from_domain (d : nat) (i : nat) (buf len : Z) (s : sys) : option (Z * sys) :=
  if len <? 8 then Some (- EINVAL, s) else
  let* as_ := cell_domain_as (Some d) (y_k s) in
  let* (ok, add, s) := copy_value_in as_ buf 8 s in
  if negb ok then Some (- EFAULT, s) else
  let* f := get_file s i in
  if (add =? 2 ^ 64 - 1) || (2 ^ 64 - 1 - eventfd_value f <=? add) then Some (- EAGAIN, s) else
  Some (8, wake_poll_waiters (on_file i (fun f => set_eventfd_value f (eventfd_value f + add)) s)).

Definition cell_eventfd_read_to_domain (d : nat) (i : nat) (buf len : Z) (s : sys) : option (Z * sys) :=
  if len <? 8 then Some (- EINVAL, s) else
  let* f := get_file s i in
  if eventfd_value f =? 0 then Some (- EAGAIN, s) else
  let value := if eventfd_semaphore f then 1 else eventfd_value f in
  let s := on_file i (fun f => set_eventfd_value f (eventfd_value f - value)) s in
  let* as_ := cell_domain_as (Some d) (y_k s) in
  let* (ok, s) := copy_value_out as_ buf value 8 s in
  if negb ok then Some (- EFAULT, s) else
  Some (8, wake_poll_waiters s).

(** A new file in the first free descriptor of the running domain. *)
Definition install (flags : Z) (fill : open_file -> open_file) (s : sys) : Z * sys :=
  match cell_current_domain_internal s with
  | None => (-12, s)
  | Some d =>
      let fd := cell_find_free_fd d 0 s in
      if fd <? 0 then (-24, s) else
      let '(file, s) := cell_alloc_open_file s in
      match file with
      | None => (-12, s)
      | Some i => (fd, put_fd d (Z.to_nat fd) (Some i) (cloexec_flag flags) (on_file i fill s))
      end
  end.

Definition cell_fd_eventfd (initval flags : Z) (s : sys) : Z * sys :=
  if negb (Z.ldiff flags (CELL_O_CLOEXEC .| CELL_O_NONBLOCK .| EFD_SEMAPHORE) =? 0) then (- EINVAL, s) else
  install flags (fun f =>
    let f := set_f_flags (set_f_type f OPEN_EVENTFD) (u32 (Z.ldiff flags CELL_O_CLOEXEC)) in
    set_eventfd_semaphore (set_eventfd_value f initval) (negb (flags .& EFD_SEMAPHORE =? 0))) s.

Definition cell_fd_inotify_init1 (flags : Z) (s : sys) : Z * sys :=
  if negb (Z.ldiff flags (IN_CLOEXEC .| IN_NONBLOCK) =? 0) then (- EINVAL, s) else
  install flags (fun f =>
    set_inotify_next_wd (set_f_flags (set_f_type f OPEN_INOTIFY) (u32 (Z.ldiff flags IN_CLOEXEC))) 1) s.

(** The watch of a path, else the first free slot, in one pass. *)
Definition watch_at (f : open_file) (q : inotify_watch -> bool) : option nat :=
  first_from (fun k => match inotify_watches f !! k with Some w => q w | None => false end) 0 CELL_INOTIFY_WATCH_CAP.

Definition put_watch (k : nat) (w : inotify_watch) (f : open_file) : open_file :=
  set_inotify_watches f (<[k := w]> (inotify_watches f)).

Definition add_watch (path : string) (mask : Z) (f : open_file) : Z * open_file :=
  match watch_at f (fun w => w_used w && String.eqb (w_path w) path) with
  | Some k =>
      match inotify_watches f !! k with
      | Some w => (wd w, put_watch k (mk_watch true (wd w) mask (w_path w)) f)
      | None => (- ENOSPC, f)
      end
  | None =>
      match watch_at f (fun w => negb (w_used w)) with
      | None => (- ENOSPC, f)
      | Some k =>
          let n := inotify_next_wd f in
          let '(n, f) := if (n =? 0) || (2 ^ 31 - 1 <? n) then (1, set_inotify_next_wd f 2)
                         else (n, set_inotify_next_wd f (u32 (n + 1))) in
          let old := match inotify_watches f !! k with Some w => w_path w | None => EmptyString end in
          (n, put_watch k (mk_watch true n mask (copy_cstr old 256 (Some path))) f)
      end
  end.

Definition cell_fd_inotify_add_watch (fd : Z) (path : option string) (mask : Z) (s : sys) : Z * sys :=
  match path, (let* (_, i) := current_fd fd s in let* f := get_file s i in Some (i, f)) with
  | Some path, Some (i, f) =>
      if negb (bool_decide (f_type f = OPEN_INOTIFY)) then (-9, s) else
      if mask =? 0 then (- EINVAL, s) else
      let '(rc, f) := add_watch path mask f in (rc, on_file i (fun _ => f) s)
  | _, _ => (-9, s)
  end.

Definition cell_fd_inotify_rm_watch (fd n : Z) (s : sys) : Z * sys :=
  match (let* (_, i) := current_fd fd s in let* f := get_file s i in Some (i, f)) with
  | Some (i, f) =>
      if negb (bool_decide (f_type f = OPEN_INOTIFY)) then (-9, s) else
      if n <=? 0 then (- EINVAL, s) else
      match watch_at f (fun w => w_used w && (wd w =? n)) with
      | Some k => (0, on_file i (put_watch k zero_watch) s)
      | None => (- EINVAL, s)
      end
  | None => (-9, s)
  end.

(** ** Pipes and nodes *)

Definition pipe_end (flags n : Z) (write_end : bool) (f : open_file) : open_file :=
  set_pipe_write_end (set_pipe_id (set_f_flags (set_f_type f OPEN_PIPE) (u32 (Z.ldiff flags CELL_O_CLOEXEC))) n) write_end.

Definition cell_fd_pipe2 (pipefd_addr flags : Z) (s : sys) : option (Z * sys) :=
  if negb (Z.ldiff flags (CELL_O_CLOEXEC .| CELL_O_NONBLOCK) =? 0) then Some (- EINVAL, s) else
  match cell_current_domain_internal s with
  | None => Some (-12, s)
  | Some d =>
      let read_fd := cell_find_free_fd d 0 s in
      let write_fd := if read_fd <? 0 then -1 else cell_find_free_fd d (Z.to_nat (read_fd + 1)) s in
      if (read_fd <? 0) || (write_fd <? 0) then Some (-24, s) else
      let '(n, s) := cell_alloc_pipe_obj 0 s in
      if n <? 0 then Some (-23, s) else
      let '(read_file, s) := cell_alloc_open_file s in
      let '(write_file, s) := cell_alloc_open_file s in
      match read_file, write_file with
      | Some r, Some w =>
          let s := cell_pipe_add_writer n (cell_pipe_add_reader n s) in
          let s := on_file w (pipe_end flags n true) (on_file r (pipe_end flags n false) s) in
          let* as_ := cell_domain_as (Some d) (y_k s) in
          let* (ok, s) := copy_value_out as_ pipefd_addr (read_fd + 2 ^ 32 * write_fd) 8 s in
          if negb ok then
            let* s := cell_release_open_file (Some r) s in
            let* s := cell_release_open_file (Some w) s in
            Some (- EFAULT, s)
          else
            let c := cloexec_flag flags in
            Some (0, put_fd d (Z.to_nat write_fd) (Some w) c (put_fd d (Z.to_nat read_fd) (Some r) c s))
      | _, _ =>
          let* s := cell_release_open_file read_file s in
          let* s := cell_release_open_file write_file s in
          Some (-12, s)
      end
  end.

Section Nodes.
Context `{NodeHost V B}.

Definition retain_node_of (i : nat) (s : sys) : sys :=
  match get_file s i with Some f => set_s_world s (fs_retain_node (f_node f) (s_world s)) | None => s end.

(** The open of a named pipe. *)
Definition open_fifo (d : nat) (node : vfs_node) (flags : Z) (path : option string) (s : sys) : option (Z * sys) :=
  let '(n, s) := cell_fifo_pipe_for_ino (ino node) true s in
  if n <? 0 then Some (-23, s) else
  let write_end := flags .& CELL_O_ACCMODE =? CELL_O_WRONLY in
  if negb (flags .& CELL_O_NONBLOCK =? 0) && write_end && negb (cell_pipe_has_readers n s) then Some (- ENXIO, s) else
  let fd := cell_find_free_fd d 0 s in
  if fd <? 0 then Some (-24, s) else
  let '(file, s) := cell_alloc_open_file s in
  match file with
  | None => Some (-12, s)
  | Some i =>
      let s := on_file i (fun f => set_f_node (set_f_flags (set_f_type f OPEN_PIPE) (Z.ldiff flags CELL_O_CLOEXEC)) node) s in
      let s := retain_node_of i s in
      let s := on_file i (fun f => set_pipe_write_end (set_pipe_id (cell_copy_open_path path f) n) write_end) s in
      let s := if write_end then cell_pipe_add_writer n s else cell_pipe_add_reader n s in
      let s := put_fd d (Z.to_nat fd) (Some i) (cloexec_flag flags) s in
      let* s := cell_pipe_notify s in
      Some (fd, s)
  end.

Definition cell_fd_open_node (node : vfs_node) (flags : Z) (path : option string) (s : sys) : option (Z * sys) :=
  match cell_current_domain_internal s with
  | None => Some (-12, s)
  | Some d =>
      if device node =? RAMFS_DEV_PTMX then Some (pty_open_master flags path s) else
      if device node =? RAMFS_DEV_PTS then
        let n := pty_id_from_path path in
        if n <? 0 then Some (n, s) else Some (pty_open_slave n flags path s)
      else
      if mode node .& CELL_S_IFMT =? CELL_S_IFIFO then open_fifo d node flags path s else
      let fd := cell_find_free_fd d 0 s in
      if fd <? 0 then Some (-24, s) else
      let '(file, s) := cell_alloc_open_file s in
      match file with
      | None => Some (-12, s)
      | Some i =>
          let s := on_file i (fun f => set_f_node (set_f_flags (set_f_type f OPEN_RAMFS) (Z.ldiff flags CELL_O_CLOEXEC)) node) s in
          let s := retain_node_of i s in
          let s := on_file i (fun f =>
            let f := cell_copy_open_path path f in
            if negb (flags .& CELL_O_APPEND =? 0) then set_f_offset f (node_size node) else f) s in
          Some (fd, put_fd d (Z.to_nat fd) (Some i) (cloexec_flag flags) s)
      end
  end.

(** The cast of a [uint64_t] to [int64_t]. *)
Definition int64 (x : Z) : Z := if x <? 2 ^ 63 then x else x - 2 ^ 64.

(** [off] and the result are of type [int64_t]; an overflow of the signed sum is
    undefined in C and not modelled. *)
Definition cell_fd_lseek (fd off whence : Z) (s : sys) : option (Z * sys) :=
  match current_fd fd s with
  | None => Some (-9, s)
  | Some (_, i) =>
      let* f := get_file s i in
      let base := if whence =? 0 then Some 0
                  else if whence =? 1 then Some (int64 (f_offset f))
                  else if whence =? 2 then Some (match vfs_refresh (f_node f) (s_world s) with Some n => int64 (node_size n) | None => 0 end)
                  else None in
      match base with
      | None => Some (-22, s)
      | Some base =>
          if base + off <? 0 then Some (-22, s) else
          Some (base + off, on_file i (fun f => set_f_offset f (base + off)) s)
      end
  end.
End Nodes.

(** ** Copies and flags *)

Definition cell_fd_dup (oldfd minfd : Z) (s : sys) : Z * sys :=
  match current_fd oldfd s with
  | None => (-9, s)
  | Some (d, i) =>
      if (minfd <? 0) || (Z.of_nat MAX_FDS <=? minfd) then (-9, s) else
      let fd := cell_find_free_fd d (Z.to_nat minfd) s in
      if fd <? 0 then (-24, s) else
      (fd, cell_retain_open_file (Some i) (put_fd d (Z.to_nat fd) (Some i) 0 s))
  end.

Definition cell_fd_dup3 (oldfd newfd flags : Z) (s : sys) : option (Z * sys) :=
  if negb (Z.ldiff flags CELL_O_CLOEXEC =? 0) then Some (- EINVAL, s) else
  match current_fd oldfd s with
  | None => Some (-9, s)
  | Some (d, i) =>
      if (newfd <? 0) || (Z.of_nat MAX_FDS <=? newfd) then Some (-9, s) else
      if oldfd =? newfd then Some (- EINVAL, s) else
      let s := cell_retain_open_file (Some i) s in
      let* s := cell_release_open_file (fd_file d (Z.to_nat newfd) s) s in
      Some (newfd, put_fd d (Z.to_nat newfd) (Some i) (cloexec_flag flags) s)
  end.

Definition cell_fd_get_flags (fd : Z) (s : sys) : option Z :=
  match current_fd fd s with None => Some (-9) | Some (_, i) => let* f := get_file s i in Some (f_flags f) end.

Definition cell_fd_set_flags (fd flags : Z) (s : sys) : Z * sys :=
  match current_fd fd s with
  | None => (-9, s)
  | Some (_, i) =>
      let mutable := CELL_O_NONBLOCK .| CELL_O_APPEND in
      (0, on_file i (fun f => set_f_flags f (Z.ldiff (f_flags f) mutable .| (u32 flags .& mutable))) s)
  end.

Definition cell_fd_get_fd_flags (fd : Z) (s : sys) : Z :=
  match current_fd fd s with
  | None => -9
  | Some (d, _) => if negb (fd_flag d (Z.to_nat fd) s =? 0) then 1 else 0
  end.

Definition cell_fd_set_fd_flags (fd flags : Z) (s : sys) : Z * sys :=
  match current_fd fd s with
  | None => (-9, s)
  | Some (d, i) => (0, put_fd d (Z.to_nat fd) (Some i) (if negb (flags .& 1 =? 0) then 1 else 0) s)
  end.

Definition cell_fd_close (fd : Z) (s : sys) : option (Z * sys) :=
  match current_fd fd s with
  | None => Some (-9, s)
  | Some (d, i) => let* s := cell_release_open_file (Some i) s in Some (0, put_fd d (Z.to_nat fd) None 0 s)
  end.

Definition cell_fd_is_tty (fd : Z) (s : sys) : option Z :=
  match current_fd fd s with
  | None => Some (-9)
  | Some (_, i) =>
      let* f := get_file s i in
      Some (match f_type f with
            | OPEN_STDIN | OPEN_STDOUT | OPEN_PTY => 1
            | OPEN_RAMFS => if (device (f_node f) =? RAMFS_DEV_CONSOLE) || (device (f_node f) =? RAMFS_DEV_TTY) then 1 else 0
            | _ => 0
            end)
  end.

(** The path when it is set and fits in [cap] bytes. *)
Definition cell_fd_path (fd cap : Z) (s : sys) : option string :=
  let* (_, i) := current_fd fd s in
  let* f := get_file s i in
  if (cap =? 0) || (String.length (f_path f) =? 0)%nat || (cap <=? Z.of_nat (String.length (f_path f))) then None
  else Some (f_path f).

Definition cell_fd_rewind_one_dirent (fd : Z) (s : sys) : sys :=
  match current_fd fd s with
  | Some (_, i) => on_file i (fun f => if 0 <? f_offset f then set_f_offset f (f_offset f - 1) else f) s
  | None => s
  end.

Definition cell_fd_dir_offset (fd : Z) (s : sys) : option Z :=
  match current_fd fd s with None => Some 0 | Some (_, i) => let* f := get_file s i in Some (f_offset f) end.

Definition cell_fd_set_dir_offset (fd offset : Z) (s : sys) : sys :=
  match current_fd fd s with Some (_, i) => on_file i (fun f => set_f_offset f offset) s | None => s end.

#[export] Instance fd_host : Host V (tables B) := {|
  close_all_fds := cell_close_all_fds;
  copy_fd_table := cell_copy_fd_table;
  close_on_exec d s := close_flagged d 0 MAX_FDS s;
|}.
End Fd.

End Fd.
