(* ===== verification/PipeInv.v ===== *)
(** Transfers through pipes and the processors: a transfer moves data and wakes
    threads, and leaves descriptors, open files and the ends of pipes as they
    are. *)

From Stdlib Require Import ZArith Lia.
From stdpp Require Import base numbers list option.
From S2P Require Import Prelude Mem Pmm Iface Vma Vmm Policy Memory Thread Domain Reap Sched Futex Process SchedInv ReapInv Files Pipe.
Import Vma Pmm Vmm Memory Thread Domain Reap Files Pipe.

#[local] Open Scope Z_scope.
#[local] Open Scope c_scope.

(** What the other components do: they may wake threads; polling leaves the
    tables alone; [no_rights] says that no descriptor is in transit through a Unix
    socket, and then there is nothing to release. *)
Class FileLaws (V B : Type) `{FileHost V B} := {
  no_rights : B -> Prop;
  release_rights_quiet : forall n s, quiet s (release_rights n s);
  release_rights_none : forall n s, no_rights (others (y_rest s)) -> release_rights n s = s;
  wake_poll_quiet : forall s, quiet s (wake_poll_waiters s);
  wake_poll_tables : forall s, y_rest (wake_poll_waiters s) = set_others (y_rest s) (others (y_rest (wake_poll_waiters s)));
  wake_poll_rights : forall s, no_rights (others (y_rest s)) -> no_rights (others (y_rest (wake_poll_waiters s)));
  socket_wake_quiet : forall i s, quiet s (socket_wake_file i s);
  release_listener_quiet : forall i s, quiet s (socket_release_listener i s);
  release_socket_quiet : forall i s, quiet s (socket_release_file i s);
  release_pty_quiet : forall i s, quiet s (pty_release_file i s);
  clear_file_rights : forall i b, no_rights b -> no_rights (clear_file i b);
}.

Section Calm.
Context {V A : Type} `{FileStore V}.
#[local] Notation sys := (sys (V := V) (A := A)).

Definition calm (t t' : thread) : Prop :=
  running_cpu t' = running_cpu t /\ t_domain t' = t_domain t /\
  (state t' = state t \/ state t = THREAD_BLOCKED /\ state t' = THREAD_RUNNABLE).

Lemma calm_refl t : calm t t.
Proof. unfold calm. auto. Qed.

Lemma quiet_refl (s : sys) : quiet s s.
Proof. split; try done. apply Forall_Forall2_diag, Forall_forall. intros. apply calm_refl. Qed.

Lemma quiet_trans (s s1 s2 : sys) : quiet s s1 -> quiet s1 s2 -> quiet s s2.
Proof.
  intros [A1 A2 A3 A4] [B1 B2 B3 B4]. split; [congruence..|]. revert B4. generalize (y_threads s2).
  induction A4 as [|t t1 l l1 (R & D & S) _ IH]; intros l2 Hl; inversion Hl as [|? t2 ? l2' (R' & D' & S')]; subst; constructor.
  - split; [congruence|]. split; [congruence|].
    destruct S as [S|[Sb Sr]], S' as [S'|[Sb' Sr']]; try (left; congruence); right; split; congruence.
  - by apply IH.
Qed.

(** A change of other parts of the state. *)
Lemma quiet_frame (s s' : sys) :
  y_cpu s' = y_cpu s -> y_cpus s' = y_cpus s -> y_procs s' = y_procs s -> y_threads s' = y_threads s -> quiet s s'.
Proof. intros E1 E2 E3 E4. destruct (quiet_refl s) as [_ _ _ Q]. split; [done..|]. by rewrite E4. Qed.

Lemma quiet_on_thread i f (s : sys) :
  (forall t, y_threads s !! i = Some t -> calm t (f t)) -> quiet s (on_thread i f s).
Proof.
  intros Hf. split; try done. apply Forall2_same_length_lookup. split; [cbn; by rewrite length_alter|].
  intros j t t' Ht Ht'. cbn in Ht'. destruct (decide (i = j)) as [<-|Hne].
  - rewrite list_lookup_alter_eq, Ht in Ht'. simplify_eq/=. by apply Hf.
  - rewrite list_lookup_alter_ne in Ht' by done. simplify_eq. apply calm_refl.
Qed.
End Calm.

Section Smooth.
Context {V B : Type} `{HQ : FileLaws V B} `{LB : LocalBuffer}.
#[local] Notation sys := (sys (V := V) (A := tables B)).

Definition same_ends (p p' : pipe_obj) : Prop :=
  p_used p' = p_used p /\ readers p' = readers p /\ writers p' = writers p /\ pages p' = pages p.

(** What a transfer may do. *)
Record smooth (s s' : sys) : Prop := {
  sm_quiet : quiet s s';
  sm_files : open_files (y_rest s') = open_files (y_rest s);
  sm_fds : fd_tables (y_rest s') = fd_tables (y_rest s);
  sm_waking : pipe_waking (y_rest s') = pipe_waking (y_rest s);
  sm_pipes : Forall2 same_ends (pipes (y_rest s)) (pipes (y_rest s'));
  sm_rights : no_rights (others (y_rest s)) -> no_rights (others (y_rest s'));
}.

Lemma same_ends_refl p : same_ends p p.
Proof. unfold same_ends. auto. Qed.

Lemma smooth_pipes_refl l : Forall2 same_ends l l.
Proof. apply Forall_Forall2_diag, Forall_forall. intros. apply same_ends_refl. Qed.

Lemma smooth_pipes_trans l l1 l2 : Forall2 same_ends l l1 -> Forall2 same_ends l1 l2 -> Forall2 same_ends l l2.
Proof.
  intros R1. revert l2. induction R1 as [|p p1 l l1 (A1 & A2 & A3 & A4) _ IH]; intros l2 R2;
    inversion R2 as [|? p2 ? l2' (B1 & B2 & B3 & B4)]; subst; constructor; [|by apply IH]. split_and!; congruence.
Qed.

Lemma smooth_refl s : smooth s s.
Proof. split; try done; [apply quiet_refl|apply smooth_pipes_refl]. Qed.

Lemma smooth_trans s s1 s2 : smooth s s1 -> smooth s1 s2 -> smooth s s2.
Proof.
  intros [A1 A2 A3 A4 A5 A6] [B1 B2 B3 B4 B5 B6]. split; [by eapply quiet_trans|congruence..| |auto].
  by eapply smooth_pipes_trans.
Qed.

(** A change outside the tables that is quiet. *)
Lemma smooth_rest s s' : quiet s s' -> y_rest s' = y_rest s -> smooth s s'.
Proof. intros Hq E. split; rewrite ?E; auto. apply smooth_pipes_refl. Qed.

Lemma smooth_put_pipe s i p p' : get_pipe s i = Some p -> same_ends p p' -> smooth s (put_pipe s i p').
Proof.
  intros Hp He. split; try done; [by apply quiet_frame|]. cbn. apply Forall2_same_length_lookup. split; [by rewrite length_insert|].
  intros j q q' Hq Hq'. destruct (decide (i = j)) as [<-|Hne].
  - rewrite list_lookup_insert_eq in Hq' by (by eapply lookup_lt_Some). unfold get_pipe in Hp. by simplify_eq.
  - rewrite list_lookup_insert_ne in Hq' by done. simplify_eq. apply same_ends_refl.
Qed.

Lemma smooth_poll s : smooth s (wake_poll_waiters s).
Proof.
  pose proof (wake_poll_tables s) as E. split; [apply wake_poll_quiet|by rewrite E..|by rewrite E; apply smooth_pipes_refl|].
  apply wake_poll_rights.
Qed.

(** ** Transfers *)

Lemma loop_smooth (step : Z * sys -> (Z * sys) + option (bool * sys)) :
  (forall n s, match step (n, s) with
               | inl (_, s') => smooth s s'
               | inr (Some (_, s')) => smooth s s'
               | inr None => True
               end) ->
  forall fuel n s ok s', iter step fuel (n, s) = Some (Some (ok, s')) -> smooth s s'.
Proof.
  intros Hs. induction fuel as [|fuel IH]; intros n s ok s'; [done|]. cbn [iter]. specialize (Hs n s).
  destruct (step (n, s)) as [[n' s1]|[[ok' s1]|]]; [|intros [= <- <-]; done|done].
  intros Hi. eapply smooth_trans; [exact Hs|by eapply IH].
Qed.

Lemma smooth_machine s m : smooth s (set_machine s m).
Proof. apply smooth_rest; [by apply quiet_frame|done]. Qed.

Lemma write_loop_smooth d i buf target fuel s s' ok :
  iter (write_step d i buf target) fuel (0, s) = Some (Some (ok, s')) -> smooth s s'.
Proof.
  apply loop_smooth. clear -HQ. intros n s. cbn. destruct (_ <? _); [|apply smooth_refl]. destruct (get_pipe s i) as [p|] eqn:Hp; [|done].
  destruct (pipe_data_ptr _ _ _ s) as [a|], (cell_domain_as d (y_k s)) as [b|]; try apply smooth_refl.
  destruct (vmm_copy_from_user _ _ _ _ _) as [[[] m]|]; [|apply smooth_machine|done].
  eapply smooth_trans; [apply (smooth_machine s m)|]. by apply (smooth_put_pipe _ i p).
Qed.

Lemma read_loop_smooth d i buf target fuel s s' ok :
  iter (read_step d i buf target) fuel (0, s) = Some (Some (ok, s')) -> smooth s s'.
Proof.
  apply loop_smooth. clear -HQ. intros n s. cbn. destruct (_ <? _); [|apply smooth_refl]. destruct (get_pipe s i) as [p|] eqn:Hp; [|done].
  destruct (pipe_data_ptr _ _ _ s) as [a|], (cell_domain_as d (y_k s)) as [b|]; try apply smooth_refl.
  destruct (vmm_copy_to_user _ _ _ _ _) as [[[] m]|]; [|apply smooth_machine|done].
  eapply smooth_trans; [apply (smooth_machine s m)|]. by apply (smooth_put_pipe _ i p).
Qed.

Lemma smooth_set_k s k : smooth s (set_y_k s k).
Proof. apply smooth_rest; [by apply quiet_frame|done]. Qed.

Section Transfer.
Context (notify : sys -> option sys) (Hn : forall s s', notify s = Some s' -> smooth s s').

Lemma write_id_smooth d n buf count s s' rc : write_id notify d n buf count s = Some (rc, s') -> smooth s s'.
Proof.
  unfold write_id. destruct (count =? 0); [intros [= <- <-]; apply smooth_refl|].
  destruct (pipe_for_id n s) as [[i p]|]; [|intros [= <- <-]; apply smooth_refl].
  destruct (readers p =? 0); [intros [= <- <-]; apply smooth_refl|]. destruct (_ || _); [intros [= <- <-]; apply smooth_refl|].
  cbv zeta. unfold obind. destruct (cell_domain_ensure_user_range _ _ _ _ _) as [[[] k]|]; cbn [negb]; [|intros [= <- <-]; apply smooth_set_k|done].
  destruct (iter _ _ _) as [[[ok s1]|]|] eqn:E; [|done|done]. apply write_loop_smooth in E.
  pose proof (smooth_trans _ _ _ (smooth_set_k s k) E) as M. destruct ok; cbn [negb]; [|by intros [= <- <-]].
  destruct (negb _); [|by intros [= <- <-]]. destruct (get_pipe s1 i) as [p1|] eqn:Hp; [|done].
  destruct (notify _) as [s2|] eqn:E2; [|done]. intros [= <- <-]. eapply smooth_trans; [exact M|].
  eapply smooth_trans; [|by eapply Hn]. by apply (smooth_put_pipe _ _ p1).
Qed.

Lemma read_id_smooth d n buf count s s' rc : read_id notify d n buf count s = Some (rc, s') -> smooth s s'.
Proof.
  unfold read_id. destruct (count =? 0); [intros [= <- <-]; apply smooth_refl|].
  destruct (pipe_for_id n s) as [[i p]|]; [|intros [= <- <-]; apply smooth_refl].
  cbv zeta. unfold obind. destruct (if negb _ then _ else _) as [[[] k]|]; cbn [negb]; [|intros [= <- <-]; apply smooth_set_k|done].
  destruct (iter _ _ _) as [[[ok s1]|]|] eqn:E; [|done|done]. apply read_loop_smooth in E.
  pose proof (smooth_trans _ _ _ (smooth_set_k s k) E) as M. destruct ok; cbn [negb]; [|by intros [= <- <-]].
  destruct (get_pipe s1 i) as [p1|] eqn:Hp; [|done]. destruct (negb _); [|by intros [= <- <-]].
  destruct (notify _) as [s2|] eqn:E2; [|done]. intros [= <- <-]. eapply smooth_trans; [exact M|].
  eapply smooth_trans; [|by eapply Hn]. by apply (smooth_put_pipe _ _ p1).
Qed.

Lemma write_file_smooth d f buf count s s' rc : write_file notify d f buf count s = Some (rc, s') -> smooth s s'.
Proof.
  unfold write_file. destruct f as [f|]; [|intros [= <- <-]; apply smooth_refl].
  destruct (_ || _); [intros [= <- <-]; apply smooth_refl|apply write_id_smooth].
Qed.

Lemma read_file_smooth d f buf count s s' rc : read_file notify d f buf count s = Some (rc, s') -> smooth s s'.
Proof.
  unfold read_file. destruct f as [f|]; [|intros [= <- <-]; apply smooth_refl].
  destruct (_ || _); [intros [= <- <-]; apply smooth_refl|apply read_id_smooth].
Qed.
End Transfer.

(** ** Waking *)

Lemma nested_smooth s s' : nested_notify s = Some s' -> smooth s s'.
Proof. unfold nested_notify. destruct (pipe_waking _); [|done]. intros [= <-]. apply smooth_poll. Qed.

Lemma resume_smooth i rc s t : y_threads s !! i = Some t -> state t = THREAD_BLOCKED -> smooth s (resume i rc s).
Proof.
  intros Ht Hb. apply smooth_rest; [|done]. apply quiet_on_thread. intros u Hu. simplify_eq. split; [done|]. split; [done|]. by right.
Qed.

Lemma wake_one_smooth i s s' : wake_one i s = Some s' -> smooth s s'.
Proof.
  unfold wake_one. destruct (y_threads s !! i) as [t|] eqn:Ht; [|intros [= <-]; apply smooth_refl].
  destruct (t_domain t) as [d|]; [|intros [= <-]; apply smooth_refl].
  destruct (blocked_on WAIT_PIPE t) eqn:Hb; cbn [negb]; [|intros [= <-]; apply smooth_refl]. apply blocked_state in Hb as [Hb _].
  cbv zeta. destruct (_ || _); [intros [= <-]; by eapply resume_smooth|].
  destruct (fd_file d _ s) as [j|]; [|intros [= <-]; by eapply resume_smooth]. unfold obind.
  destruct (get_file s j) as [f|]; [|done]. destruct (retry d t f s) as [[rc s1]|] eqn:E; [|done].
  assert (M : smooth s s1).
  { revert E. unfold retry. destruct (bool_decide _), (pipe_write t);
      [apply write_id_smooth|apply read_id_smooth|apply write_file_smooth|apply read_file_smooth]; apply nested_smooth. }
  destruct (rc =? - EAGAIN); intros [= <-]; [done|]. eapply smooth_trans; [exact M|].
  destruct (Forall2_lookup_l _ _ _ _ _ (q_threads _ _ (sm_quiet _ _ M)) Ht) as (t1 & Ht1 & _ & _ & Hs).
  destruct Hs as [Hs|[_ Hs]].
  - eapply resume_smooth; [exact Ht1|congruence].
  - apply smooth_rest; [|done]. apply quiet_on_thread. intros u Hu. simplify_eq. split; [done|]. split; [done|]. left. by rewrite Hs.
Qed.

Lemma wake_from_smooth i n s s' : wake_from i n s = Some s' -> smooth s s'.
Proof.
  revert i s. induction n as [|n IH]; intros i s; cbn [wake_from]; [intros [= <-]; apply smooth_refl|].
  unfold obind. destruct (wake_one i s) as [s1|] eqn:E; [|done]. intros Hw. eapply smooth_trans; [by eapply wake_one_smooth|by eapply IH].
Qed.

Lemma notify_smooth s s' : cell_pipe_notify s = Some s' -> smooth s s'.
Proof.
  unfold cell_pipe_notify, wake_pipe_waiters, obind. destruct (pipe_waking (y_rest s)) eqn:Hw.
  { intros [= <-]. apply smooth_poll. }
  destruct (wake_from _ _ _) as [s1|] eqn:E; [|done]. intros [= <-]. apply wake_from_smooth in E as [M1 M2 M3 M4 M5 M6].
  eapply smooth_trans; [|apply smooth_poll]. split; [|done|done|done|done|done].
  apply (quiet_trans _ (set_waking true s)); [by apply quiet_frame|]. eapply quiet_trans; [exact M1|by apply quiet_frame].
Qed.
End Smooth.
