(* ===== verification/PipeFifo.v ===== *)
(** The data of a pipe: the ring of pages in [struct pipe_obj] is a queue of bytes.
    The loops of [cell_pipe_write_id_from_domain] and [cell_pipe_read_id_to_domain]
    ([kernel/src/proc/pipe.c]) append to it and take from its front. *)

From Stdlib Require Import ZArith Lia.
From stdpp Require Import base numbers list option gmap fin_maps.
From S2P Require Import Prelude Mem Pmm PmmSpec Iface Vma VmaInv Vmm VmmInv VmmOps VmmCow VmmCopy Memory MemoryInv MemoryOps Thread Domain Reap Files Pipe.
Import Vma Pmm Vmm Memory MemoryOps Thread Domain Reap Files Pipe.

#[local] Open Scope Z_scope.
#[local] Open Scope c_scope.

Module PipeFifo.

(** ** The ring *)

(** The address of position [q] of the ring, and the byte [j] places behind its
    head. *)
Definition ring_addr (h : Z) (p : pipe_obj) (q : Z) : Z := h + nth (Z.to_nat (q / PAGE_SIZE)) (pages p) 0 + q mod PAGE_SIZE.

Definition ring_byte (w : machine) (p : pipe_obj) (j : Z) : Z :=
  m_mem w (ring_addr (hhdm w) p ((head p + j) mod PIPE_CAP)).

(** [f 0], ..., [f (n - 1)]. *)
Definition bytes_of (f : Z -> Z) (n : Z) : list Z := (fun j => f (Z.of_nat j)) <$> seq 0 (Z.to_nat n).

Definition contents (w : machine) (p : pipe_obj) : list Z := bytes_of (ring_byte w p) (len p).

(** The pages of the ring are pages of the kernel, each used once. *)
Record ring_ok (L : gmap (list Z) Z) (U : Z -> Z) (p : pipe_obj) : Prop := {
  ro_pages : length (pages p) = PIPE_PAGES;
  ro_held : Forall (fun pa => pa <> 0 /\ 0 < U pa /\ lcount L pa = 0) (pages p);
  ro_nodup : NoDup (pages p);
  ro_head : 0 <= head p < PIPE_CAP;
  ro_len : 0 <= len p <= PIPE_CAP;
}.

Lemma bytes_length f n : length (bytes_of f n) = Z.to_nat n.
Proof. unfold bytes_of. by rewrite length_fmap, length_seq. Qed.

Lemma bytes_lookup f n k : 0 <= k < n -> bytes_of f n !! Z.to_nat k = Some (f k).
Proof. intros Hk. unfold bytes_of. rewrite list_lookup_fmap, lookup_seq_lt by lia. cbn. by rewrite Z2Nat.id by lia. Qed.

Lemma contents_length w p : length (contents w p) = Z.to_nat (len p).
Proof. apply bytes_length. Qed.

Lemma contents_lookup w p k : 0 <= k < len p -> contents w p !! Z.to_nat k = Some (ring_byte w p k).
Proof. apply bytes_lookup. Qed.

(** Queues of bytes are equal when they agree at every place. *)
Lemma contents_eq w p (l : list Z) :
  0 <= len p -> Z.of_nat (length l) = len p -> (forall k, 0 <= k < len p -> l !! Z.to_nat k = Some (ring_byte w p k)) -> contents w p = l.
Proof.
  intros H0 Hl Hk. apply list_eq. intros i. destruct (decide (i < length l)%nat) as [Hi|Hi].
  - replace i with (Z.to_nat (Z.of_nat i)) by lia. rewrite contents_lookup, Hk by lia. done.
  - rewrite !lookup_ge_None_2; [done|lia|rewrite contents_length; lia].
Qed.

Section Ring.
Context (w : machine) (T L : gmap (list Z) Z) (U : Z -> Z) (p : pipe_obj).
Context (HI : VmmInv.Inv w T L U) (Hring : ring_ok L U p).

Lemma ring_page q : 0 <= q < PIPE_CAP ->
  exists pa, pages p !! Z.to_nat (q / PAGE_SIZE) = Some pa /\ nth (Z.to_nat (q / PAGE_SIZE)) (pages p) 0 = pa /\
    pa <> 0 /\ 0 < U pa /\ lcount L pa = 0 /\ 0 <= pa /\ pa mod PAGE_SIZE = 0 /\ hhdm w + pa + PAGE_SIZE <= 2 ^ 64.
Proof.
  intros Hq. assert (Hlt : (Z.to_nat (q / PAGE_SIZE) < length (pages p))%nat).
  { rewrite (ro_pages _ _ _ Hring). unfold PIPE_CAP, PIPE_PAGES, PAGE_SIZE in *. dmlia. }
  destruct (lookup_lt_is_Some_2 _ _ Hlt) as [pa Hpa]. exists pa.
  destruct (proj1 (Forall_lookup _ _) (ro_held _ _ _ Hring) _ _ Hpa) as (Hz & Hu & Hl).
  destruct (page_pos w T L U pa HI) as (P1 & P2 & P3); [rewrite (used_rc w T L U); (done || lia)|].
  split_and!; try done; [|lia]. by rewrite (nth_lookup_Some _ _ _ pa).
Qed.

Lemma ring_buffer q c : 0 <= q < PIPE_CAP -> 0 <= c -> q mod PAGE_SIZE + c <= PAGE_SIZE -> kernel_buffer w L U (ring_addr (hhdm w) p q) c.
Proof.
  intros Hq Hc Hle. destruct (ring_page q Hq) as (pa & _ & E & _ & Hu & Hl & H0 & Hm & Hend). unfold ring_addr. rewrite E.
  pose proof (Z.mod_pos_bound q PAGE_SIZE ltac:(done)). pose proof (m_direct w (inv_machine _ _ _ _ HI)) as Hd. split.
  - unfold Mem.range_ok. split; [lia|]. split; [lia|lia].
  - intros k Hk pa' j Hm' Hj Ex Hpa'. assert (pa' = pa) as ->; [|done].
    unfold PAGE_SIZE in *. assert (pa' / 4096 = pa / 4096) as Eq; [|dmlia].
    apply (f_equal (fun x => (x - hhdm w) / 4096)) in Ex. replace (hhdm w + pa + q mod 4096 + k - hhdm w) with (pa + (q mod 4096 + k)) in Ex by lia.
    replace (hhdm w + pa' + j - hhdm w) with (pa' + j) in Ex by lia. dmlia.
Qed.

Lemma ring_addr_inj q q' : 0 <= q < PIPE_CAP -> 0 <= q' < PIPE_CAP -> ring_addr (hhdm w) p q = ring_addr (hhdm w) p q' -> q = q'.
Proof.
  intros Hq Hq'. destruct (ring_page q Hq) as (pa & Hp & E & _ & _ & _ & _ & Hm & _). destruct (ring_page q' Hq') as (pa' & Hp' & E' & _ & _ & _ & _ & Hm' & _).
  unfold ring_addr. rewrite E, E'. intros Ea. assert (pa = pa' /\ q mod PAGE_SIZE = q' mod PAGE_SIZE) as [-> Hmod].
  { unfold PAGE_SIZE in *. pose proof (Z.mod_pos_bound q 4096 ltac:(lia)). pose proof (Z.mod_pos_bound q' 4096 ltac:(lia)). dmlia. }
  pose proof (proj1 (NoDup_alt _) (ro_nodup _ _ _ Hring) _ _ _ Hp Hp') as Hn. unfold PAGE_SIZE, PIPE_CAP in *. dmlia.
Qed.

(** Within a page of the ring addresses follow each other. *)
Lemma ring_addr_add q k : 0 <= k -> q mod PAGE_SIZE + k < PAGE_SIZE -> ring_addr (hhdm w) p (q + k) = ring_addr (hhdm w) p q + k.
Proof.
  intros Hk Hle. unfold ring_addr. assert ((q + k) / PAGE_SIZE = q / PAGE_SIZE /\ (q + k) mod PAGE_SIZE = q mod PAGE_SIZE + k) as [-> ->]; [|lia].
  unfold PAGE_SIZE in *. split; dmlia.
Qed.
End Ring.

Lemma ring_chunk_eq pos target done :
  0 <= pos < PIPE_CAP -> 0 <= done < target -> ring_chunk pos target done = Z.min (target - done) (PAGE_SIZE - pos mod PAGE_SIZE).
Proof.
  intros Hp Hd. unfold ring_chunk. assert (PAGE_SIZE - pos mod PAGE_SIZE <= PIPE_CAP - pos).
  { unfold PIPE_CAP, PAGE_SIZE in *. dmlia. }
  cbv zeta. repeat case_match; zbool; lia.
Qed.

Lemma cap_mod x : (x mod PIPE_CAP) mod PAGE_SIZE = x mod PAGE_SIZE.
Proof. unfold PIPE_CAP, PAGE_SIZE. dmlia. Qed.

(** The pipe when [n] bytes have been taken. *)
Definition taken (p : pipe_obj) (n : Z) : pipe_obj := set_len (set_head p ((head p + n) mod PIPE_CAP)) (len p - n).

(** ** Places behind the head *)

Section Places.
Context (w : machine) (T L : gmap (list Z) Z) (U : Z -> Z) (p : pipe_obj).
Context (HI : VmmInv.Inv w T L U) (Hring : ring_ok L U p).

Definition place (j : Z) : Z := ring_addr (hhdm w) p ((head p + j) mod PIPE_CAP).

Lemma place_add j k : 0 <= k -> (head p + j) mod PAGE_SIZE + k < PAGE_SIZE -> place (j + k) = place j + k.
Proof.
  intros Hk Hle. unfold place. rewrite <- (cap_mod (head p + j)) in Hle.
  rewrite <- (ring_addr_add w) by done. f_equal. unfold PIPE_CAP, PAGE_SIZE in *. dmlia.
Qed.

Lemma place_apart j j' : 0 <= j < j' -> j' < j + PIPE_CAP -> place j <> place j'.
Proof.
  intros Hj Hlt E. apply (ring_addr_inj w T L U p HI Hring) in E; [|apply Z.mod_pos_bound; done..]. unfold PIPE_CAP in *. dmlia.
Qed.

(** The places from [n] to [n + c] in one page do not hold the places before them. *)
Lemma places_outside n c j :
  (head p + n) mod PAGE_SIZE + c <= PAGE_SIZE -> 0 <= j < n -> n + c <= PIPE_CAP -> ~ (place n <= place j < place n + c).
Proof.
  intros Hc Hj Hn Hin. apply (place_apart j (n + (place j - place n))); [lia|lia|]. rewrite place_add by lia. lia.
Qed.

Lemma place_buffer j c : 0 <= c -> (head p + j) mod PAGE_SIZE + c <= PAGE_SIZE -> kernel_buffer w L U (place j) c.
Proof. intros Hc Hle. apply (ring_buffer w T L U p HI Hring); [apply Z.mod_pos_bound; done|done|by rewrite cap_mod]. Qed.
End Places.

(** ** Copies of a chunk *)

(** Writing a buffer of the kernel changes no byte that a process sees. *)
Lemma ubyte_kernel w T L U m lo n a va :
  VmmInv.Inv w T L U -> kernel_buffer w L U lo n -> (forall x, ~ (lo <= x < lo + n) -> m x = m_mem w x) ->
  ubyte (put_mem w m) L a va = ubyte w L a va.
Proof.
  intros HI [_ Hb] Hm. unfold ubyte, upa. destruct (L !! key a va) as [e|] eqn:He; [|done]. cbn. f_equal.
  change (hhdm (put_mem w m)) with (hhdm w). apply Hm. intros Hx. pose proof (lcount_pos _ _ _ He) as Hl.
  pose proof (inv_U _ _ _ _ HI (fr e)). destruct (page_pos w T L U (fr e) HI) as (P1 & P2 & _); [rewrite (used_rc w T L U); (done || lia)|].
  apply (kernel_byte_apart w L U (lo + (hhdm w + (fr e + va mod PAGE_SIZE) - lo)) (fr e) (va mod PAGE_SIZE));
    [apply Hb; lia|done|done|apply Z.mod_pos_bound; done|by right|lia].
Qed.

Lemma copy_in_chunk w T L U a as_ dst src n :
  VmmInv.Inv w T L U -> as_ok w T a as_ -> is_u64 src -> 0 < n < 2 ^ 64 -> src + n <= 2 ^ 64 -> kernel_buffer w L U dst n ->
  (forall k, 0 <= k < n -> allows L VMM_ACCESS_READ (key a (src + k))) ->
  exists m, vmm_copy_from_user as_ dst src n w = Some (true, put_mem w m) /\ VmmInv.Inv (put_mem w m) T L U /\
    (forall x, ~ (dst <= x < dst + n) -> m x = m_mem w x) /\ (forall k, 0 <= k < n -> ubyte w L a (src + k) = Some (m (dst + k))).
Proof.
  intros HI Has Hsrc Hn Hle Hbuf Hall. unfold vmm_copy_from_user. rewrite (proj2 (Z.eqb_neq n 0)) by lia.
  rewrite checked_add_spec, (proj2 (Z.leb_le (src + n) (2 ^ 64))) by (done || lia).
  destruct (accessible_spec w T L U a as_ src n VMM_ACCESS_READ HI Has Hsrc ltac:(lia)) as (b & -> & Hb).
  destruct b; cbn [obind negb]; [|by pose proof (proj2 Hb (or_intror (conj Hle Hall)))].
  destruct (copy_in_loop w T L U a as_ dst src n HI Has Hsrc ltac:(lia) Hle Hbuf Hall) as ([b w'] & -> & Hr & HI' & (m & Em) & Hout & Hin).
  cbn [fst snd] in *. subst. by exists m.
Qed.

(** A range that may be written needs no copy-on-write. *)
Lemma prepare_ready w T L U a as_ va n :
  VmmInv.Inv w T L U -> as_ok w T a as_ -> is_u64 va -> 0 < n -> va + n <= 2 ^ 64 ->
  (forall k, 0 <= k < n -> allows L VMM_ACCESS_WRITE (key a (va + k))) ->
  iter (prepare_step as_ (page_of (va + n - 1))) (pages_fuel (page_of va) (page_of (va + n - 1))) (page_of va, w) = Some (true, w).
Proof.
  intros HI Has Hva Hl Hle Hall. destruct (first_last va n Hva ltac:(lia) Hle) as (Hfl & Hal & H0 & Hf & Hlst). unfold is_u64 in Hva.
  destruct (iter_pages (prepare_step as_ (page_of (va + n - 1))) fst (fun st => st.2 = w) (fun r => r = (true, w))
    (page_of va) (page_of (va + n - 1)) (page_of va, w)) as (r & E & ->); [done| |done|lia|done|done].
  intros [q w1] Ew Hq Hm. cbn [fst snd] in *. subst w1. unfold prepare_step.
  assert (Hw : allows L VMM_ACCESS_WRITE (key a q)).
  { destruct (Z.lt_ge_cases q va) as [Hlt|Hge]; [specialize (Hall 0 ltac:(lia))|specialize (Hall (q - va))];
      [rewrite (key_page a q (va + 0)); [done|unfold PAGE_SIZE in *; dmlia]|].
    replace (va + (q - va)) with q in Hall by lia. apply Hall. unfold PAGE_SIZE in *. dmlia. }
  destruct (Z.eqb_spec (user_to_phys_checked as_ q VMM_ACCESS_WRITE w) 0) as [Hz|_].
  { by apply (to_phys_zero w T L U a as_) in Hz; [|done|done|lia]. }
  cbn [negb]. destruct (Z.eqb_spec q (page_of (va + n - 1))) as [|Hne]; [done|].
  rewrite u64_small by (unfold is_u64, PAGE_SIZE in *; dmlia). by split.
Qed.

Lemma copy_out_chunk w T L U a as_ dst src n :
  VmmInv.Inv w T L U -> as_ok w T a as_ -> is_u64 dst -> 0 < n < 2 ^ 64 -> dst + n <= 2 ^ 64 -> kernel_buffer w L U src n ->
  (forall k, 0 <= k < n -> allows L VMM_ACCESS_WRITE (key a (dst + k))) ->
  exists m, vmm_copy_to_user as_ dst src n w = Some (true, put_mem w m) /\ VmmInv.Inv (put_mem w m) T L U /\
    (forall k, 0 <= k < n -> (forall k', k < k' < n -> paddr w L a dst k' <> paddr w L a dst k) -> m (paddr w L a dst k) = m_mem w (src + k)) /\
    (forall x, (forall k, 0 <= k < n -> paddr w L a dst k <> x) -> m x = m_mem w x).
Proof.
  intros HI Has Hdst Hn Hle Hbuf Hall. unfold vmm_copy_to_user. rewrite (proj2 (Z.eqb_neq n 0)) by lia.
  rewrite checked_add_spec, (proj2 (Z.leb_le (dst + n) (2 ^ 64))) by (done || lia).
  replace (dst + (n - 1)) with (dst + n - 1) by lia.
  rewrite (prepare_ready w T L U a as_ dst n) by (done || lia). cbn [obind negb].
  apply (copy_out_loop w T L U a); [done|done|unfold is_u64 in Hdst; lia|lia|done|done|done].
Qed.

(** ** The loops *)

Section Loops.
Context {V B : Type} `{FileHost V B}.
#[local] Notation sys := (sys (V := V) (A := tables B)).

Lemma put_pipe_twice (s : sys) i m m' p q :
  put_pipe (set_machine (put_pipe (set_machine s m) i p) m') i q = put_pipe (set_machine s m') i q.
Proof. unfold put_pipe, on_tables, set_y_rest, set_machine. cbn. by rewrite list_insert_insert_eq. Qed.

Lemma put_pipe_same (s : sys) i p : get_pipe s i = Some p -> put_pipe (set_machine s (put_mem (s_world s).1 (m_mem (s_world s).1))) i p = s.
Proof.
  unfold get_pipe. intros Hp. destruct s as [k ? ? ? ? ? ? ? ? ? a]. destruct k as [[[? ? ?] v] ? ? ? ?], a. unfold put_pipe, on_tables, set_machine. cbn in *.
  by rewrite list_insert_id.
Qed.

Context (s : sys) (d i : nat) (p : pipe_obj) (T L : gmap (list Z) Z) (U : Z -> Z) (a : Z) (as_ : user_address_space).
#[local] Notation w := (s_world s).1.
Context (HI : VmmInv.Inv w T L U) (Has : as_ok w T a as_) (Hdom : cell_domain_as (Some d) (y_k s) = Some as_).
Context (Hp : get_pipe s i = Some p) (Hring : ring_ok L U p).

(** The state when memory and pipe have changed. *)
Definition moved_to (m : Mem.kmem) (q : pipe_obj) : sys := put_pipe (set_machine s (put_mem w m)) i q.

Lemma moved_pipe m q : get_pipe (moved_to m q) i = Some q.
Proof. unfold moved_to, get_pipe. cbn. apply list_lookup_insert_eq. by eapply lookup_lt_Some. Qed.

(** The pointer to a position of the ring. *)
Lemma data_ptr m q pos :
  pages q = pages p -> 0 <= pos < PIPE_CAP -> pipe_data_ptr q (Some d) pos (moved_to m q) = Some (ring_addr (hhdm w) p pos).
Proof.
  intros Eq Hpos. destruct (ring_page w T L U p HI Hring pos Hpos) as (pa & Hpa & En & Hnz & _ & _ & Hpa0 & _ & Hle).
  unfold pipe_data_ptr. rewrite (proj2 (Z.leb_gt PIPE_CAP pos)) by lia. cbn [obind]. rewrite Eq, Hpa. cbn [obind].
  rewrite (proj2 (Z.eqb_neq pa 0) Hnz). change (cell_domain_as (Some d) (y_k (moved_to m _))) with (cell_domain_as (Some d) (y_k s)).
  rewrite Hdom. cbn [obind]. rewrite (proj1 Has). unfold ring_addr. rewrite En. f_equal. apply u64_small. unfold is_u64.
  pose proof (m_direct w (inv_machine _ _ _ _ HI)). pose proof (Z.mod_pos_bound pos PAGE_SIZE ltac:(done)). lia.
Qed.

(** One turn of the loop of a write, [n] bytes of which are done. *)
Lemma write_turn m n target buf :
  VmmInv.Inv (put_mem w m) T L U -> 0 <= n < target -> len p + target <= PIPE_CAP -> is_u64 buf -> buf + target <= 2 ^ 64 ->
  (forall k, 0 <= k < target -> allows L VMM_ACCESS_READ (key a (buf + k))) ->
  let c := Z.min (target - n) (PAGE_SIZE - (head p + (len p + n)) mod PAGE_SIZE) in
  let addr := place w p (len p + n) in
  exists m', write_step (Some d) i buf target (n, moved_to m (set_len p (len p + n))) = inl (n + c, moved_to m' (set_len p (len p + (n + c)))) /\
    VmmInv.Inv (put_mem w m') T L U /\ (forall x, ~ (addr <= x < addr + c) -> m' x = m x) /\
    (forall k, 0 <= k < c -> ubyte (put_mem w m) L a (buf + n + k) = Some (m' (addr + k))).
Proof.
  intros HIm Hn Hroom Hbuf Hend Hall c addr. set (pos := (head p + (len p + n)) mod PIPE_CAP) in *.
  assert (Hpos : 0 <= pos < PIPE_CAP) by (apply Z.mod_pos_bound; done). pose proof (Z.mod_pos_bound (head p + (len p + n)) PAGE_SIZE ltac:(done)) as Hmod.
  assert (Hc : 0 < c /\ n + c <= target /\ (head p + (len p + n)) mod PAGE_SIZE + c <= PAGE_SIZE) by (unfold c; lia).
  assert (Hc64 : c < 2 ^ 64) by (unfold c, PAGE_SIZE in *; lia).
  unfold is_u64 in Hbuf. destruct (copy_in_chunk (put_mem w m) T L U a as_ addr (buf + n) c HIm Has) as (m' & E & HI' & Hout & Hin);
    [unfold is_u64; lia|lia|lia|apply (place_buffer (put_mem w m) T L U p); (done || lia)|intros k Hk; rewrite <- Z.add_assoc; apply Hall; lia|].
  exists m'. split; [|by split_and!]. unfold write_step. rewrite (proj2 (Z.ltb_lt n target)) by lia. rewrite moved_pipe. cbv zeta.
  cbn [head len set_len]. fold pos.
  rewrite ring_chunk_eq by lia. replace (pos mod PAGE_SIZE) with ((head p + (len p + n)) mod PAGE_SIZE) by (symmetry; apply cap_mod). fold c.
  rewrite (data_ptr m (set_len p (len p + n)) pos) by done. change (ring_addr (hhdm w) p pos) with addr. change (cell_domain_as (Some d) (y_k (moved_to m _))) with (cell_domain_as (Some d) (y_k s)). rewrite Hdom.
  change (s_world (moved_to m _)).1 with (put_mem w m). rewrite u64_small by (unfold is_u64; lia). rewrite E. unfold moved_to.
  rewrite put_pipe_twice. by rewrite Z.add_assoc.
Qed.

Lemma ring_write target buf :
  0 < target -> len p + target <= PIPE_CAP -> is_u64 buf -> buf + target <= 2 ^ 64 ->
  (forall k, 0 <= k < target -> allows L VMM_ACCESS_READ (key a (buf + k))) ->
  exists m, iter (write_step (Some d) i buf target) (copy_fuel target) (0, s) = Some (Some (true, moved_to m (set_len p (len p + target)))) /\
    VmmInv.Inv (put_mem w m) T L U /\ (forall va, ubyte (put_mem w m) L a va = ubyte w L a va) /\
    (forall j, 0 <= j < len p -> m (place w p j) = m_mem w (place w p j)) /\
    (forall k, 0 <= k < target -> ubyte w L a (buf + k) = Some (m (place w p (len p + k)))).
Proof.
  intros Ht Hroom Hbuf Hend Hall. pose proof (ro_len _ _ _ Hring) as Hlen.
  set (good := fun n m => VmmInv.Inv (put_mem w m) T L U /\ (forall va, ubyte (put_mem w m) L a va = ubyte w L a va) /\
    (forall j, 0 <= j < len p -> m (place w p j) = m_mem w (place w p j)) /\
    (forall k, 0 <= k < n -> ubyte w L a (buf + k) = Some (m (place w p (len p + k))))).
  destruct (iter_chunked (write_step (Some d) i buf target)
    (fun n s' => exists m, s' = moved_to m (set_len p (len p + n)) /\ good n m)
    (fun r => exists m, r = Some (true, moved_to m (set_len p (len p + target))) /\ good target m)
    PAGE_SIZE (head p + len p) target (copy_fuel target) s) as (r & E & m & -> & G1 & G2 & G3 & G4); [done|lia|unfold copy_fuel; lia| | | |by exists m].
  - intros n s' Hn (m & -> & G1 & G2 & G3 & G4). rewrite <- Z.add_assoc.
    destruct (write_turn m n target buf G1 Hn Hroom Hbuf Hend Hall) as (m' & -> & HI' & Hout & Hin). set (c := Z.min _ _) in *. split; [done|].
    exists m'. split; [done|]. pose proof (Z.mod_pos_bound (head p + (len p + n)) PAGE_SIZE ltac:(done)).
    assert (Hc : 0 <= c /\ n + c <= target /\ (head p + (len p + n)) mod PAGE_SIZE + c <= PAGE_SIZE) by (unfold c; lia).
    assert (Hk : kernel_buffer (put_mem w m) L U (place w p (len p + n)) c) by (apply (place_buffer (put_mem w m) T L U p); (done || lia)).
    assert (Hold : forall j, 0 <= j < len p + n -> m' (place w p j) = m (place w p j)).
    { intros j Hj. apply Hout. apply (places_outside w T L U p HI Hring); lia. }
    split; [done|]. split.
    { intros va. rewrite <- G2. by apply (ubyte_kernel (put_mem w m) T L U m' (place w p (len p + n)) c). }
    split; [intros j Hj; rewrite Hold by lia; by apply G3|]. intros k Hk'. destruct (Z.lt_ge_cases k n) as [Hlt|Hge].
    + rewrite Hold by lia. apply G4. lia.
    + specialize (Hin (k - n) ltac:(lia)). rewrite G2 in Hin. replace (buf + n + (k - n)) with (buf + k) in Hin by lia. rewrite Hin.
      rewrite <- (place_add w p) by lia. do 3 f_equal. lia.
  - intros s' (m & -> & G). unfold write_step. rewrite Z.ltb_irrefl. eexists. split; [done|]. by exists m.
  - exists (m_mem w). assert (Ew : put_mem w (m_mem w) = w) by (by destruct (s_world s).1). split; [|unfold good; rewrite Ew; split_and!; try done].
    + unfold moved_to. replace (set_len p (len p + 0)) with p by (rewrite Z.add_0_r; by destruct p). by rewrite put_pipe_same.
    + intros k Hk. lia.
Qed.

Lemma paddr_shift m n buf k : paddr (put_mem w m) L a (buf + n) k = paddr w L a buf (n + k).
Proof. unfold paddr. change (hhdm (put_mem w m)) with (hhdm w). by rewrite Z.add_assoc. Qed.

(** One turn of the loop of a read. *)
Lemma read_turn m n target buf :
  VmmInv.Inv (put_mem w m) T L U -> 0 <= n < target -> target <= len p -> is_u64 buf -> buf + target <= 2 ^ 64 ->
  (forall k, 0 <= k < target -> allows L VMM_ACCESS_WRITE (key a (buf + k))) ->
  let c := Z.min (target - n) (PAGE_SIZE - (head p + n) mod PAGE_SIZE) in
  exists m', read_step (Some d) i buf target (n, moved_to m (taken p n)) = inl (n + c, moved_to m' (taken p (n + c))) /\
    VmmInv.Inv (put_mem w m') T L U /\
    (forall k, n <= k < n + c -> (forall k', k < k' < n + c -> paddr w L a buf k' <> paddr w L a buf k) ->
       m' (paddr w L a buf k) = m (place w p n + (k - n))) /\
    (forall x, (forall k, n <= k < n + c -> paddr w L a buf k <> x) -> m' x = m x).
Proof.
  intros HIm Hn Ht Hbuf Hend Hall c. set (pos := (head p + n) mod PIPE_CAP).
  assert (Hpos : 0 <= pos < PIPE_CAP) by (apply Z.mod_pos_bound; done). pose proof (Z.mod_pos_bound (head p + n) PAGE_SIZE ltac:(done)) as Hmod.
  assert (Hc : 0 < c /\ n + c <= target /\ (head p + n) mod PAGE_SIZE + c <= PAGE_SIZE) by (unfold c; lia).
  assert (Hc64 : c < 2 ^ 64) by (unfold c, PAGE_SIZE in *; lia). unfold is_u64 in Hbuf.
  destruct (copy_out_chunk (put_mem w m) T L U a as_ (buf + n) (place w p n) c HIm Has) as (m' & E & HI' & Hin & Hout);
    [unfold is_u64; lia|lia|lia|apply (place_buffer (put_mem w m) T L U p); (done || lia)|intros k Hk; rewrite <- Z.add_assoc; apply Hall; lia|].
  exists m'. split; [|split; [done|split]].
  - unfold read_step. rewrite (proj2 (Z.ltb_lt n target)) by lia. rewrite moved_pipe. cbv zeta. change (head (taken p n)) with pos.
    rewrite ring_chunk_eq by lia. replace (pos mod PAGE_SIZE) with ((head p + n) mod PAGE_SIZE) by (symmetry; apply cap_mod). fold c.
    rewrite (data_ptr m (taken p n) pos) by done. change (cell_domain_as (Some d) (y_k (moved_to m _))) with (cell_domain_as (Some d) (y_k s)).
    rewrite Hdom. change (s_world (moved_to m _)).1 with (put_mem w m). rewrite u64_small by (unfold is_u64; lia).
    change (ring_addr (hhdm w) p pos) with (place w p n). rewrite E. unfold moved_to. rewrite put_pipe_twice. unfold taken, set_len, set_head. cbn.
    unfold pos. by rewrite Zplus_mod_idemp_l, <- Z.add_assoc, Z.sub_add_distr.
  - intros k Hk Hno. specialize (Hin (k - n) ltac:(lia)). rewrite paddr_shift in Hin. replace (n + (k - n)) with k in Hin by lia. apply Hin.
    intros k' Hk'. rewrite paddr_shift. apply Hno. lia.
  - intros x Hx. apply Hout. intros k Hk. rewrite paddr_shift. apply Hx. lia.
Qed.

Lemma ring_read target buf :
  0 < target <= len p -> is_u64 buf -> buf + target <= 2 ^ 64 ->
  (forall k, 0 <= k < target -> allows L VMM_ACCESS_WRITE (key a (buf + k))) ->
  exists m, iter (read_step (Some d) i buf target) (copy_fuel target) (0, s) = Some (Some (true, moved_to m (taken p target))) /\
    VmmInv.Inv (put_mem w m) T L U /\ (forall j, 0 <= j < len p -> m (place w p j) = m_mem w (place w p j)) /\
    (forall k, 0 <= k < target -> (forall k', k < k' < target -> paddr w L a buf k' <> paddr w L a buf k) ->
       m (paddr w L a buf k) = m_mem w (place w p k)).
Proof.
  intros Ht Hbuf Hend Hall. pose proof (ro_len _ _ _ Hring) as Hlen.
  set (good := fun n m => VmmInv.Inv (put_mem w m) T L U /\ (forall j, 0 <= j < len p -> m (place w p j) = m_mem w (place w p j)) /\
    (forall k, 0 <= k < n -> (forall k', k < k' < n -> paddr w L a buf k' <> paddr w L a buf k) ->
       m (paddr w L a buf k) = m_mem w (place w p k))).
  destruct (iter_chunked (read_step (Some d) i buf target)
    (fun n s' => exists m, s' = moved_to m (taken p n) /\ good n m)
    (fun r => exists m, r = Some (true, moved_to m (taken p target)) /\ good target m)
    PAGE_SIZE (head p) target (copy_fuel target) s) as (r & E & m & -> & G1 & G2 & G3); [done|lia|unfold copy_fuel; lia| | | |by exists m].
  - intros n s' Hn (m & -> & G1 & G2 & G3).
    destruct (read_turn m n target buf G1 Hn ltac:(lia) Hbuf Hend Hall) as (m' & -> & HI' & Hin & Hout). set (c := Z.min _ _) in *. split; [done|].
    exists m'. split; [done|]. pose proof (Z.mod_pos_bound (head p + n) PAGE_SIZE ltac:(done)).
    assert (Hc : 0 <= c /\ n + c <= target /\ (head p + n) mod PAGE_SIZE + c <= PAGE_SIZE) by (unfold c; lia).
    split; [done|]. split.
    + intros j Hj. rewrite Hout; [by apply G2|]. intros k Hk. rewrite <- (Z.add_0_r (place w p j)).
      apply (paddr_not_kernel w T L U a buf target (place w p j) 1 k 0); [done|done|lia| |lia].
      apply (place_buffer w T L U p); [done|done|lia|]. pose proof (Z.mod_pos_bound (head p + j) PAGE_SIZE ltac:(done)). lia.
    + intros k Hk Hno. destruct (Z.lt_ge_cases k n) as [Hlt|Hge].
      * rewrite Hout; [apply G3; [lia|]; intros k' Hk'; apply Hno; lia|]. intros k' Hk'. apply Hno. lia.
      * rewrite Hin; [|lia|intros k' Hk'; apply Hno; lia]. rewrite <- (place_add w p) by lia. replace (n + (k - n)) with k by lia. apply G2. lia.
  - intros s' (m & -> & G). unfold read_step. rewrite Z.ltb_irrefl. eexists. split; [done|]. by exists m.
  - exists (m_mem w). assert (Ew : put_mem w (m_mem w) = w) by (by destruct (s_world s).1). split; [|unfold good; rewrite Ew; split_and!; try done].
    + unfold moved_to. replace (taken p 0) with p; [by rewrite put_pipe_same|]. unfold taken. rewrite Z.add_0_r, Z.sub_0_r, Z.mod_small by apply Hring. by destruct p.
    + intros k Hk. lia.
Qed.
End Loops.

(** ** Rings and the rest of the system *)

Lemma ring_ok_mono L U L' U' p :
  ring_ok L U p -> (forall pa, 0 < U pa -> lcount L pa = 0 -> 0 < U' pa /\ lcount L' pa = 0) -> ring_ok L' U' p.
Proof.
  intros [R1 R2 R3 R4 R5] Hm. split; try done. eapply Forall_impl; [exact R2|]. intros pa (Hz & Hu & Hl). split; [done|by apply Hm].
Qed.

Lemma ring_ok_moved L U p q :
  ring_ok L U p -> pages q = pages p -> 0 <= head q < PIPE_CAP -> 0 <= len q <= PIPE_CAP -> ring_ok L U q.
Proof. intros [R1 R2 R3 R4 R5] E Hh Hl. split; by rewrite ?E. Qed.

(** Other pages may change. *)
Lemma contents_same w w' T L U p :
  VmmInv.Inv w T L U -> ring_ok L U p -> hhdm w' = hhdm w -> Forall (same_page w w') (pages p) -> contents w' p = contents w p.
Proof.
  intros HI Hring Hh Hs. unfold contents, bytes_of. apply list_fmap_ext. intros k j _. unfold ring_byte. rewrite Hh. unfold ring_addr.
  destruct (ring_page w T L U p HI Hring ((head p + Z.of_nat j) mod PIPE_CAP)) as (pa & Hpa & -> & _); [apply Z.mod_pos_bound; done|].
  pose proof (proj1 (Forall_lookup _ _) Hs _ _ Hpa _ (Z.mod_pos_bound ((head p + Z.of_nat j) mod PIPE_CAP) PAGE_SIZE ltac:(done))) as E.
  unfold page_byte in E. by rewrite Hh in E.
Qed.

(** What is behind the old contents after a write, and in front of the new ones
    before a read. *)
Lemma contents_app w w' p q n (data : list Z) :
  hhdm w' = hhdm w -> pages q = pages p -> head q = head p -> len q = len p + n -> 0 <= len p -> 0 <= n -> Z.of_nat (length data) = n ->
  (forall j, 0 <= j < len p -> m_mem w' (place w p j) = m_mem w (place w p j)) ->
  (forall k, 0 <= k < n -> data !! Z.to_nat k = Some (m_mem w' (place w p (len p + k)))) ->
  contents w' q = contents w p ++ data.
Proof.
  intros Hh Ep Eh El Hl0 Hn0 Hd Hold Hnew.
  assert (Hb : forall j, ring_byte w' q j = m_mem w' (place w p j)) by (intros j; unfold ring_byte, place, ring_addr; by rewrite Hh, Ep, Eh).
  apply contents_eq; [lia|rewrite length_app, contents_length; lia|]. intros k Hk. rewrite Hb. destruct (Z.lt_ge_cases k (len p)) as [Hlt|Hge].
  - rewrite lookup_app_l by (rewrite contents_length; lia). rewrite contents_lookup by lia. rewrite Hold by lia. done.
  - rewrite lookup_app_r by (rewrite contents_length; lia). rewrite contents_length. replace (Z.to_nat k - Z.to_nat (len p))%nat with (Z.to_nat (k - len p)) by lia.
    rewrite Hnew by lia. do 3 f_equal. lia.
Qed.

Lemma contents_taken w w' p n :
  0 <= n <= len p -> hhdm w' = hhdm w -> (forall j, 0 <= j < len p -> m_mem w' (place w p j) = m_mem w (place w p j)) ->
  contents w' (taken p n) = drop (Z.to_nat n) (contents w p).
Proof.
  intros Hn Hh Hold. apply contents_eq; cbn [taken len set_len]; [lia|rewrite length_drop, contents_length; lia|]. intros k Hk.
  rewrite lookup_drop. replace (Z.to_nat n + Z.to_nat k)%nat with (Z.to_nat (n + k)) by lia. rewrite contents_lookup by lia.
  unfold ring_byte at 1. change (ring_addr (hhdm w) p ((head p + (n + k)) mod PIPE_CAP)) with (place w p (n + k)). rewrite <- Hold by lia.
  unfold ring_byte, place, taken, ring_addr. cbn. by rewrite Hh, Zplus_mod_idemp_l, Z.add_assoc.
Qed.

(** ** A new pipe *)

Section Alloc.
Context {V : Type} `{HL : StoreLaws V}.

Definition held_page (L : gmap (list Z) Z) (X : Z -> Z) (pa : Z) : Prop := pa <> 0 /\ 0 < X pa /\ lcount L pa = 0.

Lemma alloc_storage_good T L n : forall i p (w : machine * V) X q m',
  Good w T L X -> length (pages p) = (i + n)%nat -> Forall (held_page L X) (take i (pages p)) -> NoDup (take i (pages p)) ->
  alloc_storage p i n w.1 = (true, q, m') ->
  exists X', Good (m', w.2) T L X' /\ keep L X w.1 m' /\ length (pages q) = (i + n)%nat /\ Forall (held_page L X') (pages q) /\ NoDup (pages q).
Proof.
  induction n as [|n IH]; intros i p w X q m' HG Hl Hf Hn; cbn [alloc_storage].
  - intros [= <- <-]. exists X. rewrite take_ge in Hf, Hn by lia. destruct w. split; [done|]. split; [by split|]. split; [lia|done].
  - destruct (Vmm.alloc_zero_page w.1) as [pa m1] eqn:Ea. cbv zeta.
    destruct (good_alloc w T L X pa (m1, w.2) HG) as (_ & Hk & [[-> _]|(Hpa & HG1 & Hlc & HX & _)]); [by cbn; rewrite Ea| |].
    { cbn [Z.eqb]. by destruct (pipe_free_storage _ m1). }
    rewrite (proj2 (Z.eqb_neq pa 0) Hpa). intros Hs. assert (Hlt : (i < length (pages p))%nat) by lia.
    assert (Et : take (S i) (<[i := pa]> (pages p)) = take i (pages p) ++ [pa]).
    { rewrite (take_S_r _ _ pa) by (by apply list_lookup_insert_eq). by rewrite take_insert_ge. }
    destruct (IH (S i) (set_pages p (<[i := pa]> (pages p))) (m1, w.2) (fun x => X x + one pa x) q m' HG1) as (X' & HG' & Hk' & Hl' & Hf' & Hn').
    + cbn. rewrite length_insert. lia.
    + cbn [pages set_pages]. rewrite Et. apply Forall_app. split.
      * eapply Forall_impl; [exact Hf|]. intros x (H1 & H2 & H3). pose proof (one_range pa x). split; [done|]. split; [lia|done].
      * apply Forall_singleton. split; [done|]. rewrite one_eq. split; [lia|done].
    + cbn [pages set_pages]. rewrite Et. apply NoDup_app. split; [done|]. split; [|apply NoDup_singleton].
      intros x Hx ->%list_elem_of_singleton. rewrite Forall_forall in Hf. destruct (Hf pa Hx) as (_ & H2 & _). lia.
    + exact Hs.
    + exists X'. split; [exact HG'|]. split; [|by split_and!; [lia| |]].
      destruct Hk as [C1 K1], Hk' as [C2 K2]. split; [destruct C1, C2; split; congruence|]. intros x Hx j Hj. rewrite K2 by (pose proof (one_range pa x); lia || done). by apply K1.
Qed.
End Alloc.

End PipeFifo.
