(* ===== verification/FdInv.v ===== *)
(** The accounts of descriptors: the reference count of an open file is the number
    of descriptors that name it, and the counts of a pipe are the numbers of its
    open ends. [flight] is the difference while an operation is under way.

    The accounts cover files, pipes, events and watches: an open socket or
    terminal is released by code that is not modelled. *)

From Stdlib Require Import ZArith Lia.
From stdpp Require Import base numbers list option.
From S2P Require Import Prelude Mem Pmm Iface Vma Vmm Policy Memory Thread Domain Reap Sched Futex Process SchedInv ReapInv Files Pipe Fd PipeInv.
Import Vma Pmm Vmm Memory Thread Domain Reap Files Pipe Fd.

#[local] Open Scope Z_scope.
#[local] Open Scope c_scope.

(** ** Counting *)

Definition cnt {X} (q : X -> bool) (l : list X) : Z := Z.of_nat (length (List.filter q l)).

Section Count.
Context {X : Type} (q : X -> bool).

Lemma cnt_cons x l : cnt q (x :: l) = Z.b2z (q x) + cnt q l.
Proof. unfold cnt. cbn. destruct (q x); cbn; lia. Qed.

Lemma cnt_nonneg l : 0 <= cnt q l.
Proof. unfold cnt. lia. Qed.

Lemma cnt_le l : cnt q l <= Z.of_nat (length l).
Proof. induction l as [|x l IH]; [done|]. rewrite cnt_cons. cbn [length]. destruct (q x); cbn [Z.b2z]; lia. Qed.

Lemma cnt_insert l k x y : l !! k = Some x -> cnt q (<[k := y]> l) = cnt q l - Z.b2z (q x) + Z.b2z (q y).
Proof.
  revert k. induction l as [|z l IH]; intros [|k] Hk; simplify_eq/=; rewrite !cnt_cons; [lia|]. rewrite (IH _ Hk). lia.
Qed.

Lemma cnt_alter l k x f : l !! k = Some x -> cnt q (alter f k l) = cnt q l - Z.b2z (q x) + Z.b2z (q (f x)).
Proof.
  revert k. induction l as [|z l IH]; intros [|k] Hk; simplify_eq/=; rewrite !cnt_cons; [lia|].
  change (list_alter f k l) with (alter f k l). rewrite (IH _ Hk). lia.
Qed.

Lemma cnt_pos l k x : l !! k = Some x -> q x = true -> 0 < cnt q l.
Proof.
  revert k. induction l as [|z l IH]; intros [|k] Hk Hq; simplify_eq/=; rewrite cnt_cons.
  - rewrite Hq. pose proof (cnt_nonneg l). cbn. lia.
  - specialize (IH _ Hk Hq). destruct (q z); cbn; lia.
Qed.

Lemma cnt_zero l k x : cnt q l = 0 -> l !! k = Some x -> q x = false.
Proof. intros Hc Hk. destruct (q x) eqn:Hq; [|done]. pose proof (cnt_pos _ _ _ Hk Hq). lia. Qed.

Lemma cnt_none l : (forall k x, l !! k = Some x -> q x = false) -> cnt q l = 0.
Proof.
  induction l as [|x l IH]; intros Hl; [done|]. rewrite cnt_cons, (Hl 0%nat x eq_refl), IH; [done|]. intros k y Hk. by apply (Hl (S k)).
Qed.
End Count.

Lemma alter_outside {X} (f : X -> X) (l : list X) (i : nat) : l !! i = None -> alter f i l = l.
Proof.
  intros Hi. apply list_eq. intros j. destruct (decide (i = j)) as [<-|Hne].
  - by rewrite list_lookup_alter_eq, Hi.
  - by rewrite list_lookup_alter_ne.
Qed.

(** ** References from descriptors *)

Definition names (i : nat) (slot : option nat) : bool := bool_decide (slot = Some i).

Fixpoint refs (i : nat) (l : list fd_table) : Z :=
  match l with [] => 0 | t :: l => cnt (names i) (fds t) + refs i l end.

Lemma refs_nonneg i l : 0 <= refs i l.
Proof. induction l as [|t l IH]; cbn [refs]; [lia|]. pose proof (cnt_nonneg (names i) (fds t)). lia. Qed.

Lemma refs_le i l : Forall (fun t => length (fds t) = MAX_FDS) l -> refs i l <= 64 * Z.of_nat (length l).
Proof.
  induction 1 as [|t l Ht _ IH]; cbn [refs length]; [lia|]. pose proof (cnt_le (names i) (fds t)). unfold MAX_FDS in Ht. lia.
Qed.

Lemma refs_alter i l d t f :
  l !! d = Some t -> refs i (alter f d l) = refs i l - cnt (names i) (fds t) + cnt (names i) (fds (f t)).
Proof.
  revert d. induction l as [|u l IH]; intros [|d] Hd; simplify_eq/=; [lia|].
  change (list_alter f d l) with (alter f d l). rewrite (IH _ Hd). lia.
Qed.

Lemma refs_insert i l d t u :
  l !! d = Some t -> refs i (<[d := u]> l) = refs i l - cnt (names i) (fds t) + cnt (names i) (fds u).
Proof.
  revert d. induction l as [|v l IH]; intros [|d] Hd; simplify_eq/=; [lia|].
  change (list_insert d u l) with (<[d := u]> l). rewrite (IH _ Hd). lia.
Qed.

Lemma refs_pos i l d t fd : l !! d = Some t -> fds t !! fd = Some (Some i) -> 0 < refs i l.
Proof.
  revert d. induction l as [|u l IH]; intros [|d] Hd Hf; simplify_eq/=.
  - pose proof (refs_nonneg i l). pose proof (cnt_pos (names i) _ _ _ Hf ltac:(by apply bool_decide_eq_true)). lia.
  - specialize (IH _ Hd Hf). pose proof (cnt_nonneg (names i) (fds u)). lia.
Qed.

(** ** Accounts *)

Definition plain (ty : open_file_type) : bool :=
  match ty with OPEN_SOCKET | OPEN_UNIX_STREAM | OPEN_UNIX_LISTENER | OPEN_PTY => false | _ => true end.

Definition has_end (write : bool) (n : nat) (f : open_file) : bool :=
  f_used f && bool_decide (f_type f = OPEN_PIPE) && (pipe_id f =? Z.of_nat n) && Bool.eqb (pipe_write_end f) write.

(** References taken and not yet in a descriptor, ends counted and not yet open,
    and a file whose last reference is being dropped. *)
Record flight := mk_flight { fl_refs : nat -> Z; fl_ends : bool -> nat -> Z; fl_gone : option nat }.

Definition still : flight := mk_flight (fun _ => 0) (fun _ _ => 0) None.

Definition one_at (i : option nat) (v : Z) : nat -> Z := fun k => if bool_decide (i = Some k) then v else 0.
Definition move_ref (i : option nat) (v : Z) (F : flight) : flight :=
  mk_flight (fun k => fl_refs F k + one_at i v k) (fl_ends F) (fl_gone F).
Definition move_end (w : bool) (n : nat) (v : Z) (F : flight) : flight :=
  mk_flight (fl_refs F) (fun w' k => fl_ends F w' k + (if Bool.eqb w w' && (k =? n)%nat then v else 0)) (fl_gone F).
Definition set_gone (g : option nat) (F : flight) : flight := mk_flight (fl_refs F) (fl_ends F) g.

Section Accounts.
Context {V B : Type} `{HQ : FileLaws V B}.
#[local] Notation sys := (sys (V := V) (A := tables B)).

Definition net (F : flight) (a : tables B) (i : nat) : Z := refs i (fd_tables a) + fl_refs F i.

Definition pipe_ends (w : bool) (p : pipe_obj) : Z := if w then writers p else readers p.

Definition file_ok (F : flight) (a : tables B) (i : nat) (f : open_file) : Prop :=
  if f_used f
  then f_refcount f = net F a i /\ 0 <= net F a i /\ (net F a i = 0 -> fl_gone F = Some i) /\ plain (f_type f) = true /\
       (f_type f = OPEN_PIPE -> fl_gone F <> Some i ->
        exists n p, pipe_id f = Z.of_nat n /\ pipes a !! n = Some p /\ p_used p = true)
  else net F a i = 0.

Record accounted (F : flight) (a : tables B) : Prop := {
  ac_files : forall i f, open_files a !! i = Some f -> file_ok F a i f;
  ac_outside : forall i, open_files a !! i = None -> net F a i = 0;
  ac_pipes : forall n p w, pipes a !! n = Some p -> p_used p = true ->
    pipe_ends w p = cnt (has_end w n) (open_files a) + fl_ends F w n;
  ac_tables : Forall (fun t => length (fds t) = MAX_FDS /\ length (fd_flags t) = MAX_FDS) (fd_tables a);
  ac_sizes : length (pipes a) = PIPE_COUNT /\ (length (fd_tables a) < 1024)%nat /\ (length (open_files a) <= 4096)%nat;
  ac_rights : no_rights (others a);
}.

Lemma refs_bound F a i : accounted F a -> 0 <= refs i (fd_tables a) <= 65472.
Proof.
  intros Ha. split; [apply refs_nonneg|]. destruct (ac_sizes _ _ Ha) as (_ & Hl & _).
  assert (Hf : Forall (fun t => length (fds t) = MAX_FDS) (fd_tables a)).
  { eapply Forall_impl; [|exact (ac_tables _ _ Ha)]. by intros t [? _]. }
  pose proof (refs_le i _ Hf). lia.
Qed.

(** ** Changes of the accounts *)

Lemma accounted_ext F F' a :
  (forall i, fl_refs F i = fl_refs F' i) -> (forall w n, fl_ends F w n = fl_ends F' w n) -> fl_gone F = fl_gone F' ->
  accounted F a -> accounted F' a.
Proof.
  intros E1 E2 E3 [A1 A2 A3 A4 A5 A6]. split; [| | |done..].
  - intros i f Hf. specialize (A1 i f Hf). unfold file_ok, net in *. rewrite <- E1, <- E3. done.
  - intros i Hi. specialize (A2 i Hi). unfold net in *. rewrite <- E1. done.
  - intros n p w Hp Hu. rewrite <- E2. by apply A3.
Qed.

(** A change of one descriptor. *)
Lemma refs_put_fd (s : sys) d fd t old new c i :
  fd_tables (y_rest s) !! d = Some t -> fds t !! fd = Some old ->
  refs i (fd_tables (y_rest (put_fd d fd new c s))) =
    refs i (fd_tables (y_rest s)) - Z.b2z (names i old) + Z.b2z (names i new).
Proof.
  intros Ht Ho. cbn. rewrite (refs_alter i _ d t) by done. cbn [fds]. rewrite (cnt_insert _ _ _ old) by done. lia.
Qed.

Lemma one_at_names o v i : one_at o v i = if names i o then v else 0.
Proof. done. Qed.

Lemma accounted_put_fd F (s : sys) d fd t old new c :
  accounted F (y_rest s) -> fd_tables (y_rest s) !! d = Some t -> fds t !! fd = Some old ->
  accounted (move_ref new (-1) (move_ref old 1 F)) (y_rest (put_fd d fd new c s)).
Proof.
  intros [A1 A2 A3 A4 A5 A6] Ht Ho. set (F' := move_ref _ _ _). set (s' := put_fd _ _ _ _ _).
  assert (Hn : forall i, net F' (y_rest s') i = net F (y_rest s) i).
  { intros i. unfold net, s'. rewrite (refs_put_fd s d fd t old new c i) by done. unfold F', move_ref. cbn.
    rewrite !one_at_names. destruct (names i old), (names i new); cbn [Z.b2z]; lia. }
  split.
  - intros i f Hf. specialize (A1 i f Hf). unfold file_ok in *. by rewrite Hn.
  - intros i Hi. rewrite Hn. by apply A2.
  - exact A3.
  - cbn. apply Forall_alter; [done|]. intros u Hu [L1 L2]. cbn. by rewrite !length_insert.
  - cbn. by rewrite length_alter.
  - done.
Qed.

(** A change of one open file. *)
Lemma accounted_on_file F F' (s : sys) i f g :
  accounted F (y_rest s) -> get_file s i = Some f ->
  (forall j, j <> i -> fl_refs F' j = fl_refs F j /\ (fl_gone F' = Some j <-> fl_gone F = Some j)) ->
  (forall w n, fl_ends F' w n = fl_ends F w n + Z.b2z (has_end w n f) - Z.b2z (has_end w n (g f))) ->
  file_ok F' (y_rest s) i (g f) ->
  accounted F' (y_rest (on_file i g s)).
Proof.
  intros [A1 A2 A3 A4 A5 A6] Hf Hj He Hok. unfold get_file in Hf.
  assert (Hn : forall j, j <> i -> net F' (y_rest (on_file i g s)) j = net F (y_rest s) j) by (intros j Hne; unfold net; cbn; by rewrite (proj1 (Hj j Hne))).
  split.
  - intros j f' Hf'. cbn in Hf'. destruct (decide (i = j)) as [<-|Hne].
    + rewrite list_lookup_alter_eq, Hf in Hf'. simplify_eq/=. exact Hok.
    + rewrite list_lookup_alter_ne in Hf' by done. specialize (A1 j f' Hf'). unfold file_ok in *. rewrite Hn by done.
      destruct (f_used f'); [|done]. destruct A1 as (R1 & R2 & R3 & R4 & R5). split_and!; try done.
      * intros Hz. apply Hj; auto.
      * intros Ht Hg. apply R5; [done|]. intros Hg'. apply Hg. apply Hj; auto.
  - intros j Hf'. cbn in Hf'. destruct (decide (i = j)) as [<-|Hne].
    + by rewrite list_lookup_alter_eq, Hf in Hf'.
    + rewrite list_lookup_alter_ne in Hf' by done. rewrite Hn by done. by apply A2.
  - intros n p w Hp Hu. cbn. rewrite (cnt_alter _ _ _ f) by done. rewrite He, (A3 n p w Hp Hu). lia.
  - done.
  - cbn. by rewrite length_alter.
  - done.
Qed.

(** A change that keeps what is counted. *)
Definition same_account (f f' : open_file) : Prop :=
  f_used f' = f_used f /\ f_refcount f' = f_refcount f /\ f_type f' = f_type f /\ pipe_id f' = pipe_id f /\
  pipe_write_end f' = pipe_write_end f.

Lemma has_end_same f f' w n : same_account f f' -> has_end w n f' = has_end w n f.
Proof. intros (E1 & E2 & E3 & E4 & E5). unfold has_end. by rewrite E1, E3, E4, E5. Qed.

Lemma accounted_same F (s : sys) i g :
  accounted F (y_rest s) -> (forall f, get_file s i = Some f -> same_account f (g f)) -> accounted F (y_rest (on_file i g s)).
Proof.
  intros Ha Hg. destruct (get_file s i) as [f|] eqn:Hf.
  - apply (accounted_on_file F F s i f g Ha Hf); [done| |].
    + intros w n. rewrite (has_end_same f (g f)) by auto. lia.
    + pose proof (ac_files _ _ Ha i f Hf) as Hok. destruct (Hg f eq_refl) as (E1 & E2 & E3 & E4 & E5). unfold file_ok in *.
      by rewrite E1, E2, E3, E4.
  - replace (y_rest (on_file i g s)) with (y_rest s); [done|]. cbn. unfold get_file in Hf.
    rewrite alter_outside by done. by destruct (y_rest s).
Qed.

(** ** References *)

Lemma used_ok F a i f : accounted F a -> open_files a !! i = Some f -> 0 < net F a i -> f_used f = true /\ f_refcount f = net F a i.
Proof. intros Ha Hf Hn. pose proof (ac_files _ _ Ha i f Hf) as Hok. unfold file_ok in Hok. destruct (f_used f); [naive_solver|lia]. Qed.

Lemma net_file F (s : sys) i : accounted F (y_rest s) -> net F (y_rest s) i <> 0 -> exists f, get_file s i = Some f.
Proof. intros Ha Hn. unfold get_file. destruct (open_files (y_rest s) !! i) as [f|] eqn:Hf; [eauto|]. by rewrite (ac_outside _ _ Ha) in Hn. Qed.

Lemma net_move F a i v k : net (move_ref i v F) a k = net F a k + one_at i v k.
Proof. unfold net. cbn. lia. Qed.

Lemma one_at_eq i v : one_at (Some i) v i = v.
Proof. unfold one_at. by rewrite bool_decide_true. Qed.

Lemma one_at_none v k : one_at None v k = 0.
Proof. done. Qed.

Lemma one_at_ne i v j : j <> i -> one_at (Some i) v j = 0.
Proof. intros Hne. unfold one_at. rewrite bool_decide_false by congruence. done. Qed.

Lemma file_ok_ref F a i f v :
  file_ok F a i f -> f_used f = true -> 0 < net F a i + v -> f_refcount f = net F a i ->
  file_ok (move_ref (Some i) v F) a i (set_f_refcount f (f_refcount f + v)).
Proof.
  unfold file_ok. cbn. intros Hok Hu Hn Hr. rewrite Hu in Hok |- *. destruct Hok as (R1 & R2 & R3 & R4 & R5).
  rewrite net_move, one_at_eq. split_and!; [lia|lia|lia|done|done].
Qed.

Lemma has_end_refcount w n f v : has_end w n (set_f_refcount f v) = has_end w n f.
Proof. done. Qed.

Lemma accounted_retain F (s : sys) i :
  accounted F (y_rest s) -> 0 < net F (y_rest s) i -> fl_refs F i <= 1 ->
  accounted (move_ref (Some i) 1 F) (y_rest (cell_retain_open_file (Some i) s)).
Proof.
  intros Ha Hn Hfl. destruct (net_file F s i Ha ltac:(lia)) as [f Hf]. destruct (used_ok F _ i f Ha Hf Hn) as [Hu Hr].
  pose proof (refs_bound F _ i Ha) as Hb. cbn. apply (accounted_on_file F _ s i f); [done|done| | |].
  - intros j Hne. cbn. rewrite one_at_ne by done. split; [lia|done].
  - intros w n. cbn. rewrite has_end_refcount. lia.
  - rewrite (u16_small (f_refcount f + 1)) by (unfold is_u16, net in *; lia). apply file_ok_ref; [by apply Ha|done|lia|done].
Qed.

(** ** A new open file *)

Lemma accounted_alloc F (s s' : sys) i :
  accounted F (y_rest s) -> cell_alloc_open_file s = (Some i, s') ->
  accounted (move_ref (Some i) 1 F) (y_rest s') /\ get_file s' i = Some (set_f_refcount (set_f_used zero_file true) 1) /\
  fd_tables (y_rest s') = fd_tables (y_rest s) /\ pipes (y_rest s') = pipes (y_rest s).
Proof.
  intros Ha. unfold cell_alloc_open_file. destruct (first_from _ _ _) as [k|] eqn:E; [|done]. intros [= <- <-].
  apply first_from_Some in E as (_ & Hk & _). unfold file_is in Hk. destruct (get_file s k) as [f|] eqn:Hf; [|done].
  apply negb_true_iff in Hk. set (s1 := on_tables _ s).
  assert (Ha1 : accounted F (y_rest s1)).
  { destruct Ha as [A1 A2 A3 A4 A5 A6]. split; try done. cbn. by apply clear_file_rights. }
  pose proof (ac_files _ _ Ha1 k f Hf) as Hok. unfold file_ok in Hok. rewrite Hk in Hok. split; [|split; [|done]].
  - apply (accounted_on_file F _ s1 k f); [done|done| | |].
    + intros j Hne. cbn. rewrite one_at_ne by done. split; [lia|done].
    + intros w n. assert (has_end w n f = false) as -> by (unfold has_end; by rewrite Hk).
      assert (has_end w n (set_f_refcount (set_f_used zero_file true) 1) = false) as -> by done. cbn. lia.
    + assert (Hn : net (move_ref (Some k) 1 F) (y_rest s1) k = 1) by (rewrite net_move, one_at_eq; lia).
      unfold file_ok. rewrite Hn. split_and!; done.
  - unfold get_file. cbn. unfold get_file in Hf. rewrite list_lookup_alter_eq, Hf. done.
Qed.

Lemma alloc_none (s s' : sys) : cell_alloc_open_file s = (None, s') -> s' = s.
Proof. unfold cell_alloc_open_file. destruct (first_from _ _ _); [done|]. by intros [= <-]. Qed.

(** ** Pipes *)

Lemma accounted_smooth F (s s' : sys) : smooth s s' -> accounted F (y_rest s) -> accounted F (y_rest s').
Proof.
  intros [_ M2 M3 _ M5 M6] [A1 A2 A3 A4 A5 A6].
  assert (Hn : forall i, net F (y_rest s') i = net F (y_rest s) i) by (intros i; unfold net; by rewrite M3).
  split; rewrite ?M2, ?M3.
  - intros i f Hf. specialize (A1 i f Hf). unfold file_ok in *. rewrite Hn. destruct (f_used f); [|done].
    destruct A1 as (R1 & R2 & R3 & R4 & R5). split_and!; try done. intros Ht Hg. destruct (R5 Ht Hg) as (n & p & E1 & Hp & Hu).
    destruct (Forall2_lookup_l _ _ _ _ _ M5 Hp) as (p' & Hp' & E2 & _). exists n, p'. split_and!; [done|done|congruence].
  - intros i Hi. rewrite Hn. by apply A2.
  - intros n p' w Hp' Hu. destruct (Forall2_lookup_r _ _ _ _ _ M5 Hp') as (p & Hp & E1 & E2 & E3 & _).
    rewrite <- (A3 n p w Hp ltac:(congruence)). unfold pipe_ends. by rewrite E2, E3.
  - done.
  - by rewrite <- (Forall2_length M5).
  - auto.
Qed.

(** A change of the pipe [n] that keeps it in use. *)
Lemma accounted_put_pipe F F' (s : sys) n p p' :
  accounted F (y_rest s) -> get_pipe s n = Some p -> (p_used p = true -> p_used p' = true) ->
  fl_refs F' = fl_refs F -> fl_gone F' = fl_gone F ->
  (forall w k, k <> n -> fl_ends F' w k = fl_ends F w k) ->
  (p_used p' = true -> forall w, pipe_ends w p' = cnt (has_end w n) (open_files (y_rest s)) + fl_ends F' w n) ->
  accounted F' (y_rest (put_pipe s n p')).
Proof.
  intros [A1 A2 A3 A4 A5 A6] Hp Hu E1 E2 E3 E4. unfold get_pipe in Hp. pose proof (lookup_lt_Some _ _ _ Hp) as Hlt. split.
  - intros i f Hf. specialize (A1 i f Hf). unfold file_ok, net in *. rewrite E1, E2. cbn. destruct (f_used f); [|done].
    destruct A1 as (R1 & R2 & R3 & R4 & R5). split_and!; try done. intros Ht Hg. destruct (R5 Ht Hg) as (k & q & Ek & Hk & Huk).
    destruct (decide (n = k)) as [<-|Hne]; [|exists k, q; by rewrite list_lookup_insert_ne].
    exists n, p'. rewrite list_lookup_insert_eq by done. simplify_eq. auto.
  - intros i Hi. specialize (A2 i Hi). unfold net in *. by rewrite E1.
  - intros k q w Hk Huk. cbn in Hk |- *. destruct (decide (n = k)) as [<-|Hne].
    + rewrite list_lookup_insert_eq in Hk by done. simplify_eq. by apply E4.
    + rewrite list_lookup_insert_ne in Hk by done. rewrite E3 by done. by apply A3.
  - done.
  - cbn. by rewrite length_insert.
  - done.
Qed.

Lemma pipe_for_id_spec n (s : sys) i p :
  0 <= n -> pipe_for_id n s = Some (i, p) <-> n = Z.of_nat i /\ (i < PIPE_COUNT)%nat /\ get_pipe s i = Some p /\ p_used p = true.
Proof.
  intros Hn. unfold pipe_for_id, obind. destruct (Z.leb_spec (Z.of_nat PIPE_COUNT) n) as [Hge|Hlt].
  { split; [done|]. intros (-> & Hi & _). lia. }
  split.
  - destruct (get_pipe s (Z.to_nat n)) as [q|] eqn:Hq; [|done]. destruct (p_used q) eqn:Hu; [|done]. intros [= <- <-].
    split_and!; [lia|lia|done|done].
  - intros (-> & _ & Hp & Hu). by rewrite Nat2Z.id, Hp, Hu.
Qed.

Definition add_end (w : bool) (n : Z) (s : sys) : sys := if w then cell_pipe_add_writer n s else cell_pipe_add_reader n s.

Lemma cnt_files F a w n : accounted F a -> 0 <= cnt (has_end w n) (open_files a) <= 4096.
Proof.
  intros Ha. pose proof (cnt_nonneg (has_end w n) (open_files a)). pose proof (cnt_le (has_end w n) (open_files a)).
  destruct (ac_sizes _ _ Ha) as (_ & _ & Hl). lia.
Qed.

Lemma fl_move_end w n v F w' : fl_ends (move_end w n v F) w' n = fl_ends F w' n + (if Bool.eqb w w' then v else 0).
Proof. cbn. rewrite Nat.eqb_refl, andb_true_r. done. Qed.

Lemma fl_move_end_ne w n v F w' k : k <> n -> fl_ends (move_end w n v F) w' k = fl_ends F w' k.
Proof. intros Hne. cbn. rewrite (proj2 (Nat.eqb_neq k n)) by done. rewrite andb_false_r. lia. Qed.

Lemma accounted_add_end w F (s : sys) i p :
  accounted F (y_rest s) -> (i < PIPE_COUNT)%nat -> get_pipe s i = Some p -> p_used p = true -> (forall w, -1 <= fl_ends F w i <= 1) ->
  accounted (move_end w i 1 F) (y_rest (add_end w (Z.of_nat i) s)) /\
  exists p', get_pipe (add_end w (Z.of_nat i) s) i = Some p' /\ p_used p' = true.
Proof.
  intros Ha Hi Hp Hu Hfl. assert (Hid : pipe_for_id (Z.of_nat i) s = Some (i, p)) by (apply pipe_for_id_spec; [lia|done]).
  set (p' := if w then set_had_writer (set_writers p (u16 (writers p + 1))) true else set_readers p (u16 (readers p + 1))).
  assert (Es : add_end w (Z.of_nat i) s = put_pipe s i p').
  { unfold add_end, cell_pipe_add_writer, cell_pipe_add_reader, p'. rewrite Hid. by destruct w. }
  assert (Hu' : p_used p' = true) by (unfold p'; by destruct w). rewrite Es. split.
  - apply (accounted_put_pipe F _ s i p); [done|done|done|done|done|by intros; apply fl_move_end_ne|]. intros _ w'. rewrite fl_move_end.
    pose proof (ac_pipes _ _ Ha i p w' Hp Hu) as He. pose proof (cnt_files F _ w' i Ha). specialize (Hfl w').
    assert (He' : pipe_ends w' p' = if Bool.eqb w w' then u16 (pipe_ends w' p + 1) else pipe_ends w' p) by (unfold p'; by destruct w, w').
    rewrite He'. destruct (Bool.eqb w w'); [rewrite u16_small by (unfold is_u16; lia)|]; lia.
  - exists p'. split; [|done]. unfold get_pipe. cbn. apply list_lookup_insert_eq. by eapply lookup_lt_Some.
Qed.

Definition settled_ends (F : flight) : Prop := fl_gone F = None /\ forall w n, fl_ends F w n = 0.

Lemma has_end_spec w n f :
  has_end w n f = true <-> f_used f = true /\ f_type f = OPEN_PIPE /\ pipe_id f = Z.of_nat n /\ pipe_write_end f = w.
Proof.
  unfold has_end. rewrite !andb_true_iff, bool_decide_eq_true, Z.eqb_eq, Bool.eqb_true_iff. tauto.
Qed.

(** A pipe that is not in use has no open end. *)
Lemma no_ends F (s : sys) n p w :
  accounted F (y_rest s) -> fl_gone F = None -> get_pipe s n = Some p -> p_used p = false -> cnt (has_end w n) (open_files (y_rest s)) = 0.
Proof.
  intros Ha Hg Hp Hu. apply cnt_none. intros k f Hf. destruct (has_end w n f) eqn:He; [|done].
  apply has_end_spec in He as (Hfu & Ht & Hid & _). pose proof (ac_files _ _ Ha k f Hf) as Hok. unfold file_ok in Hok. rewrite Hfu in Hok.
  destruct Hok as (_ & _ & _ & _ & R5). destruct (R5 Ht ltac:(congruence)) as (m & q & Em & Hm & Hqu).
  assert (m = n) as -> by lia. unfold get_pipe in Hp. congruence.
Qed.

Lemma free_storage_used p m q m' : pipe_free_storage p m = (q, m') -> p_used q = p_used p.
Proof. unfold pipe_free_storage. destruct (free_pages _ _) as [l m1]. by intros [= <- _]. Qed.

Lemma alloc_storage_used p i n m ok q m' : alloc_storage p i n m = (ok, q, m') -> p_used q = p_used p.
Proof.
  revert p i m. induction n as [|n IH]; intros p i m; cbn [alloc_storage]; [by intros [= _ <- _]|].
  destruct (alloc_zero_page m) as [pa m1]. cbv zeta. destruct (pa =? 0).
  - destruct (pipe_free_storage _ m1) as [q' m2] eqn:E. intros [= _ <- _]. by apply free_storage_used in E.
  - intros Ha. by apply IH in Ha.
Qed.

Lemma accounted_alloc_pipe F (s s' : sys) ino n :
  accounted F (y_rest s) -> settled_ends F -> cell_alloc_pipe_obj ino s = (n, s') ->
  accounted F (y_rest s') /\ open_files (y_rest s') = open_files (y_rest s) /\ fd_tables (y_rest s') = fd_tables (y_rest s) /\
  (n < 0 \/ exists i p, n = Z.of_nat i /\ (i < PIPE_COUNT)%nat /\ get_pipe s' i = Some p /\ p_used p = true).
Proof.
  intros Ha [Hg He]. unfold cell_alloc_pipe_obj. destruct (first_from _ _ _) as [i|] eqn:E; [|intros [= <- <-]; split_and!; try done; by left].
  apply first_from_Some in E as (Hi & Hp & _). unfold pipe_is in Hp. destruct (get_pipe s i) as [p|] eqn:Hgp; [|done].
  apply negb_true_iff in Hp. destruct (pipe_alloc_storage zero_pipe _) as [[ok q] m] eqn:Es. apply alloc_storage_used in Es.
  assert (Hgo : forall p', (p_used p' = true -> forall w, pipe_ends w p' = 0) -> accounted F (y_rest (put_pipe (set_machine s m) i p'))).
  { intros p' Hp'. apply (accounted_put_pipe F F (set_machine s m) i p); [done|done|congruence|done|done|done|].
    intros Hu w. change (y_rest (set_machine s m)) with (y_rest s). rewrite He, (no_ends F s i p w Ha Hg Hgp Hp). by rewrite Hp'. }
  destruct ok; cbn [negb]; intros [= <- <-].
  - split; [apply Hgo; intros _ []; done|]. split; [done|]. split; [done|]. right. exists i, (mk_pipe true (ino =? 0) 0 0 ino (pages q) 0 0 0 0). split; [done|]. split; [lia|]. split; [|done].
    unfold get_pipe. cbn. apply list_lookup_insert_eq. by eapply lookup_lt_Some.
  - split; [apply Hgo; by rewrite Es|]. split; [done|]. split; [done|]. by left.
Qed.

(** ** The last reference *)

Lemma accounted_destroy F F' (s : sys) n p p' :
  accounted F (y_rest s) -> get_pipe s n = Some p -> p_used p' = false ->
  fl_refs F' = fl_refs F -> fl_gone F' = fl_gone F -> (forall w k, k <> n -> fl_ends F' w k = fl_ends F w k) ->
  (forall j f, get_file s j = Some f -> f_used f = true -> f_type f = OPEN_PIPE -> pipe_id f = Z.of_nat n -> fl_gone F = Some j) ->
  accounted F' (y_rest (put_pipe s n p')).
Proof.
  intros [A1 A2 A3 A4 A5 A6] Hp Hu' E1 E2 E3 Hno. unfold get_pipe in Hp. pose proof (lookup_lt_Some _ _ _ Hp) as Hlt. split.
  - intros i f Hf. specialize (A1 i f Hf). unfold file_ok, net in *. rewrite E1, E2. cbn. destruct (f_used f) eqn:Hu; [|done].
    destruct A1 as (R1 & R2 & R3 & R4 & R5). split_and!; try done. intros Ht Hg. destruct (R5 Ht Hg) as (k & q & Ek & Hk & Huk).
    destruct (decide (n = k)) as [<-|Hne]; [|exists k, q; by rewrite list_lookup_insert_ne]. destruct Hg. by eapply Hno.
  - intros i Hi. specialize (A2 i Hi). unfold net in *. by rewrite E1.
  - intros k q w Hk Huk. cbn in Hk |- *. destruct (decide (n = k)) as [<-|Hne].
    + rewrite list_lookup_insert_eq in Hk by done. simplify_eq. congruence.
    + rewrite list_lookup_insert_ne in Hk by done. rewrite E3 by done. by apply A3.
  - done.
  - cbn. by rewrite length_insert.
  - done.
Qed.

(** The only end left is the one being closed. *)
Lemma last_end (s : sys) i f n w :
  get_file s i = Some f -> has_end w n f = true ->
  cnt (has_end w n) (open_files (y_rest s)) = 1 -> cnt (has_end (negb w) n) (open_files (y_rest s)) = 0 ->
  forall j g, get_file s j = Some g -> f_used g = true -> f_type g = OPEN_PIPE -> pipe_id g = Z.of_nat n -> i = j.
Proof.
  intros Hf He H1 H0' j g Hg Hu Ht Hid. destruct (decide (i = j)) as [->|Hne]; [done|]. exfalso. unfold get_file in Hf, Hg.
  destruct (decide (pipe_write_end g = w)) as [Ew|Ew].
  - pose proof (cnt_alter (has_end w n) _ i f (fun f => set_f_used f false) Hf) as Hc. rewrite He, H1 in Hc. cbn in Hc.
    assert (Hj : alter (fun f => set_f_used f false) i (open_files (y_rest s)) !! j = Some g) by (by rewrite list_lookup_alter_ne).
    pose proof (cnt_pos (has_end w n) _ _ _ Hj ltac:(by apply has_end_spec)). lia.
  - pose proof (cnt_pos (has_end (negb w) n) _ _ _ Hg ltac:(apply has_end_spec; split_and!; try done; by destruct (pipe_write_end g), w)). lia.
Qed.

(** The end of a pipe is given back; the file of the end is still in the table. *)
Lemma accounted_drop_end F (s : sys) i f n p w :
  accounted F (y_rest s) -> get_file s i = Some f -> has_end w n f = true -> fl_gone F = Some i -> (forall w, fl_ends F w n = 0) ->
  get_pipe s n = Some p -> p_used p = true ->
  accounted (move_end w n (-1) F)
    (y_rest (settle n (if w then set_writers p (dropped (writers p)) else set_readers p (dropped (readers p))) s)).
Proof.
  intros Ha Hf He Hg Hfl Hp Hu. set (p' := if w then _ else _). set (F' := move_end w n (-1) F).
  pose proof (cnt_pos (has_end w n) _ _ _ Hf He) as Hpos.
  assert (Hends : forall w', pipe_ends w' p' = pipe_ends w' p - (if Bool.eqb w w' then 1 else 0)).
  { intros w'. pose proof (ac_pipes _ _ Ha n p w Hp Hu) as Hw. rewrite Hfl in Hw. unfold p', dropped.
    destruct w, w'; cbn in *; try lia; rewrite (proj2 (Z.ltb_lt 0 _)) by lia; lia. }
  assert (Hcnt : forall w', pipe_ends w' p' = cnt (has_end w' n) (open_files (y_rest s)) + fl_ends F' w' n).
  { intros w'. rewrite Hends. unfold F'. rewrite fl_move_end, Hfl, (ac_pipes _ _ Ha n p w' Hp Hu), Hfl. destruct (Bool.eqb w w'); lia. }
  assert (Ha1 : accounted F' (y_rest (put_pipe s n p'))).
  { apply (accounted_put_pipe F F' s n p); try done; [by unfold p'; destruct w|by intros; apply fl_move_end_ne]. }
  unfold settle. destruct (_ && _) eqn:Hz; [|done]. apply andb_prop in Hz as [Hr%Z.eqb_eq Hw%Z.eqb_eq].
  assert (Hzero : forall w', pipe_ends w' p' = 0) by (intros []; done).
  unfold pipe_destroy. rewrite release_rights_none by exact (ac_rights _ _ Ha1). set (s1 := put_pipe s n p').
  assert (Hp1 : get_pipe s1 n = Some p') by (unfold get_pipe, s1; cbn; apply list_lookup_insert_eq; by eapply lookup_lt_Some).
  rewrite Hp1. destruct (pipe_free_storage p' _) as [q m]. apply (accounted_destroy F' F' (set_machine s1 m) n p'); try done.
  intros j g Hj Hgu Hgt Hgid. change (fl_gone F') with (fl_gone F). rewrite Hg. f_equal.
  pose proof (Hcnt w) as C1. pose proof (Hcnt (negb w)) as C2. rewrite Hzero in C1, C2. unfold F' in C1, C2. rewrite fl_move_end, Hfl in C1, C2.
  rewrite eqb_reflx in C1. rewrite eqb_negb2 in C2.
  by apply (last_end s i f n w Hf He ltac:(lia) ltac:(lia) j g).
Qed.

Lemma settle_rest n p (s : sys) :
  no_rights (others (y_rest s)) ->
  open_files (y_rest (settle n p s)) = open_files (y_rest s) /\ fd_tables (y_rest (settle n p s)) = fd_tables (y_rest s).
Proof.
  intros Hr. unfold settle, pipe_destroy. destruct (_ && _); [|done]. rewrite release_rights_none by exact Hr.
  destruct (get_pipe _ n) as [q|]; [|done]. set (m := (s_world _).1). by destruct (pipe_free_storage q m).
Qed.

(** What the code for the type of the file does on the last reference. *)
Lemma accounted_release_kind F (s s' : sys) i f :
  accounted F (y_rest s) -> get_file s i = Some f -> f_used f = true -> fl_gone F = Some i -> (forall w n, fl_ends F w n = 0) ->
  plain (f_type f) = true ->
  (f_type f = OPEN_PIPE -> exists n p, pipe_id f = Z.of_nat n /\ get_pipe s n = Some p /\ p_used p = true) ->
  release_kind i f s = Some s' ->
  exists F', accounted F' (y_rest s') /\ fl_refs F' = fl_refs F /\ fl_gone F' = Some i /\
    (forall w n, fl_ends F' w n = - Z.b2z (has_end w n f)) /\
    open_files (y_rest s') = open_files (y_rest s) /\ fd_tables (y_rest s') = fd_tables (y_rest s).
Proof.
  intros Ha Hf Hu Hg Hfl Hpl Hpipe. unfold release_kind, cell_pipe_release_file, pipe_for_file. cbn [obind].
  destruct (decide (f_type f = OPEN_PIPE)) as [Ht|Ht].
  - rewrite bool_decide_true by done. destruct (Hpipe Ht) as (n & p & Hid & Hp & Hpu). assert (Hn : (n < PIPE_COUNT)%nat).
    { destruct (ac_sizes _ _ Ha) as [<- _]. by eapply lookup_lt_Some. }
    assert (E : pipe_for_id (pipe_id f) s = Some (n, p)) by (rewrite Hid; apply pipe_for_id_spec; [lia|done]). rewrite E. set (w := pipe_write_end f).
    assert (He : has_end w n f = true) by (by apply has_end_spec). intros Hs.
    pose proof (accounted_drop_end F s i f n p w Ha Hf He Hg ltac:(intros; apply Hfl) Hp Hpu) as Ha1. fold w in Hs.
    set (s1 := settle n _ s) in Ha1, Hs. apply notify_smooth in Hs.
    assert (Hrest : open_files (y_rest s1) = open_files (y_rest s) /\ fd_tables (y_rest s1) = fd_tables (y_rest s)).
    { apply settle_rest. exact (ac_rights _ _ Ha). }
    exists (move_end w n (-1) F). split; [by eapply accounted_smooth|]. split; [done|]. split; [done|]. split.
    + intros w' k. destruct (decide (k = n)) as [->|Hne].
      * rewrite fl_move_end, Hfl. destruct (Bool.eqb_spec w w') as [<-|Hne]; [by rewrite He|].
        destruct (has_end w' n f) eqn:E'; [|done]. apply has_end_spec in E'. naive_solver.
      * rewrite fl_move_end_ne, Hfl by done. destruct (has_end w' k f) eqn:E'; [|done]. apply has_end_spec in E' as (_ & _ & E' & _). lia.
    + rewrite (sm_files _ _ Hs), (sm_fds _ _ Hs). exact Hrest.
  - rewrite bool_decide_false by done. intros Hs. assert (s' = s) as -> by (revert Hs; cbn; destruct (f_type f); try discriminate Hpl; by intros [= <-]).
    exists F. split_and!; try done. intros w n. rewrite Hfl. destruct (has_end w n f) eqn:E'; [|done]. apply has_end_spec in E'. naive_solver.
Qed.

Lemma accounted_release F (s s' : sys) i :
  accounted F (y_rest s) -> settled_ends F -> 0 < net F (y_rest s) i -> cell_release_open_file (Some i) s = Some s' ->
  accounted (move_ref (Some i) (-1) F) (y_rest s') /\ fd_tables (y_rest s') = fd_tables (y_rest s).
Proof.
  intros Ha [Hg Hfl] Hn. destruct (net_file F s i Ha ltac:(lia)) as [f Hf]. destruct (used_ok F _ i f Ha Hf Hn) as [Hu Hr].
  pose proof (ac_files _ _ Ha i f Hf) as Hok. set (F1 := move_ref (Some i) (-1) F). set (f1 := set_f_refcount f (f_refcount f - 1)).
  assert (Hj : forall j, j <> i -> fl_refs F1 j = fl_refs F j) by (intros j Hne; cbn; rewrite one_at_ne by done; lia).
  assert (Hn1 : net F1 (y_rest s) i = net F (y_rest s) i - 1) by (unfold F1; rewrite net_move, one_at_eq; lia).
  unfold cell_release_open_file. rewrite Hf. cbn [obind]. rewrite (proj2 (Z.eqb_neq (f_refcount f) 0)) by lia. cbv zeta.
  fold f1. destruct (Z.eqb_spec (f_refcount f1) 0) as [Hz|Hnz]; cbn [negb].
  2: { intros [= <-]. split; [|done]. apply (accounted_on_file F F1 s i f (fun _ => f1)); [done|done|by intros j Hne; split; [apply Hj|]| |].
       - intros w n. cbn. unfold f1. rewrite has_end_refcount. lia.
       - apply (file_ok_ref F (y_rest s) i f (-1)); [done|done| |done]. cbn in Hnz. lia. }
  unfold file_ok in Hok. rewrite Hu in Hok. destruct Hok as (_ & _ & _ & R4 & R5). cbn in Hz.
  set (s1 := on_file i (fun _ => f1) s). assert (Ha1 : accounted (set_gone (Some i) F1) (y_rest s1)).
  { apply (accounted_on_file F (set_gone (Some i) F1) s i f (fun _ => f1)); [done|done| | |].
    - intros j Hne. split; [by apply Hj|]. cbn. rewrite Hg. split; [intros [= ?]; congruence|done].
    - intros w n. cbn. unfold f1. rewrite has_end_refcount. lia.
    - unfold file_ok. cbn. rewrite Hu. change (net (set_gone (Some i) F1) (y_rest s) i) with (net F1 (y_rest s) i).
      split_and!; [lia|lia|done|done|by intros _ []]. }
  assert (Hf1 : get_file s1 i = Some f1) by (unfold get_file, s1; cbn; unfold get_file in Hf; by rewrite list_lookup_alter_eq, Hf).
  unfold obind at 1. destruct (release_kind i f1 s1) as [s2|] eqn:E2; [|done].
  destruct (accounted_release_kind _ s1 s2 i f1 Ha1 Hf1 Hu eq_refl Hfl R4) as (F2 & Ha2 & G1 & G2 & G3 & G4 & G5); [|done|].
  { intros Ht. destruct (R5 Ht ltac:(congruence)) as (n & p & E1 & Hp & Hpu). by exists n, p. }
  assert (Hf2 : get_file s2 i = Some f1) by (unfold get_file; by rewrite G4). rewrite Hf2. cbn [obind]. intros [= <-].
  set (s3 := if has_node f1 then _ else _). assert (E3 : y_rest s3 = y_rest s2) by (unfold s3; by destruct (has_node f1)).
  assert (Hf3 : get_file s3 i = Some f1) by (unfold get_file; by rewrite E3). split; [|cbn; by rewrite E3, G5].
  apply (accounted_on_file F2 F1 s3 i f1); [by rewrite E3|done| | |].
  - intros j Hne. rewrite G1, G2. split; [done|]. cbn. rewrite Hg. split; [done|]. intros [= ?]. congruence.
  - intros w n. rewrite G3. change (fl_ends F1 w n) with (fl_ends F w n). rewrite Hfl.
    assert (has_end w n (set_f_used f1 false) = false) as -> by done. cbn. lia.
  - unfold file_ok. cbn. unfold net. rewrite E3, G5. change (fd_tables (y_rest s1)) with (fd_tables (y_rest s)). fold (net F1 (y_rest s) i). lia.
Qed.
End Accounts.
