(* ===== verification/FdOps.v ===== *)
(** Every operation on descriptors keeps the accounts of [FdInv] and leaves the
    processors alone. The second part discharges the laws [HostLaws] that the
    theorems about processes rely on. *)

From Stdlib Require Import ZArith Lia.
From stdpp Require Import base numbers list option.
From S2P Require Import Prelude Mem Pmm Iface Vma Vmm Policy Memory Thread Domain Reap Sched Futex Process SchedInv ReapInv Files Pipe Fd PipeInv FdInv.
Import Vma Pmm Vmm Memory Thread Domain Reap Files Pipe Fd.

#[local] Open Scope Z_scope.
#[local] Open Scope c_scope.

Section Laws.
Context {V B : Type} `{HQ : FileLaws V B} `{LB : LocalBuffer}.
#[local] Notation sys := (sys (V := V) (A := tables B)).

(** ** The processors *)

Lemma pipe_destroy_quiet i (s : sys) : quiet s (pipe_destroy i s).
Proof.
  unfold pipe_destroy. eapply quiet_trans; [apply (release_rights_quiet (Z.of_nat i))|].
  destruct (get_pipe _ i) as [p|]; [|apply quiet_refl]. set (m := (s_world _).1). destruct (pipe_free_storage p m). by apply quiet_frame.
Qed.

Lemma settle_quiet i p (s : sys) : quiet s (settle i p s).
Proof.
  unfold settle. destruct (_ && _); [|by apply quiet_frame].
  apply (quiet_trans _ (put_pipe s i p)); [by apply quiet_frame|apply pipe_destroy_quiet].
Qed.

Lemma drop_reader_quiet n (s : sys) : quiet s (cell_pipe_drop_reader n s).
Proof. unfold cell_pipe_drop_reader. destruct (pipe_for_id n s) as [[i p]|]; [apply settle_quiet|apply quiet_refl]. Qed.

Lemma drop_writer_quiet n (s : sys) : quiet s (cell_pipe_drop_writer n s).
Proof. unfold cell_pipe_drop_writer. destruct (pipe_for_id n s) as [[i p]|]; [apply settle_quiet|apply quiet_refl]. Qed.

Lemma release_kind_quiet i f (s s' : sys) : release_kind i f s = Some s' -> quiet s s'.
Proof.
  unfold release_kind. destruct (cell_pipe_release_file (Some f) s) as [b s1] eqn:E.
  assert (Q : quiet s s1).
  { revert E. unfold cell_pipe_release_file. destruct (pipe_for_file (Some f) s) as [[j p]|]; intros [= <- <-]; [apply settle_quiet|apply quiet_refl]. }
  destruct b; [intros Hn; eapply quiet_trans; [exact Q|by apply sm_quiet, notify_smooth]|].
  destruct (f_type f); try (intros [= <-]; done).
  - intros [= <-]. eapply quiet_trans; [exact Q|apply release_socket_quiet].
  - destruct (unix_connected f); [|by intros [= <-]]. unfold obind. cbv zeta. destruct (cell_pipe_notify _) as [s2|] eqn:E2; [|done].
    apply notify_smooth, sm_quiet in E2. intros [= <-]. eapply quiet_trans; [exact Q|]. eapply quiet_trans; [apply (drop_reader_quiet (unix_rx_pipe f))|].
    eapply quiet_trans; [apply (drop_writer_quiet (unix_tx_pipe f))|]. eapply quiet_trans; [exact E2|apply socket_wake_quiet].
  - intros [= <-]. eapply quiet_trans; [exact Q|apply release_listener_quiet].
  - intros [= <-]. eapply quiet_trans; [exact Q|apply release_pty_quiet].
Qed.

Lemma release_quiet i (s s' : sys) : cell_release_open_file i s = Some s' -> quiet s s'.
Proof.
  unfold cell_release_open_file. destruct i as [i|]; [|intros [= <-]; apply quiet_refl]. unfold obind.
  destruct (get_file s i) as [f|]; [|done]. destruct (_ =? 0); [intros [= <-]; apply quiet_refl|]. cbv zeta.
  set (s1 := on_file i _ s). assert (Q1 : quiet s s1) by by apply quiet_frame. destruct (negb _); [by intros [= <-]|].
  destruct (release_kind i _ s1) as [s2|] eqn:E2; [|done]. apply release_kind_quiet in E2. destruct (get_file s2 i) as [f2|]; [|done].
  intros [= <-]. eapply quiet_trans; [exact Q1|]. eapply quiet_trans; [exact E2|]. by destruct (has_node f2); apply quiet_frame.
Qed.

Lemma close_from_quiet d fd n (s s' : sys) : close_from d fd n s = Some s' -> quiet s s'.
Proof.
  revert fd s. induction n as [|n IH]; intros fd s; cbn [close_from]; [intros [= <-]; apply quiet_refl|]. unfold obind.
  destruct (cell_release_open_file _ s) as [s1|] eqn:E; [|done]. intros Hc. apply release_quiet in E. eapply quiet_trans; [exact E|].
  apply (quiet_trans _ (put_fd d fd None 0 s1)); [by apply quiet_frame|by eapply IH].
Qed.

Lemma close_flagged_quiet d fd n (s s' : sys) : close_flagged d fd n s = Some s' -> quiet s s'.
Proof.
  revert fd s. induction n as [|n IH]; intros fd s; cbn [close_flagged]; [intros [= <-]; apply quiet_refl|]. unfold obind.
  destruct (_ || _); [apply IH|]. destruct (cell_release_open_file _ s) as [s1|] eqn:E; [|done]. intros Hc. apply release_quiet in E.
  eapply quiet_trans; [exact E|]. apply (quiet_trans _ (put_fd d fd None 0 s1)); [by apply quiet_frame|by eapply IH].
Qed.

Lemma retain_quiet i (s : sys) : quiet s (cell_retain_open_file i s).
Proof. destruct i; [by apply quiet_frame|apply quiet_refl]. Qed.

Lemma copy_from_quiet dst src fd n (s : sys) : quiet s (copy_from dst src fd n s).
Proof.
  revert fd s. induction n as [|n IH]; intros fd s; cbn [copy_from]; [apply quiet_refl|].
  set (s1 := put_fd _ _ _ _ s). apply (quiet_trans _ s1); [by apply quiet_frame|]. eapply quiet_trans; [apply retain_quiet|apply IH].
Qed.

#[export] Instance fd_host_laws : HostLaws V (tables B).
Proof.
  split.
  - intros d s s'. exact (close_from_quiet d 0 MAX_FDS s s').
  - intros d d' s. exact (copy_from_quiet d d' 0 MAX_FDS s).
  - intros d s s'. exact (close_flagged_quiet d 0 MAX_FDS s s').
Qed.
End Laws.

(** ** The accounts *)

Section Operations.
Context {V B : Type} `{HQ : FileLaws V B} `{LB : LocalBuffer}.
#[local] Notation sys := (sys (V := V) (A := tables B)).

(** Between operations nothing is in flight. *)
Definition balanced (s : sys) : Prop := accounted still (y_rest s).

Lemma settled_still : settled_ends still.
Proof. done. Qed.

Lemma settled_move i v F : settled_ends F -> settled_ends (move_ref i v F).
Proof. done. Qed.

(** Flights that cancel out. *)
Lemma accounted_cancel F (a : tables B) i : accounted (move_ref i (-1) (move_ref i 1 F)) a -> accounted F a.
Proof. apply accounted_ext; [|done|done]. intros k. cbn. unfold one_at. case_bool_decide; lia. Qed.

Lemma accounted_cancel' F (a : tables B) i : accounted (move_ref i 1 (move_ref i (-1) F)) a -> accounted F a.
Proof. apply accounted_ext; [|done|done]. intros k. cbn. unfold one_at. case_bool_decide; lia. Qed.

Lemma accounted_none F (a : tables B) v : accounted (move_ref None v F) a <-> accounted F a.
Proof. split; apply accounted_ext; try done; intros k; cbn [fl_refs move_ref]; rewrite one_at_none; lia. Qed.

(** The slots of the descriptor table of a domain. *)
Lemma slot_cases (s : sys) d fd F :
  accounted F (y_rest s) -> (fd < MAX_FDS)%nat ->
  (fd_tables (y_rest s) !! d = None /\ fd_file d fd s = None) \/
  exists t, fd_tables (y_rest s) !! d = Some t /\ fds t !! fd = Some (fd_file d fd s).
Proof.
  intros Ha Hfd. unfold fd_file, obind. destruct (fd_tables (y_rest s) !! d) as [t|] eqn:Ht; [right|by left]. exists t. split; [done|].
  destruct (proj1 (Forall_lookup _ _) (ac_tables _ _ Ha) d t Ht) as [Hl _].
  destruct (lookup_lt_is_Some_2 (fds t) fd ltac:(lia)) as [slot Hs]. by rewrite Hs.
Qed.

Lemma put_fd_outside (s : sys) d fd f c : fd_tables (y_rest s) !! d = None -> y_rest (put_fd d fd f c s) = y_rest s.
Proof. intros Hd. cbn. rewrite alter_outside by done. by destruct (y_rest s). Qed.

Lemma fd_file_refs (s : sys) d fd i : fd_file d fd s = Some i -> 0 < refs i (fd_tables (y_rest s)).
Proof.
  unfold fd_file, obind. destruct (fd_tables (y_rest s) !! d) as [t|] eqn:Ht; [|done]. destruct (fds t !! fd) as [slot|] eqn:Hs; [|done].
  intros ->. by eapply refs_pos.
Qed.

Lemma fd_file_tables (s s' : sys) d fd : fd_tables (y_rest s') = fd_tables (y_rest s) -> fd_file d fd s' = fd_file d fd s.
Proof. intros E. unfold fd_file. by rewrite E. Qed.

(** A descriptor is closed. *)
Lemma close_slot F (s s1 : sys) d fd :
  accounted F (y_rest s) -> settled_ends F -> (forall i, 0 <= fl_refs F i) -> (fd < MAX_FDS)%nat ->
  cell_release_open_file (fd_file d fd s) s = Some s1 -> accounted F (y_rest (put_fd d fd None 0 s1)).
Proof.
  intros Ha Hse Hfl Hfd Hr. destruct (slot_cases s d fd F Ha Hfd) as [[Hd Hn]|(t & Ht & Hs)].
  - rewrite Hn in Hr. injection Hr as <-. by rewrite put_fd_outside.
  - destruct (fd_file d fd s) as [i|] eqn:Hi.
    + pose proof (fd_file_refs s d fd i Hi) as Hp. specialize (Hfl i).
      destruct (accounted_release F s s1 i Ha Hse ltac:(unfold net; lia) Hr) as [Ha1 E1].
      apply (accounted_cancel' F _ (Some i)), (proj1 (accounted_none _ _ (-1))). apply (accounted_put_fd _ s1 d fd t (Some i) None 0); [done|by rewrite E1|done].
    + injection Hr as <-. apply (proj1 (accounted_none _ _ 1)), (proj1 (accounted_none _ _ (-1))). by apply (accounted_put_fd _ s d fd t None None 0).
Qed.

Lemma close_from_balanced d fd n (s s' : sys) :
  balanced s -> (fd + n <= MAX_FDS)%nat -> close_from d fd n s = Some s' -> balanced s'.
Proof.
  revert fd s. induction n as [|n IH]; intros fd s Ha Hle; cbn [close_from]; [by intros [= <-]|]. unfold obind.
  destruct (cell_release_open_file _ s) as [s1|] eqn:E; [|done]. apply IH; [|lia]. by apply (close_slot _ s s1); [done|done|done|lia|].
Qed.

Lemma close_flagged_balanced d fd n (s s' : sys) :
  balanced s -> (fd + n <= MAX_FDS)%nat -> close_flagged d fd n s = Some s' -> balanced s'.
Proof.
  revert fd s. induction n as [|n IH]; intros fd s Ha Hle; cbn [close_flagged]; [by intros [= <-]|]. unfold obind.
  destruct (_ || _); [apply IH; [done|lia]|]. destruct (cell_release_open_file _ s) as [s1|] eqn:E; [|done]. apply IH; [|lia].
  by apply (close_slot _ s s1); [done|done|done|lia|].
Qed.

(** A reference that is held goes into a free descriptor. *)
Lemma fill_slot F (s : sys) d fd t i c :
  accounted (move_ref (Some i) 1 F) (y_rest s) -> fd_tables (y_rest s) !! d = Some t -> fd_file d fd s = None -> (fd < MAX_FDS)%nat ->
  accounted F (y_rest (put_fd d fd (Some i) c s)).
Proof.
  intros Ha Ht Hn Hfd. destruct (slot_cases s d fd _ Ha Hfd) as [[Hd _]|(t' & Ht' & Hs)]; [congruence|]. rewrite Hn in Hs. simplify_eq.
  apply (accounted_cancel F _ (Some i)). pose proof (accounted_put_fd _ s d fd t None (Some i) c Ha Ht Hs) as Hp. revert Hp.
  apply accounted_ext; try done. intros k. cbn [fl_refs move_ref]. rewrite one_at_none. lia.
Qed.

Lemma put_fd_file (s : sys) d fd t f c : 
  fd_tables (y_rest s) !! d = Some t -> (fd < length (fds t))%nat -> fd_file d fd (put_fd d fd f c s) = f.
Proof.
  intros Ht Hl. unfold fd_file. cbn. rewrite list_lookup_alter_eq, Ht. cbn. by rewrite list_lookup_insert_eq.
Qed.

(** A file that a descriptor names goes into a free descriptor, too. *)
Lemma share_slot (s : sys) d fd t i c :
  balanced s -> fd_tables (y_rest s) !! d = Some t -> fd_file d fd s = None -> (fd < MAX_FDS)%nat -> 0 < refs i (fd_tables (y_rest s)) ->
  balanced (cell_retain_open_file (Some i) (put_fd d fd (Some i) c s)).
Proof.
  intros Ha Ht Hn Hfd Hp. destruct (slot_cases s d fd _ Ha Hfd) as [[Hd _]|(t' & Ht' & Hs)]; [congruence|]. rewrite Hn in Hs.
  assert (Ha1 : accounted (move_ref (Some i) (-1) still) (y_rest (put_fd d fd (Some i) c s))).
  { pose proof (accounted_put_fd _ s d fd t' None (Some i) c Ha Ht' Hs) as Hp'. revert Hp'. apply accounted_ext; done. }
  apply (accounted_cancel' still _ (Some i)). apply accounted_retain; [exact Ha1| |cbn; rewrite one_at_eq; lia].
  rewrite net_move, one_at_eq. unfold net. rewrite (refs_put_fd s d fd t' None (Some i)) by done.
  assert (names i (Some i) = true) as -> by (by apply bool_decide_eq_true). assert (names i None = false) as -> by done.
  change (fl_refs still i) with 0. cbn [Z.b2z]. lia.
Qed.

Lemma put_fd_none (s : sys) d fd c t :
  balanced s -> fd_tables (y_rest s) !! d = Some t -> fd_file d fd s = None -> (fd < MAX_FDS)%nat -> balanced (put_fd d fd None c s).
Proof.
  intros Ha Ht Hn Hfd. destruct (slot_cases s d fd _ Ha Hfd) as [[Hd _]|(t' & Ht' & Hs)]; [congruence|]. rewrite Hn in Hs.
  apply (proj1 (accounted_none _ _ 1)), (proj1 (accounted_none _ _ (-1))). by apply (accounted_put_fd _ s d fd t' None None c).
Qed.

Lemma put_fd_tables (s : sys) d fd t f c :
  fd_tables (y_rest s) !! d = Some t ->
  fd_tables (y_rest (put_fd d fd f c s)) !! d = Some (mk_fds (<[fd := f]> (fds t)) (<[fd := c]> (fd_flags t))).
Proof. intros Ht. cbn. by rewrite list_lookup_alter_eq, Ht. Qed.

Lemma put_fd_other (s : sys) d fd f c k : k <> fd -> fd_file d k (put_fd d fd f c s) = fd_file d k s.
Proof.
  intros Hk. unfold fd_file. cbn. rewrite list_lookup_alter_eq. destruct (fd_tables (y_rest s) !! d) as [t|]; [|done]. cbn.
  by rewrite list_lookup_insert_ne.
Qed.

Lemma copy_from_balanced dst src fd n (s : sys) t :
  balanced s -> fd_tables (y_rest s) !! dst = Some t -> (fd + n <= MAX_FDS)%nat ->
  (forall k, (fd <= k < fd + n)%nat -> fd_file dst k s = None) -> balanced (copy_from dst src fd n s).
Proof.
  revert fd s t. induction n as [|n IH]; intros fd s t Ha Ht Hle Hn; cbn [copy_from]; [done|].
  set (f := fd_file src fd s). set (s1 := put_fd dst fd f _ s).
  destruct (proj1 (Forall_lookup _ _) (ac_tables _ _ Ha) dst t Ht) as [Hl _].
  assert (E1 : fd_file dst fd s1 = f) by (apply (put_fd_file s dst fd t); [done|lia]). rewrite E1.
  assert (Ha2 : balanced (cell_retain_open_file f s1)).
  { destruct f as [i|] eqn:Ef; [|by apply (put_fd_none _ _ _ _ t); [done|done|apply Hn; lia|lia]].
    apply (share_slot s dst fd t); [done|done|apply Hn; lia|lia|]. by eapply fd_file_refs. }
  assert (E2 : fd_tables (y_rest (cell_retain_open_file f s1)) = fd_tables (y_rest s1)) by (by destruct f).
  apply (IH (S fd) _ (mk_fds (<[fd := f]> (fds t)) (<[fd := fd_flag src fd s]> (fd_flags t)))); [exact Ha2| |lia|].
  - rewrite E2. by apply put_fd_tables.
  - intros k Hk. rewrite (fd_file_tables s1) by done. unfold s1. rewrite put_fd_other by lia. apply Hn. lia.
Qed.

(** The reference [i] that is held replaces the file of a descriptor. *)
Lemma replace_slot (s s1 : sys) d fd t i c :
  accounted (move_ref (Some i) 1 still) (y_rest s) -> fd_tables (y_rest s) !! d = Some t -> (fd < MAX_FDS)%nat ->
  cell_release_open_file (fd_file d fd s) s = Some s1 -> balanced (put_fd d fd (Some i) c s1).
Proof.
  intros Ha Ht Hfd Hr. destruct (fd_file d fd s) as [j|] eqn:Hj.
  - destruct (slot_cases s d fd _ Ha Hfd) as [[Hd _]|(t' & Ht' & Hs)]; [congruence|]. rewrite Hj in Hs.
    pose proof (fd_file_refs s d fd j Hj) as Hp. assert (0 <= one_at (Some i) 1 j) by (unfold one_at; case_bool_decide; lia).
    destruct (accounted_release _ s s1 j Ha settled_still ltac:(rewrite net_move; unfold net; change (fl_refs still j) with 0; lia) Hr) as [Ha1 E1].
    rewrite <- E1 in Ht'. pose proof (accounted_put_fd _ s1 d fd t' (Some j) (Some i) c Ha1 Ht' Hs) as Hp'. revert Hp'.
    apply accounted_ext; try done. intros k. cbn [fl_refs move_ref still]. unfold one_at. repeat case_bool_decide; lia.
  - injection Hr as <-. by apply (fill_slot still s d fd t).
Qed.

Lemma find_free_spec d start (s : sys) fd :
  cell_find_free_fd d start s = fd -> 0 <= fd ->
  (start <= Z.to_nat fd < MAX_FDS)%nat /\ fd_file d (Z.to_nat fd) s = None.
Proof.
  unfold cell_find_free_fd. destruct (first_from _ _ _) as [k|] eqn:E; [|lia]. intros <- _. rewrite Nat2Z.id.
  apply first_from_Some in E as (Hk & Hp%bool_decide_eq_true & _). split; [lia|done].
Qed.

(** A new file gets its type. *)
Lemma accounted_retype F (s : sys) i f g :
  accounted F (y_rest s) -> get_file s i = Some f -> f_type f <> OPEN_PIPE ->
  f_used (g f) = f_used f -> f_refcount (g f) = f_refcount f -> plain (f_type (g f)) = true -> f_type (g f) <> OPEN_PIPE ->
  accounted F (y_rest (on_file i g s)).
Proof.
  intros Ha Hf Ht E1 E2 Hp Ht'. apply (accounted_on_file F F s i f g Ha Hf); [done| |].
  - intros w n. assert (Hno : forall f, f_type f <> OPEN_PIPE -> has_end w n f = false).
    { intros h Hh. unfold has_end. rewrite (bool_decide_false (f_type h = _)) by done. by rewrite andb_false_r. }
    rewrite !Hno by done. lia.
  - pose proof (ac_files _ _ Ha i f Hf) as Hok. unfold file_ok in *. rewrite E1, E2. destruct (f_used f); [|done].
    destruct Hok as (R1 & R2 & R3 & R4 & R5). by split_and!.
Qed.

(** A new file becomes an end of a pipe, which is not counted yet. *)
Lemma accounted_open_end F (s : sys) i f g w n p :
  accounted F (y_rest s) -> get_file s i = Some f -> f_type f <> OPEN_PIPE -> f_used f = true ->
  f_used (g f) = true -> f_refcount (g f) = f_refcount f -> f_type (g f) = OPEN_PIPE -> pipe_id (g f) = Z.of_nat n -> pipe_write_end (g f) = w ->
  get_pipe s n = Some p -> p_used p = true -> accounted (move_end w n (-1) F) (y_rest (on_file i g s)).
Proof.
  intros Ha Hf Ht Hu E1 E2 E3 E4 E5 Hp Hpu. apply (accounted_on_file F _ s i f g Ha Hf); [done| |].
  - intros w' k. assert (has_end w' k f = false) as -> by (unfold has_end; rewrite (bool_decide_false (f_type f = _)) by done; by rewrite andb_false_r).
    unfold has_end. rewrite E1, E3, E4, E5, bool_decide_true by done. cbn [move_end fl_ends andb].
    destruct (Nat.eqb_spec k n) as [->|Hne]; [rewrite Z.eqb_refl|rewrite (proj2 (Z.eqb_neq (Z.of_nat n) (Z.of_nat k))) by lia];
      destruct (Bool.eqb w w'); cbn; lia.
  - pose proof (ac_files _ _ Ha i f Hf) as Hok. unfold file_ok in *. rewrite E1, E2, E3. rewrite Hu in Hok.
    destruct Hok as (R1 & R2 & R3 & R4 & R5). split_and!; try done. intros _ _. by exists n, p.
Qed.

Lemma accounted_end_cancel F (a : tables B) w n v : accounted (move_end w n (- v) (move_end w n v F)) a -> accounted F a.
Proof. apply accounted_ext; try done. intros w' k. cbn. destruct (_ && _); lia. Qed.
End Operations.
