(* ===== verification/FdCalls.v ===== *)
(** Every call of the descriptor code keeps the accounts of [FdInv]: pipes, named
    pipes, the standard streams, copies, events and watches. *)

From Stdlib Require Import ZArith Lia Ascii String.
From stdpp Require Import base numbers list option relations.
From S2P Require Import Prelude Mem Pmm Iface Vma Vmm Policy Memory Thread Domain Reap Sched Futex Process SchedInv ReapInv Files Pipe Fd PipeInv FdInv FdOps.
Import Vma Pmm Vmm Memory Thread Domain Reap Files Pipe Fd.

#[local] Open Scope Z_scope.
#[local] Open Scope c_scope.

Module FdCalls.

Section Spec.
Context {V B : Type} `{HQ : FileLaws V B} `{LB : LocalBuffer} `{NH : NodeHost V B}.
#[local] Notation sys := (sys (V := V) (A := tables B)).

(** The running domain has a descriptor table. *)
Definition seated (s : sys) : Prop :=
  forall d, cell_current_domain_internal s = Some d -> exists t, fd_tables (y_rest s) !! d = Some t.

Lemma zero_type : f_type (set_f_refcount (set_f_used zero_file true) 1) <> OPEN_PIPE.
Proof. done. Qed.

(** ** New descriptors *)

Lemma install_balanced flags fill (s : sys) :
  balanced s -> seated s ->
  (forall f, f_used (fill f) = f_used f /\ f_refcount (fill f) = f_refcount f /\ plain (f_type (fill f)) = true /\ f_type (fill f) <> OPEN_PIPE) ->
  balanced (install flags fill s).2.
Proof.
  intros Ha Hs Hfill. unfold install. destruct (cell_current_domain_internal s) as [d|] eqn:Hd; [|done]. destruct (Hs d Hd) as [t Ht]. cbv zeta.
  destruct (Z.ltb_spec (cell_find_free_fd d 0 s) 0) as [|Hfd]; [done|]. destruct (find_free_spec d 0 s _ eq_refl Hfd) as [Hlt Hn].
  destruct (cell_alloc_open_file s) as [[i|] s1] eqn:E; [|by apply alloc_none in E as ->]. cbn [snd].
  destruct (accounted_alloc still s s1 i Ha E) as (Ha1 & Hf & E1 & _). apply (fill_slot still _ d _ t); [|by cbn; rewrite E1| |lia].
  - destruct (Hfill (set_f_refcount (set_f_used zero_file true) 1)) as (F1 & F2 & F3 & F4). by eapply accounted_retype.
  - rewrite (fd_file_tables s) by (cbn; by rewrite E1). done.
Qed.

Lemma copy_out_rest as_ va v n (s : sys) ok s' : copy_value_out as_ va v n s = Some (ok, s') -> y_rest s' = y_rest s.
Proof. intros Hc. apply copy_value_out_frame in Hc as [m ->]. done. Qed.

Lemma copy_in_rest as_ va n (s : sys) ok v s' : copy_value_in as_ va n s = Some (ok, v, s') -> y_rest s' = y_rest s.
Proof. intros Hc. apply copy_value_in_frame in Hc as [m ->]. done. Qed.

(** Two new files of which neither has a descriptor. *)
Definition pair_flight (r w : nat) : flight := move_ref (Some w) 1 (move_ref (Some r) 1 still).

Lemma release_pair (s s1 s2 : sys) r w :
  accounted (pair_flight r w) (y_rest s) -> cell_release_open_file (Some r) s = Some s1 -> cell_release_open_file (Some w) s1 = Some s2 ->
  balanced s2.
Proof.
  intros Ha E1 E2. pose proof (refs_nonneg r (fd_tables (y_rest s))). pose proof (refs_nonneg w (fd_tables (y_rest s))).
  assert (Hr : 0 < net (pair_flight r w) (y_rest s) r).
  { unfold pair_flight. rewrite !net_move, one_at_eq. unfold net. change (fl_refs still r) with 0. unfold one_at. case_bool_decide; lia. }
  destruct (accounted_release _ s s1 r Ha settled_still Hr E1) as [Ha1 Et].
  assert (Hw : 0 < net (move_ref (Some r) (-1) (pair_flight r w)) (y_rest s1) w).
  { unfold pair_flight. rewrite !net_move, one_at_eq. unfold net. rewrite Et. change (fl_refs still w) with 0. unfold one_at. case_bool_decide; lia. }
  destruct (accounted_release _ s1 s2 w Ha1 settled_still Hw E2) as [Ha2 _]. revert Ha2. apply accounted_ext; try done.
  intros k. cbn [fl_refs move_ref still pair_flight]. unfold one_at. repeat case_bool_decide; lia.
Qed.

Lemma fill_pair (s : sys) d t r w a b c :
  accounted (pair_flight r w) (y_rest s) -> fd_tables (y_rest s) !! d = Some t -> (a < b < MAX_FDS)%nat ->
  fd_file d a s = None -> fd_file d b s = None -> balanced (put_fd d b (Some w) c (put_fd d a (Some r) c s)).
Proof.
  intros Ha Ht Hab Na Nb. assert (Ha1 : accounted (move_ref (Some w) 1 still) (y_rest (put_fd d a (Some r) c s))).
  { apply (fill_slot _ s d a t); [|done|done|lia]. revert Ha. apply accounted_ext; try done. intros k. cbn [fl_refs move_ref still pair_flight]. lia. }
  eapply fill_slot; [exact Ha1|by apply put_fd_tables| |lia]. by rewrite put_fd_other by lia.
Qed.

(** A new file is another slot than any used one. *)
Lemma alloc_other (s s' : sys) i j f :
  get_file s i = Some f -> f_used f = true -> cell_alloc_open_file s = (Some j, s') -> i <> j /\ get_file s' i = Some f.
Proof.
  intros Hf Hu. unfold cell_alloc_open_file. destruct (first_from _ _ _) as [k|] eqn:E; [|done]. intros [= <- <-].
  assert (Hne : i <> k). { intros ->. apply first_from_Some in E as (_ & Hk & _). unfold file_is in Hk. by rewrite Hf, Hu in Hk. }
  split; [done|]. unfold get_file. cbn. by rewrite list_lookup_alter_ne.
Qed.

Lemma on_file_other i j g (s : sys) : i <> j -> get_file (on_file i g s) j = get_file s j.
Proof. intros Hne. unfold get_file. cbn. by rewrite list_lookup_alter_ne. Qed.

(** The two new files of [pipe2] become the ends of its pipe. *)
Lemma open_pair (s : sys) r w n p flags :
  accounted (pair_flight r w) (y_rest s) -> r <> w ->
  get_file s r = Some (set_f_refcount (set_f_used zero_file true) 1) -> get_file s w = Some (set_f_refcount (set_f_used zero_file true) 1) ->
  (n < PIPE_COUNT)%nat -> get_pipe s n = Some p -> p_used p = true ->
  let s' := cell_pipe_add_writer (Z.of_nat n) (cell_pipe_add_reader (Z.of_nat n) s) in
  accounted (pair_flight r w) (y_rest (on_file w (pipe_end flags (Z.of_nat n) true) (on_file r (pipe_end flags (Z.of_nat n) false) s'))).
Proof.
  intros Ha Hne Hr Hw Hn Hp Hu. destruct (accounted_add_end false _ s n p Ha Hn Hp Hu) as (Ha1 & p1 & Hp1 & Hu1); [intros; cbn; lia|].
  set (s1 := cell_pipe_add_reader (Z.of_nat n) s). change (add_end false (Z.of_nat n) s) with s1 in *.
  destruct (accounted_add_end true _ s1 n p1 Ha1 Hn Hp1 Hu1) as (Ha2 & p2 & Hp2 & Hu2); [intros w'; rewrite fl_move_end; cbn; destruct w'; lia|].
  change (add_end true (Z.of_nat n) s1) with (cell_pipe_add_writer (Z.of_nat n) s1) in *. cbv zeta. set (s2 := cell_pipe_add_writer (Z.of_nat n) s1) in *.
  assert (Hfiles : open_files (y_rest s2) = open_files (y_rest s)).
  { unfold s2, s1, cell_pipe_add_writer, cell_pipe_add_reader. by repeat destruct (pipe_for_id _ _) as [[? ?]|]. }
  assert (Hr2 : get_file s2 r = get_file s r) by (unfold get_file; by rewrite Hfiles).
  assert (Hw2 : get_file s2 w = get_file s w) by (unfold get_file; by rewrite Hfiles). rewrite Hr in Hr2. rewrite Hw in Hw2.
  set (s3 := on_file r _ s2). assert (Ha3 : accounted (move_end true n 1 (pair_flight r w)) (y_rest s3)).
  { apply (accounted_end_cancel _ _ false n 1). eapply (accounted_open_end _ s2 r _ _ false n p2); [|exact Hr2|done..|exact Hp2|exact Hu2].
    revert Ha2. apply accounted_ext; try done. intros w' k. cbn [fl_ends move_end]. lia. }
  assert (Hw3 : get_file s3 w = get_file s2 w) by (by apply on_file_other). rewrite Hw2 in Hw3.
  apply (accounted_end_cancel _ _ true n 1). eapply (accounted_open_end _ s3 w _ _ true n p2); [exact Ha3|exact Hw3|done..].
Qed.

(** Two files in a row: the second one is another slot. *)
Lemma alloc_pair (s s1 s2 : sys) r w :
  balanced s -> cell_alloc_open_file s = (Some r, s1) -> cell_alloc_open_file s1 = (Some w, s2) ->
  accounted (pair_flight r w) (y_rest s2) /\ r <> w /\ get_file s2 r = Some (set_f_refcount (set_f_used zero_file true) 1) /\
  get_file s2 w = Some (set_f_refcount (set_f_used zero_file true) 1) /\ fd_tables (y_rest s2) = fd_tables (y_rest s) /\
  pipes (y_rest s2) = pipes (y_rest s).
Proof.
  intros Ha E1 E2. destruct (accounted_alloc _ s s1 r Ha E1) as (Ha1 & Hr & T1 & P1).
  destruct (accounted_alloc _ s1 s2 w Ha1 E2) as (Ha2 & Hw & T2 & P2).
  destruct (alloc_other s1 s2 r w _ Hr eq_refl E2) as [Hne Hr2].
  split_and!; [done|done|done|done|congruence|congruence].
Qed.

Lemma release_one (s s' : sys) i : accounted (move_ref (Some i) 1 still) (y_rest s) -> cell_release_open_file (Some i) s = Some s' -> balanced s'.
Proof.
  intros Ha E. pose proof (refs_nonneg i (fd_tables (y_rest s))).
  destruct (accounted_release _ s s' i Ha settled_still) as [Ha' _]; [|done|by apply (accounted_cancel still _ (Some i))].
  rewrite net_move, one_at_eq. unfold net. change (fl_refs still i) with 0. lia.
Qed.

Lemma pipe2_balanced addr flags (s : sys) rc s' : balanced s -> seated s -> cell_fd_pipe2 addr flags s = Some (rc, s') -> balanced s'.
Proof.
  intros Ha Hs. unfold cell_fd_pipe2. destruct (negb _); [by intros [= <- <-]|].
  destruct (cell_current_domain_internal s) as [d|] eqn:Hd; [|by intros [= <- <-]]. destruct (Hs d Hd) as [t Ht]. cbv zeta.
  set (rf := cell_find_free_fd d 0 s). set (wf := if rf <? 0 then -1 else _).
  destruct ((rf <? 0) || (wf <? 0)) eqn:Hneg; [by intros [= <- <-]|]. apply orb_false_iff in Hneg as [Hrf%Z.ltb_ge Hwf%Z.ltb_ge].
  destruct (find_free_spec d 0 s rf eq_refl Hrf) as [Lr Nr]. unfold wf in Hwf. rewrite (proj2 (Z.ltb_ge rf 0)) in Hwf by lia.
  destruct (find_free_spec d _ s _ eq_refl Hwf) as [Lw Nw]. assert (Ew : wf = cell_find_free_fd d (Z.to_nat (rf + 1)) s) by (unfold wf; by rewrite (proj2 (Z.ltb_ge rf 0))).
  destruct (cell_alloc_pipe_obj 0 s) as [n s1] eqn:E1. destruct (accounted_alloc_pipe still s s1 0 n Ha settled_still E1) as (Ha1 & _ & T1 & Hn).
  destruct (Z.ltb_spec n 0) as [|Hn0]; [by intros [= <- <-]|]. destruct Hn as [|(k & p & -> & Hk & Hp & Hu)]; [lia|].
  destruct (cell_alloc_open_file s1) as [[r|] s2] eqn:E2.
  2: { apply alloc_none in E2 as ->. destruct (cell_alloc_open_file s1) as [[w|] s3] eqn:E3; change (cell_release_open_file None s3) with (Some s3); cbn [obind].
       - destruct (accounted_alloc _ s1 s3 w Ha1 E3) as (Ha3 & _). unfold obind. destruct (cell_release_open_file (Some w) s3) as [s4|] eqn:E4; [|done].
         intros [= <- <-]. by eapply release_one.
       - apply alloc_none in E3 as ->. change (cell_release_open_file None s1) with (Some s1). by intros [= <- <-]. }
  destruct (cell_alloc_open_file s2) as [[w|] s3] eqn:E3.
  2: { apply alloc_none in E3 as ->. destruct (accounted_alloc _ s1 s2 r Ha1 E2) as (Ha2 & _). unfold obind.
       destruct (cell_release_open_file (Some r) s2) as [s4|] eqn:E4; [|done]. change (cell_release_open_file None s4) with (Some s4). intros [= <- <-]. by eapply release_one. }
  destruct (alloc_pair s1 s2 s3 r w Ha1 E2 E3) as (Ha3 & Hne & Hr & Hw & T3 & P3).
  pose proof (open_pair s3 r w k p flags Ha3 Hne Hr Hw Hk ltac:(unfold get_pipe; by rewrite P3) Hu) as Ha4. cbv zeta in Ha4.
  set (s4 := on_file w _ _) in *. unfold obind. destruct (cell_domain_as (Some d) (y_k s4)) as [as_|]; [|done].
  destruct (copy_value_out as_ addr _ 8 s4) as [[ok s5]|] eqn:E5; [|done]. apply copy_out_rest in E5. rewrite <- E5 in Ha4.
  assert (T5 : fd_tables (y_rest s5) = fd_tables (y_rest s)).
  { rewrite E5, <- T1, <- T3. unfold s4, cell_pipe_add_writer, cell_pipe_add_reader. by repeat destruct (pipe_for_id _ _) as [[? ?]|]. }
  destruct ok; cbn [negb].
  - intros [= <- <-]. apply (fill_pair s5 d t r w); [done|by rewrite T5|rewrite Ew; lia|by rewrite (fd_file_tables s)|rewrite Ew; by rewrite (fd_file_tables s)].
  - destruct (cell_release_open_file (Some r) s5) as [s6|] eqn:E6; [|done]. destruct (cell_release_open_file (Some w) s6) as [s7|] eqn:E7; [|done].
    intros [= <- <-]. by eapply release_pair.
Qed.

(** ** Files and named pipes *)

Lemma on_file_twice i g1 g2 (s : sys) : y_rest (on_file i g2 (on_file i g1 s)) = y_rest (on_file i (fun f => g2 (g1 f)) s).
Proof. cbn. by rewrite list_alter_alter_eq. Qed.

Lemma retain_node_rest i (s : sys) : y_rest (retain_node_of i s) = y_rest s.
Proof. unfold retain_node_of. by destruct (get_file s i). Qed.

Lemma on_file_rest i g (s s' : sys) : y_rest s' = y_rest s -> y_rest (on_file i g s') = y_rest (on_file i g s).
Proof. intros E. cbn. by rewrite E. Qed.

Lemma copy_path_account path f : same_account f (cell_copy_open_path path f).
Proof. by destruct path. Qed.

Lemma fifo_pipe_balanced ino create (s s' : sys) n :
  balanced s -> cell_fifo_pipe_for_ino ino create s = (n, s') ->
  balanced s' /\ fd_tables (y_rest s') = fd_tables (y_rest s) /\
  (n < 0 \/ exists i p, n = Z.of_nat i /\ (i < PIPE_COUNT)%nat /\ get_pipe s' i = Some p /\ p_used p = true).
Proof.
  intros Ha. unfold cell_fifo_pipe_for_ino. destruct (ino =? 0); [intros [= <- <-]; split; [done|]; split; [done|]; left; lia|].
  destruct (first_from _ _ _) as [i|] eqn:E.
  - intros [= <- <-]. split; [done|]. split; [done|]. right. apply first_from_Some in E as (Hi & Hp & _). unfold pipe_is in Hp.
    destruct (get_pipe s i) as [p|] eqn:Hgp; [|done]. apply andb_prop in Hp as [Hu _]. exists i, p. split_and!; [done|lia|done|done].
  - destruct create; [|intros [= <- <-]; split; [done|]; split; [done|]; left; lia]. intros E1.
    destruct (accounted_alloc_pipe still s s' ino n Ha settled_still E1) as (Ha1 & _ & T1 & Hn). done.
Qed.

Lemma fifo_balanced d node flags path (s : sys) t rc s' :
  balanced s -> fd_tables (y_rest s) !! d = Some t -> open_fifo d node flags path s = Some (rc, s') -> balanced s'.
Proof.
  intros Ha Ht. unfold open_fifo. destruct (cell_fifo_pipe_for_ino _ true s) as [n s1] eqn:E1.
  destruct (fifo_pipe_balanced _ _ _ _ _ Ha E1) as (Ha1 & T1 & Hn). destruct (Z.ltb_spec n 0); [by intros [= <- <-]|].
  destruct Hn as [|(k & p & -> & Hk & Hp & Hu)]; [lia|]. cbv zeta. set (w := flags .& CELL_O_ACCMODE =? CELL_O_WRONLY).
  destruct (_ && _); [by intros [= <- <-]|]. destruct (Z.ltb_spec (cell_find_free_fd d 0 s1) 0) as [|Hfd]; [by intros [= <- <-]|].
  destruct (find_free_spec d 0 s1 _ eq_refl Hfd) as [Lf Nf]. set (fd := cell_find_free_fd d 0 s1) in *.
  destruct (cell_alloc_open_file s1) as [[i|] s2] eqn:E2; [|apply alloc_none in E2 as ->; by intros [= <- <-]].
  destruct (accounted_alloc _ s1 s2 i Ha1 E2) as (Ha2 & Hf & T2 & P2). set (g1 := fun f => set_f_node _ node). set (g2 := fun f => set_pipe_write_end _ w).
  set (s3 := on_file i g2 _). assert (E3 : y_rest s3 = y_rest (on_file i (fun f => g2 (g1 f)) s2)).
  { rewrite <- on_file_twice. apply on_file_rest, retain_node_rest. }
  assert (Hpath : forall f, same_account f (cell_copy_open_path path f)) by (intros; apply copy_path_account).
  assert (Ha3 : accounted (move_end w k (-1) (move_ref (Some i) 1 still)) (y_rest s3)).
  { rewrite E3. destruct (Hpath (g1 (set_f_refcount (set_f_used zero_file true) 1))) as (A1 & A2 & A3 & _).
    eapply (accounted_open_end _ s2 i _ _ w k p); [exact Ha2|exact Hf|done|done|exact A1|exact A2|exact A3|done|done| |done].
    unfold get_pipe. by rewrite P2. }
  assert (Hp3 : get_pipe s3 k = Some p) by (unfold get_pipe; rewrite E3; cbn; by rewrite P2).
  destruct (accounted_add_end w _ s3 k p Ha3 Hk Hp3 Hu) as (Ha4 & _).
  { intros w'. rewrite fl_move_end. cbn. destruct (Bool.eqb w w'); lia. }
  set (s4 := if w then _ else _). change (add_end w (Z.of_nat k) s3) with s4 in Ha4. apply (accounted_end_cancel _ _ w k (-1)) in Ha4.
  assert (T4 : fd_tables (y_rest s4) = fd_tables (y_rest s1)).
  { rewrite <- T2. transitivity (fd_tables (y_rest s3)); [|by rewrite E3]. unfold s4, cell_pipe_add_writer, cell_pipe_add_reader.
    by destruct w, (pipe_for_id _ s3) as [[? ?]|]. }
  unfold obind. destruct (cell_pipe_notify _) as [s5|] eqn:E5; [|done]. intros [= <- <-]. apply notify_smooth in E5.
  eapply accounted_smooth; [exact E5|]. apply (fill_slot still s4 d _ t); [done|by rewrite T4, T1|by rewrite (fd_file_tables s1)|lia].
Qed.

Lemma open_node_balanced node flags path (s : sys) rc s' :
  balanced s -> seated s -> device node <> RAMFS_DEV_PTMX -> device node <> RAMFS_DEV_PTS ->
  cell_fd_open_node node flags path s = Some (rc, s') -> balanced s'.
Proof.
  intros Ha Hs Hd1 Hd2. unfold cell_fd_open_node. destruct (cell_current_domain_internal s) as [d|] eqn:Hd; [|by intros [= <- <-]].
  destruct (Hs d Hd) as [t Ht]. rewrite (proj2 (Z.eqb_neq _ _) Hd1), (proj2 (Z.eqb_neq _ _) Hd2).
  destruct (_ =? CELL_S_IFIFO); [by apply (fifo_balanced d node flags path s t)|]. cbv zeta.
  destruct (Z.ltb_spec (cell_find_free_fd d 0 s) 0) as [|Hfd]; [by intros [= <- <-]|].
  destruct (find_free_spec d 0 s _ eq_refl Hfd) as [Lf Nf].
  destruct (cell_alloc_open_file s) as [[i|] s2] eqn:E2; [|apply alloc_none in E2 as ->; by intros [= <- <-]].
  destruct (accounted_alloc _ s s2 i Ha E2) as (Ha2 & Hf & T2 & P2). set (g1 := fun f => set_f_node _ node).
  set (g2 := fun f => if negb _ then _ else cell_copy_open_path path f). set (s3 := on_file i g2 _). intros [= <- <-].
  assert (E3 : y_rest s3 = y_rest (on_file i (fun f => g2 (g1 f)) s2)).
  { rewrite <- on_file_twice. apply on_file_rest, retain_node_rest. }
  apply (fill_slot still s3 d _ t); [|rewrite E3; cbn; by rewrite T2|rewrite (fd_file_tables s); [done|by rewrite E3]|lia].
  rewrite E3. destruct (copy_path_account path (g1 (set_f_refcount (set_f_used zero_file true) 1))) as (A1 & A2 & A3 & _).
  assert (Hg : forall f, f_used (g2 f) = f_used (cell_copy_open_path path f) /\ f_refcount (g2 f) = f_refcount (cell_copy_open_path path f) /\
    f_type (g2 f) = f_type (cell_copy_open_path path f)) by (intros f; unfold g2; by destruct (negb _)).
  destruct (Hg (g1 (set_f_refcount (set_f_used zero_file true) 1))) as (B1 & B2 & B3).
  eapply accounted_retype; [exact Ha2|exact Hf|done|exact (eq_trans B1 A1)|exact (eq_trans B2 A2)|by rewrite B3, A3|by rewrite B3, A3].
Qed.

(** ** The standard streams *)

Lemma fill_three (s : sys) d t i o e :
  accounted (move_ref (Some e) 1 (pair_flight i o)) (y_rest s) -> fd_tables (y_rest s) !! d = Some t ->
  (forall k, (k < 3)%nat -> fd_file d k s = None) ->
  balanced (put_fd d 2 (Some e) 0 (put_fd d 1 (Some o) 0 (put_fd d 0 (Some i) 0 s))).
Proof.
  intros Ha Ht Hn. set (s1 := put_fd d 0 (Some i) 0 s).
  assert (Ha1 : accounted (pair_flight o e) (y_rest s1)).
  { apply (fill_slot _ s d 0 t); [|done|apply Hn; lia|unfold MAX_FDS; lia]. revert Ha. apply accounted_ext; try done.
    intros k. cbn [fl_refs move_ref still pair_flight]. lia. }
  apply (put_fd_tables s d 0 t (Some i) 0) in Ht. fold s1 in Ht.
  set (s2 := put_fd d 1 (Some o) 0 s1). assert (Ha2 : accounted (move_ref (Some e) 1 still) (y_rest s2)).
  { eapply (fill_slot _ s1 d 1); [|exact Ht|unfold s1; rewrite put_fd_other by done; apply Hn; lia|unfold MAX_FDS; lia].
    revert Ha1. apply accounted_ext; try done. intros k. cbn [fl_refs move_ref still pair_flight]. lia. }
  eapply (fill_slot still s2 d 2); [done|unfold s2; by apply put_fd_tables| |unfold MAX_FDS; lia].
  unfold s2, s1. rewrite !put_fd_other by done. apply Hn. lia.
Qed.

(** A new file of the console. *)
Lemma console_file F (s : sys) i ty :
  accounted F (y_rest s) -> get_file s i = Some (set_f_refcount (set_f_used zero_file true) 1) -> plain ty = true -> ty <> OPEN_PIPE ->
  accounted F (y_rest (on_file i (fun f => cell_copy_open_path (Some "/dev/console"%string) (set_f_type f ty)) s)).
Proof. intros Ha Hf Hp Ht. by eapply accounted_retype. Qed.

Lemma stdio_balanced d (s : sys) t ok s' :
  balanced s -> fd_tables (y_rest s) !! d = Some t -> (forall k, (k < 3)%nat -> fd_file d k s = None) ->
  cell_init_stdio d s = Some (ok, s') -> balanced s'.
Proof.
  intros Ha Ht Hn. unfold cell_init_stdio. destruct (cell_alloc_open_file s) as [[i|] s1] eqn:E1.
  2: { pose proof (alloc_none _ _ E1) as ->. rewrite E1, E1. change (cell_release_open_file None s) with (Some s). by intros [= <- <-]. }
  destruct (accounted_alloc _ s s1 i Ha E1) as (Ha1 & Hi & T1 & _). destruct (cell_alloc_open_file s1) as [[o|] s2] eqn:E2.
  2: { pose proof (alloc_none _ _ E2) as ->. rewrite E2. unfold obind. destruct (cell_release_open_file (Some i) s1) as [s3|] eqn:E3; [|done].
       change (cell_release_open_file None s3) with (Some s3). cbv beta iota. change (cell_release_open_file None s3) with (Some s3).
       intros [= <- <-]. by eapply release_one. }
  destruct (accounted_alloc _ s1 s2 o Ha1 E2) as (Ha2 & Ho & T2 & _). destruct (alloc_other _ _ _ _ _ Hi eq_refl E2) as [Nio Hi2].
  destruct (cell_alloc_open_file s2) as [[e|] s3] eqn:E3.
  2: { pose proof (alloc_none _ _ E3) as ->. unfold obind. destruct (cell_release_open_file (Some i) s2) as [s3|] eqn:E4; [|done].
       destruct (cell_release_open_file (Some o) s3) as [s4|] eqn:E5; [|done]. change (cell_release_open_file None s4) with (Some s4).
       intros [= <- <-]. by eapply release_pair. }
  destruct (accounted_alloc _ s2 s3 e Ha2 E3) as (Ha3 & He & T3 & _). destruct (alloc_other _ _ _ _ _ Hi2 eq_refl E3) as [Nie Hi3].
  destruct (alloc_other _ _ _ _ _ Ho eq_refl E3) as [Noe Ho3]. cbv zeta. intros [= <- <-].
  set (s4 := on_file i _ s3). assert (Ha4 : accounted (move_ref (Some e) 1 (pair_flight i o)) (y_rest s4)) by (by apply console_file).
  set (s5 := on_file o _ s4). assert (Ha5 : accounted (move_ref (Some e) 1 (pair_flight i o)) (y_rest s5)).
  { apply console_file; [done| |done|done]. unfold s4. by rewrite on_file_other. }
  set (s6 := on_file e _ s5). assert (Ha6 : accounted (move_ref (Some e) 1 (pair_flight i o)) (y_rest s6)).
  { apply console_file; [done| |done|done]. unfold s5, s4. by rewrite !on_file_other. }
  assert (T6 : fd_tables (y_rest s6) = fd_tables (y_rest s)) by (transitivity (fd_tables (y_rest s3)); [done|congruence]).
  assert (N6 : forall k, (k < 3)%nat -> fd_file d k s6 = None) by (intros; rewrite (fd_file_tables s); auto).
  rewrite <- T6 in Ht. clearbody s6. clear - Ha6 Ht N6. apply (fill_three s6 d t i o e); auto.
Qed.

(** ** Descriptors that are in use *)

Lemma current_fd_spec fd (s : sys) d i :
  current_fd fd s = Some (d, i) -> 0 <= fd < Z.of_nat MAX_FDS /\ fd_file d (Z.to_nat fd) s = Some i /\ cell_current_domain_internal s = Some d.
Proof.
  unfold current_fd, obind. destruct (cell_current_domain_internal s) as [d'|]; [|done].
  destruct ((fd <? 0) || _) eqn:Hr; [done|]. apply orb_false_iff in Hr as [?%Z.ltb_ge ?%Z.leb_gt].
  destruct (fd_file d' _ s) eqn:E; [|done]. intros [= <- <-]. by split_and!.
Qed.

Lemma fd_file_table (s : sys) d fd i : fd_file d fd s = Some i -> exists t, fd_tables (y_rest s) !! d = Some t.
Proof. unfold fd_file, obind. destruct (fd_tables (y_rest s) !! d) as [t|]; [by exists t|done]. Qed.

Lemma dup_balanced oldfd minfd (s : sys) : balanced s -> balanced (cell_fd_dup oldfd minfd s).2.
Proof.
  intros Ha. unfold cell_fd_dup. destruct (current_fd oldfd s) as [[d i]|] eqn:E; [|done]. apply current_fd_spec in E as (_ & Hi & _).
  destruct (_ || _); [done|]. cbv zeta. destruct (Z.ltb_spec (cell_find_free_fd d (Z.to_nat minfd) s) 0); [done|].
  destruct (find_free_spec d _ s _ eq_refl ltac:(eassumption)) as [Hl Hn]. destruct (fd_file_table s _ _ _ Hi) as [t Ht].
  apply (share_slot s d _ t i); [done|done|done|lia|]. by eapply fd_file_refs.
Qed.

Lemma dup3_balanced oldfd newfd flags (s : sys) rc s' : balanced s -> cell_fd_dup3 oldfd newfd flags s = Some (rc, s') -> balanced s'.
Proof.
  intros Ha. unfold cell_fd_dup3. destruct (negb _); [by intros [= <- <-]|].
  destruct (current_fd oldfd s) as [[d i]|] eqn:E; [|by intros [= <- <-]]. apply current_fd_spec in E as (_ & Hi & _).
  destruct ((newfd <? 0) || _) eqn:Hr; [by intros [= <- <-]|]. apply orb_false_iff in Hr as [?%Z.ltb_ge ?%Z.leb_gt].
  destruct (oldfd =? newfd); [by intros [= <- <-]|]. cbv zeta. set (s1 := cell_retain_open_file (Some i) s). unfold obind.
  destruct (cell_release_open_file _ s1) as [s2|] eqn:Er; [|done]. intros [= <- <-]. destruct (fd_file_table s _ _ _ Hi) as [t Ht].
  apply (replace_slot s1 s2 d _ t); [|done|lia|done]. apply accounted_retain; [done| |cbn; lia].
  unfold net. change (fl_refs still i) with 0. apply fd_file_refs in Hi. lia.
Qed.

Lemma close_balanced fd (s : sys) rc s' : balanced s -> cell_fd_close fd s = Some (rc, s') -> balanced s'.
Proof.
  intros Ha. unfold cell_fd_close. destruct (current_fd fd s) as [[d i]|] eqn:E; [|by intros [= <- <-]].
  apply current_fd_spec in E as (Hr & Hi & _). unfold obind. destruct (cell_release_open_file (Some i) s) as [s1|] eqn:Er; [|done].
  intros [= <- <-]. apply (close_slot still s s1); [done|done|done|lia|by rewrite Hi].
Qed.

Lemma set_fd_flags_balanced fd flags (s : sys) : balanced s -> balanced (cell_fd_set_fd_flags fd flags s).2.
Proof.
  intros Ha. unfold cell_fd_set_fd_flags. destruct (current_fd fd s) as [[d i]|] eqn:E; [|done]. apply current_fd_spec in E as (Hr & Hi & _).
  destruct (slot_cases s d (Z.to_nat fd) still Ha ltac:(lia)) as [[_ Hn]|(t & Ht & Hs)]; [congruence|]. rewrite Hi in Hs.
  apply (accounted_cancel' still _ (Some i)). pose proof (accounted_put_fd still s d _ t (Some i) (Some i) (if negb (flags .& 1 =? 0) then 1 else 0) Ha Ht Hs) as Hp.
  revert Hp. apply accounted_ext; try done. intros k. cbn [fl_refs move_ref still]. unfold one_at. case_bool_decide; lia.
Qed.

(** ** Changes that are not counted *)

Lemma set_flags_balanced fd flags (s : sys) : balanced s -> balanced (cell_fd_set_flags fd flags s).2.
Proof. intros Ha. unfold cell_fd_set_flags. destruct (current_fd fd s) as [[d i]|]; [|done]. by apply accounted_same. Qed.

Lemma rewind_balanced fd (s : sys) : balanced s -> balanced (cell_fd_rewind_one_dirent fd s).
Proof.
  intros Ha. unfold cell_fd_rewind_one_dirent. destruct (current_fd fd s) as [[d i]|]; [|done]. apply accounted_same; [done|].
  intros f _. by destruct (0 <? f_offset f).
Qed.

Lemma dir_offset_balanced fd off (s : sys) : balanced s -> balanced (cell_fd_set_dir_offset fd off s).
Proof. intros Ha. unfold cell_fd_set_dir_offset. destruct (current_fd fd s) as [[d i]|]; [|done]. by apply accounted_same. Qed.

Lemma lseek_balanced fd off whence (s : sys) rc s' : balanced s -> cell_fd_lseek fd off whence s = Some (rc, s') -> balanced s'.
Proof.
  intros Ha. unfold cell_fd_lseek. destruct (current_fd fd s) as [[d i]|]; [|by intros [= <- <-]]. unfold obind.
  destruct (get_file s i) as [f|]; [|done]. cbv zeta. destruct (if whence =? 0 then _ else _) as [base|]; [|by intros [= <- <-]].
  destruct (_ <? 0); intros [= <- <-]; [done|]. by apply accounted_same.
Qed.

Lemma add_watch_account path mask f : same_account f (add_watch path mask f).2.
Proof.
  unfold add_watch. destruct (watch_at f _) as [k|]; [by destruct (inotify_watches f !! k)|]. destruct (watch_at f _) as [k|]; [|done].
  cbv zeta. by destruct (_ || _).
Qed.

Lemma watch_balanced fd path mask (s : sys) : balanced s -> balanced (cell_fd_inotify_add_watch fd path mask s).2.
Proof.
  intros Ha. unfold cell_fd_inotify_add_watch. destruct path as [path|]; [|done]. destruct (obind _ _) as [[i f]|] eqn:E; [|done].
  destruct (negb _); [done|]. destruct (mask =? 0); [done|]. pose proof (add_watch_account path mask f) as Hw.
  destruct (add_watch path mask f) as [rc f']. cbn [snd] in *. apply accounted_same; [done|]. intros f0 Hf0. revert E. unfold obind.
  destruct (current_fd fd s) as [[d j]|]; [|done]. destruct (get_file s j) eqn:Hj; [|done]. intros [= -> ->]. congruence.
Qed.

Lemma unwatch_balanced fd n (s : sys) : balanced s -> balanced (cell_fd_inotify_rm_watch fd n s).2.
Proof.
  intros Ha. unfold cell_fd_inotify_rm_watch. destruct (obind _ _) as [[i f]|]; [|done].
  destruct (negb _); [done|]. destruct (n <=? 0); [done|]. destruct (watch_at _ _); [|done]. by apply accounted_same.
Qed.

Lemma event_write_balanced d i buf len (s : sys) rc s' :
  balanced s -> cell_eventfd_write_from_domain d i buf len s = Some (rc, s') -> balanced s'.
Proof.
  intros Ha. unfold cell_eventfd_write_from_domain. destruct (len <? 8); [by intros [= <- <-]|]. unfold obind.
  destruct (cell_domain_as _ _) as [as_|]; [|done]. destruct (copy_value_in as_ buf 8 s) as [[[ok add] s1]|] eqn:E; [|done].
  apply copy_in_rest in E. assert (Ha1 : balanced s1) by (unfold balanced; by rewrite E).
  destruct ok; cbn [negb]; [|by intros [= <- <-]]. destruct (get_file s1 i) as [f|]; [|done].
  destruct (_ || _); intros [= <- <-]; [done|]. eapply accounted_smooth; [apply smooth_poll|]. by apply accounted_same.
Qed.

Lemma event_read_balanced d i buf len (s : sys) rc s' :
  balanced s -> cell_eventfd_read_to_domain d i buf len s = Some (rc, s') -> balanced s'.
Proof.
  intros Ha. unfold cell_eventfd_read_to_domain. destruct (len <? 8); [by intros [= <- <-]|]. unfold obind.
  destruct (get_file s i) as [f|]; [|done]. destruct (_ =? 0); [by intros [= <- <-]|]. cbv zeta. set (s1 := on_file i _ s).
  assert (Ha1 : balanced s1) by (by apply accounted_same). destruct (cell_domain_as _ _) as [as_|]; [|done].
  destruct (copy_value_out as_ buf _ 8 s1) as [[ok s2]|] eqn:E; [|done]. apply copy_out_rest in E.
  assert (Ha2 : balanced s2) by (unfold balanced; by rewrite E). destruct ok; intros [= <- <-]; [|done].
  eapply accounted_smooth; [apply smooth_poll|done].
Qed.
End Spec.

End FdCalls.
