(* ===== verification/FdSample.v ===== *)
(** Two processes with descriptors: the theorems about descriptors are applied to
    them. Sockets, terminals and polling are left out. *)

From Stdlib Require Import ZArith Lia.
From stdpp Require Import base numbers list option strings relations.
From S2P Require Import Prelude Mem Pmm Iface Vma Vmm VmmSpec Policy Memory MemorySpec Thread Domain Reap Sched Futex Process SchedInv ReapInv SchedSample Files Pipe Fd PipeInv.
Import Vma Pmm Vmm VmmSpec Memory MemorySpec Thread Domain Reap SchedSample Files Pipe Fd.

#[local] Open Scope Z_scope.
#[local] Open Scope c_scope.

Module FdSample.

#[export] Instance plain_files : FileHost zeros unit := {|
  release_rights _ s := s;
  wake_poll_waiters s := s;
  socket_wake_file _ s := s;
  socket_release_listener _ s := s;
  socket_release_file _ s := s;
  pty_release_file _ s := s;
  clear_file _ b := b;
|}.

#[export, refine] Instance plain_files_laws : FileLaws zeros unit := {| no_rights _ := True |}.
Proof. all: intros; try done; try apply quiet_refl. by destruct s as [? ? ? ? ? ? ? ? ? ? []]. Defined.

#[export] Instance plain_nodes : NodeHost zeros unit := {|
  pty_open_master _ _ s := (-19, s);
  pty_id_from_path _ := -19;
  pty_open_slave _ _ _ s := (-19, s);
  vfs_refresh _ _ := None;
|}.

(** Two domains, [n] open files, nothing in use. *)
Definition empty_tables (n : nat) : tables unit :=
  mk_tables (replicate PIPE_COUNT zero_pipe) false (Some 0x400000) (replicate n zero_file) [zero_fds; zero_fds] tt.

(** Thread 0 of domain 0 runs; [k] is the memory. *)
Definition start_on (k : kst (V := zeros)) (n : nat) : sys (V := zeros) (A := tables unit) :=
  mk_sys k [domain_entry 1 0 false; domain_entry 2 1 false] (Some 0x200000) 3 (Some 0x300000)
    [runnable 1 0 0; runnable 2 (-1) 1] 3 [mk_cpu (Some 0%nat) false zero_fp 0] 0 100 (empty_tables n).

Definition start : nat -> sys (V := zeros) (A := tables unit) := start_on (processes m0 no_as no_as vma_list_init).

(** A named pipe of the file system. *)
Definition fifo_node : vfs_node := mk_vfs_node VFS_RAMFS 5 false true 0 0x11a4 0 0 3.

End FdSample.
