(* ===== verification/PipeSpec.v ===== *)
(** A pipe is a queue of bytes: what a write appends and what a read takes, whoever
    is woken afterwards. *)

From Stdlib Require Import ZArith Lia.
From stdpp Require Import base numbers list option strings gmap fin_maps.
From S2P Require Import Prelude Mem Pmm PmmSpec Iface Vma VmaInv Vmm VmmInv VmmOps VmmCow VmmCopy VmmSpec Memory MemoryInv MemoryOps MemorySpec Thread Domain Reap SchedSample Files Pipe Fd PipeFifo FdSample.
Import Vma Pmm Vmm Memory MemoryOps Thread Domain Reap Files Pipe PipeFifo.

#[local] Open Scope Z_scope.
#[local] Open Scope c_scope.

Module PipeSpec.

Section Spec.
Context {V B : Type} `{HL : StoreLaws V} `{HF : !FileHost V B}.
#[local] Notation sys := (sys (V := V) (A := tables B)).

Definition machine_of (s : sys) : machine := (s_world s).1.

(** The domain [d] runs in address space [m] and uses pipe [i]. *)
Record at_pipe (s : sys) (T L : gmap (list Z) Z) (X : Z -> Z) (d m : nat) (n : Z) (i : nat) (p : pipe_obj) : Prop := {
  ap_sys : Sys (k_now s) T L X;
  ap_current : cell_current_domain_internal s = Some d;
  ap_owns : exists x, owns (k_now s) (Some d) m x;
  ap_pipe : pipe_for_id n s = Some (i, p);
  ap_ring : ring_ok L X p;
}.

(** The queue is [l] and the ring is intact, in the memory of [s]. *)
Definition queue (s : sys) (i : nat) (L : gmap (list Z) Z) (l : list Z) : Prop :=
  exists p T U, get_pipe s i = Some p /\ VmmInv.Inv (machine_of s) T L U /\ ring_ok L U p /\ contents (machine_of s) p = l.

(** The range of user memory at [buf] shows the bytes [data]. *)
Definition shows (s : sys) (L : gmap (list Z) Z) (m : nat) (buf : Z) (data : list Z) : Prop :=
  forall k v, data !! k = Some v -> ubyte (machine_of s) L (Z.of_nat m) (buf + Z.of_nat k) = Some v.

(** After the check of the user range: the pipe has its pages and bytes. *)
Lemma ensured_ring s T L X d m n i p k' T' L' X' P :
  at_pipe s T L X d m n i p -> ensured (k_now s) T L X m P k' T' L' X' ->
  let s' := set_y_k s k' in
  VmmInv.Inv (machine_of s') T' L' (held store_refs X' (k_world k').2) /\ ring_ok L' (held store_refs X' (k_world k').2) p /\
  contents (machine_of s') p = contents (machine_of s) p /\ get_pipe s' i = Some p /\
  exists as_, as_ok (machine_of s') T' (Z.of_nat m) as_ /\ cell_domain_as (Some d) (y_k s') = Some as_.
Proof.
  intros [HS Hcur [x Ho] Hp Hring] He s'. pose proof (es_sys _ _ _ _ _ _ _ _ _ _ He) as HS'.
  pose proof (sy_good _ _ _ _ HS) as HG. pose proof (g_inv _ _ _ _ HG) as HI. split; [exact (g_inv _ _ _ _ (sy_good _ _ _ _ HS'))|].
  assert (Hmono : ring_ok L (held store_refs X (k_world (k_now s)).2) p).
  { eapply ring_ok_mono; [exact Hring|]. intros pa Hx Hl. pose proof (held_le X (k_world (k_now s)).2 pa). split; [lia|done]. }
  split_and!.
  - eapply ring_ok_mono; [exact Hring|]. intros pa Hx Hl. pose proof (held_le X' (k_world k').2 pa).
    pose proof (es_held _ _ _ _ _ _ _ _ _ _ He pa). split; [lia|]. by apply (es_apart _ _ _ _ _ _ _ _ _ _ He).
  - apply (contents_same (machine_of s) _ T L _ p HI Hmono); [apply (es_cfg _ _ _ _ _ _ _ _ _ _ He)|].
    eapply Forall_impl; [exact (ro_held _ _ _ Hring)|]. intros pa (_ & Hx & _). exact (es_keep _ _ _ _ _ _ _ _ _ _ He pa Hx).
  - revert Hp. unfold pipe_for_id, obind. destruct (_ <=? n); [done|]. destruct (get_pipe s (Z.to_nat n)) as [q|] eqn:E; [|done].
    destruct (p_used q); [|done]. intros [= <- <-]. exact E.
  - destruct (ensured_owns _ _ _ _ _ _ _ _ _ _ _ _ He Ho) as (x' & Ho' & _). exists (mm_as x'). destruct Ho' as (O1 & O2 & O3).
    split; [exact (proj1 (sy_mm _ _ _ _ HS' m x' O2 O3))|]. exact (proj1 (owns_as _ _ _ _ (conj O1 (conj O2 O3)))).
Qed.

(** A new pipe is an empty queue. *)
Lemma new_pipe_ok (s s1 : sys) T L X n :
  Sys (k_now s) T L X -> length (pipes (y_rest s)) = PIPE_COUNT -> cell_alloc_pipe_obj 0 s = (n, s1) -> 0 <= n ->
  exists i p X', n = Z.of_nat i /\ (i < PIPE_COUNT)%nat /\ Sys (k_now s1) T L X' /\ get_pipe s1 i = Some p /\ p_used p = true /\
    ring_ok L X' p /\ len p = 0.
Proof.
  intros HS Hl. unfold cell_alloc_pipe_obj. destruct (first_from _ _ _) as [i|] eqn:Ei; [|intros [= <- <-]; lia].
  apply first_from_Some in Ei as (Hi & _ & _). destruct (pipe_alloc_storage zero_pipe (s_world s).1) as [[ok q] m] eqn:Es.
  destruct ok; cbn [negb]; [|intros [= <- <-]; lia]. intros [= <- <-] _. pose proof (sy_good _ _ _ _ HS) as HG.
  destruct (alloc_storage_good T L PIPE_PAGES 0 zero_pipe (k_world (k_now s)) X q m HG) as (X' & HG' & [Hcfg _] & Hlen & Hf & Hn);
    [done|apply Forall_nil_2|apply NoDup_nil_2|exact Es|].
  exists i, (mk_pipe true (0 =? 0) 0 0 0 (pages q) 0 0 0 0), X'. split; [done|]. split; [lia|]. split.
  { exact (sys_world (k_now s) T L X (m, (k_world (k_now s)).2) T L X' 0 HS HG' (grows_refl 0 T) Hcfg). }
  split; [unfold get_pipe; cbn; apply list_lookup_insert_eq; lia|]. split; [done|]. split; [|done]. by split.
Qed.

Section Transfer.
Context (notify : sys -> option sys).

(** What the calls do when the pipe is not in the way. *)
Lemma write_id_checked (s : sys) d n i p buf count b k' :
  pipe_for_id n s = Some (i, p) -> readers p <> 0 -> 0 < count -> len p < PIPE_CAP -> (PIPE_BUF < count \/ count <= PIPE_CAP - len p) ->
  cell_domain_ensure_user_range (Some d) buf (Z.min count (PIPE_CAP - len p)) VMM_ACCESS_READ (k_now s) = Some (b, k') ->
  write_id notify (Some d) n buf count s =
    if negb b then Some (- EFAULT, set_y_k s k') else
    let* r := iter (write_step (Some d) i buf (Z.min count (PIPE_CAP - len p))) (copy_fuel (Z.min count (PIPE_CAP - len p))) (0, set_y_k s k') in
    let* (ok, s1) := r in
    if negb ok then Some (- EFAULT, s1) else
    let* q := get_pipe s1 i in
    let* s2 := notify (put_pipe s1 i (set_write_offset q (u64 (write_offset q + Z.min count (PIPE_CAP - len p))))) in
    Some (Z.min count (PIPE_CAP - len p), s2).
Proof.
  intros Hp Hr Hcount Hroom Hatomic Ee. unfold write_id. rewrite (proj2 (Z.eqb_neq count 0)), Hp, (proj2 (Z.eqb_neq _ _) Hr) by lia. cbv zeta.
  assert (Hblock : (PIPE_CAP - len p =? 0) || ((count <=? PIPE_BUF) && (PIPE_CAP - len p <? count)) = false).
  { apply orb_false_iff. split; [apply Z.eqb_neq; lia|]. apply andb_false_iff. rewrite Z.leb_gt, Z.ltb_ge. lia. }
  rewrite Hblock. assert ((if count <? PIPE_CAP - len p then count else PIPE_CAP - len p) = Z.min count (PIPE_CAP - len p)) as -> by (zcases; lia).
  rewrite Ee. cbn [obind]. rewrite (proj2 (Z.eqb_neq (Z.min count (PIPE_CAP - len p)) 0)) by lia. done.
Qed.

Lemma read_id_checked (s : sys) d n i p buf count b k' :
  pipe_for_id n s = Some (i, p) -> 0 < count -> 0 < len p ->
  cell_domain_ensure_user_range (Some d) buf (Z.min count (len p)) VMM_ACCESS_WRITE (k_now s) = Some (b, k') ->
  read_id notify (Some d) n buf count s =
    if negb b then Some (- EFAULT, set_y_k s k') else
    let* r := iter (read_step (Some d) i buf (Z.min count (len p))) (copy_fuel (Z.min count (len p))) (0, set_y_k s k') in
    let* (ok, s1) := r in
    if negb ok then Some (- EFAULT, s1) else
    let* q := get_pipe s1 i in
    let* s2 := notify (put_pipe s1 i (set_read_offset q (u64 (read_offset q + Z.min count (len p))))) in
    Some (Z.min count (len p), s2).
Proof.
  intros Hp Hcount Hlen Ee. unfold read_id. rewrite (proj2 (Z.eqb_neq count 0)), Hp by lia. cbv zeta.
  assert ((if count <? len p then count else len p) = Z.min count (len p)) as -> by (zcases; lia).
  rewrite (proj2 (Z.eqb_neq (Z.min count (len p)) 0)) by lia. cbn [negb]. by rewrite Ee.
Qed.

(** C6: A write appends to the queue. When the pipe has a reader and room, the
    write of the running domain first makes the user range readable. If that
    fails, the call returns -EFAULT and the queue is as before. Otherwise
    the queue is the old one followed by the bytes of the user range, as many as
    asked for or as fit, before any waiter is woken; the call then returns their
    number. *)
Theorem pipe_write_appends (s : sys) T L X (d m : nat) (n buf count : Z) (i : nat) (p : pipe_obj) :
  at_pipe s T L X d m n i p -> readers p <> 0 -> 0 < count -> len p < PIPE_CAP -> (PIPE_BUF < count \/ count <= PIPE_CAP - len p) ->
  is_u64 buf -> buf + Z.min count (PIPE_CAP - len p) + PAGE_SIZE < 2 ^ 64 ->
  exists L' s1 data, queue s1 i L' (contents (machine_of s) p ++ data) /\ shows s1 L' m buf data /\
    (data = [] /\ write_id notify (Some d) n buf count s = Some (- EFAULT, s1) \/
     Z.of_nat (length data) = Z.min count (PIPE_CAP - len p) /\
     write_id notify (Some d) n buf count s = (let* s2 := notify s1 in Some (Z.of_nat (length data), s2))).
Proof.
  intros Hat Hr Hcount Hroom Hatomic Hbuf Hend. pose proof Hat as [HS Hcur [x Ho] Hp Hring]. set (target := Z.min count (PIPE_CAP - len p)) in *.
  pose proof (ro_len _ _ _ Hring) as Hlen. pose proof Hbuf as Hbuf'. unfold is_u64 in Hbuf'.
  assert (Hcap : PIPE_CAP < 2 ^ 64) by done. assert (Ht : 0 < target <= PIPE_CAP - len p) by (unfold target; lia).
  destruct (ensure_range_spec (k_now s) T L X d m x buf target VMM_ACCESS_READ HS Hcur Ho Hbuf ltac:(lia) ltac:(lia)) as (b & k' & T' & L' & X' & Ee & He & Hb).
  destruct (ensured_ring s T L X d m n i p k' T' L' X' _ Hat He) as (HI & Hring' & Hc & Hp' & as_ & Has & Hdom). set (s' := set_y_k s k') in *.
  pose proof (write_id_checked s d n i p buf count b k' Hp Hr Hcount Hroom Hatomic Ee) as Ew. fold target s' in Ew.
  destruct b; cbn [negb] in Ew.
  2: { exists L', s', []. rewrite app_nil_r. split; [exists p, T', (held store_refs X' (k_world k').2); by split_and!|].
       split; [intros k v; by rewrite lookup_nil|]. by left. }
  destruct (ring_write s' d i p T' L' _ (Z.of_nat m) as_ HI Has Hdom Hp' Hring' target buf ltac:(lia) ltac:(lia) Hbuf ltac:(unfold PAGE_SIZE in *; lia) (Hb eq_refl))
    as (mm & Eloop & HI' & Hub & Hold & Hnew).
  rewrite Eloop in Ew. cbn [obind negb] in Ew. rewrite (moved_pipe s' i p Hp') in Ew. cbn [obind] in Ew.
  set (q := set_write_offset _ _) in Ew. set (s1 := put_pipe _ i q) in Ew. change ((s_world s').1) with (machine_of s') in *.
  assert (Em : machine_of s1 = put_mem (machine_of s') mm) by done.
  set (data := bytes_of (fun k => mm (place (machine_of s') p (len p + k))) target). pose proof (bytes_length _ _ : length data = Z.to_nat target) as Hdl.
  exists L', s1, data. split_and!.
  - exists q, T', (held store_refs X' (k_world k').2). split.
    { unfold s1, get_pipe. cbn. apply list_lookup_insert_eq. rewrite length_insert. by eapply lookup_lt_Some. }
    rewrite Em. split; [done|]. split; [apply (ring_ok_moved _ _ p); [done|done|apply Hring|cbn; lia]|]. rewrite <- Hc.
    apply (contents_app (machine_of s') _ p q target); [done|done|done|done|lia|lia|lia|done|]. 
    exact (bytes_lookup (fun k => mm (place (machine_of s') p (len p + k))) target).
  - intros k v Hk. assert (Hlt : 0 <= Z.of_nat k < target) by (apply lookup_lt_Some in Hk; lia). rewrite Em, Hub, (Hnew _ Hlt). rewrite <- Hk. symmetry.
    rewrite <- (Nat2Z.id k) at 1. exact (bytes_lookup (fun k => mm (place (machine_of s') p (len p + k))) target _ Hlt).
  - right. split; [lia|]. rewrite Ew. rewrite Hdl, Z2Nat.id by lia. done.
Qed.

End Transfer.
End Spec.

(** ** Two processes *)

Import MemorySpec SchedSample FdSample.

#[local] Notation state := (sys (V := zeros) (A := tables unit)).

(** A pipe in pages that the kernel keeps, with a reader and [n] bytes in it. *)
Definition low_pages : list Z := (fun k => PAGE_SIZE * Z.of_nat (S k)) <$> seq 0 PIPE_PAGES.
Definition low_pipe (n : Z) : pipe_obj := mk_pipe true true 1 1 0 low_pages 0 n 0 0.
Definition piped (n : Z) : state := put_pipe (start_on (two_processes vma_list_init) 2) 0 (low_pipe n).

Lemma low_pages_held : forallb (fun pa => (rc m0 pa =? 1) && (rc m6 pa =? 1) && negb (pa =? 0)) low_pages = true.
Proof. vm_compute. reflexivity. Qed.

Lemma piped_at n : 0 <= n <= PIPE_CAP -> exists T L X, at_pipe (piped n) T L X 0 1 0 0 (low_pipe n).
Proof.
  intros Hn. destruct sample_inv as (T & L & U & HI & A1 & A2 & _ & _ & _ & HU & _). exists T, L, U. split.
  - exact (processes_sys m6 as1 as2 vma_list_init T L U HI A1 A2 init_Inv).
  - done.
  - eexists. by split_and!.
  - done.
  - split; [done| |apply NoDup_fmap; [intros x y; unfold PAGE_SIZE; lia|apply NoDup_seq]|done|done].
    apply Forall_forall. intros pa Hpa. pose proof low_pages_held as Hh. rewrite forallb_forall in Hh.
    specialize (Hh pa (proj1 (list_elem_of_In _ _) Hpa)). apply andb_prop in Hh as [[H1%Z.eqb_eq H2%Z.eqb_eq]%andb_prop H3%negb_true_iff%Z.eqb_neq].
    pose proof (lcount_nonneg L pa). rewrite <- HU in H1. rewrite (used_rc m6 T L U pa HI) in H2 by lia. split; [done|]. split; lia.
Qed.

(** The range is mapped: the write succeeds. *)
Lemma piped_writes : option_map fst (write_id Some (Some 0%nat) 0 uva 5 (piped 0)) = Some 5.
Proof. vm_compute. reflexivity. Qed.

Lemma results_differ (x : option (Z * state)) s1 : option_map fst x = Some 5 -> x <> Some (- EFAULT, s1).
Proof. intros H E. subst x. discriminate H. Qed.

Lemma pipe_write_appends_witness :
  exists L' (s1 : state) data, queue s1 0 L' (contents (machine_of (piped 0)) (low_pipe 0) ++ data) /\ shows s1 L' 1 uva data /\ length data = 5%nat.
Proof.
  destruct (piped_at 0 ltac:(split; discriminate)) as (T & L & X & Hat).
  destruct (pipe_write_appends Some (piped 0) T L X 0 1 0 uva 5 0 (low_pipe 0) Hat ltac:(discriminate) ltac:(reflexivity)
    ltac:(reflexivity) ltac:(right; discriminate) ltac:(split; [discriminate|reflexivity]) ltac:(reflexivity)) as (L' & s1 & data & Hq & Hs & Hr).
  exists L', s1, data. split; [exact Hq|]. split; [exact Hs|]. destruct Hr as [[_ E]|[Hl _]].
  - destruct (results_differ _ s1 piped_writes E).
  - apply Nat2Z.inj. exact Hl.
Defined.


End PipeSpec.
