(* ===== verification/FdSpec.v ===== *)
(** What the descriptor code promises: the counts of open files and of the ends of
    pipes are exact after any sequence of calls, a domain that closes its
    descriptors ends the pipes it wrote to, and [pipe2] loses a pipe when it runs
    out of open files. *)

From Stdlib Require Import ZArith Lia Ascii String.
From stdpp Require Import base numbers list option relations.
From S2P Require Import Prelude Mem Pmm Iface Vma Vmm VmmSpec Policy Memory MemorySpec Thread Domain Reap Sched Futex Process SchedInv ReapInv SchedSample Files Pipe Fd PipeInv FdInv FdOps FdCalls FdSample.
Import Vma Pmm Vmm Memory Thread Domain Reap Files Pipe Fd FdCalls.

#[local] Open Scope Z_scope.
#[local] Open Scope c_scope.

Module FdSpec.

(** The calls that change descriptors, open files or pipes. *)
Inductive fd_call :=
  | CallEventfd (initval flags : Z)
  | CallInotify (flags : Z)
  | CallAddWatch (fd : Z) (path : option string) (mask : Z)
  | CallRmWatch (fd n : Z)
  | CallPipe2 (addr flags : Z)
  | CallOpen (node : vfs_node) (flags : Z) (path : option string)
  | CallSeek (fd off whence : Z)
  | CallDup (oldfd minfd : Z)
  | CallDup3 (oldfd newfd flags : Z)
  | CallSetFlags (fd flags : Z)
  | CallSetFdFlags (fd flags : Z)
  | CallRewind (fd : Z)
  | CallSetDirOffset (fd off : Z)
  | CallClose (fd : Z)
  | CallEventWrite (d i : nat) (buf len : Z)
  | CallEventRead (d i : nat) (buf len : Z)
  | CallPipeWrite (d : nat) (f : open_file) (buf count : Z)
  | CallPipeRead (d : nat) (f : open_file) (buf count : Z)
  | NewDomain
  | InitStdio (d : nat)
  | CopyTable (dst src : nat)
  | CloseOnExec (d : nat)
  | CloseAll (d : nat).

Section Spec.
Context {V B : Type} `{HQ : FileLaws V B} `{LB : LocalBuffer} `{NH : NodeHost V B}.
#[local] Notation sys := (sys (V := V) (A := tables B)).

Definition drop_result {X} (r : option (X * sys)) : option sys := let* (_, s) := r in Some s.

Definition perform (c : fd_call) (s : sys) : option sys :=
  match c with
  | CallEventfd initval flags => Some (cell_fd_eventfd initval flags s).2
  | CallInotify flags => Some (cell_fd_inotify_init1 flags s).2
  | CallAddWatch fd path mask => Some (cell_fd_inotify_add_watch fd path mask s).2
  | CallRmWatch fd n => Some (cell_fd_inotify_rm_watch fd n s).2
  | CallPipe2 addr flags => drop_result (cell_fd_pipe2 addr flags s)
  | CallOpen node flags path => drop_result (cell_fd_open_node node flags path s)
  | CallSeek fd off whence => drop_result (cell_fd_lseek fd off whence s)
  | CallDup oldfd minfd => Some (cell_fd_dup oldfd minfd s).2
  | CallDup3 oldfd newfd flags => drop_result (cell_fd_dup3 oldfd newfd flags s)
  | CallSetFlags fd flags => Some (cell_fd_set_flags fd flags s).2
  | CallSetFdFlags fd flags => Some (cell_fd_set_fd_flags fd flags s).2
  | CallRewind fd => Some (cell_fd_rewind_one_dirent fd s)
  | CallSetDirOffset fd off => Some (cell_fd_set_dir_offset fd off s)
  | CallClose fd => drop_result (cell_fd_close fd s)
  | CallEventWrite d i buf len => drop_result (cell_eventfd_write_from_domain d i buf len s)
  | CallEventRead d i buf len => drop_result (cell_eventfd_read_to_domain d i buf len s)
  | CallPipeWrite d f buf count => drop_result (cell_pipe_write_from_domain (Some d) (Some f) buf count s)
  | CallPipeRead d f buf count => drop_result (cell_pipe_read_to_domain (Some d) (Some f) buf count s)
  | NewDomain => Some (cell_alloc_domain s).2
  | InitStdio d => drop_result (cell_init_stdio d s)
  | CopyTable dst src => Some (cell_copy_fd_table dst src s)
  | CloseOnExec d => close_flagged d 0 MAX_FDS s
  | CloseAll d => cell_close_all_fds d s
  end.

(** The table of domain [d] exists and its first [n] descriptors are free. *)
Definition vacant (d n : nat) (s : sys) : Prop :=
  (exists t, fd_tables (y_rest s) !! d = Some t) /\ forall k, (k < n)%nat -> fd_file d k s = None.

(** When the kernel makes a call: terminals are not opened; a domain gets its
    streams, and the descriptors of its parent, while its table is empty, and the
    table of a free domain is empty. *)
Definition admissible (c : fd_call) (s : sys) : Prop :=
  match c with
  | CallEventfd _ _ | CallInotify _ | CallPipe2 _ _ => seated s
  | CallOpen node _ _ => seated s /\ device node <> RAMFS_DEV_PTMX /\ device node <> RAMFS_DEV_PTS
  | NewDomain => forall d, (cell_alloc_domain s).1 = Some d -> vacant d MAX_FDS s
  | InitStdio d => vacant d 3 s
  | CopyTable dst _ => vacant dst MAX_FDS s
  | _ => True
  end.

(** The kernel runs a call, or does something that is not about descriptors. *)
Inductive fd_step (s s' : sys) : Prop :=
  | step_call c : admissible c s -> perform c s = Some s' -> fd_step s s'
  | step_other : y_rest s' = y_rest s -> fd_step s s'.

(** ** The counts *)

Lemma vacant_refs i (s : sys) d t : vacant d MAX_FDS s -> fd_tables (y_rest s) !! d = Some t -> length (fds t) = MAX_FDS -> cnt (names i) (fds t) = 0.
Proof.
  intros [_ Hn] Ht Hl. apply cnt_none. intros k slot Hk. specialize (Hn k ltac:(apply lookup_lt_Some in Hk; lia)).
  unfold fd_file, obind in Hn. rewrite Ht, Hk in Hn. by subst slot.
Qed.

Lemma clear_balanced d (s : sys) : balanced s -> vacant d MAX_FDS s -> accounted still (clear_fds d (y_rest s)).
Proof.
  intros Ha Hv. destruct (proj1 Hv) as [t Ht]. destruct (proj1 (Forall_lookup _ _) (ac_tables _ _ Ha) d t Ht) as [Hl _].
  assert (Hr : forall i, refs i (<[d := zero_fds]> (fd_tables (y_rest s))) = refs i (fd_tables (y_rest s))).
  { intros i. rewrite (refs_insert i _ d t) by done.
    rewrite (vacant_refs i s d t Hv Ht Hl). assert (cnt (names i) (fds zero_fds) = 0) as ->; [|lia].
    apply cnt_none. intros k slot Hk. apply lookup_replicate in Hk as [-> _]. done. }
  destruct Ha as [A1 A2 A3 A4 A5 A6]. split; try done; cbn.
  - intros i f Hf. specialize (A1 i f Hf). unfold file_ok, net in *. cbn. by rewrite Hr.
  - intros i Hf. specialize (A2 i Hf). unfold net in *. cbn. by rewrite Hr.
  - by apply Forall_insert.
  - by rewrite length_insert.
Qed.

Lemma alloc_domain_balanced (s : sys) : balanced s -> admissible NewDomain s -> balanced (cell_alloc_domain s).2.
Proof.
  intros Ha Hv. cbn in Hv. revert Hv. unfold cell_alloc_domain. destruct (first_from _ _ _) as [d|]; [|done]. cbn [fst snd].
  intros Hv. by apply clear_balanced, Hv.
Qed.

Lemma drop_result_some {X} (r : option (X * sys)) s' : drop_result r = Some s' -> exists x, r = Some (x, s').
Proof. destruct r as [[x s]|]; [|done]. intros [= <-]. by exists x. Qed.

Lemma perform_balanced c (s s' : sys) : balanced s -> admissible c s -> perform c s = Some s' -> balanced s'.
Proof.
  intros Ha Hadm. destruct c; cbn [admissible perform] in *;
    lazymatch goal with
    | |- drop_result _ = _ -> _ => intros (x & Hc)%drop_result_some
    | |- Some _ = _ -> _ => intros Hc; apply (inj Some) in Hc; subst s'
    | |- _ => idtac
    end.
  - unfold cell_fd_eventfd. destruct (negb _); [done|]. by apply install_balanced.
  - unfold cell_fd_inotify_init1. destruct (negb _); [done|]. by apply install_balanced.
  - by apply watch_balanced.
  - by apply unwatch_balanced.
  - by eapply pipe2_balanced.
  - destruct Hadm as (H1' & H2' & H3'). by eapply open_node_balanced.
  - by eapply lseek_balanced.
  - by apply dup_balanced.
  - by eapply dup3_balanced.
  - by apply set_flags_balanced.
  - by apply set_fd_flags_balanced.
  - by apply rewind_balanced.
  - by apply dir_offset_balanced.
  - by eapply close_balanced.
  - by eapply event_write_balanced.
  - by eapply event_read_balanced.
  - eapply accounted_smooth; [exact (write_file_smooth _ notify_smooth _ _ _ _ _ _ _ Hc)|done].
  - eapply accounted_smooth; [exact (read_file_smooth _ notify_smooth _ _ _ _ _ _ _ Hc)|done].
  - by apply alloc_domain_balanced.
  - destruct Hadm as [[t Ht] Hn]. by eapply stdio_balanced.
  - destruct Hadm as [[t Ht] Hn]. exact (copy_from_balanced dst src 0 MAX_FDS s t Ha Ht ltac:(lia) ltac:(intros k Hk; apply Hn; lia)).
  - exact (close_flagged_balanced d 0 MAX_FDS s s' Ha ltac:(lia)).
  - exact (close_from_balanced d 0 MAX_FDS s s' Ha ltac:(lia)).
Qed.

Lemma steps_balanced (s s' : sys) : rtc fd_step s s' -> balanced s -> balanced s'.
Proof.
  induction 1 as [|s s1 s2 Hs _ IH]; [done|]. intros Ha. apply IH. destruct Hs as [c Hadm Hc|E]; [by eapply perform_balanced|].
  unfold balanced. by rewrite E.
Qed.

(** The tables at boot: no descriptor, no open file and no pipe is in use. *)
Definition fresh_tables (a : tables B) : Prop :=
  Forall (fun t => t = zero_fds) (fd_tables a) /\ Forall (fun f => f_used f = false) (open_files a) /\
  Forall (fun p => p_used p = false) (pipes a) /\ length (pipes a) = PIPE_COUNT /\
  (length (fd_tables a) < 1024)%nat /\ (length (open_files a) <= 4096)%nat /\ no_rights (others a).

Lemma fresh_balanced (s : sys) : fresh_tables (y_rest s) -> balanced s.
Proof.
  intros (F1 & F2 & F3 & F4 & F5 & F6 & F7). assert (Hr : forall i, refs i (fd_tables (y_rest s)) = 0).
  { intros i. induction F1 as [|t l -> _ IH]; [done|]. cbn [refs]. rewrite IH by (cbn in *; lia).
    assert (cnt (names i) (fds zero_fds) = 0) as ->; [|lia]. apply cnt_none. intros k slot Hk. apply lookup_replicate in Hk as [-> _]. done. }
  split; try done.
  - intros i f Hf. unfold file_ok. rewrite (proj1 (Forall_lookup _ _) F2 i f Hf). unfold net. by rewrite Hr.
  - intros i _. unfold net. by rewrite Hr.
  - intros n p w Hp Hu. rewrite (proj1 (Forall_lookup _ _) F3 n p Hp) in Hu. done.
  - eapply Forall_impl; [exact F1|]. by intros t ->.
Qed.

(** ** Closing the table of a domain *)

Lemma refs_find i l : 0 < refs i l -> exists d t fd, l !! d = Some t /\ fds t !! fd = Some (Some i).
Proof.
  induction l as [|t l IH]; cbn [refs]; [lia|]. intros Hr. destruct (decide (0 < refs i l)) as [Hl|Hl].
  - destruct (IH Hl) as (d & u & fd & Hd & Hf). by exists (S d), u, fd.
  - destruct (decide (Exists (fun slot => slot = Some i) (fds t))) as [He|He].
    + apply Exists_exists in He as (slot & Hin & ->). apply list_elem_of_lookup in Hin as [fd Hfd]. by exists 0%nat, t, fd.
    + assert (cnt (names i) (fds t) = 0); [|lia]. apply cnt_none. intros k slot Hk. apply bool_decide_eq_false. intros ->.
      apply He, Exists_exists. exists (Some i). split; [by eapply list_elem_of_lookup_2|done].
Qed.

(** What a file is does not change, and a free file stays free. *)
Definition kept (f f' : open_file) : Prop :=
  f_type f' = f_type f /\ pipe_id f' = pipe_id f /\ pipe_write_end f' = pipe_write_end f /\ (f_used f' = true -> f_used f = true).

Definition files_kept (s s' : sys) : Prop := forall i f', get_file s' i = Some f' -> exists f, get_file s i = Some f /\ kept f f'.

Lemma files_kept_eq (s s' : sys) : open_files (y_rest s') = open_files (y_rest s) -> files_kept s s'.
Proof. intros E i f'. unfold get_file. rewrite E. intros Hf. by exists f'. Qed.

Lemma files_kept_trans (s s1 s2 : sys) : files_kept s s1 -> files_kept s1 s2 -> files_kept s s2.
Proof.
  intros K1 K2 i f2 Hf2. destruct (K2 i f2 Hf2) as (f1 & Hf1 & A1 & A2 & A3 & A4). destruct (K1 i f1 Hf1) as (f & Hf & B1 & B2 & B3 & B4).
  exists f. split; [done|]. split_and!; try congruence. auto.
Qed.

Lemma files_kept_on_file (s : sys) i g : (forall f, get_file s i = Some f -> kept f (g f)) -> files_kept s (on_file i g s).
Proof.
  intros Hg k f'. destruct (decide (i = k)) as [<-|Hne].
  - unfold get_file. cbn. rewrite list_lookup_alter_eq. destruct (open_files (y_rest s) !! i) as [f|] eqn:Hf; [|done].
    intros [= <-]. exists f. split; [done|]. by apply Hg.
  - rewrite on_file_other by done. intros Hf. by exists f'.
Qed.

Lemma release_kind_files i f (s s' : sys) :
  no_rights (others (y_rest s)) -> plain (f_type f) = true -> release_kind i f s = Some s' -> open_files (y_rest s') = open_files (y_rest s).
Proof.
  intros Hr Hp. unfold release_kind, cell_pipe_release_file. destruct (pipe_for_file (Some f) s) as [[n p]|].
  - intros E. apply notify_smooth in E. rewrite (sm_files _ _ E). by apply settle_rest.
  - destruct (f_type f); try discriminate Hp; by intros [= <-].
Qed.

Lemma release_files i (s s' : sys) : balanced s -> 0 < refs i (fd_tables (y_rest s)) -> cell_release_open_file (Some i) s = Some s' -> files_kept s s'.
Proof.
  intros Ha Hn. unfold cell_release_open_file, obind. destruct (get_file s i) as [f|] eqn:Hf; [|done].
  destruct (used_ok still _ i f Ha Hf ltac:(unfold net; change (fl_refs still i) with 0; lia)) as [Hu _].
  pose proof (ac_files _ _ Ha i f Hf) as Hok. unfold file_ok in Hok. rewrite Hu in Hok. destruct Hok as (_ & _ & _ & Hpl & _).
  destruct (f_refcount f =? 0); [intros [= <-]; by apply files_kept_eq|]. cbv zeta. set (f1 := set_f_refcount f _). set (s1 := on_file i _ s).
  assert (K1 : files_kept s s1) by (apply files_kept_on_file; intros f0; rewrite Hf; by intros [= <-]).
  destruct (negb _); [by intros [= <-]|]. destruct (release_kind i f1 s1) as [s2|] eqn:E2; [|done].
  apply release_kind_files in E2; [|exact (ac_rights _ _ Ha)|done]. destruct (get_file s2 i) as [f2|] eqn:Hf2; [|done]. intros [= <-].
  eapply files_kept_trans; [exact K1|]. eapply files_kept_trans; [exact (files_kept_eq s1 s2 E2)|]. set (s3 := if has_node f2 then _ else _).
  apply (files_kept_trans _ s3); [apply files_kept_eq; unfold s3; by destruct (has_node f2)|]. by apply files_kept_on_file.
Qed.

(** The loop closes the descriptors of [d] and no others. *)
Lemma close_from_closed d fd n (s s' : sys) :
  balanced s -> (fd + n <= MAX_FDS)%nat -> close_from d fd n s = Some s' ->
  files_kept s s' /\ (forall e k, e <> d -> fd_file e k s' = fd_file e k s) /\
  (forall k, fd_file d k s' = if decide (fd <= k < fd + n)%nat then None else fd_file d k s).
Proof.
  revert fd s. induction n as [|n IH]; intros fd s Ha Hle; cbn [close_from].
  - intros [= <-]. split; [by apply files_kept_eq|]. split; [done|]. intros k. by rewrite decide_False by lia.
  - unfold obind. destruct (cell_release_open_file _ s) as [s1|] eqn:E; [|done].
    assert (Ha1 : balanced (put_fd d fd None 0 s1)) by (by apply (close_slot _ s s1); [done|done|done|lia|]).
    assert (R : files_kept s s1 /\ fd_tables (y_rest s1) = fd_tables (y_rest s)).
    { destruct (fd_file d fd s) as [i|] eqn:Hi; [|injection E as <-; by split; [apply files_kept_eq|]]. apply fd_file_refs in Hi.
      split; [by eapply release_files|]. apply (accounted_release still s s1 i Ha settled_still); [|done]. unfold net. change (fl_refs still i) with 0. lia. }
    destruct R as [K1 T1]. intros Hc. destruct (IH (S fd) _ Ha1 ltac:(lia) Hc) as (K2 & O2 & N2). split_and!.
    + eapply files_kept_trans; [exact K1|]. eapply files_kept_trans; [|exact K2]. by apply files_kept_eq.
    + intros e k He. rewrite O2 by done. rewrite <- (fd_file_tables s s1) by done. unfold fd_file. cbn. by rewrite list_lookup_alter_ne.
    + intros k. rewrite N2. destruct (decide (k = fd)) as [->|Hne].
      * rewrite decide_False, decide_True by lia. unfold fd_file, obind. cbn. rewrite list_lookup_alter_eq.
        destruct (fd_tables (y_rest s1) !! d) as [t|]; [|done]. cbn. destruct (decide (fd < length (fds t))%nat);
          [by rewrite list_lookup_insert_eq|by rewrite list_insert_ge, lookup_ge_None_2 by lia].
      * rewrite put_fd_other, (fd_file_tables s s1) by done. destruct (decide (S fd <= k < S fd + n)%nat);
          [by rewrite decide_True by lia|by rewrite decide_False by lia].
Qed.

Lemma set_k_same (s : sys) : set_y_k s (y_k s) = s.
Proof. by destruct s. Qed.

(** ** Theorems *)

(** A new file that was never opened goes back without touching pipes. *)
Lemma release_new i (s : sys) :
  get_file s i = Some (set_f_refcount (set_f_used zero_file true) 1) ->
  exists s', cell_release_open_file (Some i) s = Some s' /\ pipes (y_rest s') = pipes (y_rest s).
Proof.
  intros Hf. unfold cell_release_open_file. rewrite Hf. cbn [obind]. cbv zeta. set (s1 := on_file i _ s).
  assert (Hf1 : get_file s1 i = Some (set_f_refcount (set_f_used zero_file true) 0)).
  { unfold s1, get_file in *. cbn. by rewrite list_lookup_alter_eq, Hf. }
  change (release_kind i _ s1) with (Some s1). cbn. rewrite Hf1. cbn. eexists. by split.
Qed.

Lemma pipe2_out_of_files (s s1 : sys) d addr flags k :
  balanced s1 -> cell_current_domain_internal s = Some d -> Z.ldiff flags (CELL_O_CLOEXEC .| CELL_O_NONBLOCK) = 0 ->
  0 <= cell_find_free_fd d 0 s -> 0 <= cell_find_free_fd d (Z.to_nat (cell_find_free_fd d 0 s + 1)) s ->
  cell_alloc_pipe_obj 0 s = (Z.of_nat k, s1) -> (cell_alloc_open_file (cell_alloc_open_file s1).2).1 = None ->
  exists s', cell_fd_pipe2 addr flags s = Some (-12, s') /\ pipes (y_rest s') = pipes (y_rest s1).
Proof.
  intros Ha1 Hd Hfl Hr Hw Hp Hone. unfold cell_fd_pipe2. rewrite Hfl, Hd. cbn [Z.eqb negb]. cbv zeta.
  rewrite (proj2 (Z.ltb_ge (cell_find_free_fd d 0 s) 0) Hr), (proj2 (Z.ltb_ge _ 0) Hw). cbn [orb]. rewrite Hp, (proj2 (Z.ltb_ge (Z.of_nat k) 0)) by lia.
  destruct (cell_alloc_open_file s1) as [[r|] s2] eqn:E2; cbn [snd] in Hone.
  - destruct (cell_alloc_open_file s2) as [o s3] eqn:E3. cbn [fst] in Hone. subst o. apply alloc_none in E3 as ->.
    destruct (accounted_alloc _ s1 s2 r Ha1 E2) as (_ & Hf & _ & P2). destruct (release_new r s2 Hf) as (s4 & -> & P4). cbn [obind].
    change (cell_release_open_file None s4) with (Some s4). exists s4. split; [done|congruence].
  - apply alloc_none in E2 as ->. destruct (cell_alloc_open_file s1) as [o s3] eqn:E3. cbn [fst] in Hone. subst o. apply alloc_none in E3 as ->.
    exists s1. by split.
Qed.

(** C5: The counts of the descriptor code are exact. Start with empty tables (at most
    1023 domains) and let the kernel run any calls on descriptors, successful or
    not, in any order. Then the reference count of a used open file is the number of
    descriptors that name it, which is not zero; a descriptor names only used files;
    and the readers and writers of a used pipe are the numbers of its open ends. *)
Theorem descriptors_accounted (s s' : sys) :
  fresh_tables (y_rest s) -> rtc fd_step s s' ->
  (forall i f, get_file s' i = Some f ->
     f_used f = bool_decide (0 < refs i (fd_tables (y_rest s'))) /\ (f_used f = true -> f_refcount f = refs i (fd_tables (y_rest s')))) /\
  (forall d fd i, fd_file d fd s' = Some i -> exists f, get_file s' i = Some f /\ f_used f = true) /\
  (forall n p, get_pipe s' n = Some p -> p_used p = true ->
     readers p = cnt (has_end false n) (open_files (y_rest s')) /\ writers p = cnt (has_end true n) (open_files (y_rest s'))).
Proof.
  intros Hf Hs. pose proof (steps_balanced s s' Hs (fresh_balanced s Hf)) as Ha.
  assert (Hnet : forall i, net still (y_rest s') i = refs i (fd_tables (y_rest s'))) by (intros; unfold net; cbn; lia). split_and!.
  - intros i f Hi. pose proof (ac_files _ _ Ha i f Hi) as Hok. unfold file_ok in Hok. rewrite Hnet in Hok.
    destruct (f_used f); [|rewrite Hok; by split]. destruct Hok as (R1 & R2 & R3 & _). split; [|done]. symmetry. apply bool_decide_eq_true.
    destruct (Z.eq_dec (refs i (fd_tables (y_rest s'))) 0) as [E|]; [by specialize (R3 E)|lia].
  - intros d fd i Hi. apply fd_file_refs in Hi. rewrite <- Hnet in Hi. destruct (net_file still s' i Ha ltac:(lia)) as [f Hfi].
    exists f. split; [done|]. by eapply used_ok.
  - intros n p Hp Hu. rewrite <- (Z.add_0_r (cnt (has_end false n) _)), <- (Z.add_0_r (cnt (has_end true n) _)).
    split; [exact (ac_pipes _ _ Ha n p false Hp Hu)|exact (ac_pipes _ _ Ha n p true Hp Hu)].
Qed.

(** C10: The end of a pipe's last writer is the end of its data. When a domain closes
    all descriptors and every descriptor of a write end of pipe [n] was one of
    them, the pipe has no writer left, and if it is empty, then a read returns 0 at once
    and changes nothing (of a named pipe: once it had a writer). *)
Theorem writer_exit_ends_pipe (s s' : sys) (d n : nat) (p : pipe_obj) :
  balanced s -> cell_close_all_fds d s = Some s' ->
  (forall i f e fd, get_file s i = Some f -> has_end true n f = true -> fd_file e fd s = Some i -> e = d) ->
  get_pipe s' n = Some p -> p_used p = true ->
  writers p = 0 /\
  (len p = 0 -> fifo_ino p = 0 \/ had_writer p = true -> forall e buf count, 0 < count ->
     cell_pipe_read_id_to_domain e (Z.of_nat n) buf count s' = Some (0, s')).
Proof.
  intros Ha Hc Hw Hp Hu. pose proof (close_from_balanced d 0 MAX_FDS s s' Ha ltac:(lia) Hc) as Ha'.
  destruct (close_from_closed d 0 MAX_FDS s s' Ha ltac:(lia) Hc) as (K & O & N).
  assert (W : writers p = 0).
  { pose proof (ac_pipes _ _ Ha' n p true Hp Hu) as E. cbn in E. rewrite E. assert (cnt (has_end true n) (open_files (y_rest s')) = 0) as ->; [|lia].
    apply cnt_none. intros i f' Hf'. apply not_true_is_false. intros He. pose proof He as (Eu & Et & Ei & Ew)%has_end_spec.
    destruct (K i f' Hf') as (f & Hf & K1 & K2 & K3 & K4). pose proof (ac_files _ _ Ha' i f' Hf') as Hok. unfold file_ok in Hok. rewrite Eu in Hok.
    destruct Hok as (_ & R2 & R3 & _). assert (0 < refs i (fd_tables (y_rest s'))) as (e & t & fd & Ht & Hfd)%refs_find.
    { unfold net in *. cbn in *. destruct (Z.eq_dec (refs i (fd_tables (y_rest s')) + 0) 0) as [E0|]; [by specialize (R3 E0)|lia]. }
    assert (Hi : fd_file e fd s' = Some i) by (unfold fd_file; by rewrite Ht; cbn; rewrite Hfd).
    destruct (decide (e = d)) as [->|Hne].
    - rewrite N in Hi. destruct (decide _) as [|Hno]; [done|]. apply Hno. apply lookup_lt_Some in Hfd.
      destruct (proj1 (Forall_lookup _ _) (ac_tables _ _ Ha') d t Ht). lia.
    - rewrite O in Hi by done. apply Hne, (Hw i f e fd Hf); [|done]. apply has_end_spec. split_and!; [auto|congruence..]. }
  split; [done|]. intros Hl Hino e buf count Hcount. unfold cell_pipe_read_id_to_domain, read_id. rewrite (proj2 (Z.eqb_neq count 0)) by lia.
  assert (Hn : (n < PIPE_COUNT)%nat) by (destruct (ac_sizes _ _ Ha') as [<- _]; by eapply lookup_lt_Some).
  rewrite (proj2 (pipe_for_id_spec (Z.of_nat n) s' n p ltac:(lia)) ltac:(by split_and!)). cbv zeta. rewrite Hl.
  rewrite (proj2 (Z.ltb_ge count 0)) by lia. cbn [Z.eqb negb obind]. rewrite set_k_same.
  change (iter (read_step e n buf 0) (copy_fuel 0) (0, s')) with (Some (Some (true, s'))). cbn [obind negb]. rewrite Hp. cbn [obind].
  rewrite W. cbn [Z.eqb andb]. destruct Hino as [-> | ->]; [done|]. by rewrite orb_true_r.
Qed.

(** C30: [cell_fd_pipe2] loses a pipe when the open files run out. With two free
    descriptors, a free pipe and at most one free open file, the call returns -12
    (out of memory) and leaves the new pipe in use without any open end, so that
    no close ever destroys it. *)
Theorem pipe2_loses_pipe (s s1 : sys) (d : nat) (addr flags n : Z) :
  balanced s -> seated s -> cell_current_domain_internal s = Some d -> Z.ldiff flags (CELL_O_CLOEXEC .| CELL_O_NONBLOCK) = 0 ->
  0 <= cell_find_free_fd d 0 s -> 0 <= cell_find_free_fd d (Z.to_nat (cell_find_free_fd d 0 s + 1)) s ->
  cell_alloc_pipe_obj 0 s = (n, s1) -> 0 <= n -> (cell_alloc_open_file (cell_alloc_open_file s1).2).1 = None ->
  exists s' p, cell_fd_pipe2 addr flags s = Some (-12, s') /\ get_pipe s' (Z.to_nat n) = Some p /\ p_used p = true /\
    readers p = 0 /\ writers p = 0 /\ forall w, cnt (has_end w (Z.to_nat n)) (open_files (y_rest s')) = 0.
Proof.
  intros Ha Hs Hd Hfl Hr Hw Hp Hn Hone. destruct (accounted_alloc_pipe still s s1 0 n Ha settled_still Hp) as (Ha1 & _ & T1 & Hpp).
  destruct Hpp as [|(k & p & -> & Hk & Hgp & Hu)]; [lia|]. rewrite Nat2Z.id.
  assert (E : readers p = 0 /\ writers p = 0).
  { revert Hp. unfold cell_alloc_pipe_obj. destruct (first_from _ _ _) as [i|] eqn:Ei; [|intros [= Hm _]; lia].
    destruct (pipe_alloc_storage zero_pipe _) as [[ok q] m]. destruct ok; cbn [negb]; [|intros [= Hm _]; lia]. intros [= Hm <-].
    assert (i = k) as -> by lia. unfold get_pipe in Hgp. cbn in Hgp. rewrite list_lookup_insert_eq in Hgp; [by injection Hgp as <-|].
    apply first_from_Some in Ei as (Hi & _ & _). destruct (ac_sizes _ _ Ha) as [-> _]. lia. }
  destruct (pipe2_out_of_files s s1 d addr flags k Ha1 Hd Hfl Hr Hw Hp Hone) as (s' & R & Ep).
  pose proof (pipe2_balanced addr flags s _ s' Ha Hs R) as Ha'. exists s', p. assert (Hgp' : get_pipe s' k = Some p) by (unfold get_pipe; by rewrite Ep).
  split_and!; [done|done|done|apply E|apply E|]. intros w. pose proof (ac_pipes _ _ Ha' k p w Hgp' Hu) as Hc. destruct E. destruct w; cbn in Hc; lia.
Qed.
End Spec.

(** ** Two processes *)

Import MemorySpec SchedSample FdSample.

(** Calls one after the other. *)
Definition run (l : list fd_call) (s : sys (V := zeros) (A := tables unit)) : sys :=
  fold_left (fun s c => default s (perform c s)) l s.

Definition vacantb (d n : nat) (s : sys (V := zeros) (A := tables unit)) : bool :=
  match fd_tables (y_rest s) !! d with Some _ => forallb (fun k => bool_decide (fd_file d k s = None)) (seq 0 n) | None => false end.

Definition seatedb (s : sys (V := zeros) (A := tables unit)) : bool :=
  match cell_current_domain_internal s with
  | Some d => match fd_tables (y_rest s) !! d with Some _ => true | None => false end
  | None => true
  end.

Definition ready (c : fd_call) (s : sys (V := zeros) (A := tables unit)) : bool :=
  match c with
  | CallEventfd _ _ | CallInotify _ | CallPipe2 _ _ => seatedb s
  | CopyTable dst _ => vacantb dst MAX_FDS s
  | InitStdio d => vacantb d 3 s
  | CallOpen node _ _ => seatedb s && negb (device node =? RAMFS_DEV_PTMX) && negb (device node =? RAMFS_DEV_PTS)
  | NewDomain => false
  | _ => true
  end && match perform c s with Some _ => true | None => false end.

Fixpoint all_ready (l : list fd_call) (s : sys (V := zeros) (A := tables unit)) : bool :=
  match l with [] => true | c :: l => ready c s && all_ready l (default s (perform c s)) end.

Lemma vacantb_spec d n s : vacantb d n s = true -> vacant d n s.
Proof.
  unfold vacantb, vacant. destruct (fd_tables (y_rest s) !! d) as [t|]; [|done]. intros Hb. split; [by exists t|]. intros k Hk.
  rewrite forallb_forall in Hb. specialize (Hb k (proj2 (in_seq n 0 k) ltac:(lia))). by apply bool_decide_eq_true in Hb.
Qed.

Lemma seatedb_spec s : seatedb s = true -> seated s.
Proof.
  unfold seatedb, seated. intros Hb d Hd. rewrite Hd in Hb. destruct (fd_tables (y_rest s) !! d) as [t|]; [by exists t|done].
Qed.

Lemma ready_step c s : ready c s = true -> fd_step s (default s (perform c s)).
Proof.
  unfold ready. intros [Ha Hp]%andb_prop. apply (step_call _ _ c).
  - clear Hp. destruct c; cbv iota in Ha; try exact I; try discriminate Ha; 
      try solve [exact (seatedb_spec s Ha)|exact (vacantb_spec _ _ s Ha)].
    apply andb_prop in Ha as [[Hs H1']%andb_prop H2']. apply negb_true_iff, Z.eqb_neq in H1', H2'. by split; [apply seatedb_spec|].
  - by destruct (perform c s).
Qed.

Lemma calls_steps l s : all_ready l s = true -> rtc fd_step s (run l s).
Proof.
  revert s. induction l as [|c l IH]; intros s; cbn [all_ready run fold_left]; [done|]. intros [Hc Hl]%andb_prop.
  eapply rtc_l; [by apply ready_step|by apply IH].
Qed.

Lemma fresh_start n : (n <= 4096)%nat -> fresh_tables (y_rest (start n)).
Proof.
  intros Hn. unfold fresh_tables. cbn [start start_on y_rest empty_tables fd_tables open_files pipes others].
  split; [by repeat constructor|]. split; [by apply Forall_replicate|]. split; [by apply Forall_replicate|].
  split; [done|]. split; [cbn; lia|]. split; [by rewrite length_replicate|done].
Qed.

(** A pipe whose write end is passed on: domain 0 opens both ends of a named pipe,
    domain 1 inherits them, and domain 0 keeps the read end and a copy of it. *)
Definition passed_on : list fd_call :=
  [CallOpen fifo_node 0 None; CallOpen fifo_node 1 None; CopyTable 1 0; CallClose 1; CallDup 0 5].

(** Only domain [d] names write ends of pipe [n]. *)
Definition only_writer (d n : nat) (s : sys (V := zeros) (A := tables unit)) : bool :=
  forallb (fun e => (e =? d)%nat || forallb (fun fd =>
    match fd_file e fd s with
    | Some i => match get_file s i with Some f => negb (has_end true n f) | None => true end
    | None => true
    end) (seq 0 MAX_FDS)) (seq 0 (length (fd_tables (y_rest s)))).

Lemma only_writer_spec d n s i f e fd :
  balanced s -> only_writer d n s = true -> get_file s i = Some f -> has_end true n f = true -> fd_file e fd s = Some i -> e = d.
Proof.
  intros Ha Hb Hf He Hi. destruct (fd_file_table s e fd i Hi) as [t Ht]. unfold only_writer in Hb. rewrite forallb_forall in Hb.
  pose proof (lookup_lt_Some _ _ _ Ht). specialize (Hb e (proj2 (in_seq (length (fd_tables (y_rest s))) 0 e) ltac:(lia))). apply orb_prop in Hb as [Hb%Nat.eqb_eq|Hb]; [done|].
  assert ((fd < MAX_FDS)%nat).
  { unfold fd_file, obind in Hi. rewrite Ht in Hi. destruct (fds t !! fd) eqn:Hs; [|done]. apply lookup_lt_Some in Hs.
    destruct (proj1 (Forall_lookup _ _) (ac_tables _ _ Ha) e t Ht). lia. }
  rewrite forallb_forall in Hb. specialize (Hb fd (proj2 (in_seq MAX_FDS 0 fd) ltac:(lia))). rewrite Hi, Hf, He in Hb. done.
Qed.

Definition shared : sys (V := zeros) (A := tables unit) := run passed_on (start 8).
Definition writer_gone : sys (V := zeros) (A := tables unit) := default shared (cell_close_all_fds 1 shared).

Definition is_done {X} (r : option X) : bool := match r with Some _ => true | None => false end.

(** The states of the example, evaluated. *)
Lemma split_facts {X1 X2 X3 X4 X5} (a1 b1 : X1) (a2 b2 : X2) (a3 b3 : X3) (a4 b4 : X4) (a5 b5 : X5) :
  (a1, a2, a3, a4, a5) = (b1, b2, b3, b4, b5) -> a1 = b1 /\ a2 = b2 /\ a3 = b3 /\ a4 = b4 /\ a5 = b5.
Proof. by intros [= -> -> -> -> ->]. Qed.

Lemma option_map_some {X Y} (g : X -> Y) o y : option_map g o = Some y -> exists x, o = Some x /\ g x = y.
Proof. destruct o as [x|]; [|done]. intros [= <-]. by exists x. Qed.

Lemma is_done_some (r : option (sys (V := zeros) (A := tables unit))) s : is_done r = true -> r = Some (default s r).
Proof. by destruct r. Qed.

Lemma passed_on_facts :
  all_ready passed_on (start 8) = true /\ option_map (fun f => (f_used f, f_refcount f)) (get_file shared 0) = Some (true, 3) /\
  is_done (cell_close_all_fds 1 shared) = true /\ only_writer 1 0 shared = true /\
  option_map (fun p => (p_used p, readers p, len p, had_writer p)) (get_pipe writer_gone 0) = Some (true, 1, 0, true).
Proof.
  apply split_facts.
  change ((let s := run passed_on (start 8) in let s' := default s (cell_close_all_fds 1 s) in
    (all_ready passed_on (start 8), option_map (fun f => (f_used f, f_refcount f)) (get_file s 0), is_done (cell_close_all_fds 1 s),
     only_writer 1 0 s, option_map (fun p => (p_used p, readers p, len p, had_writer p)) (get_pipe s' 0)))
    = (true, Some (true, 3), true, true, Some (true, 1, 0, true))). lazy. reflexivity.
Qed.

Lemma passed_on_steps : rtc fd_step (start 8) shared.
Proof. exact (calls_steps passed_on (start 8) (proj1 passed_on_facts)). Qed.

Lemma shared_file : exists f, get_file shared 0 = Some f /\ f_used f = true /\ f_refcount f = 3.
Proof.
  destruct passed_on_facts as (_ & Hf & _). apply option_map_some in Hf as (f & Hf & E). exists f. split; [exact Hf|]. injection E as E1 E2. exact (conj E1 E2).
Qed.

Lemma shared_closed : cell_close_all_fds 1 shared = Some writer_gone.
Proof. destruct passed_on_facts as (_ & _ & Hd & _). exact (is_done_some _ shared Hd). Qed.

Lemma shared_pipe : exists p, get_pipe writer_gone 0 = Some p /\ p_used p = true /\ readers p = 1 /\ len p = 0 /\ had_writer p = true.
Proof.
  destruct passed_on_facts as (_ & _ & _ & _ & Hp). apply option_map_some in Hp as (p & Hp & E). exists p. split; [exact Hp|]. injection E as E1 E2 E3 E4.
  exact (conj E1 (conj E2 (conj E3 E4))).
Qed.

Lemma descriptors_accounted_witness :
  fresh_tables (y_rest (start 8)) /\ rtc fd_step (start 8) shared /\ refs 0 (fd_tables (y_rest shared)) = 3.
Proof.
  pose proof (fresh_start 8 ltac:(lia)) as Hf. pose proof passed_on_steps as Hs. split; [exact Hf|]. split; [exact Hs|].
  destruct (descriptors_accounted _ _ Hf Hs) as (Hc & _). destruct shared_file as (f & E & Hu & Hr). destruct (Hc 0%nat f E) as [_ Hc'].
  rewrite <- (Hc' Hu). exact Hr.
Defined.

Lemma writer_exit_ends_pipe_witness :
  exists p, get_pipe writer_gone 0 = Some p /\ readers p = 1 /\ writers p = 0 /\
  cell_pipe_read_id_to_domain (Some 0%nat) 0 0x400000 10 writer_gone = Some (0, writer_gone).
Proof.
  pose proof (steps_balanced _ _ passed_on_steps (fresh_balanced _ (fresh_start 8 ltac:(lia)))) as Ha. pose proof shared_closed as Hc.
  destruct passed_on_facts as (_ & _ & _ & Ho & _).
  destruct shared_pipe as (p & Hp & Hu & Hr & Hl & Hi).
  destruct (writer_exit_ends_pipe shared writer_gone 1 0 p Ha Hc (fun i f e fd => only_writer_spec 1 0 shared i f e fd Ha Ho) Hp Hu) as [Hw Hread].
  exists p. split; [exact Hp|]. split; [exact Hr|]. split; [exact Hw|]. apply (Hread Hl (or_intror Hi)). lia.
Defined.

Lemma pipe2_facts :
  (cell_alloc_pipe_obj 0 (start 1)).1 = 0 /\ 0 <= cell_find_free_fd 0 0 (start 1) /\
  0 <= cell_find_free_fd 0 (Z.to_nat (cell_find_free_fd 0 0 (start 1) + 1)) (start 1) /\
  (cell_alloc_open_file (cell_alloc_open_file (cell_alloc_pipe_obj 0 (start 1)).2).2).1 = None.
Proof. lazy. by split_and!. Qed.

Lemma pipe2_loses_pipe_witness :
  exists s' p, cell_fd_pipe2 0x400000 0 (start 1) = Some (-12, s') /\ get_pipe s' 0 = Some p /\ p_used p = true /\ readers p = 0 /\ writers p = 0.
Proof.
  pose proof (fresh_balanced _ (fresh_start 1 ltac:(lia))) as Ha. pose proof (surjective_pairing (cell_alloc_pipe_obj 0 (start 1))) as Ep.
  destruct pipe2_facts as (En & Hfr & Hfw & Hone). rewrite En in Ep.
  destruct (pipe2_loses_pipe (start 1) _ 0 0x400000 0 0 Ha (seatedb_spec (start 1) eq_refl) eq_refl eq_refl Hfr Hfw Ep ltac:(lia) Hone)
    as (s' & p & R1 & R2 & R3 & R4 & R5 & _).
  exists s', p. split; [exact R1|]. split; [exact R2|]. split; [exact R3|]. split; [exact R4|exact R5].
Defined.

End FdSpec.
